(* ===== verification/_CoqProject ===== *)
-Q . S2P
Prelude.v
Queue.v
Sync.v
Word.v
Config.v
OpCodes.v
Analysis.v
Machine.v
Gas.v
Calls.v
Instructions.v
JumpTable.v
Precompiles.v
Interpreter.v
StateSpec.v
Invariant.v
Safety.v
CallSafety.v
GasSafety.v
TableSafety.v
PrecompileSafety.v
Execution.v
Sample.v
Semantics.v
GasSpec.v
Evm.v
StateTransition.v
Hex.v
StateData.v
Journal.v
StateView.v
Rollback.v
StateSteps.v
StateRevert.v
StateInstance.v
StateCommit.v
StateLawful.v
StateProperties.v
Rlp.v
RlpStream.v
RlpSpec.v
RlpDecode.v
RlpTotal.v
RlpProperties.v
Keccak.v
KeccakSpec.v
TrieEncoding.v
TrieTree.v
TrieMap.v
TrieNode.v
TrieDatabase.v
Trie.v
TrieRefines.v
TrieHasher.v
TrieCommit.v
TrieContent.v
TrieProof.v
SecureTrie.v
TrieProofs.v
TrieProperties.v
Receipts.v
Json.v
Abi.v
AbiTypes.v
AbiRoundTrip.v
AbiSafety.v
AbiMethods.v
Ledger.v
AbiHelper.v
LedgerFacts.v
Store.v
Dapos.v
DaposSteps.v
DaposGossip.v
DaposExecution.v
DaposProperties.v
Disgover.v
DisgoverProperties.v
Api.v
Dvm.v
