(* ===== verification/Prelude.v ===== *)
(** * disgo: verification of the Dispatch node

    disgo is a node of the Dispatch ledger, written in Go. A transaction reaches
    a delegate over HTTP, is gossiped between delegates (dapos/, with the queues
    of commons/queue/), ordered by time, and executed; a transaction that deploys
    or calls a contract runs in the virtual machine of dvm/, an adapted copy of
    the Ethereum machine whose state is one database per contract.

    ** The parts and how they interact

    dapos pops gossips from a queue and hands contract transactions to dvm_api.go,
    which builds an environment (dvm_helpers.go), a state (ethereum/state) and
    calls ethereum/vm. The machine's [Call] takes a snapshot of the state, moves
    value, runs the callee's code in the interpreter and, on an error, reverts to
    the snapshot. The interpreter fetches an opcode, looks the operation up in the
    instruction table of the release, checks the stack, the read-only rule and the
    memory the operation needs, charges its gas and executes it; the call
    instructions recurse through [Call]. Jumps are checked against a bit vector of
    the code that marks PUSH data.

    ** The files

    - Prelude.v (this file): outcomes of Go code, machine integers, the list
      lemmas and the insertion sort the other files share.
    - Queue.v (commons/queue): the priority queue with container/heap's
      algorithms (Module PQ), the exists map (EM) and the gossip, transaction and
      receipt queues (GQ, TQ, RQ).
    - Word.v (dvm/ethereum/common, common/math, vm/common.go, commons/crypto):
      math/big operations, 256-bit words, byte strings, addresses and hashes.
    - Config.v (dvm/ethereum/params): the fork schedule, the gas tables, the
      protocol constants (Module Params).
    - OpCodes.v (vm/opcodes.go): opcodes (Module Op) and their names.
    - Analysis.v (vm/analysis.go): the code bit vector and the jump destinations.
    - Machine.v (vm/memory.go, stack.go, contract.go, errors.go, interface.go,
      types of jump_table.go and evm.go): the machine's records, the classes of
      what it calls ([StateDB], [VMStateQueryHelper], [Crypto], [Env]) and the
      monad [M] instructions are written in.
    - Gas.v (vm/gas.go, gas_table.go, memory_table.go, stack_table.go), Calls.v
      (the calls of vm/evm.go, ethereum/evm.go), Instructions.v
      (vm/instructions.go), JumpTable.v (vm/jump_table.go), Precompiles.v
      (vm/contracts.go) and Interpreter.v (vm/interpreter.go, [run] of evm.go):
      one definition per Go function, under its name.
    - StateSpec.v: the laws the machine needs of a state ([StateLaws]) and the
      reference state that satisfies them (Module RefState).
    - Invariant.v, Safety.v, CallSafety.v, GasSafety.v, TableSafety.v,
      PrecompileSafety.v, Execution.v: the machine's invariant and the lemmas that
      each instruction, gas function, call, table entry and native contract keeps
      it; Execution.v puts them together, and has the interpreter that watches for what
      the theorems exclude.
    - Sample.v: instances of every interface, for evaluation and witnesses.
    - Semantics.v, GasSpec.v, Evm.v: what instructions compute, what memory and calls
      cost, what transfers and whole calls guarantee.
    - Hex.v (commons/crypto/common.go): the text form of addresses and hashes.
    - StateData.v, Journal.v (dvm/ethereum/state: journal.go, state_object.go,
      statedb.go; commons/types/account.go): the journaled state with its heap of
      objects; Modules Jrn, Obj and SDB, one per Go file. A method is a step of
      the monad [ST], where [None] is a panic.
    - StateView.v: what readers of a state can see ([View], with setoid equality),
      and undoing journal entries on it. Rollback.v: the invariant [wf] and the
      steps that change nothing a reader sees. StateSteps.v: every operation.
      StateRevert.v: undoing and snapshots. StateCommit.v: writing back.
    - StateInstance.v (dvm/vmstatehelperimplemtations/implementation.go, Module
      Helper; the batches of badger_wrapper.go, Module MemBatch): the journaled state as
      the machine's [StateDB] and the helper as its [VMStateQueryHelper]. StateLawful.v:
      the two satisfy [StateLaws], on a disk that takes every write.
    - StateProperties.v: what the journaled state guarantees, on a concrete trie
      database, coding, ledger and disk.
    - Rlp.v, RlpStream.v (dvm/ethereum/rlp: encode.go, raw.go; decode.go): the
      encode buffer with its deferred list headers and the writers; the stream and
      the decoders. Go types are data ([rtype]). RlpSpec.v: items, their encoding,
      and that the buffer holds it. RlpDecode.v: decoders read it back. RlpTotal.v:
      decoding ends. RlpProperties.v: the theorems.
    - Keccak.v (dvm/ethereum/crypto: sha3.go, keccakf.go, crypto.go): the hash with its
      state of 25 lanes, its buffer and its unrolled rounds; KeccakSpec.v: FIPS 202.
    - The tries (dvm/ethereum/trie). TrieEncoding.v (encoding.go): keys as nibbles.
      TrieTree.v, TrieMap.v: the tree a trie stands for and its map, without hashes,
      caches and databases. TrieNode.v (node.go): nodes, hash references
      and their RLP. TrieDatabase.v (database.go): the node cache with its reference
      counts over a disk. Trie.v (trie.go), TrieHasher.v (hasher.go), TrieProof.v
      (proof.go), SecureTrie.v (secure_trie.go): the operations. TrieRefines.v,
      TrieCommit.v, TrieContent.v, TrieProofs.v: the tries refine the trees; writing
      back; what nodes measure, one root, one content; proofs. TrieProperties.v: the
      theorems, and a trie to evaluate.
    - StateTransition.v (ethereum/state_transition.go, gaspool.go, the message of
      types/transaction.go): gas bought, used and returned around a call or a
      creation, and where it goes.
    - Receipts.v (ethereum/types: bloom9.go, log.go, receipt.go,
      receiptforstorage.go): Modules Bloom and EthReceipt; nothing a bloom was
      given is missed; what of a receipt is read back.
    - Dvm.v (dvm/: dvm_api.go, dvm_helpers.go, dvm_result.go, the whole helper of
      implementation.go, [AsMessage]): a transaction as
      a message, its environment, its receipt, what is committed (Module
      StateHelper) and what is reported; a contract that is deployed and called. Dapos.v
      sees the service as its class [DVMService], whose database holds records where
      the disk of this file holds bytes.
    - Abi.v (ethereum/abi: type.go, error.go, reflect.go, numbers.go, pack.go,
      argument.go, unpack.go): types, Go values as data, packing and unpacking.
      AbiTypes.v: types of what is unpacked. AbiRoundTrip.v: packed and unpacked.
      AbiSafety.v: unpacking of any bytes, and where the two do not fit together.
      AbiMethods.v (abi.go, method.go, event.go): signatures, identifiers, interfaces
      read from JSON. AbiHelper.v (commons/helper/abi_helper.go): the parameters of a
      transaction as Go values, and from those to the call's data.
    - Disgover.v (disgover/, commons/types: authentication.go, the storage of node.go):
      pings of seeds, updates from them, who is believed, as steps of the monad [DM] over
      the [service], which contains the [node] of Dapos.v. DisgoverProperties.v: its
      theorems, a network to evaluate, and what it believes wrongly.
    - Api.v (dapos/dapos_api.go, the listings of commons/types, transaction_sorter.go):
      what clients ask, over the [service] of Disgover.v, and the pages they are given.
    - Sync.v (commons/utils: kmutex.go, events.go): locks by key as a step relation
      of threads (Module Kmutex), events (Module EventManager).
    - Json.v: strings, their bytes and JSON documents. Ledger.v (commons/types,
      commons/crypto): the records, one Module per Go type, with their JSON, keys,
      hashes, signatures and checks. LedgerFacts.v: what is written is read back,
      and what a signature covers. Store.v: badger and go-cache ([Badger],
      [GoCache] and their laws), records in the database.
    - Dapos.v (dapos/dapos_handshake.go, dapos_transport_grpc.go): the [node] - the
      database, the cache, the records pointers point to, the channels, the queue
      and the timers - and its handlers, steps of the monad [NM] where [None] is a
      panic. DaposSteps.v: the post-conditions [nwp] of such steps. DaposGossip.v:
      rumors, synchronizing, two thirds. DaposExecution.v: transfers from the
      balances to the commit. DaposProperties.v: the theorems, a node to
      evaluate, and an attack on it.

    ** How the code is modelled

    A Go function that may panic or fail to return gives an [outcome]: [Ret],
    [Err] (here only: out of fuel) or [Panic] (nil dereference, index or slice
    out of range). Go errors are values ([vm_error]). [uint64] arithmetic is
    wrapped with [u64], [int64] with [i64]; a big integer is a [Z], a nil one is
    [None]; addresses and hashes are the numbers their bytes spell; byte slices
    are lists of [Z], with [slice] for the slice expression and its panic.
    Instructions run in the state monad [M] over a [frame] (program counter,
    contract, memory, stack, machine). The instructions that call take the
    recursor [run] as an argument; [Interpreter.interp] ties the knot.

    State objects are shared through pointers in Go: the live set, the journal and
    the running method hold the same object. The state's [objects] is that heap, a
    [loc] a pointer into it. A trie never returns what was not stored
    ([TrieLaws]), an account coded with a balance is decoded again ([CodecLaws]),
    code is stored under its hash and the ledger knows accounts by their address
    ([BackendLaws]), a disk keeps what it took and a trie that was committed to a disk that
    takes every write opens again ([DiskLaws]); StateProperties.v meets
    them all. That every write is taken ([takes_writes]) is a hypothesis where it is
    needed: badger_wrapper.go drops the error of a write. A code hash is nil or one array
    of 32 bytes.

    The nodes of a trie are a tree: the code copies a node before it writes to it, so
    sharing is not seen. The pointer of a secure trie to itself, which tells whether the
    cache of preimages is its own, is the flag [owns]. A map whose order Go leaves open is ranged over in an order the class
    [MapRange] chooses. The hash is Keccak-256 itself where it is computed; that no two
    of the texts in use collide is a hypothesis on the set of those texts, never on all.
    Recursion over a key is given [fuel_for], twice its nibbles and four.

    In the ledger, a document is the tree its text denotes; numbers are the integers
    records are written with and are rounded to [float64] as Go's [interface{}]
    decoding does; nil and empty slices are one. Each handler of the node is one
    step: goroutines interleave between handlers, not within them (transactions of
    the database are isolated by badger's snapshots, and [commit_law] says what a
    commit sees). Channels are unbounded lists. Clock, random numbers and peers
    ([NodeEnv]) are oracles; hash and curve ([Signatures]) are parameters.

    Classes stand for what is not computed here: [StateDB] is the interface of
    vm/interface.go, [VMStateQueryHelper] that of dvm/vmstatehelpercontracts,
    [Crypto] and [PrecompileLib] the hash, signature and curve libraries, [Env]
    the block context and chain configuration. [StateLaws] states what the
    machine relies on of the first three; [RefState.ref_StateLaws] shows the
    laws can be met. [CodesInUse] names the codes no two of which share a hash, on which
    the cache of jump destinations relies.

    ** What the theorems about the machine exclude

    Two things no theorem excludes by an assumption on the environment: an instruction
    DIFFICULTY where no difficulty is set, as in every environment of dvm_helpers.go, and
    two codes with one hash. Execution.v runs an interpreter beside the machine's
    that stops with [Excluded] at such a frame ([watched], [foreseen]); it agrees with the
    machine's on whatever it ends with. The theorems on calls, creations, transitions and
    messages say that what it does not exclude ends ([foreseen_run]); that is
    computed for a concrete run ([foreseen_when]). The environment then is only
    asked for a gas price and a block number ([EnvOk]), which those of the service have
    (lemma tx_env_ok of Dvm.v).

    ** Fuel

    [interp] spends one unit of fuel per turn of the interpreter's loop and gives
    what is left to the frames below. Execution.v shows that each turn lowers
    [measure], gas first, then what is left of the code; so [enough_fuel gas]
    units suffice for any foreseen call made with [gas] (theorem message_calls_end_safely),
    and more fuel never changes a result (lemma results_do_not_depend_on_fuel). Decoding
    RLP is given one more turn than there are bytes; decoding_ends shows it enough.

    ** What the theorems show

    - Totality and safety of the machine: foreseen calls and creations end without a panic
      and without creating gas, and undo what failed (Evm.v), and so do the messages of the
      service, in its environments and on its state (Dvm.v); the frames of a run
      keep the stack limit and the memory bound; static calls do not write; the
      native contracts are total on every input they are paid for.
    - Meaning: arithmetic, comparison and bit instructions refine functions on
      256-bit words; memory words are read back; PUSH reads its immediate; the
      jump check accepts exactly the JUMPDEST instructions; exponentiation, safe
      64-bit arithmetic and the memory fee compute what they should.
    - Protocol data: each release extends the one before; opcode names are
      inverse tables; the fork compatibility check finds a sound rewind height.
    - The journaled state: reverting to a snapshot restores all a reader can see
      whatever happened since, a setter refines the update of one field, a reader
      changes nothing, the helper's commit to a disk that takes every write leaves every
      stored state loadable, and foreseen message calls on this state end safely - the composition of the machine's
      theorems with [journaled_StateLaws]. A state just opened has no nonces.
    - RLP: what is encoded is the RLP of the items a value stands for, decoding
      inverts it, and decoding ends on any input unless the type has a slice of
      one-byte arrays, for which it need not.
    - Text: hexadecimal addresses and hashes round-trip.
    - The ledger: a transfer moves exactly its value or nothing, once, and keeps the
      ledger well-formed; stored records are found again, but for the hertz.
    - Consensus: what a gossip adds to the node's own, and when a transaction is
      queued. Both have holes, which theorems show: the transaction of a gossip on a
      known hash is not verified before it is executed, rumors count unverified, a
      malformed rumor crashes the handler, a signature leaves a call's parameters
      open.
    - Discovery: what exactly a node changes on a seed's word, and that it changes nothing
      without; a seed answers every ping and keeps
      answering. Both have holes, which theorems show: an authentication can be used by
      whoever received it, for other delegates and even to install software, and a node
      that is not a listed delegate becomes one by saying so.
    - Locks by key exclude each other and serve everyone who waits; no event is
      missed.
    - Tries: a trie refines a map; what it holds fixes its root hash and, without a
      collision, the root what it holds; a committed trie opens again; missing nodes are
      named; proofs verify and a verified proof is right; Keccak is the sponge.
    - Contract calls: the parameters that denote values exactly arrive, packed arguments in
      the ranges of their types unpack, unpacking any bytes
      stays within them and gives values of the right types; a transition accounts for
      its gas; blooms have no false negatives; receipts load back, but for the status.
    - The service, on a disk that takes every write: what is deployed or called is reported with its gas, logs, result and
      address, and its state is what the contract's next call starts from, while nothing
      of other contracts is touched; but the status is always that of a failure. Examples
      show what else is lost: the logs of calls, the error of a commit, and the node, when
      a contract asks for the difficulty.
    - Queues: the gossip queue refines a bag with distinct hashes that gives the
      oldest element first.
    - Clients: a page is the slice of the listing it says, in the order of the keys as strings
      where transactions are listed by time, but for transactions missing at the end; asking changes nothing, and only delegates give data (Api.v).
    - Hazards (end of Evm.v): DIFFICULTY panics on a node that sets no difficulty; the effects of
      a nested CALL survive the revert of its caller; the memory fee wraps from
      2^32 words on; EXTCODEHASH is free under the node's configuration.

    ** Bounds assumed

    Gas stays below 2^62 (the node runs with 10^12); byte slices are shorter than
    2^62; the [float32] of two thirds of the delegates is exact below 2^22 of them
    (DaposGossip.v). Hashes and addresses are integers; where one is read from or written
    to bytes it is of 32 or 20 of them. Allocation never fails: a slice the Go runtime would refuse to allocate
    is an ordinary list here.

    ** Not modelled

    ForEachStorage and the string forms of the state; the JSON of reports. RLP of types
    with their own EncodeRLP or DecodeRLP methods and of recursive types. Unpacking into a variable the caller gives, which is reflection over any Go
    type and which the node does not do. The pool of reusable integers, the tracer and
    debug output of the machine; the goroutine behind the priority queue, taken as what
    one watcher does, each operation atomic; protobuf, gRPC and HTTP transports, the
    badger database, the genesis account, the synchronisation of a new node, logging,
    the SDK and the HTTP routes; the elliptic curve libraries. *)
From Stdlib Require Import ZArith Lia.
From stdpp Require Export base option list gmap strings sorting.
From stdpp Require Import fin_maps.

#[global] Set Default Goal Selector "!".

(** ** Outcomes of Go code

    A Go function either returns a value, returns a non-nil [error], or
    panics.  [Ret], [Err] and [Panic] keep the three apart; [bind] propagates
    the last two, which is what [if err != nil { return ..., err }] and an
    unrecovered panic do. *)
Inductive outcome (E A : Type) : Type :=
  | Ret (a : A)
  | Err (e : E)
  | Panic.
Arguments Ret {E A} a.
Arguments Err {E A} e.
Arguments Panic {E A}.

#[export] Instance outcome_ret {E} : MRet (outcome E) := fun A => Ret.

#[export] Instance outcome_bind {E} : MBind (outcome E) := fun A B k m =>
  match m with
  | Ret a => k a
  | Err e => Err e
  | Panic => Panic
  end.

(** A computation that cannot return an error value still may panic; [or_panic]
    lifts a partial Go expression (index, slice, type assertion). *)
Definition or_panic {E A} (m : option A) : outcome E A :=
  match m with Some a => Ret a | None => Panic end.

Lemma bind_Ret_inv {E A B} (m : outcome E A) (k : A -> outcome E B) b :
  m ≫= k = Ret b -> exists a, m = Ret a /\ k a = Ret b.
Proof. destruct m; simpl; intros; eauto; discriminate. Qed.

Lemma outcome_bind_assoc {E A B C} (m : outcome E A) (f : A -> outcome E B)
    (g : B -> outcome E C) : (m ≫= f) ≫= g = m ≫= (fun x => f x ≫= g).
Proof. by destruct m. Qed.

Lemma or_panic_Ret {E A} (m : option A) a : or_panic (E:=E) m = Ret a <-> m = Some a.
Proof. destruct m; simpl; split; congruence. Qed.

(** [inv_bind] opens every hypothesis that says a sequence of binds returned. *)
Ltac inv_bind :=
  repeat match goal with
  | H : @mbind (outcome _) _ _ _ _ _ = Ret _ |- _ =>
      apply bind_Ret_inv in H; destruct H as (? & ? & ?)
  | H : or_panic _ = Ret _ |- _ => apply or_panic_Ret in H
  | H : mret _ = Ret _ |- _ => change (Ret _ = Ret _) in H
  | H : Ret _ = Ret _ |- _ => injection H as H; subst
  | H : Err _ = Ret _ |- _ => discriminate H
  | H : Panic = Ret _ |- _ => discriminate H
  end.

(** [simpl_decide] resolves every [decide] whose proposition arithmetic or the
    context settles. *)
Ltac simpl_decide :=
  repeat first
    [ rewrite decide_True by (done || lia)
    | rewrite decide_False by (done || lia) ].

(** ** Machine integers

    [u8], [u64] and [i64] are the values Go's [byte], [uint64] and [int64]
    arithmetic wraps to. *)
Definition u8 (z : Z) : Z := (z mod 256)%Z.
Definition u64 (z : Z) : Z := (z mod 2 ^ 64)%Z.
Definition i64 (z : Z) : Z := ((z + 2 ^ 63) mod 2 ^ 64 - 2 ^ 63)%Z.

Definition is_u64 (z : Z) : Prop := (0 <= z < 2 ^ 64)%Z.
Definition is_i64 (z : Z) : Prop := (- 2 ^ 63 <= z < 2 ^ 63)%Z.

Create HintDb go.

Lemma u64_range z : is_u64 (u64 z).
Proof. apply Z.mod_pos_bound. lia. Qed.

Lemma u64_id z : is_u64 z -> u64 z = z.
Proof. intros. by apply Z.mod_small. Qed.

Lemma i64_range z : is_i64 (i64 z).
Proof.
  unfold i64, is_i64. pose proof (Z.mod_pos_bound (z + 2 ^ 63) (2 ^ 64)). lia.
Qed.

Lemma i64_id z : is_i64 z -> i64 z = z.
Proof. unfold i64, is_i64. intros. rewrite Z.mod_small; lia. Qed.

#[export] Hint Resolve u64_range i64_range : go.
Create Rewrite HintDb go_rw.
#[export] Hint Rewrite u64_id i64_id using (unfold is_u64, is_i64 in *; lia) : go_rw.

(** ** Lists *)

(** [exchange l i j] swaps two positions, as Go's
    [pq[i], pq[j] = pq[j], pq[i]]; out of range (Go panics) it is [None]. *)
Definition exchange {A} (l : list A) (i j : nat) : option (list A) :=
  x ← l !! i; y ← l !! j; Some (<[j:=x]> (<[i:=y]> l)).

Lemma exchange_Some {A} (l : list A) i j :
  i < length l -> j < length l -> exists l', exchange l i j = Some l'.
Proof.
  intros Hi Hj. unfold exchange.
  destruct (lookup_lt_is_Some_2 l i Hi) as [x ->]; simpl.
  destruct (lookup_lt_is_Some_2 l j Hj) as [y ->]; simpl. eauto.
Qed.

Lemma exchange_length {A} (l l' : list A) i j :
  exchange l i j = Some l' -> length l' = length l.
Proof.
  unfold exchange. intros. simplify_option_eq. by rewrite !length_insert.
Qed.

Lemma exchange_lookup {A} (l l' : list A) i j k :
  exchange l i j = Some l' ->
  l' !! k = if decide (k = i) then l !! j else if decide (k = j) then l !! i else l !! k.
Proof.
  unfold exchange. intros.
  destruct (l !! i) as [x|] eqn:Ei, (l !! j) as [y|] eqn:Ej; simplify_eq/=.
  pose proof (lookup_lt_Some _ _ _ Ei). pose proof (lookup_lt_Some _ _ _ Ej).
  repeat case_decide; subst.
  - destruct (decide (i = j)); subst.
    + rewrite list_lookup_insert_eq; [congruence | by rewrite length_insert].
    + rewrite list_lookup_insert_ne, list_lookup_insert_eq; auto.
  - rewrite list_lookup_insert_eq; [congruence | by rewrite length_insert].
  - by rewrite !list_lookup_insert_ne by done.
Qed.

Lemma exchange_Permutation {A} (l l' : list A) i j :
  exchange l i j = Some l' -> l' ≡ₚ l.
Proof.
  unfold exchange. intros. simplify_option_eq.
  match goal with Hx : l !! i = Some ?x, Hy : l !! j = Some ?y |- _ =>
    rename Hx into Ex, Hy into Ey end.
  destruct (decide (i = j)) as [->|Hne].
  { simplify_eq. rewrite list_insert_insert_eq, list_insert_id by done. done. }
  apply Permutation_inj. split; [by rewrite !length_insert|].
  exists (fun k => if decide (k = i) then j else if decide (k = j) then i else k). split.
  { intros a b. repeat case_decide; congruence. }
  intros k. symmetry. rewrite (exchange_lookup l _ i j k); [by repeat case_decide|].
  unfold exchange. by rewrite Ex, Ey.
Qed.

(** Two changes of one element are one. *)
Lemma alter_twice {A} (f g h : A -> A) (l : list A) (i : nat) : (forall x, g (f x) = h x) ->
  alter g i (alter f i l) = alter h i l.
Proof.
  intros Hh. apply list_eq. intros j. destruct (decide (i = j)) as [<-|Hne].
  - rewrite !list_lookup_alter_eq. destruct (l !! i); [|done]. simpl. by rewrite Hh.
  - by rewrite !list_lookup_alter_ne by done.
Qed.

(** ** Sorting

    [sort.Sort] of the Go library promises a permutation in which no later
    element is less than an earlier one; it is not stable, so which of two
    equal elements comes first is open.  Definitions that sort take the
    function from this class and theorems use the two laws. *)
Class GoSort := {
  sort_by : forall {A : Type}, (A -> A -> bool) -> list A -> list A;
  sort_by_perm : forall {A} (less : A -> A -> bool) l, sort_by less l ≡ₚ l;
  sort_by_sorted : forall {A} (less : A -> A -> bool) l,
    (forall x y, less x y = true -> less y x = false) ->
    (forall x y z, less y x = false -> less z y = false -> less z x = false) ->
    StronglySorted (fun x y => less y x = false) (sort_by less l)
}.

(** Insertion sort discharges the interface. *)
Section InsertionSort.
Context {A : Type} (less : A -> A -> bool).

Fixpoint insert_sorted (x : A) (l : list A) : list A :=
  match l with
  | [] => [x]
  | y :: l' => if less y x then y :: insert_sorted x l' else x :: l
  end.

Definition insertion_sort (l : list A) : list A := foldr insert_sorted [] l.

Lemma insert_sorted_perm x l : insert_sorted x l ≡ₚ x :: l.
Proof.
  induction l as [|y l IH]; simpl; [done|]. case_match; [|done].
  rewrite IH. apply Permutation_swap.
Qed.

Lemma insertion_sort_perm l : insertion_sort l ≡ₚ l.
Proof. induction l as [|x l IH]; simpl; [done|]. by rewrite insert_sorted_perm, IH. Qed.

Lemma insert_sorted_sorted x l :
  (forall x y, less x y = true -> less y x = false) ->
  (forall x y z, less y x = false -> less z y = false -> less z x = false) ->
  StronglySorted (fun x y => less y x = false) l ->
  StronglySorted (fun x y => less y x = false) (insert_sorted x l).
Proof.
  intros Hasym Htr. induction 1 as [|y l Hs IH Hall]; simpl; [by repeat constructor|].
  case_match eqn:E; constructor; try done.
  - rewrite insert_sorted_perm. constructor; [|done]. by apply Hasym.
  - by constructor.
  - constructor; [done|]. eapply Forall_impl; [done|]. simpl. intros z Hz. by eapply Htr.
Qed.
End InsertionSort.

Lemma insertion_sort_sorted {A} (less : A -> A -> bool) l :
  (forall x y, less x y = true -> less y x = false) ->
  (forall x y z, less y x = false -> less z y = false -> less z x = false) ->
  StronglySorted (fun x y => less y x = false) (insertion_sort less l).
Proof.
  intros. induction l as [|x l IH]; simpl; [constructor|]. by apply insert_sorted_sorted.
Qed.

#[export] Instance insertion_GoSort : GoSort := {|
  sort_by := @insertion_sort;
  sort_by_perm := @insertion_sort_perm;
  sort_by_sorted := @insertion_sort_sorted
|}.
