(* ===== verification/Queue.v ===== *)
(** * The gossip queue (commons/queue)

    [PriorityQueue] with the [heap.Interface] methods of priority_queue.go,
    the [container/heap] algorithms they drive, the [ExistsMap], and the
    Gossip, Transaction and Receipt queues built from them.  The last part
    proves that the array heap refines a bag with "remove a least element". *)
From Stdlib Require Import ZArith Lia.
From S2P Require Import Prelude.

(** ** Items and the [heap.Interface] methods (priority_queue.go) *)

Record Item (A : Type) := mkItem {
  Data : A;
  Priority : Z;
  Index : Z
}.
Arguments mkItem {A} _ _ _.
Arguments Data {A} _.
Arguments Priority {A} _.
Arguments Index {A} _.

Definition set_Index {A} (i : Z) (it : Item A) : Item A :=
  mkItem (Data it) (Priority it) i.

Module PQ.
Section Methods.
Context {A : Type}.
Implicit Types (pq : list (Item A)) (i j n : nat).

Definition Len pq : nat := length pq.

Definition Less pq i j : option bool :=
  y ← pq !! j; x ← pq !! i; Some (bool_decide (Priority x < Priority y)%Z).

Definition Swap pq i j : option (list (Item A)) :=
  pq ← exchange pq i j;
  Some (alter (set_Index (Z.of_nat j)) j (alter (set_Index (Z.of_nat i)) i pq)).

Definition Push pq (x : Item A) : list (Item A) :=
  pq ++ [set_Index (Z.of_nat (length pq)) x].

Definition Pop pq : option (Item A * list (Item A)) :=
  item ← pq !! (length pq - 1);
  Some (set_Index (-1) item, take (length pq - 1) pq).

Definition Peek pq : option Z :=
  if decide (0 < Len pq) then Priority <$> pq !! (Len pq - 1) else Some (-1)%Z.

(** *** [container/heap] *)

Definition parent j : nat := (j - 1) / 2.

(** [up]: the loop of heap.up; every turn goes to the parent index. *)
Fixpoint up (fuel : nat) pq j : option (list (Item A)) :=
  match fuel with
  | O => None
  | S fuel =>
      let i := parent j in
      if decide (i = j) then Some pq else
      lt ← Less pq j i;
      if negb lt then Some pq else
      pq ← Swap pq i j;
      up fuel pq i
  end.

(** the child heap.down compares with: the smaller of the two *)
Definition child pq i n : option nat :=
  let j1 := 2 * i + 1 in
  let j2 := j1 + 1 in
  if decide (j2 < n) then
    lt ← Less pq j2 j1; Some (if lt : bool then j2 else j1)
  else Some j1.

(** [down] also returns the last index visited: heap.down reports
    [i > i0], which [heap_Fix] uses. *)
Fixpoint down (fuel : nat) pq i n : option (list (Item A) * nat) :=
  match fuel with
  | O => None
  | S fuel =>
      if decide (n <= 2 * i + 1) then Some (pq, i) else
      j ← child pq i n;
      lt ← Less pq j i;
      if negb lt then Some (pq, i) else
      pq ← Swap pq i j;
      down fuel pq j n
  end.

(** heap.Init, heap.Push, heap.Pop and heap.Fix.  The fuel given to the loops
    is never exhausted ([up_total], [down_total]). *)
Fixpoint heap_Init_loop (i : nat) pq : option (list (Item A)) :=
  match i with
  | O => Some pq
  | S i => '(pq, _) ← down (S (Len pq)) pq i (Len pq); heap_Init_loop i pq
  end.

Definition heap_Init pq : option (list (Item A)) := heap_Init_loop (Len pq / 2) pq.

Definition heap_Push pq (x : Item A) : option (list (Item A)) :=
  let pq := Push pq x in
  up (S (Len pq)) pq (Len pq - 1).

Definition heap_Pop pq : option (Item A * list (Item A)) :=
  let n := Len pq - 1 in
  pq ← Swap pq 0 n;
  '(pq, _) ← down (S n) pq 0 n;
  Pop pq.

Definition heap_Fix pq i : option (list (Item A)) :=
  '(pq, i') ← down (S (Len pq)) pq i (Len pq);
  if decide (i < i') then Some pq else up (S (Len pq)) pq i.

(** PriorityQueue.Update on the item stored at index [i]: the item is a
    pointer, so the assignment to its fields shows in the queue. *)
Definition Update pq i (value : A) (priority : Z) : option (list (Item A)) :=
  item ← pq !! i;
  heap_Fix (<[i := mkItem value priority (Index item)]> pq) (Z.to_nat (Index item)).

End Methods.
End PQ.

(** ** Order and shape of the array heap *)
Section HeapFacts.
Context {A : Type}.
Import PQ.
Implicit Types (pq : list (Item A)) (i j k n : nat).

Definition content pq : list (A * Z) := (fun it => (Data it, Priority it)) <$> pq.

Definition key pq k : Z := default 0%Z (Priority <$> pq !! k).

Definition index_ok pq : Prop := forall k it, pq !! k = Some it -> Index it = Z.of_nat k.

Definition ordered_below pq n : Prop :=
  forall k, 0 < k < n -> (key pq (parent k) <= key pq k)%Z.

Definition heap_ok pq : Prop := ordered_below pq (length pq) /\ index_ok pq.

Lemma parent_lt k : 0 < k -> parent k < k.
Proof.
  intros. unfold parent. pose proof (Nat.Div0.div_le_mono (k - 1) (k - 1) 2).
  enough ((k - 1) / 2 <= k - 1) by lia. apply Nat.Div0.div_le_upper_bound. lia.
Qed.

Lemma parent_children i k : 0 < k -> parent k = i <-> k = 2 * i + 1 \/ k = 2 * i + 2.
Proof.
  intros. unfold parent. pose proof (Nat.div_mod_eq (k - 1) 2).
  pose proof (Nat.mod_upper_bound (k - 1) 2). lia.
Qed.

Lemma Less_Some pq i j :
  i < length pq -> j < length pq ->
  Less pq i j = Some (bool_decide (key pq i < key pq j)%Z).
Proof.
  intros Hi Hj. unfold Less, key.
  destruct (lookup_lt_is_Some_2 pq i Hi) as [x ->].
  by destruct (lookup_lt_is_Some_2 pq j Hj) as [y ->].
Qed.

Lemma Swap_Some pq i j :
  i < length pq -> j < length pq -> exists pq', Swap pq i j = Some pq'.
Proof.
  intros. unfold Swap. destruct (exchange_Some pq i j) as [l ->]; simpl; eauto.
Qed.

Lemma Swap_length pq pq' i j : Swap pq i j = Some pq' -> length pq' = length pq.
Proof.
  unfold Swap. destruct (exchange pq i j) as [l|] eqn:E; simpl; [|done].
  intros [= <-]. rewrite !length_alter. by eapply exchange_length.
Qed.

Lemma content_alter_Index pq i z : content (alter (set_Index z) i pq) = content pq.
Proof.
  unfold content. apply list_eq. intros k. rewrite !list_lookup_fmap, list_lookup_alter.
  case_decide; subst; [|done]. by destruct (pq !! k).
Qed.

Lemma Swap_content pq pq' i j : Swap pq i j = Some pq' -> content pq' ≡ₚ content pq.
Proof.
  unfold Swap. destruct (exchange pq i j) as [l|] eqn:E; simpl; [|done].
  intros [= <-]. rewrite !content_alter_Index.
  apply fmap_Permutation. by eapply exchange_Permutation.
Qed.

Lemma key_alter_Index pq i z k : key (alter (set_Index z) i pq) k = key pq k.
Proof.
  unfold key. rewrite list_lookup_alter. case_decide; subst; [|done]. by destruct (pq !! k).
Qed.

Lemma Swap_key pq pq' i j k :
  Swap pq i j = Some pq' ->
  key pq' k = if decide (k = i) then key pq j else if decide (k = j) then key pq i else key pq k.
Proof.
  unfold Swap. destruct (exchange pq i j) as [l|] eqn:E; simpl; [|done].
  intros [= <-]. rewrite !key_alter_Index. unfold key.
  rewrite (exchange_lookup _ _ _ _ k E). by repeat case_decide.
Qed.

Lemma Swap_lookup_other pq pq' i j k :
  Swap pq i j = Some pq' -> k <> i -> k <> j -> pq' !! k = pq !! k.
Proof.
  unfold Swap. destruct (exchange pq i j) as [l|] eqn:E; simpl; [|done].
  intros [= <-] ??. rewrite !list_lookup_alter_ne by done.
  rewrite (exchange_lookup _ _ _ _ k E). by rewrite !decide_False by done.
Qed.

Lemma Swap_index_ok pq pq' i j : Swap pq i j = Some pq' -> index_ok pq -> index_ok pq'.
Proof.
  unfold Swap. destruct (exchange pq i j) as [l|] eqn:E; simpl; [|done].
  intros [= <-] Hok k it. rewrite !list_lookup_alter.
  repeat case_decide; subst.
  - destruct (l !! k) eqn:?; simpl; intros; simplify_eq. done.
  - destruct (l !! k) eqn:?; simpl; intros; simplify_eq. done.
  - destruct (l !! k) eqn:?; simpl; intros; simplify_eq. done.
  - rewrite (exchange_lookup _ _ _ _ k E), !decide_False by done. apply Hok.
Qed.

(** *** heap.up *)

(** Everything is in order except possibly the pair ([parent j], [j]). *)
Definition up_inv pq j : Prop :=
  (forall k, 0 < k < length pq -> k <> j -> (key pq (parent k) <= key pq k)%Z) /\
  (forall k, 0 < j -> k < length pq -> 0 < k -> parent k = j ->
     (key pq (parent j) <= key pq k)%Z).

Lemma up_inv_swap pq pq' j :
  up_inv pq j -> 0 < j < length pq -> (key pq j < key pq (parent j))%Z ->
  Swap pq (parent j) j = Some pq' -> up_inv pq' (parent j).
Proof.
  intros [H1 H2] Hj Hlt Hsw. pose proof (parent_lt j ltac:(lia)).
  remember (parent j) as i eqn:Ei. pose proof (Swap_length _ _ _ _ Hsw) as Hlen.
  split; intros k; rewrite Hlen, !(Swap_key _ _ _ _ _ Hsw).
  - intros Hk Hki. pose proof (parent_lt k ltac:(lia)).
    destruct (decide (k = j)) as [->|].
    + rewrite <- Ei. simpl_decide. lia.
    + rewrite (decide_False (P:=k=i)) by done.
      destruct (decide (parent k = i)) as [Hp|].
      * pose proof (H1 k ltac:(lia) ltac:(done)) as Hord. rewrite Hp in Hord. lia.
      * destruct (decide (parent k = j)) as [Hp|]; [|by apply H1; lia].
        by apply H2; lia.
  - intros Hi Hk Hk0 Hp. pose proof (parent_lt i ltac:(lia)). pose proof (parent_lt k Hk0).
    simpl_decide.
    pose proof (H1 i ltac:(lia) ltac:(lia)).
    case_decide; [done|]. pose proof (H1 k ltac:(lia) ltac:(done)) as Hord.
    rewrite Hp in Hord. lia.
Qed.

Record same_items pq pq' : Prop := {
  si_length : length pq' = length pq;
  si_content : content pq' ≡ₚ content pq;
  si_index : index_ok pq -> index_ok pq'
}.

Lemma same_items_refl pq : same_items pq pq.
Proof. by split. Qed.

Lemma same_items_swap pq pq' pq'' i j :
  Swap pq i j = Some pq' -> same_items pq' pq'' -> same_items pq pq''.
Proof.
  intros Hsw [Hl Hc Hi]. split.
  - rewrite Hl. by eapply Swap_length.
  - rewrite Hc. by eapply Swap_content.
  - intros. by eapply Hi, Swap_index_ok.
Qed.

Lemma up_total fuel pq j :
  j < length pq -> j < fuel -> up_inv pq j ->
  exists pq', up fuel pq j = Some pq' /\ same_items pq pq' /\ ordered_below pq' (length pq').
Proof.
  revert pq j. induction fuel as [|fuel IH]; intros pq j Hj Hf Hinv; simpl; [lia|].
  destruct (decide (parent j = j)) as [Heq|Hne].
  { exists pq. split; [done|]. split; [apply same_items_refl|].
    intros k Hk. destruct (decide (k = j)) as [->|]; [|by apply Hinv].
    rewrite Heq. lia. }
  assert (0 < j) as H0 by (destruct j; [by destruct Hne|lia]).
  pose proof (parent_lt j H0).
  rewrite Less_Some by lia. simpl. case_bool_decide as Hlt; simpl.
  - destruct (Swap_Some pq (parent j) j) as [pq1 Hsw]; [lia..|]. rewrite Hsw. simpl.
    pose proof (Swap_length _ _ _ _ Hsw) as Hlen.
    destruct (IH pq1 (parent j)) as (pq' & Hup & Hs & Ho); [lia..|by eapply up_inv_swap|].
    exists pq'. split; [done|]. split; [by eapply same_items_swap|done].
  - exists pq. split; [done|]. split; [apply same_items_refl|].
    intros k Hk. destruct (decide (k = j)) as [->|]; [lia|by apply Hinv].
Qed.

(** *** heap.down *)

Definition children_ok pq i n : Prop :=
  forall k, 0 < k < n -> parent k = i -> (key pq i <= key pq k)%Z.

(** Everything below [n] is in order except possibly around [i]. *)
Definition down_inv pq i n : Prop :=
  (forall k, 0 < k < n -> parent k <> i -> k <> i -> (key pq (parent k) <= key pq k)%Z) /\
  (0 < i -> forall k, 0 < k < n -> parent k = i -> (key pq (parent i) <= key pq k)%Z).

Lemma child_Some pq i n :
  2 * i + 1 < n -> n <= length pq ->
  exists j, child pq i n = Some j /\ i < j < n /\ parent j = i /\
    (forall k, 0 < k < n -> parent k = i -> (key pq j <= key pq k)%Z).
Proof.
  intros Hi Hn. unfold child. remember (2 * i + 1) as j1 eqn:Ej1.
  assert (forall k, 0 < k -> parent k = i <-> k = j1 \/ k = j1 + 1) as Hpar.
  { intros k Hk. rewrite parent_children by done. lia. }
  case_decide as H2.
  - rewrite Less_Some by lia. simpl. case_bool_decide as Hlt; eexists; split; try done.
    + split; [lia|]. split; [apply Hpar; lia|].
      intros k Hk Hp. apply Hpar in Hp; [|lia]. destruct Hp as [->| ->]; lia.
    + split; [lia|]. split; [apply Hpar; lia|].
      intros k Hk Hp. apply Hpar in Hp; [|lia]. destruct Hp as [->| ->]; lia.
  - eexists; split; [done|]. split; [lia|]. split; [apply Hpar; lia|].
    intros k Hk Hp. apply Hpar in Hp; [|lia]. destruct Hp as [->| ->]; lia.
Qed.

Lemma down_inv_swap pq pq' i j n :
  down_inv pq i n -> n <= length pq -> i < j < n -> parent j = i ->
  (forall k, 0 < k < n -> parent k = i -> (key pq j <= key pq k)%Z) ->
  (key pq j < key pq i)%Z -> Swap pq i j = Some pq' ->
  down_inv pq' j n /\ (key pq' (parent j) <= key pq' j)%Z.
Proof.
  intros [H1 H2] Hn Hj Hp Hmin Hlt Hsw. split; [split|].
  - intros k Hk Hpk Hkj. rewrite !(Swap_key _ _ _ _ _ Hsw).
    rewrite (decide_False (P:=k=j)), (decide_False (P:=parent k = j)) by done.
    pose proof (parent_lt k ltac:(lia)).
    destruct (decide (parent k = i)) as [Hpi|Hpi].
    + rewrite decide_False by lia. by apply Hmin.
    + destruct (decide (k = i)) as [->|]; [|by apply H1]. by apply H2; lia.
  - intros _ k Hk Hpk. rewrite !(Swap_key _ _ _ _ _ Hsw), Hp.
    pose proof (parent_lt k ltac:(lia)).
    simpl_decide. rewrite <- Hpk. apply H1; lia.
  - rewrite !(Swap_key _ _ _ _ _ Hsw), Hp.
    simpl_decide. lia.
Qed.

Lemma down_total fuel pq i n :
  n <= length pq -> n < fuel + i -> i <= n -> down_inv pq i n ->
  exists pq' i', down fuel pq i n = Some (pq', i') /\ same_items pq pq' /\
    (forall k, n <= k -> pq' !! k = pq !! k) /\
    ((i' = i /\ pq' = pq /\ children_ok pq i n) \/ (i < i' /\ ordered_below pq' n)).
Proof.
  revert pq i. induction fuel as [|fuel IH]; intros pq i Hn Hf Hi Hinv; simpl; [lia|].
  case_decide as Hleaf.
  { exists pq, i. split; [done|]. split; [apply same_items_refl|]. split; [done|]. left.
    split; [done|]. split; [done|]. intros k Hk Hp. apply parent_children in Hp; lia. }
  destruct (child_Some pq i n) as (j & Hc & Hj & Hp & Hmin); [lia..|]. rewrite Hc. simpl.
  rewrite Less_Some by lia. simpl. case_bool_decide as Hlt; simpl.
  - destruct (Swap_Some pq i j) as [pq1 Hsw]; [lia..|]. rewrite Hsw. simpl.
    pose proof (Swap_length _ _ _ _ Hsw) as Hlen.
    destruct (down_inv_swap pq pq1 i j n) as [Hinv1 Hpar]; [done..|].
    destruct (IH pq1 j) as (pq' & i' & Hd & Hs & Hfr & Hcase); [lia..|done|].
    exists pq', i'. split; [done|]. split; [by eapply same_items_swap|]. split.
    { intros k Hk. rewrite Hfr by done. apply (Swap_lookup_other _ _ _ _ _ Hsw); lia. }
    right. destruct Hcase as [(-> & -> & Hch)|[? ?]]; [|split; [lia|done]].
    split; [lia|]. intros k Hk.
    destruct (decide (k = j)) as [->|]; [done|].
    destruct (decide (parent k = j)) as [Hpk|]; [rewrite Hpk; by apply Hch|].
    by apply Hinv1.
  - exists pq, i. split; [done|]. split; [apply same_items_refl|]. split; [done|]. left.
    split; [done|]. split; [done|]. intros k Hk Hpk. specialize (Hmin k Hk Hpk). lia.
Qed.

(** *** heap.Push, heap.Pop and heap.Fix on well-formed queues *)

Lemma key_ext pq pq' k : pq !! k = pq' !! k -> key pq k = key pq' k.
Proof. unfold key. by intros ->. Qed.

Lemma heap_root_least pq k :
  heap_ok pq -> k < length pq -> (key pq 0 <= key pq k)%Z.
Proof.
  intros [Ho _]. induction k as [k IH] using lt_wf_ind. intros Hk.
  destruct (decide (k = 0)) as [->|]; [lia|]. pose proof (parent_lt k ltac:(lia)).
  specialize (IH (parent k)). specialize (Ho k). lia.
Qed.

Lemma Push_content pq x : content (Push pq x) ≡ₚ (Data x, Priority x) :: content pq.
Proof. unfold content, Push. rewrite fmap_app. simpl. symmetry. apply Permutation_cons_append. Qed.

Lemma Push_index_ok pq x : index_ok pq -> index_ok (Push pq x).
Proof.
  intros Hok k it. unfold Push. rewrite lookup_app. destruct (pq !! k) eqn:E.
  - intros. simplify_eq. by apply Hok.
  - intros Hk. apply lookup_ge_None in E. apply list_lookup_singleton_Some in Hk.
    destruct Hk as [? <-]. simpl. lia.
Qed.

Lemma Push_up_inv pq x : ordered_below pq (length pq) -> up_inv (Push pq x) (length pq).
Proof.
  intros Ho. assert (forall k, k < length pq -> key (Push pq x) k = key pq k) as Hk.
  { intros k Hk. apply key_ext. unfold Push. by rewrite lookup_app_l. }
  unfold up_inv, Push in *. rewrite length_app. simpl. split.
  - intros k Hlt Hne. pose proof (parent_lt k ltac:(lia)). rewrite !Hk by lia. apply Ho. lia.
  - intros k _ Hlt H0 Hp. pose proof (parent_lt k ltac:(lia)). lia.
Qed.

Lemma heap_Push_ok pq x :
  heap_ok pq ->
  exists pq', heap_Push pq x = Some pq' /\ heap_ok pq' /\
    content pq' ≡ₚ (Data x, Priority x) :: content pq.
Proof.
  intros [Ho Hi]. unfold heap_Push, Len.
  assert (length (Push pq x) = S (length pq)) as Hl.
  { unfold Push. rewrite length_app. simpl. lia. }
  rewrite Hl. replace (S (length pq) - 1) with (length pq) by lia.
  destruct (up_total (S (S (length pq))) (Push pq x) (length pq))
    as (pq' & -> & [Hl' Hc Hi'] & Ho'); [lia..|by apply Push_up_inv|].
  exists pq'. split; [done|]. split; [split; [done|by apply Hi', Push_index_ok]|].
  by rewrite Hc, Push_content.
Qed.

Lemma root_down_inv pq pq1 :
  ordered_below pq (length pq) -> 0 < length pq ->
  Swap pq 0 (length pq - 1) = Some pq1 -> down_inv pq1 0 (length pq - 1).
Proof.
  intros Ho Hl Hsw. split; [|lia].
  intros k Hk Hp Hk0. pose proof (parent_lt k ltac:(lia)).
  rewrite !(Swap_key _ _ _ _ _ Hsw). simpl_decide. apply Ho. lia.
Qed.

Lemma content_split_last pq it n :
  pq !! n = Some it -> length pq = S n ->
  content pq ≡ₚ (Data it, Priority it) :: content (take n pq).
Proof.
  intros Hn Hl. rewrite <- (take_drop_middle pq n it Hn) at 1.
  rewrite (drop_ge pq (S n)) by lia. unfold content. rewrite fmap_app. simpl.
  symmetry. apply Permutation_cons_append.
Qed.

Lemma heap_Pop_ok pq :
  heap_ok pq -> 0 < length pq ->
  exists it pq', heap_Pop pq = Some (it, pq') /\ heap_ok pq' /\
    content pq ≡ₚ (Data it, Priority it) :: content pq' /\
    (forall d p, (d, p) ∈ content pq -> (Priority it <= p)%Z).
Proof.
  intros [Ho Hi] Hl. unfold heap_Pop, Len. set (n := length pq - 1).
  destruct (Swap_Some pq 0 n) as [pq1 Hsw]; [lia..|]. rewrite Hsw. cbn [mbind option_bind].
  pose proof (Swap_length _ _ _ _ Hsw) as Hl1.
  destruct (down_total (S n) pq1 0 n) as (pq2 & i' & -> & [Hl2 Hc2 Hi2] & Hfr & Hcase);
    [lia..|by apply (root_down_inv pq)|]. simpl.
  assert (ordered_below pq2 n) as Ho2.
  { destruct Hcase as [(-> & -> & Hch)|[_ ?]]; [|done]. intros k Hk.
    destruct (decide (parent k = 0)) as [Hp|]; [rewrite Hp; by apply Hch|].
    by apply (root_down_inv pq pq1 Ho Hl Hsw); [|lia..]. }
  destruct (lookup_lt_is_Some_2 pq2 n) as [it Hit]; [lia|].
  unfold PQ.Pop. rewrite Hl2, Hl1. fold n. rewrite Hit. simpl.
  assert (Priority it = key pq 0) as Hkey.
  { assert (key pq2 n = key pq1 n) as Hk by (by apply key_ext, Hfr).
    rewrite (Swap_key _ _ _ _ _ Hsw) in Hk. unfold key at 1 in Hk. rewrite Hit in Hk.
    simpl in Hk. rewrite Hk. repeat case_decide; subst; congruence. }
  eexists _, _. split; [done|]. split; [split|split].
  - intros k Hk. rewrite length_take in Hk. pose proof (parent_lt k ltac:(lia)).
    rewrite !(key_ext (take n pq2) pq2) by (apply lookup_take_lt; lia). apply Ho2. lia.
  - intros k it' Hk. apply lookup_take_Some in Hk as [Hk _].
    by apply Hi2 in Hk; [|by eapply Swap_index_ok].
  - simpl. rewrite <- (content_split_last pq2 it n Hit) by lia.
    rewrite Hc2. symmetry. by eapply Swap_content.
  - intros d p Hdp. simpl. rewrite Hkey. unfold content in Hdp.
    apply list_elem_of_fmap in Hdp as (it' & [= -> ->] & Hin).
    apply list_elem_of_lookup in Hin as [k Hk].
    pose proof (heap_root_least pq k (conj Ho Hi) (lookup_lt_Some _ _ _ Hk)) as Hle.
    unfold key in Hle at 2. by rewrite Hk in Hle.
Qed.

Lemma heap_Update_ok pq i it v p :
  heap_ok pq -> pq !! i = Some it ->
  exists pq', Update pq i v p = Some pq' /\ heap_ok pq' /\
    content pq' ≡ₚ <[i := (v, p)]> (content pq).
Proof.
  intros [Ho Hi] Hit. unfold Update. rewrite Hit. cbn [mbind option_bind].
  rewrite (Hi _ _ Hit), Nat2Z.id. pose proof (lookup_lt_Some _ _ _ Hit) as Hlt.
  set (pq1 := <[i:=_]> pq). assert (length pq1 = length pq) as Hl by apply length_insert.
  assert (forall k, k <> i -> key pq1 k = key pq k) as Hk.
  { intros. apply key_ext. by apply list_lookup_insert_ne. }
  assert (index_ok pq1) as Hi1.
  { intros k it'. unfold pq1. destruct (decide (k = i)) as [->|].
    - rewrite list_lookup_insert_eq by done. intros [= <-]. done.
    - rewrite list_lookup_insert_ne by done. apply Hi. }
  assert (down_inv pq1 i (length pq)) as Hd.
  { split.
    - intros k Hkl Hp Hne. rewrite !Hk by done. by apply Ho.
    - intros H0 k Hkl Hp. pose proof (parent_lt i H0). pose proof (parent_lt k ltac:(lia)).
      rewrite !Hk by lia. pose proof (Ho i). pose proof (Ho k Hkl) as Hok.
      rewrite Hp in Hok. lia. }
  assert (content pq1 = <[i := (v, p)]> (content pq)) as Hc1
    by (unfold pq1, content; by rewrite list_fmap_insert).
  unfold heap_Fix, Len. rewrite Hl, <- Hc1.
  destruct (down_total (S (length pq)) pq1 i (length pq))
    as (pq2 & i' & -> & [Hl2 Hc2 Hi2] & _ & Hcase); [lia..|done|].
  cbn [mbind option_bind]. destruct Hcase as [(-> & -> & Hch)|[Hmv Ho2]]; simpl_decide.
  - destruct (up_total (S (length pq1)) pq1 i) as (pq' & Hup & [Hl' Hc' Hi'] & Ho');
      [lia..| |rewrite <- Hl in *; eexists; split; [exact Hup|]; repeat split; eauto].
    split.
    + intros k Hkl Hne. rewrite Hl in Hkl. destruct (decide (parent k = i)) as [Hp|].
      * rewrite Hp. by apply Hch.
      * by apply Hd.
    + intros. apply Hd; [done|lia|done].
  - eexists. split; [done|]. split; [split|]; [|by apply Hi2|done]. by rewrite Hl2, Hl.
Qed.

End HeapFacts.

(** ** ExistsMap (exists_map.go): the keys of the internal map *)
Module EM.
Definition Exists (em : gset string) (key : string) : bool := bool_decide (key ∈ em).
Definition Put (em : gset string) (key : string) : gset string := {[key]} ∪ em.
Definition Delete (em : gset string) (key : string) : gset string := em ∖ {[key]}.
End EM.

(** ** The queues built on the priority queue

    All three pair a priority queue with an [ExistsMap] keyed by a hash. *)
Record HashedQueue (G : Type) := mkHashedQueue {
  Queue : list (Item G);
  ExistsMap : gset string
}.
Arguments mkHashedQueue {G} _ _.
Arguments Queue {G} _.
Arguments ExistsMap {G} _.

(** GossipQueue (gossip_queue.go).  [hash] and [time] read
    [gossip.Transaction.Hash] and [gossip.Transaction.Time] of the queued
    pointer; neither field changes after the gossip is created. *)
Module GQ.
Section Ops.
Context {G : Type} (hash : G -> string) (time : G -> Z).
Implicit Types gq : HashedQueue G.

Definition NewGossipQueue : option (HashedQueue G) :=
  gq ← PQ.heap_Init []; Some (mkHashedQueue gq ∅).

Definition Push gq (gossip : G) : option (HashedQueue G) :=
  let itm := mkItem gossip (time gossip) (Z.of_nat (PQ.Len (Queue gq)) + 1) in
  let em := EM.Put (ExistsMap gq) (hash gossip) in
  q ← PQ.heap_Push (Queue gq) itm;
  Some (mkHashedQueue q em).

Definition Pop gq : option (G * HashedQueue G) :=
  '(itm, q) ← PQ.heap_Pop (Queue gq);
  let gossip := Data itm in
  Some (gossip, mkHashedQueue q (EM.Delete (ExistsMap gq) (hash gossip))).

Definition HasAvailable gq : option bool :=
  timestamp ← PQ.Peek (Queue gq);
  Some (negb (Z.eqb timestamp (-1))).

Definition Exists gq (key : string) : bool := EM.Exists (ExistsMap gq) key.

Definition Dump gq : list G := Data <$> Queue gq.
End Ops.
End GQ.

(** TransactionQueue (transaction_queue.go).  [sort.Sort] moves items with
    [Swap], so after it every moved item's [Index] is its new position. *)
Module TQ.
Section Ops.
Context `{GoSort} {T : Type} (hash : T -> string) (time : T -> Z).

Definition sort_Sort (pq : list (Item T)) : list (Item T) :=
  imap (fun i => set_Index (Z.of_nat i))
    (sort_by (fun x y => bool_decide (Priority x < Priority y)%Z) pq).

Definition Push (txq : HashedQueue T) (tx : T) : option (HashedQueue T) :=
  let itm := mkItem tx (time tx) (Z.of_nat (PQ.Len (Queue txq)) + 1) in
  q ← PQ.heap_Push (Queue txq) itm;
  let q := if decide (0 < PQ.Len q) then sort_Sort q else q in
  Some (mkHashedQueue q (EM.Put (ExistsMap txq) (hash tx))).

Definition Pop (txq : HashedQueue T) : option (T * HashedQueue T) :=
  '(itm, q) ← PQ.heap_Pop (Queue txq);
  Some (Data itm, mkHashedQueue q (EM.Delete (ExistsMap txq) (hash (Data itm)))).

(** [now] is [utils.ToMilliSeconds(time.Now())], [lockTime] the LockTime field *)
Definition HasAvailable (now lockTime : Z) (txq : HashedQueue T) : option bool :=
  timestamp ← PQ.Peek (Queue txq);
  Some (negb (Z.eqb timestamp (-1)) && bool_decide (lockTime < i64 (now - timestamp))%Z).

Definition Exists (txq : HashedQueue T) (key : string) : bool := EM.Exists (ExistsMap txq) key.
End Ops.
End TQ.

(** ReceiptQueue (receipt_queue.go); [created] is [receipt.Created.UnixNano()]. *)
Module RQ.
Section Ops.
Context {R : Type} (hash : R -> string) (created : R -> Z).

Definition Push (rtq : HashedQueue R) (receipt : R) : option (HashedQueue R) :=
  let itm := mkItem receipt (created receipt) (Z.of_nat (PQ.Len (Queue rtq)) + 1) in
  q ← PQ.heap_Push (Queue rtq) itm;
  Some (mkHashedQueue q (EM.Put (ExistsMap rtq) (hash receipt))).

(** The source calls [ExistsMap.Exists], which reads only. *)
Definition Pop (rtq : HashedQueue R) : option (R * HashedQueue R) :=
  '(itm, q) ← PQ.heap_Pop (Queue rtq);
  Some (Data itm, mkHashedQueue q (ExistsMap rtq)).

Definition HasAvailable (now lockTime : Z) (rtq : HashedQueue R) : option bool :=
  timestamp ← PQ.Peek (Queue rtq);
  Some (negb (Z.eqb timestamp (-1)) && bool_decide (lockTime < i64 (now - timestamp))%Z).

Definition Exists (rtq : HashedQueue R) (key : string) : bool := EM.Exists (ExistsMap rtq) key.
End Ops.
End RQ.

(** ** Specification: a bag of gossips with distinct hashes

    [Offer g] is what the gossip worker does when two thirds of the rumors
    are in (push unless the hash is queued); [Work] is the transaction
    worker's turn (pop when something is available). *)
Inductive gq_op (G : Type) := Offer (g : G) | Work.
Arguments Offer {G} g.
Arguments Work {G}.

Section GossipQueueSpec.
Context {G : Type} (hash : G -> string) (time : G -> Z).
Implicit Types (b : list G) (gq : HashedQueue G).

Definition gq_exec gq (op : gq_op G) : option (option G * HashedQueue G) :=
  match op with
  | Offer g =>
      if GQ.Exists gq (hash g) then Some (None, gq)
      else gq ← GQ.Push hash time gq g; Some (None, gq)
  | Work =>
      av ← GQ.HasAvailable gq;
      if av : bool then '(g, gq) ← GQ.Pop hash gq; Some (Some g, gq) else Some (None, gq)
  end.

Fixpoint gq_run gq (ops : list (gq_op G)) : option (list (option G) * HashedQueue G) :=
  match ops with
  | [] => Some ([], gq)
  | op :: ops =>
      '(out, gq) ← gq_exec gq op;
      '(outs, gq) ← gq_run gq ops;
      Some (out :: outs, gq)
  end.

Inductive bag_step : list G -> gq_op G -> option G -> list G -> Prop :=
  | bag_offer b g : hash g ∉ hash <$> b -> bag_step b (Offer g) None (g :: b)
  | bag_offer_dup b g : hash g ∈ hash <$> b -> bag_step b (Offer g) None b
  | bag_work b g b' :
      b ≡ₚ g :: b' -> (forall x, x ∈ b -> (time g <= time x)%Z) ->
      bag_step b Work (Some g) b'
  | bag_idle : bag_step [] Work None [].

Inductive bag_run : list G -> list (gq_op G) -> list (option G) -> list G -> Prop :=
  | bag_run_nil b : bag_run b [] [] b
  | bag_run_cons b op out b1 ops outs b2 :
      bag_step b op out b1 -> bag_run b1 ops outs b2 ->
      bag_run b (op :: ops) (out :: outs) b2.

Definition timed b : list (G * Z) := (fun g => (g, time g)) <$> b.

(** the refinement relation *)
Record gq_rel gq b : Prop := {
  gq_heap : heap_ok (Queue gq);
  gq_content : content (Queue gq) ≡ₚ timed b;
  gq_exists : forall k, k ∈ ExistsMap gq <-> k ∈ hash <$> b;
  gq_nodup : NoDup (hash <$> b)
}.

Lemma gq_new_rel : exists gq, GQ.NewGossipQueue = Some gq /\ gq_rel gq [].
Proof.
  eexists. split; [reflexivity|]. split; simpl.
  - split; [intros k; simpl; lia|intros k it; by rewrite lookup_nil].
  - done.
  - intros. set_solver.
  - constructor.
Qed.

Lemma gq_push_rel gq b g :
  gq_rel gq b -> hash g ∉ hash <$> b ->
  exists gq', GQ.Push hash time gq g = Some gq' /\ gq_rel gq' (g :: b).
Proof.
  intros [Hh Hc He Hn] Hg. unfold GQ.Push.
  destruct (heap_Push_ok (Queue gq) (mkItem g (time g) (Z.of_nat (PQ.Len (Queue gq)) + 1)) Hh)
    as (q & -> & Hh' & Hc'). eexists. split; [done|]. split; simpl; [done| | |].
  - by rewrite Hc', Hc.
  - intros k. unfold EM.Put. rewrite elem_of_union, elem_of_singleton, elem_of_cons, He. done.
  - by constructor.
Qed.

Lemma timed_Permutation_inv b g p l :
  timed b ≡ₚ (g, p) :: l -> exists b', b ≡ₚ g :: b' /\ l ≡ₚ timed b' /\ p = time g.
Proof.
  intros Hp. assert ((g, p) ∈ timed b) as Hin by (rewrite Hp; by left).
  unfold timed in Hin. apply list_elem_of_fmap in Hin as (g' & [= <- ->] & Hin).
  apply list_elem_of_split in Hin as (l1 & l2 & ->). exists (l1 ++ l2).
  split; [by rewrite Permutation_middle|]. split; [|done].
  apply (Permutation_cons_inv (a := (g, time g))). rewrite <- Hp. unfold timed.
  by rewrite !fmap_app, fmap_cons, Permutation_middle.
Qed.

Lemma gq_pop_rel gq b :
  gq_rel gq b -> b <> [] ->
  exists g gq' b', GQ.Pop hash gq = Some (g, gq') /\ b ≡ₚ g :: b' /\
    (forall x, x ∈ b -> (time g <= time x)%Z) /\ gq_rel gq' b'.
Proof.
  intros [Hh Hc He Hn] Hb. unfold GQ.Pop.
  destruct (heap_Pop_ok (Queue gq)) as (it & q & -> & Hh' & Hc' & Hmin); [done| |].
  { apply Permutation_length in Hc. unfold content, timed in Hc.
    rewrite !length_fmap in Hc. destruct b; simpl in *; [done|lia]. }
  rewrite Hc in Hc'. destruct (timed_Permutation_inv _ _ _ _ Hc') as (b' & Hp & Hl & Ht).
  eexists _, _, b'. split; [reflexivity|]. split; [done|].
  assert (NoDup (hash (Data it) :: (hash <$> b'))) as Hn'
    by (rewrite <- fmap_cons, <- Hp; done).
  apply NoDup_cons in Hn' as [Hni Hn']. split; [|split; simpl; try done].
  - intros x Hx. rewrite <- Ht. apply (Hmin x). rewrite Hc. apply list_elem_of_fmap. eauto.
  - intros k. unfold EM.Delete. rewrite elem_of_difference, elem_of_singleton, He, Hp, fmap_cons,
      elem_of_cons. split; [intros [[?|?] ?]; done|intros Hk; split; [by right|by intros ->]].
Qed.

Lemma gq_available_rel gq b :
  gq_rel gq b -> Forall (fun g => (0 <= time g)%Z) b ->
  GQ.HasAvailable gq = Some (bool_decide (b <> [])).
Proof.
  intros [Hh Hc He Hn] Ht. unfold GQ.HasAvailable, PQ.Peek, PQ.Len.
  assert (length (Queue gq) = length b) as Hl.
  { apply Permutation_length in Hc. unfold content, timed in Hc. by rewrite !length_fmap in Hc. }
  rewrite Hl. destruct b as [|g0 b0]; [done|]. rewrite decide_True by (simpl; lia).
  destruct (lookup_lt_is_Some_2 (Queue gq) (length (g0 :: b0) - 1)) as [it Hit];
    [simpl in *; lia|]. rewrite Hit. simpl.
  assert ((Data it, Priority it) ∈ timed (g0 :: b0)) as Hin.
  { rewrite <- Hc. unfold content. apply list_elem_of_fmap. eexists. split; [done|].
    apply list_elem_of_lookup. eauto. }
  unfold timed in Hin. apply list_elem_of_fmap in Hin as (x & [= _ ->] & Hx).
  rewrite Forall_forall in Ht. specialize (Ht x Hx).
  by destruct (Z.eqb_spec (time x) (-1)); [lia|].
Qed.

Lemma gq_exec_refines gq b op :
  gq_rel gq b -> Forall (fun g => (0 <= time g)%Z) b ->
  (forall g, op = Offer g -> (0 <= time g)%Z) ->
  exists out gq' b', gq_exec gq op = Some (out, gq') /\ bag_step b op out b' /\
    gq_rel gq' b' /\ Forall (fun g => (0 <= time g)%Z) b'.
Proof.
  intros Hrel Hb Hop. destruct op as [g|]; simpl.
  - unfold GQ.Exists, EM.Exists. case_bool_decide as He; rewrite (gq_exists _ _ Hrel) in He.
    + eexists _, _, _. split; [done|]. split; [by constructor|done].
    + destruct (gq_push_rel gq b g Hrel He) as (gq' & -> & Hrel').
      eexists _, _, _. split; [done|]. split; [by constructor|]. split; [done|].
      constructor; eauto.
  - rewrite (gq_available_rel gq b) by done. simpl. case_bool_decide as Hne.
    + destruct (gq_pop_rel gq b Hrel Hne) as (g & gq' & b' & -> & Hp & Hmin & Hrel').
      eexists _, _, _. split; [done|]. split; [by constructor|]. split; [done|].
      rewrite Hp in Hb. by inversion Hb.
    + assert (b = []) as -> by (destruct b; [done|by destruct Hne]).
      eexists _, _, _. split; [done|]. split; [constructor|done].
Qed.

Lemma gq_run_refines gq b ops :
  gq_rel gq b -> Forall (fun g => (0 <= time g)%Z) b ->
  Forall (fun op => forall g, op = Offer g -> (0 <= time g)%Z) ops ->
  exists outs gq' b', gq_run gq ops = Some (outs, gq') /\ bag_run b ops outs b' /\
    gq_rel gq' b'.
Proof.
  intros Hrel Hb Hops. revert gq b Hrel Hb.
  induction Hops as [|op ops Hop Hops IH]; intros gq b Hrel Hb; simpl.
  { eexists _, _, _. split; [done|]. split; [constructor|done]. }
  destruct (gq_exec_refines gq b op Hrel Hb Hop) as (out & gq1 & b1 & -> & Hst & Hrel1 & Hb1).
  destruct (IH gq1 b1 Hrel1 Hb1) as (outs & gq2 & b2 & Hrun & Hbr & Hrel2). simpl.
  rewrite Hrun. eexists _, _, _. split; [done|]. split; [by econstructor|done].
Qed.

(** *** Runs of the specification *)

Lemma bag_run_app b ops1 ops2 outs b' :
  bag_run b (ops1 ++ ops2) outs b' ->
  exists outs1 outs2 bm, outs = outs1 ++ outs2 /\ bag_run b ops1 outs1 bm /\
    bag_run bm ops2 outs2 b'.
Proof.
  revert b outs. induction ops1 as [|op ops1 IH]; intros b outs Hr; simpl in *.
  { exists [], outs, b. by repeat constructor. }
  inversion Hr as [|? ? ? ? ? outs0 ? Hs Hrest]; subst.
  destruct (IH _ _ Hrest) as (o1 & o2 & bm & -> & ? & ?).
  exists (out :: o1), o2, bm. split; [done|]. split; [by econstructor|done].
Qed.

Lemma bag_run_offers b gs outs b' :
  NoDup (hash <$> gs ++ b) -> bag_run b (Offer <$> gs) outs b' ->
  outs = replicate (length gs) None /\ b' ≡ₚ gs ++ b.
Proof.
  revert b outs. induction gs as [|g gs IH]; intros b outs Hn Hr; simpl in *.
  { inversion Hr; subst. done. }
  apply NoDup_cons in Hn as [Hg Hn]. inversion Hr as [|? ? ? ? ? outs0 ? Hs Hrest]; subst.
  rewrite fmap_app in Hg. inversion Hs; subst; [|exfalso; apply Hg, elem_of_app; by right].
  destruct (IH (g :: b) outs0) as [-> Hp]; [|exact Hrest|].
  - rewrite fmap_app, fmap_cons, <- Permutation_middle.
    constructor; [done|by rewrite <- fmap_app].
  - split; [done|]. rewrite Hp. by rewrite <- Permutation_middle.
Qed.

Lemma bag_run_works b outs b' :
  bag_run b (replicate (length b) Work) outs b' ->
  exists l, outs = Some <$> l /\ l ≡ₚ b /\ StronglySorted (fun x y => time x <= time y)%Z l.
Proof.
  remember (length b) as n eqn:Hn. revert b Hn outs.
  induction n as [|n IH]; intros b Hn outs Hr; simpl in Hr.
  { destruct b; [|done]. inversion Hr; subst. exists []. by repeat constructor. }
  inversion Hr as [|? ? ? ? ? outs0 ? Hs Hrest]; subst.
  inversion Hs as [| |? g ? Hp Hmin|]; subst; [|done].
  assert (n = length b1) as Hn1 by (apply Permutation_length in Hp; simpl in Hp; lia).
  destruct (IH b1 Hn1 _ Hrest) as (l & -> & Hl & Hso).
  exists (g :: l). split; [done|]. split; [by rewrite Hp, Hl|].
  constructor; [done|]. apply Forall_forall. intros x Hx. apply Hmin. rewrite Hp.
  rewrite Hl in Hx. by right.
Qed.
End GossipQueueSpec.

(** ** Properties *)

(** C35: the gossip queue refines a bag with distinct hashes: from a new
    queue, every sequence of worker turns (offer a gossip, execute the next
    one) runs without a panic, hands out at each turn a queued gossip with the
    least transaction time (or nothing when the bag is empty), ignores a gossip
    whose hash is already queued, and leaves [Exists] true exactly for the
    hashes still in the bag. *)
Theorem gossip_queue_refines_bag {G} (hash : G -> string) (time : G -> Z) ops
    (Htime : Forall (fun op => forall g, op = Offer g -> (0 <= time g)%Z) ops) :
  exists gq outs gq' b,
    GQ.NewGossipQueue = Some gq /\ gq_run hash time gq ops = Some (outs, gq') /\
    bag_run hash time [] ops outs b /\
    (forall k, GQ.Exists gq' k = bool_decide (k ∈ hash <$> b)) /\
    GQ.Dump gq' ≡ₚ b.
Proof.
  destruct (gq_new_rel hash time) as (gq & Hnew & Hrel).
  destruct (gq_run_refines hash time gq [] ops) as (outs & gq' & b & Hrun & Hb & Hrel');
    [done|constructor|done|].
  exists gq, outs, gq', b. split; [done|]. split; [done|]. split; [done|]. split.
  - intros k. unfold GQ.Exists, EM.Exists. apply bool_decide_ext. apply (gq_exists _ _ _ _ Hrel').
  - pose proof (gq_content _ _ _ _ Hrel') as Hc. apply (fmap_Permutation fst) in Hc.
    unfold content, timed in Hc. rewrite <- !list_fmap_compose in Hc.
    replace ((fst ∘ (fun g => (g, time g))) <$> b) with (id <$> b) in Hc by done.
    by rewrite list_fmap_id in Hc.
Qed.

(** Oldest first: offering gossips with distinct hashes and then taking as
    many turns executes all of them, in ascending order of transaction time. *)
Theorem gossip_queue_drains_oldest_first {G} (hash : G -> string) (time : G -> Z) gs
    (Htime : Forall (fun g => (0 <= time g)%Z) gs) (Hdistinct : NoDup (hash <$> gs)) :
  exists gq gq' l,
    GQ.NewGossipQueue = Some gq /\
    gq_run hash time gq ((Offer <$> gs) ++ replicate (length gs) Work)
      = Some (replicate (length gs) None ++ (Some <$> l), gq') /\
    l ≡ₚ gs /\ StronglySorted (fun x y => time x <= time y)%Z l.
Proof.
  destruct (gq_new_rel hash time) as (gq & Hnew & Hrel).
  destruct (gq_run_refines hash time gq [] ((Offer <$> gs) ++ replicate (length gs) Work))
    as (outs & gq' & b & Hrun & Hb & _); [done|constructor| |].
  2: { apply bag_run_app in Hb as (o1 & o2 & bm & -> & H1 & H2).
    destruct (bag_run_offers hash time [] gs o1 bm) as [-> Hp]; [by rewrite app_nil_r|done|].
    rewrite app_nil_r in Hp. rewrite <- (Permutation_length Hp) in H2.
    destruct (bag_run_works hash time bm o2 b H2) as (l & -> & Hl & Hs).
    exists gq, gq', l. split; [done|]. split; [done|].
    split; [by rewrite Hl|done]. }
  apply Forall_app. split.
  - apply Forall_fmap. eapply Forall_impl; [done|]. simpl. by intros g Hg g' [= <-].
  - apply Forall_replicate. done.
Qed.

Definition demo_gossips : list (string * Z) := [("c", 7%Z); ("a", 3%Z); ("b", 5%Z); ("d", 1%Z)].

Lemma gossip_queue_refines_bag_witness :
  exists gq outs gq' b,
    GQ.NewGossipQueue = Some gq /\
    gq_run fst snd gq ((Offer <$> demo_gossips) ++ [Work]) = Some (outs, gq') /\
    bag_run fst snd [] ((Offer <$> demo_gossips) ++ [Work]) outs b /\
    (forall k, GQ.Exists gq' k = bool_decide (k ∈ fst <$> b)) /\ GQ.Dump gq' ≡ₚ b.
Proof.
  apply gossip_queue_refines_bag. unfold demo_gossips. simpl.
  repeat constructor; intros g [= <-]; simpl; lia.
Defined.

Lemma gossip_queue_drains_oldest_first_witness :
  exists gq gq' l,
    GQ.NewGossipQueue = Some gq /\
    gq_run fst snd gq ((Offer <$> demo_gossips) ++ replicate (length demo_gossips) Work)
      = Some (replicate (length demo_gossips) None ++ (Some <$> l), gq') /\
    l ≡ₚ demo_gossips /\ StronglySorted (fun x y => snd x <= snd y)%Z l.
Proof.
  apply gossip_queue_drains_oldest_first.
  - unfold demo_gossips. repeat constructor; simpl; lia.
  - refine (bool_decide_eq_true_1 _ _). vm_compute. reflexivity.
Defined.
