(* ===== verification/Sync.v ===== *)
(** * Locks by key and events

    commons/utils/kmutex.go and events.go.  The mutex is run by threads as a step
    relation, a step for each time a thread owns the inner lock; the events are run
    one call after the other. *)
From Stdlib Require Import ZArith Lia.
From stdpp Require Import gmap sets list strings.
From S2P Require Import Prelude.

(** ** kmutex.go *)
Module Kmutex.

(** The inner lock and the condition variable are in the steps. *)
Record t := { keys : gset string }.

Definition New : t := {| keys := ∅ |}.
Definition locked (this : t) (key : string) : bool := bool_decide (key ∈ this.(keys)).

(** One turn of the loop of [Lock]: the key is taken, or the thread waits. *)
Definition Lock_turn (this : t) (key : string) : option t :=
  if locked this key then None else Some {| keys := {[key]} ∪ this.(keys) |}.

(** [Unlock] is followed by a broadcast. *)
Definition Unlock (this : t) (key : string) : t := {| keys := this.(keys) ∖ {[key]} |}.

(** *** Threads, each of which unlocks what it has locked *)
Inductive thread :=
  | Out
  (** about to look at the keys *)
  | Wants (k : string)
  (** in [cond.Wait] *)
  | Waits (k : string)
  | Inside (k : string).

#[export] Instance thread_eq_dec : EqDecision thread.
Proof. solve_decision. Defined.

Record system := { mutex : t; threads : list thread }.

Inductive action := Calls (i : nat) (k : string) | Turns (i : nat) | Leaves (i : nat).

Definition woken (th : thread) : thread := match th with Waits k => Wants k | _ => th end.

Definition step (s : system) (a : action) : option system :=
  match a with
  | Calls i k =>
      match s.(threads) !! i with
      | Some Out => Some {| mutex := s.(mutex); threads := <[i := Wants k]> s.(threads) |}
      | _ => None
      end
  | Turns i =>
      match s.(threads) !! i with
      | Some (Wants k) =>
          Some match Lock_turn s.(mutex) k with
               | Some m => {| mutex := m; threads := <[i := Inside k]> s.(threads) |}
               | None => {| mutex := s.(mutex); threads := <[i := Waits k]> s.(threads) |}
               end
      | _ => None
      end
  | Leaves i =>
      match s.(threads) !! i with
      | Some (Inside k) =>
          Some {| mutex := Unlock s.(mutex) k; threads := map woken (<[i := Out]> s.(threads)) |}
      | _ => None
      end
  end.

Fixpoint run (s : system) (l : list action) : option system :=
  match l with [] => Some s | a :: l => s ← step s a; run s l end.

Definition start (n : nat) : system := {| mutex := New; threads := replicate n Out |}.

(** A key is taken when one thread is inside; who waits waits for somebody. *)
Record ok (s : system) : Prop := {
  ok_alone i j k : s.(threads) !! i = Some (Inside k) -> s.(threads) !! j = Some (Inside k) -> i = j;
  ok_keys k : k ∈ s.(mutex).(keys) <-> exists i, s.(threads) !! i = Some (Inside k);
  ok_waits i k : s.(threads) !! i = Some (Waits k) -> k ∈ s.(mutex).(keys)
}.

Lemma lock_start_ok n : ok (start n).
Proof.
  split; cbn.
  - intros i j k H. by apply lookup_replicate in H as [? _].
  - intros k. split; [set_solver|]. intros [i H]. by apply lookup_replicate in H as [? _].
  - intros i k H. by apply lookup_replicate in H as [? _].
Qed.

Definition inside (l : list thread) (k : string) (i : nat) : Prop := l !! i = Some (Inside k).

(** A thread that stays outside changes nothing for those inside. *)
Lemma inside_insert l i new k j : (forall k, ~ inside l k i) -> (forall k, new <> Inside k) ->
  inside (<[i := new]> l) k j <-> inside l k j.
Proof.
  unfold inside. intros Ho Hn. rewrite list_lookup_insert_Some. split.
  - intros [(_ & Hx & _)|[_ H]]; [by apply Hn in Hx|done].
  - intros H. right. split; [|done]. intros ->. by apply (Ho k).
Qed.

Lemma inside_woken l k j : inside (map woken l) k j <-> inside l k j.
Proof.
  unfold inside. change (map woken l) with (woken <$> l). rewrite list_lookup_fmap.
  destruct (l !! j) as [[]|]; cbn; naive_solver.
Qed.

Lemma outside l i th k : l !! i = Some th -> (forall k, th <> Inside k) -> ~ inside l k i.
Proof. unfold inside. intros -> Hn [= ->]. by apply (Hn k). Qed.

(** A step that neither lets in nor lets out. *)
Lemma waiting_ok s i old new : ok s -> s.(threads) !! i = Some old ->
  (forall k, old <> Inside k) -> (forall k, new <> Inside k) ->
  (forall k, new = Waits k -> k ∈ s.(mutex).(keys)) ->
  ok {| mutex := s.(mutex); threads := <[i := new]> s.(threads) |}.
Proof.
  intros [H1 H2 H3] Hi Ho Hn Hw.
  assert (forall k j, inside (<[i := new]> s.(threads)) k j <-> inside s.(threads) k j) as Hin.
  { intros k j. apply inside_insert; [|done]. intros k'. by eapply outside. }
  split; cbn [mutex threads].
  - intros a b k Ha%Hin Hb%Hin. by apply (H1 a b k).
  - intros k. rewrite H2. split; intros [j Hj]; exists j; by apply Hin.
  - intros a k [(-> & -> & _)|[_ Ha]]%list_lookup_insert_Some; [by apply Hw|by apply (H3 a)].
Qed.

Lemma lock_step_ok s a s' : ok s -> step s a = Some s' -> ok s'.
Proof.
  intros Hok Hs. pose proof Hok as [H1 H2 H3].
  destruct a as [i k|i|i]; cbn in Hs; destruct (s.(threads) !! i) as [th|] eqn:Hi; try done;
    destruct th as [|k'|k'|k']; try done.
  - injection Hs as <-. by eapply waiting_ok.
  - unfold Lock_turn, locked in Hs. case_bool_decide as Hk; injection Hs as <-.
    { eapply waiting_ok; try done. by intros ? [= <-]. }
    assert (forall j, ~ inside s.(threads) k' j) as Hno by (intros j Hj; apply Hk, H2; by exists j).
    split; cbn [mutex threads keys].
    + intros a b k0 [(<- & Ea & _)|[? Ha]]%list_lookup_insert_Some [(<- & Eb & _)|[? Hb]]%list_lookup_insert_Some.
      * done.
      * injection Ea as <-. by apply Hno in Hb.
      * injection Eb as <-. by apply Hno in Ha.
      * by apply (H1 a b k0).
    + intros k0. rewrite elem_of_union, elem_of_singleton, H2. split.
      * intros [->|[j Hj]]; [exists i; apply list_lookup_insert_eq; by eapply lookup_lt_Some|].
        exists j. rewrite list_lookup_insert_ne; [done|congruence].
      * intros [j [(_ & [= ->] & _)|[_ Hj]]%list_lookup_insert_Some]; [by left|right; by exists j].
    + intros a k0 [(_ & ? & _)|[_ Ha]]%list_lookup_insert_Some; [done|]. apply elem_of_union_r. by apply (H3 a).
  - injection Hs as <-.
    assert (forall k j, inside (map woken (<[i := Out]> s.(threads))) k j <-> i <> j /\ inside s.(threads) k j) as Hin.
    { intros k j. rewrite inside_woken. unfold inside. rewrite list_lookup_insert_Some.
      split; [intros [(_ & ? & _)|?]; done|by right]. }
    split; cbn [mutex threads keys Unlock].
    + intros a b k0 [_ Ha]%Hin [_ Hb]%Hin. by apply (H1 a b k0).
    + intros k0. rewrite elem_of_difference, elem_of_singleton, H2. split.
      * intros [[j Hj] Hne]. exists j. apply Hin. split; [|done]. intros ->. unfold inside in Hj. congruence.
      * intros [j [Hne Hj]%Hin]. split; [by exists j|]. intros ->. by apply Hne, (H1 _ _ k').
    + intros a k0. change (map woken ?l) with (woken <$> l). rewrite list_lookup_fmap.
      destruct (_ !! a) as [[]|]; by intros [=].
Qed.

Lemma lock_run_ok l : forall s s', ok s -> run s l = Some s' -> ok s'.
Proof.
  induction l as [|a l IH]; intros s s' Hok; cbn; [by intros [= <-]|].
  destruct (step s a) as [s1|] eqn:E1; [|done]. cbn. apply IH. by eapply lock_step_ok.
Qed.

(** *** Nobody new calls *)
Definition old (a : action) : bool := match a with Calls _ _ => false | _ => true end.

Definition out (th : thread) : bool := bool_decide (th = Out).
Definition wants (th : thread) : bool := match th with Wants _ => true | _ => false end.
Definition count (f : thread -> bool) (l : list thread) : nat := length (filter (fun th => f th = true) l).

Definition busy (l : list thread) : nat := count (fun th => negb (out th)) l.
Definition measure (s : system) : nat := busy s.(threads) * S (length s.(threads)) + count wants s.(threads).

Lemma count_le f l : (count f l <= length l)%nat.
Proof. unfold count. apply length_filter. Qed.

Lemma count_insert f l i x y : l !! i = Some x ->
  (count f (<[i := y]> l) + (if f x then 1 else 0) = count f l + (if f y then 1 else 0))%nat.
Proof.
  unfold count. revert i. induction l as [|z l IH]; intros [|i] Hi; cbn in Hi; try done.
  - injection Hi as ->. cbn [insert list_insert]. rewrite !filter_cons. repeat case_decide; cbn [length];
      destruct (f x), (f y); try done; lia.
  - specialize (IH i Hi). cbn [insert list_insert]. change (list_insert i y l) with (<[i := y]> l).
    rewrite !filter_cons. case_decide; cbn [length]; [|exact IH]. rewrite !Nat.add_succ_l. f_equal. exact IH.
Qed.

Lemma busy_woken l : busy (map woken l) = busy l.
Proof.
  unfold busy, count. induction l as [|th l IH]; [done|]. cbn [map]. rewrite !filter_cons.
  destruct th; cbn; by repeat case_decide; cbn [length]; rewrite ?IH.
Qed.

Lemma busy_insert l i x y : l !! i = Some x -> x <> Out ->
  (busy (<[i := y]> l) + 1 = busy l + (if out y then 0 else 1))%nat.
Proof.
  intros Hi Hx. pose proof (count_insert (fun th => negb (out th)) l i x y Hi) as H. fold busy in H.
  unfold busy. unfold out in *. rewrite (bool_decide_false (x = Out)) in H by done. cbn [negb] in H.
  by destruct (bool_decide (y = Out)).
Qed.

Lemma step_measure s a s' : old a = true -> step s a = Some s' -> (measure s' < measure s)%nat.
Proof.
  intros Ha Hs. destruct a as [i k|i|i]; [done| |]; cbn in Hs;
    destruct (s.(threads) !! i) as [th|] eqn:Hi; try done; destruct th as [|k'|k'|k']; try done; unfold measure.
  - pose proof (fun new => busy_insert _ _ _ new Hi ltac:(done)) as E1.
    pose proof (fun new => count_insert wants _ _ _ new Hi) as E2.
    destruct (Lock_turn s.(mutex) k') as [m|]; injection Hs as <-; cbn [threads]; rewrite length_insert.
    + specialize (E1 (Inside k')). specialize (E2 (Inside k')). cbn [wants] in *.
      change (out (Inside k')) with false in E1. cbv iota in *. nia.
    + specialize (E1 (Waits k')). specialize (E2 (Waits k')). cbn [wants] in *.
      change (out (Waits k')) with false in E1. cbv iota in *. nia.
  - injection Hs as <-. cbn [threads]. rewrite busy_woken, length_map, length_insert.
    pose proof (busy_insert _ _ _ Out Hi ltac:(done)) as E1.
    pose proof (count_le wants (map woken (<[i := Out]> s.(threads)))) as E2. rewrite length_map, length_insert in E2.
    change (out Out) with true in E1. cbv iota in *. nia.
Qed.

(** While one thread is not out there is a step. *)
Lemma step_possible s i th : ok s -> s.(threads) !! i = Some th -> th <> Out ->
  exists a, old a = true /\ is_Some (step s a).
Proof.
  intros [H1 H2 H3] Hi Hth. assert (forall k j, inside s.(threads) k j -> exists a, old a = true /\ is_Some (step s a)) as Hleave.
  { intros k j Hj. exists (Leaves j). split; [done|]. cbn. rewrite Hj. by eexists. }
  destruct th as [|k|k|k]; [done| | |by eapply Hleave].
  - exists (Turns i). split; [done|]. cbn. rewrite Hi. by eexists.
  - apply H3, H2 in Hi as [j Hj]. by eapply Hleave.
Qed.
(** *** Getting in *)
Definition waiting (s : system) (i : nat) (k : string) : Prop :=
  s.(threads) !! i = Some (Wants k) \/ s.(threads) !! i = Some (Waits k).

Lemma step_waiting s a s' i k : waiting s i k -> step s a = Some s' ->
  waiting s' i k \/ inside s'.(threads) k i.
Proof.
  unfold waiting, inside. intros Hw Hs.
  assert (forall j x, s.(threads) !! j = Some x -> (forall k, x <> Wants k) -> (forall k, x <> Waits k) -> j <> i) as Hne
    by (intros j x Hj H1 H2 ->; naive_solver).
  destruct a as [j k0|j|j]; cbn in Hs; destruct (s.(threads) !! j) as [th|] eqn:Hj; try done; destruct th as [|k'|k'|k']; try done.
  - injection Hs as <-. cbn. rewrite !list_lookup_insert_ne by (by eapply Hne). by left.
  - destruct (decide (j = i)) as [->|Hji].
    + assert (k' = k) as -> by naive_solver. assert (i < length s.(threads))%nat as Hl by by eapply lookup_lt_Some.
      destruct (Lock_turn s.(mutex) k); injection Hs as <-; cbn; rewrite list_lookup_insert_eq by done; naive_solver.
    + destruct (Lock_turn s.(mutex) k'); injection Hs as <-; cbn; rewrite !list_lookup_insert_ne by done; by left.
  - injection Hs as <-. cbn. change (map woken ?l) with (woken <$> l).
    rewrite !list_lookup_fmap, !list_lookup_insert_ne by (by eapply Hne).
    left. left. by destruct Hw as [-> | ->].
Qed.

Lemma run_gets_in l : forall s s' i k, waiting s i k -> run s l = Some s' -> ~ waiting s' i k ->
  exists l1 l2 sm, l = l1 ++ l2 /\ run s l1 = Some sm /\ inside sm.(threads) k i.
Proof.
  induction l as [|a l IH]; intros s s' i k Hw Hr Hn; cbn in Hr; [by injection Hr as <-|].
  destruct (step s a) as [s1|] eqn:E1; [|done]. cbn in Hr.
  destruct (step_waiting s a s1 i k Hw E1) as [Hw1|Hin].
  - destruct (IH s1 s' i k Hw1 Hr Hn) as (l1 & l2 & sm & -> & Hr1 & Hin). exists (a :: l1), l2, sm.
    cbn. by rewrite E1.
  - exists [a], l, s1. cbn. by rewrite E1.
Qed.

Lemma run_measure l : forall s s', Forall (fun a => old a = true) l -> run s l = Some s' ->
  (length l + measure s' <= measure s)%nat.
Proof.
  induction l as [|a l IH]; intros s s' Hl Hr; cbn in Hr; [by injection Hr as <-|].
  inversion Hl as [|? ? Ha Hl']; subst. destruct (step s a) as [s1|] eqn:E1; [|done]. cbn in Hr.
  specialize (IH s1 s' Hl' Hr). pose proof (step_measure s a s1 Ha E1). cbn [length]. lia.
Qed.

Lemma step_length s a s' : step s a = Some s' -> length s'.(threads) = length s.(threads).
Proof.
  destruct a as [i k|i|i]; cbn; destruct (s.(threads) !! i) as [[|k'|k'|k']|]; try done.
  - intros [= <-]. apply length_insert.
  - destruct (Lock_turn _ _); intros [= <-]; apply length_insert.
  - intros [= <-]. cbn. by rewrite length_map, length_insert.
Qed.

Lemma run_length l : forall s s', run s l = Some s' -> length s'.(threads) = length s.(threads).
Proof.
  induction l as [|a l IH]; intros s s' Hr; cbn in Hr; [by injection Hr as <-|].
  destruct (step s a) as [s1|] eqn:E1; [|done]. cbn in Hr. rewrite (IH _ _ Hr). by eapply step_length.
Qed.

(** C26: however [n] threads lock and unlock, no two of them are inside one key; and
    once nobody new calls, the threads leave after at most [n * (n + 2)] turns,
    whatever the order of the turns, and everyone who waited has been inside: no
    wake-up is lost. *)
Theorem waiters_are_served n l s : run (start n) l = Some s ->
  (forall i j k, inside s.(threads) k i -> inside s.(threads) k j -> i = j) /\
  forall l' s', Forall (fun a => old a = true) l' -> run s l' = Some s' ->
    (length l' <= n * (n + 2))%nat /\
    ((forall a, old a = true -> step s' a = None) ->
     (forall j th, s'.(threads) !! j = Some th -> th = Out) /\
     forall i k, waiting s i k -> exists l1 l2 sm, l' = l1 ++ l2 /\ run s l1 = Some sm /\ inside sm.(threads) k i).
Proof.
  intros Hs. assert (ok s) as Hok by (eapply lock_run_ok; [apply lock_start_ok|done]).
  split; [intros i j k; apply (ok_alone s Hok)|]. intros l' s' Hl Hr.
  split.
  - pose proof (run_measure l' s s' Hl Hr) as Hm. pose proof (run_length _ _ _ Hs) as Hn. cbn in Hn.
    rewrite length_replicate in Hn. unfold measure, busy in Hm. rewrite Hn in Hm.
    pose proof (count_le (fun th => negb (out th)) s.(threads)). pose proof (count_le wants s.(threads)). nia.
  - intros Hstuck. assert (ok s') as Hok' by (eapply lock_run_ok; [exact Hok|done]).
    assert (forall j th, s'.(threads) !! j = Some th -> th = Out) as Hall.
    { intros j th Hj. destruct (decide (th = Out)) as [|Hne]; [done|].
      destruct (step_possible s' j th Hok' Hj Hne) as (a & Ha & s2 & H2). by rewrite Hstuck in H2. }
    split; [done|]. intros i k Hw. apply (run_gets_in l' s s' i k Hw Hr).
    intros [H|H]; by apply Hall in H.
Qed.

(** Two threads at one key, a third at another. *)
Lemma waiters_are_served_witness :
  exists s s', run (start 3) [Calls 0 "a"; Turns 0; Calls 1 "a"; Turns 1; Calls 2 "b"] = Some s /\
    run s [Turns 2; Leaves 0; Turns 1; Leaves 1; Leaves 2] = Some s' /\
    exists l1 l2 sm, [Turns 2; Leaves 0; Turns 1; Leaves 1; Leaves 2] = l1 ++ l2 /\
      run s l1 = Some sm /\ inside sm.(threads) "a" 1.
Proof.
  eexists _, _. split; [vm_compute; reflexivity|]. split; [vm_compute; reflexivity|].
  eapply (waiters_are_served 3 [Calls 0 "a"; Turns 0; Calls 1 "a"; Turns 1; Calls 2 "b"]).
  - vm_compute. reflexivity.
  - repeat constructor.
  - vm_compute. reflexivity.
  - intros [i k|i|i] Ha; [discriminate Ha| |]; destruct i as [|[|[|i]]]; vm_compute; reflexivity.
  - right. vm_compute. reflexivity.
Defined.
End Kmutex.

(** ** events.go

    A handler is told apart by its identity.  A call gives the manager as it is
    afterwards and the handlers that were started. *)
Module EventManager.
Record event := { subscribers : list nat; happenedOnce : bool }.
Abbreviation t := (gmap string event) (only parsing).

Definition addEventIfNotExists (this : t) (eventName : string) : t :=
  match this !! eventName with
  | Some _ => this
  | None => <[eventName := {| subscribers := []; happenedOnce := false |}]> this
  end.

(** A name without an event is a nil pointer. *)
Definition addSubscriberIfNotExists (this : t) (eventName : string) (eventHandler : nat) : option (t * bool) :=
  e ← this !! eventName;
  let alreadyThere := existsb (Nat.eqb eventHandler) e.(subscribers) in
  Some (if alreadyThere then this
        else <[eventName := {| subscribers := e.(subscribers) ++ [eventHandler];
                               happenedOnce := e.(happenedOnce) |}]> this, alreadyThere).

Definition On (this : t) (eventName : string) (eventHandler : nat) : option (t * list nat) :=
  let this := addEventIfNotExists this eventName in
  '(this, _) ← addSubscriberIfNotExists this eventName eventHandler;
  e ← this !! eventName;
  Some (this, if e.(happenedOnce) then [eventHandler] else []).

(** The index of the first, as the loop finds it. *)
Fixpoint find_index (h : nat) (l : list nat) : option nat :=
  match l with
  | [] => None
  | x :: l => if Nat.eqb h x then Some O else S <$> find_index h l
  end.

Definition Off (this : t) (eventName : string) (eventHandler : nat) : option (t * list nat) :=
  let this := addEventIfNotExists this eventName in
  e ← this !! eventName;
  Some (match find_index eventHandler e.(subscribers) with
        | Some i => <[eventName := {| subscribers := take i e.(subscribers) ++ drop (S i) e.(subscribers);
                                      happenedOnce := e.(happenedOnce) |}]> this
        | None => this
        end, []).

Definition Raise (this : t) (eventName : string) : option (t * list nat) :=
  let this := addEventIfNotExists this eventName in
  e ← this !! eventName;
  Some (<[eventName := {| subscribers := e.(subscribers); happenedOnce := true |}]> this, e.(subscribers)).

Inductive call := COn (n : string) (h : nat) | COff (n : string) (h : nat) | CRaise (n : string).

Definition exec (this : t) (c : call) : option (t * list nat) :=
  match c with COn n h => On this n h | COff n h => Off this n h | CRaise n => Raise this n end.

Fixpoint run (this : t) (l : list call) : option t :=
  match l with [] => Some this | c :: l => '(this, _) ← exec this c; run this l end.

(** *** What the calls say *)

(** Who subscribed to an event and did not leave, and whether it happened. *)
Definition subscribed (n : string) (h : nat) (b : bool) (c : call) : bool :=
  match c with
  | COn n' h' => if bool_decide (n = n' /\ h = h') then true else b
  | COff n' h' => if bool_decide (n = n' /\ h = h') then false else b
  | CRaise _ => b
  end.
Definition happened (n : string) (b : bool) (c : call) : bool :=
  match c with CRaise n' => if bool_decide (n = n') then true else b | _ => b end.

Definition subs (this : t) (n : string) : list nat :=
  match this !! n with Some e => e.(subscribers) | None => [] end.
Definition once (this : t) (n : string) : bool :=
  match this !! n with Some e => e.(happenedOnce) | None => false end.

Record means (this : t) (S : string -> nat -> bool) (H : string -> bool) : Prop := {
  means_subs n h : S n h = true <-> h ∈ subs this n;
  means_nodup n : NoDup (subs this n);
  means_once n : once this n = H n
}.

Lemma addEvent_same this n : exists e, addEventIfNotExists this n !! n = Some e /\
  e.(subscribers) = subs this n /\ e.(happenedOnce) = once this n /\
  forall n', n' <> n -> addEventIfNotExists this n !! n' = this !! n'.
Proof.
  unfold addEventIfNotExists, subs, once. destruct (this !! n) as [e|] eqn:He; [by exists e|].
  eexists. rewrite lookup_insert_eq. split_and!; try done. intros n' Hn'. by rewrite lookup_insert_ne.
Qed.

Lemma find_index_spec h l : NoDup l ->
  match find_index h l with
  | Some i => forall x, x ∈ take i l ++ drop (S i) l <-> x ∈ l /\ x <> h
  | None => h ∉ l
  end /\ (forall i, NoDup (take i l ++ drop (S i) l)).
Proof.
  intros Hn. split.
  - induction Hn as [|y l Hy Hn IH]; cbn [find_index]; [set_solver|].
    destruct (Nat.eqb_spec h y) as [->|Hne]; [cbn; set_solver|].
    destruct (find_index h l) as [i|]; cbn [fmap option_fmap option_map]; [|set_solver].
    intros x. specialize (IH x). change (take (S i) (y :: l)) with (y :: take i l).
    change (drop (S (S i)) (y :: l)) with (drop (S i) l). cbn [app]. rewrite !elem_of_cons, IH. naive_solver.
  - intros i. rewrite <- delete_take_drop. eapply sublist_NoDup; [exact Hn|apply sublist_delete].
Qed.

Lemma existsb_elem h l : existsb (Nat.eqb h) l = bool_decide (h ∈ l).
Proof.
  induction l as [|x l IH]; [done|]. cbn [existsb]. rewrite IH. destruct (Nat.eqb_spec h x) as [->|Hne].
  - by rewrite (bool_decide_true (x ∈ x :: l)) by set_solver.
  - apply bool_decide_ext. set_solver.
Qed.

(** An event put in the place of another. *)
Lemma means_insert this n l o S H S' H' :
  means this S H -> NoDup l ->
  (forall h, S' n h = true <-> h ∈ l) -> H' n = o ->
  (forall n' h, n' <> n -> S' n' h = S n' h) -> (forall n', n' <> n -> H' n' = H n') ->
  forall this0, (forall n', n' <> n -> this0 !! n' = this !! n') ->
  means (<[n := {| subscribers := l; happenedOnce := o |}]> this0) S' H'.
Proof.
  intros [M1 M2 M3] Hl HS HH HS' HH' this0 H0. split.
  - intros n' h. unfold subs. destruct (decide (n' = n)) as [->|Hne].
    + rewrite lookup_insert_eq. apply HS.
    + rewrite lookup_insert_ne by done. rewrite HS', H0 by done. apply M1.
  - intros n'. unfold subs. destruct (decide (n' = n)) as [->|Hne].
    + by rewrite lookup_insert_eq.
    + rewrite lookup_insert_ne by done. rewrite H0 by done. apply M2.
  - intros n'. unfold once. destruct (decide (n' = n)) as [->|Hne].
    + by rewrite lookup_insert_eq.
    + rewrite lookup_insert_ne by done. rewrite H0, HH' by done. apply M3.
Qed.

Lemma means_same this this' S H S' H' : means this S H ->
  (forall n, subs this' n = subs this n) -> (forall n, once this' n = once this n) ->
  (forall n h, S' n h = S n h) -> (forall n, H' n = H n) -> means this' S' H'.
Proof.
  intros [M1 M2 M3] E1 E2 E3 E4. split; intros n; [intros h; rewrite E1, E3; apply M1|by rewrite E1|by rewrite E2, E4].
Qed.

Lemma exec_means this S H c : means this S H -> exists this' started,
  exec this c = Some (this', started) /\
  means this' (fun n h => subscribed n h (S n h) c) (fun n => happened n (H n) c) /\
  match c with
  | COn n h => started = if H n then [h] else []
  | COff _ _ => started = []
  | CRaise n => NoDup started /\ forall h, h ∈ started <-> S n h = true
  end.
Proof.
  intros HM. pose proof HM as [M1 M2 M3]. destruct c as [n h|n h|n]; cbn [exec];
    destruct (addEvent_same this n) as (e & He & Hsub & Honce & Hother).
  - unfold On, addSubscriberIfNotExists. rewrite He. cbn [mbind option_bind].
    rewrite existsb_elem, Hsub. case_bool_decide as Hin.
    + rewrite He. cbn. eexists _, _. split; [reflexivity|]. rewrite Honce, M3. split; [|done].
      apply (means_same _ _ _ _ _ _ HM).
      * intros n'. destruct (decide (n' = n)) as [->|Hne]; unfold subs; [by rewrite He|by rewrite Hother].
      * intros n'. destruct (decide (n' = n)) as [->|Hne]; unfold once; [by rewrite He|by rewrite Hother].
      * intros n' h'. case_bool_decide as Heq; [|done]. destruct Heq as [-> ->]. symmetry. by apply M1.
      * done.
    + rewrite lookup_insert_eq. cbn. eexists _, _. split; [reflexivity|]. rewrite Honce, M3. split; [|done].
      eapply (means_insert this n _ _ S H); try done.
      * apply NoDup_app. split; [done|]. split; [set_solver|apply NoDup_singleton].
      * intros h'. case_bool_decide as Heq; [set_solver|]. rewrite M1, elem_of_app, list_elem_of_singleton. naive_solver.
      * intros n' h' Hne. by rewrite bool_decide_false by naive_solver.
  - unfold Off. rewrite He. cbn [mbind option_bind]. rewrite Hsub.
    destruct (find_index_spec h (subs this n) (M2 n)) as [Hf Hnd].
    destruct (find_index h (subs this n)) as [i|]; eexists _, _; (split; [reflexivity|]); (split; [|done]).
    + eapply (means_insert this n _ _ S H); try done.
      * intros h'. rewrite Hf. cbn. case_bool_decide as Heq; [naive_solver|]. rewrite M1. naive_solver.
      * by rewrite Honce, M3.
      * intros n' h' Hne. cbn. by rewrite bool_decide_false by naive_solver.
    + apply (means_same _ _ _ _ _ _ HM).
      * intros n'. destruct (decide (n' = n)) as [->|Hne]; unfold subs; [by rewrite He|by rewrite Hother].
      * intros n'. destruct (decide (n' = n)) as [->|Hne]; unfold once; [by rewrite He|by rewrite Hother].
      * intros n' h'. cbn. case_bool_decide as Heq; [|done]. destruct Heq as [-> ->].
        destruct (S n h) eqn:HS; [|done]. by apply M1 in HS.
      * done.
  - unfold Raise. rewrite He. cbn [mbind option_bind]. eexists _, _. split; [reflexivity|]. rewrite Hsub. split.
    + eapply (means_insert this n _ _ S H); try done.
      * intros h'. apply M1.
      * cbn. by rewrite bool_decide_true.
      * intros n' Hne. cbn. by rewrite bool_decide_false.
    + split; [apply M2|]. intros h. symmetry. apply M1.
Qed.

Lemma run_means l : forall this S H, means this S H -> exists this', run this l = Some this' /\
  means this' (fun n h => foldl (subscribed n h) (S n h) l) (fun n => foldl (happened n) (H n) l).
Proof.
  induction l as [|c l IH]; intros this S H HM; cbn [run foldl]; [by exists this|].
  destruct (exec_means this S H c HM) as (this1 & st & -> & HM1 & _). cbn.
  exact (IH _ _ _ HM1).
Qed.

(** No event is missed: after any sequence of calls on a new manager, which none
    of them crashes, raising an event starts exactly those that subscribed to it and
    have not left since, each once however often it subscribed; and who subscribes
    to an event that has happened is started at once. *)
Theorem events_are_not_missed l : exists this, run ∅ l = Some this /\
  (forall n, exists this' started, Raise this n = Some (this', started) /\ NoDup started /\
     forall h, h ∈ started <-> foldl (subscribed n h) false l = true) /\
  (forall n h, exists this', On this n h = Some (this', if foldl (happened n) false l then [h] else [])).
Proof.
  destruct (run_means l ∅ (fun _ _ => false) (fun _ => false)) as (this & Hr & HM).
  { split; intros n; unfold subs, once; rewrite lookup_empty; [intros h; set_solver|constructor|done]. }
  exists this. split; [done|]. split.
  - intros n. destruct (exec_means _ _ _ (CRaise n) HM) as (this' & st & He & _ & Hst & Hin). by exists this', st.
  - intros n h. destruct (exec_means _ _ _ (COn n h) HM) as (this' & st & He & _ & ->). by exists this'.
Qed.
End EventManager.
