(* ===== verification/Word.v ===== *)
(** * Words: big integers, byte strings and 64-bit arithmetic

    The integer helpers the virtual machine is built on:
    dvm/ethereum/common/math/big.go and integer.go,
    dvm/ethereum/vm/common.go, the padding functions of
    dvm/ethereum/common/bytes.go and the fixed-size arrays of
    commons/crypto/common.go.

    A [*big.Int] is a [Z]; the source's destructive updates only ever touch
    integers that were taken off the stack or freshly allocated, so values
    suffice.  A byte string is a list of [Z]s below 256.  An [AddressBytes] or
    [HashBytes] array is the integer its bytes spell big-endian. *)
From Stdlib Require Import ZArith Lia.
From S2P Require Import Prelude.
Open Scope Z_scope.

(** ** [math/big]: the methods the source uses *)
Module Big.

Definition BitLen (z : Z) : Z := if z =? 0 then 0 else Z.log2 (Z.abs z) + 1.

(** [Uint64] and [Int64] of a value that does not fit are its low 64 bits. *)
Definition Uint64 (z : Z) : Z := u64 (Z.abs z).
Definition Int64 (z : Z) : Z :=
  let v := i64 (u64 (Z.abs z)) in if z <? 0 then i64 (- v) else v.

(** Big-endian encoding on exactly [n] bytes (the low [n] bytes). *)
Fixpoint be_bytes (n : nat) (z : Z) : list Z :=
  match n with
  | O => []
  | S n' => be_bytes n' (z / 256) ++ [z mod 256]
  end.

Definition be_int (bs : list Z) : Z := foldl (fun acc b => acc * 256 + b) 0 bs.

Definition Bytes (z : Z) : list Z := be_bytes (Z.to_nat ((BitLen z + 7) / 8)) (Z.abs z).
Definition SetBytes (bs : list Z) : Z := be_int bs.

(** [Div] and [Mod] are Euclidean: the remainder is never negative.  The
    divisor is not zero where the source calls them. *)
Definition Div (x y : Z) : Z := if 0 <? y then x / y else - (x / - y).
Definition Mod (x y : Z) : Z := x mod Z.abs y.
Definition Bit (x i : Z) : Z := Z.b2z (Z.testbit x i).

(** [Bits]: the little-endian 64-bit words of the absolute value. *)
Fixpoint words (n : nat) (z : Z) : list Z :=
  match n with
  | O => []
  | S n' => z mod 2 ^ 64 :: words n' (z / 2 ^ 64)
  end.
Definition Bits (z : Z) : list Z := words (Z.to_nat ((BitLen z + 63) / 64)) (Z.abs z).

End Big.
Import Big.

(** ** dvm/ethereum/common/math/big.go *)
Definition wordBits : nat := 64.
Definition wordBytes : nat := 8.
Definition tt255 : Z := 2 ^ 255.
Definition tt256 : Z := 2 ^ 256.
Definition tt256m1 : Z := tt256 - 1.

Definition U256 (x : Z) : Z := Z.land x tt256m1.
Definition S256 (x : Z) : Z := if x <? tt255 then x else x - tt256.
Definition BigMax (x y : Z) : Z := if x <? y then y else x.
Definition BigMin (x y : Z) : Z := if y <? x then y else x.

Fixpoint Exp_word (n : nat) (word base result : Z) : Z * Z :=
  match n with
  | O => (base, result)
  | S n' =>
      let result := if Z.land word 1 =? 1 then U256 (result * base) else result in
      Exp_word n' (Z.shiftr word 1) (U256 (base * base)) result
  end.

Fixpoint Exp_words (ws : list Z) (base result : Z) : Z :=
  match ws with
  | [] => result
  | word :: ws' =>
      let '(base, result) := Exp_word wordBits word base result in
      Exp_words ws' base result
  end.

Definition Exp (base exponent : Z) : Z := Exp_words (Bits exponent) base 1.

Definition bigEndianByteAt (bigint : Z) (n : nat) : Z :=
  match Bits bigint !! (n / wordBytes)%nat with
  | None => 0
  | Some word => u8 (Z.shiftr word (8 * Z.of_nat (n mod wordBytes)))
  end.

Definition Byte (bigint : Z) (padlength n : Z) : Z :=
  if padlength <=? n then 0
  else bigEndianByteAt bigint (Z.to_nat (padlength - 1 - n)).

(** [ReadBits] writes the words of [bigint] from the end of [buf]; [i] is the
    loop's index, the number of bytes not yet written. *)
Fixpoint ReadBits_word (j i : nat) (d : Z) (buf : list Z) : nat * list Z :=
  match j, i with
  | S j', S i' => ReadBits_word j' i' (Z.shiftr d 8) (<[i' := u8 d]> buf)
  | _, _ => (i, buf)
  end.

Fixpoint ReadBits_words (ws : list Z) (i : nat) (buf : list Z) : list Z :=
  match ws with
  | [] => buf
  | d :: ws' => let '(i, buf) := ReadBits_word wordBytes i d buf in ReadBits_words ws' i buf
  end.

Definition ReadBits (bigint : Z) (buf : list Z) : list Z :=
  ReadBits_words (Bits bigint) (length buf) buf.

Definition PaddedBigBytes (bigint : Z) (n : nat) : list Z :=
  if Z.of_nat n <=? BitLen bigint / 8 then Bytes bigint
  else ReadBits bigint (replicate n 0).

(** ** dvm/ethereum/common/math/integer.go *)
Definition MaxUint64 : Z := 2 ^ 64 - 1.

Definition SafeSub (x y : Z) : Z * bool := (u64 (x - y), x <? y).
Definition SafeAdd (x y : Z) : Z * bool := (u64 (x + y), u64 (MaxUint64 - x) <? y).
Definition SafeMul (x y : Z) : Z * bool :=
  if (x =? 0) || (y =? 0) then (0, false) else (u64 (x * y), MaxUint64 / x <? y).

(** ** dvm/ethereum/common/bytes.go *)
Definition RightPadBytes (slice : list Z) (l : Z) : list Z :=
  if l <=? Z.of_nat (length slice) then slice
  else slice ++ replicate (Z.to_nat l - length slice) 0.

Definition LeftPadBytes (slice : list Z) (l : Z) : list Z :=
  if l <=? Z.of_nat (length slice) then slice
  else replicate (Z.to_nat l - length slice) 0 ++ slice.

(** [slice l i j] is the Go expression [l[i:j]]; [None] is its panic. *)
Definition slice {A} (l : list A) (i j : Z) : option (list A) :=
  if (0 <=? i) && (i <=? j) && (j <=? Z.of_nat (length l))
  then Some (take (Z.to_nat (j - i)) (drop (Z.to_nat i) l)) else None.

(** ** commons/crypto/common.go *)
Abbreviation AddressBytes := Z (only parsing).
Abbreviation HashBytes := Z (only parsing).
Definition AddressLength : nat := 20.
Definition HashLength : nat := 32.

(** [SetBytes] of an array keeps the last bytes when there are too many. *)
Definition array_of (n : nat) (b : list Z) : Z := be_int (drop (length b - n) b).

Definition BytesToHash (b : list Z) : HashBytes := array_of HashLength b.
Definition BigToHash (b : Z) : HashBytes := BytesToHash (Bytes b).
Definition EmptyHash (h : HashBytes) : bool := h =? 0.
Definition BytesToAddress (b : list Z) : AddressBytes := array_of AddressLength b.
Definition BigToAddress (b : Z) : AddressBytes := BytesToAddress (Bytes b).

(** [Big] of an array, which is also [SetBytes] of its bytes. *)
Definition HashBig (h : HashBytes) : Z := SetBytes (be_bytes HashLength h).
Definition AddressBig (a : AddressBytes) : Z := SetBytes (be_bytes AddressLength a).

(** ** dvm/ethereum/vm/common.go *)
Definition calcMemSize (off l : Z) : Z := if l =? 0 then 0 else off + l.

Definition getData (data : list Z) (start size : Z) : option (list Z) :=
  let length := Z.of_nat (length data) in
  let start := if length <? start then length else start in
  let end_ := u64 (start + size) in
  let end_ := if length <? end_ then length else end_ in
  d ← slice data start end_;
  Some (RightPadBytes d (i64 size)).

Definition getDataBig (data : list Z) (start size : Z) : option (list Z) :=
  let dlen := Z.of_nat (length data) in
  let s := BigMin start dlen in
  let e := BigMin (s + size) dlen in
  d ← slice data (Uint64 s) (Uint64 e);
  Some (RightPadBytes d (i64 (Uint64 size))).

Definition bigUint64 (v : Z) : Z * bool := (Uint64 v, 64 <? BitLen v).

Definition toWordSize (size : Z) : Z :=
  if MaxUint64 - 31 <? size then MaxUint64 / 32 + 1 else u64 (size + 31) / 32.

Definition allZero (b : list Z) : bool := forallb (fun x => x =? 0) b.

(** ** Facts about the encodings *)
Section Bytes.

Lemma be_bytes_length n z : length (be_bytes n z) = n.
Proof. revert z. induction n; intros; simpl; [done|]. rewrite length_app, IHn. simpl. lia. Qed.

Lemma be_bytes_range n z : Forall (fun b => 0 <= b < 256) (be_bytes n z).
Proof.
  revert z. induction n; intros; simpl; [constructor|].
  apply Forall_app. split; [apply IHn|]. repeat constructor; apply Z.mod_pos_bound; lia.
Qed.

Lemma be_int_app a b : be_int (a ++ b) = be_int a * 256 ^ Z.of_nat (length b) + be_int b.
Proof.
  unfold be_int. rewrite foldl_app. generalize (foldl (fun acc b => acc * 256 + b) 0 a).
  induction b as [|x b IH] using rev_ind; intros z; [simpl; lia|].
  rewrite !foldl_app, length_app. simpl. rewrite IH, Nat2Z.inj_add. simpl.
  rewrite Z.pow_add_r by lia. lia.
Qed.

Lemma be_int_bound bs : Forall (fun b => 0 <= b < 256) bs ->
  0 <= be_int bs < 256 ^ Z.of_nat (length bs).
Proof.
  induction bs as [|x bs IH] using rev_ind; [cbv; split; congruence|].
  rewrite Forall_app, Forall_singleton. intros [H1 H2]. specialize (IH H1).
  rewrite be_int_app, length_app, Nat2Z.inj_add, Z.pow_add_r by lia.
  change (be_int [x]) with (0 * 256 + x). simpl length. simpl Z.of_nat. lia.
Qed.

Lemma be_int_be_bytes n z : be_int (be_bytes n z) = z mod 256 ^ Z.of_nat n.
Proof.
  revert z. induction n as [|n IH]; intros; [by rewrite Z.mod_1_r|].
  cbn [be_bytes]. rewrite be_int_app, IH. change (be_int [z mod 256]) with (0 * 256 + z mod 256).
  replace (256 ^ Z.of_nat (S n)) with (256 * 256 ^ Z.of_nat n)
    by (rewrite Nat2Z.inj_succ, Z.pow_succ_r; lia).
  rewrite Z.rem_mul_r by lia. simpl length. simpl Z.of_nat. lia.
Qed.

Lemma be_bytes_mod k n z : (n <= k)%nat -> be_bytes n (z mod 256 ^ Z.of_nat k) = be_bytes n z.
Proof.
  revert k z. induction n as [|n IH]; intros k z Hk; [done|].
  destruct k as [|k]; [lia|]. cbn [be_bytes].
  assert (256 ^ Z.of_nat (S k) = 256 * 256 ^ Z.of_nat k) as ->
    by (rewrite Nat2Z.inj_succ, Z.pow_succ_r; lia).
  rewrite Z.rem_mul_r by lia. f_equal.
  - rewrite <- (IH k (z / 256)) by lia. f_equal.
    rewrite Z.mul_comm, Z.div_add, Z.div_small, Z.add_0_l by (lia || apply Z.mod_pos_bound; lia).
    done.
  - f_equal. rewrite Z.mul_comm, Z.mod_add, Z.mod_mod by lia. done.
Qed.

Lemma be_bytes_add a b z :
  be_bytes (a + b) z = be_bytes a (z / 256 ^ Z.of_nat b) ++ be_bytes b z.
Proof.
  revert z. induction b as [|b IH]; intros z.
  - rewrite Nat.add_0_r. simpl. by rewrite Z.div_1_r, app_nil_r.
  - rewrite Nat.add_succ_r. cbn [be_bytes]. rewrite IH, Z.div_div by lia.
    rewrite <- Z.pow_succ_r, <- Nat2Z.inj_succ, app_assoc by lia. done.
Qed.

Lemma be_bytes_0 n : be_bytes n 0 = replicate n 0.
Proof.
  induction n as [|n IH]; [done|]. cbn [be_bytes]. rewrite Z.div_0_l, IH by lia.
  by rewrite (replicate_S_end n).
Qed.

Lemma be_bytes_be_int bs : Forall (fun b => 0 <= b < 256) bs ->
  be_bytes (length bs) (be_int bs) = bs.
Proof.
  induction bs as [|x bs IH] using rev_ind; [done|].
  rewrite Forall_app, Forall_singleton. intros [H1 H2].
  rewrite length_app, Nat.add_1_r. cbn [be_bytes]. rewrite be_int_app.
  change (be_int [x]) with (0 * 256 + x). simpl length. simpl Z.of_nat.
  rewrite Z.pow_1_r. change (0 * 256) with 0. rewrite (Z.add_0_l x).
  rewrite Z.div_add_l, Z.div_small, Z.add_0_r, IH by (done || lia).
  by rewrite Z.add_comm, Z.mod_add, Z.mod_small by lia.
Qed.

Lemma BitLen_bound z : Z.abs z < 2 ^ BitLen z.
Proof.
  unfold BitLen. case_match eqn:E; [apply Z.eqb_eq in E; subst; simpl; lia|].
  apply Z.eqb_neq in E. apply Z.log2_spec. lia.
Qed.

Lemma BitLen_nonneg z : 0 <= BitLen z.
Proof. unfold BitLen. case_match; [lia|]. pose proof (Z.log2_nonneg (Z.abs z)). lia. Qed.

Lemma BitLen_le z n : 0 <= n -> (BitLen z <= n <-> Z.abs z < 2 ^ n).
Proof.
  intros Hn. unfold BitLen. case_match eqn:E.
  - apply Z.eqb_eq in E. subst. split; intros; [apply Z.pow_pos_nonneg; lia|lia].
  - apply Z.eqb_neq in E. rewrite Z.log2_lt_pow2 by lia. lia.
Qed.

Lemma Bytes_int z : be_int (Bytes z) = Z.abs z.
Proof.
  unfold Bytes. rewrite be_int_be_bytes. apply Z.mod_small. split; [lia|].
  rewrite Z2Nat.id by (apply Z.div_pos; pose proof (BitLen_nonneg z); lia).
  eapply Z.lt_le_trans; [apply BitLen_bound|].
  change 256 with (2 ^ 8). rewrite <- Z.pow_mul_r
    by (try lia; apply Z.div_pos; pose proof (BitLen_nonneg z); lia).
  apply Z.pow_le_mono_r; [lia|]. pose proof (Z.div_mod (BitLen z + 7) 8).
  pose proof (Z.mod_pos_bound (BitLen z + 7) 8). lia.
Qed.

Lemma Bytes_range z : Forall (fun b => 0 <= b < 256) (Bytes z).
Proof. apply be_bytes_range. Qed.

Lemma be_int_drop bs n : Forall (fun b => 0 <= b < 256) bs ->
  be_int (drop (length bs - n) bs) = be_int bs mod 256 ^ Z.of_nat n.
Proof.
  intros Hall. destruct (decide (length bs <= n)%nat) as [Hle|Hgt].
  - rewrite (proj2 (Nat.sub_0_le _ _) Hle), drop_0. symmetry. apply Z.mod_small.
    pose proof (be_int_bound bs Hall) as Hb. split; [lia|].
    eapply Z.lt_le_trans; [apply Hb|]. apply Z.pow_le_mono_r; lia.
  - set (k := (length bs - n)%nat).
    rewrite <- (take_drop k bs) at 2. rewrite be_int_app, length_drop.
    replace (length bs - k)%nat with n by (subst k; lia).
    rewrite Z.add_comm, Z.mod_add by lia. symmetry. apply Z.mod_small.
    pose proof (be_int_bound (drop k bs) (Forall_drop _ _ _ Hall)) as Hb.
    rewrite length_drop in Hb. replace (length bs - k)%nat with n in Hb by (subst k; lia).
    done.
Qed.

Lemma BigToHash_spec z : BigToHash z = Z.abs z mod 2 ^ 256.
Proof.
  unfold BigToHash, BytesToHash, array_of, HashLength.
  rewrite be_int_drop, Bytes_int by apply Bytes_range. done.
Qed.

Lemma BigToAddress_spec z : BigToAddress z = Z.abs z mod 2 ^ 160.
Proof.
  unfold BigToAddress, BytesToAddress, array_of, AddressLength.
  rewrite be_int_drop, Bytes_int by apply Bytes_range. done.
Qed.
End Bytes.

(** ** Facts about the words of a big integer *)
Section Words.

Fixpoint words_int (ws : list Z) : Z :=
  match ws with
  | [] => 0
  | w :: ws' => w + 2 ^ 64 * words_int ws'
  end.

Lemma words_int_words n z : words_int (words n z) = z mod 2 ^ (64 * Z.of_nat n).
Proof.
  revert z. induction n as [|n IH]; intros z; [by rewrite Z.mul_0_r, Z.mod_1_r|].
  cbn [words words_int]. rewrite IH, Nat2Z.inj_succ.
  replace (64 * Z.succ (Z.of_nat n)) with (64 + 64 * Z.of_nat n) by lia.
  rewrite Z.pow_add_r, Z.rem_mul_r by lia. lia.
Qed.

Lemma Bits_int z : words_int (Bits z) = Z.abs z.
Proof.
  unfold Bits. rewrite words_int_words. apply Z.mod_small. split; [lia|].
  pose proof (BitLen_nonneg z).
  rewrite Z2Nat.id by (apply Z.div_pos; lia).
  eapply Z.lt_le_trans; [apply BitLen_bound|]. apply Z.pow_le_mono_r; [lia|].
  pose proof (Z.div_mod (BitLen z + 63) 64). pose proof (Z.mod_pos_bound (BitLen z + 63) 64). lia.
Qed.

Lemma words_range n z : Forall is_u64 (words n z).
Proof.
  revert z. induction n; intros; simpl; constructor; [|done]. apply Z.mod_pos_bound. lia.
Qed.

Lemma words_lookup n z k w : words n z !! k = Some w ->
  w = z / 2 ^ (64 * Z.of_nat k) mod 2 ^ 64.
Proof.
  revert z k. induction n as [|n IH]; intros z k Hk; [done|].
  destruct k as [|k]; [by injection Hk as <-; rewrite Z.mul_0_r, Z.div_1_r|].
  change (words n (z / 2 ^ 64) !! k = Some w) in Hk. apply IH in Hk. rewrite Hk.
  rewrite Z.div_div by lia. rewrite <- Z.pow_add_r by lia.
  do 3 f_equal. lia.
Qed.

Lemma words_length n z : length (words n z) = n.
Proof. revert z. induction n; intros; simpl; [done|]. by rewrite IHn. Qed.

Lemma Bits_range z : Forall is_u64 (Bits z).
Proof. apply words_range. Qed.

(** The inner loop of [ReadBits] fills the end of what is left of the buffer. *)
Lemma ReadBits_word_spec j pre suf d :
  ReadBits_word j (length pre) d (pre ++ suf) =
  let m := (j `min` length pre)%nat in
  ((length pre - m)%nat, take (length pre - m) pre ++ be_bytes m d ++ suf).
Proof.
  revert pre suf d. induction j as [|j IH]; intros pre suf d; cbn zeta.
  - by rewrite Nat.min_0_l, Nat.sub_0_r, firstn_all.
  - destruct pre as [|x pre _] using rev_ind; [done|].
    rewrite length_app, Nat.add_1_r. cbn [ReadBits_word].
    rewrite <- app_assoc, insert_app_r_alt, Nat.sub_diag by lia. simpl ([x] ++ suf).
    cbn [insert list_insert]. rewrite (IH pre (u8 d :: suf)). cbn zeta.
    rewrite <- Nat.succ_min_distr. cbn [be_bytes Nat.sub].
    rewrite take_app_le by lia. rewrite <- app_assoc. by rewrite Z.shiftr_div_pow2 by lia.
Qed.

Lemma ReadBits_words_spec ws pre suf : Forall is_u64 ws ->
  ReadBits_words ws (length pre) (pre ++ suf) =
  let m := ((8 * length ws) `min` length pre)%nat in
  take (length pre - m) pre ++ be_bytes m (words_int ws) ++ suf.
Proof.
  revert pre suf. induction ws as [|w ws IH]; intros pre suf Hall; cbn zeta.
  - by rewrite Nat.min_0_l, Nat.sub_0_r, firstn_all.
  - apply Forall_cons in Hall as [Hw Hall]. cbn [ReadBits_words words_int length].
    rewrite ReadBits_word_spec. cbn zeta. unfold wordBytes.
    set (p := take (length pre - 8 `min` length pre) pre).
    assert (length p = (length pre - 8 `min` length pre)%nat) as Hp by (subst p; rewrite length_take; lia).
    rewrite <- Hp. rewrite (IH p) by done. cbn zeta. rewrite Hp.
    replace ((8 * S (length ws)) `min` length pre)%nat with
      ((8 * length ws) `min` (length pre - 8 `min` length pre) + 8 `min` length pre)%nat by lia.
    rewrite be_bytes_add, <- app_assoc. f_equal.
    { subst p. rewrite take_take. f_equal. lia. }
    destruct (decide (8 <= length pre)%nat) as [H8|H8].
    + rewrite (Nat.min_l 8) by done. f_equal.
      * f_equal. change (256 ^ Z.of_nat 8) with (2 ^ 64).
        rewrite (Z.mul_comm (2 ^ 64)), Z.div_add, Z.div_small by (done || lia). lia.
      * f_equal. rewrite <- (be_bytes_mod 8 8 (w + _)) by lia. f_equal.
        change (256 ^ Z.of_nat 8) with (2 ^ 64). symmetry.
        by rewrite (Z.mul_comm (2 ^ 64)), Z.mod_add, Z.mod_small by (done || lia).
    + rewrite (Nat.min_r 8), Nat.sub_diag, Nat.min_0_r by lia. simpl. f_equal.
      rewrite <- (be_bytes_mod 8 (length pre) (w + _)) by lia. f_equal.
      change (256 ^ Z.of_nat 8) with (2 ^ 64). symmetry.
      by rewrite (Z.mul_comm (2 ^ 64)), Z.mod_add, Z.mod_small by (done || lia).
Qed.

Lemma ReadBits_zero z n : ReadBits z (replicate n 0) = be_bytes n (Z.abs z).
Proof.
  unfold ReadBits. pose proof (ReadBits_words_spec (Bits z) (replicate n 0) [] (Bits_range z)) as H.
  rewrite app_nil_r in H. rewrite H. cbn zeta. rewrite app_nil_r, Bits_int, length_replicate.
  rewrite take_replicate, Nat.min_l by lia.
  set (m := ((8 * length (Bits z)) `min` n)%nat).
  replace n with ((n - m) + m)%nat at 2 by lia. rewrite be_bytes_add. f_equal.
  destruct (decide (n <= 8 * length (Bits z))%nat).
  - subst m. by rewrite Nat.min_r, Nat.sub_diag by lia.
  - rewrite <- be_bytes_0. f_equal. symmetry. apply Z.div_small. split; [lia|].
    rewrite <- (Bits_int z) at 1. unfold Bits. rewrite words_int_words.
    subst m. rewrite Nat.min_l by lia. unfold Bits. rewrite words_length.
    rewrite Nat2Z.inj_mul. change 256 with (2 ^ 8). rewrite <- Z.pow_mul_r by lia.
    replace (8 * (Z.of_nat 8 * Z.of_nat (Z.to_nat ((BitLen z + 63) / 64))))
      with (64 * Z.of_nat (Z.to_nat ((BitLen z + 63) / 64))) by lia.
    apply Z.mod_pos_bound. apply Z.pow_pos_nonneg; lia.
Qed.
End Words.

(** ** Facts about two's complement, bytes and powers *)
Section Arithmetic.

Lemma U256_mod x : U256 x = x mod 2 ^ 256.
Proof.
  unfold U256, tt256m1, tt256. change (2 ^ 256 - 1) with (Z.ones 256).
  apply Z.land_ones. lia.
Qed.

Lemma U256_range x : 0 <= U256 x < 2 ^ 256.
Proof. rewrite U256_mod. apply Z.mod_pos_bound. lia. Qed.

Lemma U256_id x : 0 <= x < 2 ^ 256 -> U256 x = x.
Proof. rewrite U256_mod. apply Z.mod_small. Qed.

Lemma S256_mod x : S256 x mod 2 ^ 256 = x mod 2 ^ 256.
Proof.
  unfold S256, tt256. case_match; [done|].
  replace (x - 2 ^ 256) with (x + (-1) * 2 ^ 256) by lia. by rewrite Z.mod_add.
Qed.

Lemma S256_range x : 0 <= x < 2 ^ 256 -> - 2 ^ 255 <= S256 x < 2 ^ 255.
Proof. unfold S256, tt255, tt256. case_match eqn:E; lia. Qed.

Lemma bigEndianByteAt_spec z n : bigEndianByteAt z n = Z.abs z / 256 ^ Z.of_nat n mod 256.
Proof.
  unfold bigEndianByteAt, wordBytes.
  set (q := (n / 8)%nat). set (r := (n mod 8)%nat).
  assert (n = 8 * q + r)%nat as Hn by apply Nat.div_mod_eq.
  assert (r < 8)%nat as Hr by (apply Nat.mod_upper_bound; lia).
  assert (256 ^ Z.of_nat n = 2 ^ (64 * Z.of_nat q) * 2 ^ (8 * Z.of_nat r)) as ->.
  { change 256 with (2 ^ 8). rewrite <- Z.pow_mul_r, <- Z.pow_add_r by lia. f_equal. lia. }
  rewrite <- Z.div_div by lia.
  destruct (Bits z !! q) as [w|] eqn:E.
  - unfold Bits in E. rewrite (words_lookup _ _ _ _ E). unfold u8. rewrite Z.shiftr_div_pow2 by lia.
    set (y := Z.abs z / 2 ^ (64 * Z.of_nat q)).
    replace (2 ^ 64) with (2 ^ (8 * Z.of_nat r) * 2 ^ (64 - 8 * Z.of_nat r))
      by (rewrite <- Z.pow_add_r by lia; f_equal; lia).
    rewrite Z.rem_mul_r, (Z.mul_comm (2 ^ (8 * Z.of_nat r))), Z.div_add, Z.div_small, Z.add_0_l
      by (try apply Z.mod_pos_bound; lia).
    change 256 with (2 ^ 8).
    replace (2 ^ (64 - 8 * Z.of_nat r)) with (2 ^ 8 * 2 ^ (56 - 8 * Z.of_nat r))
      by (rewrite <- Z.pow_add_r by lia; f_equal; lia).
    by rewrite Z.rem_mul_r, (Z.mul_comm (2 ^ 8)), Z.mod_add, Z.mod_mod by lia.
  - apply lookup_ge_None in E.
    rewrite (Z.div_small (Z.abs z)); [done|]. split; [lia|].
    rewrite <- (Bits_int z). unfold Bits in *. rewrite words_length in E.
    rewrite words_int_words. eapply Z.lt_le_trans.
    + apply Z.mod_pos_bound. apply Z.pow_pos_nonneg; lia.
    + apply Z.pow_le_mono_r; lia.
Qed.

(** Square and multiply. *)
Lemma Exp_word_spec n word base result :
  0 <= word < 2 ^ Z.of_nat n ->
  Exp_word n word base result =
    (if decide (n = O) then base else base ^ 2 ^ Z.of_nat n mod 2 ^ 256,
     if word =? 0 then result else (result * base ^ word) mod 2 ^ 256).
Proof.
  revert word base result. induction n as [|n IH]; intros word base result Hw.
  { assert (word = 0) as -> by (simpl in Hw; lia). done. }
  cbn [Exp_word]. rewrite Nat2Z.inj_succ, Z.pow_succ_r in * by lia.
  pose proof (Z.div_mod word 2). pose proof (Z.mod_pos_bound word 2).
  change (Z.land word 1) with (Z.land word (Z.ones 1)). rewrite Z.land_ones by lia.
  rewrite Z.shiftr_div_pow2, Z.pow_1_r, IH by lia. rewrite !U256_mod.
  set (B := 2 ^ 256). assert (HB : B <> 0) by (subst B; lia).
  f_equal.
  - destruct (decide (n = O)) as [->|]; [simpl; f_equal; lia|].
    rewrite Z.mod_pow_l, <- Z.pow_2_r, <- Z.pow_mul_r by lia. done.
  - destruct (word =? 0) eqn:E0.
    { apply Z.eqb_eq in E0. subst word. done. }
    apply Z.eqb_neq in E0.
    assert (Hp : base ^ word = (base * base) ^ (word / 2) * base ^ (word mod 2)).
    { rewrite <- Z.pow_2_r, <- Z.pow_mul_r, <- Z.pow_add_r by lia. f_equal. lia. }
    rewrite Hp. destruct (Z.eq_dec (word mod 2) 1) as [E1|E1].
    + rewrite E1. simpl (1 =? 1). cbn iota. rewrite Z.pow_1_r.
      destruct (word / 2 =? 0) eqn:E2.
      * apply Z.eqb_eq in E2. rewrite E2, Z.pow_0_r. f_equal. lia.
      * rewrite Z.mul_mod_idemp_l by done. rewrite <- Z.mul_mod_idemp_r, Z.mod_pow_l,
          Z.mul_mod_idemp_r by done. f_equal. ring.
    + assert (word mod 2 = 0) as E1' by lia. rewrite E1'. simpl (0 =? 1). cbn iota.
      rewrite Z.pow_0_r, Z.mul_1_r.
      destruct (word / 2 =? 0) eqn:E2; [apply Z.eqb_eq in E2; lia|].
      by rewrite <- Z.mul_mod_idemp_r, Z.mod_pow_l, Z.mul_mod_idemp_r by done.
Qed.
Lemma Exp_words_spec ws base result :
  Forall is_u64 ws -> 0 <= result < 2 ^ 256 ->
  Exp_words ws base result = (result * base ^ words_int ws) mod 2 ^ 256.
Proof.
  revert base result. induction ws as [|w ws IH]; intros base result Hall Hr.
  { simpl words_int. by rewrite Z.pow_0_r, Z.mul_1_r, Z.mod_small. }
  apply Forall_cons in Hall as [Hw Hall]. cbn [Exp_words words_int].
  rewrite Exp_word_spec by (unfold wordBits; exact Hw). unfold wordBits. simpl_decide.
  assert (0 <= words_int ws).
  { clear -Hall. induction Hall as [|x l Hx _ IH]; cbn [words_int]; [done|].
    unfold is_u64 in Hx. lia. }
  unfold is_u64 in Hw. simpl Z.of_nat.
  destruct (w =? 0) eqn:E0.
  - apply Z.eqb_eq in E0. subst w. rewrite IH by done.
    rewrite <- Z.mul_mod_idemp_r, Z.mod_pow_l, Z.mul_mod_idemp_r by done.
    by rewrite Z.add_0_l, Z.pow_mul_r by lia.
  - rewrite IH by (done || apply Z.mod_pos_bound; lia).
    rewrite Z.mul_mod_idemp_l by done.
    rewrite <- Z.mul_mod_idemp_r, Z.mod_pow_l, Z.mul_mod_idemp_r by done.
    rewrite <- Z.pow_mul_r, Z.pow_add_r, Z.mul_assoc by lia. done.
Qed.

(** The two directions of a 64-bit overflow test. *)
Lemma SafeMul_overflow x y : is_u64 x -> is_u64 y -> x <> 0 ->
  (MaxUint64 / x <? y) = (2 ^ 64 <=? x * y).
Proof.
  unfold is_u64, MaxUint64. intros Hx Hy H0.
  pose proof (Z.div_mod (2 ^ 64 - 1) x H0). pose proof (Z.mod_pos_bound (2 ^ 64 - 1) x).
  destruct (Z.leb_spec (2 ^ 64) (x * y)); [apply Z.ltb_lt | apply Z.ltb_ge]; nia.
Qed.
End Arithmetic.

(** [Exp], the square-and-multiply loop over the words of the exponent,
    computes the power of its arguments modulo 2^256. *)
Theorem exp_is_power_mod_2_256 (base exponent : Z) :
  0 <= exponent -> Exp base exponent = base ^ exponent mod 2 ^ 256.
Proof.
  intros H. unfold Exp. rewrite Exp_words_spec by (apply Bits_range || lia).
  by rewrite Bits_int, Z.mul_1_l, Z.abs_eq by done.
Qed.

Lemma exp_is_power_mod_2_256_witness :
  0 <= 300 /\ Exp 3 300 = 3 ^ 300 mod 2 ^ 256 /\ Exp 3 300 <> 3 ^ 300.
Proof.
  split; [lia|]. split; [apply (exp_is_power_mod_2_256 3 300); lia|].
  vm_compute. discriminate.
Defined.

(** on 64-bit operands [SafeAdd], [SafeSub] and [SafeMul] return the
    mathematical result when it fits, the wrapped one otherwise, and the flag
    is set exactly when the result leaves the 64-bit range. *)
Theorem safe_arithmetic_detects_overflow (x y : Z) :
  is_u64 x -> is_u64 y ->
  SafeAdd x y = (u64 (x + y), negb (bool_decide (is_u64 (x + y)))) /\
  SafeSub x y = (u64 (x - y), negb (bool_decide (is_u64 (x - y)))) /\
  SafeMul x y = (u64 (x * y), negb (bool_decide (is_u64 (x * y)))).
Proof.
  intros Hx Hy. unfold SafeAdd, SafeSub, SafeMul.
  assert (Hx' := Hx). assert (Hy' := Hy). unfold is_u64 in Hx', Hy'.
  rewrite (u64_id (MaxUint64 - x)) by (unfold is_u64, MaxUint64; lia).
  repeat split.
  - f_equal. unfold MaxUint64. destruct (Z.ltb_spec (2 ^ 64 - 1 - x) y);
      case_bool_decide; unfold is_u64 in *; simpl; (done || lia).
  - f_equal. destruct (Z.ltb_spec x y); case_bool_decide; unfold is_u64 in *; simpl; (done || lia).
  - destruct (x =? 0) eqn:Ex; [apply Z.eqb_eq in Ex; subst; done|].
    destruct (y =? 0) eqn:Ey; [apply Z.eqb_eq in Ey; subst; by rewrite Z.mul_0_r|].
    apply Z.eqb_neq in Ex. simpl. f_equal. rewrite SafeMul_overflow by done.
    destruct (Z.leb_spec (2 ^ 64) (x * y)); case_bool_decide; unfold is_u64 in *; simpl; (done || nia).
Qed.

Lemma safe_arithmetic_detects_overflow_witness :
  SafeMul (2 ^ 63) 3 = (u64 (2 ^ 63 * 3), negb (bool_decide (is_u64 (2 ^ 63 * 3)))).
Proof.
  apply (safe_arithmetic_detects_overflow (2 ^ 63) 3); unfold is_u64; lia.
Defined.
