(* ===== verification/Config.v ===== *)
(** * Chain configuration and gas tables

    dvm/ethereum/params: the protocol constants (protocol_params.go), the gas
    tables (gas_table.go) and the fork schedule (config.go).  A [nil] block
    number is [None]; a fork hash, the genesis hashes and the consensus engine
    settings are not read by the machine and are left out. *)
From Stdlib Require Import ZArith Lia.
From S2P Require Import Prelude Word.
Import Big.
Open Scope Z_scope.

(** ** protocol_params.go *)
Module Params.
Definition GasLimitBoundDivisor : Z := 1024.
Definition MinGasLimit : Z := 5000.
Definition GenesisGasLimit : Z := 4712388.
Definition MaximumExtraDataSize : Z := 32.
Definition ExpByteGas : Z := 10.
Definition SloadGas : Z := 50.
Definition CallValueTransferGas : Z := 9000.
Definition CallNewAccountGas : Z := 25000.
Definition TxGas : Z := 21000.
Definition TxGasContractCreation : Z := 53000.
Definition TxDataZeroGas : Z := 4.
Definition QuadCoeffDiv : Z := 512.
Definition SstoreSetGas : Z := 20000.
Definition LogDataGas : Z := 8.
Definition CallStipend : Z := 2300.
Definition Sha3Gas : Z := 30.
Definition Sha3WordGas : Z := 6.
Definition SstoreResetGas : Z := 5000.
Definition SstoreClearGas : Z := 5000.
Definition SstoreRefundGas : Z := 15000.
Definition JumpdestGas : Z := 1.
Definition EpochDuration : Z := 30000.
Definition CallGas : Z := 40.
Definition CreateDataGas : Z := 200.
Definition CallCreateDepth : Z := 1024.
Definition ExpGas : Z := 10.
Definition LogGas : Z := 375.
Definition CopyGas : Z := 3.
Definition StackLimit : Z := 1024.
Definition TierStepGas : Z := 0.
Definition LogTopicGas : Z := 375.
Definition CreateGas : Z := 32000.
Definition Create2Gas : Z := 32000.
Definition SuicideRefundGas : Z := 24000.
Definition MemoryGas : Z := 3.
Definition TxDataNonZeroGas : Z := 68.
Definition MaxCodeSize : Z := 24576.
Definition EcrecoverGas : Z := 3000.
Definition Sha256BaseGas : Z := 60.
Definition Sha256PerWordGas : Z := 12.
Definition Ripemd160BaseGas : Z := 600.
Definition Ripemd160PerWordGas : Z := 120.
Definition IdentityBaseGas : Z := 15.
Definition IdentityPerWordGas : Z := 3.
Definition ModExpQuadCoeffDiv : Z := 20.
Definition Bn256AddGas : Z := 500.
Definition Bn256ScalarMulGas : Z := 40000.
Definition Bn256PairingBaseGas : Z := 100000.
Definition Bn256PairingPerPointGas : Z := 80000.
Definition DifficultyBoundDivisor : Z := 2048.
Definition GenesisDifficulty : Z := 131072.
Definition MinimumDifficulty : Z := 131072.
Definition DurationLimit : Z := 13.
End Params.

(** ** gas_table.go *)
Record GasTable := {
  ExtcodeSize : Z; ExtcodeCopy : Z; ExtcodeHash : Z; BalanceGas : Z; SLoad : Z;
  Calls : Z; Suicide : Z; ExpByte : Z; CreateBySuicide : Z
}.

Definition GasTableHomestead : GasTable := {|
  ExtcodeSize := 20; ExtcodeCopy := 20; ExtcodeHash := 0; BalanceGas := 20; SLoad := 50;
  Calls := 40; Suicide := 0; ExpByte := 10; CreateBySuicide := 0 |}.
Definition GasTableEIP150 : GasTable := {|
  ExtcodeSize := 700; ExtcodeCopy := 700; ExtcodeHash := 0; BalanceGas := 400; SLoad := 200;
  Calls := 700; Suicide := 5000; ExpByte := 10; CreateBySuicide := 25000 |}.
Definition GasTableEIP158 : GasTable := {|
  ExtcodeSize := 700; ExtcodeCopy := 700; ExtcodeHash := 0; BalanceGas := 400; SLoad := 200;
  Calls := 700; Suicide := 5000; ExpByte := 50; CreateBySuicide := 25000 |}.
Definition GasTableConstantinople : GasTable := {|
  ExtcodeSize := 700; ExtcodeCopy := 700; ExtcodeHash := 400; BalanceGas := 400; SLoad := 200;
  Calls := 700; Suicide := 5000; ExpByte := 50; CreateBySuicide := 25000 |}.

(** ** config.go *)
Record ChainConfig := {
  ChainID : option Z;
  HomesteadBlock : option Z;
  DAOForkBlock : option Z;
  DAOForkSupport : bool;
  EIP150Block : option Z;
  EIP155Block : option Z;
  EIP158Block : option Z;
  ByzantiumBlock : option Z;
  ConstantinopleBlock : option Z
}.

Definition MainnetChainConfig : ChainConfig := {|
  ChainID := Some 1; HomesteadBlock := Some 1150000; DAOForkBlock := Some 1920000;
  DAOForkSupport := true; EIP150Block := Some 2463000; EIP155Block := Some 2675000;
  EIP158Block := Some 2675000; ByzantiumBlock := Some 4370000; ConstantinopleBlock := None |}.
Definition TestnetChainConfig : ChainConfig := {|
  ChainID := Some 3; HomesteadBlock := Some 0; DAOForkBlock := None;
  DAOForkSupport := true; EIP150Block := Some 0; EIP155Block := Some 10;
  EIP158Block := Some 10; ByzantiumBlock := Some 1700000; ConstantinopleBlock := None |}.
Definition RinkebyChainConfig : ChainConfig := {|
  ChainID := Some 4; HomesteadBlock := Some 1; DAOForkBlock := None;
  DAOForkSupport := true; EIP150Block := Some 2; EIP155Block := Some 3;
  EIP158Block := Some 3; ByzantiumBlock := Some 1035301; ConstantinopleBlock := None |}.
Definition TestChainConfig : ChainConfig := {|
  ChainID := Some 1; HomesteadBlock := Some 0; DAOForkBlock := None;
  DAOForkSupport := false; EIP150Block := Some 0; EIP155Block := Some 0;
  EIP158Block := Some 0; ByzantiumBlock := Some 0; ConstantinopleBlock := None |}.

Definition isForked (s head : option Z) : bool :=
  match s, head with
  | Some s, Some head => s <=? head
  | _, _ => false
  end.

Definition configNumEqual (x y : option Z) : bool :=
  match x, y with
  | None, None => true
  | Some x, Some y => x =? y
  | _, _ => false
  end.

Definition IsHomestead (c : ChainConfig) (num : option Z) := isForked c.(HomesteadBlock) num.
Definition IsDAOFork (c : ChainConfig) (num : option Z) := isForked c.(DAOForkBlock) num.
Definition IsEIP150 (c : ChainConfig) (num : option Z) := isForked c.(EIP150Block) num.
Definition IsEIP155 (c : ChainConfig) (num : option Z) := isForked c.(EIP155Block) num.
Definition IsEIP158 (c : ChainConfig) (num : option Z) := isForked c.(EIP158Block) num.
Definition IsByzantium (c : ChainConfig) (num : option Z) := isForked c.(ByzantiumBlock) num.
Definition IsConstantinople (c : ChainConfig) (num : option Z) :=
  isForked c.(ConstantinopleBlock) num.

Definition gasTable (c : ChainConfig) (num : option Z) : GasTable :=
  match num with
  | None => GasTableHomestead
  | Some _ =>
      if IsConstantinople c num then GasTableConstantinople
      else if IsEIP158 c num then GasTableEIP158
      else if IsEIP150 c num then GasTableEIP150
      else GasTableHomestead
  end.

Record Rules := {
  rules_ChainID : Z; rules_IsHomestead : bool; rules_IsEIP150 : bool;
  rules_IsEIP155 : bool; rules_IsEIP158 : bool; rules_IsByzantium : bool
}.

Definition mkRules (c : ChainConfig) (num : option Z) : Rules := {|
  rules_ChainID := default 0 c.(ChainID);
  rules_IsHomestead := IsHomestead c num; rules_IsEIP150 := IsEIP150 c num;
  rules_IsEIP155 := IsEIP155 c num; rules_IsEIP158 := IsEIP158 c num;
  rules_IsByzantium := IsByzantium c num |}.

(** *** Compatibility of a stored configuration with a new one *)
Record ConfigCompatError := {
  What : string; StoredConfig : option Z; NewConfig : option Z; RewindTo : Z
}.

Definition newCompatError (what : string) (storedblock newblock : option Z) : ConfigCompatError :=
  let rew :=
    match storedblock, newblock with
    | None, _ => newblock
    | Some _, None => storedblock
    | Some s, Some n => if s <? n then storedblock else newblock
    end in
  {| What := what; StoredConfig := storedblock; NewConfig := newblock;
     RewindTo := match rew with
                 | Some r => if 0 <? r then u64 (Uint64 r - 1) else 0
                 | None => 0
                 end |}.

Definition isForkIncompatible (s1 s2 : option Z) (head : Z) : bool :=
  (isForked s1 (Some head) || isForked s2 (Some head)) && negb (configNumEqual s1 s2).

Definition checkCompatible (c newcfg : ChainConfig) (head : Z) : option ConfigCompatError :=
  if isForkIncompatible c.(HomesteadBlock) newcfg.(HomesteadBlock) head then
    Some (newCompatError "Homestead fork block" c.(HomesteadBlock) newcfg.(HomesteadBlock))
  else if isForkIncompatible c.(DAOForkBlock) newcfg.(DAOForkBlock) head then
    Some (newCompatError "DAO fork block" c.(DAOForkBlock) newcfg.(DAOForkBlock))
  else if IsDAOFork c (Some head) && negb (eqb c.(DAOForkSupport) newcfg.(DAOForkSupport)) then
    Some (newCompatError "DAO fork support flag" c.(DAOForkBlock) newcfg.(DAOForkBlock))
  else if isForkIncompatible c.(EIP150Block) newcfg.(EIP150Block) head then
    Some (newCompatError "EIP150 fork block" c.(EIP150Block) newcfg.(EIP150Block))
  else if isForkIncompatible c.(EIP155Block) newcfg.(EIP155Block) head then
    Some (newCompatError "EIP155 fork block" c.(EIP155Block) newcfg.(EIP155Block))
  else if isForkIncompatible c.(EIP158Block) newcfg.(EIP158Block) head then
    Some (newCompatError "EIP158 fork block" c.(EIP158Block) newcfg.(EIP158Block))
  else if IsEIP158 c (Some head) && negb (configNumEqual c.(ChainID) newcfg.(ChainID)) then
    Some (newCompatError "EIP158 chain ID" c.(EIP158Block) newcfg.(EIP158Block))
  else if isForkIncompatible c.(ByzantiumBlock) newcfg.(ByzantiumBlock) head then
    Some (newCompatError "Byzantium fork block" c.(ByzantiumBlock) newcfg.(ByzantiumBlock))
  else if isForkIncompatible c.(ConstantinopleBlock) newcfg.(ConstantinopleBlock) head then
    Some (newCompatError "Constantinople fork block" c.(ConstantinopleBlock)
            newcfg.(ConstantinopleBlock))
  else None.

(** The loop of [CheckCompatible]; [None] when the fuel does not suffice. *)
Fixpoint CheckCompatible_loop (fuel : nat) (c newcfg : ChainConfig) (bhead : Z)
    (lasterr : option ConfigCompatError) : option (option ConfigCompatError) :=
  match fuel with
  | O => None
  | S fuel' =>
      match checkCompatible c newcfg bhead with
      | None => Some lasterr
      | Some err =>
          let same := match lasterr with
                      | Some le => err.(RewindTo) =? le.(RewindTo)
                      | None => false
                      end in
          if same then Some lasterr
          else CheckCompatible_loop fuel' c newcfg err.(RewindTo) (Some err)
      end
  end.

Definition CheckCompatible (c newcfg : ChainConfig) (height : Z) : option (option ConfigCompatError) :=
  CheckCompatible_loop (S (S (Z.to_nat height))) c newcfg height None.

(** ** The compatibility check *)
Section Compat.
Implicit Types c n : ChainConfig.

Lemma newCompatError_rewind what s1 s2 head :
  0 <= head < 2 ^ 64 ->
  isForked s1 (Some head) = true \/ isForked s2 (Some head) = true ->
  let r := (newCompatError what s1 s2).(RewindTo) in
  0 <= r /\ (r < head \/ r = 0).
Proof.
  intros Hh Hf. unfold newCompatError, isForked in *. simpl.
  assert (forall r, r <= head -> 0 <= (if 0 <? r then u64 (Uint64 r - 1) else 0) /\
    ((if 0 <? r then u64 (Uint64 r - 1) else 0) < head \/
     (if 0 <? r then u64 (Uint64 r - 1) else 0) = 0)) as Hr.
  { intros r Hle. destruct (Z.ltb_spec 0 r); [|lia]. unfold Uint64. rewrite Z.abs_eq by lia.
    rewrite (u64_id r), u64_id by (unfold is_u64; lia). lia. }
  destruct s1 as [s1|], s2 as [s2|]; simpl in *;
    repeat match goal with
    | H : _ \/ _ |- _ => destruct H as [H|H]
    | H : (_ <=? _) = true |- _ => apply Z.leb_le in H
    | |- context [if s1 <? s2 then _ else _] => destruct (Z.ltb_spec s1 s2)
    end; try discriminate; apply Hr; lia.
Qed.

Lemma isForkIncompatible_forked s1 s2 head : isForkIncompatible s1 s2 head = true ->
  isForked s1 (Some head) = true \/ isForked s2 (Some head) = true.
Proof. unfold isForkIncompatible. intros [H _]%andb_true_iff. by apply orb_true_iff. Qed.

(** A conflict found at [head] asks for a rewind strictly below [head], or to
    the genesis block. *)
Lemma checkCompatible_rewind c n head err :
  0 <= head < 2 ^ 64 -> checkCompatible c n head = Some err ->
  0 <= err.(RewindTo) /\ (err.(RewindTo) < head \/ err.(RewindTo) = 0).
Proof.
  intros Hh. unfold checkCompatible.
  repeat (case_match eqn:E;
    [ intros [= <-]; apply newCompatError_rewind; [done|];
      first [ by apply isForkIncompatible_forked
            | apply andb_true_iff in E as [E _]; by left ]
    | clear E ]).
  done.
Qed.

Lemma CheckCompatible_loop_ok c n fuel bhead last :
  0 <= bhead < 2 ^ 64 ->
  match last with
  | None => True
  | Some le => le.(RewindTo) = bhead
  end ->
  bhead < Z.of_nat fuel - (if last is None then 1 else 0) ->
  exists r, CheckCompatible_loop fuel c n bhead last = Some r /\
    match r with
    | None => last = None /\ checkCompatible c n bhead = None
    | Some e => 0 <= e.(RewindTo) < 2 ^ 64 /\ e.(RewindTo) <= bhead /\
        (checkCompatible c n e.(RewindTo) = None \/ e.(RewindTo) = 0)
    end.
Proof.
  revert bhead last. induction fuel as [|fuel IH]; intros bhead last Hb Hl Hf.
  { destruct last; simpl in Hf; lia. }
  cbn [CheckCompatible_loop].
  destruct (checkCompatible c n bhead) as [err|] eqn:E.
  2: { exists last. split; [done|]. destruct last as [le|]; [|done]. rewrite Hl. auto with lia. }
  destruct (checkCompatible_rewind _ _ _ _ Hb E) as [H0 Hlt].
  set (same := match last with Some le => err.(RewindTo) =? le.(RewindTo) | None => false end).
  destruct same eqn:Es; subst same.
  { destruct last as [le|]; [|done]. apply Z.eqb_eq in Es. exists (Some le). split; [done|].
    split; [lia|]. split; [lia|]. right. lia. }
  destruct (IH err.(RewindTo) (Some err)) as (r & Hr & Hok); [lia|done|..].
  { destruct last as [le|]; simpl in Hf |- *.
    - apply Z.eqb_neq in Es. lia.
    - lia. }
  exists r. split; [exact Hr|]. destruct r as [e|]; [|by destruct Hok].
  destruct Hok as (? & ? & ?). split; [done|]. split; [|done]. lia.
Qed.
End Compat.

(** [CheckCompatible] terminates for every height; it reports no conflict
    exactly when the two configurations agree up to that height, and the block
    it asks to rewind to is one at which they agree, or the genesis block. *)
Theorem check_compatible_rewinds_far_enough (c newcfg : ChainConfig) (height : Z) :
  is_u64 height ->
  exists r, CheckCompatible c newcfg height = Some r /\
    match r with
    | None => checkCompatible c newcfg height = None
    | Some e => checkCompatible c newcfg height <> None /\ 0 <= e.(RewindTo) <= height /\
        (checkCompatible c newcfg e.(RewindTo) = None \/ e.(RewindTo) = 0)
    end.
Proof.
  intros Hh. unfold is_u64 in Hh. unfold CheckCompatible.
  destruct (checkCompatible c newcfg height) as [err|] eqn:E.
  - destruct (CheckCompatible_loop_ok c newcfg (S (S (Z.to_nat height))) height None)
      as (r & Hr & Hok); [done|done|lia|].
    exists r. split; [done|]. destruct r as [e|]; [|destruct Hok; congruence].
    split; [done|]. destruct Hok as (? & ? & ?). split; [lia|done].
  - exists None. cbn [CheckCompatible_loop]. by rewrite E.
Qed.

Lemma check_compatible_rewinds_far_enough_witness :
  exists r, CheckCompatible MainnetChainConfig TestnetChainConfig 5000000 = Some r /\
    match r with
    | None => checkCompatible MainnetChainConfig TestnetChainConfig 5000000 = None
    | Some e => checkCompatible MainnetChainConfig TestnetChainConfig 5000000 <> None /\
        0 <= e.(RewindTo) <= 5000000 /\
        (checkCompatible MainnetChainConfig TestnetChainConfig e.(RewindTo) = None \/
         e.(RewindTo) = 0)
    end.
Proof.
  apply (check_compatible_rewinds_far_enough MainnetChainConfig TestnetChainConfig 5000000).
  unfold is_u64. lia.
Defined.
