(* ===== verification/OpCodes.v ===== *)
(** * Opcodes

    dvm/ethereum/vm/opcodes.go: the opcode constants, their names and the two
    tables that convert between them.  An [OpCode] is a byte. *)
From Stdlib Require Import ZArith Lia.
From S2P Require Import Prelude.
Open Scope Z_scope.

Module Op.
Definition STOP : Z := 0x0.
Definition ADD : Z := 0x1.
Definition MUL : Z := 0x2.
Definition SUB : Z := 0x3.
Definition DIV : Z := 0x4.
Definition SDIV : Z := 0x5.
Definition MOD : Z := 0x6.
Definition SMOD : Z := 0x7.
Definition ADDMOD : Z := 0x8.
Definition MULMOD : Z := 0x9.
Definition EXP : Z := 0xa.
Definition SIGNEXTEND : Z := 0xb.
Definition LT : Z := 0x10.
Definition GT : Z := 0x11.
Definition SLT : Z := 0x12.
Definition SGT : Z := 0x13.
Definition EQ : Z := 0x14.
Definition ISZERO : Z := 0x15.
Definition AND : Z := 0x16.
Definition OR : Z := 0x17.
Definition XOR : Z := 0x18.
Definition NOT : Z := 0x19.
Definition BYTE : Z := 0x1a.
Definition SHL : Z := 0x1b.
Definition SHR : Z := 0x1c.
Definition SAR : Z := 0x1d.
Definition SHA3 : Z := 0x20.
Definition ADDRESS : Z := 0x30.
Definition BALANCE : Z := 0x31.
Definition ORIGIN : Z := 0x32.
Definition CALLER : Z := 0x33.
Definition CALLVALUE : Z := 0x34.
Definition CALLDATALOAD : Z := 0x35.
Definition CALLDATASIZE : Z := 0x36.
Definition CALLDATACOPY : Z := 0x37.
Definition CODESIZE : Z := 0x38.
Definition CODECOPY : Z := 0x39.
Definition GASPRICE : Z := 0x3a.
Definition EXTCODESIZE : Z := 0x3b.
Definition EXTCODECOPY : Z := 0x3c.
Definition RETURNDATASIZE : Z := 0x3d.
Definition RETURNDATACOPY : Z := 0x3e.
Definition EXTCODEHASH : Z := 0x3f.
Definition BLOCKHASH : Z := 0x40.
Definition COINBASE : Z := 0x41.
Definition TIMESTAMP : Z := 0x42.
Definition NUMBER : Z := 0x43.
Definition DIFFICULTY : Z := 0x44.
Definition GASLIMIT : Z := 0x45.
Definition POP : Z := 0x50.
Definition MLOAD : Z := 0x51.
Definition MSTORE : Z := 0x52.
Definition MSTORE8 : Z := 0x53.
Definition SLOAD : Z := 0x54.
Definition SSTORE : Z := 0x55.
Definition JUMP : Z := 0x56.
Definition JUMPI : Z := 0x57.
Definition PC : Z := 0x58.
Definition MSIZE : Z := 0x59.
Definition GAS : Z := 0x5a.
Definition JUMPDEST : Z := 0x5b.
Definition PUSH1 : Z := 0x60.
Definition PUSH2 : Z := 0x61.
Definition PUSH3 : Z := 0x62.
Definition PUSH4 : Z := 0x63.
Definition PUSH5 : Z := 0x64.
Definition PUSH6 : Z := 0x65.
Definition PUSH7 : Z := 0x66.
Definition PUSH8 : Z := 0x67.
Definition PUSH9 : Z := 0x68.
Definition PUSH10 : Z := 0x69.
Definition PUSH11 : Z := 0x6a.
Definition PUSH12 : Z := 0x6b.
Definition PUSH13 : Z := 0x6c.
Definition PUSH14 : Z := 0x6d.
Definition PUSH15 : Z := 0x6e.
Definition PUSH16 : Z := 0x6f.
Definition PUSH17 : Z := 0x70.
Definition PUSH18 : Z := 0x71.
Definition PUSH19 : Z := 0x72.
Definition PUSH20 : Z := 0x73.
Definition PUSH21 : Z := 0x74.
Definition PUSH22 : Z := 0x75.
Definition PUSH23 : Z := 0x76.
Definition PUSH24 : Z := 0x77.
Definition PUSH25 : Z := 0x78.
Definition PUSH26 : Z := 0x79.
Definition PUSH27 : Z := 0x7a.
Definition PUSH28 : Z := 0x7b.
Definition PUSH29 : Z := 0x7c.
Definition PUSH30 : Z := 0x7d.
Definition PUSH31 : Z := 0x7e.
Definition PUSH32 : Z := 0x7f.
Definition DUP1 : Z := 0x80.
Definition DUP2 : Z := 0x81.
Definition DUP3 : Z := 0x82.
Definition DUP4 : Z := 0x83.
Definition DUP5 : Z := 0x84.
Definition DUP6 : Z := 0x85.
Definition DUP7 : Z := 0x86.
Definition DUP8 : Z := 0x87.
Definition DUP9 : Z := 0x88.
Definition DUP10 : Z := 0x89.
Definition DUP11 : Z := 0x8a.
Definition DUP12 : Z := 0x8b.
Definition DUP13 : Z := 0x8c.
Definition DUP14 : Z := 0x8d.
Definition DUP15 : Z := 0x8e.
Definition DUP16 : Z := 0x8f.
Definition SWAP1 : Z := 0x90.
Definition SWAP2 : Z := 0x91.
Definition SWAP3 : Z := 0x92.
Definition SWAP4 : Z := 0x93.
Definition SWAP5 : Z := 0x94.
Definition SWAP6 : Z := 0x95.
Definition SWAP7 : Z := 0x96.
Definition SWAP8 : Z := 0x97.
Definition SWAP9 : Z := 0x98.
Definition SWAP10 : Z := 0x99.
Definition SWAP11 : Z := 0x9a.
Definition SWAP12 : Z := 0x9b.
Definition SWAP13 : Z := 0x9c.
Definition SWAP14 : Z := 0x9d.
Definition SWAP15 : Z := 0x9e.
Definition SWAP16 : Z := 0x9f.
Definition LOG0 : Z := 0xa0.
Definition LOG1 : Z := 0xa1.
Definition LOG2 : Z := 0xa2.
Definition LOG3 : Z := 0xa3.
Definition LOG4 : Z := 0xa4.
Definition PUSH : Z := 0xb0.
Definition DUP : Z := 0xb1.
Definition SWAP : Z := 0xb2.
Definition CREATE : Z := 0xf0.
Definition CALL : Z := 0xf1.
Definition CALLCODE : Z := 0xf2.
Definition RETURN : Z := 0xf3.
Definition DELEGATECALL : Z := 0xf4.
Definition CREATE2 : Z := 0xf5.
Definition STATICCALL : Z := 0xfa.
Definition REVERT : Z := 0xfd.
Definition SELFDESTRUCT : Z := 0xff.
End Op.
Import Op.

Definition IsPush (op : Z) : bool :=
  bool_decide (op ∈ [
    PUSH1; PUSH2; PUSH3; PUSH4; PUSH5; PUSH6; PUSH7; PUSH8; PUSH9; PUSH10; PUSH11; PUSH12;
    PUSH13; PUSH14; PUSH15; PUSH16; PUSH17; PUSH18; PUSH19; PUSH20; PUSH21; PUSH22; PUSH23;
    PUSH24; PUSH25; PUSH26; PUSH27; PUSH28; PUSH29; PUSH30; PUSH31; PUSH32]).

Definition IsStaticJump (op : Z) : bool := op =? JUMP.

Definition opCodeToString : list (Z * string) := [
    (STOP, "STOP"%string); (ADD, "ADD"%string); (MUL, "MUL"%string); (SUB, "SUB"%string);
    (DIV, "DIV"%string); (SDIV, "SDIV"%string); (MOD, "MOD"%string); (SMOD, "SMOD"%string);
    (EXP, "EXP"%string); (NOT, "NOT"%string); (LT, "LT"%string); (GT, "GT"%string);
    (SLT, "SLT"%string); (SGT, "SGT"%string); (EQ, "EQ"%string); (ISZERO, "ISZERO"%string);
    (SIGNEXTEND, "SIGNEXTEND"%string); (AND, "AND"%string); (OR, "OR"%string);
    (XOR, "XOR"%string); (BYTE, "BYTE"%string); (SHL, "SHL"%string); (SHR, "SHR"%string);
    (SAR, "SAR"%string); (ADDMOD, "ADDMOD"%string); (MULMOD, "MULMOD"%string);
    (SHA3, "SHA3"%string); (ADDRESS, "ADDRESS"%string); (BALANCE, "BALANCE"%string);
    (ORIGIN, "ORIGIN"%string); (CALLER, "CALLER"%string); (CALLVALUE, "CALLVALUE"%string);
    (CALLDATALOAD, "CALLDATALOAD"%string); (CALLDATASIZE, "CALLDATASIZE"%string);
    (CALLDATACOPY, "CALLDATACOPY"%string); (CODESIZE, "CODESIZE"%string);
    (CODECOPY, "CODECOPY"%string); (GASPRICE, "GASPRICE"%string);
    (EXTCODESIZE, "EXTCODESIZE"%string); (EXTCODECOPY, "EXTCODECOPY"%string);
    (RETURNDATASIZE, "RETURNDATASIZE"%string); (RETURNDATACOPY, "RETURNDATACOPY"%string);
    (EXTCODEHASH, "EXTCODEHASH"%string); (BLOCKHASH, "BLOCKHASH"%string);
    (COINBASE, "COINBASE"%string); (TIMESTAMP, "TIMESTAMP"%string); (NUMBER, "NUMBER"%string);
    (DIFFICULTY, "DIFFICULTY"%string); (GASLIMIT, "GASLIMIT"%string); (POP, "POP"%string);
    (MLOAD, "MLOAD"%string); (MSTORE, "MSTORE"%string); (MSTORE8, "MSTORE8"%string);
    (SLOAD, "SLOAD"%string); (SSTORE, "SSTORE"%string); (JUMP, "JUMP"%string);
    (JUMPI, "JUMPI"%string); (PC, "PC"%string); (MSIZE, "MSIZE"%string); (GAS, "GAS"%string);
    (JUMPDEST, "JUMPDEST"%string); (PUSH1, "PUSH1"%string); (PUSH2, "PUSH2"%string);
    (PUSH3, "PUSH3"%string); (PUSH4, "PUSH4"%string); (PUSH5, "PUSH5"%string);
    (PUSH6, "PUSH6"%string); (PUSH7, "PUSH7"%string); (PUSH8, "PUSH8"%string);
    (PUSH9, "PUSH9"%string); (PUSH10, "PUSH10"%string); (PUSH11, "PUSH11"%string);
    (PUSH12, "PUSH12"%string); (PUSH13, "PUSH13"%string); (PUSH14, "PUSH14"%string);
    (PUSH15, "PUSH15"%string); (PUSH16, "PUSH16"%string); (PUSH17, "PUSH17"%string);
    (PUSH18, "PUSH18"%string); (PUSH19, "PUSH19"%string); (PUSH20, "PUSH20"%string);
    (PUSH21, "PUSH21"%string); (PUSH22, "PUSH22"%string); (PUSH23, "PUSH23"%string);
    (PUSH24, "PUSH24"%string); (PUSH25, "PUSH25"%string); (PUSH26, "PUSH26"%string);
    (PUSH27, "PUSH27"%string); (PUSH28, "PUSH28"%string); (PUSH29, "PUSH29"%string);
    (PUSH30, "PUSH30"%string); (PUSH31, "PUSH31"%string); (PUSH32, "PUSH32"%string);
    (DUP1, "DUP1"%string); (DUP2, "DUP2"%string); (DUP3, "DUP3"%string); (DUP4, "DUP4"%string);
    (DUP5, "DUP5"%string); (DUP6, "DUP6"%string); (DUP7, "DUP7"%string); (DUP8, "DUP8"%string);
    (DUP9, "DUP9"%string); (DUP10, "DUP10"%string); (DUP11, "DUP11"%string);
    (DUP12, "DUP12"%string); (DUP13, "DUP13"%string); (DUP14, "DUP14"%string);
    (DUP15, "DUP15"%string); (DUP16, "DUP16"%string); (SWAP1, "SWAP1"%string);
    (SWAP2, "SWAP2"%string); (SWAP3, "SWAP3"%string); (SWAP4, "SWAP4"%string);
    (SWAP5, "SWAP5"%string); (SWAP6, "SWAP6"%string); (SWAP7, "SWAP7"%string);
    (SWAP8, "SWAP8"%string); (SWAP9, "SWAP9"%string); (SWAP10, "SWAP10"%string);
    (SWAP11, "SWAP11"%string); (SWAP12, "SWAP12"%string); (SWAP13, "SWAP13"%string);
    (SWAP14, "SWAP14"%string); (SWAP15, "SWAP15"%string); (SWAP16, "SWAP16"%string);
    (LOG0, "LOG0"%string); (LOG1, "LOG1"%string); (LOG2, "LOG2"%string); (LOG3, "LOG3"%string);
    (LOG4, "LOG4"%string); (CREATE, "CREATE"%string); (CALL, "CALL"%string);
    (RETURN, "RETURN"%string); (CALLCODE, "CALLCODE"%string);
    (DELEGATECALL, "DELEGATECALL"%string); (CREATE2, "CREATE2"%string);
    (STATICCALL, "STATICCALL"%string); (REVERT, "REVERT"%string);
    (SELFDESTRUCT, "SELFDESTRUCT"%string); (PUSH, "PUSH"%string); (DUP, "DUP"%string);
    (SWAP, "SWAP"%string)
  ].

Definition stringToOp : list (string * Z) := [
    ("STOP"%string, STOP); ("ADD"%string, ADD); ("MUL"%string, MUL); ("SUB"%string, SUB);
    ("DIV"%string, DIV); ("SDIV"%string, SDIV); ("MOD"%string, MOD); ("SMOD"%string, SMOD);
    ("EXP"%string, EXP); ("NOT"%string, NOT); ("LT"%string, LT); ("GT"%string, GT);
    ("SLT"%string, SLT); ("SGT"%string, SGT); ("EQ"%string, EQ); ("ISZERO"%string, ISZERO);
    ("SIGNEXTEND"%string, SIGNEXTEND); ("AND"%string, AND); ("OR"%string, OR);
    ("XOR"%string, XOR); ("BYTE"%string, BYTE); ("SHL"%string, SHL); ("SHR"%string, SHR);
    ("SAR"%string, SAR); ("ADDMOD"%string, ADDMOD); ("MULMOD"%string, MULMOD);
    ("SHA3"%string, SHA3); ("ADDRESS"%string, ADDRESS); ("BALANCE"%string, BALANCE);
    ("ORIGIN"%string, ORIGIN); ("CALLER"%string, CALLER); ("CALLVALUE"%string, CALLVALUE);
    ("CALLDATALOAD"%string, CALLDATALOAD); ("CALLDATASIZE"%string, CALLDATASIZE);
    ("CALLDATACOPY"%string, CALLDATACOPY); ("DELEGATECALL"%string, DELEGATECALL);
    ("STATICCALL"%string, STATICCALL); ("CODESIZE"%string, CODESIZE);
    ("CODECOPY"%string, CODECOPY); ("GASPRICE"%string, GASPRICE);
    ("EXTCODESIZE"%string, EXTCODESIZE); ("EXTCODECOPY"%string, EXTCODECOPY);
    ("RETURNDATASIZE"%string, RETURNDATASIZE); ("RETURNDATACOPY"%string, RETURNDATACOPY);
    ("EXTCODEHASH"%string, EXTCODEHASH); ("BLOCKHASH"%string, BLOCKHASH);
    ("COINBASE"%string, COINBASE); ("TIMESTAMP"%string, TIMESTAMP); ("NUMBER"%string, NUMBER);
    ("DIFFICULTY"%string, DIFFICULTY); ("GASLIMIT"%string, GASLIMIT); ("POP"%string, POP);
    ("MLOAD"%string, MLOAD); ("MSTORE"%string, MSTORE); ("MSTORE8"%string, MSTORE8);
    ("SLOAD"%string, SLOAD); ("SSTORE"%string, SSTORE); ("JUMP"%string, JUMP);
    ("JUMPI"%string, JUMPI); ("PC"%string, PC); ("MSIZE"%string, MSIZE); ("GAS"%string, GAS);
    ("JUMPDEST"%string, JUMPDEST); ("PUSH1"%string, PUSH1); ("PUSH2"%string, PUSH2);
    ("PUSH3"%string, PUSH3); ("PUSH4"%string, PUSH4); ("PUSH5"%string, PUSH5);
    ("PUSH6"%string, PUSH6); ("PUSH7"%string, PUSH7); ("PUSH8"%string, PUSH8);
    ("PUSH9"%string, PUSH9); ("PUSH10"%string, PUSH10); ("PUSH11"%string, PUSH11);
    ("PUSH12"%string, PUSH12); ("PUSH13"%string, PUSH13); ("PUSH14"%string, PUSH14);
    ("PUSH15"%string, PUSH15); ("PUSH16"%string, PUSH16); ("PUSH17"%string, PUSH17);
    ("PUSH18"%string, PUSH18); ("PUSH19"%string, PUSH19); ("PUSH20"%string, PUSH20);
    ("PUSH21"%string, PUSH21); ("PUSH22"%string, PUSH22); ("PUSH23"%string, PUSH23);
    ("PUSH24"%string, PUSH24); ("PUSH25"%string, PUSH25); ("PUSH26"%string, PUSH26);
    ("PUSH27"%string, PUSH27); ("PUSH28"%string, PUSH28); ("PUSH29"%string, PUSH29);
    ("PUSH30"%string, PUSH30); ("PUSH31"%string, PUSH31); ("PUSH32"%string, PUSH32);
    ("DUP1"%string, DUP1); ("DUP2"%string, DUP2); ("DUP3"%string, DUP3); ("DUP4"%string, DUP4);
    ("DUP5"%string, DUP5); ("DUP6"%string, DUP6); ("DUP7"%string, DUP7); ("DUP8"%string, DUP8);
    ("DUP9"%string, DUP9); ("DUP10"%string, DUP10); ("DUP11"%string, DUP11);
    ("DUP12"%string, DUP12); ("DUP13"%string, DUP13); ("DUP14"%string, DUP14);
    ("DUP15"%string, DUP15); ("DUP16"%string, DUP16); ("SWAP1"%string, SWAP1);
    ("SWAP2"%string, SWAP2); ("SWAP3"%string, SWAP3); ("SWAP4"%string, SWAP4);
    ("SWAP5"%string, SWAP5); ("SWAP6"%string, SWAP6); ("SWAP7"%string, SWAP7);
    ("SWAP8"%string, SWAP8); ("SWAP9"%string, SWAP9); ("SWAP10"%string, SWAP10);
    ("SWAP11"%string, SWAP11); ("SWAP12"%string, SWAP12); ("SWAP13"%string, SWAP13);
    ("SWAP14"%string, SWAP14); ("SWAP15"%string, SWAP15); ("SWAP16"%string, SWAP16);
    ("LOG0"%string, LOG0); ("LOG1"%string, LOG1); ("LOG2"%string, LOG2); ("LOG3"%string, LOG3);
    ("LOG4"%string, LOG4); ("CREATE"%string, CREATE); ("CREATE2"%string, CREATE2);
    ("CALL"%string, CALL); ("RETURN"%string, RETURN); ("CALLCODE"%string, CALLCODE);
    ("REVERT"%string, REVERT); ("SELFDESTRUCT"%string, SELFDESTRUCT)
  ].

(** A Go map lookup: the first (only) entry of the key, else the zero value. *)
Fixpoint map_get {K V} `{EqDecision K} (zero : V) (l : list (K * V)) (k : K) : V :=
  match l with
  | [] => zero
  | (k', v) :: l' => if decide (k = k') then v else map_get zero l' k
  end.

(** [String]: the name, or [Missing opcode] and the value for the others, whose
    hexadecimal rendering is left to the caller's [show]. *)
Definition OpCode_String (show : Z -> string) (op : Z) : string :=
  let str := map_get ""%string opCodeToString op in
  if decide (str = ""%string) then ("Missing opcode 0x" +:+ show op)%string else str.

Definition StringToOp (str : string) : Z := map_get STOP stringToOp str.

(** The opcodes with a name that is not an internal pseudo-instruction. *)
Definition named_opcodes : list Z := filter (fun op => op ∉ [PUSH; DUP; SWAP]) opCodeToString.*1.

(** The two opcode tables are inverse to each other: every opcode of the
    instruction set prints as a name that parses back to it, and every name
    that parses to something other than STOP by default prints back as
    itself. *)
Theorem opcode_names_round_trip (show : Z -> string) :
  Forall (fun op => StringToOp (OpCode_String show op) = op) named_opcodes /\
  Forall (fun p => OpCode_String show (StringToOp p.1) = p.1) stringToOp.
Proof. split; refine (bool_decide_eq_true_1 _ _); vm_compute; reflexivity. Qed.
