(* ===== verification/Analysis.v ===== *)
(** * Jump destination analysis

    dvm/ethereum/vm/analysis.go: the bit vector that tells the opcodes of a
    program from the immediate data of its PUSH instructions, and the check a
    JUMP makes before it lands.  Positions are [nat]: they index a slice, whose
    length is far below 2^63.  [None] is an index out of range, a panic. *)
From Stdlib Require Import ZArith Lia.
From S2P Require Import Prelude Word OpCodes.
Import Op Big.
Open Scope Z_scope.
#[global] Arguments Nat.div : simpl never.
#[global] Arguments Nat.modulo : simpl never.

Abbreviation bitvec := (list Z) (only parsing).

(** A destinations map is keyed by the hash of the code. *)
Abbreviation destinations := (gmap Z (list Z)) (only parsing).

Definition or_at (bits : bitvec) (i : nat) (m : Z) : option bitvec :=
  b ← bits !! i; Some (<[i := Z.lor b m]> bits).

Definition bitvec_set (bits : bitvec) (pos : nat) : option bitvec :=
  or_at bits (pos / 8) (Z.shiftr 0x80 (Z.of_nat (pos mod 8))).

Definition bitvec_set8 (bits : bitvec) (pos : nat) : option bitvec :=
  bits ← or_at bits (pos / 8) (Z.shiftr 0xFF (Z.of_nat (pos mod 8)));
  or_at bits (pos / 8 + 1) (u8 (Z.lnot (Z.shiftr 0xFF (Z.of_nat (pos mod 8))))).

Definition codeSegment (bits : bitvec) (pos : nat) : option bool :=
  b ← bits !! (pos / 8)%nat;
  Some (Z.land b (Z.shiftr 0x80 (Z.of_nat (pos mod 8))) =? 0).

(** The two inner loops of [codeBitmap]; [numbits] is at most 32 and decreases,
    so it is its own fuel. *)
Fixpoint set8_loop (fuel numbits pc : nat) (bits : bitvec) : option (nat * nat * bitvec) :=
  match fuel with
  | S fuel' =>
      if (8 <=? numbits)%nat then
        bits ← bitvec_set8 bits pc;
        set8_loop fuel' (numbits - 8) (pc + 8) bits
      else Some (numbits, pc, bits)
  | O => Some (numbits, pc, bits)
  end.

Fixpoint set_loop (numbits pc : nat) (bits : bitvec) : option (nat * bitvec) :=
  match numbits with
  | O => Some (pc, bits)
  | S n => bits ← bitvec_set bits pc; set_loop n (pc + 1) bits
  end.

Fixpoint codeBitmap_loop (fuel : nat) (code : list Z) (pc : nat) (bits : bitvec) : option bitvec :=
  match fuel with
  | O => Some bits
  | S fuel' =>
      match code !! pc with
      | None => Some bits
      | Some op =>
          if (PUSH1 <=? op) && (op <=? PUSH32) then
            let numbits := Z.to_nat (op - PUSH1 + 1) in
            let pc := (pc + 1)%nat in
            '(numbits, pc, bits) ← set8_loop numbits numbits pc bits;
            '(pc, bits) ← set_loop numbits pc bits;
            codeBitmap_loop fuel' code pc bits
          else codeBitmap_loop fuel' code (pc + 1) bits
      end
  end.

(** Every turn advances [pc], so [length code] turns reach the end. *)
Definition codeBitmap (code : list Z) : option bitvec :=
  codeBitmap_loop (length code) code 0 (replicate (length code / 8 + 1 + 4) 0).

Definition has (d : destinations) (codehash : HashBytes) (code : list Z) (dest : Z)
    : option (destinations * bool) :=
  let udest := Uint64 dest in
  if (63 <=? BitLen dest) || (Z.of_nat (length code) <=? udest) then Some (d, false)
  else
    '(d, m) ← match d !! codehash with
              | Some m => Some (d, m)
              | None => m ← codeBitmap code; Some (<[codehash := m]> d, m)
              end;
    op ← code !! Z.to_nat udest;
    if op =? JUMPDEST then
      b ← codeSegment m (Z.to_nat udest); Some (d, b)
    else Some (d, false).

(** ** Reference: the linear walk over the instructions *)

(** [push_data op] is the number of immediate bytes that follow [op]. *)
Definition push_data (op : Z) : nat :=
  if (PUSH1 <=? op) && (op <=? PUSH32) then Z.to_nat (op - PUSH1 + 1) else 0.

(** [mark skip code]: which bytes are data when the next [skip] bytes belong to
    the previous instruction. *)
Fixpoint mark (skip : nat) (code : list Z) : list bool :=
  match code with
  | [] => []
  | op :: rest =>
      match skip with
      | S k => true :: mark k rest
      | O => false :: mark (push_data op) rest
      end
  end.

Definition is_data (code : list Z) (pos : nat) : bool := default false (mark 0 code !! pos).

(** A valid jump destination is a JUMPDEST that is an instruction. *)
Definition valid_jumpdest (code : list Z) (dest : Z) : bool :=
  (0 <=? dest) && (dest <? 2 ^ 62) &&
  bool_decide (code !! Z.to_nat dest = Some JUMPDEST) && negb (is_data code (Z.to_nat dest)).

(** ** Bits of the vector *)
Section Bits.

(** The bit of position [q], out of range reading as unset. *)
Definition bit (bits : bitvec) (q : nat) : bool :=
  Z.testbit (default 0 (bits !! (q / 8)%nat)) (Z.of_nat (7 - q mod 8)).

Lemma small_cases (P : nat -> Prop) n : (n < 8)%nat ->
  (P 0 /\ P 1 /\ P 2 /\ P 3 /\ P 4 /\ P 5 /\ P 6 /\ P 7)%nat -> P n.
Proof.
  intros Hn H. do 8 (destruct n as [|n]; [tauto|]). lia.
Qed.

(** The masks of [set] and [set8], bit by bit. *)
Lemma mask_set r s : (r < 8)%nat -> (s < 8)%nat ->
  Z.testbit (Z.shiftr 0x80 (Z.of_nat r)) (Z.of_nat (7 - s)) = bool_decide (r = s).
Proof.
  intros Hr Hs. pattern r. apply small_cases; [done|]. pattern s.
  apply small_cases; [done|]. by repeat split.
Qed.

Lemma mask_set8_lo r s : (r < 8)%nat -> (s < 8)%nat ->
  Z.testbit (Z.shiftr 0xFF (Z.of_nat r)) (Z.of_nat (7 - s)) = (r <=? s)%nat.
Proof.
  intros Hr Hs. pattern r. apply small_cases; [done|]. pattern s.
  apply small_cases; [done|]. by repeat split.
Qed.

Lemma mask_set8_hi r s : (r < 8)%nat -> (s < 8)%nat ->
  Z.testbit (u8 (Z.lnot (Z.shiftr 0xFF (Z.of_nat r)))) (Z.of_nat (7 - s)) = (s <? r)%nat.
Proof.
  intros Hr Hs. pattern r. apply small_cases; [done|]. pattern s.
  apply small_cases; [done|]. by repeat split.
Qed.

Lemma or_at_ok bits i m : (i < length bits)%nat ->
  exists bits', or_at bits i m = Some bits' /\ length bits' = length bits /\
    forall q, bit bits' q =
      bit bits q || (bool_decide (q / 8 = i)%nat && Z.testbit m (Z.of_nat (7 - q mod 8))).
Proof.
  intros Hi. unfold or_at. destruct (lookup_lt_is_Some_2 bits i Hi) as [b Hb]. rewrite Hb. simpl.
  eexists. split; [done|]. rewrite length_insert. split; [done|]. intros q. unfold bit.
  case_bool_decide as Hq.
  - rewrite Hq, list_lookup_insert_eq, Hb by done. simpl. by rewrite Z.lor_spec.
  - rewrite list_lookup_insert_ne by congruence. by rewrite orb_false_r.
Qed.

Lemma bitvec_set_ok bits pos : (pos < 8 * length bits)%nat ->
  exists bits', bitvec_set bits pos = Some bits' /\ length bits' = length bits /\
    forall q, bit bits' q = bit bits q || bool_decide (q = pos).
Proof.
  intros Hp. unfold bitvec_set.
  destruct (or_at_ok bits (pos / 8) (Z.shiftr 0x80 (Z.of_nat (pos mod 8)))) as (bits' & -> & Hl & Hb).
  { apply Nat.Div0.div_lt_upper_bound. lia. }
  exists bits'. split_and!; [done..|]. intros q. rewrite Hb. f_equal.
  rewrite mask_set by (apply Nat.mod_upper_bound; lia).
  pose proof (Nat.div_mod_eq q 8). pose proof (Nat.div_mod_eq pos 8).
  repeat case_bool_decide; simpl; try done; subst; lia.
Qed.

Lemma bitvec_set8_ok bits pos : (pos + 8 <= 8 * length bits - 1)%nat ->
  exists bits', bitvec_set8 bits pos = Some bits' /\ length bits' = length bits /\
    forall q, bit bits' q = bit bits q || ((pos <=? q)%nat && (q <? pos + 8)%nat).
Proof.
  intros Hp. unfold bitvec_set8.
  pose proof (Nat.div_mod_eq pos 8) as Hdm. pose proof (Nat.mod_upper_bound pos 8).
  destruct (or_at_ok bits (pos / 8) (Z.shiftr 0xFF (Z.of_nat (pos mod 8)))) as (b1 & -> & Hl & Hb).
  { lia. }
  cbn [mbind option_bind].
  destruct (or_at_ok b1 (pos / 8 + 1) (u8 (Z.lnot (Z.shiftr 0xFF (Z.of_nat (pos mod 8))))))
    as (b2 & -> & Hl2 & Hb2).
  { rewrite Hl. lia. }
  exists b2. split_and!; [done|congruence|]. intros q. rewrite Hb2, Hb.
  rewrite <- orb_assoc. f_equal.
  pose proof (Nat.div_mod_eq q 8) as Hq. pose proof (Nat.mod_upper_bound q 8).
  rewrite mask_set8_lo, mask_set8_hi by lia.
  destruct (Nat.leb_spec (pos mod 8) (q mod 8)), (Nat.ltb_spec (q mod 8) (pos mod 8)),
    (Nat.leb_spec pos q), (Nat.ltb_spec q (pos + 8));
    repeat case_bool_decide; simpl; try done; lia.
Qed.

Lemma codeSegment_bit bits pos : (pos < 8 * length bits)%nat ->
  codeSegment bits pos = Some (negb (bit bits pos)).
Proof.
  intros Hp. unfold codeSegment, bit.
  destruct (lookup_lt_is_Some_2 bits (pos / 8)) as [b Hb];
    [apply Nat.Div0.div_lt_upper_bound; lia|].
  rewrite Hb. simpl. f_equal.
  assert (Z.shiftr 0x80 (Z.of_nat (pos mod 8)) = 2 ^ Z.of_nat (7 - pos mod 8)) as ->.
  { pattern (pos mod 8)%nat. apply small_cases; [apply Nat.mod_upper_bound; lia|]. by repeat split. }
  set (k := Z.of_nat (7 - pos mod 8)).
  destruct (Z.testbit b k) eqn:Et; simpl.
  - apply Z.eqb_neq. intros H0. apply (f_equal (fun z => Z.testbit z k)) in H0.
    rewrite Z.land_spec, Et, Z.pow2_bits_true, Z.bits_0 in H0 by (subst k; lia). done.
  - apply Z.eqb_eq. apply Z.bits_inj'. intros n Hn. rewrite Z.land_spec, Z.bits_0.
    destruct (decide (n = k)) as [->|]; [by rewrite Et|].
    rewrite Z.pow2_bits_false by congruence. by rewrite andb_false_r.
Qed.

(** The loops mark exactly the interval they walk. *)
Lemma set_loop_ok n pc bits : (pc + n <= 8 * length bits)%nat ->
  exists bits', set_loop n pc bits = Some ((pc + n)%nat, bits') /\ length bits' = length bits /\
    forall q, bit bits' q = bit bits q || ((pc <=? q)%nat && (q <? pc + n)%nat).
Proof.
  revert pc bits. induction n as [|n IH]; intros pc bits Hle; cbn [set_loop].
  - exists bits. rewrite Nat.add_0_r. split_and!; [done..|]. intros q.
    destruct (Nat.leb_spec pc q), (Nat.ltb_spec q pc); simpl; rewrite ?orb_false_r; (done || lia).
  - destruct (bitvec_set_ok bits pc) as (b1 & -> & Hl1 & Hb1); [lia|]. cbn [mbind option_bind].
    destruct (IH (pc + 1)%nat b1) as (b2 & -> & Hl2 & Hb2); [lia|].
    exists b2. split_and!; [f_equal; f_equal; lia|congruence|]. intros q.
    rewrite Hb2, Hb1, <- orb_assoc. f_equal.
    destruct (Nat.leb_spec (pc + 1) q), (Nat.ltb_spec q (pc + 1 + n)), (Nat.leb_spec pc q),
      (Nat.ltb_spec q (pc + S n)); case_bool_decide; simpl; (done || lia).
Qed.

Lemma set8_loop_ok fuel n pc bits : (n <= fuel)%nat -> (pc + n <= 8 * length bits - 1)%nat ->
  exists k bits', set8_loop fuel n pc bits = Some ((n - k)%nat, (pc + k)%nat, bits') /\
    (k <= n)%nat /\ length bits' = length bits /\
    forall q, bit bits' q = bit bits q || ((pc <=? q)%nat && (q <? pc + k)%nat).
Proof.
  revert n pc bits. induction fuel as [|fuel IH]; intros n pc bits Hf Hle; cbn [set8_loop].
  2: destruct (Nat.leb_spec 8 n).
  1, 3: exists 0%nat, bits; rewrite Nat.sub_0_r, Nat.add_0_r; split_and!; [done|lia|done|];
    intros q; destruct (Nat.leb_spec pc q), (Nat.ltb_spec q pc); simpl;
    rewrite ?orb_false_r; (done || lia).
  destruct (bitvec_set8_ok bits pc) as (b1 & -> & Hl1 & Hb1); [lia|]. cbn [mbind option_bind].
  destruct (IH (n - 8)%nat (pc + 8)%nat b1) as (k & b2 & -> & Hk & Hl2 & Hb2); [lia..|].
  exists (k + 8)%nat, b2. split_and!; [do 3 f_equal; lia|lia|congruence|].
  intros q. rewrite Hb2, Hb1, <- orb_assoc. f_equal.
  destruct (Nat.leb_spec (pc + 8) q), (Nat.ltb_spec q (pc + 8 + k)), (Nat.leb_spec pc q),
    (Nat.ltb_spec q (pc + 8)), (Nat.ltb_spec q (pc + (k + 8))); simpl; (done || lia).
Qed.
End Bits.

(** ** The walk *)
Section Walk.

Lemma mark_length skip code : length (mark skip code) = length code.
Proof. revert skip. induction code as [|op code IH]; intros [|k]; simpl; auto. Qed.

(** After [skip] data bytes the walk is at an instruction again. *)
Lemma mark_drop skip code : drop skip (mark skip code) = mark 0 (drop skip code).
Proof.
  revert skip. induction code as [|op code IH]; intros [|k]; [done..|].
  cbn [mark drop]. apply IH.
Qed.

Lemma mark_lookup_data skip code q :
  (q < skip)%nat -> (q < length code)%nat -> mark skip code !! q = Some true.
Proof.
  revert skip q. induction code as [|op code IH]; intros skip q Hs Hq; [simpl in Hq; lia|].
  destruct skip as [|k]; [lia|]. destruct q as [|q]; [done|].
  cbn [mark length] in *. change (mark k code !! q = Some true). apply IH; lia.
Qed.

(** [pc] is where an instruction starts. *)
Definition at_instruction (code : list Z) (pc : nat) : Prop :=
  drop pc (mark 0 code) = mark 0 (drop pc code).

Lemma at_instruction_next code pc op :
  at_instruction code pc -> code !! pc = Some op ->
  is_data code pc = false /\
  (forall q, (pc < q <= pc + push_data op)%nat -> (q < length code)%nat -> is_data code q = true) /\
  at_instruction code (pc + 1 + push_data op).
Proof.
  unfold at_instruction, is_data. intros Hat Hop.
  assert (Hd : drop pc code = op :: drop (pc + 1) code).
  { rewrite Nat.add_1_r. by apply drop_S. }
  assert (Hl : forall k, mark 0 code !! (pc + k)%nat = (false :: mark (push_data op) (drop (pc + 1) code)) !! k).
  { intros k. rewrite <- lookup_drop, Hat, Hd. done. }
  split_and!.
  - specialize (Hl 0%nat). rewrite Nat.add_0_r in Hl. by rewrite Hl.
  - intros q Hq Hlen. replace q with (pc + S (q - pc - 1))%nat by lia. rewrite Hl. simpl.
    rewrite mark_lookup_data; [done|lia|]. rewrite length_drop. lia.
  - rewrite <- Nat.add_assoc, <- drop_drop, Hat, Hd. cbn [mark]. rewrite Nat.add_1_l.
    cbn [drop]. rewrite mark_drop, drop_drop. do 2 f_equal. lia.
Qed.

Lemma codeBitmap_loop_ok code fuel pc bits :
  (length code <= pc + fuel)%nat -> length bits = (length code / 8 + 5)%nat ->
  at_instruction code pc ->
  (forall q, (q < length code)%nat -> bit bits q = (q <? pc)%nat && is_data code q) ->
  exists bits', codeBitmap_loop fuel code pc bits = Some bits' /\
    length bits' = (length code / 8 + 5)%nat /\
    forall q, (q < length code)%nat -> bit bits' q = is_data code q.
Proof.
  revert pc bits. induction fuel as [|fuel IH]; intros pc bits Hf Hl Hat Hb; cbn [codeBitmap_loop].
  1: { exists bits. split_and!; [done..|]. intros q Hq. rewrite Hb by done.
       destruct (Nat.ltb_spec q pc); [done|lia]. }
  destruct (code !! pc) as [op|] eqn:Hop.
  2: { apply lookup_ge_None in Hop. exists bits. split_and!; [done..|]. intros q Hq.
       rewrite Hb by done. destruct (Nat.ltb_spec q pc); [done|lia]. }
  pose proof (lookup_lt_Some _ _ _ Hop) as Hpc.
  destruct (at_instruction_next _ _ _ Hat Hop) as (Hop0 & Hdata & Hnext).
  pose proof (Nat.div_mod_eq (length code) 8). pose proof (Nat.mod_upper_bound (length code) 8).
  unfold push_data in *. destruct ((PUSH1 <=? op) && (op <=? PUSH32)) eqn:Ep.
  - set (n := Z.to_nat (op - PUSH1 + 1)) in *.
    assert (Hn : (n <= 32)%nat).
    { apply andb_true_iff in Ep as [?%Z.leb_le ?%Z.leb_le]. subst n. unfold PUSH1, PUSH32 in *. lia. }
    destruct (set8_loop_ok n n (pc + 1) bits) as (k & b1 & -> & Hk & Hl1 & Hb1); [lia..|].
    cbn [mbind option_bind].
    destruct (set_loop_ok (n - k) (pc + 1 + k) b1) as (b2 & -> & Hl2 & Hb2); [lia|].
    cbn [mbind option_bind]. replace (pc + 1 + k + (n - k))%nat with (pc + 1 + n)%nat by lia.
    apply IH; [lia|congruence|done|]. intros q Hq. rewrite Hb2, Hb1, Hb by done.
    destruct (decide (q < pc)%nat) as [|Hge].
    { destruct (Nat.ltb_spec q pc), (Nat.leb_spec (pc + 1) q), (Nat.leb_spec (pc + 1 + k) q),
        (Nat.ltb_spec q (pc + 1 + n)); try lia. simpl. by rewrite !orb_false_r. }
    destruct (decide (q = pc)) as [->|].
    { rewrite Hop0, !andb_false_r. simpl.
      destruct (Nat.leb_spec (pc + 1) pc), (Nat.leb_spec (pc + 1 + k) pc); first [lia|done]. }
    destruct (decide (q <= pc + n)%nat).
    { rewrite (Hdata q) by lia. rewrite !andb_true_r.
      destruct (Nat.ltb_spec q pc), (Nat.leb_spec (pc + 1) q), (Nat.leb_spec (pc + 1 + k) q),
        (Nat.ltb_spec q (pc + 1 + k)), (Nat.ltb_spec q (pc + 1 + k + (n - k))),
        (Nat.ltb_spec q (pc + 1 + n)); try lia; done. }
    destruct (Nat.ltb_spec q pc), (Nat.ltb_spec q (pc + 1 + k)),
      (Nat.ltb_spec q (pc + 1 + k + (n - k))), (Nat.ltb_spec q (pc + 1 + n)); first [lia | by rewrite !andb_false_r].
  - rewrite Nat.add_0_r in Hnext. apply IH; [lia|done|done|]. intros q Hq. rewrite Hb by done.
    destruct (Nat.ltb_spec q pc), (Nat.ltb_spec q (pc + 1)); try lia; try done.
    replace q with pc by lia. by rewrite Hop0.
Qed.

Lemma codeBitmap_ok code :
  exists bits, codeBitmap code = Some bits /\ length bits = (length code / 8 + 5)%nat /\
    forall q, (q < length code)%nat -> bit bits q = is_data code q.
Proof.
  apply codeBitmap_loop_ok; [lia|rewrite length_replicate; lia|done|].
  intros q _. unfold bit. simpl.
  destruct (replicate (length code / 8 + 1 + 4) 0 !! (q / 8)%nat) as [b|] eqn:E; simpl.
  - apply lookup_replicate in E as [-> _]. by rewrite Z.bits_0.
  - by rewrite Z.bits_0.
Qed.
End Walk.

(** The destinations map answers for a hash what the analysis of the code would. *)
Definition cached (d : destinations) (codehash : HashBytes) (code : list Z) : Prop :=
  forall m, d !! codehash = Some m -> codeBitmap code = Some m.

(** the analysis of a program never indexes outside its bit vector, and the
    vector it builds marks a byte as data exactly when the linear walk over the
    instructions does, whatever PUSH runs over the end of the code. *)
Theorem code_bitmap_marks_push_data (code : list Z) :
  exists bits, codeBitmap code = Some bits /\
    forall pos, (pos < length code)%nat ->
      codeSegment bits pos = Some (negb (is_data code pos)).
Proof.
  destruct (codeBitmap_ok code) as (bits & Hb & Hl & Hbit). exists bits. split; [done|].
  intros pos Hpos. rewrite codeSegment_bit, Hbit by
    (done || (pose proof (Nat.div_mod_eq (length code) 8);
              pose proof (Nat.mod_upper_bound (length code) 8); lia)).
  done.
Qed.

Lemma has_nil d codehash dest : has d codehash [] dest = Some (d, false).
Proof.
  unfold has. pose proof (u64_range (Z.abs dest)) as [Hr _]. unfold Uint64.
  rewrite (proj2 (Z.leb_le (Z.of_nat (length (@nil Z))) _)) by done. by rewrite orb_true_r.
Qed.

Lemma has_exact (d : destinations) (codehash : HashBytes)
    (code : list Z) (dest : Z) :
  cached d codehash code -> 0 <= dest -> Z.of_nat (length code) < 2 ^ 62 ->
  exists d', has d codehash code dest = Some (d', valid_jumpdest code dest) /\
    cached d' codehash code /\ forall h, h <> codehash -> d' !! h = d !! h.
Proof.
  intros Hc H0 Hlen. unfold has, valid_jumpdest, Uint64. rewrite Z.abs_eq by done.
  destruct (Z.leb_spec 63 (BitLen dest)) as [Hbig|Hsmall]; cbn [orb].
  { assert (~ BitLen dest <= 62) as Hb by lia. rewrite BitLen_le, Z.abs_eq in Hb by lia.
    exists d. split; [|done]. do 2 f_equal. symmetry.
    rewrite (proj2 (Z.ltb_ge _ _)) by lia. by rewrite andb_false_r. }
  assert (BitLen dest <= 62) as Hb by lia. rewrite BitLen_le, Z.abs_eq in Hb by lia.
  rewrite u64_id by (unfold is_u64; lia).
  rewrite (proj2 (Z.leb_le 0 dest)), (proj2 (Z.ltb_lt dest _)) by done. cbn [andb].
  destruct (Z.leb_spec (Z.of_nat (length code)) dest) as [Hout|Hin].
  { exists d. split; [|done]. do 2 f_equal. rewrite lookup_ge_None_2 by lia. done. }
  destruct (lookup_lt_is_Some_2 code (Z.to_nat dest)) as [op Hop]; [lia|].
  destruct (codeBitmap_ok code) as (m & Hm & Hl & Hbit).
  assert (exists d', match d !! codehash with
      | Some m => Some (d, m)
      | None => m ← codeBitmap code; Some (<[codehash := m]> d, m)
      end = Some (d', m) /\ cached d' codehash code /\ forall h, h <> codehash -> d' !! h = d !! h)
    as (d' & -> & Hc' & Hd').
  { destruct (d !! codehash) as [m'|] eqn:E.
    - specialize (Hc _ E) as Hm'. rewrite Hm in Hm'. injection Hm' as <-. by exists d.
    - rewrite Hm. cbn [mbind option_bind]. eexists. split; [done|]. split.
      + intros m'. by rewrite lookup_insert_eq, Hm.
      + intros h Hh. by rewrite lookup_insert_ne by congruence. }
  cbn [mbind option_bind]. rewrite Hop. cbn [mbind option_bind].
  pose proof (Nat.div_mod_eq (length code) 8). pose proof (Nat.mod_upper_bound (length code) 8).
  rewrite codeSegment_bit, Hbit by lia. cbn [mbind option_bind].
  exists d'. split; [|done].
  destruct (Z.eqb_spec op JUMPDEST) as [->|Hne]; [by rewrite bool_decide_eq_true_2 by done|].
  by rewrite bool_decide_eq_false_2 by congruence.
Qed.


(** C34: [has] accepts a destination exactly when it is a JUMPDEST byte that the
    linear walk reaches as an instruction, whether the analysis was cached or
    is made now; it leaves a cache that answers correctly for this code and is
    untouched elsewhere. *)
Theorem jump_destination_check_is_exact (d : destinations) (codehash : HashBytes)
    (code : list Z) (dest : Z) :
  cached d codehash code -> 0 <= dest -> Z.of_nat (length code) < 2 ^ 62 ->
  exists d', has d codehash code dest = Some (d', valid_jumpdest code dest) /\
    cached d' codehash code /\ forall h, h <> codehash -> d' !! h = d !! h.
Proof. apply has_exact. Qed.

(** PUSH2 hides a JUMPDEST byte at position 1; the one at position 3 is real. *)
Lemma jump_destination_check_is_exact_witness :
  (exists d', has ∅ 7 [0x61; 0x5b; 0; 0x5b] 3 = Some (d', valid_jumpdest [0x61; 0x5b; 0; 0x5b] 3) /\
    cached d' 7 [0x61; 0x5b; 0; 0x5b] /\ forall h, h <> 7 -> d' !! h = (∅ : destinations) !! h) /\
  valid_jumpdest [0x61; 0x5b; 0; 0x5b] 3 = true /\
  valid_jumpdest [0x61; 0x5b; 0; 0x5b] 1 = false.
Proof.
  split; [|by split].
  apply (jump_destination_check_is_exact ∅ 7 [0x61; 0x5b; 0; 0x5b] 3); [|lia|simpl; lia].
  intros m Hm. by rewrite lookup_empty in Hm.
Defined.
