(* ===== verification/Machine.v ===== *)
(** * The machine: state, stack, memory, contracts

    The data of dvm/ethereum/vm: errors.go, stack.go, memory.go, contract.go,
    interface.go, the [EVM] and [Context] structures of evm.go and the fields
    of the interpreter of interpreter.go.

    The [StateDB] interface and the [VMStateQueryHelper] that loads and commits
    the storage of another contract are classes; so are the hash functions.
    An instruction runs in a small state monad over a [frame], the state one
    activation of [Run] works on. *)
From Stdlib Require Import ZArith Lia.
From S2P Require Import Prelude Word Config OpCodes Analysis.
Import Big Op.
Open Scope Z_scope.

(** ** errors.go and the errors of the other files *)
Inductive vm_error :=
  | ErrOutOfGas
  | ErrCodeStoreOutOfGas
  | ErrDepth
  | ErrInsufficientBalance
  | ErrContractAddressCollision
  | errWriteProtection
  | errReturnDataOutOfBounds
  | ErrExecutionReverted
  | errMaxCodeSizeExceeded
  | errGasUintOverflow
  | errInvalidOpcode (op : Z)
  | errStackUnderflow (len required : Z)
  | errStackLimit (len limit : Z)
  | errInvalidJump (op dest : Z)
  | errBadPairingInput
  | errBadPoint.

#[export] Instance vm_error_eq_dec : EqDecision vm_error.
Proof. solve_decision. Defined.

(** The model runs on fuel; running out is not a behaviour of the code.  [Excluded] is
    what the watched runs of Execution.v give where a theorem says nothing. *)
Inductive nofuel := NoFuel | Excluded.
Abbreviation result A := (outcome nofuel A) (only parsing).

(** ** interface.go *)
Record Log := { LogAddress : AddressBytes; Topics : list HashBytes; LogData : list Z;
                LogBlockNumber : Z }.

Class StateDB (db : Type) := {
  CreateAccount : db -> AddressBytes -> db;
  SubBalance : db -> AddressBytes -> Z -> db;
  AddBalance : db -> AddressBytes -> Z -> db;
  GetBalance : db -> AddressBytes -> Z;
  GetNonce : db -> AddressBytes -> Z;
  SetNonce : db -> AddressBytes -> Z -> db;
  GetCodeHash : db -> AddressBytes -> HashBytes;
  GetCode : db -> AddressBytes -> list Z;
  SetCode : db -> AddressBytes -> list Z -> db;
  GetCodeSize : db -> AddressBytes -> Z;
  AddRefund : db -> Z -> db;
  GetRefund : db -> Z;
  GetState : db -> AddressBytes -> HashBytes -> HashBytes;
  SetState : db -> AddressBytes -> HashBytes -> HashBytes -> db;
  SuicideAccount : db -> AddressBytes -> db * bool;
  HasSuicided : db -> AddressBytes -> bool;
  Exist : db -> AddressBytes -> bool;
  Empty : db -> AddressBytes -> bool;
  RevertToSnapshot : db -> Z -> option db;
  Snapshot : db -> db * Z;
  AddLog : db -> Log -> db;
  AddPreimage : db -> HashBytes -> list Z -> db
}.

(** dvm/vmstatehelpercontracts/contracts.go: [disk] is what the helpers of one
    node share.  [NewEthStateLoader] gives the state of a contract, [None] when
    loading fails; [CommitState] writes one back under its address. *)
Class VMStateQueryHelper (db disk : Type) := {
  NewEthStateLoader : disk -> AddressBytes -> option db;
  CommitState : disk -> AddressBytes -> db -> disk;
  HelperGetCodeSize : disk -> AddressBytes -> AddressBytes -> AddressBytes -> Z
}.

(** Hash functions and the address derivations built on them. *)
Class Crypto := {
  Keccak256 : list Z -> list Z;
  NewHash : list Z -> HashBytes;
  CreateAddress : AddressBytes -> Z -> AddressBytes;
  CreateAddress2 : AddressBytes -> HashBytes -> list Z -> AddressBytes
}.

(** ** The environment of one EVM

    The [Context] of evm.go, the chain configuration and the flags of [Config].
    A [nil] big integer is [None].  [Now n] is the clock the [n]-th step reads
    and [AbortAt n] the abort flag the [n]-th loop test loads, which [Cancel]
    may set from another goroutine at any time.  The tracer of debug mode only
    observes and is left out. *)
Class Env := {
  chainConfig : ChainConfig;
  Origin : AddressBytes;
  GasPrice : option Z;
  Coinbase : AddressBytes;
  GasLimit : Z;
  BlockNumber : option Z;
  Difficulty : option Z;
  GetHash : Z -> HashBytes;
  NoRecursion : bool;
  EnablePreimageRecording : bool;
  Now : nat -> Z;
  AbortAt : nat -> bool
}.

(** ** memory.go *)
Record Memory := { store : list Z; lastGasCost : Z }.

Module Mem.

Definition NewMemory : Memory := {| store := []; lastGasCost := 0 |}.

Definition set_store (m : Memory) (s : list Z) : Memory :=
  {| store := s; lastGasCost := m.(lastGasCost) |}.

Definition Len (m : Memory) : Z := Z.of_nat (length m.(store)).

(** Go's [copy(l[off:off+size], value)]. *)
Definition copy_at (l : list Z) (off size : nat) (value : list Z) : list Z :=
  take off l ++ take size value ++ drop (off + size `min` length value) l.

Definition Set_ (m : Memory) (offset size : Z) (value : list Z) : option Memory :=
  if 0 <? size then
    if Len m <? u64 (offset + size) then None
    else
      _ ← slice m.(store) offset (u64 (offset + size));
      Some (set_store m (copy_at m.(store) (Z.to_nat offset) (Z.to_nat size) value))
  else Some m.

Definition Set32 (m : Memory) (offset val : Z) : option Memory :=
  if Len m <? u64 (offset + 32) then None
  else
    _ ← slice m.(store) offset (u64 (offset + 32));
    Some (set_store m (copy_at m.(store) (Z.to_nat offset) 32 (ReadBits val (replicate 32 0)))).

Definition Resize (m : Memory) (size : Z) : Memory :=
  if Len m <? size
  then set_store m (m.(store) ++ replicate (Z.to_nat (size - Len m)) 0)
  else m.

Definition Get (m : Memory) (offset size : Z) : option (list Z) :=
  if size =? 0 then Some []
  else if offset <? Len m then slice m.(store) offset (i64 (offset + size))
  else Some [].

(** [GetPtr] returns the slice itself; it is called when the frame halts, so
    nothing writes to the memory afterwards. *)
Definition GetPtr (m : Memory) (offset size : Z) : option (list Z) :=
  if size =? 0 then Some []
  else if offset <? Len m then slice m.(store) offset (i64 (offset + size))
  else Some [].

End Mem.

(** ** contract.go

    A reference to a contract remembers the fields that are read through it. *)
Inductive ContractRef :=
  | AccountRef (a : AddressBytes)
  | ContractPtr (self caller : AddressBytes) (value : option Z).

Definition RefAddress (r : ContractRef) : AddressBytes :=
  match r with AccountRef a => a | ContractPtr self _ _ => self end.

Record Contract := {
  CallerAddress : AddressBytes;
  caller : ContractRef;
  self : ContractRef;
  Code : list Z;
  CodeHash : HashBytes;
  CodeAddr : option AddressBytes;
  Input : list Z;
  Gas : Z;
  value : option Z;
  DelegateCall_ : bool
}.

Definition Address (c : Contract) : AddressBytes := RefAddress c.(self).
Definition Caller (c : Contract) : AddressBytes := c.(CallerAddress).
Definition Value (c : Contract) : option Z := c.(value).

Definition GetByte (c : Contract) (n : Z) : Z :=
  if n <? Z.of_nat (length c.(Code)) then default 0 (c.(Code) !! Z.to_nat n) else 0.
Definition GetOp (c : Contract) (n : Z) : Z := GetByte c n.

Definition set_Gas (c : Contract) (g : Z) : Contract :=
  {| CallerAddress := c.(CallerAddress); caller := c.(caller); self := c.(self);
     Code := c.(Code); CodeHash := c.(CodeHash); CodeAddr := c.(CodeAddr); Input := c.(Input);
     Gas := g; value := c.(value); DelegateCall_ := c.(DelegateCall_) |}.

Definition set_Input (c : Contract) (i : list Z) : Contract :=
  {| CallerAddress := c.(CallerAddress); caller := c.(caller); self := c.(self);
     Code := c.(Code); CodeHash := c.(CodeHash); CodeAddr := c.(CodeAddr); Input := i;
     Gas := c.(Gas); value := c.(value); DelegateCall_ := c.(DelegateCall_) |}.

(** [UseGas]: [None] when there is not enough. *)
Definition UseGas (c : Contract) (gas : Z) : option Contract :=
  if c.(Gas) <? gas then None else Some (set_Gas c (c.(Gas) - gas)).

Definition SetCallCode (c : Contract) (addr : AddressBytes) (hash : HashBytes) (code : list Z)
    : Contract :=
  {| CallerAddress := c.(CallerAddress); caller := c.(caller); self := c.(self);
     Code := code; CodeHash := hash; CodeAddr := Some addr; Input := c.(Input);
     Gas := c.(Gas); value := c.(value); DelegateCall_ := c.(DelegateCall_) |}.

(** [AsDelegate]: the caller must be a contract, the type assertion panics
    otherwise. *)
Definition AsDelegate (c : Contract) : option Contract :=
  match c.(caller) with
  | AccountRef _ => None
  | ContractPtr _ parent_caller parent_value =>
      Some {| CallerAddress := parent_caller; caller := c.(caller); self := c.(self);
              Code := c.(Code); CodeHash := c.(CodeHash); CodeAddr := c.(CodeAddr);
              Input := c.(Input); Gas := c.(Gas); value := parent_value;
              DelegateCall_ := true |}
  end.

(** The reference a running contract hands to the calls it makes. *)
Definition ptr (c : Contract) : ContractRef := ContractPtr (Address c) c.(CallerAddress) c.(value).

(** ** The EVM, the interpreter's registers and a frame *)
Section State.
Context {db disk : Type}.

(** The fields of [EVM] and [EVMInterpreter] that change.  The destinations
    map is created for a call from an account and shared by every contract
    below it, so there is one per EVM; [Ticks] counts loop tests.  A [None]
    [StateQueryHelper] is the nil interface. *)
Record EVM := {
  evm_StateDB : db;
  evm_Helper : option disk;
  depth : Z;
  callGasTemp : Z;
  readOnly : bool;
  returnData : list Z;
  jumpdests : destinations;
  Time : Z;
  Ticks : nat
}.

Record frame := {
  pc : Z;
  contract : Contract;
  memory : Memory;
  stack : list Z;
  evm : EVM
}.

Definition set_StateDB (e : EVM) (s : db) : EVM :=
  {| evm_StateDB := s; evm_Helper := e.(evm_Helper); depth := e.(depth);
     callGasTemp := e.(callGasTemp); readOnly := e.(readOnly); returnData := e.(returnData);
     jumpdests := e.(jumpdests); Time := e.(Time); Ticks := e.(Ticks) |}.
Definition set_Helper (e : EVM) (h : option disk) : EVM :=
  {| evm_StateDB := e.(evm_StateDB); evm_Helper := h; depth := e.(depth);
     callGasTemp := e.(callGasTemp); readOnly := e.(readOnly); returnData := e.(returnData);
     jumpdests := e.(jumpdests); Time := e.(Time); Ticks := e.(Ticks) |}.
Definition set_depth (e : EVM) (d : Z) : EVM :=
  {| evm_StateDB := e.(evm_StateDB); evm_Helper := e.(evm_Helper); depth := d;
     callGasTemp := e.(callGasTemp); readOnly := e.(readOnly); returnData := e.(returnData);
     jumpdests := e.(jumpdests); Time := e.(Time); Ticks := e.(Ticks) |}.
Definition set_callGasTemp (e : EVM) (g : Z) : EVM :=
  {| evm_StateDB := e.(evm_StateDB); evm_Helper := e.(evm_Helper); depth := e.(depth);
     callGasTemp := g; readOnly := e.(readOnly); returnData := e.(returnData);
     jumpdests := e.(jumpdests); Time := e.(Time); Ticks := e.(Ticks) |}.
Definition set_readOnly (e : EVM) (b : bool) : EVM :=
  {| evm_StateDB := e.(evm_StateDB); evm_Helper := e.(evm_Helper); depth := e.(depth);
     callGasTemp := e.(callGasTemp); readOnly := b; returnData := e.(returnData);
     jumpdests := e.(jumpdests); Time := e.(Time); Ticks := e.(Ticks) |}.
Definition set_returnData (e : EVM) (r : list Z) : EVM :=
  {| evm_StateDB := e.(evm_StateDB); evm_Helper := e.(evm_Helper); depth := e.(depth);
     callGasTemp := e.(callGasTemp); readOnly := e.(readOnly); returnData := r;
     jumpdests := e.(jumpdests); Time := e.(Time); Ticks := e.(Ticks) |}.
Definition set_jumpdests (e : EVM) (d : destinations) : EVM :=
  {| evm_StateDB := e.(evm_StateDB); evm_Helper := e.(evm_Helper); depth := e.(depth);
     callGasTemp := e.(callGasTemp); readOnly := e.(readOnly); returnData := e.(returnData);
     jumpdests := d; Time := e.(Time); Ticks := e.(Ticks) |}.
Definition set_clock (e : EVM) (t : Z) (n : nat) : EVM :=
  {| evm_StateDB := e.(evm_StateDB); evm_Helper := e.(evm_Helper); depth := e.(depth);
     callGasTemp := e.(callGasTemp); readOnly := e.(readOnly); returnData := e.(returnData);
     jumpdests := e.(jumpdests); Time := t; Ticks := n |}.

Definition set_pc (f : frame) (p : Z) : frame :=
  {| pc := p; contract := f.(contract); memory := f.(memory); stack := f.(stack); evm := f.(evm) |}.
Definition set_contract (f : frame) (c : Contract) : frame :=
  {| pc := f.(pc); contract := c; memory := f.(memory); stack := f.(stack); evm := f.(evm) |}.
Definition set_memory (f : frame) (m : Memory) : frame :=
  {| pc := f.(pc); contract := f.(contract); memory := m; stack := f.(stack); evm := f.(evm) |}.
Definition set_stack (f : frame) (s : list Z) : frame :=
  {| pc := f.(pc); contract := f.(contract); memory := f.(memory); stack := s; evm := f.(evm) |}.
Definition set_evm (f : frame) (e : EVM) : frame :=
  {| pc := f.(pc); contract := f.(contract); memory := f.(memory); stack := f.(stack); evm := e |}.

(** *** The monad of an instruction *)
Definition M (A : Type) : Type := frame -> result (frame * A).

#[export] Instance M_ret : MRet M := fun A a f => Ret (f, a).
#[export] Instance M_bind : MBind M := fun A B k m f =>
  match m f with
  | Ret (f', a) => k a f'
  | Err e => Err e
  | Panic => Panic
  end.

Definition panic {A} : M A := fun _ => Panic.
Definition get : M frame := fun f => Ret (f, f).
Definition put (f : frame) : M unit := fun _ => Ret (f, tt).
Definition lift {A} (m : option A) : M A := fun f =>
  match m with Some a => Ret (f, a) | None => Panic end.

Definition get_db : M db := fun f => Ret (f, f.(evm).(evm_StateDB)).
Definition put_db (s : db) : M unit := fun f => Ret (set_evm f (set_StateDB f.(evm) s), tt).
Definition get_contract : M Contract := fun f => Ret (f, f.(contract)).
Definition put_memory (m : option Memory) : M unit := fun f =>
  match m with Some m => Ret (set_memory f m, tt) | None => Panic end.
Definition put_pc (p : Z) : M unit := fun f => Ret (set_pc f p, tt).

(** *** stack.go: the head of the list is the last element of the slice *)
Definition push (d : Z) : M unit := fun f => Ret (set_stack f (d :: f.(stack)), tt).

Definition pop : M Z := fun f =>
  match f.(stack) with
  | [] => Panic
  | x :: s => Ret (set_stack f s, x)
  end.

Definition peek : M Z := fun f =>
  match f.(stack) with
  | [] => Panic
  | x :: _ => Ret (f, x)
  end.

(** A destructive update of the integer [peek] returned. *)
Definition set_top (d : Z) : M unit := fun f =>
  match f.(stack) with
  | [] => Panic
  | _ :: s => Ret (set_stack f (d :: s), tt)
  end.

Definition swap (n : nat) : M unit := fun f =>
  match exchange f.(stack) (n - 1) 0 with
  | Some s => Ret (set_stack f s, tt)
  | None => Panic
  end.

Definition dup (n : nat) : M unit := fun f =>
  match f.(stack) !! (n - 1)%nat with
  | Some x => Ret (set_stack f (x :: f.(stack)), tt)
  | None => Panic
  end.

Definition Back (s : list Z) (n : nat) : option Z := s !! n.

Definition require (s : list Z) (n : Z) : option vm_error :=
  if Z.of_nat (length s) <? n then Some (errStackUnderflow (Z.of_nat (length s)) n) else None.

(** *** The types of jump_table.go and the Go functions they call back

    What an instruction returns: bytes and an error. *)
Definition ret : Type := list Z * option vm_error.

(** [run] of evm.go, as the instructions that make calls see it. *)
Definition recursor : Type := EVM -> Contract -> list Z -> result (EVM * Contract * ret).

Definition executionFunc : Type := recursor -> M ret.
Definition gasFunc : Type := GasTable -> Z -> M (Z * option vm_error).
Definition stackValidationFunc : Type := list Z -> option vm_error.
Definition memorySizeFunc : Type := list Z -> option Z.

Record operation := {
  execute : executionFunc;
  gasCost : gasFunc;
  validateStack : stackValidationFunc;
  memorySize : option memorySizeFunc;
  halts : bool;
  jumps : bool;
  writes : bool;
  valid : bool;
  reverts : bool;
  returns : bool
}.
End State.

Arguments EVM db disk : clear implicits.
Arguments frame db disk : clear implicits.
Arguments M db disk A : clear implicits.
Arguments recursor db disk : clear implicits.
Arguments executionFunc db disk : clear implicits.
Arguments gasFunc db disk : clear implicits.
Arguments operation db disk : clear implicits.
