(* ===== verification/Gas.v ===== *)
(** * Gas, memory and stack tables

    dvm/ethereum/vm: gas.go, gas_table.go, memory_table.go and stack_table.go,
    the functions the jump table attaches to each operation.  A gas function
    may touch the refund counter, the call gas register and the memory's
    recorded fee, so it runs in the instruction monad. *)
From Stdlib Require Import ZArith Lia.
From S2P Require Import Prelude Word Config OpCodes Analysis Machine.
Import Big Op.
Open Scope Z_scope.

(** ** gas.go *)
Definition GasQuickStep : Z := 2.
Definition GasFastestStep : Z := 3.
Definition GasFastStep : Z := 5.
Definition GasMidStep : Z := 8.
Definition GasSlowStep : Z := 10.
Definition GasExtStep : Z := 20.

Definition callGas (gt : GasTable) (availableGas base callCost : Z) : Z * option vm_error :=
  let tail := if 64 <? BitLen callCost then (0, Some errGasUintOverflow)
              else (Uint64 callCost, None) in
  if 0 <? gt.(CreateBySuicide) then
    let availableGas := u64 (availableGas - base) in
    let gas := u64 (availableGas - availableGas / 64) in
    if (64 <? BitLen callCost) || (gas <? Uint64 callCost) then (gas, None) else tail
  else tail.

(** ** memory_table.go *)
Section MemoryTable.

Definition calc2 (s : list Z) (off l : nat) : option Z :=
  o ← Back s off; n ← Back s l; Some (calcMemSize o n).

Definition memorySha3 (s : list Z) : option Z := calc2 s 0 1.
Definition memoryCallDataCopy (s : list Z) : option Z := calc2 s 0 2.
Definition memoryReturnDataCopy (s : list Z) : option Z := calc2 s 0 2.
Definition memoryCodeCopy (s : list Z) : option Z := calc2 s 0 2.
Definition memoryExtCodeCopy (s : list Z) : option Z := calc2 s 1 3.
Definition memoryMLoad (s : list Z) : option Z := o ← Back s 0; Some (calcMemSize o 32).
Definition memoryMStore8 (s : list Z) : option Z := o ← Back s 0; Some (calcMemSize o 1).
Definition memoryMStore (s : list Z) : option Z := o ← Back s 0; Some (calcMemSize o 32).
Definition memoryCreate (s : list Z) : option Z := calc2 s 1 2.
Definition memoryCreate2 (s : list Z) : option Z := calc2 s 1 2.
Definition memoryCall (s : list Z) : option Z :=
  x ← calc2 s 5 6; y ← calc2 s 3 4; Some (BigMax x y).
Definition memoryDelegateCall (s : list Z) : option Z :=
  x ← calc2 s 4 5; y ← calc2 s 2 3; Some (BigMax x y).
Definition memoryStaticCall (s : list Z) : option Z :=
  x ← calc2 s 4 5; y ← calc2 s 2 3; Some (BigMax x y).
Definition memoryReturn (s : list Z) : option Z := calc2 s 0 1.
Definition memoryRevert (s : list Z) : option Z := calc2 s 0 1.
Definition memoryLog (s : list Z) : option Z :=
  mSize ← Back s 1; mStart ← Back s 0; Some (calcMemSize mStart mSize).
End MemoryTable.

(** ** stack_table.go *)
Section StackTable.

Definition makeStackFunc (pop push : Z) : stackValidationFunc := fun s =>
  match require s pop with
  | Some err => Some err
  | None =>
      if Params.StackLimit <? Z.of_nat (length s) + push - pop
      then Some (errStackLimit (Z.of_nat (length s)) Params.StackLimit)
      else None
  end.

Definition makeDupStackFunc (n : Z) : stackValidationFunc := makeStackFunc n (n + 1).
Definition makeSwapStackFunc (n : Z) : stackValidationFunc := makeStackFunc n n.
End StackTable.

(** ** gas_table.go *)
Section GasTableFuncs.
Context {db disk : Type} {SDB : StateDB db} {EN : Env}.
Abbreviation M := (M db disk).
Abbreviation gasFunc := (gasFunc db disk).

(** Go's [if err != nil { return 0, err }] after a call and
    [if ..., overflow = ...; overflow { return 0, errGasUintOverflow }]. *)
Definition or_err (m : M (Z * option vm_error)) (k : Z -> M (Z * option vm_error))
    : M (Z * option vm_error) :=
  '(g, err) ← m;
  match err with
  | Some e => mret (0, Some e)
  | None => k g
  end.

Definition or_overflow (r : Z * bool) (k : Z -> M (Z * option vm_error))
    : M (Z * option vm_error) :=
  let '(g, overflow) := r in
  if overflow : bool then mret (0, Some errGasUintOverflow) else k g.

Notation "x ←! m ; k" := (or_err m (fun x => k)) (at level 20, m at level 100, k at level 200).
Notation "x ←? r ; k" := (or_overflow r (fun x => k)) (at level 20, r at level 100, k at level 200).

Definition stack_back (n : nat) : M Z := f ← get; lift (Back f.(stack) n).

Definition memoryGasCost_of (mem : Memory) (newMemSize : Z) : Memory * (Z * option vm_error) :=
  if newMemSize =? 0 then (mem, (0, None))
  else if 0xffffffffe0 <? newMemSize then (mem, (0, Some errGasUintOverflow))
  else
    let newMemSizeWords := toWordSize newMemSize in
    let newMemSize := u64 (newMemSizeWords * 32) in
    if Mem.Len mem <? newMemSize then
      let square := u64 (newMemSizeWords * newMemSizeWords) in
      let linCoef := u64 (newMemSizeWords * Params.MemoryGas) in
      let quadCoef := square / Params.QuadCoeffDiv in
      let newTotalFee := u64 (linCoef + quadCoef) in
      ({| store := mem.(store); lastGasCost := newTotalFee |},
       (u64 (newTotalFee - mem.(lastGasCost)), None))
    else (mem, (0, None)).

Definition memoryGasCost (newMemSize : Z) : M (Z * option vm_error) := fun f =>
  let '(mem, r) := memoryGasCost_of f.(memory) newMemSize in Ret (set_memory f mem, r).

Definition constGasFunc (gas : Z) : gasFunc := fun gt memorySize => mret (gas, None).

Definition gasCallDataCopy : gasFunc := fun gt memorySize =>
  gas ←! memoryGasCost memorySize;
  gas ←? SafeAdd gas GasFastestStep;
  b ← stack_back 2;
  words ←? bigUint64 b;
  words ←? SafeMul (toWordSize words) Params.CopyGas;
  gas ←? SafeAdd gas words;
  mret (gas, None).

Definition gasReturnDataCopy : gasFunc := fun gt memorySize =>
  gas ←! memoryGasCost memorySize;
  gas ←? SafeAdd gas GasFastestStep;
  b ← stack_back 2;
  words ←? bigUint64 b;
  words ←? SafeMul (toWordSize words) Params.CopyGas;
  gas ←? SafeAdd gas words;
  mret (gas, None).

Definition gasSStore : gasFunc := fun gt memorySize =>
  y ← stack_back 1;
  x ← stack_back 0;
  s ← get_db;
  c ← get_contract;
  let val := GetState s (Address c) (BigToHash x) in
  if EmptyHash val && negb (EmptyHash (BigToHash y)) then mret (Params.SstoreSetGas, None)
  else if negb (EmptyHash val) && EmptyHash (BigToHash y) then
    put_db (AddRefund s Params.SstoreRefundGas);;
    mret (Params.SstoreClearGas, None)
  else mret (Params.SstoreResetGas, None).

Definition makeGasLog (n : Z) : gasFunc := fun gt memorySize =>
  b ← stack_back 1;
  requestedSize ←? bigUint64 b;
  gas ←! memoryGasCost memorySize;
  gas ←? SafeAdd gas Params.LogGas;
  gas ←? SafeAdd gas (u64 (n * Params.LogTopicGas));
  memorySizeGas ←? SafeMul requestedSize Params.LogDataGas;
  gas ←? SafeAdd gas memorySizeGas;
  mret (gas, None).

Definition gasSha3 : gasFunc := fun gt memorySize =>
  gas ←! memoryGasCost memorySize;
  gas ←? SafeAdd gas Params.Sha3Gas;
  b ← stack_back 1;
  wordGas ←? bigUint64 b;
  wordGas ←? SafeMul (toWordSize wordGas) Params.Sha3WordGas;
  gas ←? SafeAdd gas wordGas;
  mret (gas, None).

Definition gasCodeCopy : gasFunc := fun gt memorySize =>
  gas ←! memoryGasCost memorySize;
  gas ←? SafeAdd gas GasFastestStep;
  b ← stack_back 2;
  wordGas ←? bigUint64 b;
  wordGas ←? SafeMul (toWordSize wordGas) Params.CopyGas;
  gas ←? SafeAdd gas wordGas;
  mret (gas, None).

Definition gasExtCodeCopy : gasFunc := fun gt memorySize =>
  gas ←! memoryGasCost memorySize;
  gas ←? SafeAdd gas gt.(ExtcodeCopy);
  b ← stack_back 3;
  wordGas ←? bigUint64 b;
  wordGas ←? SafeMul (toWordSize wordGas) Params.CopyGas;
  gas ←? SafeAdd gas wordGas;
  mret (gas, None).

Definition gasExtCodeHash : gasFunc := fun gt memorySize => mret (gt.(ExtcodeHash), None).

(** [gasMLoad], [gasMStore8] and [gasMStore] replace any error of
    [memoryGasCost] by the overflow error. *)
Definition gas_word_access : gasFunc := fun gt memorySize =>
  '(gas, err) ← memoryGasCost memorySize;
  match err with
  | Some _ => mret (0, Some errGasUintOverflow)
  | None => gas ←? SafeAdd gas GasFastestStep; mret (gas, None)
  end.
Definition gasMLoad : gasFunc := gas_word_access.
Definition gasMStore8 : gasFunc := gas_word_access.
Definition gasMStore : gasFunc := gas_word_access.

Definition gasCreate : gasFunc := fun gt memorySize =>
  gas ←! memoryGasCost memorySize;
  gas ←? SafeAdd gas Params.CreateGas;
  mret (gas, None).

Definition gasCreate2 : gasFunc := fun gt memorySize =>
  gas ←! memoryGasCost memorySize;
  gas ←? SafeAdd gas Params.Create2Gas;
  mret (gas, None).

Definition gasBalance : gasFunc := fun gt memorySize => mret (gt.(BalanceGas), None).
Definition gasExtCodeSize : gasFunc := fun gt memorySize => mret (gt.(ExtcodeSize), None).
Definition gasSLoad : gasFunc := fun gt memorySize => mret (gt.(SLoad), None).

Definition gasExp : gasFunc := fun gt memorySize =>
  e ← stack_back 1;
  let expByteLen := (BitLen e + 7) / 8 in
  gas ←? SafeAdd (u64 (expByteLen * gt.(ExpByte))) GasSlowStep;
  mret (gas, None).

(** The common end of the call gas functions: the gas the callee gets goes to
    [evm.callGasTemp] and is added to the cost. *)
Definition put_callGasTemp (g : Z) : M unit := fun f =>
  Ret (set_evm f (set_callGasTemp f.(evm) g), tt).

Definition call_gas_tail (gt : GasTable) (gas : Z) : M (Z * option vm_error) :=
  c ← get_contract;
  b ← stack_back 0;
  let '(temp, err) := callGas gt c.(Gas) gas b in
  put_callGasTemp temp;;
  match err with
  | Some e => mret (0, Some e)
  | None => gas ←? SafeAdd gas temp; mret (gas, None)
  end.

Definition gasCall : gasFunc := fun gt memorySize =>
  v ← stack_back 2;
  a ← stack_back 1;
  s ← get_db;
  let transfersValue := negb (v =? 0) in
  let address := BigToAddress a in
  let gas := gt.(Calls) in
  let gas :=
    if IsEIP158 chainConfig BlockNumber then
      if transfersValue && Empty s address then u64 (gas + Params.CallNewAccountGas) else gas
    else if negb (Exist s address) then u64 (gas + Params.CallNewAccountGas) else gas in
  let gas := if transfersValue then u64 (gas + Params.CallValueTransferGas) else gas in
  memoryGas ←! memoryGasCost memorySize;
  gas ←? SafeAdd gas memoryGas;
  call_gas_tail gt gas.

Definition gasCallCode : gasFunc := fun gt memorySize =>
  v ← stack_back 2;
  let gas := gt.(Calls) in
  let gas := if negb (v =? 0) then u64 (gas + Params.CallValueTransferGas) else gas in
  memoryGas ←! memoryGasCost memorySize;
  gas ←? SafeAdd gas memoryGas;
  call_gas_tail gt gas.

Definition gasReturn : gasFunc := fun gt memorySize => memoryGasCost memorySize.
Definition gasRevert : gasFunc := fun gt memorySize => memoryGasCost memorySize.

Definition gasSuicide : gasFunc := fun gt memorySize =>
  s ← get_db;
  c ← get_contract;
  gas ← (if IsEIP150 chainConfig BlockNumber then
           a ← stack_back 0;
           let gas := gt.(Config.Suicide) in
           let address := BigToAddress a in
           mret (if IsEIP158 chainConfig BlockNumber then
                   if Empty s address && negb (GetBalance s (Address c) =? 0)
                   then u64 (gas + gt.(CreateBySuicide)) else gas
                 else if negb (Exist s address) then u64 (gas + gt.(CreateBySuicide)) else gas)
         else mret 0);
  (if negb (HasSuicided s (Address c)) then put_db (AddRefund s Params.SuicideRefundGas)
   else mret tt);;
  mret (gas, None).

Definition gasDelegateCall : gasFunc := fun gt memorySize =>
  gas ←! memoryGasCost memorySize;
  gas ←? SafeAdd gas gt.(Calls);
  call_gas_tail gt gas.

Definition gasStaticCall : gasFunc := fun gt memorySize =>
  gas ←! memoryGasCost memorySize;
  gas ←? SafeAdd gas gt.(Calls);
  call_gas_tail gt gas.

Definition gasPush : gasFunc := fun gt memorySize => mret (GasFastestStep, None).
Definition gasSwap : gasFunc := fun gt memorySize => mret (GasFastestStep, None).
Definition gasDup : gasFunc := fun gt memorySize => mret (GasFastestStep, None).

End GasTableFuncs.
