(* ===== verification/Calls.v ===== *)
(** * Message calls

    dvm/ethereum/vm/evm.go: Call, CallCode, DelegateCall, StaticCall and the
    creation of contracts, over the function [run] that executes a contract;
    [CanTransfer] and [Transfer] are those of dvm/ethereum/evm.go, the only
    ones the node passes in its [Context].  Each function returns the machine
    it leaves, the returned bytes, the left over gas and the error. *)
From Stdlib Require Import ZArith Lia.
From S2P Require Import Prelude Word Config OpCodes Analysis Machine Gas.
Import Big Op.
Open Scope Z_scope.

(** The addresses of the precompiled contracts, 1 to 4 before Byzantium and 1 to
    8 since. *)
Definition precompile_count `{!Env} : Z :=
  if IsByzantium chainConfig BlockNumber then 8 else 4.

Definition is_precompile `{!Env} (addr : AddressBytes) : bool :=
  (1 <=? addr) && (addr <=? precompile_count).

Section Calls.
Context {db disk : Type} {SDB : StateDB db} {QH : VMStateQueryHelper db disk} {CR : Crypto} {EN : Env}.
Abbreviation EVM := (EVM db disk).

(** *** dvm/ethereum/evm.go *)
Definition CanTransfer (s : db) (addr : AddressBytes) (amount : Z) : bool :=
  amount <=? GetBalance s addr.

Definition Transfer (s : db) (sender recipient : AddressBytes) (amount : Z) : db :=
  AddBalance (SubBalance s sender amount) recipient amount.

(** *** contract.go: [NewContract] keeps the destinations of a calling contract
    and starts an empty map below an account. *)
Definition NewContract (e : EVM) (caller object : ContractRef) (value : option Z) (gas : Z)
    : EVM * Contract :=
  (match caller with
   | ContractPtr _ _ _ => e
   | AccountRef _ => set_jumpdests e ∅
   end,
   {| CallerAddress := RefAddress caller; Machine.caller := caller; self := object;
      Code := []; CodeHash := 0; CodeAddr := None; Input := []; Gas := gas;
      Machine.value := value; DelegateCall_ := false |}).

(** *** evm.go *)
Section WithRun.
Variable run : recursor db disk.

Definition emptyCodeHash : HashBytes := NewHash [].

(** What every call does with an error of [run]: the state goes back to the
    snapshot and, unless the code reverted, the gas is consumed. *)
Definition settle (e : EVM) (c : Contract) (snapshot : Z) (err : option vm_error)
    : outcome nofuel (EVM * Contract) :=
  match err with
  | None => Ret (e, c)
  | Some x =>
      s ← or_panic (RevertToSnapshot e.(evm_StateDB) snapshot);
      Ret (set_StateDB e s, if decide (x = ErrExecutionReverted) then c else set_Gas c 0)
  end.

Definition Snapshot_ (e : EVM) : EVM * Z :=
  let '(s, id) := Snapshot e.(evm_StateDB) in (set_StateDB e s, id).

Definition Call (e : EVM) (caller : ContractRef) (addr : AddressBytes) (input : list Z)
    (gas value : Z) : outcome nofuel (EVM * (list Z * Z * option vm_error)) :=
  if NoRecursion && (0 <? e.(depth)) then Ret (e, ([], gas, None))
  else if Params.CallCreateDepth <? e.(depth) then Ret (e, ([], gas, Some ErrDepth))
  else if negb (CanTransfer e.(evm_StateDB) (RefAddress caller) value) then
    Ret (e, ([], gas, Some ErrInsufficientBalance))
  else
    let to := AccountRef addr in
    let '(e, snapshot) := Snapshot_ e in
    if negb (Exist e.(evm_StateDB) addr) && negb (is_precompile addr) &&
       IsEIP158 chainConfig BlockNumber && (value =? 0)
    then Ret (e, ([], gas, None))
    else
      let e := if negb (Exist e.(evm_StateDB) addr)
               then set_StateDB e (CreateAccount e.(evm_StateDB) addr) else e in
      let e := set_StateDB e
                 (Transfer e.(evm_StateDB) (RefAddress caller) (RefAddress to) value) in
      let '(e, c) := NewContract e caller to (Some value) gas in
      let c := SetCallCode c addr (GetCodeHash e.(evm_StateDB) addr) (GetCode e.(evm_StateDB) addr) in
      '(e, c, (ret, err)) ← run e c input;
      '(e, c) ← settle e c snapshot err;
      Ret (e, (ret, c.(Gas), err)).

Definition CallCode (e : EVM) (caller : ContractRef) (addr : AddressBytes) (input : list Z)
    (gas value : Z) : outcome nofuel (EVM * (list Z * Z * option vm_error)) :=
  if NoRecursion && (0 <? e.(depth)) then Ret (e, ([], gas, None))
  else if Params.CallCreateDepth <? e.(depth) then Ret (e, ([], gas, Some ErrDepth))
  else if negb (CanTransfer e.(evm_StateDB) (RefAddress caller) value) then
    Ret (e, ([], gas, Some ErrInsufficientBalance))
  else
    let '(e, snapshot) := Snapshot_ e in
    let to := AccountRef (RefAddress caller) in
    let '(e, c) := NewContract e caller to (Some value) gas in
    let c := SetCallCode c addr (GetCodeHash e.(evm_StateDB) addr) (GetCode e.(evm_StateDB) addr) in
    '(e, c, (ret, err)) ← run e c input;
    '(e, c) ← settle e c snapshot err;
    Ret (e, (ret, c.(Gas), err)).

Definition DelegateCall (e : EVM) (caller : ContractRef) (addr : AddressBytes) (input : list Z)
    (gas : Z) : outcome nofuel (EVM * (list Z * Z * option vm_error)) :=
  if NoRecursion && (0 <? e.(depth)) then Ret (e, ([], gas, None))
  else if Params.CallCreateDepth <? e.(depth) then Ret (e, ([], gas, Some ErrDepth))
  else
    let '(e, snapshot) := Snapshot_ e in
    let to := AccountRef (RefAddress caller) in
    let '(e, c) := NewContract e caller to None gas in
    c ← or_panic (AsDelegate c);
    let c := SetCallCode c addr (GetCodeHash e.(evm_StateDB) addr) (GetCode e.(evm_StateDB) addr) in
    '(e, c, (ret, err)) ← run e c input;
    '(e, c) ← settle e c snapshot err;
    Ret (e, (ret, c.(Gas), err)).

(** The deferred [SetReadOnly(false)] runs only when this call set the flag. *)
Definition StaticCall (e : EVM) (caller : ContractRef) (addr : AddressBytes) (input : list Z)
    (gas : Z) : outcome nofuel (EVM * (list Z * Z * option vm_error)) :=
  if NoRecursion && (0 <? e.(depth)) then Ret (e, ([], gas, None))
  else if Params.CallCreateDepth <? e.(depth) then Ret (e, ([], gas, Some ErrDepth))
  else
    let was := e.(readOnly) in
    let e := if was then e else set_readOnly e true in
    let to := AccountRef addr in
    let '(e, snapshot) := Snapshot_ e in
    let '(e, c) := NewContract e caller to (Some 0) gas in
    let c := SetCallCode c addr (GetCodeHash e.(evm_StateDB) addr) (GetCode e.(evm_StateDB) addr) in
    '(e, c, (ret, err)) ← run e c input;
    '(e, c) ← settle e c snapshot err;
    Ret (if was then e else set_readOnly e false, (ret, c.(Gas), err)).

(** The middle of [create]: pay for the code and store it, or fail. *)
Definition deposit (e : EVM) (c : Contract) (address : AddressBytes) (ret : list Z)
    (err : option vm_error) (maxCodeSizeExceeded : bool) : EVM * Contract * option vm_error :=
  if negb (bool_decide (is_Some err)) && negb maxCodeSizeExceeded then
    match UseGas c (u64 (Z.of_nat (length ret) * Params.CreateDataGas)) with
    | Some c => (set_StateDB e (SetCode e.(evm_StateDB) address ret), c, err)
    | None => (e, c, Some ErrCodeStoreOutOfGas)
    end
  else (e, c, err).

Definition create (e : EVM) (caller : ContractRef) (code : list Z) (gas value : Z)
    (address : AddressBytes)
    : outcome nofuel (EVM * (list Z * AddressBytes * Z * option vm_error)) :=
  if Params.CallCreateDepth <? e.(depth) then Ret (e, ([], 0, gas, Some ErrDepth))
  else if negb (CanTransfer e.(evm_StateDB) (RefAddress caller) value) then
    Ret (e, ([], 0, gas, Some ErrInsufficientBalance))
  else
    let nonce := GetNonce e.(evm_StateDB) (RefAddress caller) in
    let e := set_StateDB e (SetNonce e.(evm_StateDB) (RefAddress caller) (u64 (nonce + 1))) in
    let contractHash := GetCodeHash e.(evm_StateDB) address in
    if negb (GetNonce e.(evm_StateDB) address =? 0) ||
       (negb (contractHash =? 0) && negb (contractHash =? emptyCodeHash))
    then Ret (e, ([], 0, 0, Some ErrContractAddressCollision))
    else
      let '(e, snapshot) := Snapshot_ e in
      let e := set_StateDB e (CreateAccount e.(evm_StateDB) address) in
      let e := if IsEIP158 chainConfig BlockNumber
               then set_StateDB e (SetNonce e.(evm_StateDB) address 1) else e in
      let e := set_StateDB e (Transfer e.(evm_StateDB) (RefAddress caller) address value) in
      let '(e, c) := NewContract e caller (AccountRef address) (Some value) gas in
      let c := SetCallCode c address (NewHash code) code in
      if NoRecursion && (0 <? e.(depth)) then Ret (e, ([], address, gas, None))
      else
        '(e, c, (ret, err)) ← run e c [];
        let maxCodeSizeExceeded :=
          IsEIP158 chainConfig BlockNumber && (Params.MaxCodeSize <? Z.of_nat (length ret)) in
        let '(e, c, err) := deposit e c address ret err maxCodeSizeExceeded in
        '(e, c) ←
          (if maxCodeSizeExceeded ||
              (bool_decide (is_Some err) &&
               (IsHomestead chainConfig BlockNumber ||
                negb (bool_decide (err = Some ErrCodeStoreOutOfGas))))
           then
             s ← or_panic (RevertToSnapshot e.(evm_StateDB) snapshot);
             Ret (set_StateDB e s,
                  if decide (err = Some ErrExecutionReverted) then c else set_Gas c 0)
           else Ret (e, c));
        let err := match err with
                   | None => if maxCodeSizeExceeded then Some errMaxCodeSizeExceeded else None
                   | Some _ => err
                   end in
        Ret (e, (ret, address, c.(Gas), err)).

Definition Create (e : EVM) (caller : ContractRef) (code : list Z) (gas value : Z) :=
  create e caller code gas value
    (CreateAddress (RefAddress caller) (GetNonce e.(evm_StateDB) (RefAddress caller))).

Definition Create2 (e : EVM) (caller : ContractRef) (code : list Z) (gas endowment salt : Z) :=
  create e caller code gas endowment (CreateAddress2 (RefAddress caller) (BigToHash salt) code).

End WithRun.
End Calls.
