(* ===== verification/Instructions.v ===== *)
(** * Instructions

    dvm/ethereum/vm/instructions.go, one definition per opcode function, in
    the instruction monad.  The pool of reusable integers is left out: an
    integer taken from it is overwritten before it is read.  Debug printing is
    left out.  [ret_nil] is Go's [return nil, nil]. *)
From Stdlib Require Import ZArith Lia.
From S2P Require Import Prelude Word Config OpCodes Analysis Machine Gas Calls.
Import Big Op.
Open Scope Z_scope.

Section Instructions.
Context {db disk : Type} {SDB : StateDB db} {QH : VMStateQueryHelper db disk} {CR : Crypto} {EN : Env}.
Abbreviation M := (M db disk).
Abbreviation executionFunc := (executionFunc db disk).
Abbreviation op_fun := (M ret).

Definition ret_nil : op_fun := mret ([], None).

(** The two ways the source writes a truth value over its operand. *)
Definition set_bool (b : bool) : M unit := set_top (if b then 1 else 0).

(** ** Arithmetic *)
Definition opAdd : executionFunc := fun _ =>
  x ← pop; y ← peek; set_top (U256 (x + y));; ret_nil.

Definition opSub : executionFunc := fun _ =>
  x ← pop; y ← peek; set_top (U256 (x - y));; ret_nil.

Definition opMul : executionFunc := fun _ =>
  x ← pop; y ← pop; push (U256 (x * y));; ret_nil.

Definition opDiv : executionFunc := fun _ =>
  x ← pop; y ← peek;
  (if negb (y =? 0) then set_top (U256 (Div x y)) else set_top 0);;
  ret_nil.

Definition opSdiv : executionFunc := fun _ =>
  x ← pop; y ← pop;
  let x := S256 x in let y := S256 y in
  (if (y =? 0) || (x =? 0) then push 0
   else
     let res := if negb (Z.sgn x =? Z.sgn y) then - Div (Z.abs x) (Z.abs y)
                else Div (Z.abs x) (Z.abs y) in
     push (U256 res));;
  ret_nil.

Definition opMod : executionFunc := fun _ =>
  x ← pop; y ← pop;
  (if y =? 0 then push 0 else push (U256 (Mod x y)));;
  ret_nil.

Definition opSmod : executionFunc := fun _ =>
  x ← pop; y ← pop;
  let x := S256 x in let y := S256 y in
  (if y =? 0 then push 0
   else
     let res := if x <? 0 then - Mod (Z.abs x) (Z.abs y) else Mod (Z.abs x) (Z.abs y) in
     push (U256 res));;
  ret_nil.

Definition opExp : executionFunc := fun _ =>
  base ← pop; exponent ← pop; push (Exp base exponent);; ret_nil.

Definition opSignExtend : executionFunc := fun _ =>
  back ← pop;
  (if back <? 31 then
     let bit := u64 (Uint64 back * 8 + 7) in
     num ← pop;
     let mask := Z.shiftl 1 bit - 1 in
     let num := if 0 <? Bit num bit then Z.lor num (Z.lnot mask) else Z.land num mask in
     push (U256 num)
   else mret tt);;
  ret_nil.

Definition opNot : executionFunc := fun _ =>
  x ← peek; set_top (U256 (Z.lnot x));; ret_nil.

(** ** Comparison and bits *)
Definition opLt : executionFunc := fun _ =>
  x ← pop; y ← peek; set_bool (x <? y);; ret_nil.

Definition opGt : executionFunc := fun _ =>
  x ← pop; y ← peek; set_bool (y <? x);; ret_nil.

Definition opSlt : executionFunc := fun _ =>
  x ← pop; y ← peek;
  (if (tt255 <=? x) && (y <? tt255) then set_top 1
   else if (x <? tt255) && (tt255 <=? y) then set_top 0
   else set_bool (x <? y));;
  ret_nil.

Definition opSgt : executionFunc := fun _ =>
  x ← pop; y ← peek;
  (if (tt255 <=? x) && (y <? tt255) then set_top 0
   else if (x <? tt255) && (tt255 <=? y) then set_top 1
   else set_bool (y <? x));;
  ret_nil.

Definition opEq : executionFunc := fun _ =>
  x ← pop; y ← peek; set_bool (x =? y);; ret_nil.

Definition opIszero : executionFunc := fun _ =>
  x ← peek; (if 0 <? x then set_top 0 else set_top 1);; ret_nil.

Definition opAnd : executionFunc := fun _ =>
  x ← pop; y ← pop; push (Z.land x y);; ret_nil.

Definition opOr : executionFunc := fun _ =>
  x ← pop; y ← peek; set_top (Z.lor x y);; ret_nil.

Definition opXor : executionFunc := fun _ =>
  x ← pop; y ← peek; set_top (Z.lxor x y);; ret_nil.

Definition opByte : executionFunc := fun _ =>
  th ← pop; val ← peek;
  (if th <? 32 then set_top (Byte val 32 (Int64 th)) else set_top 0);;
  ret_nil.

Definition opAddmod : executionFunc := fun _ =>
  x ← pop; y ← pop; z ← pop;
  (if 0 <? z then push (U256 (Mod (x + y) z)) else push 0);;
  ret_nil.

Definition opMulmod : executionFunc := fun _ =>
  x ← pop; y ← pop; z ← pop;
  (if 0 <? z then push (U256 (Mod (x * y) z)) else push 0);;
  ret_nil.

Definition opSHL : executionFunc := fun _ =>
  shift ← pop; value ← peek;
  let shift := U256 shift in let value := U256 value in
  (if 256 <=? shift then set_top 0
   else set_top (U256 (Z.shiftl value (Uint64 shift))));;
  ret_nil.

Definition opSHR : executionFunc := fun _ =>
  shift ← pop; value ← peek;
  let shift := U256 shift in let value := U256 value in
  (if 256 <=? shift then set_top 0
   else set_top (U256 (Z.shiftr value (Uint64 shift))));;
  ret_nil.

Definition opSAR : executionFunc := fun _ =>
  shift ← pop; value ← pop;
  let shift := U256 shift in let value := S256 value in
  (if 256 <=? shift then
     let value := if 0 <=? value then 0 else -1 in
     push (U256 value)
   else push (U256 (Z.shiftr value (Uint64 shift))));;
  ret_nil.

(** ** Hashing, environment and code *)
Definition mem_get (offset size : Z) : M (list Z) :=
  f ← get; lift (Mem.Get f.(memory) (Int64 offset) (Int64 size)).

Definition mem_set (offset size : Z) (v : list Z) : M unit :=
  f ← get; put_memory (Mem.Set_ f.(memory) offset size v).

Definition opSha3 : executionFunc := fun _ =>
  offset ← pop; size ← pop;
  data ← mem_get offset size;
  let hash := Keccak256 data in
  (if EnablePreimageRecording then
     s ← get_db; put_db (AddPreimage s (BytesToHash hash) data)
   else mret tt);;
  push (SetBytes hash);;
  ret_nil.

Definition opAddress : executionFunc := fun _ =>
  c ← get_contract; push (AddressBig (Address c));; ret_nil.

Definition opBalance : executionFunc := fun _ =>
  slot ← peek; s ← get_db; set_top (GetBalance s (BigToAddress slot));; ret_nil.

Definition opOrigin : executionFunc := fun _ => push (AddressBig Origin);; ret_nil.

Definition opCaller : executionFunc := fun _ =>
  c ← get_contract; push (AddressBig (Caller c));; ret_nil.

(** [Set] of a nil integer dereferences it. *)
Definition opCallValue : executionFunc := fun _ =>
  c ← get_contract; v ← lift c.(value); push v;; ret_nil.

Definition opCallDataLoad : executionFunc := fun _ =>
  c ← get_contract; off ← pop;
  d ← lift (getDataBig c.(Input) off 32);
  push (SetBytes d);; ret_nil.

Definition opCallDataSize : executionFunc := fun _ =>
  c ← get_contract; push (Z.of_nat (length c.(Input)));; ret_nil.

Definition opCallDataCopy : executionFunc := fun _ =>
  memOffset ← pop; dataOffset ← pop; length_ ← pop;
  c ← get_contract;
  d ← lift (getDataBig c.(Input) dataOffset length_);
  mem_set (Uint64 memOffset) (Uint64 length_) d;;
  ret_nil.

Definition opReturnDataSize : executionFunc := fun _ =>
  f ← get; push (Z.of_nat (length f.(evm).(returnData)));; ret_nil.

Definition opReturnDataCopy : executionFunc := fun _ =>
  memOffset ← pop; dataOffset ← pop; length_ ← pop;
  f ← get;
  let end_ := dataOffset + length_ in
  if (64 <? BitLen end_) || (Z.of_nat (length f.(evm).(returnData)) <? Uint64 end_)
  then mret ([], Some errReturnDataOutOfBounds)
  else
    d ← lift (slice f.(evm).(returnData) (Uint64 dataOffset) (Uint64 end_));
    mem_set (Uint64 memOffset) (Uint64 length_) d;;
    ret_nil.

(** A size of zero is looked up again through the state helper, when there is
    one. *)
Definition opExtCodeSize : executionFunc := fun _ =>
  slot ← peek; s ← get_db; f ← get;
  let codeSize := u64 (GetCodeSize s (BigToAddress slot)) in
  let codeSize :=
    match f.(evm).(evm_Helper) with
    | Some h =>
        if codeSize =? 0 then
          u64 (HelperGetCodeSize (db:=db) h (Address f.(contract)) (Caller f.(contract))
                 (BigToAddress slot))
        else codeSize
    | None => codeSize
    end in
  set_top codeSize;;
  ret_nil.

Definition opCodeSize : executionFunc := fun _ =>
  c ← get_contract; push (Z.of_nat (length c.(Code)));; ret_nil.

Definition opCodeCopy : executionFunc := fun _ =>
  memOffset ← pop; codeOffset ← pop; length_ ← pop;
  c ← get_contract;
  codeCopy ← lift (getDataBig c.(Code) codeOffset length_);
  mem_set (Uint64 memOffset) (Uint64 length_) codeCopy;;
  ret_nil.

Definition opExtCodeCopy : executionFunc := fun _ =>
  a ← pop; memOffset ← pop; codeOffset ← pop; length_ ← pop;
  s ← get_db;
  codeCopy ← lift (getDataBig (GetCode s (BigToAddress a)) codeOffset length_);
  mem_set (Uint64 memOffset) (Uint64 length_) codeCopy;;
  ret_nil.

Definition opExtCodeHash : executionFunc := fun _ =>
  slot ← peek; s ← get_db; set_top (HashBig (GetCodeHash s (BigToAddress slot)));; ret_nil.

Definition opGasprice : executionFunc := fun _ => v ← lift GasPrice; push v;; ret_nil.

Definition opBlockhash : executionFunc := fun _ =>
  num ← pop;
  b ← lift BlockNumber;
  let n := b - 257 in
  (if (n <? num) && (num <? b) then push (HashBig (GetHash (Uint64 num))) else push 0);;
  ret_nil.

Definition opCoinbase : executionFunc := fun _ => push (AddressBig Coinbase);; ret_nil.

Definition opTimestamp : executionFunc := fun _ =>
  f ← get; push (U256 f.(evm).(Time));; ret_nil.

Definition opNumber : executionFunc := fun _ => v ← lift BlockNumber; push (U256 v);; ret_nil.
Definition opDifficulty : executionFunc := fun _ => v ← lift Difficulty; push (U256 v);; ret_nil.
Definition opGasLimit : executionFunc := fun _ => push (U256 GasLimit);; ret_nil.

(** ** Stack, memory, storage and control flow *)
Definition opPop : executionFunc := fun _ => pop;; ret_nil.

Definition opMload : executionFunc := fun _ =>
  offset ← pop;
  f ← get;
  d ← lift (Mem.Get f.(memory) (Int64 offset) 32);
  push (SetBytes d);; ret_nil.

Definition opMstore : executionFunc := fun _ =>
  mStart ← pop; val ← pop;
  f ← get;
  put_memory (Mem.Set32 f.(memory) (Uint64 mStart) val);;
  ret_nil.

Definition opMstore8 : executionFunc := fun _ =>
  off ← pop; val ← pop;
  f ← get;
  (let off := Int64 off in
   if (0 <=? off) && (off <? Mem.Len f.(memory)) then
     put_memory (Some (Mem.set_store f.(memory)
       (<[Z.to_nat off := u8 (Z.land (Int64 val) 0xff)]> f.(memory).(store))))
   else panic);;
  ret_nil.

Definition opSload : executionFunc := fun _ =>
  loc ← peek; s ← get_db; c ← get_contract;
  set_top (HashBig (GetState s (Address c) (BigToHash loc)));; ret_nil.

Definition opSstore : executionFunc := fun _ =>
  l ← pop; val ← pop; s ← get_db; c ← get_contract;
  put_db (SetState s (Address c) (BigToHash l) (BigToHash val));; ret_nil.

(** [contract.jumpdests.has]: the shared map may grow. *)
Definition check_dest (pos : Z) : M bool := fun f =>
  match has f.(evm).(jumpdests) f.(contract).(CodeHash) f.(contract).(Code) pos with
  | Some (d, b) => Ret (set_evm f (set_jumpdests f.(evm) d), b)
  | None => Panic
  end.

Definition opJump : executionFunc := fun _ =>
  pos ← pop;
  ok ← check_dest pos;
  if negb ok then
    c ← get_contract;
    mret ([], Some (errInvalidJump (GetOp c (Uint64 pos)) pos))
  else put_pc (Uint64 pos);; ret_nil.

Definition opJumpi : executionFunc := fun _ =>
  pos ← pop; cond ← pop;
  if negb (cond =? 0) then
    ok ← check_dest pos;
    if negb ok then
      c ← get_contract;
      mret ([], Some (errInvalidJump (GetOp c (Uint64 pos)) pos))
    else put_pc (Uint64 pos);; ret_nil
  else f ← get; put_pc (u64 (f.(pc) + 1));; ret_nil.

Definition opJumpdest : executionFunc := fun _ => ret_nil.

Definition opPc : executionFunc := fun _ => f ← get; push f.(pc);; ret_nil.
Definition opMsize : executionFunc := fun _ => f ← get; push (Mem.Len f.(memory));; ret_nil.
Definition opGas : executionFunc := fun _ => c ← get_contract; push c.(Gas);; ret_nil.

(** ** Calls *)
Definition use_gas_all (gas : Z) : M unit := fun f =>
  match UseGas f.(contract) gas with
  | Some c => Ret (set_contract f c, tt)
  | None => Ret (f, tt)
  end.

Definition add_gas (g : Z) : M unit := fun f =>
  Ret (set_contract f (set_Gas f.(contract) (u64 (f.(contract).(Gas) + g))), tt).

(** Runs a function of Calls.v on the machine of the frame. *)
Definition on_evm {A} (k : EVM db disk -> ContractRef -> outcome nofuel (EVM db disk * A)) : M A :=
  fun f => '(e, a) ← k f.(evm) (ptr f.(contract)); Ret (set_evm f e, a).

Definition opCreate : executionFunc := fun run =>
  value ← pop; offset ← pop; size ← pop;
  input ← mem_get offset size;
  c ← get_contract;
  let gas := c.(Gas) in
  let gas := if IsEIP150 chainConfig BlockNumber then u64 (gas - gas / 64) else gas in
  use_gas_all gas;;
  '(res, addr, returnGas, suberr) ← on_evm (fun e me => Create run e me input gas value);
  (if IsHomestead chainConfig BlockNumber && bool_decide (suberr = Some ErrCodeStoreOutOfGas)
   then push 0
   else if bool_decide (is_Some suberr) && negb (bool_decide (suberr = Some ErrCodeStoreOutOfGas))
   then push 0
   else push (AddressBig addr));;
  add_gas returnGas;;
  if decide (suberr = Some ErrExecutionReverted) then mret (res, None) else ret_nil.

Definition opCreate2 : executionFunc := fun run =>
  endowment ← pop; offset ← pop; size ← pop; salt ← pop;
  input ← mem_get offset size;
  c ← get_contract;
  let gas := c.(Gas) in
  let gas := u64 (gas - gas / 64) in
  use_gas_all gas;;
  '(res, addr, returnGas, suberr) ← on_evm (fun e me => Create2 run e me input gas endowment salt);
  (if bool_decide (is_Some suberr) then push 0 else push (AddressBig addr));;
  add_gas returnGas;;
  if decide (suberr = Some ErrExecutionReverted) then mret (res, None) else ret_nil.

(** The end the four call instructions share: the success flag, the returned
    bytes to memory and the unused gas back. *)
Definition finish_call (retOffset retSize : Z) (r : list Z * Z * option vm_error) : op_fun :=
  let '(ret, returnGas, err) := r in
  (match err with Some _ => push 0 | None => push 1 end);;
  (if bool_decide (err = None \/ err = Some ErrExecutionReverted)
   then mem_set (Uint64 retOffset) (Uint64 retSize) ret else mret tt);;
  add_gas returnGas;;
  mret (ret, None).

Definition get_callGasTemp : M Z := f ← get; mret f.(evm).(callGasTemp).

(** The state of the callee is loaded from disk for the time of the call and
    committed back; the caller's state is put back afterwards.  A nil helper,
    or one that cannot load the callee, is a nil dereference. *)
Definition opCall : executionFunc := fun run =>
  pop;;
  gas ← get_callGasTemp;
  addr ← pop; value ← pop; inOffset ← pop; inSize ← pop; retOffset ← pop; retSize ← pop;
  let toAddr := BigToAddress addr in
  let value := U256 value in
  args ← mem_get inOffset inSize;
  f ← get;
  let prevEthDB := f.(evm).(evm_StateDB) in
  h ← lift f.(evm).(evm_Helper);
  newState ← lift (NewEthStateLoader h toAddr);
  put_db newState;;
  let gas := if negb (value =? 0) then u64 (gas + Params.CallStipend) else gas in
  r ← on_evm (fun e me => Call run e me toAddr args gas value);
  f ← get;
  h ← lift f.(evm).(evm_Helper);
  put (set_evm f (set_Helper f.(evm) (Some (CommitState h toAddr f.(evm).(evm_StateDB)))));;
  put_db prevEthDB;;
  finish_call retOffset retSize r.

Definition opCallCode : executionFunc := fun run =>
  pop;;
  gas ← get_callGasTemp;
  addr ← pop; value ← pop; inOffset ← pop; inSize ← pop; retOffset ← pop; retSize ← pop;
  let toAddr := BigToAddress addr in
  let value := U256 value in
  args ← mem_get inOffset inSize;
  let gas := if negb (value =? 0) then u64 (gas + Params.CallStipend) else gas in
  r ← on_evm (fun e me => CallCode run e me toAddr args gas value);
  finish_call retOffset retSize r.

Definition opDelegateCall : executionFunc := fun run =>
  pop;;
  gas ← get_callGasTemp;
  addr ← pop; inOffset ← pop; inSize ← pop; retOffset ← pop; retSize ← pop;
  let toAddr := BigToAddress addr in
  args ← mem_get inOffset inSize;
  r ← on_evm (fun e me => DelegateCall run e me toAddr args gas);
  finish_call retOffset retSize r.

Definition opStaticCall : executionFunc := fun run =>
  pop;;
  gas ← get_callGasTemp;
  addr ← pop; inOffset ← pop; inSize ← pop; retOffset ← pop; retSize ← pop;
  let toAddr := BigToAddress addr in
  args ← mem_get inOffset inSize;
  r ← on_evm (fun e me => StaticCall run e me toAddr args gas);
  finish_call retOffset retSize r.

(** ** Halting *)
Definition opReturn : executionFunc := fun _ =>
  offset ← pop; size ← pop; f ← get;
  r ← lift (Mem.GetPtr f.(memory) (Int64 offset) (Int64 size));
  mret (r, None).

Definition opRevert : executionFunc := fun _ =>
  offset ← pop; size ← pop; f ← get;
  r ← lift (Mem.GetPtr f.(memory) (Int64 offset) (Int64 size));
  mret (r, None).

Definition opStop : executionFunc := fun _ => ret_nil.

Definition opSuicide : executionFunc := fun _ =>
  s ← get_db; c ← get_contract;
  let balance := GetBalance s (Address c) in
  a ← pop;
  let s := AddBalance s (BigToAddress a) balance in
  put_db (SuicideAccount s (Address c)).1;;
  ret_nil.

(** ** Families *)
Fixpoint pop_n (n : nat) : M (list Z) :=
  match n with
  | O => mret []
  | S n' => x ← pop; xs ← pop_n n'; mret (x :: xs)
  end.

Definition makeLog (size : nat) : executionFunc := fun _ =>
  mStart ← pop; mSize ← pop;
  topics ← pop_n size;
  d ← mem_get mStart mSize;
  c ← get_contract; s ← get_db;
  b ← lift BlockNumber;
  put_db (AddLog s {| LogAddress := Address c; Topics := BigToHash <$> topics; LogData := d;
                      LogBlockNumber := Uint64 b |});;
  ret_nil.

Definition makePush (size : Z) (pushByteSize : Z) : executionFunc := fun _ =>
  f ← get;
  let codeLen := Z.of_nat (length f.(contract).(Code)) in
  let next := i64 (u64 (f.(pc) + 1)) in
  let startMin := if next <? codeLen then next else codeLen in
  let endMin := if startMin + pushByteSize <? codeLen then startMin + pushByteSize else codeLen in
  d ← lift (slice f.(contract).(Code) startMin endMin);
  push (SetBytes (RightPadBytes d pushByteSize));;
  put_pc (u64 (f.(pc) + size));;
  ret_nil.

Definition makeDup (size : nat) : executionFunc := fun _ => dup size;; ret_nil.

(** [size++] first: otherwise n would be swapped with n. *)
Definition makeSwap (size : nat) : executionFunc := fun _ => swap (size + 1);; ret_nil.

End Instructions.
