(* ===== verification/JumpTable.v ===== *)
(** * The instruction table

    dvm/ethereum/vm/jump_table.go: the operation of each opcode in the four
    releases.  [entry] is the composite literal with [valid: true] and no other
    flag; the arrows set the flags the literal sets.  A Go array indexed by a
    byte is a function on opcodes. *)
From Stdlib Require Import ZArith Lia.
From S2P Require Import Prelude Word Config OpCodes Analysis Machine Gas Calls Instructions.
Import Op.
Open Scope Z_scope.

Section JumpTable.
Context {db disk : Type} {SDB : StateDB db} {QH : VMStateQueryHelper db disk} {CR : Crypto} {EN : Env}.
Abbreviation operation := (operation db disk).

Definition entry (execute : executionFunc db disk) (gasCost : gasFunc db disk)
    (validateStack : stackValidationFunc) (memorySize : option memorySizeFunc) : operation :=
  {| Machine.execute := execute; Machine.gasCost := gasCost;
     Machine.validateStack := validateStack; Machine.memorySize := memorySize;
     halts := false; jumps := false; writes := false; valid := true; reverts := false;
     returns := false |}.

(** The zero value of the array's elements. *)
Definition zero_operation : operation :=
  {| execute := fun _ => panic; gasCost := fun _ _ => panic; validateStack := fun _ => None;
     memorySize := None; halts := false; jumps := false; writes := false; valid := false;
     reverts := false; returns := false |}.

Definition set_halts (o : operation) : operation :=
  {| execute := o.(execute); gasCost := o.(gasCost); validateStack := o.(validateStack);
     memorySize := o.(memorySize); halts := true; jumps := o.(jumps); writes := o.(writes); valid := o.(valid); reverts := o.(reverts); returns := o.(returns) |}.
Definition set_jumps (o : operation) : operation :=
  {| execute := o.(execute); gasCost := o.(gasCost); validateStack := o.(validateStack);
     memorySize := o.(memorySize); halts := o.(halts); jumps := true; writes := o.(writes); valid := o.(valid); reverts := o.(reverts); returns := o.(returns) |}.
Definition set_writes (o : operation) : operation :=
  {| execute := o.(execute); gasCost := o.(gasCost); validateStack := o.(validateStack);
     memorySize := o.(memorySize); halts := o.(halts); jumps := o.(jumps); writes := true; valid := o.(valid); reverts := o.(reverts); returns := o.(returns) |}.
Definition set_reverts (o : operation) : operation :=
  {| execute := o.(execute); gasCost := o.(gasCost); validateStack := o.(validateStack);
     memorySize := o.(memorySize); halts := o.(halts); jumps := o.(jumps); writes := o.(writes); valid := o.(valid); reverts := true; returns := o.(returns) |}.
Definition set_returns (o : operation) : operation :=
  {| execute := o.(execute); gasCost := o.(gasCost); validateStack := o.(validateStack);
     memorySize := o.(memorySize); halts := o.(halts); jumps := o.(jumps); writes := o.(writes); valid := o.(valid); reverts := o.(reverts); returns := true |}.

Notation "o |> f" := (f o) (at level 61, left associativity, only parsing).

Definition frontier_arithmetic : list (Z * operation) := [
  (STOP, entry opStop (constGasFunc 0) (makeStackFunc 0 0) None |> set_halts);
  (ADD, entry opAdd (constGasFunc GasFastestStep) (makeStackFunc 2 1) None);
  (MUL, entry opMul (constGasFunc GasFastStep) (makeStackFunc 2 1) None);
  (SUB, entry opSub (constGasFunc GasFastestStep) (makeStackFunc 2 1) None);
  (DIV, entry opDiv (constGasFunc GasFastStep) (makeStackFunc 2 1) None);
  (SDIV, entry opSdiv (constGasFunc GasFastStep) (makeStackFunc 2 1) None);
  (MOD, entry opMod (constGasFunc GasFastStep) (makeStackFunc 2 1) None);
  (SMOD, entry opSmod (constGasFunc GasFastStep) (makeStackFunc 2 1) None);
  (ADDMOD, entry opAddmod (constGasFunc GasMidStep) (makeStackFunc 3 1) None);
  (MULMOD, entry opMulmod (constGasFunc GasMidStep) (makeStackFunc 3 1) None);
  (EXP, entry opExp gasExp (makeStackFunc 2 1) None);
  (SIGNEXTEND, entry opSignExtend (constGasFunc GasFastStep) (makeStackFunc 2 1) None);
  (LT, entry opLt (constGasFunc GasFastestStep) (makeStackFunc 2 1) None);
  (GT, entry opGt (constGasFunc GasFastestStep) (makeStackFunc 2 1) None);
  (SLT, entry opSlt (constGasFunc GasFastestStep) (makeStackFunc 2 1) None);
  (SGT, entry opSgt (constGasFunc GasFastestStep) (makeStackFunc 2 1) None);
  (EQ, entry opEq (constGasFunc GasFastestStep) (makeStackFunc 2 1) None);
  (ISZERO, entry opIszero (constGasFunc GasFastestStep) (makeStackFunc 1 1) None);
  (AND, entry opAnd (constGasFunc GasFastestStep) (makeStackFunc 2 1) None);
  (XOR, entry opXor (constGasFunc GasFastestStep) (makeStackFunc 2 1) None);
  (OR, entry opOr (constGasFunc GasFastestStep) (makeStackFunc 2 1) None);
  (NOT, entry opNot (constGasFunc GasFastestStep) (makeStackFunc 1 1) None);
  (BYTE, entry opByte (constGasFunc GasFastestStep) (makeStackFunc 2 1) None)].

Definition frontier_environment : list (Z * operation) := [
  (SHA3, entry opSha3 gasSha3 (makeStackFunc 2 1) (Some memorySha3));
  (ADDRESS, entry opAddress (constGasFunc GasQuickStep) (makeStackFunc 0 1) None);
  (BALANCE, entry opBalance gasBalance (makeStackFunc 1 1) None);
  (ORIGIN, entry opOrigin (constGasFunc GasQuickStep) (makeStackFunc 0 1) None);
  (CALLER, entry opCaller (constGasFunc GasQuickStep) (makeStackFunc 0 1) None);
  (CALLVALUE, entry opCallValue (constGasFunc GasQuickStep) (makeStackFunc 0 1) None);
  (CALLDATALOAD, entry opCallDataLoad (constGasFunc GasFastestStep) (makeStackFunc 1 1) None);
  (CALLDATASIZE, entry opCallDataSize (constGasFunc GasQuickStep) (makeStackFunc 0 1) None);
  (CALLDATACOPY, entry opCallDataCopy gasCallDataCopy (makeStackFunc 3 0) (Some memoryCallDataCopy));
  (CODESIZE, entry opCodeSize (constGasFunc GasQuickStep) (makeStackFunc 0 1) None);
  (CODECOPY, entry opCodeCopy gasCodeCopy (makeStackFunc 3 0) (Some memoryCodeCopy));
  (GASPRICE, entry opGasprice (constGasFunc GasQuickStep) (makeStackFunc 0 1) None);
  (EXTCODESIZE, entry opExtCodeSize gasExtCodeSize (makeStackFunc 1 1) None);
  (EXTCODECOPY, entry opExtCodeCopy gasExtCodeCopy (makeStackFunc 4 0) (Some memoryExtCodeCopy));
  (BLOCKHASH, entry opBlockhash (constGasFunc GasExtStep) (makeStackFunc 1 1) None);
  (COINBASE, entry opCoinbase (constGasFunc GasQuickStep) (makeStackFunc 0 1) None);
  (TIMESTAMP, entry opTimestamp (constGasFunc GasQuickStep) (makeStackFunc 0 1) None);
  (NUMBER, entry opNumber (constGasFunc GasQuickStep) (makeStackFunc 0 1) None);
  (DIFFICULTY, entry opDifficulty (constGasFunc GasQuickStep) (makeStackFunc 0 1) None);
  (GASLIMIT, entry opGasLimit (constGasFunc GasQuickStep) (makeStackFunc 0 1) None)].

Definition frontier_storage : list (Z * operation) := [
  (POP, entry opPop (constGasFunc GasQuickStep) (makeStackFunc 1 0) None);
  (MLOAD, entry opMload gasMLoad (makeStackFunc 1 1) (Some memoryMLoad));
  (MSTORE, entry opMstore gasMStore (makeStackFunc 2 0) (Some memoryMStore));
  (MSTORE8, entry opMstore8 gasMStore8 (makeStackFunc 2 0) (Some memoryMStore8));
  (SLOAD, entry opSload gasSLoad (makeStackFunc 1 1) None);
  (SSTORE, entry opSstore gasSStore (makeStackFunc 2 0) None |> set_writes);
  (JUMP, entry opJump (constGasFunc GasMidStep) (makeStackFunc 1 0) None |> set_jumps);
  (JUMPI, entry opJumpi (constGasFunc GasSlowStep) (makeStackFunc 2 0) None |> set_jumps);
  (PC, entry opPc (constGasFunc GasQuickStep) (makeStackFunc 0 1) None);
  (MSIZE, entry opMsize (constGasFunc GasQuickStep) (makeStackFunc 0 1) None);
  (GAS, entry opGas (constGasFunc GasQuickStep) (makeStackFunc 0 1) None);
  (JUMPDEST, entry opJumpdest (constGasFunc Params.JumpdestGas) (makeStackFunc 0 0) None)].

Definition frontier_push_low : list (Z * operation) := [
  (PUSH1, entry (makePush 1 1) gasPush (makeStackFunc 0 1) None);
  (PUSH2, entry (makePush 2 2) gasPush (makeStackFunc 0 1) None);
  (PUSH3, entry (makePush 3 3) gasPush (makeStackFunc 0 1) None);
  (PUSH4, entry (makePush 4 4) gasPush (makeStackFunc 0 1) None);
  (PUSH5, entry (makePush 5 5) gasPush (makeStackFunc 0 1) None);
  (PUSH6, entry (makePush 6 6) gasPush (makeStackFunc 0 1) None);
  (PUSH7, entry (makePush 7 7) gasPush (makeStackFunc 0 1) None);
  (PUSH8, entry (makePush 8 8) gasPush (makeStackFunc 0 1) None);
  (PUSH9, entry (makePush 9 9) gasPush (makeStackFunc 0 1) None);
  (PUSH10, entry (makePush 10 10) gasPush (makeStackFunc 0 1) None);
  (PUSH11, entry (makePush 11 11) gasPush (makeStackFunc 0 1) None);
  (PUSH12, entry (makePush 12 12) gasPush (makeStackFunc 0 1) None);
  (PUSH13, entry (makePush 13 13) gasPush (makeStackFunc 0 1) None);
  (PUSH14, entry (makePush 14 14) gasPush (makeStackFunc 0 1) None);
  (PUSH15, entry (makePush 15 15) gasPush (makeStackFunc 0 1) None);
  (PUSH16, entry (makePush 16 16) gasPush (makeStackFunc 0 1) None)].

Definition frontier_push_high : list (Z * operation) := [
  (PUSH17, entry (makePush 17 17) gasPush (makeStackFunc 0 1) None);
  (PUSH18, entry (makePush 18 18) gasPush (makeStackFunc 0 1) None);
  (PUSH19, entry (makePush 19 19) gasPush (makeStackFunc 0 1) None);
  (PUSH20, entry (makePush 20 20) gasPush (makeStackFunc 0 1) None);
  (PUSH21, entry (makePush 21 21) gasPush (makeStackFunc 0 1) None);
  (PUSH22, entry (makePush 22 22) gasPush (makeStackFunc 0 1) None);
  (PUSH23, entry (makePush 23 23) gasPush (makeStackFunc 0 1) None);
  (PUSH24, entry (makePush 24 24) gasPush (makeStackFunc 0 1) None);
  (PUSH25, entry (makePush 25 25) gasPush (makeStackFunc 0 1) None);
  (PUSH26, entry (makePush 26 26) gasPush (makeStackFunc 0 1) None);
  (PUSH27, entry (makePush 27 27) gasPush (makeStackFunc 0 1) None);
  (PUSH28, entry (makePush 28 28) gasPush (makeStackFunc 0 1) None);
  (PUSH29, entry (makePush 29 29) gasPush (makeStackFunc 0 1) None);
  (PUSH30, entry (makePush 30 30) gasPush (makeStackFunc 0 1) None);
  (PUSH31, entry (makePush 31 31) gasPush (makeStackFunc 0 1) None);
  (PUSH32, entry (makePush 32 32) gasPush (makeStackFunc 0 1) None)].

Definition frontier_dup : list (Z * operation) := [
  (DUP1, entry (makeDup 1%nat) gasDup (makeDupStackFunc 1) None);
  (DUP2, entry (makeDup 2%nat) gasDup (makeDupStackFunc 2) None);
  (DUP3, entry (makeDup 3%nat) gasDup (makeDupStackFunc 3) None);
  (DUP4, entry (makeDup 4%nat) gasDup (makeDupStackFunc 4) None);
  (DUP5, entry (makeDup 5%nat) gasDup (makeDupStackFunc 5) None);
  (DUP6, entry (makeDup 6%nat) gasDup (makeDupStackFunc 6) None);
  (DUP7, entry (makeDup 7%nat) gasDup (makeDupStackFunc 7) None);
  (DUP8, entry (makeDup 8%nat) gasDup (makeDupStackFunc 8) None);
  (DUP9, entry (makeDup 9%nat) gasDup (makeDupStackFunc 9) None);
  (DUP10, entry (makeDup 10%nat) gasDup (makeDupStackFunc 10) None);
  (DUP11, entry (makeDup 11%nat) gasDup (makeDupStackFunc 11) None);
  (DUP12, entry (makeDup 12%nat) gasDup (makeDupStackFunc 12) None);
  (DUP13, entry (makeDup 13%nat) gasDup (makeDupStackFunc 13) None);
  (DUP14, entry (makeDup 14%nat) gasDup (makeDupStackFunc 14) None);
  (DUP15, entry (makeDup 15%nat) gasDup (makeDupStackFunc 15) None);
  (DUP16, entry (makeDup 16%nat) gasDup (makeDupStackFunc 16) None)].

Definition frontier_swap : list (Z * operation) := [
  (SWAP1, entry (makeSwap 1%nat) gasSwap (makeSwapStackFunc 2) None);
  (SWAP2, entry (makeSwap 2%nat) gasSwap (makeSwapStackFunc 3) None);
  (SWAP3, entry (makeSwap 3%nat) gasSwap (makeSwapStackFunc 4) None);
  (SWAP4, entry (makeSwap 4%nat) gasSwap (makeSwapStackFunc 5) None);
  (SWAP5, entry (makeSwap 5%nat) gasSwap (makeSwapStackFunc 6) None);
  (SWAP6, entry (makeSwap 6%nat) gasSwap (makeSwapStackFunc 7) None);
  (SWAP7, entry (makeSwap 7%nat) gasSwap (makeSwapStackFunc 8) None);
  (SWAP8, entry (makeSwap 8%nat) gasSwap (makeSwapStackFunc 9) None);
  (SWAP9, entry (makeSwap 9%nat) gasSwap (makeSwapStackFunc 10) None);
  (SWAP10, entry (makeSwap 10%nat) gasSwap (makeSwapStackFunc 11) None);
  (SWAP11, entry (makeSwap 11%nat) gasSwap (makeSwapStackFunc 12) None);
  (SWAP12, entry (makeSwap 12%nat) gasSwap (makeSwapStackFunc 13) None);
  (SWAP13, entry (makeSwap 13%nat) gasSwap (makeSwapStackFunc 14) None);
  (SWAP14, entry (makeSwap 14%nat) gasSwap (makeSwapStackFunc 15) None);
  (SWAP15, entry (makeSwap 15%nat) gasSwap (makeSwapStackFunc 16) None);
  (SWAP16, entry (makeSwap 16%nat) gasSwap (makeSwapStackFunc 17) None)].

Definition frontier_system : list (Z * operation) := [
  (LOG0, entry (makeLog 0%nat) (makeGasLog 0) (makeStackFunc 2 0) (Some memoryLog) |> set_writes);
  (LOG1, entry (makeLog 1%nat) (makeGasLog 1) (makeStackFunc 3 0) (Some memoryLog) |> set_writes);
  (LOG2, entry (makeLog 2%nat) (makeGasLog 2) (makeStackFunc 4 0) (Some memoryLog) |> set_writes);
  (LOG3, entry (makeLog 3%nat) (makeGasLog 3) (makeStackFunc 5 0) (Some memoryLog) |> set_writes);
  (LOG4, entry (makeLog 4%nat) (makeGasLog 4) (makeStackFunc 6 0) (Some memoryLog) |> set_writes);
  (CREATE, entry opCreate gasCreate (makeStackFunc 3 1) (Some memoryCreate) |> set_writes |> set_returns);
  (CALL, entry opCall gasCall (makeStackFunc 7 1) (Some memoryCall) |> set_returns);
  (CALLCODE, entry opCallCode gasCallCode (makeStackFunc 7 1) (Some memoryCall) |> set_returns);
  (RETURN, entry opReturn gasReturn (makeStackFunc 2 0) (Some memoryReturn) |> set_halts);
  (SELFDESTRUCT, entry opSuicide gasSuicide (makeStackFunc 1 0) None |> set_halts |> set_writes)].

(** An array literal, and the assignment [instructionSet[op] = operation]. *)
Definition upd (t : Z -> operation) (op : Z) (o : operation) : Z -> operation :=
  fun k => if k =? op then o else t k.

Definition array_of_list (l : list (Z * operation)) : Z -> operation :=
  foldr (fun p t => upd t p.1 p.2) (fun _ => zero_operation) l.

Definition newFrontierInstructionSet : Z -> operation :=
  array_of_list (frontier_arithmetic ++ frontier_environment ++ frontier_storage ++
    frontier_push_low ++ frontier_push_high ++ frontier_dup ++ frontier_swap ++ frontier_system).

Definition newHomesteadInstructionSet : Z -> operation :=
  upd newFrontierInstructionSet DELEGATECALL
    (entry opDelegateCall gasDelegateCall (makeStackFunc 6 1) (Some memoryDelegateCall)
      |> set_returns).

Definition newByzantiumInstructionSet : Z -> operation :=
  let instructionSet := newHomesteadInstructionSet in
  let instructionSet := upd instructionSet STATICCALL
    (entry opStaticCall gasStaticCall (makeStackFunc 6 1) (Some memoryStaticCall)
      |> set_returns) in
  let instructionSet := upd instructionSet RETURNDATASIZE
    (entry opReturnDataSize (constGasFunc GasQuickStep) (makeStackFunc 0 1) None) in
  let instructionSet := upd instructionSet RETURNDATACOPY
    (entry opReturnDataCopy gasReturnDataCopy (makeStackFunc 3 0) (Some memoryReturnDataCopy)) in
  upd instructionSet REVERT
    (entry opRevert gasRevert (makeStackFunc 2 0) (Some memoryRevert)
      |> set_reverts |> set_returns).

Definition newConstantinopleInstructionSet : Z -> operation :=
  let instructionSet := newByzantiumInstructionSet in
  let instructionSet := upd instructionSet SHL
    (entry opSHL (constGasFunc GasFastestStep) (makeStackFunc 2 1) None) in
  let instructionSet := upd instructionSet SHR
    (entry opSHR (constGasFunc GasFastestStep) (makeStackFunc 2 1) None) in
  let instructionSet := upd instructionSet SAR
    (entry opSAR (constGasFunc GasFastestStep) (makeStackFunc 2 1) None) in
  let instructionSet := upd instructionSet EXTCODEHASH
    (entry opExtCodeHash gasExtCodeHash (makeStackFunc 1 1) None) in
  upd instructionSet CREATE2
    (entry opCreate2 gasCreate2 (makeStackFunc 4 1) (Some memoryCreate2)
      |> set_writes |> set_returns).

End JumpTable.
