(* ===== verification/Precompiles.v ===== *)
(** * Precompiled contracts

    dvm/ethereum/vm/contracts.go: the eight native contracts, their gas and
    their input handling.  The primitives they call (public key recovery,
    SHA-256, RIPEMD-160, the bn256 curve) are parameters. *)
From Stdlib Require Import ZArith Lia.
From S2P Require Import Prelude Word Config OpCodes Analysis Machine Gas Calls.
Import Big.
Open Scope Z_scope.

(** The curve points are abstract; unmarshalling may fail. *)
Class PrecompileLib := {
  RecoverPubkey : list Z -> list Z -> option (list Z);
  Sum256 : list Z -> list Z;
  Ripemd160 : list Z -> list Z;
  G1 : Type;
  G2 : Type;
  G1_Unmarshal : list Z -> option G1;
  G2_Unmarshal : list Z -> option G2;
  G1_Marshal : G1 -> list Z;
  G1_Add : G1 -> G1 -> G1;
  G1_ScalarMult : G1 -> Z -> G1;
  PairingCheck : list G1 -> list G2 -> bool
}.

(** commons/crypto/crypto.go *)
Definition secp256k1_N : Z := 0xfffffffffffffffffffffffffffffffebaaedce6af48a03bbfd25e8cd0364141.
Definition secp256k1_halfN : Z := Div secp256k1_N 2.

Definition ValidateSignatureValues (v r s : Z) (homestead : bool) : bool :=
  if (r <? 1) || (s <? 1) then false
  else if homestead && (secp256k1_halfN <? s) then false
  else (r <? secp256k1_N) && (s <? secp256k1_N) && ((v =? 0) || (v =? 1)).

(** [x.Exp(x, y, m)] of math/big for [y >= 0] and [m] not zero. *)
Definition ExpMod (x y m : Z) : Z := x ^ y mod Z.abs m.

(** A native contract: the gas and the run; a [Panic] is an index out of range. *)
Record PrecompiledContract := {
  RequiredGas : list Z -> outcome nofuel Z;
  RunNative : list Z -> outcome nofuel ret
}.

Section Contracts.
Context `{!Crypto} `{!PrecompileLib}.

Definition ecrecover : PrecompiledContract := {|
  RequiredGas := fun _ => Ret Params.EcrecoverGas;
  RunNative := fun input =>
    let input := RightPadBytes input 128 in
    rb ← or_panic (slice input 64 96);
    sb ← or_panic (slice input 96 128);
    v ← or_panic (input !! 63%nat);
    zeros ← or_panic (slice input 32 63);
    let r := SetBytes rb in
    let s := SetBytes sb in
    let v := u8 (v - 27) in
    if negb (allZero zeros) || negb (ValidateSignatureValues v r s false) then Ret ([], None)
    else
      h ← or_panic (slice input 0 32);
      rs ← or_panic (slice input 64 128);
      match RecoverPubkey h (rs ++ [v]) with
      | None => Ret ([], None)
      | Some pubKey =>
          let hash := be_bytes HashLength (NewHash (drop 1 pubKey)) in
          Ret (LeftPadBytes (drop 12 hash) 32, None)
      end |}.

(** The gas of the hash and copy contracts is linear in the input words. *)
Definition words_gas (input : list Z) (perWord base : Z) : Z :=
  u64 (u64 (u64 (Z.of_nat (length input) + 31) / 32 * perWord) + base).

Definition sha256hash : PrecompiledContract := {|
  RequiredGas := fun input =>
    Ret (words_gas input Params.Sha256PerWordGas Params.Sha256BaseGas);
  RunNative := fun input => Ret (Sum256 input, None) |}.

Definition ripemd160hash : PrecompiledContract := {|
  RequiredGas := fun input =>
    Ret (words_gas input Params.Ripemd160PerWordGas Params.Ripemd160BaseGas);
  RunNative := fun input => Ret (LeftPadBytes (Ripemd160 input) 32, None) |}.

Definition dataCopy : PrecompiledContract := {|
  RequiredGas := fun input =>
    Ret (words_gas input Params.IdentityPerWordGas Params.IdentityBaseGas);
  RunNative := fun input => Ret (input, None) |}.

(** [input[96:]], or nothing when the input is shorter. *)
Definition modexp_body (input : list Z) : list Z :=
  if 96 <? Z.of_nat (length input) then drop 96 input else [].

Definition modexp_RequiredGas (input : list Z) : outcome nofuel Z :=
  bl ← or_panic (getData input 0 32);
  el ← or_panic (getData input 32 32);
  ml ← or_panic (getData input 64 32);
  let baseLen := SetBytes bl in
  let expLen := SetBytes el in
  let modLen := SetBytes ml in
  let input := modexp_body input in
  expHead ←
    (if Z.of_nat (length input) <=? baseLen then Ret 0
     else
       d ← or_panic (getData input (Uint64 baseLen)
                       (if 32 <? expLen then 32 else Uint64 expLen));
       Ret (SetBytes d));
  let bitlen := BitLen expHead in
  let msb := if 0 <? bitlen then bitlen - 1 else 0 in
  let adjExpLen := if 32 <? expLen then 8 * (expLen - 32) else 0 in
  let adjExpLen := adjExpLen + msb in
  let gas := BigMax modLen baseLen in
  let gas :=
    if gas <=? 64 then gas * gas
    else if gas <=? 1024 then Div (gas * gas) 4 + (96 * gas - 3072)
    else Div (gas * gas) 16 + (480 * gas - 199680) in
  let gas := gas * BigMax adjExpLen 1 in
  let gas := Div gas Params.ModExpQuadCoeffDiv in
  Ret (if 64 <? BitLen gas then MaxUint64 else Uint64 gas).

Definition modexp_Run (input : list Z) : outcome nofuel ret :=
  bl ← or_panic (getData input 0 32);
  el ← or_panic (getData input 32 32);
  ml ← or_panic (getData input 64 32);
  let baseLen := Uint64 (SetBytes bl) in
  let expLen := Uint64 (SetBytes el) in
  let modLen := Uint64 (SetBytes ml) in
  let input := modexp_body input in
  if (baseLen =? 0) && (modLen =? 0) then Ret ([], None)
  else
    b ← or_panic (getData input 0 baseLen);
    e ← or_panic (getData input baseLen expLen);
    m ← or_panic (getData input (u64 (baseLen + expLen)) modLen);
    let base := SetBytes b in
    let exp := SetBytes e in
    let mod_ := SetBytes m in
    if BitLen mod_ =? 0 then Ret (LeftPadBytes [] (i64 modLen), None)
    else Ret (LeftPadBytes (Bytes (ExpMod base exp mod_)) (i64 modLen), None).

Definition bigModExp : PrecompiledContract :=
  {| RequiredGas := modexp_RequiredGas; RunNative := modexp_Run |}.

Definition bn256Add : PrecompiledContract := {|
  RequiredGas := fun _ => Ret Params.Bn256AddGas;
  RunNative := fun input =>
    xb ← or_panic (getData input 0 64);
    match G1_Unmarshal xb with
    | None => Ret ([], Some errBadPoint)
    | Some x =>
        yb ← or_panic (getData input 64 64);
        match G1_Unmarshal yb with
        | None => Ret ([], Some errBadPoint)
        | Some y => Ret (G1_Marshal (G1_Add x y), None)
        end
    end |}.

Definition bn256ScalarMul : PrecompiledContract := {|
  RequiredGas := fun _ => Ret Params.Bn256ScalarMulGas;
  RunNative := fun input =>
    pb ← or_panic (getData input 0 64);
    match G1_Unmarshal pb with
    | None => Ret ([], Some errBadPoint)
    | Some p =>
        k ← or_panic (getData input 64 32);
        Ret (G1_Marshal (G1_ScalarMult p (SetBytes k)), None)
    end |}.

Definition true32Byte : list Z := replicate 31 0 ++ [1].
Definition false32Byte : list Z := replicate 32 0.

(** The loop over the 192-byte points; [n] turns remain from offset [i]. *)
Fixpoint pairing_points (n : nat) (input : list Z) (i : Z) (cs : list G1) (ts : list G2)
    : outcome nofuel (list G1 * list G2 + vm_error) :=
  match n with
  | O => Ret (inl (cs, ts))
  | S n' =>
      cb ← or_panic (slice input i (i + 64));
      match G1_Unmarshal cb with
      | None => Ret (inr errBadPoint)
      | Some c =>
          tb ← or_panic (slice input (i + 64) (i + 192));
          match G2_Unmarshal tb with
          | None => Ret (inr errBadPoint)
          | Some t => pairing_points n' input (i + 192) (cs ++ [c]) (ts ++ [t])
          end
      end
  end.

Definition bn256Pairing : PrecompiledContract := {|
  RequiredGas := fun input =>
    Ret (u64 (Params.Bn256PairingBaseGas +
              u64 (Z.of_nat (length input / 192) * Params.Bn256PairingPerPointGas)));
  RunNative := fun input =>
    if (0 <? length input mod 192)%nat then Ret ([], Some errBadPairingInput)
    else
      r ← pairing_points (length input / 192) input 0 [] [];
      match r with
      | inr e => Ret ([], Some e)
      | inl (cs, ts) => Ret (if PairingCheck cs ts then true32Byte else false32Byte, None)
      end |}.

(** The two maps of native contracts, by address. *)
Definition PrecompiledContractsHomestead (addr : AddressBytes) : option PrecompiledContract :=
  if addr =? 1 then Some ecrecover
  else if addr =? 2 then Some sha256hash
  else if addr =? 3 then Some ripemd160hash
  else if addr =? 4 then Some dataCopy
  else None.

Definition PrecompiledContractsByzantium (addr : AddressBytes) : option PrecompiledContract :=
  if addr =? 5 then Some bigModExp
  else if addr =? 6 then Some bn256Add
  else if addr =? 7 then Some bn256ScalarMul
  else if addr =? 8 then Some bn256Pairing
  else PrecompiledContractsHomestead addr.

Definition RunPrecompiledContract (p : PrecompiledContract) (input : list Z) (c : Contract)
    : outcome nofuel (Contract * ret) :=
  gas ← p.(RequiredGas) input;
  match UseGas c gas with
  | Some c => r ← p.(RunNative) input; Ret (c, r)
  | None => Ret (c, ([], Some ErrOutOfGas))
  end.

End Contracts.

(** The addresses Calls.v treats as precompiled are those of the maps. *)
Lemma is_precompile_spec `{!Crypto} `{!PrecompileLib} `{!Env} addr :
  is_precompile addr =
    bool_decide (is_Some ((if IsByzantium chainConfig BlockNumber
                           then PrecompiledContractsByzantium
                           else PrecompiledContractsHomestead) addr)).
Proof.
  unfold is_precompile, precompile_count, PrecompiledContractsByzantium,
    PrecompiledContractsHomestead.
  destruct (IsByzantium chainConfig BlockNumber);
    repeat match goal with |- context [addr =? ?k] => destruct (Z.eqb_spec addr k); [by subst|] end;
    rewrite bool_decide_eq_false_2 by (intros [? [=]]);
    apply andb_false_iff; rewrite !Z.leb_gt; lia.
Qed.
