(* ===== verification/Interpreter.v ===== *)
(** * The interpreter

    dvm/ethereum/vm/interpreter.go and the function [run] of evm.go: the loop
    that fetches, checks, charges and executes, and the recursion through the
    calls a contract makes.

    [interp] spends one unit of fuel per turn of the loop and hands what is
    left to the frames below, so it is structurally recursive; Execution.v
    proves that some fuel always suffices. *)
From Stdlib Require Import ZArith Lia.
From S2P Require Import Prelude Word Config OpCodes Analysis Machine Gas Calls Instructions.
From S2P Require Import JumpTable Precompiles.
Import Big Op.
Open Scope Z_scope.

Section Interpreter.
Context {db disk : Type} {SDB : StateDB db} {QH : VMStateQueryHelper db disk} {CR : Crypto}
  {PL : PrecompileLib} {EN : Env}.
Abbreviation EVM := (EVM db disk).
Abbreviation frame := (frame db disk).
Abbreviation M := (M db disk).
Abbreviation operation := (operation db disk).

(** [NewEVMInterpreter]: the table of the configuration is used when its STOP
    entry is set, otherwise the fork decides. *)
Definition NewEVMInterpreter (cfg_JumpTable : Z -> operation) : Z -> operation :=
  if negb (cfg_JumpTable STOP).(valid) then
    if IsConstantinople chainConfig BlockNumber then newConstantinopleInstructionSet
    else if IsByzantium chainConfig BlockNumber then newByzantiumInstructionSet
    else if IsHomestead chainConfig BlockNumber then newHomesteadInstructionSet
    else newFrontierInstructionSet
  else cfg_JumpTable.

Definition interpreter_gasTable : GasTable := gasTable chainConfig BlockNumber.

(** [NewEVM]: depth 0, not read-only, nothing returned yet. *)
Definition NewEVM (statedb : db) (helper : option disk) : EVM :=
  {| evm_StateDB := statedb; evm_Helper := helper; depth := 0; callGasTemp := 0;
     readOnly := false; returnData := []; jumpdests := ∅; Time := 0; Ticks := 0 |}.

(** In a read-only call the state may not change: no operation that writes and
    no CALL with a value, the third stack item. *)
Definition enforceRestrictions (ro : bool) (op : Z) (operation : operation) (s : list Z)
    : outcome nofuel (option vm_error) :=
  if (mkRules chainConfig BlockNumber).(rules_IsByzantium) then
    if ro then
      if operation.(writes) then Ret (Some errWriteProtection)
      else if op =? CALL then
        v ← or_panic (Back s 2);
        Ret (if 0 <? BitLen v then Some errWriteProtection else None)
      else Ret None
    else Ret None
  else Ret None.

(** The memory an operation needs, in bytes and rounded up to words. *)
Definition required_memory (operation : operation) (s : list Z)
    : outcome nofuel (Z + vm_error) :=
  match operation.(memorySize) with
  | None => Ret (inl 0)
  | Some msize =>
      sz ← or_panic (msize s);
      let '(memSize, overflow) := bigUint64 sz in
      if overflow : bool then Ret (inr errGasUintOverflow)
      else
        let '(memorySize, overflow) := SafeMul (toWordSize memSize) 32 in
        if overflow : bool then Ret (inr errGasUintOverflow) else Ret (inl memorySize)
  end.

(** The registers after an operation, and whether the loop goes on. *)
Definition conclude (operation : operation) (f : frame) (res : list Z) (err : option vm_error)
    : frame * option ret :=
  let f := if operation.(returns) then set_evm f (set_returnData f.(evm) res) else f in
  match err with
  | Some e => (f, Some ([], Some e))
  | None =>
      if operation.(reverts) then (f, Some (res, Some ErrExecutionReverted))
      else if operation.(halts) then (f, Some (res, None))
      else if negb operation.(jumps) then (set_pc f (u64 (f.(pc) + 1)), None)
      else (f, None)
  end.

(** Charging and executing, once the operation passed its checks. *)
Definition perform (run : recursor db disk) (operation : operation) (memorySize : Z) (f : frame)
    : outcome nofuel (frame * option ret) :=
  '(f, (cost, err)) ← operation.(gasCost) interpreter_gasTable memorySize f;
  match err, UseGas f.(contract) cost with
  | None, Some c =>
      let f := set_contract f c in
      let f := if 0 <? memorySize then set_memory f (Mem.Resize f.(memory) memorySize) else f in
      let f := set_evm f (set_clock f.(evm) (Now f.(evm).(Ticks)) f.(evm).(Ticks)) in
      '(f, (res, err)) ← operation.(execute) run f;
      Ret (conclude operation f res err)
  | _, _ => Ret (f, Some ([], Some ErrOutOfGas))
  end.

(** One turn of the loop of [Run]; [Some] result ends it. *)
Definition step (jt : Z -> operation) (run : recursor db disk) (f : frame)
    : outcome nofuel (frame * option ret) :=
  let n := f.(evm).(Ticks) in
  let f := set_evm f (set_clock f.(evm) f.(evm).(Time) (S n)) in
  if AbortAt n then Ret (f, Some ([], None))
  else
    let op := GetOp f.(contract) f.(pc) in
    let operation := jt op in
    if negb operation.(valid) then Ret (f, Some ([], Some (errInvalidOpcode op)))
    else
      match operation.(validateStack) f.(stack) with
      | Some e => Ret (f, Some ([], Some e))
      | None =>
          restricted ← enforceRestrictions f.(evm).(readOnly) op operation f.(stack);
          match restricted with
          | Some e => Ret (f, Some ([], Some e))
          | None =>
              need ← required_memory operation f.(stack);
              match need with
              | inr e => Ret (f, Some ([], Some e))
              | inl memorySize => perform run operation memorySize f
              end
          end
      end.

(** [Run] around its loop: the depth goes up and comes back, the returned data
    of the previous call is dropped, empty code returns at once. *)
Definition Run_with (loop : frame -> outcome nofuel (frame * ret)) : recursor db disk :=
  fun e c input =>
    let e := set_returnData (set_depth e (e.(depth) + 1)) [] in
    if (length c.(Code) =? 0)%nat then Ret (set_depth e (e.(depth) - 1), c, ([], None))
    else
      let f := {| pc := 0; contract := set_Input c input; memory := Mem.NewMemory; stack := [];
                  evm := e |} in
      '(f, r) ← loop f;
      Ret (set_depth f.(evm) (f.(evm).(depth) - 1), f.(contract), r).

(** [run] of evm.go: a precompiled contract by its code address, else [Run]. *)
Definition precompiles : AddressBytes -> option PrecompiledContract :=
  if IsByzantium chainConfig BlockNumber then PrecompiledContractsByzantium
  else PrecompiledContractsHomestead.

Definition run_with (loop : frame -> outcome nofuel (frame * ret)) : recursor db disk :=
  fun e c input =>
    match c.(CodeAddr) ≫= precompiles with
    | Some p => '(c, r) ← RunPrecompiledContract p input c; Ret (e, c, r)
    | None => Run_with loop e c input
    end.

Fixpoint interp (fuel : nat) (jt : Z -> operation) (f : frame) : outcome nofuel (frame * ret) :=
  match fuel with
  | O => Err NoFuel
  | S fuel' =>
      '(f, fin) ← step jt (run_with (interp fuel' jt)) f;
      match fin with
      | Some r => Ret (f, r)
      | None => interp fuel' jt f
      end
  end.

(** [run] and [Run] of a top level call. *)
Definition run (fuel : nat) (jt : Z -> operation) : recursor db disk := run_with (interp fuel jt).
Definition Run (fuel : nat) (jt : Z -> operation) : recursor db disk := Run_with (interp fuel jt).

End Interpreter.
