(* ===== verification/StateSpec.v ===== *)
(** * What the machine relies on of the state, and a reference state

    [StateLaws] collects what the machine's theorems use of a [StateDB] and of
    the helper that loads and commits contract states: balances are never
    negative and creating an account takes no funds away, code is a byte string whose hash is its [NewHash], a snapshot
    stays valid until the state is reverted below it.

    [RefState] is the abstract specification of dvm/ethereum/state/statedb.go:
    a finite map of accounts, a snapshot a copy of it.  It satisfies the laws. *)
From Stdlib Require Import ZArith Lia.
From S2P Require Import Prelude Word Config OpCodes Analysis Machine.
Open Scope Z_scope.

(** A byte string of a length a Go slice can have. *)
Definition is_bytes (l : list Z) : Prop :=
  Forall (fun b => 0 <= b < 256) l /\ Z.of_nat (length l) < 2 ^ 62.

Lemma is_bytes_nil : is_bytes [].
Proof. split; [constructor|simpl; lia]. Qed.

(** One mutation by the machine, with the side condition it establishes. *)
Inductive mutation {db} `{!StateDB db} (s : db) : db -> Prop :=
  | mut_CreateAccount a : mutation s (CreateAccount s a)
  | mut_SubBalance a v : 0 <= v <= GetBalance s a -> mutation s (SubBalance s a v)
  | mut_AddBalance a v : 0 <= v -> mutation s (AddBalance s a v)
  | mut_SetNonce a n : mutation s (SetNonce s a n)
  | mut_SetCode a c : is_bytes c -> mutation s (SetCode s a c)
  | mut_AddRefund g : mutation s (AddRefund s g)
  | mut_SetState a k v : mutation s (SetState s a k v)
  | mut_Suicide a : mutation s (SuicideAccount s a).1
  | mut_AddLog l : mutation s (AddLog s l)
  | mut_AddPreimage h d : mutation s (AddPreimage s h d).

Class StateLaws (db disk : Type) `{!StateDB db} `{!VMStateQueryHelper db disk} `{!Crypto} := {
  db_ok : db -> Prop;
  disk_ok : disk -> Prop;
  (** the snapshot identifiers that can still be reverted to *)
  live : db -> Z -> Prop;
  (** what a state holds, and what it held when a snapshot was taken *)
  content : Type;
  content_equiv :: Equiv content;
  content_equivalence :: Equivalence (≡@{content});
  view : db -> content;
  saved : db -> Z -> content;
  law_balance : forall s a, db_ok s -> 0 <= GetBalance s a;
  law_code : forall s a, db_ok s -> is_bytes (GetCode s a);
  law_code_hash : forall s a, db_ok s ->
    GetCode s a = [] \/ GetCodeHash s a = NewHash (GetCode s a);
  law_mutation : forall s s', mutation s s' -> db_ok s ->
    db_ok s' /\ forall i, live s i -> live s' i /\ saved s' i ≡ saved s i;
  law_create_balance : forall s a b, db_ok s -> GetBalance s b <= GetBalance (CreateAccount s a) b;
  law_nonce_balance : forall s a n b, db_ok s -> GetBalance s b <= GetBalance (SetNonce s a n) b;
  law_snapshot : forall s, db_ok s ->
    let '(s', id) := Snapshot s in
    db_ok s' /\ live s' id /\ saved s' id ≡ view s /\ view s' ≡ view s /\
    (forall i, live s i -> i < id /\ live s' i /\ saved s' i ≡ saved s i) /\
    (forall a, GetBalance s' a = GetBalance s a);
  law_revert : forall s id, db_ok s -> live s id ->
    exists s', RevertToSnapshot s id = Some s' /\ db_ok s' /\ view s' ≡ saved s id /\
      forall i, live s i -> i < id -> live s' i /\ saved s' i ≡ saved s i;
  law_load : forall h a, disk_ok h -> exists s, NewEthStateLoader h a = Some s /\ db_ok s;
  law_commit : forall h a s, disk_ok h -> db_ok s -> disk_ok (CommitState h a s);
  law_helper_size : forall h a b c, 0 <= HelperGetCodeSize (db:=db) h a b c;
  law_keccak : forall d, is_bytes (Keccak256 d)
}.

(** Codes no two of which share a hash: what a theorem about a run asks of the codes it executes, since the
    machine keeps the jump destinations of a code under its hash. *)
Class CodesInUse `{!Crypto} := {
  in_use : list Z -> bool;
  in_use_hash : forall c d, in_use c = true -> in_use d = true -> NewHash c = NewHash d -> c = d
}.

(** The snapshots of [s] are still there in [s'], with what they saved. *)
Definition keeps {db disk} `{StateLaws db disk} (s s' : db) : Prop :=
  forall i, live s i -> live s' i /\ saved s' i ≡ saved s i.

#[export] Instance keeps_preorder {db disk} `{StateLaws db disk} : PreOrder (keeps (db:=db)).
Proof.
  split; [done|]. intros s1 s2 s3 H1 H2 i Hi. destruct (H1 i Hi) as [Hi2 E2].
  destruct (H2 i Hi2) as [Hi3 E3]. split; [done|]. by etrans.
Qed.

(** ** The reference state *)
Module RefState.

Record Account := {
  nonce : Z; balance : Z; code : list Z; storage : gmap Z Z; suicided : bool
}.

Record World := {
  accounts : gmap Z Account; refund : Z; logs : list Log; preimages : gmap Z (list Z)
}.

(** The current world and the snapshots, the newest first. *)
Record State := { world : World; snapshots : list (Z * World); nextId : Z }.

Definition empty_account : Account :=
  {| nonce := 0; balance := 0; code := []; storage := ∅; suicided := false |}.
Definition empty_world : World :=
  {| accounts := ∅; refund := 0; logs := []; preimages := ∅ |}.
Definition empty_state : State := {| world := empty_world; snapshots := []; nextId := 0 |}.

Definition acc (s : State) (a : Z) : Account := default empty_account (s.(world).(accounts) !! a).

Definition set_world (s : State) (w : World) : State :=
  {| world := w; snapshots := s.(snapshots); nextId := s.(nextId) |}.

(** Writing an account creates it. *)
Definition set_acc (s : State) (a : Z) (x : Account) : State :=
  set_world s {| accounts := <[a := x]> s.(world).(accounts); refund := s.(world).(refund);
                 logs := s.(world).(logs); preimages := s.(world).(preimages) |}.

Definition with_balance (x : Account) (b : Z) : Account :=
  {| nonce := x.(nonce); balance := b; code := x.(code); storage := x.(storage);
     suicided := x.(suicided) |}.
Definition with_nonce (x : Account) (n : Z) : Account :=
  {| nonce := n; balance := x.(balance); code := x.(code); storage := x.(storage);
     suicided := x.(suicided) |}.
Definition with_code (x : Account) (c : list Z) : Account :=
  {| nonce := x.(nonce); balance := x.(balance); code := c; storage := x.(storage);
     suicided := x.(suicided) |}.
Definition with_storage (x : Account) (k v : Z) : Account :=
  {| nonce := x.(nonce); balance := x.(balance); code := x.(code);
     storage := <[k := v]> x.(storage); suicided := x.(suicided) |}.

Fixpoint revert_to (id : Z) (l : list (Z * World)) : option (World * list (Z * World)) :=
  match l with
  | [] => None
  | (i, w) :: l' => if i =? id then Some (w, l') else revert_to id l'
  end.

#[export] Instance ref_StateDB `{!Crypto} : StateDB State := {
  CreateAccount s a := set_acc s a (with_balance empty_account (acc s a).(balance));
  SubBalance s a v := set_acc s a (with_balance (acc s a) ((acc s a).(balance) - v));
  AddBalance s a v := set_acc s a (with_balance (acc s a) ((acc s a).(balance) + v));
  GetBalance s a := (acc s a).(balance);
  GetNonce s a := (acc s a).(nonce);
  SetNonce s a n := set_acc s a (with_nonce (acc s a) n);
  GetCodeHash s a :=
    match s.(world).(accounts) !! a with Some x => NewHash x.(code) | None => 0 end;
  GetCode s a := (acc s a).(code);
  SetCode s a c := set_acc s a (with_code (acc s a) c);
  GetCodeSize s a := Z.of_nat (length (acc s a).(code));
  AddRefund s g := set_world s
    {| accounts := s.(world).(accounts); refund := s.(world).(refund) + g;
       logs := s.(world).(logs); preimages := s.(world).(preimages) |};
  GetRefund s := s.(world).(refund);
  GetState s a k := default 0 ((acc s a).(storage) !! k);
  SetState s a k v := set_acc s a (with_storage (acc s a) k v);
  SuicideAccount s a :=
    match s.(world).(accounts) !! a with
    | None => (s, false)
    | Some x => (set_acc s a {| nonce := x.(nonce); balance := 0; code := x.(code);
                                storage := x.(storage); suicided := true |}, true)
    end;
  HasSuicided s a := (acc s a).(suicided);
  Exist s a := bool_decide (is_Some (s.(world).(accounts) !! a));
  Empty s a := ((acc s a).(nonce) =? 0) && ((acc s a).(balance) =? 0) &&
               (length (acc s a).(code) =? 0)%nat;
  RevertToSnapshot s id :=
    '(w, l) ← revert_to id s.(snapshots);
    Some {| world := w; snapshots := l; nextId := s.(nextId) |};
  Snapshot s :=
    ({| world := s.(world); snapshots := (s.(nextId), s.(world)) :: s.(snapshots);
        nextId := s.(nextId) + 1 |}, s.(nextId));
  AddLog s l := set_world s
    {| accounts := s.(world).(accounts); refund := s.(world).(refund);
       logs := s.(world).(logs) ++ [l]; preimages := s.(world).(preimages) |};
  AddPreimage s h d := set_world s
    {| accounts := s.(world).(accounts); refund := s.(world).(refund);
       logs := s.(world).(logs); preimages := <[h := d]> s.(world).(preimages) |}
}.

(** The disk keeps the last committed world of each contract. *)
Definition Disk := gmap Z World.

#[export] Instance ref_Helper `{!Crypto} : VMStateQueryHelper State Disk := {
  NewEthStateLoader h a :=
    Some {| world := default empty_world (h !! a); snapshots := []; nextId := 0 |};
  CommitState h a s := <[a := s.(world)]> h;
  HelperGetCodeSize h a b c :=
    Z.of_nat (length (default empty_account ((default empty_world (h !! c)).(accounts) !! c)).(code))
}.

(** *** The laws hold *)
Definition account_ok (x : Account) : Prop := 0 <= x.(balance) /\ is_bytes x.(code).
Definition world_ok (w : World) : Prop := map_Forall (fun _ => account_ok) w.(accounts).

Record state_ok (s : State) : Prop := {
  ok_world : world_ok s.(world);
  ok_snaps : Forall (fun p => world_ok p.2 /\ p.1 < s.(nextId)) s.(snapshots);
  ok_sorted : StronglySorted (fun p q => q.1 < p.1) s.(snapshots)
}.

Definition ref_live (s : State) (i : Z) : Prop := i ∈ s.(snapshots).*1.

Lemma empty_account_ok : account_ok empty_account.
Proof. split; [simpl; lia|apply is_bytes_nil]. Qed.

Lemma acc_ok s a : state_ok s -> account_ok (acc s a).
Proof.
  intros [Hw _ _]. unfold acc. destruct (accounts (world s) !! a) as [x|] eqn:E; simpl.
  - by eapply Hw.
  - apply empty_account_ok.
Qed.

Lemma set_world_ok s w : state_ok s -> world_ok w -> state_ok (set_world s w).
Proof. intros [_ H1 H2] Hw. by split. Qed.

Lemma set_acc_ok s a x : state_ok s -> account_ok x -> state_ok (set_acc s a x).
Proof.
  intros Hs Hx. apply set_world_ok; [done|]. unfold world_ok; simpl.
  apply map_Forall_insert_2; [done|]. apply Hs.
Qed.

Lemma acc_set_acc s a b x : acc (set_acc s a x) b = if decide (a = b) then x else acc s b.
Proof.
  unfold acc, set_acc; simpl. destruct (decide (a = b)) as [->|].
  - by rewrite lookup_insert_eq.
  - by rewrite lookup_insert_ne by done.
Qed.

Lemma ref_mutation `{!Crypto} s s' : mutation s s' -> state_ok s ->
  state_ok s' /\ s'.(snapshots) = s.(snapshots).
Proof.
  intros Hm Hs.
  assert (Hacc : forall a, account_ok (acc s a)) by (intros; by apply acc_ok).
  destruct Hm; simpl in *; try (split; [|done]).
  - apply set_acc_ok; [done|]. split; [apply Hacc|apply is_bytes_nil].
  - apply set_acc_ok; [done|]. split; [simpl; lia|apply Hacc].
  - apply set_acc_ok; [done|]. destruct (Hacc a) as [Hb Hc]. split; [simpl; lia|done].
  - apply set_acc_ok; [done|]. apply Hacc.
  - apply set_acc_ok; [done|]. split; [apply Hacc|done].
  - apply set_world_ok; [done|]. apply Hs.
  - apply set_acc_ok; [done|]. apply Hacc.
  - destruct (accounts (world s) !! a) as [x|] eqn:E; [|done]. simpl.
    split; [|done]. apply set_acc_ok; [done|]. split; [simpl; lia|]. simpl.
    destruct Hs as [Hw _ _]. apply (Hw _ _ E).
  - apply set_world_ok; [done|]. apply Hs.
  - apply set_world_ok; [done|]. apply Hs.
Qed.

Lemma revert_to_ok id l n :
  Forall (fun p : Z * World => world_ok p.2 /\ p.1 < n) l ->
  StronglySorted (fun p q => q.1 < p.1) l -> id ∈ l.*1 ->
  exists w l', revert_to id l = Some (w, l') /\ world_ok w /\
    Forall (fun p => world_ok p.2 /\ p.1 < n) l' /\ StronglySorted (fun p q => q.1 < p.1) l' /\
    forall i, i ∈ l.*1 -> i < id -> i ∈ l'.*1 /\ revert_to i l' = revert_to i l.
Proof.
  intros Hall Hs Hin. induction l as [|[j w] l IH]; [by apply elem_of_nil in Hin|].
  apply Forall_cons in Hall as [[Hw Hj] Hall]. apply StronglySorted_inv in Hs as [Hs Hlt].
  cbn [revert_to]. destruct (Z.eqb_spec j id) as [->|Hne].
  - exists w, l. split_and!; try done. intros i Hi Hlti.
    rewrite fmap_cons in Hi. apply elem_of_cons in Hi as [->|Hi]; [simpl in Hlti; lia|].
    split; [done|]. by rewrite (proj2 (Z.eqb_neq _ _)) by lia.
  - rewrite fmap_cons in Hin. apply elem_of_cons in Hin as [->|Hin]; [done|].
    destruct (IH Hall Hs Hin) as (w' & l' & -> & ? & ? & ? & Hl').
    exists w', l'. split_and!; try done. intros i Hi Hlti.
    assert (Hidj : id < j).
    { apply list_elem_of_fmap in Hin as ([k w0] & -> & Hk).
      rewrite Forall_forall in Hlt. by specialize (Hlt _ Hk). }
    rewrite fmap_cons in Hi. apply elem_of_cons in Hi as [->|Hi]; [simpl in Hlti; lia|].
    rewrite (proj2 (Z.eqb_neq j i)) by lia. by apply Hl'.
Qed.

Definition saved_world (s : State) (i : Z) : World :=
  match revert_to i s.(snapshots) with Some (w, _) => w | None => empty_world end.

Definition ref_StateLaws `{!Crypto}
    (Hk : forall d, is_bytes (Keccak256 d)) : StateLaws State Disk.
Proof.
  refine {| db_ok := state_ok; disk_ok := map_Forall (fun _ => world_ok); live := ref_live;
            content := World; content_equiv := equivL; view := world; saved := saved_world |}.
  - intros s a Hs. apply (acc_ok s a Hs).
  - intros s a Hs. apply (acc_ok s a Hs).
  - intros s a Hs. simpl. unfold acc. destruct (accounts (world s) !! a); [by right|by left].
  - intros s s' Hm Hs. destruct (ref_mutation s s' Hm Hs) as [Hok He].
    split; [done|]. unfold ref_live, saved_world, equiv, equivL. by rewrite He.
  - intros s a b Hs. simpl. rewrite acc_set_acc. case_decide; subst; simpl; lia.
  - intros s a n b Hs. simpl. rewrite acc_set_acc. case_decide; subst; simpl; lia.
  - intros s [Hw Hsn Hso]. simpl. split_and!.
    + split; simpl; [done| |].
      * constructor; [simpl; split; [done|lia]|]. eapply Forall_impl; [done|]. simpl. intros p [? ?].
        split; [done|lia].
      * constructor; [done|]. eapply Forall_impl; [done|]. simpl. by intros p [? ?].
    + unfold ref_live. simpl. apply list_elem_of_here.
    + unfold saved_world. simpl. by rewrite Z.eqb_refl.
    + done.
    + intros i Hin. pose proof Hin as Hin'.
      apply list_elem_of_fmap in Hin' as (p & -> & Hp). rewrite Forall_forall in Hsn.
      destruct (Hsn _ Hp) as [_ Hlt]. split; [done|]. split; [by apply list_elem_of_further|].
      unfold saved_world. simpl. by rewrite (proj2 (Z.eqb_neq _ _)) by lia.
    + done.
  - intros s id [Hw Hsn Hso] Hl. simpl.
    destruct (revert_to_ok id _ _ Hsn Hso Hl) as (w & l' & Hrev & ? & ? & ? & Hl').
    rewrite Hrev. eexists. split; [reflexivity|]. split; [by split|].
    split; [by unfold saved_world; rewrite Hrev|].
    intros i Hin Hlt. destruct (Hl' i Hin Hlt) as [? E]. split; [done|]. unfold saved_world, equiv, equivL. simpl.
    by rewrite E.
  - intros h a Hh. eexists. split; [reflexivity|]. split; simpl; [|constructor|constructor].
    destruct (h !! a) as [w|] eqn:E; [by eapply Hh|]. apply map_Forall_empty.
  - intros h a s Hh Hs. simpl. apply map_Forall_insert_2; [apply Hs|done].
  - intros h a b c. simpl. lia.
  - exact Hk.
Defined.
End RefState.
