(* ===== verification/Invariant.v ===== *)
(** * The machine's invariant

    What holds of a frame whenever the interpreter is about to execute an
    operation, the relation between the machine before and after, and the rules
    that carry both through the instruction monad. *)
From Stdlib Require Import ZArith Lia.
From S2P Require Import Prelude Word Config OpCodes Analysis Machine Gas Calls StateSpec.
Import Big Op.
Open Scope Z_scope.

(** Environments whose integers are set, but for [Difficulty], which the dispatch node
    leaves nil: only the DIFFICULTY instruction reads it, and then panics. *)
Class EnvOk `{!Env} := {
  env_gasprice : exists v, GasPrice = Some v /\ 0 <= v;
  env_block : is_Some BlockNumber
}.

(** An operation the environment has an answer for *)
Definition answered `{!Env} (op : Z) : bool := negb (op =? DIFFICULTY) || bool_decide (is_Some Difficulty).

Section Invariant.
Context {db disk : Type} {SDB : StateDB db} {QH : VMStateQueryHelper db disk} {CR : Crypto} {EN : Env}.
Context {laws : StateLaws db disk} {CU : CodesInUse}.
Abbreviation EVM := (EVM db disk).
Abbreviation frame := (frame db disk).
Abbreviation M := (M db disk).

(** Gas is far from the 64-bit limit; the node runs with 10^12. *)
Definition max_gas : Z := 2 ^ 62.
Definition nonneg (x : Z) : Prop := 0 <= x.

(** Every cached bit vector is the one of the code in use with that hash. *)
Definition cache_ok (d : destinations) : Prop :=
  forall c m, in_use c = true -> d !! NewHash c = Some m -> codeBitmap c = Some m.

Record evm_ok (e : EVM) : Prop := {
  evm_ok_db : db_ok e.(evm_StateDB);
  evm_ok_helper : exists h, e.(evm_Helper) = Some h /\ disk_ok h;
  evm_ok_data : is_bytes e.(returnData);
  evm_ok_cache : cache_ok e.(jumpdests);
  evm_ok_temp : 0 <= e.(callGasTemp)
}.

Record contract_ok (c : Contract) : Prop := {
  contract_ok_code : is_bytes c.(Code);
  contract_ok_hash : c.(Code) = [] \/ c.(CodeHash) = NewHash c.(Code);
  contract_ok_input : is_bytes c.(Input);
  contract_ok_gas : 0 <= c.(Gas) < max_gas;
  contract_ok_value : exists v, c.(value) = Some v /\ 0 <= v
}.

(** Memory grows by whole words and stays below the size [memoryGasCost]
    accepts. *)
Record memory_ok (m : Memory) : Prop := {
  memory_ok_bytes : Forall (fun b => 0 <= b < 256) m.(store);
  memory_ok_words : (32 | Mem.Len m);
  memory_ok_bound : Mem.Len m <= 0xffffffffe0
}.

Record frame_ok (f : frame) : Prop := {
  frame_ok_contract : contract_ok f.(contract);
  frame_ok_memory : memory_ok f.(memory);
  frame_ok_stack : Forall nonneg f.(stack);
  frame_ok_evm : evm_ok f.(evm);
  frame_ok_pc : 0 <= f.(pc) <= Z.of_nat (length f.(contract).(Code)) + 32
}.

(** What a call leaves as it found it. *)
Record evm_rel (e e' : EVM) : Prop := {
  rel_depth : e'.(depth) = e.(depth);
  rel_readOnly : e'.(readOnly) = e.(readOnly);
  rel_live : keeps e.(evm_StateDB) e'.(evm_StateDB)
}.

#[export] Instance evm_rel_preorder : PreOrder evm_rel.
Proof.
  split; [by split; [..|apply keeps_preorder]|].
  intros e1 e2 e3 [] []. split; [congruence..|by etrans].
Qed.

(** What executing an operation leaves: [pops] items replaced by [pushes], gas
    within [cap], the code of the frame as it was. *)
Record exec_post (pops pushes : nat) (cap : Z) (f f' : frame) (r : ret) : Prop := {
  post_evm : evm_ok f'.(evm);
  post_rel : evm_rel f.(evm) f'.(evm);
  post_contract : exists g, f'.(contract) = set_Gas f.(contract) g /\ 0 <= g <= cap;
  post_memory : memory_ok f'.(memory);
  post_stack : Forall nonneg f'.(stack);
  post_length : r.2 = None -> (length f'.(stack) + pops = length f.(stack) + pushes)%nat;
  post_pc : f'.(pc) = f.(pc) \/ 0 <= f'.(pc) <= Z.of_nat (length f.(contract).(Code)) \/
    f.(pc) < f'.(pc) <= f.(pc) + 32;
  post_bytes : is_bytes r.1
}.

(** ** Weakest preconditions

    Total correctness: no panic, fuel enough, and a postcondition.  A watched run may
    end early. *)
Definition wp {A} (m : outcome nofuel A) (Q : A -> Prop) : Prop :=
  match m with
  | Ret a => Q a
  | Err Excluded => True
  | Err NoFuel | Panic => False
  end.

Lemma wp_bind {A B} (m : outcome nofuel A) (k : A -> outcome nofuel B) Q :
  wp m (fun a => wp (k a) Q) -> wp (m ≫= k) Q.
Proof. by destruct m as [|[]|]. Qed.

Lemma wp_mono {A} (m : outcome nofuel A) (P Q : A -> Prop) :
  wp m P -> (forall a, P a -> Q a) -> wp m Q.
Proof. destruct m as [|[]|]; simpl; auto. Qed.

Lemma wp_M_bind {A B} (m : M A) (k : A -> M B) f Q :
  wp (m f) (fun r => wp (k r.2 r.1) Q) -> wp ((m ≫= k) f) Q.
Proof. unfold mbind, M_bind. by destruct (m f) as [[f' a]|[]|]. Qed.

(** A function the interpreter recurses through, [run], on contracts with at
    most [limit] gas. *)
Definition recursor_ok (limit : Z) (run : recursor db disk) : Prop :=
  forall e c input, evm_ok e -> contract_ok c -> is_bytes input -> c.(Gas) <= limit ->
    wp (run e c input) (fun r =>
      let '(e', c', ret) := r in
      evm_ok e' /\ evm_rel e e' /\ 0 <= c'.(Gas) <= c.(Gas) /\ is_bytes ret.1).

(** ** Facts on the parts *)
Lemma is_bytes_be_bytes n z : Z.of_nat n < 2 ^ 62 -> is_bytes (be_bytes n z).
Proof. intros. split; [apply be_bytes_range|by rewrite be_bytes_length]. Qed.

Lemma be_int_nonneg bs : Forall (fun b => 0 <= b < 256) bs -> 0 <= be_int bs.
Proof. intros Hb. apply be_int_bound in Hb. lia. Qed.

Lemma HashBig_nonneg h : 0 <= HashBig h.
Proof. apply be_int_nonneg, be_bytes_range. Qed.

Lemma AddressBig_nonneg h : 0 <= AddressBig h.
Proof. apply be_int_nonneg, be_bytes_range. Qed.

Lemma U256_nonneg x : 0 <= U256 x.
Proof. apply U256_range. Qed.

Lemma Exp_nonneg b e : 0 <= Exp b e.
Proof. unfold Exp. rewrite Exp_words_spec by (apply Bits_range || lia). by apply Z.mod_pos_bound. Qed.

Lemma u8_nonneg x : 0 <= u8 x.
Proof. by apply Z.mod_pos_bound. Qed.

Lemma Byte_nonneg x p n : 0 <= Byte x p n.
Proof.
  unfold Byte, bigEndianByteAt. repeat case_match; try lia; apply u8_nonneg.
Qed.

Lemma Uint64_range x : is_u64 (Uint64 x).
Proof. apply u64_range. Qed.

Lemma slice_Some {A} (l : list A) i j : 0 <= i <= j -> j <= Z.of_nat (length l) ->
  exists d, slice l i j = Some d /\ length d = Z.to_nat (j - i).
Proof.
  intros Hij Hj. unfold slice.
  rewrite (proj2 (Z.leb_le 0 i)), (proj2 (Z.leb_le i j)), (proj2 (Z.leb_le j _)) by lia. simpl.
  eexists. split; [done|]. rewrite length_take, length_drop. lia.
Qed.

Lemma slice_bytes l i j d : is_bytes l -> slice l i j = Some d -> is_bytes d.
Proof.
  unfold slice. case_match; [|done]. intros [H1 H2] [= <-]. split.
  - by apply Forall_take, Forall_drop.
  - rewrite length_take, length_drop. lia.
Qed.

Lemma RightPadBytes_bytes l n : is_bytes l -> n < 2 ^ 62 -> is_bytes (RightPadBytes l n).
Proof.
  unfold RightPadBytes. intros [H1 H2] Hn. case_match; [done|]. split.
  - apply Forall_app. split; [done|]. apply Forall_replicate. lia.
  - rewrite length_app, length_replicate. lia.
Qed.

(** The window of [getDataBig] never leaves the data. *)
Lemma getDataBig_ok data start size :
  is_bytes data -> 0 <= start -> 0 <= size ->
  exists d, getDataBig data start size = Some d /\
    (size < 2 ^ 62 -> is_bytes d).
Proof.
  intros [Hb Hl] Hs Hn. unfold getDataBig, BigMin.
  set (n := Z.of_nat (length data)) in *.
  assert (exists s e, 0 <= s <= e /\ e <= n /\
    Uint64 (if n <? start then n else start) = s /\
    Uint64 (if n <? (if n <? start then n else start) + size then n
            else (if n <? start then n else start) + size) = e) as (s & e & Hse & He & -> & ->).
  { unfold Uint64. destruct (Z.ltb_spec n start);
      [destruct (Z.ltb_spec n (n + size)) | destruct (Z.ltb_spec n (start + size))];
      eexists _, _; (split; [|split; [|split; reflexivity]]);
      rewrite ?Z.abs_eq, ?u64_id by (unfold is_u64; lia); lia. }
  destruct (slice_Some data s e) as (d & Hd & _); [lia|fold n; lia|].
  rewrite Hd. simpl. eexists. split; [done|]. intros Hsz.
  apply RightPadBytes_bytes; [by eapply slice_bytes; [split|]|].
  unfold Uint64. rewrite Z.abs_eq, u64_id, i64_id by (unfold is_u64, is_i64; lia). done.
Qed.

(** *** Memory *)
Lemma memory_Set_ok m off size v :
  memory_ok m -> 0 <= off -> 0 <= size -> (size = 0 \/ off + size <= Mem.Len m) -> is_bytes v ->
  exists m', Mem.Set_ m off size v = Some m' /\ memory_ok m' /\ Mem.Len m' = Mem.Len m /\
    m'.(lastGasCost) = m.(lastGasCost).
Proof.
  intros Hm H0 Hs Hfit [Hv _]. destruct Hm as [Hb Hw Hbd]. unfold Mem.Set_.
  destruct (Z.ltb_spec 0 size); [|exists m; by split_and!].
  destruct Hfit as [|Hfit]; [lia|].
  rewrite u64_id by (unfold is_u64; lia). rewrite (proj2 (Z.ltb_ge _ _)) by lia.
  destruct (slice_Some m.(store) off (off + size)) as (d & -> & _); [lia|done|]. simpl.
  eexists. split; [done|].
  assert (Hlen : length (Mem.copy_at (store m) (Z.to_nat off) (Z.to_nat size) v) = length (store m)).
  { unfold Mem.copy_at. unfold Mem.Len in Hfit.
    rewrite !length_app, !length_take, length_drop. lia. }
  unfold Mem.Len in *. simpl. rewrite Hlen. split; [|done]. split; unfold Mem.Len; simpl.
  - unfold Mem.copy_at. rewrite !Forall_app. split_and!;
      [by apply Forall_take | by apply Forall_take | by apply Forall_drop].
  - by rewrite Hlen.
  - by rewrite Hlen.
Qed.

Lemma memory_Set32_ok m off v :
  memory_ok m -> 0 <= off -> off + 32 <= Mem.Len m ->
  exists m', Mem.Set32 m off v = Some m' /\ memory_ok m' /\ Mem.Len m' = Mem.Len m /\
    m'.(lastGasCost) = m.(lastGasCost).
Proof.
  intros Hm H0 Hfit.
  assert (Hz : is_bytes (ReadBits v (replicate 32 0))).
  { rewrite ReadBits_zero. by apply is_bytes_be_bytes. }
  destruct (memory_Set_ok m off 32 (ReadBits v (replicate 32 0))) as (m' & Hm' & Hok);
    [done..|by right|done|].
  exists m'. split; [|done]. rewrite <- Hm'. done.
Qed.

Lemma memory_Get_ok m off size :
  memory_ok m -> 0 <= off -> 0 <= size -> (size = 0 \/ off + size <= Mem.Len m) ->
  exists d, Mem.Get m off size = Some d /\ is_bytes d.
Proof.
  intros Hm H0 Hs Hfit. destruct Hm as [Hb Hw Hbd]. unfold Mem.Get.
  destruct (Z.eqb_spec size 0); [exists []; split; [done|apply is_bytes_nil]|].
  destruct Hfit as [|Hfit]; [done|].
  rewrite (proj2 (Z.ltb_lt _ _)) by lia. rewrite i64_id by (unfold is_i64; lia).
  destruct (slice_Some m.(store) off (off + size)) as (d & Hd & _); [lia|done|].
  exists d. split; [done|]. eapply slice_bytes; [|done]. split; [done|]. unfold Mem.Len in *. lia.
Qed.

Lemma memory_Resize_ok m size :
  memory_ok m -> (32 | size) -> size <= 0xffffffffe0 ->
  memory_ok (Mem.Resize m size) /\ Mem.Len (Mem.Resize m size) = Z.max (Mem.Len m) size.
Proof.
  intros [Hb Hw Hbd] Hd Hs. unfold Mem.Resize.
  destruct (Z.ltb_spec (Mem.Len m) size); [|split; [done|lia]].
  assert (Hl : Mem.Len (Mem.set_store m (store m ++ replicate (Z.to_nat (size - Mem.Len m)) 0)) = size).
  { unfold Mem.Len in *. simpl. rewrite length_app, length_replicate. lia. }
  rewrite Hl. split; [|lia]. split; [|by rewrite Hl|by rewrite Hl].
  simpl. apply Forall_app. split; [done|]. apply Forall_replicate. lia.
Qed.

(** *** Memory accesses of instructions: offset and size come off the stack *)
Lemma Int64_small x : 0 <= x < 2 ^ 63 -> Int64 x = x.
Proof.
  intros Hx. unfold Int64. destruct (Z.ltb_spec x 0); [lia|].
  by rewrite Z.abs_eq, u64_id, i64_id by (unfold is_u64, is_i64; lia).
Qed.

Lemma Uint64_small x : is_u64 x -> Uint64 x = x.
Proof. intros Hx. unfold is_u64 in Hx. unfold Uint64. rewrite Z.abs_eq, u64_id by (unfold is_u64; lia). done. Qed.

Definition access (m : Memory) (off size : Z) : Prop :=
  0 <= off /\ 0 <= size /\ calcMemSize off size <= Mem.Len m.

Lemma access_cases m off size : memory_ok m -> access m off size ->
  size = 0 \/ (0 < size /\ off + size <= Mem.Len m /\ Mem.Len m < 2 ^ 40).
Proof.
  intros [_ _ Hb] (Ho & Hs & Hc). unfold calcMemSize in Hc.
  destruct (Z.eqb_spec size 0); [by left|]. right. lia.
Qed.

Lemma access_Get m off size : memory_ok m -> access m off size ->
  exists d, Mem.Get m (Int64 off) (Int64 size) = Some d /\ is_bytes d.
Proof.
  intros Hm Ha. destruct (access_cases _ _ _ Hm Ha) as [->|(? & ? & ?)].
  - exists []. split; [done|apply is_bytes_nil].
  - destruct Ha as (? & ? & _). rewrite !Int64_small by lia. apply memory_Get_ok; [done|lia|lia|by right].
Qed.

Lemma access_Set m off size v : memory_ok m -> access m off size -> is_bytes v ->
  exists m', Mem.Set_ m (Uint64 off) (Uint64 size) v = Some m' /\ memory_ok m' /\
    Mem.Len m' = Mem.Len m /\ m'.(lastGasCost) = m.(lastGasCost).
Proof.
  intros Hm Ha Hv. destruct (access_cases _ _ _ Hm Ha) as [->|(? & ? & ?)].
  - exists m. by split_and!.
  - destruct Ha as (? & ? & _). rewrite !Uint64_small by (unfold is_u64; lia).
    apply memory_Set_ok; [done|lia|lia|by right|done].
Qed.

Lemma access_size m off size : memory_ok m -> access m off size -> size < 2 ^ 62.
Proof.
  intros Hm Ha. destruct (access_cases _ _ _ Hm Ha) as [->|(? & ? & ?)]; [lia|].
  destruct Ha. lia.
Qed.
End Invariant.
