(* ===== verification/Safety.v ===== *)
(** * Executing an operation is safe

    Every instruction of the table, started from a frame that satisfies the
    invariant with the operands and the memory its table entry asks for, does
    not panic, replaces exactly the operands the entry announces, and leaves a
    frame that satisfies the invariant. *)
From Stdlib Require Import ZArith Lia.
From S2P Require Import Prelude Word Config OpCodes Analysis Machine Gas Calls Instructions.
From S2P Require Import JumpTable StateSpec Invariant.
Import Big Op.
Open Scope Z_scope.

(** Encodings are never unfolded below. *)
Local Opaque HashBig AddressBig U256 Exp Byte BigToAddress BigToHash.

(** ** Rules of the monad's primitives *)
Section Rules.
Context {db disk : Type} (f : frame db disk).
Abbreviation M := (M db disk).

Lemma wp_ret {A} (a : A) Q : Q (f, a) -> wp ((mret a : M A) f) Q.
Proof. done. Qed.
Lemma wp_get Q : Q (f, f) -> wp (get f) Q.
Proof. done. Qed.
Lemma wp_get_contract Q : Q (f, f.(contract)) -> wp (get_contract f) Q.
Proof. done. Qed.
Lemma wp_get_db Q : Q (f, f.(evm).(evm_StateDB)) -> wp (get_db f) Q.
Proof. done. Qed.
Lemma wp_put_db s Q : Q (set_evm f (set_StateDB f.(evm) s), tt) -> wp (put_db s f) Q.
Proof. done. Qed.
Lemma wp_put_pc p Q : Q (set_pc f p, tt) -> wp (put_pc p f) Q.
Proof. done. Qed.
Lemma wp_put g Q : Q (g, tt) -> wp (put g f) Q.
Proof. done. Qed.
Lemma wp_push x Q : Q (set_stack f (x :: f.(stack)), tt) -> wp (push x f) Q.
Proof. done. Qed.
Lemma wp_pop x s Q : f.(stack) = x :: s -> Q (set_stack f s, x) -> wp (pop f) Q.
Proof. unfold pop. by intros ->. Qed.
Lemma wp_peek x s Q : f.(stack) = x :: s -> Q (f, x) -> wp (peek f) Q.
Proof. unfold peek. by intros ->. Qed.
Lemma wp_set_top v x s Q : f.(stack) = x :: s -> Q (set_stack f (v :: s), tt) -> wp (set_top v f) Q.
Proof. unfold set_top. by intros ->. Qed.
Lemma wp_lift {A} (m : option A) a Q : m = Some a -> Q (f, a) -> wp (lift m f) Q.
Proof. unfold lift. by intros ->. Qed.
Lemma wp_put_memory (m : option Memory) a Q :
  m = Some a -> Q (set_memory f a, tt) -> wp (put_memory m f) Q.
Proof. unfold put_memory. by intros ->. Qed.
End Rules.

(** One symbolic step. *)
Ltac wp_step :=
  first
    [ apply wp_M_bind
    | apply wp_ret | apply wp_get | apply wp_get_contract | apply wp_get_db | apply wp_put_db
    | apply wp_put_pc | apply wp_put | apply wp_push
    | eapply wp_pop; [first [eassumption | reflexivity] |]
    | eapply wp_peek; [first [eassumption | reflexivity] |]
    | eapply wp_set_top; [first [eassumption | reflexivity] |] ];
  cbn [fst snd].
Ltac wp_steps := repeat wp_step.

(** Setters collapse: the last write of a field wins. *)
Lemma set_stack_twice {db disk} (f : frame db disk) a b : set_stack (set_stack f a) b = set_stack f b.
Proof. done. Qed.

Section Safety.
Context {db disk : Type} {SDB : StateDB db} {QH : VMStateQueryHelper db disk} {CR : Crypto}
  {EN : Env} {laws : StateLaws db disk} {CU : CodesInUse} {EO : EnvOk}.
Abbreviation EVM := (EVM db disk).
Abbreviation frame := (frame db disk).
Abbreviation M := (M db disk).

(** The memory an entry's size function asks for is there. *)
Definition fits (ms : option memorySizeFunc) (f : frame) : Prop :=
  match ms with
  | None => True
  | Some msize => exists sz, msize f.(stack) = Some sz /\ sz <= Mem.Len f.(memory)
  end.

(** [budget f f'] bounds the gas an instruction may leave; calls get the gas set
    aside for the callee on top of the frame's own. *)
Definition own_gas (f : frame) : Z := f.(contract).(Gas).

Definition exec_ok (ex : executionFunc db disk) (ms : option memorySizeFunc) (pops pushes : nat)
    (budget : frame -> Z) : Prop :=
  forall run f, recursor_ok (budget f) run -> frame_ok f -> (pops <= length f.(stack))%nat ->
    fits ms f -> own_gas f <= budget f < max_gas -> in_use f.(contract).(Code) = true ->
    wp (ex run f) (fun r => exec_post pops pushes (budget f) f r.1 r.2).

(** ** Postconditions *)
Lemma post_stack_only pops pushes f s' :
  frame_ok f -> Forall nonneg s' -> (length s' + pops = length f.(stack) + pushes)%nat ->
  exec_post pops pushes (own_gas f) f (set_stack f s') ([], None).
Proof.
  intros [Hc Hm Hs He Hp] Hs' Hl. split; simpl; try done; [|by left].
  exists f.(contract).(Gas). split; [by destruct (contract f)|].
    pose proof (contract_ok_gas _ Hc). unfold own_gas. lia.
Qed.

(** The same with a new memory. *)
Lemma post_stack_memory pops pushes f s' m' :
  frame_ok f -> Forall nonneg s' -> (length s' + pops = length f.(stack) + pushes)%nat ->
  memory_ok m' ->
  exec_post pops pushes (own_gas f) f (set_memory (set_stack f s') m') ([], None).
Proof.
  intros Hf Hs' Hl Hm. destruct (post_stack_only pops pushes f s' Hf Hs' Hl). split; done.
Qed.

(** The same with a mutated state. *)
Lemma post_stack_db pops pushes f s' d :
  frame_ok f -> Forall nonneg s' -> (length s' + pops = length f.(stack) + pushes)%nat ->
  mutation f.(evm).(evm_StateDB) d ->
  exec_post pops pushes (own_gas f) f (set_evm (set_stack f s') (set_StateDB f.(evm) d)) ([], None).
Proof.
  intros Hf Hs' Hl Hd. destruct (post_stack_only pops pushes f s' Hf Hs' Hl) as [? ? ? ? ? ? ? ?].
  destruct Hf as [_ _ _ [Hdb Hh Hr Hj Ht] _].
  destruct (law_mutation _ _ Hd Hdb) as [Hok Hlive]. split; try done; simpl; by split.
Qed.

Lemma exec_in_use ex ms pops pushes budget :
  (forall run f, frame_ok f -> (pops <= length f.(stack))%nat -> fits ms f -> in_use f.(contract).(Code) = true ->
    wp (ex run f) (fun r => exec_post pops pushes (own_gas f) f r.1 r.2)) ->
  exec_ok ex ms pops pushes budget.
Proof.
  intros Hex run f _ Hf Hlen Hfit Hcap Huse. eapply wp_mono; [by apply Hex|].
  intros [f' r] [? ? (g & Hg & ?) ? ? ? ? ?]. split; try done.
  exists g. split; [done|]. lia.
Qed.

Lemma exec_simple ex ms pops pushes budget :
  (forall run f, frame_ok f -> (pops <= length f.(stack))%nat -> fits ms f ->
    wp (ex run f) (fun r => exec_post pops pushes (own_gas f) f r.1 r.2)) ->
  exec_ok ex ms pops pushes budget.
Proof. intros Hex. apply exec_in_use. auto. Qed.

(** Names the operands: the stack is at least as long as the operands. *)
Lemma stack_1 (f : frame) : frame_ok f -> (1 <= length f.(stack))%nat ->
  exists x s, f.(stack) = x :: s /\ 0 <= x /\ Forall nonneg s.
Proof.
  intros Hf Hl. pose proof (frame_ok_stack _ Hf) as Hs. destruct (stack f) as [|x s]; simpl in Hl; [lia|].
  apply Forall_cons in Hs as [? ?]. by exists x, s.
Qed.
Lemma stack_2 (f : frame) : frame_ok f -> (2 <= length f.(stack))%nat ->
  exists x y s, f.(stack) = x :: y :: s /\ 0 <= x /\ 0 <= y /\ Forall nonneg s.
Proof.
  intros Hf Hl. pose proof (frame_ok_stack _ Hf) as Hs.
  destruct (stack f) as [|x [|y s]]; simpl in Hl; [lia..|].
  apply Forall_cons in Hs as [? Hs]. apply Forall_cons in Hs as [? ?]. by exists x, y, s.
Qed.
Lemma stack_3 (f : frame) : frame_ok f -> (3 <= length f.(stack))%nat ->
  exists x y z s, f.(stack) = x :: y :: z :: s /\ 0 <= x /\ 0 <= y /\ 0 <= z /\ Forall nonneg s.
Proof.
  intros Hf Hl. pose proof (frame_ok_stack _ Hf) as Hs.
  destruct (stack f) as [|x [|y [|z s]]]; simpl in Hl; [lia..|].
  repeat (apply Forall_cons in Hs as [? Hs]). by exists x, y, z, s.
Qed.

Ltac solve_nonneg :=
  unfold nonneg in *;
  repeat first [ assumption | apply Forall_nil_2 | apply Forall_cons_2 ];
  first
    [ apply U256_nonneg | apply HashBig_nonneg | apply AddressBig_nonneg
    | apply Z.land_nonneg; lia | apply Z.lor_nonneg; lia | apply Z.lxor_nonneg; lia
    | case_match; lia | lia | idtac ].

(** The end of an instruction that only changed the stack. *)
Ltac stack_end Es :=
  unfold ret_nil, set_bool; wp_steps; rewrite ?set_stack_twice;
  apply post_stack_only; [done | solve_nonneg | rewrite Es; simpl; lia].

(** An instruction on one, two or three operands. *)
Ltac split_branches :=
  repeat match goal with
  | |- wp (match ?b with _ => _ end _) _ => destruct b
  end.
Ltac op0 := intros run f Hf Hlen _; wp_steps; apply post_stack_only;
  [done | pose proof (frame_ok_stack _ Hf); solve_nonneg | simpl; lia].
Ltac op1 := intros run f Hf Hlen _;
  destruct (stack_1 f Hf Hlen) as (x & s & Es & Hx & Hs);
  wp_steps; split_branches; stack_end Es.
Ltac op2 := intros run f Hf Hlen _;
  destruct (stack_2 f Hf Hlen) as (x & y & s & Es & Hx & Hy & Hs);
  wp_steps; split_branches; stack_end Es.
Ltac op3 := intros run f Hf Hlen _;
  destruct (stack_3 f Hf Hlen) as (x & y & z & s & Es & Hx & Hy & Hz & Hs);
  wp_steps; split_branches; stack_end Es.

Section Arithmetic.
Context (budget : frame -> Z).

Lemma opAdd_ok : exec_ok opAdd None 2 1 budget.
Proof. apply exec_simple. op2. Qed.
Lemma opSub_ok : exec_ok opSub None 2 1 budget.
Proof. apply exec_simple. op2. Qed.
Lemma opMul_ok : exec_ok opMul None 2 1 budget.
Proof. apply exec_simple. op2. Qed.
Lemma opDiv_ok : exec_ok opDiv None 2 1 budget.
Proof. apply exec_simple. op2. Qed.
Lemma opSdiv_ok : exec_ok opSdiv None 2 1 budget.
Proof. apply exec_simple. op2. Qed.
Lemma opMod_ok : exec_ok opMod None 2 1 budget.
Proof. apply exec_simple. op2. Qed.
Lemma opSmod_ok : exec_ok opSmod None 2 1 budget.
Proof. apply exec_simple. op2. Qed.
Lemma opLt_ok : exec_ok opLt None 2 1 budget.
Proof. apply exec_simple. op2. Qed.
Lemma opGt_ok : exec_ok opGt None 2 1 budget.
Proof. apply exec_simple. op2. Qed.
Lemma opSlt_ok : exec_ok opSlt None 2 1 budget.
Proof. apply exec_simple. op2. Qed.
Lemma opSgt_ok : exec_ok opSgt None 2 1 budget.
Proof. apply exec_simple. op2. Qed.
Lemma opEq_ok : exec_ok opEq None 2 1 budget.
Proof. apply exec_simple. op2. Qed.
Lemma opAnd_ok : exec_ok opAnd None 2 1 budget.
Proof. apply exec_simple. op2. Qed.
Lemma opOr_ok : exec_ok opOr None 2 1 budget.
Proof. apply exec_simple. op2. Qed.
Lemma opXor_ok : exec_ok opXor None 2 1 budget.
Proof. apply exec_simple. op2. Qed.
Lemma opSHL_ok : exec_ok opSHL None 2 1 budget.
Proof. apply exec_simple. op2. Qed.
Lemma opSHR_ok : exec_ok opSHR None 2 1 budget.
Proof. apply exec_simple. op2. Qed.
Lemma opSAR_ok : exec_ok opSAR None 2 1 budget.
Proof. apply exec_simple. op2. Qed.
Lemma opExp_ok : exec_ok opExp None 2 1 budget.
Proof. apply exec_simple. op2; apply Exp_nonneg. Qed.
Lemma opByte_ok : exec_ok opByte None 2 1 budget.
Proof. apply exec_simple. op2; apply Byte_nonneg. Qed.
Lemma opSignExtend_ok : exec_ok opSignExtend None 2 1 budget.
Proof. apply exec_simple. op2. Qed.
Lemma opNot_ok : exec_ok opNot None 1 1 budget.
Proof. apply exec_simple. op1. Qed.
Lemma opIszero_ok : exec_ok opIszero None 1 1 budget.
Proof. apply exec_simple. op1. Qed.
Lemma opAddmod_ok : exec_ok opAddmod None 3 1 budget.
Proof. apply exec_simple. op3. Qed.
Lemma opMulmod_ok : exec_ok opMulmod None 3 1 budget.
Proof. apply exec_simple. op3. Qed.
End Arithmetic.

(** ** Environment *)
Section Environment.
Context (budget : frame -> Z).

Lemma opAddress_ok : exec_ok opAddress None 0 1 budget.
Proof. apply exec_simple. op0. Qed.
Lemma opOrigin_ok : exec_ok opOrigin None 0 1 budget.
Proof. apply exec_simple. op0. Qed.
Lemma opCaller_ok : exec_ok opCaller None 0 1 budget.
Proof. apply exec_simple. op0. Qed.
Lemma opCoinbase_ok : exec_ok opCoinbase None 0 1 budget.
Proof. apply exec_simple. op0. Qed.
Lemma opTimestamp_ok : exec_ok opTimestamp None 0 1 budget.
Proof. apply exec_simple. op0. Qed.
Lemma opGasLimit_ok : exec_ok opGasLimit None 0 1 budget.
Proof. apply exec_simple. op0. Qed.
Lemma opCallDataSize_ok : exec_ok opCallDataSize None 0 1 budget.
Proof. apply exec_simple. op0. Qed.
Lemma opReturnDataSize_ok : exec_ok opReturnDataSize None 0 1 budget.
Proof. apply exec_simple. op0. Qed.
Lemma opCodeSize_ok : exec_ok opCodeSize None 0 1 budget.
Proof. apply exec_simple. op0. Qed.
Lemma opMsize_ok : exec_ok opMsize None 0 1 budget.
Proof. apply exec_simple. op0. unfold Mem.Len. lia. Qed.
Lemma opPc_ok : exec_ok opPc None 0 1 budget.
Proof. apply exec_simple. op0. apply (frame_ok_pc _ Hf). Qed.
Lemma opGas_ok : exec_ok opGas None 0 1 budget.
Proof. apply exec_simple. op0. apply (contract_ok_gas _ (frame_ok_contract _ Hf)). Qed.

Lemma opCallValue_ok : exec_ok opCallValue None 0 1 budget.
Proof.
  apply exec_simple. intros run f Hf Hlen _.
  destruct (contract_ok_value _ (frame_ok_contract _ Hf)) as (v & Hv & ?).
  wp_steps. eapply wp_lift; [done|]. wp_steps. apply post_stack_only; [done| |simpl; lia].
  pose proof (frame_ok_stack _ Hf). solve_nonneg.
Qed.

Lemma opGasprice_ok : exec_ok opGasprice None 0 1 budget.
Proof.
  apply exec_simple. intros run f Hf Hlen _. destruct env_gasprice as (v & Hv & ?).
  wp_steps. eapply wp_lift; [done|]. wp_steps. apply post_stack_only; [done| |simpl; lia].
  pose proof (frame_ok_stack _ Hf). solve_nonneg.
Qed.

Lemma opNumber_ok : exec_ok opNumber None 0 1 budget.
Proof.
  apply exec_simple. intros run f Hf Hlen _. destruct env_block as [v Hv].
  wp_steps. eapply wp_lift; [done|]. wp_steps. apply post_stack_only; [done| |simpl; lia].
  pose proof (frame_ok_stack _ Hf). solve_nonneg.
Qed.

Lemma opDifficulty_ok : is_Some Difficulty -> exec_ok opDifficulty None 0 1 budget.
Proof.
  intros [v Hv]. apply exec_simple. intros run f Hf Hlen _.
  wp_steps. eapply wp_lift; [done|]. wp_steps. apply post_stack_only; [done| |simpl; lia].
  pose proof (frame_ok_stack _ Hf). solve_nonneg.
Qed.

Lemma opBlockhash_ok : exec_ok opBlockhash None 1 1 budget.
Proof.
  apply exec_simple. intros run f Hf Hlen _. destruct env_block as [v Hv].
  destruct (stack_1 f Hf Hlen) as (x & s & Es & Hx & Hs).
  wp_steps. eapply wp_lift; [done|]. wp_steps. split_branches; stack_end Es.
Qed.

Lemma opBalance_ok : exec_ok opBalance None 1 1 budget.
Proof.
  apply exec_simple. op1. apply law_balance, (frame_ok_evm _ Hf).
Qed.
Lemma opExtCodeHash_ok : exec_ok opExtCodeHash None 1 1 budget.
Proof. apply exec_simple. op1. Qed.
Lemma opSload_ok : exec_ok opSload None 1 1 budget.
Proof. apply exec_simple. op1. Qed.
Lemma opExtCodeSize_ok : exec_ok opExtCodeSize None 1 1 budget.
Proof.
  apply exec_simple. op1. repeat case_match; apply u64_range.
Qed.

Lemma opCallDataLoad_ok : exec_ok opCallDataLoad None 1 1 budget.
Proof.
  apply exec_simple. intros run f Hf Hlen _.
  destruct (stack_1 f Hf Hlen) as (x & s & Es & Hx & Hs).
  destruct (getDataBig_ok (Input (contract f)) x 32) as (d & Hd & Hb);
    [apply (frame_ok_contract _ Hf)|done|done|].
  wp_steps. eapply wp_lift; [exact Hd|]. stack_end Es. apply be_int_nonneg, Hb. done.
Qed.
End Environment.

(** ** Memory, storage and control flow *)
Section MemoryOps.
Context (budget : frame -> Z).

(** [fits] of the two-operand size functions is an access. *)
Lemma fits_access f off size o l :
  frame_ok f -> fits (Some (fun s => calc2 s o l)) f ->
  f.(stack) !! o = Some off -> f.(stack) !! l = Some size ->
  access f.(memory) off size.
Proof.
  intros Hf (sz & Hsz & Hle) Ho Hl. unfold calc2, Back in Hsz. rewrite Ho, Hl in Hsz.
  injection Hsz as <-. pose proof (frame_ok_stack _ Hf) as Hst. rewrite Forall_lookup in Hst.
  split_and!; [by eapply Hst|by eapply Hst|done].
Qed.

Lemma wp_mem_get f off size Q :
  frame_ok f -> access f.(memory) off size -> (forall d, is_bytes d -> Q (f, d)) ->
  wp (mem_get off size f) Q.
Proof.
  intros Hf Ha HQ. destruct (access_Get _ _ _ (frame_ok_memory _ Hf) Ha) as (d & Hd & Hb).
  unfold mem_get. wp_steps. eapply wp_lift; [done|]. by apply HQ.
Qed.
Lemma wp_mem_set (f : frame) off size v Q :
  memory_ok f.(memory) -> access f.(memory) off size -> is_bytes v ->
  (forall m', memory_ok m' -> Q (set_memory f m', tt)) ->
  wp (mem_set (Uint64 off) (Uint64 size) v f) Q.
Proof.
  intros Hm Ha Hv HQ. destruct (access_Set _ _ _ _ Hm Ha Hv) as (m' & Hm' & Hok & _).
  unfold mem_set. wp_steps. eapply wp_put_memory; [done|]. by apply HQ.
Qed.

(** Any instruction that keeps the contract, whatever else it writes. *)
Lemma post_kept pops pushes (f f' : frame) r :
  frame_ok f -> f'.(contract) = f.(contract) -> evm_ok f'.(evm) -> evm_rel f.(evm) f'.(evm) ->
  memory_ok f'.(memory) -> Forall nonneg f'.(stack) ->
  (r.2 = None -> (length f'.(stack) + pops = length f.(stack) + pushes)%nat) ->
  (f'.(pc) = f.(pc) \/ 0 <= f'.(pc) <= Z.of_nat (length f.(contract).(Code)) \/
    f.(pc) < f'.(pc) <= f.(pc) + 32) ->
  is_bytes r.1 ->
  exec_post pops pushes (own_gas f) f f' r.
Proof.
  intros Hf Hc He Hrel Hm Hs Hl Hp Hb. split; try done.
  exists f.(contract).(Gas). split; [rewrite Hc; by destruct (contract f)|].
  pose proof (contract_ok_gas _ (frame_ok_contract _ Hf)). unfold own_gas. lia.
Qed.

(** The parts of the frame that were not touched. *)
Ltac kept Hf :=
  apply post_kept; try done; try apply Hf; first [by left | apply is_bytes_nil].

Lemma opPop_ok : exec_ok opPop None 1 0 budget.
Proof. apply exec_simple. op1. Qed.

Lemma opJumpdest_ok : exec_ok opJumpdest None 0 0 budget.
Proof.
  apply exec_simple. intros run f Hf Hlen _. unfold opJumpdest, ret_nil. wp_steps.
  kept Hf.
Qed.

Lemma opStop_ok : exec_ok opStop None 0 0 budget.
Proof.
  apply exec_simple. intros run f Hf Hlen _. unfold opStop, ret_nil. wp_steps.
  kept Hf.
Qed.

Lemma opSha3_ok : exec_ok opSha3 (Some memorySha3) 2 1 budget.
Proof.
  apply exec_simple. intros run f Hf Hlen Hfit.
  destruct (stack_2 f Hf Hlen) as (x & y & s & Es & Hx & Hy & Hs).
  assert (Ha : access f.(memory) x y) by (eapply (fits_access f x y 0 1); by rewrite ?Es).
  destruct (access_Get _ _ _ (frame_ok_memory _ Hf) Ha) as (d & Hd & Hb).
  pose proof (frame_ok_evm _ Hf) as He.
  wp_steps. unfold mem_get. wp_steps. eapply wp_lift; [exact Hd|]. cbn [fst snd]. wp_step.
  destruct EnablePreimageRecording; unfold ret_nil; wp_steps.
  - apply (post_stack_db 2 1 f (SetBytes (Keccak256 d) :: s)); [done| |rewrite Es; simpl; lia|constructor].
    constructor; [apply be_int_nonneg, law_keccak|done].
  - rewrite ?set_stack_twice. apply post_stack_only; [done| |rewrite Es; simpl; lia].
    constructor; [apply be_int_nonneg, law_keccak|done].
Qed.

(** The copy instructions: data to memory, three operands. *)
Lemma copy_post f s m' : frame_ok f -> Forall nonneg s ->
  memory_ok m' -> (length s + 3 = length f.(stack))%nat ->
  exec_post 3 0 (own_gas f) f (set_memory (set_stack f s) m') ([], None).
Proof. intros. apply post_stack_memory; (done || lia). Qed.

Lemma opCallDataCopy_ok : exec_ok opCallDataCopy (Some memoryCallDataCopy) 3 0 budget.
Proof.
  apply exec_simple. intros run f Hf Hlen Hfit.
  destruct (stack_3 f Hf Hlen) as (x & y & z & s & Es & Hx & Hy & Hz & Hs).
  assert (Ha : access f.(memory) x z) by (eapply (fits_access f x z 0 2); by rewrite ?Es).
  pose proof (access_size _ _ _ (frame_ok_memory _ Hf) Ha).
  destruct (getDataBig_ok (Input (contract f)) y z) as (d & Hd & Hb);
    [apply (frame_ok_contract _ Hf)|done|done|].
  wp_steps. eapply wp_lift; [exact Hd|]. cbn [fst snd]. wp_step.
  apply wp_mem_set; [apply Hf|done|by apply Hb|]. intros m' Hm'. unfold ret_nil. wp_steps.
  rewrite ?set_stack_twice. apply copy_post; [done..|rewrite Es; simpl; lia].
Qed.

Lemma opCodeCopy_ok : exec_ok opCodeCopy (Some memoryCodeCopy) 3 0 budget.
Proof.
  apply exec_simple. intros run f Hf Hlen Hfit.
  destruct (stack_3 f Hf Hlen) as (x & y & z & s & Es & Hx & Hy & Hz & Hs).
  assert (Ha : access f.(memory) x z) by (eapply (fits_access f x z 0 2); by rewrite ?Es).
  pose proof (access_size _ _ _ (frame_ok_memory _ Hf) Ha).
  destruct (getDataBig_ok (Code (contract f)) y z) as (d & Hd & Hb);
    [apply (frame_ok_contract _ Hf)|done|done|].
  wp_steps. eapply wp_lift; [exact Hd|]. cbn [fst snd]. wp_step.
  apply wp_mem_set; [apply Hf|done|by apply Hb|]. intros m' Hm'. unfold ret_nil. wp_steps.
  rewrite ?set_stack_twice. apply copy_post; [done..|rewrite Es; simpl; lia].
Qed.

Lemma opReturnDataCopy_ok : exec_ok opReturnDataCopy (Some memoryReturnDataCopy) 3 0 budget.
Proof.
  apply exec_simple. intros run f Hf Hlen Hfit.
  destruct (stack_3 f Hf Hlen) as (x & y & z & s & Es & Hx & Hy & Hz & Hs).
  assert (Ha : access f.(memory) x z) by (eapply (fits_access f x z 0 2); by rewrite ?Es).
  pose proof (frame_ok_evm _ Hf) as [Hdb Hh Hrd Hj Ht].
  wp_steps. cbn [evm returnData set_stack].
  destruct (Z.ltb_spec 64 (BitLen (y + z))) as [|Hb64]; cbn [orb].
  { wp_steps. rewrite ?set_stack_twice. kept Hf. }
  apply BitLen_le in Hb64; [|lia]. rewrite Z.abs_eq in Hb64 by lia.
  rewrite (Uint64_small (y + z)), (Uint64_small y) by (unfold is_u64; lia).
  destruct (Z.ltb_spec (Z.of_nat (length (returnData (evm f)))) (y + z)).
  { wp_steps. rewrite ?set_stack_twice. kept Hf. }
  destruct (slice_Some (returnData (evm f)) y (y + z)) as (d & Hd & _); [lia|done|].
  wp_steps. eapply wp_lift; [exact Hd|]. cbn [fst snd]. wp_step.
  apply wp_mem_set; [apply Hf|done|by eapply slice_bytes|]. intros m' Hm'. unfold ret_nil. wp_steps.
  rewrite ?set_stack_twice. apply copy_post; [done..|rewrite Es; simpl; lia].
Qed.

Lemma opExtCodeCopy_ok : exec_ok opExtCodeCopy (Some memoryExtCodeCopy) 4 0 budget.
Proof.
  apply exec_simple. intros run f Hf Hlen Hfit.
  pose proof (frame_ok_stack _ Hf) as Hst.
  destruct (stack f) as [|a [|x [|y [|z s]]]] eqn:Es; simpl in Hlen; try lia.
  assert (Ha : access f.(memory) x z) by (eapply (fits_access f x z 1 3); by rewrite ?Es).
  repeat (apply Forall_cons in Hst as [? Hst]). unfold nonneg in *.
  pose proof (access_size _ _ _ (frame_ok_memory _ Hf) Ha).
  destruct (getDataBig_ok (GetCode (evm_StateDB (evm f)) (BigToAddress a)) y z) as (d & Hd & Hb);
    [apply law_code, (frame_ok_evm _ Hf)|done|done|].
  wp_steps. eapply wp_lift; [exact Hd|]. cbn [fst snd]. wp_step.
  apply wp_mem_set; [apply Hf|done|by apply Hb|]. intros m' Hm'. unfold ret_nil. wp_steps.
  rewrite ?set_stack_twice. apply post_stack_memory; [done..|rewrite Es; simpl; lia|done].
Qed.
End MemoryOps.

(** ** Words of memory, storage, jumps *)
Section Control.
Context (budget : frame -> Z).

(** The one-operand size functions. *)
Lemma fits_word f off n :
  frame_ok f -> fits (Some (fun s => o ← Back s 0; Some (calcMemSize o n))) f ->
  f.(stack) !! 0%nat = Some off -> 0 < n -> access f.(memory) off n.
Proof.
  intros Hf (sz & Hsz & Hle) Ho Hn. unfold Back in Hsz. rewrite Ho in Hsz. injection Hsz as <-.
  pose proof (frame_ok_stack _ Hf) as Hst. rewrite Forall_lookup in Hst.
  split_and!; [by eapply Hst|lia|done].
Qed.

Lemma opMload_ok : exec_ok opMload (Some memoryMLoad) 1 1 budget.
Proof.
  apply exec_simple. intros run f Hf Hlen Hfit.
  destruct (stack_1 f Hf Hlen) as (x & s & Es & Hx & Hs).
  assert (Ha : access f.(memory) x 32) by (apply fits_word; [done|done|by rewrite Es|done]).
  destruct (access_Get _ _ _ (frame_ok_memory _ Hf) Ha) as (d & Hd & Hb).
  wp_steps. eapply wp_lift; [exact Hd|]. cbn [fst snd]. stack_end Es. apply be_int_nonneg, Hb.
Qed.

Lemma opMstore_ok : exec_ok opMstore (Some memoryMStore) 2 0 budget.
Proof.
  apply exec_simple. intros run f Hf Hlen Hfit.
  destruct (stack_2 f Hf Hlen) as (x & y & s & Es & Hx & Hy & Hs).
  assert (Ha : access f.(memory) x 32) by (apply fits_word; [done|done|by rewrite Es|done]).
  destruct (access_cases _ _ _ (frame_ok_memory _ Hf) Ha) as [|(? & ? & ?)]; [done|].
  destruct (memory_Set32_ok f.(memory) x y) as (m' & Hm' & Hok & _); [apply Hf|done|done|].
  wp_steps. rewrite Uint64_small by (unfold is_u64; lia).
  eapply wp_put_memory; [exact Hm'|]. cbn [fst snd]. unfold ret_nil. wp_steps.
  rewrite ?set_stack_twice. apply post_stack_memory; [done..|rewrite Es; simpl; lia|done].
Qed.

Lemma opMstore8_ok : exec_ok opMstore8 (Some memoryMStore8) 2 0 budget.
Proof.
  apply exec_simple. intros run f Hf Hlen Hfit.
  destruct (stack_2 f Hf Hlen) as (x & y & s & Es & Hx & Hy & Hs).
  assert (Ha : access f.(memory) x 1) by (apply fits_word; [done|done|by rewrite Es|done]).
  destruct (frame_ok_memory _ Hf) as [Hmb Hmw Hml].
  destruct (access_cases _ _ _ (frame_ok_memory _ Hf) Ha) as [|(? & ? & ?)]; [done|].
  wp_steps. rewrite Int64_small by lia. cbn [memory set_stack].
  rewrite (proj2 (Z.leb_le 0 x)), (proj2 (Z.ltb_lt x _)) by lia. cbn [andb].
  eapply wp_put_memory; [done|]. cbn [fst snd]. unfold ret_nil. wp_steps.
  rewrite ?set_stack_twice. apply post_stack_memory; [done..|rewrite Es; simpl; lia|].
  assert (Hl : length (<[Z.to_nat x:=u8 (Z.land (Int64 y) 255)]> (store (memory f)))
               = length (store (memory f))) by apply length_insert.
  split; unfold Mem.Len in *; simpl; rewrite ?Hl; [|done|done].
  apply Forall_insert; [done|]. apply Z.mod_pos_bound. done.
Qed.

Lemma opSstore_ok : exec_ok opSstore None 2 0 budget.
Proof.
  apply exec_simple. intros run f Hf Hlen Hfit.
  destruct (stack_2 f Hf Hlen) as (x & y & s & Es & Hx & Hy & Hs).
  unfold opSstore, ret_nil. wp_steps.
  apply (post_stack_db 2 0 f s); [done..|rewrite Es; simpl; lia|constructor].
Qed.

Lemma opSuicide_ok : exec_ok opSuicide None 1 0 budget.
Proof.
  apply exec_simple. intros run f Hf Hlen Hfit.
  destruct (stack_1 f Hf Hlen) as (x & s & Es & Hx & Hs).
  unfold opSuicide, ret_nil. wp_steps.
  pose proof (frame_ok_evm _ Hf) as [Hdb Hh Hr Hj Ht].
  set (d0 := evm_StateDB (evm f)) in *. set (a := Address (contract f)).
  assert (Hm1 : mutation d0 (AddBalance d0 (BigToAddress x) (GetBalance d0 a))).
  { constructor. by apply law_balance. }
  destruct (law_mutation _ _ Hm1 Hdb) as [Hdb1 Hl1].
  assert (Hm2 : mutation (AddBalance d0 (BigToAddress x) (GetBalance d0 a))
    (SuicideAccount (AddBalance d0 (BigToAddress x) (GetBalance d0 a)) a).1) by constructor.
  destruct (law_mutation _ _ Hm2 Hdb1) as [Hdb2 Hl2].
  apply post_kept; try done; try apply Hf;
    [split; [done|done|]|simpl; rewrite Es; simpl; lia|by left].
  transitivity (AddBalance d0 (BigToAddress x) (GetBalance d0 a)); [exact Hl1|exact Hl2].
Qed.

Lemma opReturn_ok : exec_ok opReturn (Some memoryReturn) 2 0 budget.
Proof.
  apply exec_simple. intros run f Hf Hlen Hfit.
  destruct (stack_2 f Hf Hlen) as (x & y & s & Es & Hx & Hy & Hs).
  assert (Ha : access f.(memory) x y) by (eapply (fits_access f x y 0 1); by rewrite ?Es).
  destruct (access_Get _ _ _ (frame_ok_memory _ Hf) Ha) as (d & Hd & Hb).
  wp_steps. eapply wp_lift; [exact Hd|]. wp_steps. rewrite ?set_stack_twice.
  apply post_kept; try done; try apply Hf; [simpl; rewrite Es; simpl; lia|by left].
Qed.

Lemma opRevert_ok : exec_ok opRevert (Some memoryRevert) 2 0 budget.
Proof. exact opReturn_ok. Qed.

Lemma wp_check_dest (f : frame) pos Q :
  frame_ok f -> 0 <= pos -> in_use f.(contract).(Code) = true ->
  (forall d b, cache_ok d ->
     (b = true -> 0 <= Uint64 pos < Z.of_nat (length f.(contract).(Code))) ->
     Q (set_evm f (set_jumpdests f.(evm) d), b)) ->
  wp (check_dest pos f) Q.
Proof.
  intros Hf Hpos Huse HQ. destruct (frame_ok_contract _ Hf) as [[Hcb Hcl] Hch _ _ _].
  pose proof (evm_ok_cache _ (frame_ok_evm _ Hf)) as Hcache.
  unfold check_dest. destruct Hch as [Hnil|Hhash].
  { rewrite Hnil, has_nil. apply HQ; done. }
  destruct (has_exact (jumpdests (evm f)) (CodeHash (contract f)) (Code (contract f)) pos)
    as (d' & -> & Hc' & Hd'); [|done|done|].
  { intros m. rewrite Hhash. by apply Hcache. }
  apply HQ.
  - intros c m Hc Hm. destruct (decide (NewHash c = CodeHash (contract f))) as [He|Hne].
    + rewrite Hhash in He. apply in_use_hash in He as ->; [|done..]. rewrite <- Hhash in Hm.
      by apply Hc'.
    + rewrite Hd' in Hm by done. by apply Hcache.
  - unfold valid_jumpdest. intros Hv. apply andb_true_iff in Hv as [Hv _].
    apply andb_true_iff in Hv as [Hv Hop%bool_decide_eq_true_1].
    apply andb_true_iff in Hv as [_ Hlt%Z.ltb_lt]. apply lookup_lt_Some in Hop.
    rewrite Uint64_small; [lia|]. unfold is_u64. lia.
Qed.

Lemma frame_ok_stack_tail f x s : frame_ok f -> f.(stack) = x :: s -> frame_ok (set_stack f s).
Proof.
  intros [Hc Hm Hst He Hp] Es. rewrite Es in Hst. apply Forall_cons in Hst as [_ ?]. by split.
Qed.

Lemma opJump_ok : exec_ok opJump None 1 0 budget.
Proof.
  apply exec_in_use. intros run f Hf Hlen Hfit Huse.
  destruct (stack_1 f Hf Hlen) as (x & s & Es & Hx & Hs).
  pose proof (frame_ok_evm _ Hf) as [Hdb Hh Hr Hj Ht].
  wp_steps. apply wp_check_dest; [by eapply frame_ok_stack_tail|done|done|].
  intros d b Hd Hb. cbn [fst snd]. destruct b; cbn [negb]; unfold ret_nil; wp_steps.
  - apply post_kept; try done; try apply Hf;
      [simpl; rewrite Es; simpl; lia|right; left; specialize (Hb eq_refl); simpl in *; lia].
  - apply post_kept; try done; try apply Hf; by left.
Qed.

Lemma opJumpi_ok : exec_ok opJumpi None 2 0 budget.
Proof.
  apply exec_in_use. intros run f Hf Hlen Hfit Huse.
  destruct (stack_2 f Hf Hlen) as (x & y & s & Es & Hx & Hy & Hs).
  pose proof (frame_ok_evm _ Hf) as [Hdb Hh Hr Hj Ht].
  wp_steps. destruct (y =? 0); cbn [negb].
  { unfold ret_nil. wp_steps. rewrite ?set_stack_twice.
    pose proof (frame_ok_pc _ Hf). destruct (frame_ok_contract _ Hf) as [[_ ?] _ _ _ _].
    apply post_kept; try done; try apply Hf;
      [simpl; rewrite Es; simpl; lia|].
    right. right. simpl. rewrite u64_id by (unfold is_u64; lia). lia. }
  wp_steps. apply wp_check_dest;
    [eapply frame_ok_stack_tail; [by eapply frame_ok_stack_tail|done]|done|done|].
  intros d b Hd Hb. cbn [fst snd]. destruct b; cbn [negb]; unfold ret_nil; wp_steps.
  - apply post_kept; try done; try apply Hf;
      [simpl; rewrite Es; simpl; lia|right; left; specialize (Hb eq_refl); simpl in *; lia].
  - apply post_kept; try done; try apply Hf; by left.
Qed.
End Control.

(** ** The families *)
Section Families.
Context (budget : frame -> Z).

Lemma makeDup_ok n : (1 <= n)%nat -> exec_ok (makeDup n) None n (n + 1) budget.
Proof.
  intros Hn. apply exec_simple. intros run f Hf Hlen _. unfold makeDup, ret_nil. wp_step.
  unfold dup. destruct (lookup_lt_is_Some_2 (stack f) (n - 1)) as [x Hx]; [lia|]. rewrite Hx.
  pose proof (frame_ok_stack _ Hf) as Hst. cbn [wp fst snd]. wp_steps.
  apply post_stack_only; [done|constructor; [by eapply Forall_lookup_1|done]|simpl; lia].
Qed.

Lemma makeSwap_ok n : exec_ok (makeSwap n) None (n + 1) (n + 1) budget.
Proof.
  apply exec_simple. intros run f Hf Hlen _. unfold makeSwap, ret_nil. wp_step.
  unfold swap. destruct (exchange_Some (stack f) (n + 1 - 1) 0) as [s Hs]; [lia..|]. rewrite Hs.
  cbn [wp fst snd]. wp_steps.
  apply post_stack_only; [done| |by rewrite (exchange_length _ _ _ _ Hs)].
  rewrite (exchange_Permutation _ _ _ _ Hs). apply Hf.
Qed.

Lemma makePush_ok size n : 0 <= size <= 32 -> 0 <= n <= 32 ->
  exec_ok (makePush size n) None 0 1 budget.
Proof.
  intros Hsize Hn. apply exec_simple. intros run f Hf Hlen _.
  pose proof (frame_ok_pc _ Hf) as Hpc. pose proof (frame_ok_stack _ Hf) as Hst.
  destruct (frame_ok_contract _ Hf) as [[Hcb Hcl] _ _ _ _].
  unfold makePush, ret_nil. wp_steps.
  rewrite (u64_id (pc f + 1)), i64_id by (unfold is_u64, is_i64; lia).
  set (len := Z.of_nat (length (Code (contract f)))) in *.
  set (start := if pc f + 1 <? len then pc f + 1 else len).
  set (end_ := if start + n <? len then start + n else len).
  assert (0 <= start <= end_ /\ end_ <= len) as [? ?].
  { subst start end_. destruct (Z.ltb_spec (pc f + 1) len);
      [destruct (Z.ltb_spec (pc f + 1 + n) len) | destruct (Z.ltb_spec (len + n) len)]; lia. }
  destruct (slice_Some (Code (contract f)) start end_) as (d & Hd & _); [done..|].
  eapply wp_lift; [exact Hd|]. wp_steps.
  apply post_kept; try done; try apply Hf.
  - constructor; [|done]. apply be_int_nonneg, RightPadBytes_bytes; [|lia].
    eapply slice_bytes; [|done]. by split.
  - simpl. lia.
  - simpl. rewrite u64_id by (unfold is_u64; lia). destruct (decide (size = 0)); [left|right; right]; lia.
Qed.

Lemma wp_pop_n n (f : frame) Q :
  Forall nonneg f.(stack) -> (n <= length f.(stack))%nat ->
  (forall l s, f.(stack) = l ++ s -> length l = n -> Forall nonneg s -> Q (set_stack f s, l)) ->
  wp (pop_n n f) Q.
Proof.
  revert f Q. induction n as [|n IH]; intros f Q Hs Hl HQ.
  - apply wp_ret. specialize (HQ [] (stack f) eq_refl eq_refl Hs). by destruct f.
  - destruct (stack f) as [|x s] eqn:Es; [simpl in Hl; lia|]. cbn [pop_n]. wp_steps.
    apply Forall_cons in Hs as [Hx Hs]. apply IH; [done|simpl in *; lia|].
    intros l s' Hl' Hlen Hs'. cbn [fst snd]. wp_steps. rewrite set_stack_twice.
    apply (HQ (x :: l)); [|simpl; lia|done]. simpl in *. by rewrite Hl'.
Qed.

Lemma makeLog_ok n : exec_ok (makeLog n) (Some memoryLog) (n + 2) 0 budget.
Proof.
  apply exec_simple. intros run f Hf Hlen Hfit. destruct env_block as [b Hb].
  destruct (stack_2 f Hf) as (x & y & s & Es & Hx & Hy & Hs); [lia|].
  assert (Ha : access f.(memory) x y).
  { destruct Hfit as (sz & Hsz & Hle). unfold memoryLog, Back in Hsz. rewrite Es in Hsz.
    injection Hsz as <-. by split_and!. }
  destruct (access_Get _ _ _ (frame_ok_memory _ Hf) Ha) as (d & Hd & Hbd).
  unfold makeLog, mem_get, ret_nil. wp_steps. apply wp_pop_n; [done|rewrite Es in Hlen; simpl in *; lia|].
  intros l s' Hl Hln Hs'. cbn [fst snd]. wp_steps. eapply wp_lift; [exact Hd|]. wp_steps.
  eapply wp_lift; [exact Hb|]. wp_steps. rewrite !set_stack_twice. simpl in Hl.
  match goal with |- exec_post _ _ _ _ (set_evm _ (set_StateDB _ ?d)) _ =>
    apply (post_stack_db (n + 2) 0 f s' d) end; [done..| |constructor].
  rewrite Es, Hl. simpl. rewrite length_app. lia.
Qed.
End Families.
End Safety.
