(* ===== verification/CallSafety.v ===== *)
(** * Message calls keep the invariant

    Call, CallCode, DelegateCall, StaticCall and create, over any safe [run]:
    they do not panic, hand back no more gas than they were given, and leave
    the machine as a call must: depth and read-only flag restored, every older
    snapshot still revertible.  The instructions that make calls follow. *)
From Stdlib Require Import ZArith Lia.
From S2P Require Import Prelude Word Config OpCodes Analysis Machine Gas Calls Instructions.
From S2P Require Import JumpTable StateSpec Invariant Safety.
Import Big Op.
Open Scope Z_scope.
Local Opaque HashBig AddressBig U256 Exp Byte BigToAddress BigToHash.

Section CallSafety.
Context {db disk : Type} {SDB : StateDB db} {QH : VMStateQueryHelper db disk} {CR : Crypto}
  {EN : Env} {laws : StateLaws db disk} {CU : CodesInUse} {EO : EnvOk}.
Abbreviation EVM := (EVM db disk).
Abbreviation frame := (frame db disk).
Abbreviation M := (M db disk).
Implicit Types e : EVM.

(** ** Updates of the machine *)
Lemma evm_ok_StateDB e s : evm_ok e -> db_ok s -> evm_ok (set_StateDB e s).
Proof. intros [] ?. by split. Qed.

Lemma evm_rel_StateDB e s : keeps e.(evm_StateDB) s ->
  evm_rel e (set_StateDB e s).
Proof. by split. Qed.

(** A live snapshot stays, with what it saved. *)
Lemma rel_saved e e' id x : evm_rel e e' -> live e.(evm_StateDB) id ->
  saved e.(evm_StateDB) id ≡ x ->
  live e'.(evm_StateDB) id /\ saved e'.(evm_StateDB) id ≡ x.
Proof. intros Hr Hl <-. by apply (rel_live _ _ Hr). Qed.

Lemma evm_mutate e s : evm_ok e -> mutation e.(evm_StateDB) s ->
  evm_ok (set_StateDB e s) /\ evm_rel e (set_StateDB e s).
Proof.
  intros He Hm. destruct (law_mutation _ _ Hm (evm_ok_db _ He)) as [? ?].
  split; [by apply evm_ok_StateDB|by apply evm_rel_StateDB].
Qed.

Lemma evm_ok_readOnly e b : evm_ok e -> evm_ok (set_readOnly e b).
Proof. intros []. by split. Qed.

Lemma Snapshot_ok e : evm_ok e ->
  let '(e', id) := Snapshot_ e in
  evm_ok e' /\ evm_rel e e' /\ live e'.(evm_StateDB) id /\
  (forall i, live e.(evm_StateDB) i -> i < id) /\
  saved e'.(evm_StateDB) id ≡ view e.(evm_StateDB) /\
  (forall a, GetBalance e'.(evm_StateDB) a = GetBalance e.(evm_StateDB) a).
Proof.
  intros He. unfold Snapshot_. pose proof (law_snapshot _ (evm_ok_db _ He)) as Hs.
  destruct (Snapshot (evm_StateDB e)) as [s id]. destruct Hs as (Hok & Hid & Hsv & _ & Hold & Hbal).
  split; [by apply evm_ok_StateDB|].
  split; [apply evm_rel_StateDB; intros i Hi; by apply Hold|].
  split; [done|]. split; [intros i Hi; by apply Hold|done].
Qed.

Lemma NewContract_ok e r obj v gas : evm_ok e ->
  let '(e', c) := NewContract e r obj v gas in
  evm_ok e' /\ evm_rel e e' /\ e'.(evm_StateDB) = e.(evm_StateDB) /\
  c = {| CallerAddress := RefAddress r; Machine.caller := r; self := obj; Code := [];
         CodeHash := 0; CodeAddr := None; Input := []; Gas := gas; Machine.value := v;
         DelegateCall_ := false |}.
Proof.
  intros He. destruct r; simpl; [|done].
  split; [|by split_and!]. destruct He. by split.
Qed.

(** The balance check of a call makes its transfer legal. *)
Lemma Transfer_ok e from to v : evm_ok e ->
  0 <= v <= GetBalance e.(evm_StateDB) from ->
  evm_ok (set_StateDB e (Transfer e.(evm_StateDB) from to v)) /\
  evm_rel e (set_StateDB e (Transfer e.(evm_StateDB) from to v)).
Proof.
  intros He Hv. unfold Transfer.
  destruct (law_mutation _ _ (mut_SubBalance _ from v Hv) (evm_ok_db _ He)) as [H1 L1].
  destruct (law_mutation (SubBalance (evm_StateDB e) from v) _
    (mut_AddBalance _ to v ltac:(lia)) H1) as [H2 L2].
  split; [by apply evm_ok_StateDB|apply evm_rel_StateDB]. by etrans; [exact L1|exact L2].
Qed.

Lemma settle_ok e0 e c id err :
  evm_ok e -> live e.(evm_StateDB) id -> evm_rel e0 e ->
  (forall i, live e0.(evm_StateDB) i -> i < id) -> 0 <= c.(Gas) ->
  wp (settle e c id err) (fun r =>
    evm_ok r.1 /\ evm_rel e0 r.1 /\ 0 <= r.2.(Gas) <= c.(Gas) /\
    (err <> None -> view r.1.(evm_StateDB) ≡ saved e.(evm_StateDB) id)).
Proof.
  intros He Hl Hrel Hlt Hg. unfold settle. destruct err as [x|]; [|by split_and!].
  destruct (law_revert _ _ (evm_ok_db _ He) Hl) as (s & Hs & Hok & Hv & Hlive). rewrite Hs. simpl.
  split; [by apply evm_ok_StateDB|]. split; [|split; [case_decide; simpl; lia|done]].
  destruct Hrel as [Hd Hr Hle]. split; simpl; [done..|]. intros i Hi.
  destruct (Hle i Hi) as [Hi' Es]. destruct (Hlive i Hi' (Hlt i Hi)) as [? Es'].
  split; [done|]. by rewrite Es'.
Qed.

Section WithRun.
Context (limit : Z) (run : recursor db disk) (Hrun : recursor_ok limit run).

(** What every call promises. *)
Definition call_post e (gas : Z) (r : EVM * (list Z * Z * option vm_error)) : Prop :=
  let '(e', (ret, leftOver, err)) := r in
  evm_ok e' /\ evm_rel e e' /\ 0 <= leftOver <= gas /\ is_bytes ret /\
  (err <> None -> view e'.(evm_StateDB) ≡ view e.(evm_StateDB)).

Lemma call_post_refused e gas err : evm_ok e -> 0 <= gas -> call_post e gas (e, ([], gas, err)).
Proof.
  intros. unfold call_post. split; [done|]. split; [done|]. split; [lia|].
  split; [apply is_bytes_nil|done].
Qed.

(** Running the code of [addr] and settling. *)
Lemma run_settle_ok e0 e c addr input id gas :
  evm_ok e -> evm_rel e0 e -> live e.(evm_StateDB) id ->
  (forall i, live e0.(evm_StateDB) i -> i < id) ->
  saved e.(evm_StateDB) id ≡ view e0.(evm_StateDB) ->
  c.(Gas) = gas -> 0 <= gas < max_gas -> gas <= limit -> is_bytes input ->
  c.(Input) = [] -> (exists v, c.(value) = Some v /\ 0 <= v) ->
  let c := SetCallCode c addr (GetCodeHash e.(evm_StateDB) addr) (GetCode e.(evm_StateDB) addr) in
  wp ('(e, c, (ret, err)) ← run e c input;
      '(e, c) ← settle e c id err;
      Ret (e, (ret, c.(Gas), err))) (call_post e0 gas).
Proof.
  intros He Hrel Hl Hlt Hsv Hg Hgas Hlim Hin Hci Hcv c'.
  assert (Hc : contract_ok c').
  { split; subst c'; simpl; try done.
    - apply law_code, (evm_ok_db _ He).
    - apply law_code_hash, (evm_ok_db _ He).
    - rewrite Hci. apply is_bytes_nil.
    - by rewrite Hg. }
  apply wp_bind. eapply wp_mono; [apply Hrun; [done|done|done|simpl; lia]|].
  intros [[e1 c1] [ret err]] (He1 & Hrel1 & Hg1 & Hb). simpl in Hg1, Hb.
  apply wp_bind. eapply wp_mono; [apply (settle_ok e0)|].
  - done.
  - by apply (rel_live _ _ Hrel1).
  - by etrans.
  - done.
  - lia.
  - intros [e2 c2] (He2 & Hrel2 & Hg2 & Hv2). simpl in *. split; [done|]. split; [done|].
    split; [lia|]. split; [done|]. intros Herr. rewrite Hv2 by done.
    by destruct (rel_live _ _ Hrel1 id Hl) as [_ ->].
Qed.

Lemma Call_ok e r addr input gas v :
  evm_ok e -> 0 <= gas < max_gas -> gas <= limit -> 0 <= v -> is_bytes input ->
  wp (Call run e r addr input gas v) (call_post e gas).
Proof.
  intros He Hgas Hlim Hv Hin. unfold Call.
  case_match; [by apply call_post_refused; [|lia]|].
  case_match; [by apply call_post_refused; [|lia]|].
  destruct (CanTransfer (evm_StateDB e) (RefAddress r) v) eqn:Ect; cbn [negb];
    [|by apply call_post_refused; [|lia]].
  unfold CanTransfer in Ect. apply Z.leb_le in Ect.
  pose proof (Snapshot_ok e He) as Hs. destruct (Snapshot_ e) as [e1 id].
  destruct Hs as (He1 & Hr1 & Hl1 & Hlt & Hsv & Hb1).
  case_match.
  { split; [done|]. split; [done|]. split; [lia|]. split; [apply is_bytes_nil|done]. }
  set (e2 := if negb (Exist (evm_StateDB e1) addr) then _ else e1).
  assert (evm_ok e2 /\ evm_rel e1 e2 /\ GetBalance e1.(evm_StateDB) (RefAddress r) <=
    GetBalance e2.(evm_StateDB) (RefAddress r)) as (He2 & Hr2 & Hb2).
  { subst e2. case_match; [|by split_and!].
    destruct (evm_mutate e1 _ He1 (mut_CreateAccount _ addr)) as [? ?].
    split_and!; [done..|]. apply law_create_balance, (evm_ok_db _ He1). }
  destruct (Transfer_ok e2 (RefAddress r) (RefAddress (AccountRef addr)) v He2) as [He3 Hr3].
  { rewrite Hb1 in Hb2. lia. }
  set (e3 := set_StateDB e2 _) in *.
  pose proof (NewContract_ok e3 r (AccountRef addr) (Some v) gas He3) as Hn.
  destruct (NewContract e3 r (AccountRef addr) (Some v) gas) as [e4 c].
  destruct Hn as (He4 & Hr4 & Hdb4 & ->).
  assert (Hr14 : evm_rel e1 e4) by (etrans; [exact Hr2|]; by etrans).
  destruct (rel_saved e1 e4 id _ Hr14 Hl1 Hsv) as [Hl4 Hsv4].
  apply (run_settle_ok e e4); try done; [by etrans|by exists v].
Qed.

Lemma CallCode_ok e r addr input gas v :
  evm_ok e -> 0 <= gas < max_gas -> gas <= limit -> 0 <= v -> is_bytes input ->
  wp (CallCode run e r addr input gas v) (call_post e gas).
Proof.
  intros He Hgas Hlim Hv Hin. unfold CallCode.
  case_match; [by apply call_post_refused; [|lia]|].
  case_match; [by apply call_post_refused; [|lia]|].
  case_match; [by apply call_post_refused; [|lia]|].
  pose proof (Snapshot_ok e He) as Hs. destruct (Snapshot_ e) as [e1 id].
  destruct Hs as (He1 & Hr1 & Hl1 & Hlt & Hsv & Hb1).
  pose proof (NewContract_ok e1 r (AccountRef (RefAddress r)) (Some v) gas He1) as Hn.
  destruct (NewContract e1 r (AccountRef (RefAddress r)) (Some v) gas) as [e4 c].
  destruct Hn as (He4 & Hr4 & Hdb4 & ->).
  destruct (rel_saved e1 e4 id _ Hr4 Hl1 Hsv) as [Hl4 Hsv4].
  apply (run_settle_ok e e4); try done; [by etrans|by exists v].
Qed.

Lemma DelegateCall_ok e self cal addr input gas v :
  evm_ok e -> 0 <= gas < max_gas -> gas <= limit -> 0 <= v -> is_bytes input ->
  wp (DelegateCall run e (ContractPtr self cal (Some v)) addr input gas) (call_post e gas).
Proof.
  intros He Hgas Hlim Hv Hin. unfold DelegateCall.
  case_match; [by apply call_post_refused; [|lia]|].
  case_match; [by apply call_post_refused; [|lia]|].
  pose proof (Snapshot_ok e He) as Hs. destruct (Snapshot_ e) as [e1 id].
  destruct Hs as (He1 & Hr1 & Hl1 & Hlt & Hsv & Hb1).
  set (r := ContractPtr self cal (Some v)).
  pose proof (NewContract_ok e1 r (AccountRef (RefAddress r)) None gas He1) as Hn.
  destruct (NewContract e1 r (AccountRef (RefAddress r)) None gas) as [e4 c].
  destruct Hn as (He4 & Hr4 & Hdb4 & ->). cbn [AsDelegate Machine.caller].
  change (or_panic (Some ?x)) with (Ret (E:=nofuel) x).
  unfold r at 1. cbn [or_panic mbind outcome_bind].
  destruct (rel_saved e1 e4 id _ Hr4 Hl1 Hsv) as [Hl4 Hsv4].
  apply (run_settle_ok e e4); try done; [by etrans|by exists v].
Qed.

Lemma StaticCall_ok e r addr input gas :
  evm_ok e -> 0 <= gas < max_gas -> gas <= limit -> is_bytes input ->
  wp (StaticCall run e r addr input gas) (call_post e gas).
Proof.
  intros He Hgas Hlim Hin. unfold StaticCall.
  case_match; [by apply call_post_refused; [|lia]|].
  case_match; [by apply call_post_refused; [|lia]|].
  set (e0 := if readOnly e then e else set_readOnly e true).
  assert (He0 : evm_ok e0) by (subst e0; case_match; [done|by apply evm_ok_readOnly]).
  assert (Hdb0 : evm_StateDB e0 = evm_StateDB e) by (subst e0; by case_match).
  assert (Hd0 : depth e0 = depth e) by (subst e0; by case_match).
  pose proof (Snapshot_ok e0 He0) as Hs. destruct (Snapshot_ e0) as [e1 id].
  destruct Hs as (He1 & Hr1 & Hl1 & Hlt & Hsv & Hb1).
  pose proof (NewContract_ok e1 r (AccountRef addr) (Some 0) gas He1) as Hn.
  destruct (NewContract e1 r (AccountRef addr) (Some 0) gas) as [e4 c].
  destruct Hn as (He4 & Hr4 & Hdb4 & ->).
  assert (Hw := run_settle_ok e0 e4 {| CallerAddress := RefAddress r; Machine.caller := r;
    self := AccountRef addr; Code := []; CodeHash := 0; CodeAddr := None; Input := []; Gas := gas;
    Machine.value := Some 0; DelegateCall_ := false |} addr input id gas He4).
  cbv zeta in Hw.
  destruct (rel_saved e1 e4 id _ Hr4 Hl1 Hsv) as [Hl4 Hsv4].
  specialize (Hw ltac:(by etrans) Hl4 Hlt Hsv4 eq_refl Hgas Hlim Hin eq_refl
    ltac:(by exists 0)).
  revert Hw. destruct (run e4 _ input) as [[[e5 c5] [ret err]]|[]|]; [|done..].
  cbn [mbind outcome_bind]. destruct (settle e5 c5 id err) as [[e6 c6]|[]|]; [|done..].
  cbn [mbind outcome_bind wp call_post]. intros (He6 & [Hd6 Hro6 Hl6] & Hg6 & Hb6 & Hv6).
  split; [case_match; [done|by apply evm_ok_readOnly]|].
  split; [|split; [done|split; [done|by rewrite <- Hdb0; case_match]]].
  subst e0. destruct (readOnly e) eqn:Ero; [by split|].
  split; simpl in *; [done|congruence|done].
Qed.

(** The creator with its nonce counted up, which a failed creation keeps. *)
Definition bumped e (r : ContractRef) : db :=
  SetNonce e.(evm_StateDB) (RefAddress r) (u64 (GetNonce e.(evm_StateDB) (RefAddress r) + 1)).

Definition create_post e (creator : ContractRef) (gas : Z) (r : EVM * (list Z * AddressBytes * Z * option vm_error)) : Prop :=
  let '(e', (ret, addr, leftOver, err)) := r in
  evm_ok e' /\ evm_rel e e' /\ 0 <= leftOver <= gas /\ is_bytes ret /\
  (IsHomestead chainConfig BlockNumber = true -> err <> None ->
     view e'.(evm_StateDB) ≡ view e.(evm_StateDB) \/ view e'.(evm_StateDB) ≡ view (bumped e creator)).

Lemma create_post_refused e e' creator addr gas g err :
  evm_ok e' -> evm_rel e e' -> 0 <= g <= gas ->
  (err <> None -> view e'.(evm_StateDB) ≡ view e.(evm_StateDB) \/
     view e'.(evm_StateDB) ≡ view (bumped e creator)) ->
  create_post e creator gas (e', ([], addr, g, err)).
Proof.
  intros ? ? ? Hv. unfold create_post. split; [done|]. split; [done|]. split; [lia|].
  split; [apply is_bytes_nil|]. intros _. exact Hv.
Qed.

(** Storing the code of a new contract, when its gas suffices. *)
Lemma deposit_ok e c address ret err exceeded :
  evm_ok e -> is_bytes ret -> 0 <= c.(Gas) ->
  let '(e', c', err') := deposit e c address ret err exceeded in
  evm_ok e' /\ evm_rel e e' /\ 0 <= c'.(Gas) <= c.(Gas).
Proof.
  intros He Hb Hg. unfold deposit. destruct (negb (bool_decide (is_Some err)) && negb exceeded);
    [|split; [done|]; split; [done|lia]].
  unfold UseGas. pose proof (u64_range (Z.of_nat (length ret) * Params.CreateDataGas)) as [Hr _].
  destruct (Z.ltb_spec (Gas c) (u64 (Z.of_nat (length ret) * Params.CreateDataGas))).
  { split; [done|]. split; [done|]. lia. }
  destruct (evm_mutate e _ He (mut_SetCode _ address ret Hb)) as [? ?].
  split; [done|]. split; [done|]. simpl. lia.
Qed.

Lemma create_ok e r code gas v address :
  evm_ok e -> 0 <= gas < max_gas -> gas <= limit -> 0 <= v -> is_bytes code ->
  wp (create run e r code gas v address) (create_post e r gas).
Proof.
  intros He Hgas Hlim Hv Hcode. unfold create.
  case_match; [apply create_post_refused; [done|done|lia|by left]|].
  destruct (CanTransfer (evm_StateDB e) (RefAddress r) v) eqn:Ect; cbn [negb];
    [|apply create_post_refused; [done|done|lia|by left]].
  unfold CanTransfer in Ect. apply Z.leb_le in Ect.
  set (e1 := set_StateDB e (SetNonce _ (RefAddress r) _)).
  assert (evm_ok e1 /\ evm_rel e e1 /\
    GetBalance e.(evm_StateDB) (RefAddress r) <= GetBalance e1.(evm_StateDB) (RefAddress r))
    as (He1 & Hr1 & Hb1).
  { destruct (evm_mutate e _ He (mut_SetNonce _ (RefAddress r)
      (u64 (GetNonce (evm_StateDB e) (RefAddress r) + 1)))) as [? ?].
    split; [done|]. split; [done|]. apply law_nonce_balance, (evm_ok_db _ He). }
  case_match; [apply create_post_refused; [done|done|lia|by right]|].
  pose proof (Snapshot_ok e1 He1) as Hs. destruct (Snapshot_ e1) as [e2 id].
  destruct Hs as (He2 & Hr2 & Hl2 & Hlt & Hsv & Hb2).
  destruct (evm_mutate e2 _ He2 (mut_CreateAccount _ address)) as [He3 Hr3].
  set (e3 := set_StateDB e2 (CreateAccount _ address)) in *.
  set (e4 := if IsEIP158 chainConfig BlockNumber then _ else e3).
  assert (evm_ok e4 /\ evm_rel e3 e4 /\
    GetBalance e3.(evm_StateDB) (RefAddress r) <= GetBalance e4.(evm_StateDB) (RefAddress r))
    as (He4 & Hr4 & Hb4).
  { subst e4. case_match; [|by split_and!]. destruct (evm_mutate e3 _ He3 (mut_SetNonce _ address 1)) as [? ?].
    split; [done|]. split; [done|]. apply law_nonce_balance, (evm_ok_db _ He3). }
  destruct (Transfer_ok e4 (RefAddress r) address v He4) as [He5 Hr5].
  { pose proof (law_create_balance _ address (RefAddress r) (evm_ok_db _ He2)) as Hb3.
    rewrite (Hb2 (RefAddress r)) in Hb3. change (CreateAccount (evm_StateDB e2) address)
      with (evm_StateDB e3) in Hb3. lia. }
  set (e5 := set_StateDB e4 _) in *.
  pose proof (NewContract_ok e5 r (AccountRef address) (Some v) gas He5) as Hn.
  destruct (NewContract e5 r (AccountRef address) (Some v) gas) as [e6 c].
  destruct Hn as (He6 & Hr6 & Hdb6 & ->).
  assert (Hrel6 : evm_rel e e6).
  { etrans; [exact Hr1|]. etrans; [exact Hr2|]. etrans; [exact Hr3|]. etrans; [exact Hr4|].
    by etrans. }
  case_match; [by apply create_post_refused; [..|lia|]|].
  apply wp_bind. eapply wp_mono; [apply Hrun; [done| |apply is_bytes_nil|done]|].
  { split; simpl; [done|by right|apply is_bytes_nil|done|by exists v]. }
  intros [[e7 c7] [ret err]] (He7 & Hrel7 & Hg7 & Hb7). simpl in Hg7, Hb7.
  set (exceeded := IsEIP158 chainConfig BlockNumber && _).
  pose proof (deposit_ok e7 c7 address ret err exceeded He7 Hb7 (proj1 Hg7)) as Hdep.
  destruct (deposit e7 c7 address ret err exceeded) as [[e8 c8] err8].
  destruct Hdep as (He8 & Hrel8 & Hg8).
  assert (Hrel28 : evm_rel e2 e8).
  { etrans; [exact Hr3|]. etrans; [exact Hr4|]. etrans; [exact Hr5|]. etrans; [exact Hr6|]. by etrans. }
  destruct (rel_saved e2 e8 id _ Hrel28 Hl2 Hsv) as [Hl8 Hsv8].
  apply wp_bind. destruct (exceeded || _) eqn:Efail; cbn [wp].
  - destruct (law_revert _ _ (evm_ok_db _ He8) Hl8) as (s & Hs & Hok & Hview & Hlive). rewrite Hs.
    cbn [or_panic mbind outcome_bind wp]. unfold create_post.
    split; [by apply evm_ok_StateDB|]. split;
      [|split; [destruct (decide (err8 = Some ErrExecutionReverted)); simpl; lia|]].
    + assert (evm_rel e e8) as [Hd Hro Hle] by (etrans; [exact Hr1|]; by etrans).
      split; simpl; [done..|]. intros i Hi. destruct (Hle i Hi) as [Hi8 Es].
      destruct (Hlive i Hi8) as [? Es']; [apply Hlt; by apply Hr1|]. by rewrite Es'.
    + split; [done|]. intros _ _. right. simpl. by rewrite Hview.
  - unfold create_post. split; [done|]. split; [|split; [lia|split; [done|]]].
    + etrans; [exact Hr1|]. by etrans.
    + intros Hhome Herr. rewrite Hhome in Efail. apply orb_false_iff in Efail as [Hex Hno].
      rewrite Hex in Herr. rewrite andb_true_r, bool_decide_eq_false in Hno.
      destruct err8; [by destruct Hno|done].
Qed.
End WithRun.

(** ** The call instructions *)
Section Instructions.

Lemma wp_on_evm {A} (k : EVM -> ContractRef -> outcome nofuel (EVM * A)) (f : frame) Q :
  wp (k f.(evm) (ptr f.(contract))) (fun r => Q (set_evm f r.1, r.2)) -> wp (on_evm k f) Q.
Proof. unfold on_evm. by destruct (k _ _) as [[e a]|[]|]. Qed.

Lemma wp_finish_call (f : frame) retOff retSize ret leftOver err Q :
  memory_ok f.(memory) -> access f.(memory) retOff retSize -> is_bytes ret ->
  (forall m' v, memory_ok m' -> 0 <= v ->
     Q (set_contract (set_memory (set_stack f (v :: f.(stack))) m')
          (set_Gas f.(contract) (u64 (f.(contract).(Gas) + leftOver))), (ret, None))) ->
  wp (finish_call retOff retSize (ret, leftOver, err) f) Q.
Proof.
  intros Hm Ha Hb HQ. unfold finish_call. wp_step.
  assert (Hpush : forall v, 0 <= v -> wp (((if bool_decide (err = None \/ err = Some ErrExecutionReverted)
      then mem_set (Uint64 retOff) (Uint64 retSize) ret else mret tt);;
      add_gas leftOver;; mret (ret, None)) (set_stack f (v :: f.(stack)))) Q).
  { intros v Hv. wp_step. destruct (bool_decide _).
    - apply wp_mem_set; [done..|]. intros m' Hm'. cbn [fst snd]. by apply HQ.
    - wp_steps. replace (set_stack f (v :: stack f)) with
        (set_memory (set_stack f (v :: stack f)) (memory f)) by done. by apply HQ. }
  destruct err; apply wp_push; cbn [fst snd]; apply Hpush; lia.
Qed.

(** The budget of a call: what was set aside for the callee, and the stipend of a
    call with value, on top of the frame's gas. *)
Definition call_budget (f : frame) : Z := own_gas f + f.(evm).(callGasTemp).
Definition value_budget (f : frame) : Z :=
  call_budget f +
  (if bool_decide (f.(stack) !! 2%nat = Some 0) then 0 else Params.CallStipend).

(** The end of every call: the gas that came back stays within the budget. *)
Lemma call_end pops s f e1 gas leftOver ret (err : option vm_error) cap m' v :
  frame_ok f -> call_post f.(evm) gas (e1, (ret, leftOver, err)) ->
  Forall nonneg s -> (length s + pops = length f.(stack))%nat -> 0 <= v -> memory_ok m' ->
  own_gas f + gas <= cap < max_gas ->
  exec_post pops 1 cap f
    (set_contract (set_memory (set_stack (set_evm f e1) (v :: s)) m')
       (set_Gas f.(contract) (u64 (f.(contract).(Gas) + leftOver)))) (ret, None).
Proof.
  intros Hf (He1 & Hr1 & Hg & Hb & _) Hs Hl Hv Hm Hcap.
  pose proof (contract_ok_gas _ (frame_ok_contract _ Hf)). unfold own_gas, max_gas in *.
  split; simpl; try done; [|by constructor|lia|by left].
  eexists. split; [done|]. rewrite u64_id by (unfold is_u64; lia). lia.
Qed.

Lemma fits_call2 f io il ro rl inOff inSize retOff retSize :
  frame_ok f ->
  fits (Some (fun s => x ← calc2 s ro rl; y ← calc2 s io il; Some (BigMax x y))) f ->
  f.(stack) !! io = Some inOff -> f.(stack) !! il = Some inSize ->
  f.(stack) !! ro = Some retOff -> f.(stack) !! rl = Some retSize ->
  access f.(memory) inOff inSize /\ access f.(memory) retOff retSize.
Proof.
  intros Hf (sz & Hsz & Hle) H1 H2 H3 H4. unfold calc2, Back in Hsz.
  rewrite H1, H2, H3, H4 in Hsz. injection Hsz as <-.
  pose proof (frame_ok_stack _ Hf) as Hst. rewrite Forall_lookup in Hst.
  assert (calcMemSize inOff inSize <= Mem.Len (memory f) /\
    calcMemSize retOff retSize <= Mem.Len (memory f)) as [? ?].
  { unfold BigMax in Hle. destruct (Z.ltb_spec (calcMemSize retOff retSize) (calcMemSize inOff inSize)); lia. }
  split; split_and!; try done; by eapply Hst.
Qed.

(** The stack of an instruction with many operands. *)
Lemma stack_6 (f : frame) : frame_ok f -> (6 <= length f.(stack))%nat ->
  exists a b c d k g s, f.(stack) = a :: b :: c :: d :: k :: g :: s /\
    Forall nonneg [a; b; c; d; k; g] /\ Forall nonneg s.
Proof.
  intros Hf Hl. pose proof (frame_ok_stack _ Hf) as Hs.
  destruct (stack f) as [|a [|b [|c [|d [|k [|g s]]]]]]; simpl in Hl; try lia.
  exists a, b, c, d, k, g, s. split; [done|]. by apply (Forall_app _ [a; b; c; d; k; g]).
Qed.

Lemma stack_7 (f : frame) : frame_ok f -> (7 <= length f.(stack))%nat ->
  exists a b c d k g h s, f.(stack) = a :: b :: c :: d :: k :: g :: h :: s /\
    Forall nonneg [a; b; c; d; k; g; h] /\ Forall nonneg s.
Proof.
  intros Hf Hl. pose proof (frame_ok_stack _ Hf) as Hs.
  destruct (stack f) as [|a [|b [|c [|d [|k [|g [|h s]]]]]]]; simpl in Hl; try lia.
  exists a, b, c, d, k, g, h, s. split; [done|]. by apply (Forall_app _ [a; b; c; d; k; g; h]).
Qed.

(** The callee's gas: what was set aside, plus the stipend when value moves. *)
Lemma callee_gas (f : frame) v : frame_ok f -> f.(stack) !! 2%nat = Some v ->
  value_budget f < max_gas ->
  let g := if negb (U256 v =? 0) then u64 (f.(evm).(callGasTemp) + Params.CallStipend)
           else f.(evm).(callGasTemp) in
  0 <= g < max_gas /\ own_gas f + g <= value_budget f.
Proof.
  intros Hf Hv Hb g. unfold value_budget, call_budget in *.
  pose proof (contract_ok_gas _ (frame_ok_contract _ Hf)). pose proof (evm_ok_temp _ (frame_ok_evm _ Hf)).
  rewrite Hv in *. unfold own_gas, max_gas in *. unfold Params.CallStipend in *.
  destruct (Z.eqb_spec (U256 v) 0) as [E|E]; subst g; cbn [negb].
  - case_bool_decide; lia.
  - rewrite bool_decide_eq_false_2 in *.
    2, 3: intros [= ->]; by rewrite U256_id in E by lia.
    rewrite u64_id by (unfold is_u64; lia). lia.
Qed.

Lemma opCallCode_ok : exec_ok opCallCode (Some memoryCall) 7 1 value_budget.
Proof.
  intros run f Hrun Hf Hlen Hfit [_ Hcap] _.
  destruct (stack_7 f Hf Hlen) as (g0 & a & v & io & isz & ro & rs & s & Es & Hops & Hs).
  destruct (fits_call2 f 3 4 5 6 io isz ro rs Hf Hfit) as [Hin Hout]; rewrite ?Es; try done.
  destruct (access_Get _ _ _ (frame_ok_memory _ Hf) Hin) as (args & Hargs & Hba).
  destruct (callee_gas f v Hf) as [Hg Hgb]; [by rewrite Es|done|].
  unfold opCallCode, get_callGasTemp, mem_get. wp_steps. eapply wp_lift; [exact Hargs|]. wp_steps.
  apply wp_on_evm. cbn [evm set_stack contract]. eapply wp_mono; [apply (CallCode_ok _ run Hrun)|].
  - apply Hf.
  - exact Hg.
  - pose proof (contract_ok_gas _ (frame_ok_contract _ Hf)). unfold own_gas in *. lia.
  - apply U256_nonneg.
  - done.
  - intros [e1 [[ret leftOver] err]] Hpost. cbn [fst snd].
    apply wp_finish_call; [apply Hf|done|by apply Hpost|]. intros m' w Hm' Hw.
    eapply (call_end 7 s f e1); [done|exact Hpost|done|rewrite Es; simpl; lia|done|done|]. lia.
Qed.

Lemma opDelegateCall_ok : exec_ok opDelegateCall (Some memoryDelegateCall) 6 1 call_budget.
Proof.
  intros run f Hrun Hf Hlen Hfit [_ Hcap] _.
  destruct (stack_6 f Hf Hlen) as (g0 & a & io & isz & ro & rs & s & Es & Hops & Hs).
  destruct (fits_call2 f 2 3 4 5 io isz ro rs Hf Hfit) as [Hin Hout]; rewrite ?Es; try done.
  destruct (access_Get _ _ _ (frame_ok_memory _ Hf) Hin) as (args & Hargs & Hba).
  pose proof (contract_ok_gas _ (frame_ok_contract _ Hf)) as Hgas.
  pose proof (evm_ok_temp _ (frame_ok_evm _ Hf)) as Htemp.
  destruct (contract_ok_value _ (frame_ok_contract _ Hf)) as (cv & Hcv & ?).
  unfold opDelegateCall, get_callGasTemp, mem_get, call_budget, own_gas in *. wp_steps.
  eapply wp_lift; [exact Hargs|]. wp_steps.
  apply wp_on_evm. cbn [evm set_stack contract]. unfold ptr. rewrite Hcv.
  eapply wp_mono; [apply (DelegateCall_ok _ run Hrun)|].
  - apply Hf.
  - unfold max_gas in *. lia.
  - cbn. lia.
  - done.
  - done.
  - intros [e1 [[ret leftOver] err]] Hpost. cbn [fst snd].
    apply wp_finish_call; [apply Hf|done|by apply Hpost|]. intros m' w Hm' Hw.
    eapply (call_end 6 s f e1); [done|exact Hpost|done|rewrite Es; simpl; lia|done|done|].
    unfold own_gas. lia.
Qed.

Lemma opStaticCall_ok : exec_ok opStaticCall (Some memoryStaticCall) 6 1 call_budget.
Proof.
  intros run f Hrun Hf Hlen Hfit [_ Hcap] _.
  destruct (stack_6 f Hf Hlen) as (g0 & a & io & isz & ro & rs & s & Es & Hops & Hs).
  destruct (fits_call2 f 2 3 4 5 io isz ro rs Hf Hfit) as [Hin Hout]; rewrite ?Es; try done.
  destruct (access_Get _ _ _ (frame_ok_memory _ Hf) Hin) as (args & Hargs & Hba).
  pose proof (contract_ok_gas _ (frame_ok_contract _ Hf)) as Hgas.
  pose proof (evm_ok_temp _ (frame_ok_evm _ Hf)) as Htemp.
  unfold opStaticCall, get_callGasTemp, mem_get, call_budget, own_gas in *. wp_steps.
  eapply wp_lift; [exact Hargs|]. wp_steps.
  apply wp_on_evm. cbn [evm set_stack contract].
  eapply wp_mono; [apply (StaticCall_ok _ run Hrun)|].
  - apply Hf.
  - unfold max_gas in *. lia.
  - cbn. lia.
  - done.
  - intros [e1 [[ret leftOver] err]] Hpost. cbn [fst snd].
    apply wp_finish_call; [apply Hf|done|by apply Hpost|]. intros m' w Hm' Hw.
    eapply (call_end 6 s f e1); [done|exact Hpost|done|rewrite Es; simpl; lia|done|done|].
    unfold own_gas. lia.
Qed.

Lemma opCall_ok : exec_ok opCall (Some memoryCall) 7 1 value_budget.
Proof.
  intros run f Hrun Hf Hlen Hfit [_ Hcap] _.
  destruct (stack_7 f Hf Hlen) as (g0 & a & v & io & isz & ro & rs & s & Es & Hops & Hs).
  destruct (fits_call2 f 3 4 5 6 io isz ro rs Hf Hfit) as [Hin Hout]; rewrite ?Es; try done.
  destruct (access_Get _ _ _ (frame_ok_memory _ Hf) Hin) as (args & Hargs & Hba).
  destruct (callee_gas f v Hf) as [Hg Hgb]; [by rewrite Es|done|].
  pose proof (frame_ok_evm _ Hf) as He.
  destruct (evm_ok_helper _ He) as (h & Hh & Hdisk).
  destruct (law_load h (BigToAddress a) Hdisk) as (s0 & Hload & Hs0).
  unfold opCall, get_callGasTemp, mem_get. wp_steps. eapply wp_lift; [exact Hargs|]. wp_steps.
  eapply wp_lift; [exact Hh|]. wp_steps. eapply wp_lift; [exact Hload|]. wp_steps.
  apply wp_on_evm. cbn [evm set_stack set_evm contract].
  eapply wp_mono; [apply (Call_ok _ run Hrun); [|exact Hg| |apply U256_nonneg|done]|].
  { by apply evm_ok_StateDB. }
  { pose proof (contract_ok_gas _ (frame_ok_contract _ Hf)). unfold own_gas in *. lia. }
  intros [e1 [[ret leftOver] err]] (He1 & Hr1 & Hlo & Hb & _). cbn [fst snd].
  destruct (evm_ok_helper _ He1) as (h1 & Hh1 & Hdisk1). wp_steps.
  eapply wp_lift; [exact Hh1|]. cbn [fst snd]. do 2 wp_step.
  apply wp_put_db. cbn [fst snd].
  set (e2 := set_StateDB (set_Helper e1 (Some (CommitState h1 (BigToAddress a) (evm_StateDB e1))))
               (evm_StateDB (evm f))).
  assert (Hpost : call_post (evm f)
    (if negb (U256 v =? 0) then u64 (callGasTemp (evm f) + Params.CallStipend)
     else callGasTemp (evm f)) (e2, (ret, leftOver, err))).
  { split; [|split; [|split; [exact Hlo|split; [exact Hb|done]]]].
    - destruct He1 as [Hdb1 _ Hd1 Hc1 Ht1]. split; try done; [apply He|].
      eexists. split; [done|]. by apply law_commit.
    - destruct Hr1. by split. }
  apply wp_finish_call; [apply Hf|done|done|]. intros m' w Hm' Hw.
  eapply (call_end 7 s f e2); [done|exact Hpost|done|rewrite Es; simpl; lia|done|done|]. lia.
Qed.

(** The end of a contract creation. *)
Lemma create_end pops s f e1 gas leftOver (r : ret) w :
  frame_ok f -> evm_ok e1 -> evm_rel f.(evm) e1 -> 0 <= leftOver <= gas -> is_bytes r.1 ->
  0 <= gas <= own_gas f -> Forall nonneg s -> (length s + pops = length f.(stack))%nat ->
  0 <= w ->
  exec_post pops 1 (own_gas f) f
    (set_contract (set_stack (set_evm (set_contract f (set_Gas f.(contract) (own_gas f - gas))) e1)
                     (w :: s))
       (set_Gas f.(contract) (u64 (own_gas f - gas + leftOver)))) r.
Proof.
  intros Hf He Hr Hlo Hb Hg Hs Hl Hw.
  pose proof (contract_ok_gas _ (frame_ok_contract _ Hf)). unfold own_gas, max_gas in *.
  split; simpl; try done; [|apply Hf|by constructor|lia|by left].
  eexists. split; [done|]. rewrite u64_id by (unfold is_u64; lia). lia.
Qed.

(** All but one 64th: what a creation may use. *)
Lemma eip150_gas g : 0 <= g < max_gas -> u64 (g - g / 64) = g - g / 64 /\ 0 <= g - g / 64 <= g.
Proof.
  intros Hg. unfold max_gas in *. pose proof (Z.div_pos g 64). pose proof (Z.div_le_upper_bound g 64 g).
  rewrite u64_id by (unfold is_u64; lia). lia.
Qed.

Lemma wp_use_gas_all (f : frame) g Q : 0 <= g <= own_gas f ->
  Q (set_contract f (set_Gas f.(contract) (own_gas f - g)), tt) -> wp (use_gas_all g f) Q.
Proof.
  intros Hg HQ. unfold use_gas_all, UseGas. unfold own_gas in *.
  by rewrite (proj2 (Z.ltb_ge _ _)) by lia.
Qed.

Lemma opCreate_ok : exec_ok opCreate (Some memoryCreate) 3 1 own_gas.
Proof.
  intros run f Hrun Hf Hlen Hfit Hcap _.
  destruct (stack_3 f Hf Hlen) as (v & off & sz & s & Es & Hv & Hoff & Hsz & Hs).
  assert (Ha : access f.(memory) off sz) by (eapply (fits_access f off sz 1 2); by rewrite ?Es).
  destruct (access_Get _ _ _ (frame_ok_memory _ Hf) Ha) as (input & Hin & Hbi).
  pose proof (contract_ok_gas _ (frame_ok_contract _ Hf)) as Hgas.
  unfold opCreate, mem_get, ret_nil. wp_steps. eapply wp_lift; [exact Hin|]. wp_steps.
  set (gas := if IsEIP150 chainConfig BlockNumber then _ else _).
  assert (Hg : 0 <= gas <= own_gas f).
  { subst gas. unfold own_gas. cbn [contract set_stack]. case_match; [|lia].
    destruct (eip150_gas _ Hgas) as [-> ?]. done. }
  apply wp_use_gas_all; [done|]. wp_steps. apply wp_on_evm. unfold Create.
  unfold own_gas, max_gas in *.
  eapply wp_mono; [apply (create_ok _ run Hrun); [apply Hf|unfold max_gas; lia|lia|done|done]|].
  intros [e1 [[[ret addr] leftOver] err]] (He1 & Hr1 & Hlo & Hb & _). cbn [fst snd].
  assert (Hend : forall w r, 0 <= w -> is_bytes r.1 ->
    exec_post 3 1 (Gas (contract f)) f
      (set_contract (set_stack (set_evm (set_contract f (set_Gas f.(contract) (own_gas f - gas))) e1)
                     (w :: s))
       (set_Gas f.(contract) (u64 (own_gas f - gas + leftOver)))) r).
  { intros w r Hw Hr. apply (create_end 3 s f e1 gas leftOver r w); try done; rewrite Es; simpl; lia. }
  repeat (wp_step || case_match); apply Hend; first [done | apply AddressBig_nonneg | apply is_bytes_nil].
Qed.

Lemma opCreate2_ok : exec_ok opCreate2 (Some memoryCreate2) 4 1 own_gas.
Proof.
  intros run f Hrun Hf Hlen Hfit Hcap _.
  pose proof (frame_ok_stack _ Hf) as Hst.
  destruct (stack f) as [|v [|off [|sz [|salt s]]]] eqn:Es; simpl in Hlen; try lia.
  repeat (apply Forall_cons in Hst as [? Hst]). unfold nonneg in *.
  assert (Ha : access f.(memory) off sz) by (eapply (fits_access f off sz 1 2); by rewrite ?Es).
  destruct (access_Get _ _ _ (frame_ok_memory _ Hf) Ha) as (input & Hin & Hbi).
  pose proof (contract_ok_gas _ (frame_ok_contract _ Hf)) as Hgas.
  unfold opCreate2, mem_get, ret_nil. wp_steps. eapply wp_lift; [exact Hin|]. wp_steps.
  cbn [contract set_stack]. destruct (eip150_gas _ Hgas) as [-> Hg].
  set (gas := Gas (contract f) - Gas (contract f) / 64) in *.
  apply wp_use_gas_all; [done|]. wp_steps. apply wp_on_evm. unfold Create2.
  unfold own_gas, max_gas in *.
  eapply wp_mono; [apply (create_ok _ run Hrun); [apply Hf|unfold max_gas; lia|lia|done|done]|].
  intros [e1 [[[ret addr] leftOver] err]] (He1 & Hr1 & Hlo & Hb & _). cbn [fst snd].
  assert (Hend : forall w r, 0 <= w -> is_bytes r.1 ->
    exec_post 4 1 (Gas (contract f)) f
      (set_contract (set_stack (set_evm (set_contract f (set_Gas f.(contract) (own_gas f - gas))) e1)
                     (w :: s))
       (set_Gas f.(contract) (u64 (own_gas f - gas + leftOver)))) r).
  { intros w r Hw Hr. apply (create_end 4 s f e1 gas leftOver r w); try done; rewrite Es; simpl; lia. }
  repeat (wp_step || case_match); apply Hend; first [done | apply AddressBig_nonneg | apply is_bytes_nil].
Qed.
End Instructions.
End CallSafety.
