(* ===== verification/GasSafety.v ===== *)
(** * Charging is safe

    Every gas function of the table, on a frame that satisfies the invariant:
    it does not panic, changes nothing but the refund counter, the call gas
    register and the recorded memory fee, accepts no memory above the bound,
    and its price covers what a call sets aside for the callee. *)
From Stdlib Require Import ZArith Lia.
From S2P Require Import Prelude Word Config OpCodes Analysis Machine Gas Calls Instructions.
From S2P Require Import JumpTable StateSpec Invariant Safety CallSafety.
Import Big Op.
Open Scope Z_scope.

(** ** Fuel does not change results

    A recursor that returns more often makes calls, and with them the six
    instructions that call, return the same where they already did.  Execution.v
    turns this into: whatever fuel lets a run return, it returns the same. *)

(** [m'] returns whatever [m] returns. *)
Definition outcome_le {E A} (m m' : outcome E A) : Prop := forall a, m = Ret a -> m' = Ret a.

#[export] Instance outcome_le_refl {E A} : Reflexive (@outcome_le E A).
Proof. by intros m a. Qed.

Lemma bind_le {E A B} (m m' : outcome E A) (k k' : A -> outcome E B) :
  outcome_le m m' -> (forall a, outcome_le (k a) (k' a)) -> outcome_le (m ≫= k) (m' ≫= k').
Proof.
  intros Hm Hk b Hb. apply bind_Ret_inv in Hb as (a & Ha & Hb).
  rewrite (Hm _ Ha). by apply Hk.
Qed.

Section Fuel.
Context {db disk : Type} {SDB : StateDB db} {QH : VMStateQueryHelper db disk} {CR : Crypto} {EN : Env}.
Abbreviation M := (M db disk).

Definition run_le (run run' : recursor db disk) : Prop :=
  forall e c i, outcome_le (run e c i) (run' e c i).

Definition M_le {A} (m m' : M A) : Prop := forall f, outcome_le (m f) (m' f).

Definition exec_mono (ex : executionFunc db disk) : Prop :=
  forall run run', run_le run run' -> M_le (ex run) (ex run').

Lemma M_le_refl {A} (m : M A) : M_le m m.
Proof. by intros f. Qed.

Lemma M_bind_le {A B} (m m' : M A) (k k' : A -> M B) :
  M_le m m' -> (forall a, M_le (k a) (k' a)) -> M_le (m ≫= k) (m' ≫= k').
Proof.
  intros Hm Hk f b Hb. unfold mbind, M_bind in *.
  destruct (m f) as [[g a]|e|] eqn:E; [|done..].
  rewrite (Hm _ _ E). by apply Hk.
Qed.

Lemma on_evm_le {A} (k k' : EVM db disk -> ContractRef -> outcome nofuel (EVM db disk * A)) :
  (forall e r, outcome_le (k e r) (k' e r)) -> M_le (on_evm k) (on_evm k').
Proof. intros Hk f. apply bind_le; [apply Hk|]. by intros [e a]. Qed.

(** An instruction that does not look at its recursor. *)
Lemma exec_mono_const (ex : executionFunc db disk) :
  (forall run run', ex run = ex run') -> exec_mono ex.
Proof. intros He run run' _. rewrite (He run run'). apply M_le_refl. Qed.

Section Runs.
Context (run run' : recursor db disk) (Hrun : run_le run run').

Ltac step_le :=
  first
    [ reflexivity
    | apply Hrun
    | match goal with |- outcome_le (?m ≫= _) (?m ≫= _) => apply bind_le; [reflexivity|intros ?] end
    | apply bind_le; [|intros ?]
    | match goal with |- outcome_le (match ?x with _ => _ end) _ => destruct x end ].

Lemma Call_le e r addr input gas v :
  outcome_le (Call run e r addr input gas v) (Call run' e r addr input gas v).
Proof. unfold Call. repeat step_le. Qed.
Lemma CallCode_le e r addr input gas v :
  outcome_le (CallCode run e r addr input gas v) (CallCode run' e r addr input gas v).
Proof. unfold CallCode. repeat step_le. Qed.
Lemma DelegateCall_le e r addr input gas :
  outcome_le (DelegateCall run e r addr input gas) (DelegateCall run' e r addr input gas).
Proof. unfold DelegateCall. repeat step_le. Qed.
Lemma StaticCall_le e r addr input gas :
  outcome_le (StaticCall run e r addr input gas) (StaticCall run' e r addr input gas).
Proof. unfold StaticCall. repeat step_le. Qed.
Lemma create_le e r code gas v addr :
  outcome_le (create run e r code gas v addr) (create run' e r code gas v addr).
Proof. unfold create. repeat step_le. Qed.
End Runs.

Ltac exec_le :=
  intros run run' Hrun;
  repeat first
    [ apply M_le_refl
    | apply on_evm_le; intros ? ?;
      first [ by apply Call_le | by apply CallCode_le | by apply DelegateCall_le
            | by apply StaticCall_le | by apply create_le ]
    | apply M_bind_le; [|intros ?] ].

Lemma opCall_mono : exec_mono opCall.
Proof. exec_le. Qed.
Lemma opCallCode_mono : exec_mono opCallCode.
Proof. exec_le. Qed.
Lemma opDelegateCall_mono : exec_mono opDelegateCall.
Proof. exec_le. Qed.
Lemma opStaticCall_mono : exec_mono opStaticCall.
Proof. exec_le. Qed.
Lemma opCreate_mono : exec_mono opCreate.
Proof. exec_le. Qed.
Lemma opCreate2_mono : exec_mono opCreate2.
Proof. exec_le. Qed.
End Fuel.

Local Opaque HashBig AddressBig U256 Exp Byte BigToAddress BigToHash.

(** What the four gas tables have in common. *)
Record gas_table_ok (gt : GasTable) : Prop := {
  gt_ExtcodeSize : 0 < gt.(ExtcodeSize) <= 100000;
  gt_ExtcodeCopy : 0 < gt.(ExtcodeCopy) <= 100000;
  gt_ExtcodeHash : 0 <= gt.(ExtcodeHash) <= 100000;
  gt_Balance : 0 < gt.(BalanceGas) <= 100000;
  gt_SLoad : 0 < gt.(SLoad) <= 100000;
  gt_Calls : 0 < gt.(Calls) <= 100000;
  gt_Suicide : 0 <= gt.(Config.Suicide) <= 100000;
  gt_ExpByte : 0 <= gt.(ExpByte) <= 100000;
  gt_CreateBySuicide : 0 <= gt.(CreateBySuicide) <= 100000
}.

Lemma gasTable_ok c n : gas_table_ok (gasTable c n).
Proof.
  unfold gasTable. destruct n; [|by split; vm_compute].
  repeat case_match; by split; vm_compute.
Qed.

Section GasSafety.
Context {db disk : Type} {SDB : StateDB db} {QH : VMStateQueryHelper db disk} {CR : Crypto}
  {EN : Env} {laws : StateLaws db disk} {CU : CodesInUse} {EO : EnvOk}.
Abbreviation EVM := (EVM db disk).
Abbreviation frame := (frame db disk).
Abbreviation M := (M db disk).

Record gas_post (f f' : frame) (memsz slack : Z) (budget : frame -> Z) (r : Z * option vm_error)
    : Prop := {
  gp_stack : f'.(stack) = f.(stack);
  gp_contract : f'.(contract) = f.(contract);
  gp_pc : f'.(pc) = f.(pc);
  gp_evm : evm_ok f'.(evm);
  gp_rel : evm_rel f.(evm) f'.(evm);
  gp_store : f'.(memory).(store) = f.(memory).(store);
  gp_cost : r.2 = None -> is_u64 r.1 /\ memsz <= 0xffffffffe0 /\
    budget f' + slack <= own_gas f' + r.1
}.

(** [slack] is 1 for an operation that always costs something. *)
Definition gas_ok (g : gasFunc db disk) (ms : option memorySizeFunc) (pops : nat)
    (slack : Z) (budget : frame -> Z) : Prop :=
  forall gt memsz f, gas_table_ok gt -> frame_ok f -> (pops <= length f.(stack))%nat ->
    0 <= memsz -> (ms = None -> memsz = 0) ->
    wp (g gt memsz f) (fun r => gas_post f r.1 memsz slack budget r.2).

(** ** Rules *)
Lemma wp_or_err (m : M (Z * option vm_error)) k f Q :
  wp (m f) (fun r => match r.2.2 with
                     | Some e => Q (r.1, (0, Some e))
                     | None => wp (k r.2.1 r.1) Q
                     end) -> wp (or_err m k f) Q.
Proof.
  unfold or_err, mbind, M_bind. destruct (m f) as [[f' [g [e|]]]|[]|]; done.
Qed.

Lemma wp_or_overflow (r : Z * bool) (k : Z -> M (Z * option vm_error)) f Q :
  Q (f, (0, Some errGasUintOverflow)) -> (r.2 = false -> wp (k r.1 f) Q) ->
  wp (or_overflow r k f) Q.
Proof. destruct r as [g []]; simpl; auto. Qed.

Lemma SafeAdd_fits a b : is_u64 a -> is_u64 b -> (SafeAdd a b).2 = false ->
  (SafeAdd a b).1 = a + b /\ is_u64 (a + b).
Proof.
  unfold is_u64. intros Ha Hb. unfold SafeAdd, MaxUint64. simpl.
  rewrite (u64_id (2 ^ 64 - 1 - a)) by (unfold is_u64; lia). intros H%Z.ltb_ge.
  rewrite u64_id by (unfold is_u64; lia). lia.
Qed.

Lemma SafeMul_u64 a b : is_u64 (SafeMul a b).1.
Proof. unfold SafeMul. case_match; [unfold is_u64; simpl; lia|apply u64_range]. Qed.

Lemma memoryGasCost_ok (f : frame) memsz Q :
  (forall m' g err, m'.(store) = f.(memory).(store) -> is_u64 g ->
     (err = None -> memsz <= 0xffffffffe0) -> Q (set_memory f m', (g, err))) ->
  wp (memoryGasCost memsz f) Q.
Proof.
  intros HQ. unfold memoryGasCost, memoryGasCost_of.
  assert (H0 : is_u64 0) by (unfold is_u64; lia).
  repeat case_match; simplify_eq; apply HQ; try done; try lia; try apply u64_range; intros _.
  all: match goal with H : (_ <? _) = false |- _ => apply Z.ltb_ge in H end; done.
Qed.

(** The gas was computed and nothing else happened. *)
Lemma gas_post_memory (f : frame) m' memsz slack g err :
  frame_ok f -> m'.(store) = f.(memory).(store) -> (err = None -> is_u64 g /\ memsz <= 0xffffffffe0 /\ slack <= g) ->
  gas_post f (set_memory f m') memsz slack own_gas (g, err).
Proof.
  intros Hf Hm Hg. split; simpl; try done; [apply Hf|]. intros He. destruct (Hg He) as (? & ? & ?).
  split; [done|]. split; [done|]. unfold own_gas. simpl. lia.
Qed.

Lemma gas_post_refused (f : frame) memsz slack g e :
  frame_ok f -> gas_post f f memsz slack own_gas (g, Some e).
Proof. intros Hf. split; simpl; try done. apply Hf. Qed.

Lemma gas_post_same (f : frame) memsz slack g :
  frame_ok f -> is_u64 g -> memsz = 0 -> slack <= g ->
  gas_post f f memsz slack own_gas (g, None).
Proof.
  intros Hf Hg -> Hs. split; simpl; try done; [apply Hf|]. intros _.
  split; [done|]. split; [lia|]. lia.
Qed.

Lemma constGas_ok c pops slack : 0 <= c < 2 ^ 32 -> slack <= c ->
  gas_ok (constGasFunc c) None pops slack own_gas.
Proof.
  intros Hc Hs gt memsz f _ Hf _ _ H0. apply gas_post_same; [done|unfold is_u64; lia|auto|done].
Qed.

Lemma bigUint64_u64 v : is_u64 (bigUint64 v).1.
Proof. apply u64_range. Qed.

Lemma toWordSize_u64 v : is_u64 v -> is_u64 (toWordSize v).
Proof.
  unfold is_u64, toWordSize, MaxUint64. intros Hv. case_match eqn:E; [vm_compute; split; congruence|].
  apply Z.ltb_ge in E. rewrite u64_id by (unfold is_u64; lia).
  split; [apply Z.div_pos; lia|]. apply Z.div_lt_upper_bound; lia.
Qed.

Lemma wp_stack_back n (f : frame) x Q : f.(stack) !! n = Some x -> Q (f, x) -> wp (stack_back n f) Q.
Proof.
  intros Hx HQ. unfold stack_back. apply wp_M_bind, wp_get. cbn [fst snd].
  by eapply wp_lift.
Qed.

(** A sum of three terms that never overflowed. *)
Lemma gas_sum (base : Z) words memsz (f : frame) m' g :
  frame_ok f -> m'.(store) = f.(memory).(store) -> is_u64 g -> memsz <= 0xffffffffe0 ->
  0 < base <= 100000 -> is_u64 words ->
  wp ((or_overflow (SafeAdd g base) (fun gas =>
       or_overflow (SafeAdd gas words) (fun gas => mret (gas, None)))) (set_memory f m'))
     (fun r => gas_post f r.1 memsz 1 own_gas r.2).
Proof.
  intros Hf Hm Hg Hsz Hb Hw.
  apply wp_or_overflow; [by apply gas_post_memory|]. intros H1.
  apply SafeAdd_fits in H1 as [-> Hg1]; [|done|unfold is_u64; lia].
  apply wp_or_overflow; [by apply gas_post_memory|]. intros H2.
  apply SafeAdd_fits in H2 as [-> Hg2]; [|done..].
  apply wp_ret, gas_post_memory; [done..|]. intros _. split; [done|]. split; [done|].
  unfold is_u64 in *. lia.
Qed.

(** ** Operations that copy: memory, a flat price and a price per word or byte *)
Lemma gas_copy (base perUnit : Z) (n : nat) (pops : nat) (unit_of : Z -> Z) :
  0 < base <= 100000 -> (n < pops)%nat -> (forall v, is_u64 v -> is_u64 (unit_of v)) ->
  forall memsz (f : frame), frame_ok f -> (pops <= length f.(stack))%nat ->
  wp (or_err (memoryGasCost memsz) (fun gas =>
      or_overflow (SafeAdd gas base) (fun gas =>
      b ← stack_back n;
      or_overflow (bigUint64 b) (fun words =>
      or_overflow (SafeMul (unit_of words) perUnit) (fun words =>
      or_overflow (SafeAdd gas words) (fun gas => mret (gas, None)))))) f)
     (fun r => gas_post f r.1 memsz 1 own_gas r.2).
Proof.
  intros Hb Hn Hu memsz f Hf Hlen. apply wp_or_err, memoryGasCost_ok.
  intros m' g err Hm Hg Hsz. cbn [fst snd]. destruct err as [e|]; [by apply gas_post_memory|].
  specialize (Hsz eq_refl).
  apply wp_or_overflow; [by apply gas_post_memory|]. intros H1.
  apply SafeAdd_fits in H1 as [-> Hg1]; [|done|unfold is_u64; lia].
  destruct (lookup_lt_is_Some_2 f.(stack) n) as [x Hx]; [lia|].
  apply wp_M_bind. apply (wp_stack_back n _ x); [done|]. cbn [fst snd].
  apply wp_or_overflow; [by apply gas_post_memory|]. intros _.
  apply wp_or_overflow; [by apply gas_post_memory|]. intros _.
  apply wp_or_overflow; [by apply gas_post_memory|]. intros H2.
  apply SafeAdd_fits in H2 as [-> Hg2]; [|done|apply SafeMul_u64].
  apply wp_ret, gas_post_memory; [done..|]. intros _. split; [done|]. split; [done|].
  pose proof (SafeMul_u64 (unit_of (bigUint64 x).1) perUnit). unfold is_u64 in *. lia.
Qed.

Ltac gas_copy pops :=
  intros gt memsz f Hgt Hf Hlen _ _;
  eapply (gas_copy _ _ _ pops toWordSize); [|lia|apply toWordSize_u64|done|exact Hlen];
  try (by vm_compute).

Lemma gasCallDataCopy_ok : gas_ok gasCallDataCopy (Some memoryCallDataCopy) 3 1 own_gas.
Proof. gas_copy 3%nat. Qed.
Lemma gasReturnDataCopy_ok : gas_ok gasReturnDataCopy (Some memoryReturnDataCopy) 3 1 own_gas.
Proof. gas_copy 3%nat. Qed.
Lemma gasCodeCopy_ok : gas_ok gasCodeCopy (Some memoryCodeCopy) 3 1 own_gas.
Proof. gas_copy 3%nat. Qed.
Lemma gasSha3_ok : gas_ok gasSha3 (Some memorySha3) 2 1 own_gas.
Proof. gas_copy 2%nat. Qed.
Lemma gasExtCodeCopy_ok : gas_ok gasExtCodeCopy (Some memoryExtCodeCopy) 4 1 own_gas.
Proof. gas_copy 4%nat. apply (gt_ExtcodeCopy _ Hgt). Qed.

(** Memory and a flat price. *)
Lemma gas_memory_flat (base : Z) memsz (f : frame) : 0 < base <= 100000 -> frame_ok f ->
  wp (or_err (memoryGasCost memsz) (fun gas =>
      or_overflow (SafeAdd gas base) (fun gas => mret (gas, None))) f)
     (fun r => gas_post f r.1 memsz 1 own_gas r.2).
Proof.
  intros Hb Hf. apply wp_or_err, memoryGasCost_ok.
  intros m' g err Hm Hg Hsz. cbn [fst snd]. destruct err as [e|]; [by apply gas_post_memory|].
  apply wp_or_overflow; [by apply gas_post_memory|]. intros H1.
  apply SafeAdd_fits in H1 as [-> Hg1]; [|done|unfold is_u64; lia].
  apply wp_ret, gas_post_memory; [done..|]. intros _. split; [done|]. split; [by apply Hsz|].
  unfold is_u64 in *. lia.
Qed.

Lemma gasCreate_ok : gas_ok gasCreate (Some memoryCreate) 3 1 own_gas.
Proof. intros gt memsz f Hgt Hf Hlen _ _. apply gas_memory_flat; [by vm_compute|done]. Qed.
Lemma gasCreate2_ok : gas_ok gasCreate2 (Some memoryCreate2) 4 1 own_gas.
Proof. intros gt memsz f Hgt Hf Hlen _ _. apply gas_memory_flat; [by vm_compute|done]. Qed.

Lemma gas_word_access_ok ms pops : gas_ok gas_word_access (Some ms) pops 1 own_gas.
Proof.
  intros gt memsz f Hgt Hf Hlen _ _. unfold gas_word_access.
  apply wp_M_bind, memoryGasCost_ok. intros m' g err Hm Hg Hsz. cbn [fst snd].
  destruct err as [e|]; [by apply wp_ret, gas_post_memory|].
  apply wp_or_overflow; [by apply gas_post_memory|]. intros H1.
  apply SafeAdd_fits in H1 as [-> Hg1]; [|done|by vm_compute].
  apply wp_ret, gas_post_memory; [done..|]. intros _. split; [done|]. split; [by apply Hsz|].
  unfold is_u64, GasFastestStep in *. lia.
Qed.

(** The price of memory alone. *)
Lemma gas_memory_ok ms pops : gas_ok (fun _ memsz => memoryGasCost memsz) (Some ms) pops 0 own_gas.
Proof.
  intros gt memsz f Hgt Hf Hlen _ _. apply memoryGasCost_ok. intros m' g err Hm Hg Hsz.
  apply gas_post_memory; [done..|]. intros He. split; [done|]. split; [by apply Hsz|].
  unfold is_u64 in *; lia.
Qed.

(** ** Prices from the gas table *)
Lemma gas_flat_ok (price : GasTable -> Z) pops slack :
  (forall gt, gas_table_ok gt -> slack <= price gt /\ 0 <= price gt <= 100000) ->
  gas_ok (fun gt _ => mret (price gt, None)) None pops slack own_gas.
Proof.
  intros Hp gt memsz f Hgt Hf Hlen _ H0. destruct (Hp gt Hgt).
  apply gas_post_same; [done|unfold is_u64; lia|by apply H0|done].
Qed.

Lemma gasBalance_ok : gas_ok gasBalance None 1 1 own_gas.
Proof. apply (gas_flat_ok BalanceGas). intros gt Hgt. pose proof (gt_Balance _ Hgt). lia. Qed.
Lemma gasExtCodeSize_ok : gas_ok gasExtCodeSize None 1 1 own_gas.
Proof. apply (gas_flat_ok ExtcodeSize). intros gt Hgt. pose proof (gt_ExtcodeSize _ Hgt). lia. Qed.
Lemma gasExtCodeHash_ok : gas_ok gasExtCodeHash None 1 0 own_gas.
Proof. apply (gas_flat_ok ExtcodeHash). intros gt Hgt. pose proof (gt_ExtcodeHash _ Hgt). lia. Qed.
Lemma gasSLoad_ok : gas_ok gasSLoad None 1 1 own_gas.
Proof. apply (gas_flat_ok SLoad). intros gt Hgt. pose proof (gt_SLoad _ Hgt). lia. Qed.
Lemma gasPush_ok pops : gas_ok gasPush None pops 1 own_gas.
Proof. by apply (gas_flat_ok (fun _ => GasFastestStep)). Qed.
Lemma gasDup_ok pops : gas_ok gasDup None pops 1 own_gas.
Proof. by apply (gas_flat_ok (fun _ => GasFastestStep)). Qed.
Lemma gasSwap_ok pops : gas_ok gasSwap None pops 1 own_gas.
Proof. by apply (gas_flat_ok (fun _ => GasFastestStep)). Qed.

(** The refund counter is the only thing a gas function changes in the state. *)
Lemma gas_post_db (f : frame) d memsz slack g :
  frame_ok f -> mutation f.(evm).(evm_StateDB) d -> is_u64 g -> memsz = 0 -> slack <= g ->
  gas_post f (set_evm f (set_StateDB f.(evm) d)) memsz slack own_gas (g, None).
Proof.
  intros Hf Hd Hg -> Hs. destruct (evm_mutate _ _ (frame_ok_evm _ Hf) Hd).
  split; simpl; try done. intros _. split; [done|]. split; [lia|]. unfold own_gas. simpl. lia.
Qed.

Lemma wp_stack_back_in n (f : frame) Q : (n < length f.(stack))%nat -> frame_ok f ->
  (forall x, 0 <= x -> f.(stack) !! n = Some x -> Q (f, x)) -> wp (stack_back n f) Q.
Proof.
  intros Hn Hf HQ. destruct (lookup_lt_is_Some_2 _ _ Hn) as [x Hx].
  eapply wp_stack_back; [done|]. apply HQ; [|done].
  by apply (Forall_lookup_1 _ _ _ _ (frame_ok_stack _ Hf) Hx).
Qed.

Ltac back := apply wp_M_bind, wp_stack_back_in; [lia|done|]; cbn [fst snd].

Lemma gasSStore_ok : gas_ok gasSStore None 2 1 own_gas.
Proof.
  intros gt memsz f Hgt Hf Hlen _ H0. specialize (H0 eq_refl). unfold gasSStore.
  back. intros y Hy _. back. intros x Hx _. wp_steps.
  destruct (EmptyHash _ && negb _); [apply wp_ret, gas_post_same; by try vm_compute|].
  destruct (negb _ && _).
  - apply wp_M_bind, wp_put_db, wp_ret, gas_post_db; [done|apply mut_AddRefund|by vm_compute|done|by vm_compute].
  - apply wp_ret, gas_post_same; by try vm_compute.
Qed.

Lemma makeGasLog_ok n pops : (2 <= pops)%nat -> 0 <= n <= 4 ->
  gas_ok (makeGasLog n) (Some memoryLog) pops 1 own_gas.
Proof.
  intros Hp Hn gt memsz f Hgt Hf Hlen _ _. unfold makeGasLog. back. intros x Hx _.
  apply wp_or_overflow; [by apply gas_post_refused|]. intros _.
  apply wp_or_err, memoryGasCost_ok. intros m' g err Hm Hg Hsz. cbn [fst snd].
  destruct err as [e|]; [by apply gas_post_memory|]. specialize (Hsz eq_refl).
  apply wp_or_overflow; [by apply gas_post_memory|]. intros H1.
  apply SafeAdd_fits in H1 as [-> Hg1]; [|done|by vm_compute].
  apply wp_or_overflow; [by apply gas_post_memory|]. intros H2.
  apply SafeAdd_fits in H2 as [-> Hg2]; [|done|apply u64_range].
  apply wp_or_overflow; [by apply gas_post_memory|]. intros _.
  apply wp_or_overflow; [by apply gas_post_memory|]. intros H3.
  apply SafeAdd_fits in H3 as [-> Hg3]; [|done|apply SafeMul_u64].
  apply wp_ret, gas_post_memory; [done..|]. intros _. split; [done|]. split; [done|].
  pose proof (SafeMul_u64 (bigUint64 x).1 Params.LogDataGas).
  pose proof (u64_range (n * Params.LogTopicGas)). unfold is_u64, Params.LogGas in *. lia.
Qed.

Lemma gasExp_ok : gas_ok gasExp None 2 1 own_gas.
Proof.
  intros gt memsz f Hgt Hf Hlen _ H0. unfold gasExp. back. intros x Hx _.
  apply wp_or_overflow; [by apply gas_post_refused|]. intros H1.
  apply SafeAdd_fits in H1 as [-> Hg1]; [|apply u64_range|by vm_compute].
  apply wp_ret, gas_post_same; [done|done|by apply H0|].
  pose proof (u64_range ((BitLen x + 7) / 8 * gt.(ExpByte))). unfold is_u64, GasSlowStep in *. lia.
Qed.

Lemma gasSuicide_ok : gas_ok gasSuicide None 1 0 own_gas.
Proof.
  intros gt memsz f Hgt Hf Hlen _ H0. specialize (H0 eq_refl). unfold gasSuicide. wp_steps.
  assert (Hend : forall g, is_u64 g -> wp (((if negb (HasSuicided (evm_StateDB (evm f)) (Address (contract f)))
      then put_db (AddRefund (evm_StateDB (evm f)) Params.SuicideRefundGas) else mret tt);;
      mret (g, None)) f) (fun r => gas_post f r.1 memsz 0 own_gas r.2)).
  { intros g Hg. unfold is_u64 in Hg. destruct (negb _).
    - apply wp_M_bind, wp_put_db, wp_ret, gas_post_db; [done|apply mut_AddRefund|done|done|lia].
    - apply wp_M_bind, wp_ret, wp_ret, gas_post_same; [done|done|done|lia]. }
  pose proof (gt_Suicide _ Hgt). pose proof (gt_CreateBySuicide _ Hgt).
  destruct (IsEIP150 _ _).
  - back. intros x Hx _. apply wp_ret. cbn [fst snd]. apply Hend.
    repeat case_match; try apply u64_range; unfold is_u64; lia.
  - apply wp_ret. cbn [fst snd]. apply Hend. by vm_compute.
Qed.

(** ** Calls *)
Lemma callGas_u64 gt available base cost : is_u64 (callGas gt available base cost).1.
Proof.
  unfold callGas. repeat case_match; simpl; first [apply u64_range|by vm_compute].
Qed.

(** The end all call gas functions share: the price covers the gas set aside
    for the callee, [extra] on top of it. *)
Lemma call_gas_tail_ok gt (f : frame) m' gas memsz extra :
  frame_ok f -> (1 <= length f.(stack))%nat -> m'.(store) = f.(memory).(store) ->
  is_u64 gas -> memsz <= 0xffffffffe0 -> extra + 1 <= gas ->
  wp (call_gas_tail gt gas (set_memory f m')) (fun r =>
    gas_post f r.1 memsz 1 (fun f => call_budget f + extra) r.2).
Proof.
  intros Hf Hlen Hm Hg Hsz Hx. unfold call_gas_tail. apply wp_M_bind, wp_get_contract. cbn [fst snd].
  destruct (lookup_lt_is_Some_2 f.(stack) 0) as [x Hx0]; [lia|].
  apply wp_M_bind, (wp_stack_back 0 _ x); [done|]. cbn [fst snd].
  pose proof (callGas_u64 gt (contract (set_memory f m')).(Gas) gas x) as Ht.
  destruct (callGas _ _ _ _) as [temp err]. cbn [fst] in Ht.
  apply wp_M_bind. unfold put_callGasTemp, wp at 1. cbn [fst snd].
  set (f' := set_evm _ _).
  assert (Hpost : forall g e, (e = None -> is_u64 g /\ g = gas + temp) ->
    gas_post f f' memsz 1 (fun f => call_budget f + extra) (g, e)).
  { intros g e Hge. destruct (frame_ok_evm _ Hf) as [H1 H2 H3 H4 H5].
    unfold is_u64 in Ht. split; simpl; try done; [by split; simpl; [..|lia]|].
    intros He. destruct (Hge He) as [? ->]. split; [done|]. split; [done|].
    unfold call_budget, own_gas. simpl. lia. }
  destruct err as [e|]; [by apply wp_ret, Hpost|].
  apply wp_or_overflow; [by apply Hpost|]. intros H1.
  apply SafeAdd_fits in H1 as [-> Hg1]; [|done..]. by apply wp_ret, Hpost.
Qed.

(** The memory part of the price, added to what is known already. *)
Lemma gas_known_memory gt (f : frame) known memsz extra :
  frame_ok f -> (1 <= length f.(stack))%nat -> 0 <= extra -> extra + 1 <= known <= 1000000 ->
  wp (or_err (memoryGasCost memsz) (fun memoryGas =>
      or_overflow (SafeAdd known memoryGas) (call_gas_tail gt)) f) (fun r =>
    gas_post f r.1 memsz 1 (fun f => call_budget f + extra) r.2).
Proof.
  intros Hf Hlen Hx Hk. apply wp_or_err, memoryGasCost_ok. intros m' g err Hm Hg Hsz. cbn [fst snd].
  assert (Hbad : forall e, gas_post f (set_memory f m') memsz 1 (fun f => call_budget f + extra)
                 (0, Some e)).
  { intros e. split; simpl; try done. apply Hf. }
  destruct err as [e|]; [by apply Hbad|]. apply wp_or_overflow; [by apply Hbad|]. intros H1.
  apply SafeAdd_fits in H1 as [-> Hg1]; [|unfold is_u64; lia|done].
  apply call_gas_tail_ok; try done; [by apply Hsz|]. unfold is_u64 in *. lia.
Qed.

Lemma gas_memory_known gt (f : frame) known memsz :
  frame_ok f -> (1 <= length f.(stack))%nat -> 1 <= known <= 1000000 ->
  wp (or_err (memoryGasCost memsz) (fun gas =>
      or_overflow (SafeAdd gas known) (call_gas_tail gt)) f) (fun r =>
    gas_post f r.1 memsz 1 call_budget r.2).
Proof.
  intros Hf Hlen Hk. apply wp_or_err, memoryGasCost_ok. intros m' g err Hm Hg Hsz. cbn [fst snd].
  assert (Hbad : forall e, gas_post f (set_memory f m') memsz 1 call_budget (0, Some e)).
  { intros e. split; simpl; try done. apply Hf. }
  destruct err as [e|]; [by apply Hbad|]. apply wp_or_overflow; [by apply Hbad|]. intros H1.
  apply SafeAdd_fits in H1 as [-> Hg1]; [|done|unfold is_u64; lia].
  eapply wp_mono.
  { apply (call_gas_tail_ok _ _ _ _ memsz 0); try done; [by apply Hsz|unfold is_u64 in *; lia]. }
  intros r [? ? ? ? ? ? Hc]. split; try done. intros He. destruct (Hc He) as (? & ? & ?).
  split_and!; try done. lia.
Qed.

Lemma gasDelegateCall_ok : gas_ok gasDelegateCall (Some memoryDelegateCall) 6 1 call_budget.
Proof.
  intros gt memsz f Hgt Hf Hlen _ _. pose proof (gt_Calls _ Hgt).
  apply gas_memory_known; [done|lia|lia].
Qed.

Lemma gasStaticCall_ok : gas_ok gasStaticCall (Some memoryStaticCall) 6 1 call_budget.
Proof.
  intros gt memsz f Hgt Hf Hlen _ _. pose proof (gt_Calls _ Hgt).
  apply gas_memory_known; [done|lia|lia].
Qed.

(** A call with value pays for the stipend its callee gets. *)
Definition stipend (v : Z) : Z := if v =? 0 then 0 else Params.CallStipend.

Lemma value_budget_post (f f' : frame) memsz v r :
  f.(stack) !! 2%nat = Some v ->
  gas_post f f' memsz 1 (fun f' => call_budget f' + stipend v) r ->
  gas_post f f' memsz 1 value_budget r.
Proof.
  intros Hv [Hs ? ? ? ? ? Hc]. split; try done. intros He. destruct (Hc He) as (? & ? & Hle).
  split; [done|]. split; [done|]. unfold value_budget. rewrite Hs, Hv. unfold stipend in Hle.
  destruct (Z.eqb_spec v 0); [subst; by rewrite bool_decide_eq_true_2|].
  rewrite bool_decide_eq_false_2 by (by intros [=]). done.
Qed.

Lemma gas_value_ok gt (f : frame) v known memsz :
  frame_ok f -> (1 <= length f.(stack))%nat -> f.(stack) !! 2%nat = Some v ->
  stipend v + 1 <= known <= 1000000 ->
  wp (or_err (memoryGasCost memsz) (fun memoryGas =>
      or_overflow (SafeAdd known memoryGas) (call_gas_tail gt)) f) (fun r =>
    gas_post f r.1 memsz 1 value_budget r.2).
Proof.
  intros Hf Hlen Hv Hk. eapply wp_mono.
  - apply (gas_known_memory gt f known memsz (stipend v)); try done.
    unfold stipend. case_match; by vm_compute.
  - intros r Hr. by eapply value_budget_post.
Qed.

Lemma gasCallCode_ok : gas_ok gasCallCode (Some memoryCall) 7 1 value_budget.
Proof.
  intros gt memsz f Hgt Hf Hlen _ _. pose proof (gt_Calls _ Hgt). unfold gasCallCode.
  back. intros v Hv Ev. apply (gas_value_ok _ _ v); [done|lia|done|].
  unfold stipend, Params.CallStipend, Params.CallValueTransferGas.
  destruct (v =? 0); cbn [negb]; rewrite ?u64_id by (unfold is_u64; lia); lia.
Qed.

Lemma gasCall_ok : gas_ok gasCall (Some memoryCall) 7 1 value_budget.
Proof.
  intros gt memsz f Hgt Hf Hlen _ _. pose proof (gt_Calls _ Hgt). unfold gasCall.
  back. intros v Hv Ev. back. intros a _ _. apply wp_M_bind, wp_get_db. cbn [fst snd].
  apply (gas_value_ok _ _ v); [done|lia|done|].
  match goal with |- context [if negb (v =? 0) then u64 (?g + _) else _] => set (known := g) end.
  assert (Hk : 1 <= known <= 200000).
  { subst known. unfold Params.CallNewAccountGas.
    repeat case_match; rewrite ?u64_id by (unfold is_u64; lia); lia. }
  clearbody known. unfold stipend, Params.CallStipend, Params.CallValueTransferGas.
  destruct (v =? 0); cbn [negb]; rewrite ?u64_id by (unfold is_u64; lia); lia.
Qed.
End GasSafety.
