(* ===== verification/TableSafety.v ===== *)
(** * Every entry of the instruction tables is safe

    [op_safe] ties together what the table entry announces (operands, results,
    memory) and what its gas function and its instruction do; it holds of each
    valid entry of the four tables.  [slack] is the gas an operation is sure to
    spend: it is 1 but for the operations that end the frame and for
    EXTCODEHASH, which some gas tables give away. *)
From Stdlib Require Import ZArith Lia.
From S2P Require Import Prelude Word Config OpCodes Analysis Machine Gas Calls Instructions.
From S2P Require Import JumpTable StateSpec Invariant Safety CallSafety GasSafety.
Import Big Op.
Open Scope Z_scope.

Section TableSafety.
Context {db disk : Type} {SDB : StateDB db} {QH : VMStateQueryHelper db disk} {CR : Crypto}
  {EN : Env} {laws : StateLaws db disk} {CU : CodesInUse} {EO : EnvOk}.
Abbreviation EVM := (EVM db disk).
Abbreviation frame := (frame db disk).
Abbreviation M := (M db disk).
Abbreviation operation := (operation db disk).

(** A budget exceeds the frame's gas by what the stack and the call gas
    register determine. *)
Definition budget_ok (budget : frame -> Z) : Prop :=
  (forall f, frame_ok f -> own_gas f <= budget f) /\
  (forall f g : frame, f.(stack) = g.(stack) -> f.(evm).(callGasTemp) = g.(evm).(callGasTemp) ->
     budget f - own_gas f = budget g - own_gas g).

Definition memory_size_ok (ms : option memorySizeFunc) (pops : nat) : Prop :=
  match ms with
  | None => True
  | Some msize => forall s, (pops <= length s)%nat -> Forall nonneg s ->
      exists sz, msize s = Some sz /\ 0 <= sz
  end.

(** The instruction neither recurses nor moves the program counter. *)
Definition stays (ex : executionFunc db disk) : Prop :=
  (forall run run', ex run = ex run') /\
  (forall run f, match ex run f with Ret (f', _) => f'.(pc) = f.(pc) | _ => True end).

Definition stops (o : operation) : bool := o.(reverts) || o.(halts).

(** Operations that may cost nothing. *)
Definition free_ok (o : operation) : Prop :=
  (forall run run', o.(execute) run = o.(execute) run') /\
  (stops o = false -> o.(jumps) = false /\ stays o.(execute)).

Record op_safe (o : operation) (pops pushes : nat) (slack : Z) (budget : frame -> Z) : Prop := {
  os_stack : o.(validateStack) = makeStackFunc (Z.of_nat pops) (Z.of_nat pushes);
  os_exec : exec_ok o.(execute) o.(memorySize) pops pushes budget;
  os_gas : gas_ok o.(gasCost) o.(memorySize) pops slack budget;
  os_memory : memory_size_ok o.(memorySize) pops;
  os_budget : budget_ok budget;
  os_mono : exec_mono o.(execute);
  os_slack : slack = 1 \/ slack = 0 /\ free_ok o
}.

Definition op_ok (o : operation) : Prop :=
  o.(valid) = true -> exists pops pushes slack budget, op_safe o pops pushes slack budget.

Definition entry_ok (p : Z * operation) : Prop := answered p.1 = true -> op_ok p.2.

Lemma answered_difficulty : answered DIFFICULTY = true -> is_Some Difficulty.
Proof. apply bool_decide_eq_true_1. Qed.

(** ** The parts of an entry *)
Lemma own_gas_ok : budget_ok own_gas.
Proof. split; [done|]. intros f g _ _. lia. Qed.

Lemma call_budget_ok : budget_ok call_budget.
Proof.
  split; [|intros f g _ Ht; unfold call_budget; rewrite Ht; lia].
  intros f Hf. pose proof (evm_ok_temp _ (frame_ok_evm _ Hf)). unfold call_budget. lia.
Qed.

Lemma value_budget_ok : budget_ok value_budget.
Proof.
  split.
  - intros f Hf. pose proof (proj1 call_budget_ok f Hf). unfold value_budget.
    unfold Params.CallStipend. case_bool_decide; lia.
  - intros f g Hs Ht. unfold value_budget, call_budget. rewrite Hs, Ht. lia.
Qed.

Lemma calcMemSize_nonneg off l : 0 <= off -> 0 <= l -> 0 <= calcMemSize off l.
Proof. unfold calcMemSize. intros. case_match; lia. Qed.

Lemma calc2_ok s off l : Forall nonneg s -> (off < length s)%nat -> (l < length s)%nat ->
  exists sz, calc2 s off l = Some sz /\ 0 <= sz.
Proof.
  intros Hs Ho Hl. unfold calc2, Back.
  destruct (lookup_lt_is_Some_2 s off Ho) as [x Hx], (lookup_lt_is_Some_2 s l Hl) as [y Hy].
  rewrite Hx, Hy. simpl. eexists. split; [done|].
  apply calcMemSize_nonneg; by eapply (Forall_lookup_1 nonneg s).
Qed.

Lemma calc2_size_ok off l pops : (off < pops)%nat -> (l < pops)%nat ->
  memory_size_ok (Some (fun s => calc2 s off l)) pops.
Proof. intros Ho Hl s Hp Hs. apply calc2_ok; [done|lia|lia]. Qed.

Lemma calc1_size_ok k pops : (0 < pops)%nat -> 0 <= k ->
  memory_size_ok (Some (fun s => o ← Back s 0; Some (calcMemSize o k))) pops.
Proof.
  intros Ho Hk s Hp Hs. destruct (lookup_lt_is_Some_2 s 0) as [x Hx]; [lia|].
  unfold Back. rewrite Hx. simpl. eexists. split; [done|].
  apply calcMemSize_nonneg; [|done]. by eapply (Forall_lookup_1 nonneg s).
Qed.

Lemma calc4_size_ok a b c d pops : (a < pops)%nat -> (b < pops)%nat -> (c < pops)%nat ->
  (d < pops)%nat ->
  memory_size_ok (Some (fun s => x ← calc2 s a b; y ← calc2 s c d; Some (BigMax x y))) pops.
Proof.
  intros Ha Hb Hc Hd s Hp Hs.
  destruct (calc2_ok s a b) as (x & Hx & ?); [done|lia|lia|].
  destruct (calc2_ok s c d) as (y & Hy & ?); [done|lia|lia|].
  rewrite Hx, Hy. simpl. eexists. split; [done|]. unfold BigMax. case_match; lia.
Qed.

Lemma memoryLog_ok pops : (1 < pops)%nat -> memory_size_ok (Some memoryLog) pops.
Proof.
  intros Hp s Hl Hs. destruct (lookup_lt_is_Some_2 s 0) as [x Hx]; [lia|].
  destruct (lookup_lt_is_Some_2 s 1) as [y Hy]; [lia|].
  unfold memoryLog, Back. rewrite Hx, Hy. simpl. eexists. split; [done|].
  apply calcMemSize_nonneg; by eapply (Forall_lookup_1 nonneg s).
Qed.

Lemma memory_none_ok pops : memory_size_ok None pops.
Proof. done. Qed.

Lemma stays_ExtCodeHash : stays opExtCodeHash.
Proof.
  split; [done|]. intros run f. unfold opExtCodeHash, mbind, M_bind, peek.
  destruct (stack f) as [|x s] eqn:Es; [done|]. unfold get_db, set_top. by rewrite Es.
Qed.

Lemma makePush_safe (n : nat) : (1 <= n <= 32)%nat ->
  op_ok (entry (makePush (Z.of_nat n) (Z.of_nat n)) gasPush (makeStackFunc 0 1) None).
Proof.
  intros Hn _. exists 0%nat, 1%nat, 1, own_gas. split; try done;
    [|apply gasPush_ok|apply own_gas_ok|by apply exec_mono_const|by left].
  apply makePush_ok; lia.
Qed.

Lemma makeDup_safe (n : nat) : (1 <= n)%nat ->
  op_ok (entry (makeDup n) gasDup (makeDupStackFunc (Z.of_nat n)) None).
Proof.
  intros Hn _. exists n, (n + 1)%nat, 1, own_gas.
  split; [|by apply makeDup_ok|apply gasDup_ok|done|apply own_gas_ok|by apply exec_mono_const|by left].
  simpl. unfold makeDupStackFunc. f_equal; lia.
Qed.

Lemma makeSwap_safe (n : nat) :
  op_ok (entry (makeSwap n) gasSwap (makeSwapStackFunc (Z.of_nat (n + 1))) None).
Proof.
  intros _. exists (n + 1)%nat, (n + 1)%nat, 1, own_gas.
  split; [done|by apply makeSwap_ok|apply gasSwap_ok|done|apply own_gas_ok|by apply exec_mono_const|by left].
Qed.

Lemma makeLog_safe (n : nat) : (n <= 4)%nat ->
  op_ok (set_writes (entry (makeLog n) (makeGasLog (Z.of_nat n)) (makeStackFunc (Z.of_nat (n + 2)) 0)
    (Some memoryLog))).
Proof.
  intros Hn _. exists (n + 2)%nat, 0%nat, 1, own_gas.
  split; [done|apply makeLog_ok|apply makeGasLog_ok; lia|apply memoryLog_ok; lia|apply own_gas_ok
        |by apply exec_mono_const|by left].
Qed.
End TableSafety.

Create HintDb table.
#[export] Hint Resolve own_gas_ok call_budget_ok value_budget_ok memory_none_ok : table.
#[export] Hint Resolve opAdd_ok opSub_ok opMul_ok opDiv_ok opSdiv_ok opMod_ok opSmod_ok opLt_ok
  opGt_ok opSlt_ok opSgt_ok opEq_ok opAnd_ok opOr_ok opXor_ok opSHL_ok opSHR_ok opSAR_ok opExp_ok
  opByte_ok opSignExtend_ok opNot_ok opIszero_ok opAddmod_ok opMulmod_ok : table.
#[export] Hint Resolve opAddress_ok opOrigin_ok opCaller_ok opCoinbase_ok opTimestamp_ok
  opGasLimit_ok opCallDataSize_ok opReturnDataSize_ok opCodeSize_ok opMsize_ok opPc_ok opGas_ok
  opCallValue_ok opGasprice_ok opNumber_ok opDifficulty_ok opBlockhash_ok opBalance_ok
  opExtCodeHash_ok opSload_ok opExtCodeSize_ok opCallDataLoad_ok : table.
#[export] Hint Resolve opSha3_ok opCallDataCopy_ok opReturnDataCopy_ok opCodeCopy_ok
  opExtCodeCopy_ok opMload_ok opMstore_ok opMstore8_ok opSstore_ok opSuicide_ok opReturn_ok
  opRevert_ok opJump_ok opJumpi_ok opPop_ok opJumpdest_ok opStop_ok : table.
#[export] Hint Resolve opCreate_ok opCreate2_ok opCall_ok opCallCode_ok opDelegateCall_ok
  opStaticCall_ok : table.
#[export] Hint Resolve gasCallDataCopy_ok gasReturnDataCopy_ok gasCodeCopy_ok gasSha3_ok
  gasExtCodeCopy_ok gasCreate_ok gasCreate2_ok gas_word_access_ok gas_memory_ok gasBalance_ok
  gasExtCodeSize_ok gasExtCodeHash_ok gasSLoad_ok gasSStore_ok gasExp_ok gasSuicide_ok
  gasDelegateCall_ok gasStaticCall_ok gasCallCode_ok gasCall_ok : table.
#[export] Hint Extern 1 (gas_ok (constGasFunc _) _ _ _ _) =>
  apply constGas_ok; by vm_compute : table.
#[export] Hint Resolve opCall_mono opCallCode_mono opDelegateCall_mono opStaticCall_mono
  opCreate_mono opCreate2_mono : table.
#[export] Hint Extern 2 (exec_mono _) => by apply exec_mono_const : table.
#[export] Hint Extern 1 (memory_size_ok _ _) =>
  first [ apply calc2_size_ok; lia | apply calc1_size_ok; lia | apply calc4_size_ok; lia ] : table.

(** An ordinary entry: operands and results are read off its stack function. *)
Ltac entry_parts slack :=
  intros _;
  match goal with |- context [makeStackFunc ?a ?b] =>
    let a := eval vm_compute in (Z.to_nat a) in
    let b := eval vm_compute in (Z.to_nat b) in
    exists a, b, slack; eexists
  end;
  split; cbn [entry execute gasCost memorySize validateStack set_writes set_halts set_jumps
              set_reverts set_returns];
  [ reflexivity | solve [eauto with table] | solve [eauto with table] | solve [eauto with table]
  | solve [eauto with table] | solve [eauto with table] | ].
Ltac entry_safe := entry_parts constr:(1); by left.
(** A free one that ends the frame. *)
Ltac entry_last := entry_parts constr:(0); right; (split; [done | by split]).
Ltac entries tac :=
  repeat (apply Forall_cons; split;
    [unfold entry_ok; cbn [fst snd]; first [intros Hanswer%answered_difficulty | intros _]; tac | ]); apply Forall_nil_2.

Section Tables.
Context {db disk : Type} {SDB : StateDB db} {QH : VMStateQueryHelper db disk} {CR : Crypto}
  {EN : Env} {laws : StateLaws db disk} {CU : CodesInUse} {EO : EnvOk}.
Abbreviation operation := (operation db disk).

Lemma frontier_environment_ok : Forall entry_ok frontier_environment.
Proof. unfold frontier_environment. entries ltac:(entry_safe). Qed.

Lemma frontier_arithmetic_ok : Forall entry_ok frontier_arithmetic.
Proof. unfold frontier_arithmetic. entries ltac:(first [entry_safe | entry_last]). Qed.

Lemma frontier_storage_ok : Forall entry_ok frontier_storage.
Proof. unfold frontier_storage. entries ltac:(entry_safe). Qed.

Lemma frontier_push_ok : Forall entry_ok (frontier_push_low ++ frontier_push_high).
Proof.
  unfold frontier_push_low, frontier_push_high, app.
  entries ltac:(idtac; match goal with |- context [makePush ?n _] =>
    let k := eval vm_compute in (Z.to_nat n) in apply (makePush_safe k); lia end).
Qed.

Lemma frontier_dup_ok : Forall entry_ok frontier_dup.
Proof.
  unfold frontier_dup.
  entries ltac:(idtac; match goal with |- context [makeDup ?n] => apply (makeDup_safe n); lia end).
Qed.

Lemma frontier_swap_ok : Forall entry_ok frontier_swap.
Proof.
  unfold frontier_swap.
  entries ltac:(idtac; match goal with |- context [makeSwap ?n] => apply (makeSwap_safe n) end).
Qed.

Lemma frontier_system_ok : Forall entry_ok frontier_system.
Proof.
  unfold frontier_system.
  entries ltac:(first
    [ match goal with |- context [makeLog ?n] => apply (makeLog_safe n); lia end
    | entry_safe | entry_last ]).
Qed.

(** ** The tables *)
Record table_ok (jt : Z -> operation) : Prop := {
  table_entry : forall op, answered op = true -> op_ok (jt op);
  table_stop : (jt STOP).(halts) = true;
  table_call : (jt CALL).(validateStack) = makeStackFunc 7 1;
  table_difficulty : exec_mono (jt DIFFICULTY).(execute)
}.

Lemma table_mono jt op : table_ok jt -> (jt op).(valid) = true -> exec_mono (jt op).(execute).
Proof.
  intros Hjt Hv. destruct (answered op) eqn:Ha.
  - by destruct (table_entry _ Hjt op Ha Hv) as (? & ? & ? & ? & []).
  - unfold answered in Ha. apply orb_false_iff in Ha as [->%negb_false_iff%Z.eqb_eq _]. apply Hjt.
Qed.

Lemma upd_ok (t : Z -> operation) op o :
  (forall k, answered k = true -> op_ok (t k)) -> (answered op = true -> op_ok o) ->
  forall k, answered k = true -> op_ok (upd t op o k).
Proof. intros Ht Ho k Hk. unfold upd. destruct (Z.eqb_spec k op) as [->|]; auto. Qed.

Lemma array_of_list_ok (l : list (Z * operation)) :
  Forall entry_ok l -> forall k, answered k = true -> op_ok (array_of_list l k).
Proof.
  induction 1 as [|[op o] l Ho Hl IH]; [done|]. by apply upd_ok.
Qed.

Lemma frontier_ok : forall k, answered k = true -> op_ok (newFrontierInstructionSet k).
Proof.
  apply array_of_list_ok. pose proof frontier_push_ok as [? ?]%Forall_app.
  rewrite !Forall_app. split_and!; try done.
  - apply frontier_arithmetic_ok.
  - apply frontier_environment_ok.
  - apply frontier_storage_ok.
  - apply frontier_dup_ok.
  - apply frontier_swap_ok.
  - apply frontier_system_ok.
Qed.

Lemma homestead_ok : forall k, answered k = true -> op_ok (newHomesteadInstructionSet k).
Proof. apply upd_ok; [apply frontier_ok|]. intros _. entry_safe. Qed.

Lemma byzantium_ok : forall k, answered k = true -> op_ok (newByzantiumInstructionSet k).
Proof.
  unfold newByzantiumInstructionSet.
  apply upd_ok; [|intros _; entry_last]. do 3 (apply upd_ok; [|intros _; entry_safe]). apply homestead_ok.
Qed.

(** EXTCODEHASH may be free, but moves on to the next operation. *)
Lemma constantinople_ok : forall k, answered k = true -> op_ok (newConstantinopleInstructionSet k).
Proof.
  unfold newConstantinopleInstructionSet.
  apply upd_ok; [|intros _; entry_safe]. apply upd_ok.
  { do 3 (apply upd_ok; [|intros _; entry_safe]). apply byzantium_ok. }
  intros _. entry_parts constr:(0). right. split; [done|]. split; [done|]. intros _.
  split; [done|apply stays_ExtCodeHash].
Qed.

Lemma frontier_table_ok : table_ok newFrontierInstructionSet.
Proof. split; [apply frontier_ok|done|done|by apply exec_mono_const]. Qed.
Lemma homestead_table_ok : table_ok newHomesteadInstructionSet.
Proof. split; [apply homestead_ok|done|done|by apply exec_mono_const]. Qed.
Lemma byzantium_table_ok : table_ok newByzantiumInstructionSet.
Proof. split; [apply byzantium_ok|done|done|by apply exec_mono_const]. Qed.
Lemma constantinople_table_ok : table_ok newConstantinopleInstructionSet.
Proof. split; [apply constantinople_ok|done|done|by apply exec_mono_const]. Qed.
End Tables.
