(* ===== verification/PrecompileSafety.v ===== *)
(** * Precompiled contracts are safe

    On any input each native contract has a price, and when that price is
    within the machine's gas bound it runs without a panic and returns a byte
    string.  For the modular exponentiation this is where the bound matters:
    the price is what keeps the three lengths of its header small enough for
    the slices it takes. *)
From Stdlib Require Import ZArith Lia.
From S2P Require Import Prelude Word Config OpCodes Analysis Machine Gas Calls Precompiles.
From S2P Require Import StateSpec Invariant.
Import Big.
Open Scope Z_scope.

(** The hash and curve libraries return byte strings. *)
Class PrecompileLaws `{!PrecompileLib} := {
  lib_Sum256 : forall d, is_bytes (Sum256 d);
  lib_Ripemd160 : forall d, is_bytes (Ripemd160 d);
  lib_Marshal : forall p, is_bytes (G1_Marshal p)
}.

Definition are_bytes (l : list Z) : Prop := Forall (fun b => 0 <= b < 256) l.

(** ** Padding and windows *)
Lemma LeftPadBytes_bytes l n : is_bytes l -> n < 2 ^ 62 -> is_bytes (LeftPadBytes l n).
Proof.
  unfold LeftPadBytes. intros [H1 H2] Hn. case_match; [done|]. split.
  - apply Forall_app. split; [|done]. apply Forall_replicate. lia.
  - rewrite length_app, length_replicate. lia.
Qed.

Lemma is_bytes_slice l i j : is_bytes l -> 0 <= i <= j -> j <= Z.of_nat (length l) ->
  exists d, slice l i j = Some d /\ is_bytes d /\ Z.of_nat (length d) = j - i.
Proof.
  intros Hl Hij Hj. destruct (slice_Some l i j Hij Hj) as (d & Hd & Hlen).
  exists d. split; [done|]. split; [by eapply slice_bytes|lia].
Qed.

Lemma getData_ok data start size :
  is_bytes data -> 0 <= start -> 0 <= size ->
  Z.min start (Z.of_nat (length data)) + size < 2 ^ 64 ->
  exists d, getData data start size = Some d /\ are_bytes d /\
    (size < 2 ^ 62 -> Z.of_nat (length d) = size).
Proof.
  intros [Hb Hl] Hs Hn Hfit. unfold getData. set (n := Z.of_nat (length data)) in *.
  replace (if n <? start then n else start) with (Z.min start n) by (case_match; lia).
  rewrite (u64_id (_ + _)) by (unfold is_u64; lia).
  replace (if n <? Z.min start n + size then n else Z.min start n + size)
    with (Z.min (Z.min start n + size) n) by (case_match; lia).
  destruct (slice_Some data (Z.min start n) (Z.min (Z.min start n + size) n)) as (d & Hd & Hlen);
    [lia|lia|]. rewrite Hd. simpl.
  eexists. split; [done|].
  assert (Hbd : are_bytes d) by (eapply (slice_bytes data); [by split|done]).
  unfold RightPadBytes. split.
  - case_match; [done|]. apply Forall_app. split; [done|]. apply Forall_replicate. lia.
  - intros Hsz. rewrite i64_id by (unfold is_i64; lia).
    destruct (Z.leb_spec size (Z.of_nat (length d))); [lia|].
    rewrite length_app, length_replicate. lia.
Qed.

Lemma SetBytes_bound d n : are_bytes d -> Z.of_nat (length d) = n -> 0 <= SetBytes d < 256 ^ n.
Proof. intros Hd <-. by apply be_int_bound. Qed.

Section Native.
Context {CR : Crypto} {PL : PrecompileLib} {PLaws : PrecompileLaws}.

(** A price for every input, and a run without panic when it can be paid. *)
Definition native_ok (p : PrecompiledContract) : Prop :=
  forall input, is_bytes input ->
    exists g, p.(RequiredGas) input = Ret g /\ 0 <= g /\
      (g < max_gas -> exists r, p.(RunNative) input = Ret r /\ is_bytes r.1).

Lemma ecrecover_ok : native_ok ecrecover.
Proof.
  intros input Hin. exists Params.EcrecoverGas. split; [done|]. split; [done|]. intros _. cbn [RunNative ecrecover].
  set (l := RightPadBytes input 128).
  assert (Hl : is_bytes l) by (by apply RightPadBytes_bytes).
  assert (Hlen : 128 <= Z.of_nat (length l)).
  { subst l. unfold RightPadBytes. case_match eqn:E; [by apply Z.leb_le in E|].
    rewrite length_app, length_replicate. lia. }
  destruct (is_bytes_slice l 64 96 Hl) as (rb & -> & _); [lia..|].
  destruct (is_bytes_slice l 96 128 Hl) as (sb & -> & _); [lia..|].
  destruct (lookup_lt_is_Some_2 l 63) as [v ->]; [lia|].
  destruct (is_bytes_slice l 32 63 Hl) as (zs & -> & _); [lia..|].
  destruct (is_bytes_slice l 0 32 Hl) as (h & -> & _); [lia..|].
  destruct (is_bytes_slice l 64 128 Hl) as (rs & -> & _); [lia..|].
  cbn [or_panic mbind outcome_bind].
  destruct (_ || _); [eexists; split; [done|apply is_bytes_nil]|].
  destruct (RecoverPubkey _ _) as [pk|]; [|eexists; split; [done|apply is_bytes_nil]].
  eexists. split; [done|]. cbn [fst]. apply LeftPadBytes_bytes; [|done].
  destruct (is_bytes_be_bytes HashLength (NewHash (drop 1 pk))) as [Hb Hlb]; [by vm_compute|].
  split; [by apply Forall_drop|]. rewrite length_drop. lia.
Qed.

Lemma words_gas_nonneg input w b : 0 <= words_gas input w b.
Proof. apply u64_range. Qed.

Lemma sha256hash_ok : native_ok sha256hash.
Proof.
  intros input Hin. eexists. split; [done|]. split; [apply words_gas_nonneg|]. intros _.
  eexists. split; [done|]. apply lib_Sum256.
Qed.

Lemma ripemd160hash_ok : native_ok ripemd160hash.
Proof.
  intros input Hin. eexists. split; [done|]. split; [apply words_gas_nonneg|]. intros _.
  eexists. split; [done|]. apply LeftPadBytes_bytes; [apply lib_Ripemd160|done].
Qed.

Lemma dataCopy_ok : native_ok dataCopy.
Proof.
  intros input Hin. eexists. split; [done|]. split; [apply words_gas_nonneg|]. intros _.
  by eexists.
Qed.

Ltac window k n := match goal with |- context [getData ?l k n] =>
  let d := fresh "d" in let Hd := fresh "Hd" in
  destruct (getData_ok l k n) as (d & -> & Hd); [done|lia|lia|lia|];
  cbn [or_panic mbind outcome_bind] end.

Lemma bn256Add_ok : native_ok bn256Add.
Proof.
  intros input Hin. eexists. split; [done|]. split; [done|]. intros _. cbn [RunNative bn256Add].
  window 0 64. destruct (G1_Unmarshal _); [|eexists; split; [done|apply is_bytes_nil]].
  window 64 64. destruct (G1_Unmarshal _); [|eexists; split; [done|apply is_bytes_nil]].
  eexists. split; [done|]. apply lib_Marshal.
Qed.

Lemma bn256ScalarMul_ok : native_ok bn256ScalarMul.
Proof.
  intros input Hin. eexists. split; [done|]. split; [done|]. intros _. cbn [RunNative bn256ScalarMul].
  window 0 64. destruct (G1_Unmarshal _); [|eexists; split; [done|apply is_bytes_nil]].
  window 64 32. eexists. split; [done|]. apply lib_Marshal.
Qed.

(** ** Pairing *)
Lemma pairing_points_ok n input i cs ts :
  is_bytes input -> 0 <= i -> i + 192 * Z.of_nat n <= Z.of_nat (length input) ->
  exists r, pairing_points n input i cs ts = Ret r.
Proof.
  revert i cs ts. induction n as [|n IH]; intros i cs ts Hin Hi Hle; [by eexists|].
  cbn [pairing_points].
  destruct (is_bytes_slice input i (i + 64) Hin) as (c & -> & _); [lia..|].
  cbn [or_panic mbind outcome_bind]. destruct (G1_Unmarshal c); [|by eexists].
  destruct (is_bytes_slice input (i + 64) (i + 192) Hin) as (t & -> & _); [lia..|].
  cbn [or_panic mbind outcome_bind]. destruct (G2_Unmarshal t); [|by eexists].
  apply IH; [done|lia|lia].
Qed.

Lemma bn256Pairing_ok : native_ok bn256Pairing.
Proof.
  intros input Hin. eexists. split; [done|]. split; [apply u64_range|]. intros _.
  cbn [RunNative bn256Pairing]. case_match; [eexists; split; [done|apply is_bytes_nil]|].
  destruct (pairing_points_ok (length input / 192) input 0 [] []) as [r ->]; [done|lia| |].
  { pose proof (Nat.Div0.mul_div_le (length input) 192). lia. }
  cbn [mbind outcome_bind].
  destruct r as [[cs ts]|e]; (eexists; split; [done|]); [|apply is_bytes_nil].
  cbn [fst]. case_match; (split; [|done]); unfold true32Byte, false32Byte.
  - apply Forall_app. split; [apply Forall_replicate; lia|apply Forall_singleton; lia].
  - apply Forall_replicate. lia.
Qed.

(** ** Modular exponentiation *)
Definition modexp_complexity (x : Z) : Z :=
  if x <=? 64 then x * x
  else if x <=? 1024 then Div (x * x) 4 + (96 * x - 3072)
  else Div (x * x) 16 + (480 * x - 199680).

Lemma modexp_complexity_bound x : 1 <= x -> 1 <= modexp_complexity x /\
  (modexp_complexity x < 2 ^ 67 -> x < 2 ^ 36).
Proof.
  intros Hx. unfold modexp_complexity, Div. change (0 <? 4) with true. change (0 <? 16) with true. cbv iota.
  assert (Hsq : 1 <= x * x) by nia.
  destruct (Z.leb_spec x 64); [split; lia|].
  destruct (Z.leb_spec x 1024).
  - pose proof (Z.div_pos (x * x) 4 ltac:(lia) ltac:(lia)). split; lia.
  - pose proof (Z.div_pos (x * x) 16 ltac:(lia) ltac:(lia)). split; [lia|]. intros Hc.
    pose proof (Z.mul_succ_div_gt (x * x) 16 ltac:(lia)). nia.
Qed.

Lemma BigMax_max a b : BigMax a b = Z.max a b.
Proof. unfold BigMax. destruct (Z.ltb_spec a b); lia. Qed.

(** A price below the bound keeps the header's lengths below it. *)
Lemma modexp_price x adj :
  0 <= x -> 0 <= adj ->
  (if 64 <? BitLen (Div (modexp_complexity x * BigMax adj 1) Params.ModExpQuadCoeffDiv)
   then MaxUint64
   else Uint64 (Div (modexp_complexity x * BigMax adj 1) Params.ModExpQuadCoeffDiv)) < max_gas ->
  x = 0 \/ x < 2 ^ 36 /\ adj < 20 * 2 ^ 62.
Proof.
  intros Hx Ha Hg. destruct (decide (x = 0)) as [|Hne]; [by left|right].
  destruct (modexp_complexity_bound x) as [Hc1 Hc2]; [lia|].
  rewrite BigMax_max in Hg. set (p := modexp_complexity x * Z.max adj 1) in *.
  assert (Hp : modexp_complexity x <= p /\ adj <= p) by (subst p; nia).
  unfold Div, Params.ModExpQuadCoeffDiv in Hg. change (0 <? 20) with true in Hg. cbv iota in Hg.
  assert (Hq : p / 20 < 2 ^ 62).
  { pose proof (Z.div_pos p 20 ltac:(lia) ltac:(lia)). destruct (Z.ltb_spec 64 (BitLen (p / 20))) as [|Hb];
      [by vm_compute in Hg|]. apply BitLen_le in Hb; [|done].
    rewrite Z.abs_eq in Hb by lia. unfold Uint64 in Hg.
    rewrite Z.abs_eq, u64_id in Hg by (unfold is_u64; lia). exact Hg. }
  pose proof (Z.mul_succ_div_gt p 20 ltac:(lia)). split; [apply Hc2|]; lia.
Qed.

Lemma modexp_body_bytes input : is_bytes input -> is_bytes (modexp_body input).
Proof.
  intros [H1 H2]. unfold modexp_body. case_match; [|apply is_bytes_nil].
  split; [by apply Forall_drop|]. rewrite length_drop. lia.
Qed.

(** The result of the exponentiation fits the modulus' length. *)
Lemma modexp_result_bytes m n v : 0 <= v < m -> m < 256 ^ n -> 0 <= n < 2 ^ 62 ->
  is_bytes (LeftPadBytes (Bytes v) (i64 n)).
Proof.
  intros Hv Hm Hn. rewrite i64_id by (unfold is_i64; lia). apply LeftPadBytes_bytes; [|lia].
  split; [apply Bytes_range|]. unfold Bytes. rewrite be_bytes_length.
  assert (Hb : BitLen v <= 8 * n).
  { apply BitLen_le; [lia|]. rewrite Z.abs_eq by lia. rewrite Z.pow_mul_r by lia.
    change (2 ^ 8) with 256. lia. }
  pose proof (BitLen_nonneg v). pose proof (Z.div_pos (BitLen v + 7) 8 ltac:(lia) ltac:(lia)).
  pose proof (Z.div_le_mono (BitLen v + 7) (8 * n + 7) 8 ltac:(lia) ltac:(lia)).
  replace ((8 * n + 7) / 8) with n in * by
    (rewrite (Z.mul_comm 8), Z.div_add_l by lia; change (7 / 8) with 0; lia).
  lia.
Qed.

Lemma modexp_header input : is_bytes input ->
  exists bl el ml, getData input 0 32 = Some bl /\ getData input 32 32 = Some el /\
    getData input 64 32 = Some ml /\ 0 <= SetBytes bl /\ 0 <= SetBytes el /\ 0 <= SetBytes ml.
Proof.
  intros Hin.
  destruct (getData_ok input 0 32) as (bl & -> & Hb & _); [done|lia|lia|lia|].
  destruct (getData_ok input 32 32) as (el & -> & He & _); [done|lia|lia|lia|].
  destruct (getData_ok input 64 32) as (ml & -> & Hm & _); [done|lia|lia|lia|].
  exists bl, el, ml. do 3 (split; [done|]). split_and!; by eapply SetBytes_bound.
Qed.

(** The run, once the price bounded the lengths. *)
Lemma modexp_exec body b e m :
  is_bytes body -> 0 <= b < 2 ^ 36 -> 0 <= m < 2 ^ 36 -> 0 <= e < 2 ^ 63 + 2 ^ 62 ->
  exists r, (b' ← or_panic (E:=nofuel) (getData body 0 b);
     e' ← or_panic (getData body b e);
     m' ← or_panic (getData body (u64 (b + e)) m);
     (if BitLen (SetBytes m') =? 0 then Ret (LeftPadBytes [] (i64 m), None)
      else Ret (LeftPadBytes (Bytes (ExpMod (SetBytes b') (SetBytes e') (SetBytes m'))) (i64 m),
                None : option vm_error))) = Ret r /\ is_bytes r.1.
Proof.
  intros Hbody Hb Hm He. pose proof (proj2 Hbody) as Hlen.
  destruct (getData_ok body 0 b) as (bs & -> & _ & _); [done|lia|lia|lia|].
  destruct (getData_ok body b e) as (es & -> & _ & _); [done|lia|lia|lia|].
  pose proof (u64_range (b + e)) as Hu. unfold is_u64 in Hu.
  destruct (getData_ok body (u64 (b + e)) m) as (ms & -> & Hms & Hml); [done|lia|lia|lia|].
  pose proof (SetBytes_bound ms m Hms (Hml ltac:(lia))) as Hmod. cbn [or_panic mbind outcome_bind].
  destruct (Z.eqb_spec (BitLen (SetBytes ms)) 0) as [Hz|Hz].
  - eexists. split; [done|]. cbn [fst]. apply LeftPadBytes_bytes; [apply is_bytes_nil|].
    rewrite i64_id by (unfold is_i64; lia). lia.
  - eexists. split; [done|]. cbn [fst]. apply (modexp_result_bytes (SetBytes ms)); [|lia|lia].
    assert (SetBytes ms <> 0) by (intros E; by rewrite E in Hz).
    unfold ExpMod. rewrite Z.abs_eq by lia. apply Z.mod_pos_bound. lia.
Qed.

Lemma bigModExp_ok : native_ok bigModExp.
Proof.
  intros input Hin. cbn [RequiredGas RunNative bigModExp]. unfold modexp_RequiredGas, modexp_Run.
  destruct (modexp_header input Hin) as (bl & el & ml & -> & -> & -> & Hbl & Hel & Hml).
  pose proof (modexp_body_bytes input Hin) as Hbody.
  cbn [or_panic mbind outcome_bind].
  generalize dependent (SetBytes bl). generalize dependent (SetBytes el).
  generalize dependent (SetBytes ml). intros m Hm e He b Hb.
  generalize dependent (modexp_body input). intros body Hbody. pose proof (proj2 Hbody) as Hlen.
  assert (exists h, (if Z.of_nat (length body) <=? b then Ret (E:=nofuel) 0
     else d ← or_panic (getData body (Uint64 b) (if 32 <? e then 32 else Uint64 e)); Ret (SetBytes d))
     = Ret h) as [h Hh].
  { case_match; [by eexists|]. pose proof (Uint64_range b). unfold is_u64 in *.
    assert (0 <= (if 32 <? e then 32 else Uint64 e) <= 32).
    { destruct (Z.ltb_spec 32 e); [lia|]. rewrite Uint64_small by (unfold is_u64; lia). lia. }
    destruct (getData_ok body (Uint64 b) (if 32 <? e then 32 else Uint64 e)) as (d & -> & _);
      [done|lia|lia|lia|]. by eexists. }
  rewrite Hh. cbn [mbind outcome_bind]. clear Hh.
  set (msb := if 0 <? BitLen h then BitLen h - 1 else 0).
  assert (Hmsb : 0 <= msb) by (subst msb; destruct (Z.ltb_spec 0 (BitLen h)); lia).
  clearbody msb. set (adj := (if 32 <? e then 8 * (e - 32) else 0) + msb).
  assert (Hadj : 0 <= adj /\ 8 * (e - 32) <= adj) by (subst adj; destruct (Z.ltb_spec 32 e); lia).
  clearbody adj. eexists. split; [reflexivity|]. split.
  { case_match; [by vm_compute|apply u64_range]. }
  intros Hg. apply (modexp_price (BigMax m b) adj) in Hg; [|rewrite BigMax_max; lia|lia].
  rewrite BigMax_max in Hg. destruct Hg as [Hz|[Hx Ha]].
  - replace b with 0 by lia. replace m with 0 by lia. eexists. split; [done|]. apply is_bytes_nil.
  - rewrite !(Uint64_small) by (unfold is_u64; lia).
    case_match; [eexists; split; [done|apply is_bytes_nil]|].
    apply modexp_exec; [done|lia|lia|lia].
Qed.

Lemma homestead_native_ok a p : PrecompiledContractsHomestead a = Some p -> native_ok p.
Proof.
  unfold PrecompiledContractsHomestead. intros Hp. repeat case_match; simplify_eq;
    [apply ecrecover_ok|apply sha256hash_ok|apply ripemd160hash_ok|apply dataCopy_ok].
Qed.

Lemma byzantium_native_ok a p : PrecompiledContractsByzantium a = Some p -> native_ok p.
Proof.
  unfold PrecompiledContractsByzantium. intros Hp. repeat case_match; simplify_eq;
    [apply bigModExp_ok|apply bn256Add_ok|apply bn256ScalarMul_ok|apply bn256Pairing_ok|].
  by eapply homestead_native_ok.
Qed.

(** Running one pays its price or runs out of gas. *)
Lemma RunPrecompiledContract_ok p input c :
  native_ok p -> is_bytes input -> 0 <= c.(Gas) < max_gas ->
  wp (RunPrecompiledContract p input c) (fun r =>
    (exists g, r.1 = set_Gas c g /\ 0 <= g <= c.(Gas)) /\ is_bytes r.2.1).
Proof.
  intros Hp Hin Hc. unfold RunPrecompiledContract.
  destruct (Hp input Hin) as (g & -> & Hg & Hrun). cbn [mbind outcome_bind]. unfold UseGas.
  destruct (Z.ltb_spec (Gas c) g).
  - split; [|apply is_bytes_nil]. exists (Gas c). split; [by destruct c|lia].
  - destruct (Hrun ltac:(lia)) as (r & -> & Hr). cbn [mbind outcome_bind wp fst snd].
    split; [|done]. eexists. split; [done|lia].
Qed.
End Native.
