(* ===== verification/Execution.v ===== *)
(** * Execution is safe and ends

    One turn of the interpreter's loop keeps the machine's invariant and makes
    progress: it spends gas, or it moves forward in code it has paid for
    nothing.  So every run ends, within a number of turns the gas bounds, with
    no panic and without gas appearing from nowhere - as long as it meets no frame that is not
    foreseen ([foreseen]): DIFFICULTY where there is none, or a code that is not among those in use.
    The watched interpreter ([watched]) stops at such a frame with [Excluded], and agrees with the
    machine's on what it returns. *)
From Stdlib Require Import ZArith Lia.
From S2P Require Import Prelude Word Config OpCodes Analysis Machine Gas Calls Instructions.
From S2P Require Import JumpTable Precompiles Interpreter StateSpec Invariant Safety CallSafety.
From S2P Require Import GasSafety TableSafety PrecompileSafety.
Import Big Op.
Open Scope Z_scope.

Section Execution.
Context {db disk : Type} {SDB : StateDB db} {QH : VMStateQueryHelper db disk} {CR : Crypto}
  {PL : PrecompileLib} {EN : Env} {laws : StateLaws db disk} {CU : CodesInUse} {EO : EnvOk} {PLaws : PrecompileLaws}.
Abbreviation EVM := (EVM db disk).
Abbreviation frame := (frame db disk).
Abbreviation operation := (operation db disk).

(** The invariant between two turns of the loop. *)
Record turn_ok (f : frame) : Prop := {
  turn_frame : frame_ok f;
  turn_stack : Z.of_nat (length f.(stack)) <= Params.StackLimit
}.

(** How far a frame has got; with less gas a frame is always further. *)
Definition span : Z := 2 ^ 62 + 64.
Definition measure (f : frame) : Z := own_gas f * span + (2 ^ 62 + 33 - f.(pc)).

Lemma measure_pos f : frame_ok f -> own_gas f * span < measure f.
Proof.
  intros Hf. pose proof (frame_ok_pc _ Hf). destruct (contract_ok_code _ (frame_ok_contract _ Hf)).
  unfold measure. lia.
Qed.

Lemma measure_gas (f g : frame) : frame_ok g -> own_gas g < own_gas f -> frame_ok f ->
  measure g < measure f.
Proof.
  intros Hg Hlt Hf. pose proof (measure_pos f Hf). pose proof (frame_ok_pc _ Hg).
  unfold measure, span in *. lia.
Qed.

(** What a turn keeps from the frame it started in. *)
Record turn_rel (f f' : frame) : Prop := {
  tr_evm : evm_ok f'.(evm);
  tr_rel : evm_rel f.(evm) f'.(evm);
  tr_contract : exists g, f'.(contract) = set_Gas f.(contract) g /\ 0 <= g <= own_gas f
}.

Definition turn_post (f : frame) (r : frame * option ret) : Prop :=
  let '(f', fin) := r in
  turn_rel f f' /\
  match fin with
  | None => turn_ok f' /\ measure f' < measure f
  | Some res => is_bytes res.1
  end.

Lemma set_Gas_same (c : Contract) : set_Gas c c.(Gas) = c.
Proof. by destruct c. Qed.

Lemma turn_rel_refl f : frame_ok f -> turn_rel f f.
Proof.
  intros Hf. split; [apply Hf|done|]. exists (own_gas f). split; [symmetry; apply set_Gas_same|].
  pose proof (contract_ok_gas _ (frame_ok_contract _ Hf)). unfold own_gas. lia.
Qed.

Lemma turn_rel_trans f g h : turn_rel f g -> turn_rel g h -> turn_rel f h.
Proof.
  intros [? R1 (a & Ea & ?)] [? R2 (b & Eb & Hb)]. split; [done|by etrans|].
  exists b. rewrite Eb, Ea. split; [done|]. unfold own_gas in *. rewrite Ea in Hb. simpl in Hb. lia.
Qed.

(** A frame refused by one of the checks. *)
Lemma turn_refused f err : frame_ok f -> turn_post f (f, Some ([], err)).
Proof. intros Hf. split; [by apply turn_rel_refl|apply is_bytes_nil]. Qed.

(** ** The checks *)
Lemma makeStackFunc_None pops pushes s :
  makeStackFunc (Z.of_nat pops) (Z.of_nat pushes) s = None ->
  (pops <= length s)%nat /\
  Z.of_nat (length s) + Z.of_nat pushes - Z.of_nat pops <= Params.StackLimit.
Proof.
  unfold makeStackFunc, require. destruct (Z.ltb_spec (Z.of_nat (length s)) (Z.of_nat pops)); [done|].
  case_match eqn:E; [done|]. apply Z.ltb_ge in E. lia.
Qed.

Lemma restrictions_ok jt ro op (s : list Z) : table_ok jt ->
  (jt op).(validateStack) s = None ->
  exists r, enforceRestrictions (db:=db) (disk:=disk) ro op (jt op) s = Ret r.
Proof.
  intros Hjt Hv. unfold enforceRestrictions.
  case_match; [|by eexists]. destruct ro; [|by eexists]. case_match; [by eexists|].
  destruct (Z.eqb_spec op CALL) as [->|]; [|by eexists].
  rewrite (table_call _ Hjt) in Hv.
  apply (makeStackFunc_None 7 1) in Hv as [Hl _].
  destruct (lookup_lt_is_Some_2 s 2) as [v Hx]; [lia|]. unfold Back. rewrite Hx. by eexists.
Qed.

(** The size is a multiple of the word, zero when no memory is asked for, and
    covers what the instruction accesses. *)
Lemma required_memory_ok (o : operation) pops s :
  memory_size_ok o.(memorySize) pops -> (pops <= length s)%nat -> Forall nonneg s ->
  wp (required_memory o s) (fun r =>
    match r with
    | inr _ => True
    | inl memsz => 0 <= memsz /\ (32 | memsz) /\ (o.(memorySize) = None -> memsz = 0) /\
        (memsz <= 0xffffffffe0 -> forall m, memsz <= Mem.Len m ->
           match o.(memorySize) with
           | None => True
           | Some msize => exists sz, msize s = Some sz /\ sz <= Mem.Len m
           end)
    end).
Proof.
  intros Hms Hl Hs. unfold required_memory. destruct (memorySize o) as [msize|].
  2: { split; [done|]. split; [by exists 0|]. done. }
  destruct (Hms s Hl Hs) as (sz & -> & Hsz). cbn [or_panic mbind outcome_bind].
  unfold bigUint64. destruct (Z.ltb_spec 64 (BitLen sz)) as [|Hb]; [done|].
  apply BitLen_le in Hb; [|done]. rewrite Z.abs_eq in Hb by done.
  rewrite Uint64_small by done. unfold SafeMul.
  destruct (_ || _) eqn:Ez.
  { assert (Hw : toWordSize sz = 0) by (apply orb_true_iff in Ez as [?%Z.eqb_eq|]; done).
    split; [done|]. split; [by exists 0|]. split; [done|]. intros _ m Hm. exists sz. split; [done|].
    unfold toWordSize in Hw. case_match eqn:E; [by vm_compute in Hw|]. apply Z.ltb_ge in E.
    unfold MaxUint64 in *. rewrite u64_id in Hw by (unfold is_u64; lia).
    apply Z.div_small_iff in Hw; [|done]. lia. }
  case_match eqn:Eo; [done|]. apply Z.ltb_ge in Eo.
  pose proof (toWordSize_u64 sz ltac:(unfold is_u64; lia)) as Hw. unfold is_u64 in Hw.
  apply orb_false_iff in Ez as [Ez%Z.eqb_neq _].
  assert (Hmul : 0 <= toWordSize sz * 32 < 2 ^ 64).
  { unfold MaxUint64 in Eo. pose proof (Z.mul_div_le (2 ^ 64 - 1) (toWordSize sz) ltac:(lia)). nia. }
  rewrite u64_id by (unfold is_u64; lia). split; [lia|]. split; [by exists (toWordSize sz)|].
  split; [done|]. intros Hbound m Hm. exists sz. split; [done|].
  unfold toWordSize in Hm, Hbound. case_match eqn:E; [by vm_compute in Hbound|].
  apply Z.ltb_ge in E. unfold MaxUint64 in E. rewrite u64_id in Hm by (unfold is_u64; lia).
  pose proof (Z.mul_succ_div_gt (sz + 31) 32 ltac:(lia)). lia.
Qed.

(** ** Charging, executing, going on *)
Lemma memory_ok_store m m' : m'.(store) = m.(store) -> memory_ok m -> memory_ok m'.
Proof. intros E [? ? ?]. split; unfold Mem.Len in *; by rewrite E. Qed.

Lemma contract_ok_Gas c g : contract_ok c -> 0 <= g < max_gas -> contract_ok (set_Gas c g).
Proof. intros [] ?. by split. Qed.

Lemma evm_ok_clock e t n : evm_ok e -> evm_ok (set_clock e t n).
Proof. intros []. by split. Qed.

Lemma evm_rel_clock e t n : evm_rel e (set_clock e t n).
Proof. by split. Qed.

(** The frame an instruction starts in: charged, with its memory. *)
Definition charged (f : frame) (cost memsz : Z) : frame :=
  let f := set_contract f (set_Gas f.(contract) (f.(contract).(Gas) - cost)) in
  let f := if 0 <? memsz then set_memory f (Mem.Resize f.(memory) memsz) else f in
  set_evm f (set_clock f.(evm) (Now f.(evm).(Ticks)) f.(evm).(Ticks)).

Lemma charged_fields f cost memsz :
  (charged f cost memsz).(stack) = f.(stack) /\ (charged f cost memsz).(pc) = f.(pc) /\
  (charged f cost memsz).(contract) = set_Gas f.(contract) (own_gas f - cost) /\
  (charged f cost memsz).(evm).(callGasTemp) = f.(evm).(callGasTemp).
Proof. unfold charged. by destruct (0 <? memsz). Qed.

Lemma charged_ok f f1 memsz slack budget pops cost :
  frame_ok f -> budget_ok budget -> 0 <= slack -> 0 <= memsz -> (32 | memsz) ->
  gas_post f f1 memsz slack budget (cost, None) -> cost <= own_gas f1 ->
  (pops <= length f.(stack))%nat ->
  let f2 := charged f1 cost memsz in
  frame_ok f2 /\ turn_rel f f2 /\ own_gas f2 <= budget f2 <= own_gas f - slack /\
  memsz <= Mem.Len f2.(memory) /\ f2.(stack) = f.(stack) /\ f2.(pc) = f.(pc) /\
  f2.(contract).(Code) = f.(contract).(Code).
Proof.
  intros Hf Hbud Hsl Hm0 Hm32 [Gs Gc Gp Ge Gr Gm Gcost] Hle Hpops f2.
  destruct (Gcost eq_refl) as ([Hc0 _] & Hmb & Hcost). cbn [fst] in *.
  destruct (charged_fields f1 cost memsz) as (Es & Ep & Ec & Et). fold f2 in Es, Ep, Ec, Et.
  assert (Hown : own_gas f1 = own_gas f) by (unfold own_gas; by rewrite Gc).
  assert (Hown2 : own_gas f2 = own_gas f - cost) by (unfold own_gas at 1; rewrite Ec; simpl; lia).
  assert (Hmem : memory_ok f2.(memory) /\ memsz <= Mem.Len f2.(memory)).
  { pose proof (memory_ok_store _ _ Gm (frame_ok_memory _ Hf)) as Hm1. subst f2. unfold charged.
    destruct (Z.ltb_spec 0 memsz); simpl; [|split; [done|unfold Mem.Len; lia]].
    destruct (memory_Resize_ok f1.(memory) memsz) as [? ->]; [done..|]. split; [done|lia]. }
  assert (He : evm_ok f2.(evm) /\ evm_rel f1.(evm) f2.(evm)).
  { subst f2. unfold charged. destruct (0 <? memsz); (split; [by apply evm_ok_clock|done]). }
  pose proof (contract_ok_gas _ (frame_ok_contract _ Hf)) as Hg. fold (own_gas f) in Hg.
  assert (Hf2 : frame_ok f2).
  { split; [|apply Hmem|rewrite Es, Gs; apply Hf|apply He|].
    - rewrite Ec, Gc. apply contract_ok_Gas; [apply Hf|lia].
    - rewrite Ep, Gp, Ec, Gc. apply Hf. }
  split; [done|]. split.
  { split; [apply He|etrans; [exact Gr|apply He]|]. exists (own_gas f1 - cost).
    rewrite Ec, Gc. split; [done|lia]. }
  destruct Hbud as [Hbud1 Hbud2]. pose proof (Hbud1 f2 Hf2).
  pose proof (Hbud2 f2 f1 Es Et). split; [lia|]. split; [apply Hmem|].
  rewrite Es, Gs, Ep, Gp, Ec, Gc. done.
Qed.

(** The registers after the instruction. *)
Lemma conclude_ok (o : operation) f f2 f3 pops pushes cap slack (r : ret) :
  turn_ok f -> frame_ok f2 -> turn_rel f f2 -> f2.(stack) = f.(stack) -> f2.(pc) = f.(pc) ->
  f2.(contract).(Code) = f.(contract).(Code) ->
  exec_post pops pushes cap f2 f3 r -> cap <= own_gas f - slack ->
  (pops <= length f.(stack))%nat ->
  Z.of_nat (length f.(stack)) + Z.of_nat pushes - Z.of_nat pops <= Params.StackLimit ->
  (o.(halts) = true \/ f.(pc) < Z.of_nat (length f.(contract).(Code))) ->
  (slack = 1 \/ slack = 0 /\ (stops o = false -> o.(jumps) = false /\ f3.(pc) = f2.(pc))) ->
  turn_post f (conclude o f3 r.1 r.2).
Proof.
  intros [Hf Hst] Hf2 Hrel Es Ep Ecode [Pe Pr (g & Pc & Pg) Pm Ps Pl Pp Pb] Hcap Hpops Hlim Hpc Hslack.
  unfold conclude. set (f4 := if returns o then _ else f3).
  assert (H4 : evm_ok f4.(evm) /\ evm_rel f3.(evm) f4.(evm) /\ f4.(contract) = f3.(contract) /\
    f4.(memory) = f3.(memory) /\ f4.(stack) = f3.(stack) /\ f4.(pc) = f3.(pc)).
  { subst f4. destruct (returns o); [|by split_and!]. simpl. split; [|by split_and!].
    destruct Pe. by split. }
  clearbody f4. destruct H4 as (He4 & Hr4 & Ec4 & Em4 & Es4 & Ep4).
  pose proof (tr_contract _ _ Hrel) as (g2 & Ec2 & Hg2).
  assert (Hown : own_gas f2 = g2) by (unfold own_gas; by rewrite Ec2).
  assert (Hrel4 : forall p, turn_rel f (set_pc f4 p)).
  { intros p. split; simpl; [done|etrans; [apply Hrel|]; by etrans|].
    exists g. rewrite Ec4, Pc, Ec2. split; [done|]. destruct Hslack as [|[-> _]]; lia. }
  assert (Hrel4' : turn_rel f f4) by (specialize (Hrel4 f4.(pc)); by destruct f4).
  destruct r as [res [e|]]; cbn [fst snd] in *; [split; [done|apply is_bytes_nil]|].
  destruct (reverts o) eqn:Erev; [by split|]. destruct (halts o) eqn:Ehalt; [by split|].
  destruct Hpc as [|Hpc]; [done|]. specialize (Pl eq_refl).
  assert (Hnext : forall p, 0 <= p <= Z.of_nat (length f.(contract).(Code)) + 32 ->
    turn_ok (set_pc f4 p)).
  { intros p Hp. split; [split|]; simpl; try done.
    - rewrite Ec4, Pc. apply contract_ok_Gas; [apply Hf2|].
      pose proof (contract_ok_gas _ (frame_ok_contract _ Hf)). unfold own_gas in *.
      destruct Hslack as [|[-> _]]; lia.
    - by rewrite Em4.
    - by rewrite Es4.
    - rewrite Ec4, Pc. simpl. by rewrite Ecode.
    - rewrite Es4. rewrite Es in Pl. lia. }
  pose proof (contract_ok_code _ (frame_ok_contract _ Hf)) as [_ Hlen].
  pose proof (frame_ok_pc _ Hf) as Hpc0. rewrite Ep, Ecode in Pp.
  assert (Hpc3 : 0 <= f3.(pc) <= Z.of_nat (length f.(contract).(Code)) + 31).
  { rewrite Ep in *. lia. }
  assert (Hown4 : forall p, own_gas (set_pc f4 p) = g).
  { intros p. unfold own_gas. simpl. by rewrite Ec4, Pc. }
  assert (Hprog : forall p, turn_ok (set_pc f4 p) -> (slack = 0 -> p = f.(pc) + 1) ->
    measure (set_pc f4 p) < measure f).
  { intros p Hp Hp1. destruct Hslack as [->|[-> _]].
    - apply measure_gas; [apply Hp| |done]. rewrite Hown4. lia.
    - specialize (Hp1 eq_refl). subst p. destruct (decide (g < own_gas f)).
      + apply measure_gas; [apply Hp| |done]. rewrite Hown4. lia.
      + unfold measure. rewrite Hown4. simpl. replace g with (own_gas f) by lia. lia. }
  assert (Hstop : stops o = false) by (unfold stops; by rewrite Erev, Ehalt).
  destruct (jumps o) eqn:Ej; cbn [negb].
  - assert (f4 = set_pc f4 f4.(pc)) as -> by (by destruct f4). simpl.
    split; [apply Hrel4|]. assert (turn_ok (set_pc f4 f4.(pc))) by (apply Hnext; lia).
    split; [done|]. apply Hprog; [done|]. intros ->.
    destruct Hslack as [|[_ Hs]]; [done|]. by destruct (Hs Hstop).
  - rewrite u64_id by (unfold is_u64; lia). split; [apply Hrel4|].
    assert (turn_ok (set_pc f4 (pc f4 + 1))) by (apply Hnext; lia).
    split; [done|]. apply Hprog; [done|]. intros ->.
    destruct Hslack as [|[_ Hs]]; [done|]. destruct (Hs Hstop) as [_ E]. lia.
Qed.

(** A recursor that is never called. *)
Definition no_calls : recursor db disk := fun e c _ => Ret (e, c, ([], None)).
Lemma no_calls_ok limit : recursor_ok limit no_calls.
Proof.
  intros e c input He Hc _ _. pose proof (contract_ok_gas _ Hc).
  split; [done|]. split; [done|]. split; [lia|apply is_bytes_nil].
Qed.

Lemma recursor_ok_mono a b run : a <= b -> recursor_ok b run -> recursor_ok (db:=db) (disk:=disk) a run.
Proof. intros Hab Hr e c input He Hc Hi Hg. apply Hr; try done. lia. Qed.

Lemma perform_ok run (o : operation) f memsz pops pushes slack budget :
  turn_ok f -> op_safe o pops pushes slack budget -> recursor_ok (own_gas f - 1) run ->
  in_use f.(contract).(Code) = true ->
  (pops <= length f.(stack))%nat ->
  Z.of_nat (length f.(stack)) + Z.of_nat pushes - Z.of_nat pops <= Params.StackLimit ->
  (o.(halts) = true \/ f.(pc) < Z.of_nat (length f.(contract).(Code))) ->
  0 <= memsz -> (32 | memsz) -> (o.(memorySize) = None -> memsz = 0) ->
  (memsz <= 0xffffffffe0 -> forall m, memsz <= Mem.Len m ->
     match o.(memorySize) with
     | None => True
     | Some msize => exists sz, msize f.(stack) = Some sz /\ sz <= Mem.Len m
     end) ->
  wp (perform run o memsz f) (turn_post f).
Proof.
  intros Hturn [_ Hex Hgas _ Hbud _ Hslack] Hrun Huse Hpops Hlim Hpc Hm0 Hm32 HmN Hfit.
  pose proof (turn_frame _ Hturn) as Hf. unfold perform.
  apply wp_bind. eapply wp_mono;
    [apply (Hgas interpreter_gasTable memsz f); [apply gasTable_ok|done..]|].
  intros [f1 [cost err]] Hpost. cbn [fst snd] in Hpost.
  assert (Hrefused : turn_post f (f1, Some ([], Some ErrOutOfGas))).
  { destruct Hpost as [_ Gc _ Ge Gr _ _]. split; [|apply is_bytes_nil]. split; [done|done|].
    destruct (turn_rel_refl f Hf) as [_ _ (g & Eg & ?)]. exists g. by rewrite Gc. }
  destruct err as [e|]; [done|]. unfold UseGas.
  destruct (Z.ltb_spec (Gas (contract f1)) cost) as [|Hle]; [done|].
  destruct (charged_ok f f1 memsz slack budget pops cost) as (Hf2 & Hr2 & Hb2 & Hl2 & Es & Ep & Ec);
    [done|done|destruct Hslack as [->|[-> _]]; lia|done|done|done|done|done|].
  fold (charged f1 cost memsz). set (f2 := charged f1 cost memsz) in *. cbv zeta.
  assert (Hown : own_gas f < max_gas) by apply Hf.
  assert (Hexec : forall run', recursor_ok (budget f2) run' ->
    wp (execute o run' f2) (fun r => exec_post pops pushes (budget f2) f2 r.1 r.2)).
  { intros run' Hrun'. apply Hex; [done|done|by rewrite Es| | |by rewrite Ec].
    - pose proof (gp_cost _ _ _ _ _ _ Hpost eq_refl) as (_ & Hmb & _).
      specialize (Hfit Hmb f2.(memory) Hl2). unfold fits. rewrite Es.
      destruct (memorySize o); [done|done].
    - destruct Hslack as [->|[-> _]]; lia. }
  assert (Hexec' : wp (execute o run f2) (fun r => exec_post pops pushes (budget f2) f2 r.1 r.2 /\
      (slack = 0 -> stops o = false -> r.1.(pc) = f2.(pc)))).
  { destruct Hslack as [->|[-> [Hsame Hstay]]].
    - eapply wp_mono; [apply Hexec; eapply recursor_ok_mono; [|done]; lia|]. intros r Hr. by split.
    - rewrite (Hsame run no_calls). pose proof (Hexec no_calls (no_calls_ok _)) as Hw.
      destruct (execute o no_calls f2) as [[f3 r]|e|] eqn:Ex; [|done..]. split; [done|].
      intros _ Hs. destruct (Hstay Hs) as [_ [_ Hk]]. specialize (Hk no_calls f2). by rewrite Ex in Hk. }
  apply wp_bind. eapply wp_mono; [exact Hexec'|]. intros [f3 [res err]] [Hp3 Hk3]. cbn [fst snd] in *.
  apply (conclude_ok o f f2 f3 pops pushes (budget f2) slack (res, err));
    try done; [lia|]. destruct Hslack as [|[Hz [_ Hstay]]]; [by left|right].
  split; [done|]. intros Hs. split; [by apply Hstay|by apply Hk3].
Qed.

(** ** One turn of the loop *)
Lemma GetOp_past_end (f : frame) : Z.of_nat (length f.(contract).(Code)) <= f.(pc) ->
  GetOp f.(contract) f.(pc) = STOP.
Proof. intros Hp. unfold GetOp, GetByte. by rewrite (proj2 (Z.ltb_ge _ _)) by lia. Qed.

(** What a theorem about a run speaks of: codes in use, and no DIFFICULTY where there is none *)
Definition foreseen (f : frame) : bool := in_use f.(contract).(Code) && answered (GetOp f.(contract) f.(pc)).

Lemma step_ok jt run f : table_ok jt -> turn_ok f -> recursor_ok (own_gas f - 1) run -> foreseen f = true ->
  wp (step jt run f) (turn_post f).
Proof.
  intros Hjt [Hf0 Hst0] Hrun [Huse Hans]%andb_true_iff. unfold step.
  set (f' := set_evm f _). cbv zeta. change (contract f) with (contract f') in Huse, Hans. change (pc f) with (pc f') in Hans.
  assert (Hf : turn_ok f').
  { split; [|done]. destruct Hf0 as [? ? ? He ?]. split; simpl; try done. by apply evm_ok_clock. }
  assert (Hrel : turn_rel f f').
  { split; simpl; [by apply evm_ok_clock, Hf0|apply evm_rel_clock|].
    by destruct (turn_rel_refl f Hf0) as [_ _ ?]. }
  assert (Hall : forall m, wp m (turn_post f') -> wp m (turn_post f)).
  { intros m Hm. eapply wp_mono; [exact Hm|]. intros [f1 fin] [Hr Hfin].
    split; [by eapply turn_rel_trans|]. by destruct fin. }
  apply Hall. change (own_gas f) with (own_gas f') in Hrun. destruct (AbortAt _).
  { apply turn_refused, Hf. }
  clearbody f'. clear f Hf0 Hst0 Hrel Hall. rename f' into f. pose proof (turn_frame _ Hf) as Hf0.
  set (op := GetOp (contract f) (pc f)). destruct (valid (jt op)) eqn:Ev; cbn [negb];
    [|by apply turn_refused].
  destruct (table_entry _ Hjt op Hans Ev) as (pops & pushes & slack & budget & Hop).
  destruct (validateStack (jt op) (stack f)) as [e|] eqn:Evs; [by apply turn_refused|].
  destruct (restrictions_ok jt f.(evm).(readOnly) op f.(stack) Hjt Evs) as [r ->].
  cbn [mbind outcome_bind]. destruct r as [e|]; [by apply turn_refused|].
  rewrite (os_stack _ _ _ _ _ Hop) in Evs. apply makeStackFunc_None in Evs as [Hpops Hlim].
  apply wp_bind. eapply wp_mono;
    [by apply (required_memory_ok _ pops); [apply Hop| |apply Hf0]|].
  intros [memsz|e]; [|intros _; by apply turn_refused].
  intros (Hm0 & Hm32 & HmN & Hfit). eapply perform_ok; try done.
  destruct (Z.ltb_spec f.(pc) (Z.of_nat (length f.(contract).(Code)))) as [|Hpc]; [by right|left].
  unfold op. rewrite GetOp_past_end by done. apply Hjt.
Qed.

(** ** Runs *)
Definition final_post (f : frame) (r : frame * ret) : Prop :=
  turn_rel f r.1 /\ is_bytes r.2.1.

Lemma is_bytes_code_span c : is_bytes c -> Z.of_nat (length c) < 2 ^ 62.
Proof. by intros []. Qed.

(** [run] over a loop that ends on every frame below [bound]. *)
Lemma run_with_ok loop limit :
  (forall f, turn_ok f -> own_gas f <= limit -> f.(pc) = 0 ->
     wp (loop f) (final_post f)) ->
  recursor_ok limit (run_with loop).
Proof.
  intros Hloop e c input He Hc Hin Hg. unfold run_with.
  destruct (CodeAddr c ≫= precompiles) as [p|] eqn:Ep.
  - assert (Hp : native_ok p).
    { destruct (CodeAddr c) as [a|]; [|done]. simpl in Ep. unfold precompiles in Ep.
      case_match; [by eapply byzantium_native_ok|by eapply homestead_native_ok]. }
    apply wp_bind. eapply wp_mono; [apply RunPrecompiledContract_ok; [done|done|apply Hc]|].
    intros [c' [res err]] [(g & Eg & Hcg) Hb]. cbn [fst snd wp] in *. subst c'.
    by split_and!; try apply Hcg.
  - unfold Run_with. set (e1 := set_returnData _ []). cbv zeta.
    assert (He1 : evm_ok e1) by (destruct He; split; try done; apply is_bytes_nil).
    pose proof (contract_ok_gas _ Hc) as Hcg.
    destruct (Nat.eqb_spec (length (Code c)) 0) as [Hz|Hz].
    + split; [|split; [|split; [lia|apply is_bytes_nil]]].
      * destruct He1. by split.
      * split; simpl; [lia|done|done].
    + set (f := {| pc := 0; contract := set_Input c input; memory := Mem.NewMemory; stack := [];
                   evm := e1 |}).
      assert (Hf : turn_ok f).
      { split; [|by vm_compute]. split; simpl; [|split|constructor|done|lia].
        - destruct Hc. by split.
        - constructor.
        - by exists 0.
        - done. }
      apply wp_bind. eapply wp_mono; [by apply (Hloop f)|].
      intros [f' [res err]] [[He' [Hd Hro Hl] (g & Eg & Hg')] Hb]. cbn [fst snd wp] in *.
      split; [|split; [|split; [|done]]].
      * destruct He'. by split.
      * split; simpl; [rewrite Hd; simpl; lia|done|done].
      * rewrite Eg. simpl. done.
Qed.

(** The interpreter, watched: it stops before a turn, of whatever frame, that is not foreseen. *)
Fixpoint watched (fuel : nat) (jt : Z -> operation) (f : frame) : outcome nofuel (frame * ret) :=
  match fuel with
  | O => Err NoFuel
  | S fuel' =>
      if foreseen f then
        '(f, fin) ← step jt (run_with (watched fuel' jt)) f;
        match fin with
        | Some r => Ret (f, r)
        | None => watched fuel' jt f
        end
      else Err Excluded
  end.

Definition watched_run (fuel : nat) (jt : Z -> operation) : recursor db disk := run_with (watched fuel jt).

(** Enough fuel: one turn per step of the measure. *)
Lemma watched_ok jt fuel f : table_ok jt -> turn_ok f -> measure f < Z.of_nat fuel ->
  wp (watched fuel jt f) (final_post f).
Proof.
  intros Hjt. revert f. induction fuel as [|fuel IH]; intros f Hf Hm.
  { pose proof (measure_pos f (turn_frame _ Hf)).
    pose proof (contract_ok_gas _ (frame_ok_contract _ (turn_frame _ Hf))).
    unfold own_gas, span in *. lia. }
  cbn [watched]. destruct (foreseen f) eqn:Hfs; [|done]. apply wp_bind. eapply wp_mono.
  { apply step_ok; [done|done| |done]. apply run_with_ok. intros g Hg Hown Hpc. apply IH; [done|].
    pose proof (measure_pos f (turn_frame _ Hf)). unfold measure at 1. rewrite Hpc.
    unfold span in *. lia. }
  intros [f' [res|]] [Hrel Hfin].
  - by split.
  - destruct Hfin as [Hf' Hlt]. eapply wp_mono; [apply IH; [done|lia]|].
    intros r [Hr Hb]. split; [by eapply turn_rel_trans|done].
Qed.

(** ** Fuel only matters for whether a run ends *)
Lemma perform_le run run' (o : operation) memsz f :
  exec_mono o.(execute) -> run_le run run' ->
  outcome_le (perform run o memsz f) (perform run' o memsz f).
Proof.
  intros Ho Hrun. unfold perform. apply bind_le; [reflexivity|].
  intros [f1 [cost [e|]]]; [reflexivity|]. destruct (UseGas _ _); [|reflexivity].
  apply bind_le; [by apply Ho|]. reflexivity.
Qed.

Lemma step_le jt run run' f : table_ok jt -> run_le run run' ->
  outcome_le (step jt run f) (step jt run' f).
Proof.
  intros Hjt Hrun. unfold step. destruct (AbortAt _); [reflexivity|].
  set (op := GetOp _ _). destruct (valid (jt op)) eqn:Ev; [|reflexivity]. cbn [negb].
  destruct (validateStack _ _); [reflexivity|]. apply bind_le; [reflexivity|].
  intros [e|]; [reflexivity|]. apply bind_le; [reflexivity|]. intros [memsz|e]; [|reflexivity].
  apply perform_le; [|done]. by apply table_mono.
Qed.

Lemma run_with_le (loop loop' : frame -> outcome nofuel (frame * ret)) :
  (forall f, outcome_le (loop f) (loop' f)) -> run_le (run_with loop) (run_with loop').
Proof.
  intros Hl e c i. unfold run_with. destruct (CodeAddr c ≫= precompiles); [reflexivity|].
  unfold Run_with. destruct (_ =? _)%nat; [reflexivity|]. apply bind_le; [apply Hl|]. reflexivity.
Qed.

Lemma interp_le jt n m f : table_ok jt -> (n <= m)%nat ->
  outcome_le (interp n jt f) (interp m jt f).
Proof.
  intros Hjt. revert m f. induction n as [|n IH]; intros m f Hnm; [done|].
  destruct m as [|m]; [lia|]. cbn [interp]. apply bind_le.
  - apply step_le; [done|]. apply run_with_le. intros g. apply IH. lia.
  - intros [f' [r|]]; [reflexivity|]. apply IH. lia.
Qed.

(** A watched run that ends is the run, and more fuel does not change it. *)
Lemma watched_le jt n f : table_ok jt -> outcome_le (watched n jt f) (interp n jt f).
Proof.
  intros Hjt. revert f. induction n as [|n IH]; intros f; [done|]. cbn [watched interp].
  destruct (foreseen f); [|done]. apply bind_le.
  - apply step_le; [done|]. apply run_with_le. intros g. apply IH.
  - intros [f' [r|]]; [reflexivity|]. apply IH.
Qed.

Lemma watched_mono jt n m f : table_ok jt -> (n <= m)%nat -> outcome_le (watched n jt f) (watched m jt f).
Proof.
  intros Hjt. revert m f. induction n as [|n IH]; intros m f Hnm; [done|].
  destruct m as [|m]; [lia|]. cbn [watched]. destruct (foreseen f); [|done]. apply bind_le.
  - apply step_le; [done|]. apply run_with_le. intros g. apply IH. lia.
  - intros [f' [r|]]; [reflexivity|]. apply IH. lia.
Qed.
End Execution.
