(* ===== verification/Sample.v ===== *)
(** * A concrete node

    Instances of every interface, used to evaluate the machine on examples and
    to show that the hypotheses of the theorems can be met: the reference state,
    hash functions that only keep what the laws ask for, mainnet's configuration
    at the first Byzantium block, as dvm/dvm_helpers.go sets it up. *)
From Stdlib Require Import ZArith Lia.
From stdpp Require Import countable.
From S2P Require Import Prelude Word Config OpCodes Analysis Machine Gas Calls Instructions.
From S2P Require Import JumpTable Precompiles Interpreter StateSpec Invariant PrecompileSafety.
Import Big Op RefState.
Open Scope Z_scope.

#[export] Instance sample_Crypto : Crypto := {
  Keccak256 d := be_bytes 32 (be_int d);
  NewHash c := Z.pos (encode c);
  CreateAddress a n := (a + n + 1) mod 2 ^ 160;
  CreateAddress2 a s c := (a + s + 1) mod 2 ^ 160
}.

Lemma sample_Keccak256 : forall d, is_bytes (Keccak256 d).
Proof. intros d. by apply is_bytes_be_bytes. Qed.

Lemma sample_NewHash : forall c d, NewHash c = NewHash d -> c = d.
Proof. intros c d [= H]. by apply (inj encode). Qed.

#[export] Instance sample_laws : StateLaws State Disk := ref_StateLaws sample_Keccak256.

(** Every code is in use: this hash tells all of them apart. *)
#[export] Instance sample_codes : CodesInUse := {
  in_use _ := true;
  in_use_hash c d _ _ := sample_NewHash c d
}.

#[export] Instance sample_Precompiles : PrecompileLib := {
  RecoverPubkey _ _ := None;
  Sum256 d := be_bytes 32 (be_int d);
  Ripemd160 d := be_bytes 20 (be_int d);
  G1 := Z;
  G2 := Z;
  G1_Unmarshal b := Some (be_int b);
  G2_Unmarshal b := Some (be_int b);
  G1_Marshal p := be_bytes 64 p;
  G1_Add := Z.add;
  G1_ScalarMult := Z.mul;
  PairingCheck _ _ := true
}.

#[export] Instance sample_PrecompileLaws : PrecompileLaws.
Proof. split; intros; by apply is_bytes_be_bytes. Qed.

Definition sample_env (difficulty : option Z) : Env := {|
  chainConfig := MainnetChainConfig;
  Origin := 1000;
  GasPrice := Some 1;
  Coinbase := 2000;
  GasLimit := 10 ^ 12;
  BlockNumber := Some 4370000;
  Difficulty := difficulty;
  GetHash := fun n => n;
  NoRecursion := false;
  EnablePreimageRecording := false;
  Now := fun n => Z.of_nat n;
  AbortAt := fun _ => false
|}.

Lemma sample_env_ok difficulty : @EnvOk (sample_env difficulty).
Proof. split; [by exists 1|by exists 4370000]. Qed.

(** A world with some accounts, and a machine over it. *)
Definition account (b : Z) (c : list Z) : Account :=
  {| nonce := 0; balance := b; code := c; storage := ∅; suicided := false |}.
Definition world_of (l : list (Z * Account)) : World :=
  {| accounts := list_to_map l; refund := 0; logs := []; preimages := ∅ |}.
Definition state_of (w : World) : State := {| world := w; snapshots := []; nextId := 0 |}.
Definition sample_evm (w : World) (disk : Disk) : EVM State Disk :=
  NewEVM (state_of w) (Some disk).

Lemma sample_evm_ok w disk : world_ok w -> map_Forall (fun _ => world_ok) disk ->
  evm_ok (sample_evm w disk).
Proof.
  intros Hw Hd. split; simpl; [|by exists disk|apply is_bytes_nil|done|done].
  split; simpl; [done|constructor|constructor].
Qed.

(** The node with the difficulty set, and as dvm_helpers.go leaves it. *)
Definition node_env : Env := sample_env (Some 0).
Definition bare_env : Env := sample_env None.

(** Stores 1 in slot 0. *)
Definition storing_code : list Z := [PUSH1; 1; PUSH1; 0; SSTORE; STOP].
(** Returns 2 + 3. *)
Definition adding_code : list Z :=
  [PUSH1; 2; PUSH1; 3; ADD; PUSH1; 0; MSTORE; PUSH1; 32; PUSH1; 0; RETURN].
(** Calls the contract at address 50 with all but little gas, then reverts. *)
Definition calling_code : list Z :=
  [PUSH1; 0; PUSH1; 0; PUSH1; 0; PUSH1; 0; PUSH1; 0; PUSH1; 50; PUSH2; 0x75; 0x30; CALL;
   PUSH1; 0; PUSH1; 0; REVERT].

Definition sample_world (code : list Z) : World :=
  world_of [(7, account 100 []); (99, account 0 code)].

Lemma sample_world_ok code : is_bytes code -> world_ok (sample_world code).
Proof.
  intros Hc. unfold world_ok, sample_world, world_of. simpl.
  apply map_Forall_insert_2; [split; [done|apply is_bytes_nil]|].
  apply map_Forall_insert_2; [by split|]. apply map_Forall_empty.
Qed.

Definition caller_evm (code : list Z) : EVM State Disk := sample_evm (sample_world code) ∅.

Lemma caller_evm_ok code : is_bytes code -> evm_ok (caller_evm code).
Proof. intros Hc. apply sample_evm_ok; [by apply sample_world_ok|apply map_Forall_empty]. Qed.

Lemma sample_bytes l : forallb (fun b => (0 <=? b) && (b <? 256)) l = true ->
  (length l < 1000)%nat -> is_bytes l.
Proof.
  intros Hl Hn. split; [|lia]. apply Forall_forall. intros b Hb.
  rewrite forallb_forall in Hl. apply list_elem_of_In in Hb. specialize (Hl b Hb). lia.
Qed.

(** The machine executes: the sum comes back as a word, 24 gas spent. *)
Example adding_code_returns_five :
  match Call (EN := node_env) (run (EN := node_env) 30 (newConstantinopleInstructionSet (EN := node_env)))
          (caller_evm adding_code) (AccountRef 7) 99 [] 100 0 with
  | Ret (_, (ret, leftOver, err)) => ret = be_bytes 32 5 /\ leftOver = 76 /\ err = None
  | _ => False
  end.
Proof. vm_compute. done. Qed.
