(* ===== verification/Semantics.v ===== *)
(** * Instructions compute on 256-bit words

    The abstract machine's arithmetic: an operand is an integer below 2^256,
    read as unsigned or in two's complement, a result is taken modulo 2^256.
    The instructions of instructions.go, written with big integers, compute
    exactly these functions. *)
From Stdlib Require Import ZArith Lia.
From S2P Require Import Prelude Word Config OpCodes Analysis Machine Gas Calls Instructions.
From S2P Require Import StateSpec Sample.
Import Big Op.
Open Scope Z_scope.

(** ** The specification *)
Module Spec.

Definition word (x : Z) : Prop := 0 <= x < 2 ^ 256.
Definition to_word (z : Z) : Z := z mod 2 ^ 256.
Definition signed (x : Z) : Z := if x <? 2 ^ 255 then x else x - 2 ^ 256.
Definition bool_word (b : bool) : Z := if b then 1 else 0.

Definition add (x y : Z) : Z := to_word (x + y).
Definition sub (x y : Z) : Z := to_word (x - y).
Definition mul (x y : Z) : Z := to_word (x * y).
Definition div (x y : Z) : Z := if y =? 0 then 0 else x / y.
Definition sdiv (x y : Z) : Z := if y =? 0 then 0 else to_word (Z.quot (signed x) (signed y)).
Definition mod_ (x y : Z) : Z := if y =? 0 then 0 else x mod y.
Definition smod (x y : Z) : Z := if y =? 0 then 0 else to_word (Z.rem (signed x) (signed y)).
Definition exp (x y : Z) : Z := to_word (x ^ y).

(** The low [k + 1] bytes of [x] as a signed number. *)
Definition signextend (k x : Z) : Z :=
  if k <? 31 then
    let low := x mod 2 ^ (8 * k + 8) in
    to_word (if low <? 2 ^ (8 * k + 7) then low else low - 2 ^ (8 * k + 8))
  else x.

Definition lt (x y : Z) : Z := bool_word (x <? y).
Definition gt (x y : Z) : Z := bool_word (y <? x).
Definition slt (x y : Z) : Z := bool_word (signed x <? signed y).
Definition sgt (x y : Z) : Z := bool_word (signed y <? signed x).
Definition eq (x y : Z) : Z := bool_word (x =? y).
Definition and (x y : Z) : Z := Z.land x y.
Definition or (x y : Z) : Z := Z.lor x y.
Definition xor (x y : Z) : Z := Z.lxor x y.

(** Byte [i] counted from the most significant one. *)
Definition byte (i x : Z) : Z := if i <? 32 then x / 256 ^ (31 - i) mod 256 else 0.
Definition shl (s x : Z) : Z := if s <? 256 then to_word (x * 2 ^ s) else 0.
Definition shr (s x : Z) : Z := if s <? 256 then x / 2 ^ s else 0.
Definition sar (s x : Z) : Z :=
  if s <? 256 then to_word (signed x / 2 ^ s) else if signed x <? 0 then 2 ^ 256 - 1 else 0.

Definition not (x : Z) : Z := 2 ^ 256 - 1 - x.
Definition iszero (x : Z) : Z := bool_word (x =? 0).
Definition addmod (x y z : Z) : Z := if z =? 0 then 0 else (x + y) mod z.
Definition mulmod (x y z : Z) : Z := if z =? 0 then 0 else (x * y) mod z.
End Spec.

(** ** Facts on words *)
Section Facts.
Import Spec.

Lemma to_word_word z : word (to_word z).
Proof. by apply Z.mod_pos_bound. Qed.

Lemma to_word_id x : word x -> to_word x = x.
Proof. apply Z.mod_small. Qed.

Lemma U256_word x : U256 x = to_word x.
Proof. apply U256_mod. Qed.

Lemma signed_neq_0 x : word x -> x <> 0 -> signed x <> 0.
Proof. unfold word, signed. intros Hx Hne. destruct (Z.ltb_spec x (2 ^ 255)); lia. Qed.

Lemma bool_word_word b : word (bool_word b).
Proof. unfold word. destruct b; simpl; lia. Qed.

Lemma S256_signed x : S256 x = signed x.
Proof. done. Qed.

Lemma signed_range x : word x -> - 2 ^ 255 <= signed x < 2 ^ 255.
Proof. unfold word, signed. intros Hx. destruct (Z.ltb_spec x (2 ^ 255)); lia. Qed.

Lemma signed_0 x : word x -> (signed x =? 0) = (x =? 0).
Proof.
  unfold word, signed. intros Hx. destruct (Z.ltb_spec x (2 ^ 255)); [done|].
  destruct (Z.eqb_spec x 0), (Z.eqb_spec (x - 2 ^ 256) 0); try lia; done.
Qed.

Lemma word_div x y : word x -> 0 < y -> word (x / y).
Proof.
  unfold word. intros Hx Hy. split; [apply Z.div_pos; lia|].
  apply Z.div_lt_upper_bound; nia.
Qed.

Lemma word_mod x y : word y -> 0 < y -> word (x mod y).
Proof. unfold word. intros Hx Hy. pose proof (Z.mod_pos_bound x y Hy). lia. Qed.

Lemma word_bits (op : Z -> Z -> Z) (bop : bool -> bool -> bool) x y :
  (forall a b n, 0 <= n -> Z.testbit (op a b) n = bop (Z.testbit a n) (Z.testbit b n)) ->
  bop false false = false -> (0 <= x -> 0 <= y -> 0 <= op x y) ->
  word x -> word y -> word (op x y).
Proof.
  intros Hop Hff Hpos Hx Hy. unfold word in *. split; [apply Hpos; lia|].
  assert (E : op x y = op x y mod 2 ^ 256); [|rewrite E; by apply Z.mod_pos_bound].
  apply Z.bits_inj'. intros n Hn. destruct (Z.ltb_spec n 256).
  - by rewrite Z.mod_pow2_bits_low.
  - rewrite Z.mod_pow2_bits_high by lia. rewrite Hop by done.
    rewrite <- (Z.mod_small x (2 ^ 256)), <- (Z.mod_small y (2 ^ 256)) by lia.
    by rewrite !Z.mod_pow2_bits_high by lia.
Qed.

(** Truncated division by sign and magnitude, as the source computes it. *)
Lemma quot_abs x y : x <> 0 -> y <> 0 ->
  (if negb (Z.sgn x =? Z.sgn y) then - (Z.abs x / Z.abs y) else Z.abs x / Z.abs y) = Z.quot x y.
Proof.
  intros Hx Hy. rewrite Z.quot_div by done.
  destruct (Z.eqb_spec (Z.sgn x) (Z.sgn y)) as [->|Hne]; cbn [negb].
  - replace (Z.sgn y * Z.sgn y) with 1 by lia. lia.
  - replace (Z.sgn x * Z.sgn y) with (-1) by lia. lia.
Qed.

Lemma rem_abs x y : y <> 0 ->
  (if x <? 0 then - (Z.abs x mod Z.abs y) else Z.abs x mod Z.abs y) = Z.rem x y.
Proof.
  intros Hy. rewrite Z.rem_mod by done.
  destruct (Z.ltb_spec x 0); [replace (Z.sgn x) with (-1) by lia; lia|].
  destruct (decide (x = 0)) as [->|]; [simpl; by rewrite Z.mod_0_l by lia|].
  replace (Z.sgn x) with 1 by lia. lia.
Qed.

(** The two ways SIGNEXTEND treats the bits above [b]. *)
Lemma sign_clear y b : 0 <= b -> Z.land y (Z.shiftl 1 b - 1) = y mod 2 ^ b.
Proof. intros Hb. rewrite Z.shiftl_1_l, Z.sub_1_r, <- Z.ones_equiv. by apply Z.land_ones. Qed.

Lemma sign_fill y b : 0 <= b -> Z.lor y (Z.lnot (Z.shiftl 1 b - 1)) = y mod 2 ^ b - 2 ^ b.
Proof.
  intros Hb. rewrite <- (Z.lnot_involutive y) at 1. rewrite <- Z.lnot_land, sign_clear by done.
  pose proof (Z.pow_pos_nonneg 2 b ltac:(lia) Hb).
  pose proof (Z.mod_pos_bound y (2 ^ b) ltac:(lia)).
  replace (Z.lnot y mod 2 ^ b) with (2 ^ b - 1 - y mod 2 ^ b); [unfold Z.lnot; lia|].
  apply (Z.mod_unique _ _ (- (y / 2 ^ b) - 1)); [lia|].
  unfold Z.lnot. pose proof (Z.div_mod y (2 ^ b) ltac:(lia)). nia.
Qed.

(** One more low bit. *)
Lemma low_bits y b : 0 <= b ->
  y mod 2 ^ (b + 1) = y mod 2 ^ b + (if Z.testbit y b then 2 ^ b else 0) /\
  0 <= y mod 2 ^ b < 2 ^ b.
Proof.
  intros Hb. pose proof (Z.pow_pos_nonneg 2 b ltac:(lia) Hb).
  split; [|apply Z.mod_pos_bound; lia].
  rewrite Z.pow_add_r, Z.pow_1_r, Z.rem_mul_r by lia.
  rewrite <- Z.testbit_spec' by done. destruct (Z.testbit y b); simpl; lia.
Qed.
End Facts.

(** ** The instructions *)
Section Instructions.
Import Spec.
Context {db disk : Type} {SDB : StateDB db} {QH : VMStateQueryHelper db disk} {CR : Crypto} {EN : Env}.
Abbreviation frame := (frame db disk).
Abbreviation executionFunc := (executionFunc db disk).

(** The instruction replaces its operands, the top of the stack first, by what
    the specification says, and changes nothing else. *)
Definition computes1 (p : executionFunc * (Z -> Z)) : Prop :=
  forall run (f : frame) x s, word x -> f.(stack) = x :: s ->
    p.1 run f = Ret (set_stack f (p.2 x :: s), ([], None)) /\ word (p.2 x).
Definition computes2 (p : executionFunc * (Z -> Z -> Z)) : Prop :=
  forall run (f : frame) x y s, word x -> word y -> f.(stack) = x :: y :: s ->
    p.1 run f = Ret (set_stack f (p.2 x y :: s), ([], None)) /\ word (p.2 x y).
Definition computes3 (p : executionFunc * (Z -> Z -> Z -> Z)) : Prop :=
  forall run (f : frame) x y z s, word x -> word y -> word z -> f.(stack) = x :: y :: z :: s ->
    p.1 run f = Ret (set_stack f (p.2 x y z :: s), ([], None)) /\ word (p.2 x y z).

Ltac run_op Es :=
  unfold ret_nil, set_bool, mbind, M_bind, mret, M_ret, pop, peek, push, set_top;
  rewrite ?Es; cbn [stack set_stack].
Ltac op2 :=
  intros run f x y s Hx Hy Es; cbn [fst snd]; run_op Es.
(** The final frame is the expected one, once the result is. *)
Ltac result v := split; [|try apply to_word_word; try apply bool_word_word];
  [match goal with |- Ret (_ (_ :: _), _) = Ret (_ (?v' :: _), _) => replace v' with v; [done|] end|].

Lemma opAdd_computes : computes2 (opAdd, add).
Proof. unfold opAdd. op2. rewrite U256_word. split; [done|apply to_word_word]. Qed.
Lemma opSub_computes : computes2 (opSub, sub).
Proof. unfold opSub. op2. rewrite U256_word. split; [done|apply to_word_word]. Qed.
Lemma opMul_computes : computes2 (opMul, mul).
Proof. unfold opMul. op2. rewrite U256_word. split; [done|apply to_word_word]. Qed.

Lemma opDiv_computes : computes2 (opDiv, div).
Proof.
  unfold opDiv, div. op2. destruct (Z.eqb_spec y 0); cbn [negb]; [done|].
  assert (word (x / y)) by (apply word_div; [done|unfold word in *; lia]).
  unfold Div. rewrite (proj2 (Z.ltb_lt 0 y)) by (unfold word in *; lia).
  by rewrite U256_word, to_word_id.
Qed.

Lemma opMod_computes : computes2 (opMod, mod_).
Proof.
  unfold opMod, mod_. op2. destruct (Z.eqb_spec y 0); [done|].
  assert (0 < y) by (unfold word in *; lia).
  pose proof (word_mod x y Hy ltac:(done)). unfold Mod. rewrite Z.abs_eq by lia.
  by rewrite U256_word, to_word_id.
Qed.

Lemma opSdiv_computes : computes2 (opSdiv, sdiv).
Proof.
  unfold opSdiv, sdiv. op2. change (S256 x) with (signed x). change (S256 y) with (signed y).
  rewrite !signed_0 by done. destruct (Z.eqb_spec y 0) as [|Hy0]; [done|].
  split; [|apply to_word_word]. destruct (Z.eqb_spec x 0) as [->|Hx0]; cbn [orb].
  - change (signed 0) with 0. by rewrite Z.quot_0_l by by apply signed_neq_0.
  - rewrite U256_word. unfold Div.
    pose proof (signed_neq_0 y Hy Hy0). pose proof (signed_neq_0 x Hx Hx0).
    rewrite (proj2 (Z.ltb_lt 0 (Z.abs (signed y)))) by lia.
    by rewrite quot_abs.
Qed.

Lemma opSmod_computes : computes2 (opSmod, smod).
Proof.
  unfold opSmod, smod. op2. change (S256 x) with (signed x). change (S256 y) with (signed y).
  rewrite !signed_0 by done. destruct (Z.eqb_spec y 0) as [|Hy0]; [done|].
  split; [|apply to_word_word].
  pose proof (signed_neq_0 y Hy Hy0).
  unfold Mod. rewrite (Z.abs_eq (Z.abs (signed y))) by lia. by rewrite rem_abs, U256_word.
Qed.

Lemma opExp_computes : computes2 (opExp, exp).
Proof.
  unfold opExp, exp. op2. unfold Exp.
  rewrite Exp_words_spec by (apply Bits_range || lia). rewrite Bits_int.
  rewrite Z.abs_eq by (unfold word in *; lia). rewrite Z.mul_1_l.
  split; [done|apply to_word_word].
Qed.

(** *** Comparison and bits *)
Lemma opLt_computes : computes2 (opLt, lt).
Proof. unfold opLt. op2. split; [done|apply bool_word_word]. Qed.
Lemma opGt_computes : computes2 (opGt, gt).
Proof. unfold opGt. op2. split; [done|apply bool_word_word]. Qed.
Lemma opEq_computes : computes2 (opEq, eq).
Proof. unfold opEq. op2. split; [done|apply bool_word_word]. Qed.

Lemma opSlt_computes : computes2 (opSlt, slt).
Proof.
  unfold opSlt. op2. split; [|apply bool_word_word]. unfold slt, bool_word, signed, tt255, word in *.
  destruct (Z.leb_spec (2 ^ 255) x), (Z.ltb_spec y (2 ^ 255)), (Z.ltb_spec x (2 ^ 255)),
    (Z.leb_spec (2 ^ 255) y); try lia; cbn [andb]; rewrite ?Es; cbn [stack set_stack].
  - by rewrite (proj2 (Z.ltb_lt _ _)) by lia.
  - destruct (Z.ltb_spec x y), (Z.ltb_spec (x - 2 ^ 256) (y - 2 ^ 256)); try lia; done.
  - by destruct (Z.ltb_spec x y).
  - by rewrite (proj2 (Z.ltb_ge _ _)) by lia.
Qed.

Lemma opSgt_computes : computes2 (opSgt, sgt).
Proof.
  unfold opSgt. op2. split; [|apply bool_word_word]. unfold sgt, bool_word, signed, tt255, word in *.
  destruct (Z.leb_spec (2 ^ 255) x), (Z.ltb_spec y (2 ^ 255)), (Z.ltb_spec x (2 ^ 255)),
    (Z.leb_spec (2 ^ 255) y); try lia; cbn [andb]; rewrite ?Es; cbn [stack set_stack].
  - by rewrite (proj2 (Z.ltb_ge _ _)) by lia.
  - destruct (Z.ltb_spec y x), (Z.ltb_spec (y - 2 ^ 256) (x - 2 ^ 256)); try lia; done.
  - by destruct (Z.ltb_spec y x).
  - by rewrite (proj2 (Z.ltb_lt _ _)) by lia.
Qed.

Lemma opAnd_computes : computes2 (opAnd, and).
Proof.
  unfold opAnd. op2. split; [done|]. apply (word_bits Z.land andb); try done.
  - intros. apply Z.land_spec.
  - intros. apply Z.land_nonneg. by left.
Qed.
Lemma opOr_computes : computes2 (opOr, or).
Proof.
  unfold opOr. op2. split; [done|]. apply (word_bits Z.lor orb); try done.
  - intros. apply Z.lor_spec.
  - intros. by apply Z.lor_nonneg.
Qed.
Lemma opXor_computes : computes2 (opXor, xor).
Proof.
  unfold opXor. op2. split; [done|]. apply (word_bits Z.lxor xorb); try done.
  - intros. apply Z.lxor_spec.
  - intros. by apply Z.lxor_nonneg.
Qed.

Lemma opSHL_computes : computes2 (opSHL, shl).
Proof.
  unfold opSHL, shl. op2. rewrite (U256_id x Hx), (U256_id y Hy).
  destruct (Z.leb_spec 256 x); [rewrite (proj2 (Z.ltb_ge _ _)) by lia; done|].
  rewrite (proj2 (Z.ltb_lt x 256)) by lia. unfold word in Hx.
  unfold Uint64. rewrite Z.abs_eq, u64_id by (unfold is_u64; lia).
  rewrite U256_word, Z.shiftl_mul_pow2 by lia. split; [done|apply to_word_word].
Qed.

Lemma opSHR_computes : computes2 (opSHR, shr).
Proof.
  unfold opSHR, shr. op2. rewrite (U256_id x Hx), (U256_id y Hy).
  destruct (Z.leb_spec 256 x); [rewrite (proj2 (Z.ltb_ge _ _)) by lia; done|].
  rewrite (proj2 (Z.ltb_lt x 256)) by lia. unfold word in Hx.
  unfold Uint64. rewrite Z.abs_eq, u64_id by (unfold is_u64; lia).
  assert (word (y / 2 ^ x)) by (apply word_div; [done|apply Z.pow_pos_nonneg; lia]).
  rewrite U256_word, Z.shiftr_div_pow2 by lia. by rewrite to_word_id.
Qed.

Lemma opSAR_computes : computes2 (opSAR, sar).
Proof.
  unfold opSAR, sar. op2. change (S256 y) with (signed y). rewrite (U256_id x Hx).
  destruct (Z.leb_spec 256 x).
  - rewrite (proj2 (Z.ltb_ge _ _)) by lia.
    destruct (Z.leb_spec 0 (signed y)); [rewrite (proj2 (Z.ltb_ge _ _)) by lia; done|].
    rewrite (proj2 (Z.ltb_lt _ _)) by lia. done.
  - rewrite (proj2 (Z.ltb_lt x 256)) by lia. unfold word in Hx.
    unfold Uint64. rewrite Z.abs_eq, u64_id by (unfold is_u64; lia).
    rewrite U256_word, Z.shiftr_div_pow2 by lia. split; [done|apply to_word_word].
Qed.

Lemma opByte_computes : computes2 (opByte, byte).
Proof.
  unfold opByte, byte. op2. destruct (Z.ltb_spec x 32); [|done].
  unfold word in *. split; [|pose proof (Z.mod_pos_bound (y / 256 ^ (31 - x)) 256); lia].
  unfold Byte, Int64. rewrite (proj2 (Z.ltb_ge x 0)) by lia.
  rewrite (Z.abs_eq x), u64_id, i64_id by (unfold is_u64, is_i64; lia).
  rewrite (proj2 (Z.leb_gt 32 x)) by lia.
  rewrite bigEndianByteAt_spec, (Z.abs_eq y), Z2Nat.id by lia.
  by replace (32 - 1 - x) with (31 - x) by lia.
Qed.

Lemma opSignExtend_computes : computes2 (opSignExtend, signextend).
Proof.
  unfold opSignExtend, signextend. op2. destruct (Z.ltb_spec x 31); [|done].
  unfold word in *. split; [|apply to_word_word].
  unfold Uint64. rewrite Z.abs_eq, (u64_id x), u64_id by (unfold is_u64; lia).
  unfold mbind, M_bind, pop. cbn [stack set_stack].
  pose proof (low_bits y (x * 8 + 7) ltac:(lia)) as Hlow.
  replace (8 * x + 8) with (x * 8 + 7 + 1) by lia. replace (8 * x + 7) with (x * 8 + 7) by lia.
  unfold Bit. destruct (Z.testbit y (x * 8 + 7)) eqn:Eb; cbn [Z.b2z Z.ltb Z.compare];
    rewrite U256_word; (destruct Hlow as [Hlow1 Hlow2]; rewrite Hlow1).
  - rewrite sign_fill by lia. rewrite (proj2 (Z.ltb_ge _ _)) by lia.
    set (b := x * 8 + 7) in *.
    replace (y mod 2 ^ b + 2 ^ b - 2 ^ (b + 1)) with (y mod 2 ^ b - 2 ^ b); [done|].
    rewrite Z.pow_add_r by (subst b; lia). lia.
  - rewrite sign_clear by lia. rewrite Z.add_0_r. by rewrite (proj2 (Z.ltb_lt _ _)) by lia.
Qed.

Lemma opNot_computes : computes1 (opNot, not).
Proof.
  unfold opNot. intros run f x s Hx Es. cbn [fst snd]. run_op Es.
  rewrite U256_word. unfold not, to_word, word in *. split; [|lia].
  replace (Z.lnot x) with (2 ^ 256 - 1 - x + (-1) * 2 ^ 256) by (unfold Z.lnot; lia).
  rewrite Z.mod_add, Z.mod_small by lia. done.
Qed.

Lemma opIszero_computes : computes1 (opIszero, iszero).
Proof.
  unfold opIszero, iszero. intros run f x s Hx Es. cbn [fst snd]. run_op Es. unfold word in Hx.
  split; [|apply bool_word_word].
  destruct (Z.ltb_spec 0 x), (Z.eqb_spec x 0); try lia; cbn [stack set_stack]; by rewrite ?Es.
Qed.

Lemma opAddmod_computes : computes3 (opAddmod, addmod).
Proof.
  unfold opAddmod, addmod. intros run f x y z s Hx Hy Hz Es. cbn [fst snd]. run_op Es.
  destruct (Z.eqb_spec z 0) as [->|Hne]; [done|].
  assert (0 < z) by (unfold word in *; lia). rewrite (proj2 (Z.ltb_lt 0 z)) by done.
  pose proof (word_mod (x + y) z Hz ltac:(done)). unfold Mod. rewrite Z.abs_eq by lia.
  by rewrite U256_word, to_word_id.
Qed.

Lemma opMulmod_computes : computes3 (opMulmod, mulmod).
Proof.
  unfold opMulmod, mulmod. intros run f x y z s Hx Hy Hz Es. cbn [fst snd]. run_op Es.
  destruct (Z.eqb_spec z 0) as [->|Hne]; [done|].
  assert (0 < z) by (unfold word in *; lia). rewrite (proj2 (Z.ltb_lt 0 z)) by done.
  pose proof (word_mod (x * y) z Hz ltac:(done)). unfold Mod. rewrite Z.abs_eq by lia.
  by rewrite U256_word, to_word_id.
Qed.

(** C33: Every arithmetic, comparison and bit instruction, on words, replaces its
    operands by the word the specification gives and changes nothing else. *)
Theorem instructions_compute_on_words :
  Forall computes1 [(opNot, not); (opIszero, iszero)] /\
  Forall computes2 [(opAdd, add); (opSub, sub); (opMul, mul); (opDiv, div); (opSdiv, sdiv);
    (opMod, mod_); (opSmod, smod); (opExp, exp); (opSignExtend, signextend); (opLt, lt);
    (opGt, gt); (opSlt, slt); (opSgt, sgt); (opEq, eq); (opAnd, and); (opOr, or); (opXor, xor);
    (opByte, byte); (opSHL, shl); (opSHR, shr); (opSAR, sar)] /\
  Forall computes3 [(opAddmod, addmod); (opMulmod, mulmod)].
Proof.
  rewrite !Forall_cons, !Forall_nil. split_and!; try done.
  - apply opNot_computes. - apply opIszero_computes.
  - apply opAdd_computes. - apply opSub_computes. - apply opMul_computes.
  - apply opDiv_computes. - apply opSdiv_computes. - apply opMod_computes.
  - apply opSmod_computes. - apply opExp_computes. - apply opSignExtend_computes.
  - apply opLt_computes. - apply opGt_computes. - apply opSlt_computes. - apply opSgt_computes.
  - apply opEq_computes. - apply opAnd_computes. - apply opOr_computes. - apply opXor_computes.
  - apply opByte_computes. - apply opSHL_computes. - apply opSHR_computes.
  - apply opSAR_computes. - apply opAddmod_computes. - apply opMulmod_computes.
Qed.
End Instructions.

(** ** Memory words *)
Section MemoryWords.
Import Spec.

(** Writing a window of a list. *)
Lemma copy_at_window l off v : (off + length v <= length l)%nat ->
  take (length v) (drop off (Mem.copy_at l off (length v) v)) = v.
Proof.
  intros Hl. unfold Mem.copy_at. rewrite Nat.min_id, (take_ge v) by lia.
  rewrite drop_app_length' by (rewrite length_take; lia). by rewrite take_app_length.
Qed.

Lemma copy_at_other l off v off' n : (off + length v <= length l)%nat ->
  (off' + n <= off)%nat \/ (off + length v <= off')%nat ->
  take n (drop off' (Mem.copy_at l off (length v) v)) = take n (drop off' l).
Proof.
  intros Hl Hdis. apply list_eq. intros i. unfold Mem.copy_at. rewrite Nat.min_id, (take_ge v) by lia.
  destruct (decide (i < n)%nat); [|by rewrite !lookup_take_ge by lia].
  rewrite !lookup_take_lt, !lookup_drop by done. destruct Hdis.
  - rewrite lookup_app_l by (rewrite length_take; lia). by rewrite lookup_take_lt by lia.
  - rewrite lookup_app_r by (rewrite length_take; lia). rewrite length_take.
    rewrite lookup_app_r by lia. rewrite lookup_drop. f_equal. lia.
Qed.

Lemma Get_window m off n : 0 < n -> 0 <= off -> off + n <= Mem.Len m -> Mem.Len m < 2 ^ 62 ->
  Mem.Get m off n = Some (take (Z.to_nat n) (drop (Z.to_nat off) m.(store))).
Proof.
  intros Hn Ho Hl Hb. unfold Mem.Get. rewrite (proj2 (Z.eqb_neq n 0)) by lia.
  rewrite (proj2 (Z.ltb_lt _ _)) by lia. rewrite i64_id by (unfold is_i64; lia).
  unfold slice, Mem.Len in *. rewrite (proj2 (Z.leb_le 0 off)), (proj2 (Z.leb_le off _)),
    (proj2 (Z.leb_le (off + n) _)) by lia. simpl. do 2 f_equal. lia.
Qed.

Lemma Set32_window m off v : 0 <= off -> off + 32 <= Mem.Len m -> Mem.Len m < 2 ^ 62 ->
  Mem.Set32 m off v = Some (Mem.set_store m
    (Mem.copy_at m.(store) (Z.to_nat off) 32 (be_bytes 32 (Z.abs v)))).
Proof.
  intros Ho Hl Hb. unfold Mem.Set32. rewrite u64_id by (unfold is_u64; lia).
  rewrite (proj2 (Z.ltb_ge _ _)) by lia. unfold slice, Mem.Len in *.
  rewrite (proj2 (Z.leb_le 0 off)), (proj2 (Z.leb_le off _)), (proj2 (Z.leb_le (off + 32) _)) by lia.
  cbn [andb mbind option_bind]. by rewrite ReadBits_zero.
Qed.

Context {db disk : Type} {SDB : StateDB db} {QH : VMStateQueryHelper db disk} {CR : Crypto} {EN : Env}.

(** MSTORE writes a word where MLOAD finds it again, the memory keeps its
    length, and every byte outside the 32 written is as it was. *)
Theorem stored_words_are_loaded run (f : frame db disk) off v s :
  word v -> 0 <= off -> off + 32 <= Mem.Len f.(memory) -> Mem.Len f.(memory) < 2 ^ 62 ->
  f.(stack) = off :: v :: s ->
  exists f1, opMstore run f = Ret (f1, ([], None)) /\ f1.(stack) = s /\
    Mem.Len f1.(memory) = Mem.Len f.(memory) /\
    opMload run (set_stack f1 (off :: s)) = Ret (set_stack f1 (v :: s), ([], None)) /\
    forall off' n, 0 < n -> 0 <= off' -> off' + n <= Mem.Len f.(memory) ->
      off' + n <= off \/ off + 32 <= off' ->
      Mem.Get f1.(memory) off' n = Mem.Get f.(memory) off' n.
Proof.
  intros Hv Ho Hl Hb Es. set (bs := be_bytes 32 (Z.abs v)).
  set (m1 := Mem.set_store f.(memory) (Mem.copy_at f.(memory).(store) (Z.to_nat off) 32 bs)).
  assert (Hbs : length bs = 32%nat) by apply be_bytes_length.
  assert (Hfit : (Z.to_nat off + 32 <= length f.(memory).(store))%nat) by (unfold Mem.Len in *; lia).
  assert (Hlen : Mem.Len m1 = Mem.Len f.(memory)).
  { unfold Mem.Len, m1, Mem.copy_at. cbn [store Mem.set_store]. rewrite !length_app, !length_take, length_drop.
    rewrite Hbs. lia. }
  exists (set_memory (set_stack f s) m1). split_and!; [| done | done | |].
  - unfold opMstore, ret_nil, mbind, M_bind, mret, M_ret, pop, get. rewrite Es. cbn [stack set_stack].
    unfold put_memory. cbn [memory set_stack].
    unfold Uint64. rewrite Z.abs_eq, u64_id by (unfold is_u64; lia).
    by rewrite Set32_window.
  - unfold opMload, ret_nil, mbind, M_bind, mret, M_ret, pop, get, lift. cbn [stack set_stack memory set_memory].
    unfold Int64. rewrite (proj2 (Z.ltb_ge off 0)) by lia.
    rewrite Z.abs_eq, u64_id, i64_id by (unfold is_u64, is_i64; lia).
    rewrite Get_window by lia. change (Z.to_nat 32) with 32%nat. subst m1. cbn [store Mem.set_store].
    rewrite <- Hbs, copy_at_window by lia. unfold push, SetBytes. cbn [stack set_stack set_memory].
    unfold bs. rewrite be_int_be_bytes. unfold word in Hv.
    rewrite Z.abs_eq, Z.mod_small by lia. done.
  - intros off' n Hn Ho' Hl' Hdis. cbn [memory set_memory].
    rewrite !Get_window by lia. f_equal. subst m1. cbn [store Mem.set_store].
    rewrite <- Hbs. apply copy_at_other; rewrite Hbs; lia.
Qed.
End MemoryWords.

(** *** Immediates *)
Section Immediates.
Context {db disk : Type} {SDB : StateDB db} {QH : VMStateQueryHelper db disk} {CR : Crypto} {EN : Env}.

(** The [n] bytes of the code from position [p], zeros past its end. *)
Definition immediate (code : list Z) (p n : nat) : list Z :=
  (fun i => default 0 (code !! (p + i)%nat)) <$> seq 0 n.

Lemma immediate_spec code p n : (p <= length code)%nat ->
  immediate code p n =
    take n (drop p code) ++ replicate (n - length (drop p code)) 0.
Proof.
  intros Hp. apply list_eq. intros i. unfold immediate. rewrite list_lookup_fmap.
  destruct (decide (i < n)%nat) as [Hi|Hi].
  - rewrite lookup_seq_lt by done. simpl.
    destruct (decide (p + i < length code)%nat) as [Hlt|Hge].
    + destruct (lookup_lt_is_Some_2 code (p + i) Hlt) as [b Hb]. rewrite Hb. simpl.
      rewrite lookup_app_l by (rewrite length_take, length_drop; lia).
      by rewrite lookup_take_lt, lookup_drop by lia.
    + rewrite (lookup_ge_None_2 code) by lia. simpl.
      rewrite lookup_app_r by (rewrite length_take, length_drop; lia).
      rewrite lookup_replicate_2; [done|]. rewrite length_take, length_drop. lia.
  - rewrite lookup_seq_ge by lia. simpl. symmetry. apply lookup_ge_None_2.
    rewrite length_app, length_take, length_replicate, length_drop. lia.
Qed.

(** PUSHn pushes the big-endian number made of the n code bytes after it,
    reading zeros past the end of the code, and moves the counter to its last
    byte. *)
Theorem push_reads_the_immediate run (f : frame db disk) (n : nat) :
  (1 <= n <= 32)%nat -> 0 <= f.(pc) < Z.of_nat (length f.(contract).(Code)) ->
  Z.of_nat (length f.(contract).(Code)) < 2 ^ 62 ->
  makePush (Z.of_nat n) (Z.of_nat n) run f =
    Ret (set_pc (set_stack f (be_int (immediate f.(contract).(Code) (Z.to_nat f.(pc) + 1) n)
                              :: f.(stack))) (f.(pc) + Z.of_nat n), ([], None)).
Proof.
  intros Hn Hpc Hlen. set (code := f.(contract).(Code)) in *.
  unfold makePush, ret_nil, mbind, M_bind, mret, M_ret, get. fold code.
  rewrite (u64_id (pc f + 1)), i64_id by (unfold is_u64, is_i64; lia).
  replace (if pc f + 1 <? Z.of_nat (length code) then pc f + 1 else Z.of_nat (length code))
    with (pc f + 1) by (destruct (Z.ltb_spec (pc f + 1) (Z.of_nat (length code))); lia).
  set (e := if pc f + 1 + Z.of_nat n <? Z.of_nat (length code) then pc f + 1 + Z.of_nat n
            else Z.of_nat (length code)).
  assert (He : e = Z.min (pc f + 1 + Z.of_nat n) (Z.of_nat (length code))).
  { subst e. destruct (Z.ltb_spec (pc f + 1 + Z.of_nat n) (Z.of_nat (length code))); lia. }
  unfold slice. rewrite (proj2 (Z.leb_le 0 _)), (proj2 (Z.leb_le _ e)),
    (proj2 (Z.leb_le e _)) by lia.
  unfold lift, push, put_pc. cbn [andb pc set_stack stack].
  rewrite u64_id by (unfold is_u64; lia).
  replace (SetBytes _) with (be_int (immediate code (Z.to_nat (pc f) + 1) n)); [done|].
  unfold SetBytes. f_equal. rewrite immediate_spec by lia.
  replace (Z.to_nat (pc f + 1)) with (Z.to_nat (pc f) + 1)%nat by lia.
  set (d := drop (Z.to_nat (pc f) + 1) code).
  assert (Hd : Z.of_nat (length d) = Z.of_nat (length code) - pc f - 1).
  { unfold d. rewrite length_drop. lia. }
  assert (Ht : take (Z.to_nat (e - (pc f + 1))) d = take n d).
  { destruct (decide (n <= length d)%nat); [f_equal; lia|]. rewrite !take_ge by lia. done. }
  rewrite Ht. unfold RightPadBytes. rewrite length_take.
  destruct (Z.leb_spec (Z.of_nat n) (Z.of_nat (n `min` length d))).
  - replace (n - length d)%nat with 0%nat by lia. by rewrite app_nil_r.
  - do 2 f_equal. lia.
Qed.
End Immediates.

(** ** Witnesses on the sample node *)
Section Witnesses.
Import RefState.
#[local] Existing Instance node_env.

Definition no_run : recursor State Disk := fun e c _ => Ret (e, c, ([], None)).

(** A frame in the middle of a run: two words of memory, three on the stack. *)
Definition sample_frame (code st : list Z) (p : Z) : frame State Disk :=
  {| pc := p;
     contract := {| CallerAddress := 7; Machine.caller := AccountRef 7; self := AccountRef 99;
                    Code := code; CodeHash := NewHash code; CodeAddr := Some 99; Input := [];
                    Gas := 100; Machine.value := Some 0; DelegateCall_ := false |};
     memory := {| store := replicate 64 0; lastGasCost := 6 |};
     stack := st; evm := caller_evm code |}.

Lemma stored_words_are_loaded_witness :
  exists f1, opMstore no_run (sample_frame [] [32; 2 ^ 255 + 7; 5] 0) = Ret (f1, ([], None)) /\
    opMload no_run (set_stack f1 [32; 5]) = Ret (set_stack f1 [2 ^ 255 + 7; 5], ([], None)).
Proof.
  destruct (stored_words_are_loaded no_run (sample_frame [] [32; 2 ^ 255 + 7; 5] 0)
    32 (2 ^ 255 + 7) [5]) as (f1 & H1 & _ & _ & H2 & _); [by vm_compute|done..|].
  exists f1. split; [exact H1|exact H2].
Defined.

Lemma push_reads_the_immediate_witness :
  makePush 3 3 no_run (sample_frame [PUSH3; 1; 2] [9] 0) =
    Ret (set_pc (set_stack (sample_frame [PUSH3; 1; 2] [9] 0) [0x010200; 9]) 3, ([], None)).
Proof. apply (push_reads_the_immediate no_run (sample_frame [PUSH3; 1; 2] [9] 0) 3); simpl; lia. Defined.
End Witnesses.
