(* ===== verification/GasSpec.v ===== *)
(** * What memory and calls cost

    The fee schedule of memory against [memoryGasCost], where it is exact and
    where it is not, and the gas a callee may get. *)
From Stdlib Require Import ZArith Lia.
From S2P Require Import Prelude Word Config OpCodes Analysis Machine Gas.
Import Big.
Open Scope Z_scope.

(** The total fee of [w] words of memory. *)
Definition fee (w : Z) : Z := 3 * w + w * w / 512.

(** Words that hold [size] bytes. *)
Definition words_for (size : Z) : Z := (size + 31) / 32.

(** The fee paid so far is recorded with the memory. *)
Definition fee_paid (m : Memory) : Prop := m.(lastGasCost) = fee (Mem.Len m / 32).

Lemma fee_mono a b : 0 <= a <= b -> 0 <= fee a <= fee b.
Proof.
  intros Hab. unfold fee. pose proof (Z.div_pos (a * a) 512 ltac:(nia) ltac:(lia)).
  pose proof (Z.div_le_mono (a * a) (b * b) 512 ltac:(lia) ltac:(nia)). lia.
Qed.

Lemma fee_bound w : 0 <= w < 2 ^ 32 -> 0 <= fee w < 2 ^ 56.
Proof.
  intros Hw. unfold fee. pose proof (Z.div_pos (w * w) 512 ltac:(nia) ltac:(lia)).
  pose proof (Z.div_lt_upper_bound (w * w) 512 (2 ^ 55) ltac:(lia) ltac:(nia)). lia.
Qed.

Lemma words_for_bounds size : 0 <= size -> size <= 32 * words_for size < size + 32.
Proof.
  intros Hs. unfold words_for. pose proof (Z.div_mod (size + 31) 32 ltac:(lia)).
  pose proof (Z.mod_pos_bound (size + 31) 32 ltac:(lia)). lia.
Qed.

Lemma Resize_Len m n : 0 <= n -> Mem.Len (Mem.Resize m n) = Z.max (Mem.Len m) n.
Proof.
  intros Hn. unfold Mem.Resize. destruct (Z.ltb_spec (Mem.Len m) n); [|lia].
  unfold Mem.Len in *. cbn [store Mem.set_store]. rewrite length_app, length_replicate. lia.
Qed.

Lemma Resize_lastGasCost m n : (Mem.Resize m n).(lastGasCost) = m.(lastGasCost).
Proof. unfold Mem.Resize. by case_match. Qed.

(** As long as memory stays below 2^32 words, growing it costs exactly the
    difference of the quadratic fees, and the memory records the fee of its new
    size. *)
Theorem memory_growth_costs_the_fee_difference (m : Memory) size :
  fee_paid m -> (32 | Mem.Len m) -> Mem.Len m <= 0x1fffffffe0 -> 0 <= size <= 0x1fffffffe0 ->
  exists m', memoryGasCost_of m size =
      (m', (fee (Z.max (Mem.Len m / 32) (words_for size)) - fee (Mem.Len m / 32), None)) /\
    m'.(store) = m.(store) /\ fee_paid (Mem.Resize m' (32 * words_for size)).
Proof.
  intros Hpaid [k Hk] Hl Hs. set (w := words_for size).
  pose proof (words_for_bounds size ltac:(lia)) as Hw. fold w in Hw.
  assert (Hk0 : 0 <= k) by (unfold Mem.Len in *; lia).
  unfold fee_paid in *. rewrite Hk, Z.div_mul in * by lia.
  pose proof (fee_bound k ltac:(lia)). pose proof (fee_bound w ltac:(lia)).
  unfold memoryGasCost_of. destruct (Z.eqb_spec size 0) as [->|Hs0].
  { replace (Z.max k w) with k by (change w with 0; lia). rewrite Z.sub_diag. exists m.
    split; [done|]. split; [done|].
    rewrite Resize_lastGasCost, Resize_Len by lia. rewrite Hpaid. f_equal.
    change w with 0. rewrite Hk, Z.max_l, Z.div_mul by lia. done. }
  rewrite (proj2 (Z.ltb_ge _ size)) by lia. unfold toWordSize, MaxUint64.
  rewrite (proj2 (Z.ltb_ge _ size)) by lia. rewrite (u64_id (size + 31)) by (unfold is_u64; lia).
  fold (words_for size). fold w. rewrite (u64_id (w * 32)) by (unfold is_u64; lia).
  unfold Mem.Len at 1. fold (Mem.Len m). rewrite Hk.
  destruct (Z.ltb_spec (k * 32) (w * 32)).
  - pose proof (fee_mono k w ltac:(lia)). unfold Params.MemoryGas, Params.QuadCoeffDiv.
    rewrite (u64_id (w * w)), (u64_id (w * 3)) by (unfold is_u64; nia).
    replace (w * 3 + w * w / 512) with (fee w) by (unfold fee; lia).
    rewrite (u64_id (fee w)), u64_id by (unfold is_u64; lia). rewrite Hpaid, Z.max_r by lia.
    eexists. split; [reflexivity|]. split; [done|].
    rewrite Resize_lastGasCost, Resize_Len by lia. unfold Mem.Len in *. cbn [store lastGasCost].
    f_equal. rewrite Z.max_r by lia. by rewrite Z.mul_comm, Z.div_mul.
  - exists m. rewrite Z.max_l, Z.sub_diag by lia. split; [done|]. split; [done|].
    rewrite Resize_lastGasCost, Resize_Len by lia. rewrite Hpaid. f_equal.
    rewrite Hk, Z.max_l, Z.div_mul by lia. done.
Qed.

Lemma memory_growth_costs_the_fee_difference_witness :
  exists m', memoryGasCost_of Mem.NewMemory 0x1fffffffe0 =
      (m', (fee (Z.max 0 (words_for 0x1fffffffe0)) - fee 0, None)) /\
    m'.(store) = [] /\ fee_paid (Mem.Resize m' (32 * words_for 0x1fffffffe0)).
Proof.
  apply (memory_growth_costs_the_fee_difference Mem.NewMemory 0x1fffffffe0);
    [done|by exists 0|done|done].
Defined.

(** The bound [memoryGasCost] checks does not keep the square of the words
    below 2^64: at 2^32 words the quadratic part of the fee wraps to zero, and
    the largest memory it accepts is charged less than a 63rd of its fee. *)
Theorem memory_fee_wraps_at_2_32_words :
  (memoryGasCost_of Mem.NewMemory 0x2000000000).2 = (3 * 2 ^ 32, None) /\
  fee (words_for 0x2000000000) = 3 * 2 ^ 32 + 2 ^ 55 /\
  (exists cost, (memoryGasCost_of Mem.NewMemory 0xffffffffe0).2 = (cost, None) /\
     cost * 63 < fee (words_for 0xffffffffe0)).
Proof.
  split; [by vm_compute|]. split; [by vm_compute|].
  exists (memoryGasCost_of Mem.NewMemory 0xffffffffe0).2.1. split; by vm_compute.
Qed.

(** From EIP-150 on a call gets what it asks for, up to all but one 64th of
    the gas left after its own price, and never fails for asking more. *)
Theorem callee_gets_at_most_all_but_one_64th gt available base cost :
  0 < gt.(CreateBySuicide) -> 0 <= cost -> 0 <= base <= available -> available < 2 ^ 64 ->
  let left_ := available - base in
  callGas gt available base cost = (Z.min cost (left_ - left_ / 64), None).
Proof.
  intros Hgt Hc Hb Ha left_. unfold callGas. rewrite (proj2 (Z.ltb_lt 0 _)) by done.
  fold left_. rewrite (u64_id left_) by (unfold is_u64; subst left_; lia).
  assert (Hl : 0 <= left_ < 2 ^ 64) by (subst left_; lia).
  pose proof (Z.div_pos left_ 64 ltac:(lia) ltac:(lia)).
  pose proof (Z.div_le_upper_bound left_ 64 left_ ltac:(lia) ltac:(lia)).
  rewrite u64_id by (unfold is_u64; lia). set (g := left_ - left_ / 64) in *.
  destruct (Z.ltb_spec 64 (BitLen cost)) as [Hbig|Hsmall].
  - assert (2 ^ 64 <= cost).
    { destruct (Z.leb_spec (2 ^ 64) cost); [done|]. exfalso.
      assert (BitLen cost <= 64) by (apply BitLen_le; lia). lia. }
    cbn [orb]. by rewrite Z.min_r by lia.
  - apply BitLen_le in Hsmall; [|done]. unfold Uint64.
    rewrite Z.abs_eq, u64_id in * by (unfold is_u64; lia). cbn [orb].
    destruct (Z.ltb_spec g cost); [by rewrite Z.min_r by lia|by rewrite Z.min_l by lia].
Qed.

Lemma callee_gets_at_most_all_but_one_64th_witness :
  callGas GasTableEIP158 100000 700 (2 ^ 256 - 1) = (97749, None).
Proof.
  apply (callee_gets_at_most_all_but_one_64th GasTableEIP158 100000 700 (2 ^ 256 - 1)); done.
Defined.
