(* ===== verification/Evm.v ===== *)
(** * What the machine guarantees

    The theorems about whole message calls and whole runs that are foreseen ([foreseen_run]): they
    end without a panic, account for their gas, undo what failed, and do not depend on the
    fuel of the model. *)
From Stdlib Require Import ZArith Lia.
From S2P Require Import Safety CallSafety GasSafety TableSafety PrecompileSafety Execution.
From S2P Require Import Prelude Word Config OpCodes Analysis Machine Gas Calls Instructions.
From S2P Require Import JumpTable Precompiles Interpreter StateSpec Invariant Sample.
Import Big Op.
Open Scope Z_scope.
Import RefState.

(** ** Transfers on the reference state

    dvm/ethereum/evm.go's [CanTransfer] and [Transfer] over the reference state
    of StateSpec.v: value moves, nothing is created or lost. *)

(** All the value of a state. *)
Definition total (s : State) : Z :=
  map_fold (fun _ x t => x.(balance) + t) 0 s.(world).(accounts).

Lemma total_insert (m : gmap Z Account) a x :
  map_fold (fun _ x t => x.(balance) + t) 0 (<[a := x]> m) =
  map_fold (fun _ x t => x.(balance) + t) 0 m -
    (default empty_account (m !! a)).(balance) + x.(balance).
Proof.
  assert (Hnew : forall (m : gmap Z Account) a x, m !! a = None ->
    map_fold (fun _ x t => x.(balance) + t) 0 (<[a := x]> m) =
    x.(balance) + map_fold (fun _ x t => x.(balance) + t) 0 m).
  { intros m' b y Hb. apply (map_fold_insert_L (fun _ x t => x.(balance) + t)); [|done].
    intros. lia. }
  destruct (m !! a) as [y|] eqn:Ha; simpl.
  - rewrite <- (insert_delete_id m a y Ha) at 2. rewrite <- insert_delete_eq.
    rewrite !Hnew by apply lookup_delete_eq. lia.
  - rewrite Hnew by done. lia.
Qed.

Lemma total_set_acc s a x :
  total (set_acc s a x) = total s - (acc s a).(balance) + x.(balance).
Proof. apply total_insert. Qed.

(** A transfer the balance check allows takes the amount from the sender,
    gives it to the recipient, touches no other balance, makes none negative and
    keeps the total. *)
Theorem transfers_conserve_value `{!Crypto} (s : State) from to v :
  0 <= v -> CanTransfer s from v = true -> (forall a, 0 <= GetBalance s a) ->
  let s' := Transfer s from to v in
  total s' = total s /\
  (from <> to -> GetBalance s' from = GetBalance s from - v /\
                 GetBalance s' to = GetBalance s to + v) /\
  (from = to -> GetBalance s' from = GetBalance s from) /\
  (forall a, a <> from -> a <> to -> GetBalance s' a = GetBalance s a) /\
  (forall a, 0 <= GetBalance s' a).
Proof.
  intros Hv Hcan%Z.leb_le Hpos s'.
  assert (Hb : forall a, GetBalance s' a =
    GetBalance s a - (if decide (a = from) then v else 0) + (if decide (a = to) then v else 0)).
  { intros a. subst s'. unfold Transfer. simpl. rewrite !acc_set_acc.
    repeat case_decide; subst; simpl; try done; rewrite ?acc_set_acc;
      repeat case_decide; simpl; try done; lia. }
  assert (Ht : total s' = total s).
  { subst s'. unfold Transfer. simpl. rewrite !total_set_acc, !acc_set_acc. simpl. lia. }
  clearbody s'. split; [done|]. simpl in Hcan. split_and!.
  - intros Hne. rewrite !Hb. repeat case_decide; subst; try done; lia.
  - intros ->. rewrite Hb. repeat case_decide; try done; lia.
  - intros a Hf Ht'. rewrite Hb. repeat case_decide; try done; lia.
  - intros a. rewrite Hb. specialize (Hpos a). repeat case_decide; subst; simpl in *; lia.
Qed.

Lemma transfers_conserve_value_witness :
  let s := state_of (sample_world []) in
  total (Transfer s 7 99 30) = total s /\ GetBalance (Transfer s 7 99 30) 7 = 70.
Proof.
  intros s. destruct (transfers_conserve_value s 7 99 30) as (Ht & Hne & _); [done|done| |].
  - intros a. apply (acc_ok s a). split; [apply (sample_world_ok [] is_bytes_nil)|constructor|constructor].
  - split; [exact Ht|]. by apply Hne.
Defined.

Section Evm.
Context {db disk : Type} {SDB : StateDB db} {QH : VMStateQueryHelper db disk} {CR : Crypto}
  {PL : PrecompileLib} {EN : Env} {laws : StateLaws db disk} {CU : CodesInUse} {EO : EnvOk} {PLaws : PrecompileLaws}.
Abbreviation EVM := (EVM db disk).
Abbreviation frame := (frame db disk).
Abbreviation operation := (operation db disk).

(** A configuration leaves the table empty or names one of the four. *)
Definition configured (cfg : Z -> operation) : Prop :=
  (cfg STOP).(valid) = false \/
  cfg = newFrontierInstructionSet \/ cfg = newHomesteadInstructionSet \/
  cfg = newByzantiumInstructionSet \/ cfg = newConstantinopleInstructionSet.

Lemma configured_ok cfg : configured cfg -> table_ok (NewEVMInterpreter cfg).
Proof.
  unfold NewEVMInterpreter. intros [->|Hcfg]; cbn [negb].
  - repeat case_match; [apply constantinople_table_ok|apply byzantium_table_ok
      |apply homestead_table_ok|apply frontier_table_ok].
  - destruct Hcfg as [->|[->|[->| ->]]]; simpl;
      [apply frontier_table_ok|apply homestead_table_ok|apply byzantium_table_ok
      |apply constantinople_table_ok].
Qed.

(** Turns of the interpreter's loop that [gas] can pay for. *)
Definition enough_fuel (gas : Z) : Z := gas * span + 2 ^ 62 + 34.

Lemma run_ok cfg fuel gas : configured cfg -> enough_fuel gas <= Z.of_nat fuel ->
  recursor_ok gas (watched_run fuel (NewEVMInterpreter cfg)).
Proof.
  intros Hcfg Hfuel. apply run_with_ok. intros f Hf Hown Hpc.
  apply watched_ok; [by apply configured_ok|done|].
  unfold measure, enough_fuel, span in *. lia.
Qed.

Lemma watched_run_le cfg fuel : configured cfg ->
  run_le (watched_run fuel (NewEVMInterpreter cfg)) (run fuel (NewEVMInterpreter cfg)).
Proof. intros Hcfg. apply run_with_le. intros f. by apply watched_le, configured_ok. Qed.

(** What is done with the interpreter meets only frames that are foreseen: whichever contract's code is
    executed, it is among those in use, and DIFFICULTY is executed only where a difficulty is set. *)
Definition foreseen_run {A} cfg (gas : Z) (k : recursor db disk -> outcome nofuel A) : Prop :=
  k (watched_run (Z.to_nat (enough_fuel gas)) (NewEVMInterpreter cfg)) <> Err Excluded.

(** It is enough that the watched run ends, with whatever fuel. *)
Lemma foreseen_when {A} cfg (gas : Z) (k : recursor db disk -> outcome nofuel A) n :
  configured cfg -> (forall run run', run_le run run' -> outcome_le (k run) (k run')) ->
  Z.of_nat n <= enough_fuel gas -> match k (watched_run n (NewEVMInterpreter cfg)) with Ret _ => true | _ => false end = true ->
  foreseen_run cfg gas k.
Proof.
  intros Hcfg Hk Hn Hr. unfold foreseen_run. destruct (k (watched_run n _)) as [a| |] eqn:E; [|done|done].
  assert (Hle : run_le (watched_run n (NewEVMInterpreter cfg)) (watched_run (Z.to_nat (enough_fuel gas)) (NewEVMInterpreter cfg))).
  { apply run_with_le. intros f. apply watched_mono; [by apply configured_ok|lia]. }
  by rewrite (Hk _ _ Hle a E).
Qed.

(** The same outcome whatever the fuel, once there is enough. *)
Lemma stable_run {A} cfg (gas : Z) (k : recursor db disk -> outcome nofuel A) (Q : A -> Prop) :
  configured cfg -> (forall run run', run_le run run' -> outcome_le (k run) (k run')) ->
  (forall run, recursor_ok gas run -> wp (k run) Q) -> foreseen_run cfg gas k ->
  exists a, Q a /\ forall fuel, enough_fuel gas <= Z.of_nat fuel ->
    k (run fuel (NewEVMInterpreter cfg)) = Ret a.
Proof.
  intros Hcfg Hk Hok Hfs. unfold foreseen_run in Hfs. set (n := Z.to_nat (enough_fuel gas)) in *.
  pose proof (Hok (watched_run n (NewEVMInterpreter cfg))) as Hn.
  destruct (k (watched_run n (NewEVMInterpreter cfg))) as [a|[]|] eqn:E; [| |done|].
  - exists a. split; [apply Hn, run_ok; [done|lia]|]. intros fuel Hfuel.
    refine (Hk _ _ _ a (Hk _ _ (watched_run_le cfg n Hcfg) a E)). apply run_with_le. intros f.
    apply interp_le; [by apply configured_ok|lia].
  - destruct Hn. apply run_ok; [done|lia].
  - destruct Hn. apply run_ok; [done|lia].
Qed.

(** C2: A message call made with less than 2^62 gas, in an environment with a gas price and a block
    number, returns, unless it executes DIFFICULTY where the environment has no difficulty - as the
    service's has none, and there it panics - or two codes that
    share a hash: some fuel is enough, more fuel gives the same result, nothing panics. It hands back no
    more gas than it was given, leaves depth and read-only flag as they were and
    the machine in a valid state, and if it reports an error the state is what it
    was before the call. *)
Theorem message_calls_end_safely cfg (e : EVM) caller addr input gas v :
  configured cfg -> evm_ok e -> 0 <= gas < max_gas -> 0 <= v -> is_bytes input ->
  foreseen_run cfg gas (fun run => Call run e caller addr input gas v) ->
  exists e' ret leftOver err,
    (forall fuel, enough_fuel gas <= Z.of_nat fuel ->
       Call (run fuel (NewEVMInterpreter cfg)) e caller addr input gas v =
         Ret (e', (ret, leftOver, err))) /\
    0 <= leftOver <= gas /\ is_bytes ret /\ evm_ok e' /\
    e'.(depth) = e.(depth) /\ e'.(readOnly) = e.(readOnly) /\
    (err <> None -> view e'.(evm_StateDB) ≡ view e.(evm_StateDB)).
Proof.
  intros Hcfg He Hgas Hv Hin Hfs.
  destruct (stable_run cfg gas (fun run => Call run e caller addr input gas v) (call_post e gas))
    as ([e' [[ret leftOver] err]] & (He' & Hr & Hlo & Hb & Hview) & Hcall); [done| | |done|].
  - intros run run' Hle. by apply Call_le.
  - intros run Hrun. by apply (Call_ok gas).
  - exists e', ret, leftOver, err. split; [done|]. split_and!; try done; apply Hlo || apply Hr.
Qed.

(** C31: A contract creation made with less than 2^62 gas returns under the same conditions, with
    the same gas and state guarantees. From Homestead on, a failed creation
    leaves the state as it was, but for the creator's nonce, which counts the
    attempt. *)
Theorem contract_creations_end_safely cfg (e : EVM) creator code gas v address :
  configured cfg -> evm_ok e -> 0 <= gas < max_gas -> 0 <= v -> is_bytes code ->
  foreseen_run cfg gas (fun run => create run e creator code gas v address) ->
  exists e' ret addr leftOver err,
    (forall fuel, enough_fuel gas <= Z.of_nat fuel ->
       create (run fuel (NewEVMInterpreter cfg)) e creator code gas v address =
         Ret (e', (ret, addr, leftOver, err))) /\
    0 <= leftOver <= gas /\ is_bytes ret /\ evm_ok e' /\
    e'.(depth) = e.(depth) /\ e'.(readOnly) = e.(readOnly) /\
    (IsHomestead chainConfig BlockNumber = true -> err <> None ->
       view e'.(evm_StateDB) ≡ view e.(evm_StateDB) \/
       view e'.(evm_StateDB) ≡ view (bumped e creator)).
Proof.
  intros Hcfg He Hgas Hv Hcode Hfs.
  destruct (stable_run cfg gas (fun run => create run e creator code gas v address)
              (create_post e creator gas))
    as ([e' [[[ret addr] leftOver] err]] & (He' & Hr & Hlo & Hb & Hview) & Hcall); [done| | |done|].
  - intros run run' Hle. by apply create_le.
  - intros run Hrun. by apply (create_ok gas).
  - exists e', ret, addr, leftOver, err. split; [done|].
    split_and!; try done; apply Hlo || apply Hr.
Qed.

(** *** The frames of one run *)
Definition start (e : EVM) (c : Contract) (input : list Z) : frame :=
  {| pc := 0; contract := set_Input c input; memory := Mem.NewMemory; stack := [];
     evm := set_returnData (set_depth e (e.(depth) + 1)) [] |}.

(** A turn that is foreseen, and so is every turn of the calls it makes *)
Definition foreseen_turn cfg fuel (f : frame) : Prop :=
  foreseen f = true /\ step (NewEVMInterpreter cfg) (watched_run fuel (NewEVMInterpreter cfg)) f <> Err Excluded.

(** The loop of [Run] as a relation: [reaches cfg fuel f g] when turns that are foreseen and do not
    end the loop lead from [f] to [g]. *)
Inductive reaches cfg (fuel : nat) (f : frame) : frame -> Prop :=
  | reaches_start : reaches cfg fuel f f
  | reaches_turn g h : reaches cfg fuel f g -> foreseen_turn cfg fuel g ->
      step (NewEVMInterpreter cfg) (run fuel (NewEVMInterpreter cfg)) g = Ret (h, None) -> reaches cfg fuel f h.

Lemma start_ok e c input : evm_ok e -> contract_ok c -> is_bytes input -> turn_ok (start e c input).
Proof.
  intros He Hc Hin. split; [|by vm_compute]. split; simpl; [| |constructor| |lia].
  - destruct Hc. by split.
  - split; [constructor|by exists 0|done].
  - destruct He. by split.
Qed.

(** A turn that is foreseen, watched or not *)
Lemma turn_taken cfg fuel f g : configured cfg -> turn_ok f -> turn_rel f g -> turn_ok g ->
  enough_fuel (own_gas f) <= Z.of_nat fuel -> foreseen_turn cfg fuel g ->
  exists r, step (NewEVMInterpreter cfg) (run fuel (NewEVMInterpreter cfg)) g = Ret r /\ turn_post g r.
Proof.
  intros Hcfg Hf Hrel Hg Hfuel [Hfs Hne]. destruct (tr_contract _ _ Hrel) as (a & Ea & Ha).
  pose proof (step_ok (NewEVMInterpreter cfg) (watched_run fuel (NewEVMInterpreter cfg)) g) as Hs.
  destruct (step _ (watched_run _ _) g) as [r|[]|] eqn:E; [|destruct Hs|done|destruct Hs]; try done.
  - exists r. split.
    + refine (step_le _ _ _ g (configured_ok _ Hcfg) (watched_run_le cfg fuel Hcfg) r E).
    + apply Hs; [by apply configured_ok|done| |done]. eapply recursor_ok_mono; [|by apply run_ok].
      unfold own_gas at 1. rewrite Ea. simpl. lia.
  - by apply configured_ok.
  - eapply recursor_ok_mono; [|by apply run_ok]. unfold own_gas at 1. rewrite Ea. simpl. lia.
  - by apply configured_ok.
  - eapply recursor_ok_mono; [|by apply run_ok]. unfold own_gas at 1. rewrite Ea. simpl. lia.
Qed.

Lemma reaches_ok cfg fuel f g : configured cfg -> turn_ok f -> enough_fuel (own_gas f) <= Z.of_nat fuel ->
  reaches cfg fuel f g -> turn_ok g /\ turn_rel f g.
Proof.
  intros Hcfg Hf Hfuel Hr. induction Hr as [|g h Hr [IHt IHr] Hfs Hstep].
  - split; [done|]. by apply turn_rel_refl, turn_frame.
  - destruct (turn_taken cfg fuel f g Hcfg Hf IHr IHt Hfuel Hfs) as (r & Hs & Hpost).
    rewrite Hstep in Hs. injection Hs as <-. destruct Hpost as [Hrel [Ht _]].
    split; [done|]. by eapply turn_rel_trans.
Qed.

(** C32: Whatever code a contract runs, in every frame its run can reach in an environment with a gas price
    and a block number - executing no DIFFICULTY where there is
    none, and no two codes that share a hash - the stack
    holds at most 1024 words, memory is a whole number of words below the fee
    bound, the code is the contract's, the program counter is in it or within one
    instruction past its end, no gas was created, and the next turn, if it is foreseen too, does not
    panic. *)
Theorem runs_stay_within_limits cfg fuel (e : EVM) c input f :
  configured cfg -> evm_ok e -> contract_ok c -> is_bytes input ->
  enough_fuel c.(Gas) <= Z.of_nat fuel ->
  reaches cfg fuel (start e c input) f ->
  Z.of_nat (length f.(stack)) <= 1024 /\
  (32 | Mem.Len f.(memory)) /\ Mem.Len f.(memory) <= 0xffffffffe0 /\
  f.(contract).(Code) = c.(Code) /\ 0 <= f.(pc) <= Z.of_nat (length c.(Code)) + 32 /\
  0 <= f.(contract).(Gas) <= c.(Gas) /\
  (foreseen_turn cfg fuel f -> exists r, step (NewEVMInterpreter cfg) (run fuel (NewEVMInterpreter cfg)) f = Ret r).
Proof.
  intros Hcfg He Hc Hin Hfuel Hr. pose proof (start_ok e c input He Hc Hin) as Hs0.
  destruct (reaches_ok cfg fuel _ f Hcfg Hs0 Hfuel Hr) as [Hf Hrel].
  destruct (tr_contract _ _ Hrel) as (g & Eg & Hg).
  pose proof (turn_frame _ Hf) as [_ [_ Hw Hb] _ _ Hpc]. pose proof (turn_stack _ Hf) as Hst.
  rewrite Eg in Hpc. simpl in Hpc, Hg.
  assert (Hstep : foreseen_turn cfg fuel f -> exists r, step (NewEVMInterpreter cfg) (run fuel (NewEVMInterpreter cfg)) f = Ret r).
  { intros Hfs. destruct (turn_taken cfg fuel _ f Hcfg Hs0 Hrel Hf Hfuel Hfs) as (r & Hs & _). by exists r. }
  rewrite Eg. simpl. split; [done|]. split; [done|]. split; [done|]. split; [done|].
  split; [done|]. by split.
Qed.

(** Two runs of the same frame that return, with whatever fuel, return the
    same. *)
Theorem results_do_not_depend_on_fuel cfg n m (f : frame) r r' :
  configured cfg -> interp n (NewEVMInterpreter cfg) f = Ret r ->
  interp m (NewEVMInterpreter cfg) f = Ret r' -> r = r'.
Proof.
  intros Hcfg Hn Hm.
  pose proof (interp_le _ n (n `max` m) f (configured_ok _ Hcfg) ltac:(lia) _ Hn).
  pose proof (interp_le _ m (n `max` m) f (configured_ok _ Hcfg) ltac:(lia) _ Hm).
  congruence.
Qed.
End Evm.

(** ** Read-only runs *)
Section ReadOnly.
Context {db disk : Type} {SDB : StateDB db} {QH : VMStateQueryHelper db disk} {CR : Crypto}
  {PL : PrecompileLib} {EN : Env}.
Abbreviation frame := (frame db disk).

(** The operations the Constantinople table marks as writing. *)
Definition writing_ops : list Z :=
  [SSTORE; LOG0; LOG1; LOG2; LOG3; LOG4; CREATE; CREATE2; SELFDESTRUCT].

Lemma constantinople_writes op : 0 <= op < 256 ->
  (newConstantinopleInstructionSet (db:=db) (disk:=disk) op).(writes) = bool_decide (op ∈ writing_ops).
Proof.
  intros Hop.
  assert (Hall : forallb (fun k : Z =>
    Bool.eqb (newConstantinopleInstructionSet (db:=db) (disk:=disk) k).(writes)
      (bool_decide (k ∈ writing_ops))) (seqZ 0 256) = true) by (vm_compute; done).
  rewrite forallb_forall in Hall. apply Bool.eqb_prop, Hall.
  apply list_elem_of_In, elem_of_seqZ. lia.
Qed.

(** C38: Inside a static call from Byzantium on, an operation that writes
    (SSTORE, LOGn, CREATE, CREATE2, SELFDESTRUCT) and a CALL that moves value are
    refused: the run ends with the write protection error, or with the error of
    the stack check that comes first, before any gas is taken or the state, the
    disk, the stack or the memory is touched. *)
Theorem static_runs_refuse_writes run (f : frame) :
  IsByzantium chainConfig BlockNumber = true -> f.(evm).(readOnly) = true ->
  AbortAt f.(evm).(Ticks) = false ->
  Forall (fun b => 0 <= b < 256) f.(contract).(Code) ->
  let op := GetOp f.(contract) f.(pc) in
  (op ∈ writing_ops \/ op = CALL /\ exists v, f.(stack) !! 2%nat = Some v /\ v <> 0) ->
  exists f' e, step newConstantinopleInstructionSet run f = Ret (f', Some ([], Some e)) /\
    (e = errWriteProtection \/
     (newConstantinopleInstructionSet (db:=db) (disk:=disk) op).(validateStack) f.(stack) = Some e) /\
    f'.(evm).(evm_StateDB) = f.(evm).(evm_StateDB) /\
    f'.(evm).(evm_Helper) = f.(evm).(evm_Helper) /\
    f'.(contract) = f.(contract) /\ f'.(stack) = f.(stack) /\ f'.(memory) = f.(memory).
Proof.
  intros Hbyz Hro Habort Hcode op Hop.
  assert (Hrange : 0 <= op < 256).
  { unfold op, GetOp, GetByte. case_match; [|lia].
    destruct (Code (contract f) !! Z.to_nat (pc f)) as [b|] eqn:Eb; simpl; [|lia].
    by apply (Forall_lookup_1 _ _ _ _ Hcode Eb). }
  unfold step. rewrite Habort. cbn [set_evm contract pc]. fold op.
  set (f' := set_evm f _). cbv zeta.
  assert (Hin : op ∈ CALL :: writing_ops) by (destruct Hop as [?|[-> _]]; [by right|by left]).
  assert (Hvalid : (newConstantinopleInstructionSet (db:=db) (disk:=disk) op).(valid) = true).
  { unfold writing_ops in Hin. rewrite !elem_of_cons, elem_of_nil in Hin.
    repeat destruct Hin as [->|Hin]; done. }
  rewrite Hvalid. cbn [negb].
  destruct (validateStack _ (stack f')) as [e|] eqn:Ev.
  { exists f', e. split; [done|]. split; [by right|]. done. }
  assert (Hr : enforceRestrictions (evm f').(readOnly) op
    (newConstantinopleInstructionSet (db:=db) (disk:=disk) op) (stack f') = Ret (Some errWriteProtection)).
  { unfold enforceRestrictions. cbn [rules_IsByzantium mkRules]. rewrite Hbyz.
    change (readOnly (evm f')) with (readOnly (evm f)). rewrite Hro.
    rewrite constantinople_writes by done. destruct Hop as [Hop|[-> (v & Hv & Hne)]].
    - by rewrite bool_decide_eq_true_2.
    - change (bool_decide (CALL ∈ writing_ops)) with false. change (CALL =? CALL) with true.
      cbv iota. change (stack f') with (stack f). unfold Back. rewrite Hv. cbn [or_panic mbind outcome_bind].
      rewrite (proj2 (Z.ltb_lt 0 (BitLen v))); [done|]. unfold BitLen.
      rewrite (proj2 (Z.eqb_neq v 0)) by done. pose proof (Z.log2_nonneg (Z.abs v)). lia. }
  rewrite Hr. cbn [mbind outcome_bind]. exists f', errWriteProtection. split; [done|].
  split; [by left|]. done.
Qed.

(** A later release keeps every operation of an earlier one and only adds
    opcodes that were invalid. *)
Theorem releases_extend_each_other op :
  let frontier := newFrontierInstructionSet (db:=db) (disk:=disk) op in
  let homestead := newHomesteadInstructionSet (db:=db) (disk:=disk) op in
  let byzantium := newByzantiumInstructionSet (db:=db) (disk:=disk) op in
  let constantinople := newConstantinopleInstructionSet (db:=db) (disk:=disk) op in
  (homestead = frontier \/ frontier.(valid) = false /\ op = DELEGATECALL) /\
  (byzantium = homestead \/ homestead.(valid) = false /\
     op ∈ [STATICCALL; RETURNDATASIZE; RETURNDATACOPY; REVERT]) /\
  (constantinople = byzantium \/ byzantium.(valid) = false /\
     op ∈ [SHL; SHR; SAR; EXTCODEHASH; CREATE2]).
Proof.
  intros frontier homestead byzantium constantinople. rewrite !elem_of_cons, elem_of_nil.
  split_and!.
  - unfold homestead, newHomesteadInstructionSet, upd.
    destruct (Z.eqb_spec op DELEGATECALL) as [->|]; [by right|by left].
  - unfold byzantium, newByzantiumInstructionSet. cbv zeta. unfold upd.
    repeat match goal with |- context [op =? ?k] =>
      destruct (Z.eqb_spec op k) as [->|]; [right; split; [done|tauto]|] end. by left.
  - unfold constantinople, newConstantinopleInstructionSet. cbv zeta. unfold upd.
    repeat match goal with |- context [op =? ?k] =>
      destruct (Z.eqb_spec op k) as [->|]; [right; split; [done|tauto]|] end. by left.
Qed.

(** The native contracts are those at the addresses the call functions take
    for native, and each has a price for every input and, when that price is
    below 2^62, runs without a panic to a byte string or an error. *)
Theorem native_contracts_are_total `{!PrecompileLaws} addr input :
  is_bytes input ->
  (is_precompile addr = true <-> is_Some (precompiles addr)) /\
  forall p, precompiles addr = Some p ->
    exists g, p.(RequiredGas) input = Ret g /\ 0 <= g /\
      (g < 2 ^ 62 -> exists r, p.(RunNative) input = Ret r /\ is_bytes r.1).
Proof.
  intros Hin. split.
  - rewrite is_precompile_spec, bool_decide_eq_true. unfold precompiles.
    by destruct (IsByzantium _ _).
  - unfold precompiles. intros p Hp.
    destruct (IsByzantium _ _);
      [by apply (byzantium_native_ok addr p)|by apply (homestead_native_ok addr p)].
Qed.
End ReadOnly.

(** ** Witnesses: the sample node runs a contract *)
Section Witnesses.
Import RefState.
#[local] Existing Instance bare_env.
#[local] Instance bare_env_ok : EnvOk := sample_env_ok None.
Abbreviation jt := (newConstantinopleInstructionSet (db:=RefState.State) (disk:=RefState.Disk)).

Lemma jt_configured : configured jt.
Proof. by do 4 right. Qed.

(** Evaluated once; the checker does it too. *)
Ltac evaluated := vm_cast_no_check (eq_refl true).

Lemma storing_call_foreseen :
  foreseen_run jt 100000 (fun run => Call run (caller_evm storing_code) (AccountRef 7) 99 [] 100000 5).
Proof.
  apply (foreseen_when jt 100000 _ 20 jt_configured); [|by vm_compute|evaluated].
  intros run run' Hle. by apply Call_le.
Qed.

Lemma adding_creation_foreseen :
  foreseen_run jt 100000 (fun run => create run (caller_evm []) (AccountRef 7) adding_code 100000 5 300).
Proof.
  apply (foreseen_when jt 100000 _ 20 jt_configured); [|by vm_compute|evaluated].
  intros run run' Hle. by apply create_le.
Qed.

Lemma message_calls_end_safely_witness :
  exists e' ret leftOver err,
    (forall fuel, enough_fuel 100000 <= Z.of_nat fuel ->
       Call (run fuel (NewEVMInterpreter jt)) (caller_evm storing_code) (AccountRef 7) 99 [] 100000 5 =
         Ret (e', (ret, leftOver, err))) /\
    0 <= leftOver <= 100000 /\ is_bytes ret /\ evm_ok e' /\
    e'.(depth) = 0 /\ e'.(readOnly) = false /\
    (err <> None -> view e'.(evm_StateDB) ≡ view (caller_evm storing_code).(evm_StateDB)).
Proof.
  apply (message_calls_end_safely jt (caller_evm storing_code) (AccountRef 7) 99 [] 100000 5).
  - by do 4 right.
  - apply caller_evm_ok, sample_bytes; [done|simpl; lia].
  - done.
  - done.
  - apply is_bytes_nil.
  - exact storing_call_foreseen.
Defined.

Lemma contract_creations_end_safely_witness :
  exists e' ret addr leftOver err,
    (forall fuel, enough_fuel 100000 <= Z.of_nat fuel ->
       create (run fuel (NewEVMInterpreter jt)) (caller_evm []) (AccountRef 7) adding_code 100000 5 300 =
         Ret (e', (ret, addr, leftOver, err))) /\
    0 <= leftOver <= 100000 /\ is_bytes ret /\ evm_ok e' /\
    e'.(depth) = 0 /\ e'.(readOnly) = false /\
    (IsHomestead chainConfig BlockNumber = true -> err <> None ->
       view e'.(evm_StateDB) ≡ view (caller_evm []).(evm_StateDB) \/
       view e'.(evm_StateDB) ≡ view (bumped (caller_evm []) (AccountRef 7))).
Proof.
  apply (contract_creations_end_safely jt (caller_evm []) (AccountRef 7) adding_code 100000 5 300).
  - by do 4 right.
  - apply caller_evm_ok, is_bytes_nil.
  - done.
  - done.
  - apply sample_bytes; [done|simpl; lia].
  - exact adding_creation_foreseen.
Defined.

(** A contract at the start of a run. *)
Definition sample_contract (code : list Z) (gas : Z) : Contract :=
  {| CallerAddress := 7; Machine.caller := AccountRef 7; self := AccountRef 99; Code := code;
     CodeHash := NewHash code; CodeAddr := Some 99; Input := []; Gas := gas;
     Machine.value := Some 0; DelegateCall_ := false |}.

Lemma sample_contract_ok code gas : is_bytes code -> 0 <= gas < max_gas ->
  contract_ok (sample_contract code gas).
Proof. intros Hc Hg. split; [done|by right|apply is_bytes_nil|done|by exists 0]. Qed.

(** The first instruction, whatever calls do *)
Lemma first_turn run : match step jt run (start (caller_evm adding_code) (sample_contract adding_code 100) []) with
  Ret (_, None) => true | _ => false end = true.
Proof. vm_compute. reflexivity. Qed.

Lemma first_turn_foreseen fuel : foreseen_turn jt fuel (start (caller_evm adding_code) (sample_contract adding_code 100) []).
Proof.
  split; [by vm_compute|]. pose proof (first_turn (watched_run fuel jt)) as H.
  change (NewEVMInterpreter jt) with jt. by destruct (step jt _ _) as [|[]|].
Qed.

Lemma runs_stay_within_limits_witness :
  exists r, step (NewEVMInterpreter jt)
    (run (Z.to_nat (enough_fuel 100)) (NewEVMInterpreter jt))
    (start (caller_evm adding_code) (sample_contract adding_code 100) []) = Ret r.
Proof.
  apply (runs_stay_within_limits jt (Z.to_nat (enough_fuel 100)) (caller_evm adding_code)
           (sample_contract adding_code 100) []).
  - by do 4 right.
  - apply caller_evm_ok, sample_bytes; [done|simpl; lia].
  - apply sample_contract_ok; [apply sample_bytes; [done|simpl; lia]|by vm_compute].
  - apply is_bytes_nil.
  - rewrite Z2Nat.id; [done|by vm_compute].
  - apply reaches_start.
  - apply first_turn_foreseen.
Defined.

Definition adding_frame : frame RefState.State RefState.Disk :=
  start (caller_evm adding_code) (sample_contract adding_code 100) [].

Lemma results_do_not_depend_on_fuel_witness :
  exists r r', interp 30 (NewEVMInterpreter jt) adding_frame = Ret r /\
    interp 40 (NewEVMInterpreter jt) adding_frame = Ret r' /\ r = r'.
Proof.
  destruct (interp 30 (NewEVMInterpreter jt) adding_frame) as [r|e|] eqn:E; [|by vm_compute in E..].
  destruct (interp 40 (NewEVMInterpreter jt) adding_frame) as [r'|e|] eqn:E'; [|by vm_compute in E'..].
  exists r, r'. split; [reflexivity|]. split; [reflexivity|].
  exact (results_do_not_depend_on_fuel jt 30 40 adding_frame r r'
    (or_intror (or_intror (or_intror (or_intror eq_refl)))) E E').
Defined.

Definition static_frame : frame RefState.State RefState.Disk :=
  {| pc := 4; contract := sample_contract storing_code 100; memory := Mem.NewMemory; stack := [0; 1];
     evm := set_readOnly (caller_evm storing_code) true |}.

Lemma static_runs_refuse_writes_witness :
  exists f' e, step newConstantinopleInstructionSet no_calls static_frame = Ret (f', Some ([], Some e)) /\
    f'.(contract) = static_frame.(contract).
Proof.
  destruct (static_runs_refuse_writes no_calls static_frame)
    as (f' & e & Hstep & _ & _ & _ & Hc & _); [done|done|done| | |].
  - apply (sample_bytes storing_code); [done|simpl; lia].
  - left. by left.
  - exists f', e. split; [exact Hstep|exact Hc].
Defined.

Lemma native_contracts_are_total_witness :
  exists g, modexp_RequiredGas (replicate 96 0 ++ [2]) = Ret g /\ 0 <= g /\
    (g < 2 ^ 62 -> exists r, modexp_Run (replicate 96 0 ++ [2]) = Ret r /\ is_bytes r.1).
Proof.
  apply (proj2 (native_contracts_are_total 5 (replicate 96 0 ++ [2])
    (sample_bytes (replicate 96 0 ++ [2]) eq_refl ltac:(simpl; lia))) bigModExp).
  done.
Defined.
End Witnesses.

(** * Where the node departs from the machine it means to be

    The theorems above leave out the runs that are not foreseen, and assume a
    state kept by one database.  These are the consequences of the places where
    dvm/dvm_helpers.go and the call instruction provide something else. *)

Section Difficulty.
Context {db disk : Type} {SDB : StateDB db} {QH : VMStateQueryHelper db disk} {CR : Crypto}
  {PL : PrecompileLib} {EN : Env}.

(** A node that leaves the difficulty of its context nil, as dvm_helpers.go
    does, panics on every contract whose first instruction is DIFFICULTY and
    whose gas pays for it, whichever of the four instruction tables it runs. *)
Theorem difficulty_panics_without_a_header (jt : Z -> operation db disk) fuel e c input code :
  jt = newFrontierInstructionSet \/ jt = newHomesteadInstructionSet \/
  jt = newByzantiumInstructionSet \/ jt = newConstantinopleInstructionSet ->
  Difficulty = None -> c.(Code) = DIFFICULTY :: code -> 2 <= c.(Gas) ->
  AbortAt e.(Ticks) = false ->
  Run (S fuel) jt e c input = Panic.
Proof.
  intros Hjt Hd Hc Hg Ha. unfold Run, Run_with. rewrite Hc. cbn [length Nat.eqb].
  cbn [interp]. unfold step. cbn [evm pc contract Ticks set_returnData set_depth].
  rewrite Ha. unfold GetOp, GetByte. cbn [set_evm set_Input contract Code pc].
  rewrite Hc, (proj2 (Z.ltb_lt _ _)) by (simpl; lia). cbn [lookup list_lookup Z.to_nat default].
  assert (Hop : jt DIFFICULTY = entry opDifficulty (constGasFunc GasQuickStep) (makeStackFunc 0 1) None).
  { by destruct Hjt as [->|[->|[->| ->]]]. }
  simpl (default 0 _). rewrite Hop. cbn [valid entry negb validateStack stack].
  change (makeStackFunc 0 1 []) with (@None vm_error). cbv iota.
  assert (Hr : forall ro s, enforceRestrictions ro DIFFICULTY
    (entry (db:=db) (disk:=disk) opDifficulty (constGasFunc GasQuickStep) (makeStackFunc 0 1) None) s
    = Ret None).
  { intros ro s. unfold enforceRestrictions. case_match; [|done]. by destruct ro. }
  rewrite Hr. cbn [mbind outcome_bind required_memory memorySize entry]. unfold perform.
  cbn [gasCost entry constGasFunc mret M_ret mbind outcome_bind]. unfold UseGas, GasQuickStep.
  cbn [set_evm set_Input contract Gas].
  rewrite (proj2 (Z.ltb_ge _ _)) by lia. cbn [execute entry]. unfold opDifficulty.
  unfold mbind, M_bind, outcome_bind, lift. by rewrite Hd.
Qed.
End Difficulty.

Section Examples.
Import RefState.

Lemma difficulty_panics_without_a_header_witness :
  Run (EN := sample_env None) 1 (newConstantinopleInstructionSet (EN := sample_env None))
    (sample_evm (sample_world [DIFFICULTY]) ∅)
    {| CallerAddress := 7; Machine.caller := AccountRef 7; self := AccountRef 99;
       Code := [DIFFICULTY]; CodeHash := NewHash [DIFFICULTY]; CodeAddr := Some 99; Input := [];
       Gas := 100; Machine.value := Some 0; DelegateCall_ := false |} [] = Panic.
Proof.
  apply (difficulty_panics_without_a_header (EN := sample_env None) _ 0 _ _ [] []);
    [by do 3 right|done|done|simpl; lia|done].
Defined.

#[local] Existing Instance node_env.

(** The slot of a contract on disk. *)
Definition disk_slot (e : EVM State Disk) (contract slot : Z) : option Z :=
  h ← e.(evm_Helper);
  w ← (h : Disk) !! contract;
  x ← w.(accounts) !! contract;
  x.(storage) !! slot.

Definition reverting_evm : EVM State Disk :=
  sample_evm (sample_world calling_code) {[ 50 := world_of [(50, account 0 storing_code)] ]}.

(** The call instruction commits the callee's state to disk at once, so a
    caller that reverts afterwards undoes its own state but not its callee's: the
    slot the callee wrote is on disk although the message call was reverted. *)
Theorem nested_effects_survive_a_revert :
  match Call (run 40 newConstantinopleInstructionSet) reverting_evm (AccountRef 7) 99 [] 100000 0 with
  | Ret (e', (_, _, err)) =>
      err = Some ErrExecutionReverted
      /\ e'.(evm_StateDB).(world) = reverting_evm.(evm_StateDB).(world)
      /\ disk_slot reverting_evm 50 0 = None
      /\ disk_slot e' 50 0 = Some 1
  | _ => False
  end.
Proof. vm_compute. done. Qed.

(** At the first Byzantium block, where dvm_helpers.go puts the node, the
    Constantinople instruction table is used with a gas table that has no price
    for EXTCODEHASH: the operation is free in every frame. *)
Theorem extcodehash_is_free_on_the_node memsz (f : frame State Disk) :
  (NewEVMInterpreter newConstantinopleInstructionSet EXTCODEHASH).(gasCost)
    interpreter_gasTable memsz f = Ret (f, (0, None)).
Proof. done. Qed.
End Examples.
