(* ===== verification/StateTransition.v ===== *)
(** * State transitions

    dvm/ethereum/gaspool.go and state_transition.go: what applying one message to the
    state does around the machine, from buying gas to the refund.

    [GetRefund] gives a uint64, whatever the state is; a pool is the uint64 its pointer
    points to.  Debug output is left out. *)
From Stdlib Require Import ZArith Lia.
From S2P Require Import Prelude Word Config OpCodes Analysis Machine Gas Calls Instructions.
From S2P Require Import JumpTable Precompiles Interpreter StateSpec Invariant Safety CallSafety.
From S2P Require Import GasSafety TableSafety PrecompileSafety Execution Sample Evm.
Open Scope Z_scope.

(** ** Gas pools *)
Module GasPool.

(** A panic above the largest uint64 *)
Definition AddGas (gp amount : Z) : option Z := if u64 (MaxUint64 - amount) <? gp then None else Some (u64 (gp + amount)).

(** [None] is [ErrGasLimitReached]. *)
Definition SubGas (gp amount : Z) : option Z := if gp <? amount then None else Some (u64 (gp - amount)).

Definition Gas (gp : Z) : Z := gp.

End GasPool.

(** ** Messages: types/transaction.go *)
Module Message.

(** Without a recipient a message creates a contract. *)
Record t := {
  From : AddressBytes; To : option AddressBytes; GasPrice : Z; Gas : Z; Value : Z;
  Nonce : Z; CheckNonce : bool; Data : list Z
}.

Definition NewMessage (from : AddressBytes) (to : option AddressBytes) (nonce amount gasLimit gasPrice : Z)
    (data : list Z) (checkNonce : bool) : t :=
  {| From := from; To := to; GasPrice := gasPrice; Gas := gasLimit; Value := amount;
     Nonce := nonce; CheckNonce := checkNonce; Data := data |}.

End Message.

(** ** What a message costs before it runs *)
Definition nonzero (data : list Z) : Z := Z.of_nat (length (filter (fun b => b <> 0) data)).

(** [None] is out of gas. *)
Definition IntrinsicGas (data : list Z) (contractCreation homestead : bool) : option Z :=
  let gas := if contractCreation && homestead then Params.TxGasContractCreation else Params.TxGas in
  if (length data =? 0)%nat then Some gas
  else
    let nz := nonzero data in
    if u64 (MaxUint64 - gas) / Params.TxDataNonZeroGas <? nz then None
    else
      let gas := u64 (gas + u64 (nz * Params.TxDataNonZeroGas)) in
      let z := u64 (Z.of_nat (length data) - nz) in
      if u64 (MaxUint64 - gas) / Params.TxDataZeroGas <? z then None
      else Some (u64 (gas + u64 (z * Params.TxDataZeroGas))).

Inductive tx_error :=
  | errInsufficientBalanceForGas | ErrGasLimitReached | ErrNonceTooHigh | ErrNonceTooLow | VMError (e : vm_error).

(** ** The transition *)
Section Transition.
Context {db disk : Type} {SDB : StateDB db} {QH : VMStateQueryHelper db disk} {CR : Crypto} {EN : Env}.
Abbreviation EVM := (EVM db disk).

(** [gasPrice], [value], [data] and [state] are those of the message and of the machine. *)
Record StateTransition := { gp : Z; msg : Message.t; gas : Z; initialGas : Z; st_evm : EVM }.

Definition NewStateTransition (evm : EVM) (msg : Message.t) (gp : Z) : StateTransition :=
  {| gp := gp; msg := msg; gas := 0; initialGas := 0; st_evm := evm |}.

Definition state (st : StateTransition) : db := st.(st_evm).(evm_StateDB).

Definition with_gas (st : StateTransition) (g : Z) : StateTransition :=
  {| gp := st.(gp); msg := st.(msg); gas := g; initialGas := st.(initialGas); st_evm := st.(st_evm) |}.
Definition with_evm (st : StateTransition) (e : EVM) : StateTransition :=
  {| gp := st.(gp); msg := st.(msg); gas := st.(gas); initialGas := st.(initialGas); st_evm := e |}.
Definition with_gp (st : StateTransition) (p : Z) : StateTransition :=
  {| gp := p; msg := st.(msg); gas := st.(gas); initialGas := st.(initialGas); st_evm := st.(st_evm) |}.
Definition with_state (st : StateTransition) (s : db) : StateTransition := with_evm st (set_StateDB st.(st_evm) s).

Definition to (st : StateTransition) : AddressBytes := default 0 st.(msg).(Message.To).

Definition useGas (st : StateTransition) (amount : Z) : StateTransition + tx_error :=
  if st.(gas) <? amount then inr (VMError ErrOutOfGas) else inl (with_gas st (u64 (st.(gas) - amount))).

Definition buyGas (st : StateTransition) : StateTransition * option tx_error :=
  let m := st.(msg) in
  let mgval := m.(Message.Gas) * m.(Message.GasPrice) in
  if GetBalance (state st) m.(Message.From) <? mgval then (st, Some errInsufficientBalanceForGas)
  else match GasPool.SubGas st.(gp) m.(Message.Gas) with
       | None => (st, Some ErrGasLimitReached)
       | Some p =>
           ({| gp := p; msg := m; gas := u64 (st.(gas) + m.(Message.Gas)); initialGas := m.(Message.Gas);
               st_evm := set_StateDB st.(st_evm) (SubBalance (state st) m.(Message.From) mgval) |}, None)
       end.

Definition preCheck (st : StateTransition) : StateTransition * option tx_error :=
  let m := st.(msg) in
  let nonce := GetNonce (state st) m.(Message.From) in
  if m.(Message.CheckNonce) && (nonce <? m.(Message.Nonce)) then (st, Some ErrNonceTooHigh)
  else if m.(Message.CheckNonce) && (m.(Message.Nonce) <? nonce) then (st, Some ErrNonceTooLow)
  else buyGas st.

Definition gasUsed (st : StateTransition) : Z := u64 (st.(initialGas) - st.(gas)).

Definition refundGas (st : StateTransition) : option StateTransition :=
  let refund := gasUsed st / 2 in
  let counter := u64 (GetRefund (state st)) in
  let refund := if counter <? refund then counter else refund in
  let st := with_gas st (u64 (st.(gas) + refund)) in
  let remaining := st.(gas) * st.(msg).(Message.GasPrice) in
  let st := with_state st (AddBalance (state st) st.(msg).(Message.From) remaining) in
  p ← GasPool.AddGas st.(gp) st.(gas); Some (with_gp st p).

(** What [TransitionDb] returns beside the transition itself *)
Record result := {
  ret : list Z; contractAddress : AddressBytes; usedGas : Z; failed : bool; err : option tx_error
}.

Definition no_result (address : AddressBytes) (e : tx_error) : result :=
  {| ret := []; contractAddress := address; usedGas := 0; failed := false; err := Some e |}.

(** The nonce of the sender is set from the state. *)
Definition next_nonce (s : db) (from : AddressBytes) : db := SetNonce s from (u64 (GetNonce s from + 1)).

Section WithRun.
Variable run : recursor db disk.

(** Running the message: what [Create] or [Call] return, with the next nonce *)
Definition execute_message (st : StateTransition)
    : outcome nofuel (StateTransition * (list Z * AddressBytes * option vm_error)) :=
  let m := st.(msg) in
  let sender := AccountRef m.(Message.From) in
  match m.(Message.To) with
  | None =>
      '(e, (ret, address, leftOver, vmerr)) ← Create run st.(st_evm) sender m.(Message.Data) st.(gas) m.(Message.Value);
      let st := with_gas (with_evm st e) leftOver in
      Ret (with_state st (next_nonce (state st) m.(Message.From)), (ret, address, vmerr))
  | Some _ =>
      let st := with_state st (next_nonce (state st) m.(Message.From)) in
      '(e, (ret, leftOver, vmerr)) ← Call run st.(st_evm) sender (to st) m.(Message.Data) st.(gas) m.(Message.Value);
      Ret (with_gas (with_evm st e) leftOver, (ret, 0, vmerr))
  end.

Definition TransitionDb (st : StateTransition) : outcome nofuel (StateTransition * result) :=
  let m := st.(msg) in
  match preCheck st with
  | (st, Some e) => Ret (st, no_result 0 e)
  | (st, None) =>
      let contractCreation := bool_decide (m.(Message.To) = None) in
      match IntrinsicGas m.(Message.Data) contractCreation (IsHomestead chainConfig BlockNumber) with
      | None => Ret (st, no_result 0 (VMError ErrOutOfGas))
      | Some g =>
          match useGas st g with
          | inr e => Ret (st, no_result 0 e)
          | inl st =>
              '(st, (ret, address, vmerr)) ← execute_message st;
              if bool_decide (vmerr = Some ErrInsufficientBalance)
              then Ret (st, no_result address (VMError ErrInsufficientBalance))
              else
                st ← or_panic (refundGas st);
                let st := with_state st (AddBalance (state st) Coinbase (gasUsed st * m.(Message.GasPrice))) in
                Ret (st, {| ret := ret; contractAddress := address; usedGas := gasUsed st;
                            failed := bool_decide (is_Some vmerr); err := VMError <$> vmerr |})
          end
      end
  end.

Definition ApplyMessage (evm : EVM) (msg : Message.t) (gp : Z) : outcome nofuel (StateTransition * result) :=
  TransitionDb (NewStateTransition evm msg gp).
End WithRun.
End Transition.

(** ** What applying a message guarantees

    The intrinsic gas is the sum it stands for wherever that fits, and every message
    ends with its gas accounted for. *)

(** ** Intrinsic gas *)
Definition intrinsic (data : list Z) (contractCreation homestead : bool) : Z :=
  (if contractCreation && homestead then Params.TxGasContractCreation else Params.TxGas) +
  68 * nonzero data + 4 * (Z.of_nat (length data) - nonzero data).

Lemma nonzero_range data : 0 <= nonzero data <= Z.of_nat (length data).
Proof. unfold nonzero. pose proof (length_filter (fun b : Z => b <> 0) data). lia. Qed.

Lemma div_lt_iff a b n : 0 < b -> (a / b <? n) = (a <? b * n).
Proof.
  intros Hb. apply Bool.eq_iff_eq_true. rewrite !Z.ltb_lt. split; intros H.
  - pose proof (Z.mul_succ_div_gt a b Hb). nia.
  - apply Z.div_lt_upper_bound; lia.
Qed.

Lemma IntrinsicGas_spec data c h : Z.of_nat (length data) < 2 ^ 62 ->
  IntrinsicGas data c h = if intrinsic data c h <=? MaxUint64 then Some (intrinsic data c h) else None.
Proof.
  intros Hl. unfold IntrinsicGas, intrinsic. pose proof (nonzero_range data) as Hn.
  set (base := if c && h then _ else _).
  assert (Hb : 0 <= base < 2 ^ 16) by (subst base; by destruct c, h).
  unfold MaxUint64, Params.TxDataNonZeroGas, Params.TxDataZeroGas in *.
  destruct data as [|x data]; [change (nonzero []) with 0 in *; cbn [length Nat.eqb]; rewrite (proj2 (Z.leb_le _ _)) by (simpl; lia); f_equal; simpl; lia|].
  set (nz := nonzero (x :: data)) in *. set (n := Z.of_nat (length (x :: data))) in *. cbn [length Nat.eqb].
  rewrite (u64_id (2 ^ 64 - 1 - base)) by (unfold is_u64; lia). rewrite div_lt_iff by lia.
  case_match eqn:E1; [apply Z.ltb_lt in E1 | apply Z.ltb_ge in E1].
  { by rewrite (proj2 (Z.leb_gt _ _)) by lia. }
  rewrite (u64_id (nz * 68)) by (unfold is_u64; lia). rewrite (u64_id (base + nz * 68)) by (unfold is_u64; lia).
  rewrite (u64_id (n - nz)) by (unfold is_u64; lia). rewrite (u64_id (2 ^ 64 - 1 - _)) by (unfold is_u64; lia).
  rewrite div_lt_iff by lia.
  case_match eqn:E2; [apply Z.ltb_lt in E2 | apply Z.ltb_ge in E2].
  { by rewrite (proj2 (Z.leb_gt _ _)) by lia. }
  rewrite (u64_id ((n - nz) * 4)) by (unfold is_u64; lia). rewrite u64_id by (unfold is_u64; lia).
  rewrite (proj2 (Z.leb_le _ _)) by lia. f_equal. lia.
Qed.

(** ** The gas of a transition *)
Section Transition.
Context {db disk : Type} {SDB : StateDB db} {QH : VMStateQueryHelper db disk} {CR : Crypto}
  {PL : PrecompileLib} {EN : Env} {laws : StateLaws db disk} {CU : CodesInUse} {EO : EnvOk} {PLaws : PrecompileLaws}.
Abbreviation EVM := (EVM db disk).
Implicit Types (e : EVM) (st : StateTransition (db:=db) (disk:=disk)).

Record message_ok (m : Message.t) : Prop := {
  message_gas : 0 <= m.(Message.Gas) < max_gas;
  message_price : 0 <= m.(Message.GasPrice);
  message_value : 0 <= m.(Message.Value);
  message_data : is_bytes m.(Message.Data)
}.

(** The sender pays nothing, and the pool is as it was. *)
Definition refused (m : Message.t) (gp0 : Z) e0 (r : StateTransition (db:=db) (disk:=disk) * result) : Prop :=
  let '(st, res) := r in
  st.(gp) = gp0 /\ st.(st_evm) = e0 /\ usedGas res = 0 /\ failed res = false /\
  (err res = Some ErrNonceTooHigh /\ m.(Message.CheckNonce) = true /\ GetNonce e0.(evm_StateDB) m.(Message.From) < m.(Message.Nonce) \/
   err res = Some ErrNonceTooLow /\ m.(Message.CheckNonce) = true /\ m.(Message.Nonce) < GetNonce e0.(evm_StateDB) m.(Message.From) \/
   err res = Some errInsufficientBalanceForGas /\ GetBalance e0.(evm_StateDB) m.(Message.From) < m.(Message.Gas) * m.(Message.GasPrice) \/
   err res = Some ErrGasLimitReached /\ gp0 < m.(Message.Gas)).

(** The gas is bought and nothing of it comes back. *)
Definition abandoned (m : Message.t) (gp0 : Z) (r : StateTransition (db:=db) (disk:=disk) * result) : Prop :=
  let '(st, res) := r in
  st.(gp) = gp0 - m.(Message.Gas) /\ usedGas res = 0 /\ failed res = false /\ ret res = [] /\
  (err res = Some (VMError ErrOutOfGas) /\
     m.(Message.Gas) < intrinsic m.(Message.Data) (bool_decide (m.(Message.To) = None)) (IsHomestead chainConfig BlockNumber) \/
   err res = Some (VMError ErrInsufficientBalance)).

(** The message ran: the pool is down by the gas used, which is at least half of the intrinsic gas, and at most
    what the message brought. *)
Definition settled (m : Message.t) (gp0 : Z) (r : StateTransition (db:=db) (disk:=disk) * result) : Prop :=
  let '(st, res) := r in
  let g := intrinsic m.(Message.Data) (bool_decide (m.(Message.To) = None)) (IsHomestead chainConfig BlockNumber) in
  st.(gp) = gp0 - usedGas res /\ g - g / 2 <= usedGas res <= m.(Message.Gas) /\ is_bytes (ret res) /\
  failed res = bool_decide (is_Some (err res)) /\ err res <> Some (VMError ErrInsufficientBalance) /\
  forall x, err res = Some x -> exists v, x = VMError v.

Definition transition_post (m : Message.t) (gp0 : Z) e0 (r : StateTransition (db:=db) (disk:=disk) * result) : Prop :=
  evm_ok r.1.(st_evm) /\ r.1.(st_evm).(depth) = e0.(depth) /\ r.1.(st_evm).(readOnly) = e0.(readOnly) /\
  (refused m gp0 e0 r \/ abandoned m gp0 r \/ settled m gp0 r).

Lemma preCheck_spec m gp0 e : evm_ok e -> message_ok m -> is_u64 gp0 ->
  (exists x, preCheck (NewStateTransition e m gp0) = (NewStateTransition e m gp0, Some x) /\
     refused m gp0 e (NewStateTransition e m gp0, no_result 0 x)) \/
  (exists s, preCheck (NewStateTransition e m gp0) =
       ({| gp := gp0 - m.(Message.Gas); msg := m; gas := m.(Message.Gas); initialGas := m.(Message.Gas);
           st_evm := set_StateDB e s |}, None) /\ m.(Message.Gas) <= gp0 /\
     evm_ok (set_StateDB e s) /\ evm_rel e (set_StateDB e s)).
Proof.
  intros He [Hg Hp Hv Hd] Hgp. unfold max_gas, is_u64 in *. unfold preCheck, buyGas, state, NewStateTransition. cbn [msg st_evm gp gas].
  case_match eqn:E1. { apply andb_prop in E1 as [? E1%Z.ltb_lt]. left. eexists. split; [done|]. split_and!; try done. by left. }
  case_match eqn:E2. { apply andb_prop in E2 as [? E2%Z.ltb_lt]. left. eexists. split; [done|]. split_and!; try done. by right; left. }
  case_match eqn:E3. { apply Z.ltb_lt in E3. left. eexists. split; [done|]. split_and!; try done. by do 2 right; left. }
  apply Z.ltb_ge in E3. unfold GasPool.SubGas.
  case_match eqn:E4; case_match eqn:E5; simplify_eq.
  - apply Z.ltb_ge in E5. right. eexists. rewrite !u64_id by (unfold is_u64; lia). split; [done|]. split; [done|].
    apply evm_mutate; [done|]. apply mut_SubBalance. nia.
  - apply Z.ltb_lt in E5. left. eexists. split; [done|]. split_and!; try done. by do 3 right.
Qed.

Lemma evm_rel_trans' e1 e2 e3 : evm_rel e1 e2 -> evm_rel e2 e3 -> evm_rel e1 e3.
Proof. intros H1 H2. by etrans. Qed.

Lemma next_nonce_ok e from : evm_ok e -> evm_ok (set_StateDB e (next_nonce e.(evm_StateDB) from)) /\
  evm_rel e (set_StateDB e (next_nonce e.(evm_StateDB) from)).
Proof. intros He. apply evm_mutate; [done|]. apply mut_SetNonce. Qed.

Section WithRun.
Context (limit : Z) (run : recursor db disk) (Hrun : recursor_ok limit run).

Lemma execute_message_ok st : evm_ok st.(st_evm) -> message_ok st.(msg) -> 0 <= st.(gas) < max_gas -> st.(gas) <= limit ->
  wp (execute_message run st) (fun r =>
    let '(st', (ret, address, err)) := r in
    evm_ok st'.(st_evm) /\ evm_rel st.(st_evm) st'.(st_evm) /\ 0 <= st'.(gas) <= st.(gas) /\ is_bytes ret /\
    st'.(gp) = st.(gp) /\ st'.(msg) = st.(msg) /\ st'.(initialGas) = st.(initialGas)).
Proof.
  intros He [_ _ Hv Hd] Hg Hl. unfold execute_message. case_match.
  - unfold state, with_state, with_evm, with_gas. cbn [st_evm gas gp msg initialGas].
    destruct (next_nonce_ok _ (Message.From (msg st)) He) as [He1 Hr1]. apply wp_bind.
    eapply wp_mono; [apply (Call_ok limit run Hrun); try done|].
    intros [e' [[ret leftOver] err]] (He' & Hr & Hlo & Hb & _). cbn [st_evm gas gp msg initialGas wp].
    split_and!; try done; try lia. by etrans.
  - apply wp_bind. eapply wp_mono; [apply (create_ok limit run Hrun); try done|].
    intros [e' [[[ret addr] leftOver] err]] (He' & Hr & Hlo & Hb & _).
    unfold state, with_state, with_evm, with_gas. cbn [st_evm gas gp msg initialGas wp].
    destruct (next_nonce_ok _ (Message.From (msg st)) He') as [He1 Hr1].
    split_and!; try done; try lia. by etrans.
Qed.

(** At most half of what was used comes back. *)
Lemma refundGas_ok st : evm_ok st.(st_evm) -> 0 <= st.(msg).(Message.GasPrice) -> 0 <= st.(gas) <= st.(initialGas) ->
  st.(initialGas) < max_gas -> 0 <= st.(gp) -> st.(gp) + st.(initialGas) < 2 ^ 64 ->
  exists st', refundGas st = Some st' /\ evm_ok st'.(st_evm) /\ evm_rel st.(st_evm) st'.(st_evm) /\
    st'.(initialGas) = st.(initialGas) /\ st'.(gp) = st.(gp) + st'.(gas) /\
    st.(gas) <= st'.(gas) <= st.(gas) + (st.(initialGas) - st.(gas)) / 2.
Proof.
  intros He Hp Hg Hi Hgp Hsum. unfold max_gas in *. unfold refundGas, gasUsed, with_gas, with_state, with_evm, with_gp, state.
  cbn [st_evm gas gp msg initialGas]. rewrite (u64_id (initialGas st - gas st)) by (unfold is_u64; lia).
  set (counter := u64 (GetRefund _)). assert (Hc : is_u64 counter) by apply u64_range. unfold is_u64 in Hc.
  set (half := (initialGas st - gas st) / 2). assert (Hhalf : 0 <= half <= initialGas st - gas st).
  { subst half. split; [apply Z.div_pos; lia|]. apply Z.div_le_upper_bound; lia. }
  set (refund := if counter <? half then counter else half).
  assert (Hr : 0 <= refund <= half) by (subst refund; case_match eqn:E; [apply Z.ltb_lt in E|]; lia).
  rewrite (u64_id (gas st + refund)) by (unfold is_u64; lia). unfold GasPool.AddGas, MaxUint64.
  rewrite (u64_id (2 ^ 64 - 1 - _)) by (unfold is_u64; lia).
  rewrite (proj2 (Z.ltb_ge _ _)) by lia. rewrite (u64_id (gp st + _)) by (unfold is_u64; lia).
  destruct (evm_mutate (st_evm st) _ He (mut_AddBalance _ (Message.From (msg st)) ((gas st + refund) * Message.GasPrice (msg st)) ltac:(nia))) as [He' Hr'].
  eexists. split; [done|]. cbn [st_evm gas gp msg initialGas]. split_and!; try done; lia.
Qed.

Lemma TransitionDb_ok m gp0 e : evm_ok e -> message_ok m -> is_u64 gp0 -> m.(Message.Gas) <= limit ->
  wp (ApplyMessage run e m gp0) (transition_post m gp0 e).
Proof.
  intros He Hm Hgp Hl. pose proof Hm as [Hg Hp Hv Hd]. unfold ApplyMessage, TransitionDb. cbn [msg NewStateTransition].
  destruct (preCheck_spec m gp0 e He Hm Hgp) as [(x & -> & Hx)|(s & -> & Hle & He1 & Hr1)].
  { cbn [wp]. unfold transition_post. cbn. split_and!; try done. by left. }
  destruct Hr1 as [Hdep Hro _]. rewrite IntrinsicGas_spec by apply Hd.
  set (g := intrinsic _ _ _). assert (Hg0 : 21000 <= g).
  { subst g. unfold intrinsic. pose proof (nonzero_range m.(Message.Data)). unfold Params.TxGas, Params.TxGasContractCreation.
    case_match; lia. }
  assert (Hab : forall x, x = ErrOutOfGas -> m.(Message.Gas) < g ->
    transition_post m gp0 e ({| gp := gp0 - m.(Message.Gas); msg := m; gas := m.(Message.Gas); initialGas := m.(Message.Gas);
      st_evm := set_StateDB e s |}, no_result 0 (VMError x))).
  { intros x -> Hlt. unfold transition_post. cbn. split_and!; try done. right; left. split_and!; try done. by left. }
  unfold max_gas, MaxUint64 in *. destruct (g <=? 2 ^ 64 - 1) eqn:E1; [apply Z.leb_le in E1 | apply Z.leb_gt in E1; apply Hab; [done|lia]].
  unfold useGas. cbn [gas]. destruct (Message.Gas m <? g) eqn:E2; [apply Z.ltb_lt in E2; by apply Hab|apply Z.ltb_ge in E2].
  rewrite u64_id by (unfold is_u64; lia). unfold with_gas. cbn [gp msg gas initialGas st_evm].
  apply wp_bind. eapply wp_mono; [apply execute_message_ok; cbn; try done; unfold max_gas; lia|].
  intros [st' [[ret address] vmerr]] (He2 & Hr2 & Hgas & Hret & Hgp' & Hmsg' & Hini). cbn in Hr2, Hgas, Hgp', Hmsg', Hini.
  pose proof Hr2 as [Hdep2 Hro2 _]. cbn in Hdep2, Hro2.
  case_bool_decide as Hins.
  { unfold transition_post. cbn [wp fst]. split; [done|]. split; [congruence|]. split; [congruence|].
    right; left. cbn. split_and!; try done. by right. }
  destruct (refundGas_ok st') as (st2 & -> & He3 & [Hdep3 Hro3 _] & Hini2 & Hgp2 & Hgas2); [done|by rewrite Hmsg'|lia|unfold max_gas; lia|unfold is_u64 in *; lia|unfold is_u64 in *; lia|].
  cbn [or_panic mbind outcome_bind wp]. unfold gasUsed, with_state, with_evm, state. cbn [gp msg gas initialGas st_evm].
  assert (Hhalf : 2 * ((initialGas st' - gas st') / 2) <= initialGas st' - gas st') by (apply Z.mul_div_le; lia).
  assert (Hhg : g / 2 * 2 <= g) by (rewrite Z.mul_comm; apply Z.mul_div_le; lia).
  assert (Hg2 : g < 2 * (g / 2) + 2) by (pose proof (Z.mul_succ_div_gt g 2); lia).
  rewrite Hini2, Hini in *. rewrite u64_id by (unfold is_u64; lia).
  destruct (evm_mutate (st_evm st2) _ He3 (mut_AddBalance _ Coinbase ((Message.Gas m - gas st2) * Message.GasPrice m) ltac:(nia))) as [He4 _].
  unfold transition_post. cbn [fst st_evm]. split; [done|]. split; [cbn; congruence|]. split; [cbn; congruence|]. right; right.
  unfold settled. cbn [gp usedGas StateTransition.ret failed err]. fold g. clearbody g. split_and!; try done.
  - lia.
  - lia.
  - lia.
  - by destruct vmerr.
  - destruct vmerr; [|done]. simpl. intros [= ->]. done.
  - intros x Hx. destruct vmerr; [|done]. simpl in Hx. injection Hx as <-. eauto.
Qed.
End WithRun.

Lemma execute_message_le run run' st : run_le run run' -> outcome_le (execute_message run st) (execute_message run' st).
Proof.
  intros Hrun. unfold execute_message. case_match; apply bind_le.
  - by apply Call_le.
  - reflexivity.
  - by apply create_le.
  - reflexivity.
Qed.

Lemma ApplyMessage_le run run' m gp0 e : run_le run run' -> outcome_le (ApplyMessage run e m gp0) (ApplyMessage run' e m gp0).
Proof.
  intros Hrun. unfold ApplyMessage, TransitionDb. cbn zeta. destruct (preCheck _) as [st [x|]]; [reflexivity|].
  destruct (IntrinsicGas _ _ _); [|reflexivity]. destruct (useGas st z); [|reflexivity].
  apply bind_le; [by apply execute_message_le|reflexivity].
Qed.

(** C20: Applying a message with less than 2^62 gas, in an environment with a gas price and a block number,
    returns, with enough fuel and whatever the code it runs, unless it
    executes DIFFICULTY in an environment that has none - as the service's has none - or two codes that share a hash.
    Either it is refused, for the reason the error names, with state and pool untouched; or the gas it brought does
    not cover its intrinsic gas or its transfer has no balance behind it, and all of it is gone; or it ran, and the
    gas used is between half the intrinsic gas and what the message brought and is what the pool is short of. *)
Theorem transitions_account_for_gas cfg (e : EVM) (m : Message.t) (gp0 : Z) (Hcfg : configured cfg)
    (He : evm_ok e) (Hm : message_ok m) (Hgp : is_u64 gp0)
    (Hfs : foreseen_run cfg m.(Message.Gas) (fun run => ApplyMessage run e m gp0)) :
  exists st res,
    (forall fuel, enough_fuel m.(Message.Gas) <= Z.of_nat fuel ->
       ApplyMessage (run fuel (NewEVMInterpreter cfg)) e m gp0 = Ret (st, res)) /\
    evm_ok st.(st_evm) /\ st.(st_evm).(depth) = e.(depth) /\ st.(st_evm).(readOnly) = e.(readOnly) /\
    (refused m gp0 e (st, res) \/ abandoned m gp0 (st, res) \/ settled m gp0 (st, res)).
Proof.
  destruct (stable_run cfg m.(Message.Gas) (fun run => ApplyMessage run e m gp0) (transition_post m gp0 e))
    as ([st res] & Hpost & Hrun); [done| | |done|].
  - intros r r'. apply ApplyMessage_le.
  - intros r Hr. by apply (TransitionDb_ok m.(Message.Gas)).
  - exists st, res. split; [exact Hrun|exact Hpost].
Qed.
End Transition.

Section Witness.
Import RefState.
#[local] Existing Instance bare_env.
#[local] Instance bare_env_ok : EnvOk := sample_env_ok None.

(** A call of the contract that adds, with gas to spare *)
Definition adding_message : Message.t := Message.NewMessage 7 (Some 99) 0 0 (10 ^ 12) 0 [1; 0] false.

Lemma adding_message_foreseen :
  foreseen_run newConstantinopleInstructionSet (10 ^ 12) (fun run => ApplyMessage run (caller_evm adding_code) adding_message (10 ^ 12)).
Proof.
  apply (foreseen_when newConstantinopleInstructionSet (10 ^ 12) _ 20); [by do 4 right| |by vm_compute|vm_cast_no_check (eq_refl true)].
  intros run run'. apply ApplyMessage_le.
Qed.

Lemma transitions_account_for_gas_witness : exists st res,
  (forall fuel, enough_fuel (10 ^ 12) <= Z.of_nat fuel ->
     ApplyMessage (run fuel (NewEVMInterpreter newConstantinopleInstructionSet)) (caller_evm adding_code) adding_message (10 ^ 12) = Ret (st, res)) /\
  evm_ok st.(st_evm) /\ st.(st_evm).(depth) = 0 /\ st.(st_evm).(readOnly) = false /\
  (refused adding_message (10 ^ 12) (caller_evm adding_code) (st, res) \/ abandoned adding_message (10 ^ 12) (st, res) \/
   settled adding_message (10 ^ 12) (st, res)).
Proof.
  apply (transitions_account_for_gas newConstantinopleInstructionSet (caller_evm adding_code) adding_message (10 ^ 12)).
  - by do 4 right.
  - apply caller_evm_ok. apply sample_bytes; [done|simpl; lia].
  - split; simpl; try lia; [unfold max_gas; lia|]. apply sample_bytes; [done|simpl; lia].
  - unfold is_u64. lia.
  - exact adding_message_foreseen.
Defined.
End Witness.
