(* ===== verification/Hex.v ===== *)
(** * Hexadecimal addresses and hashes

    commons/crypto/common.go: the text form of addresses and hashes, and the way
    back.  A Go string is the list of its bytes.  [hex_Encode] and
    [hex_DecodeString] are [encoding/hex] of the Go library. *)
From Stdlib Require Import ZArith Lia.
From S2P Require Import Prelude Word.
Import Big.
Open Scope Z_scope.

(** ** [encoding/hex] *)
Definition hexdigit (n : Z) : Z := if n <? 10 then 48 + n else 97 + (n - 10).

Definition hex_Encode (b : list Z) : list Z :=
  b ≫= (fun x => [hexdigit (Z.shiftr x 4); hexdigit (Z.land x 15)]).

Definition fromHexChar (c : Z) : option Z :=
  if (48 <=? c) && (c <=? 57) then Some (c - 48)
  else if (97 <=? c) && (c <=? 102) then Some (c - 97 + 10)
  else if (65 <=? c) && (c <=? 70) then Some (c - 65 + 10)
  else None.

(** The bytes decoded before the first error, and whether there was one. *)
Fixpoint hex_DecodeString (s : list Z) : list Z * bool :=
  match s with
  | [] => ([], false)
  | [_] => ([], true)
  | a :: b :: s' =>
      match fromHexChar a, fromHexChar b with
      | Some x, Some y =>
          let '(bs, err) := hex_DecodeString s' in (Z.lor (Z.shiftl x 4) y :: bs, err)
      | _, _ => ([], true)
      end
  end.

(** [strings.TrimSpace] leaves nothing of a string of white space, here in the
    UTF-8 encoding of [unicode.IsSpace]. *)
Fixpoint blank (s : list Z) : bool :=
  match s with
  | [] => true
  | 9 :: s' | 10 :: s' | 11 :: s' | 12 :: s' | 13 :: s' | 32 :: s' => blank s'
  | 0xC2 :: 0x85 :: s' | 0xC2 :: 0xA0 :: s' => blank s'
  | 0xE1 :: 0x9A :: 0x80 :: s' | 0xE2 :: 0x81 :: 0x9F :: s' | 0xE3 :: 0x80 :: 0x80 :: s' => blank s'
  | 0xE2 :: 0x80 :: c :: s' =>
      (((0x80 <=? c) && (c <=? 0x8A)) || (c =? 0xA8) || (c =? 0xA9) || (c =? 0xAF)) && blank s'
  | _ => false
  end.

(** ** common.go *)
Definition Encode (b : list Z) : list Z := 48 :: 120 :: hex_Encode b.
Definition EncodeNo0x (b : list Z) : list Z := hex_Encode b.

Definition Hex2Bytes (str : list Z) : list Z := (hex_DecodeString str).1.

Definition FromHex (s : list Z) : list Z :=
  let s := match s with
           | 48 :: c :: s' => if (c =? 120) || (c =? 88) then s' else s
           | _ => s
           end in
  let s := if Nat.odd (length s) then 48 :: s else s in
  Hex2Bytes s.

Definition HexToHash (s : list Z) : HashBytes := BytesToHash (FromHex s).

(** A decoding error is only logged; fewer than twenty decoded bytes make the
    slice expression panic. *)
Definition GetAddressBytes (value : list Z) : option AddressBytes :=
  if blank value then Some 0
  else
    let bytes := (hex_DecodeString value).1 in
    if (length bytes <? AddressLength)%nat then None
    else Some (be_int (drop (length bytes - AddressLength) bytes)).

Definition GetHashBytes (value : list Z) : HashBytes :=
  let bytes := (hex_DecodeString value).1 in
  if (HashLength <? length bytes)%nat
  then be_int (drop (length bytes - HashLength) bytes) else be_int bytes.

(** ** Decoding undoes encoding *)
Lemma fromHexChar_hexdigit n : 0 <= n < 16 -> fromHexChar (hexdigit n) = Some n.
Proof.
  intros Hn. assert (Hall : Forall (fun n => fromHexChar (hexdigit n) = Some n)
    (Z.of_nat <$> seq 0 16)) by (repeat constructor).
  rewrite Forall_forall in Hall. apply Hall. apply list_elem_of_fmap. exists (Z.to_nat n).
  split; [lia|]. apply elem_of_seq. lia.
Qed.

Lemma nibbles x : 0 <= x < 256 ->
  Z.lor (Z.shiftl (Z.shiftr x 4) 4) (Z.land x 15) = x /\
  0 <= Z.shiftr x 4 < 16 /\ 0 <= Z.land x 15 < 16.
Proof.
  intros Hx. change 15 with (Z.ones 4). rewrite Z.land_ones, Z.shiftr_div_pow2 by lia.
  split; [|pose proof (Z.div_mod x (2 ^ 4)); pose proof (Z.mod_pos_bound x (2 ^ 4)); lia].
  rewrite <- Z.shiftr_div_pow2, <- Z.land_ones, <- Z.ldiff_ones_r by lia.
  apply Z.lor_ldiff_and.
Qed.

Lemma BytesToHash_be_bytes h : 0 <= h < 2 ^ 256 -> BytesToHash (be_bytes HashLength h) = h.
Proof.
  intros Hh. unfold BytesToHash, array_of.
  rewrite be_bytes_length, Nat.sub_diag, drop_0, be_int_be_bytes. by apply Z.mod_small.
Qed.

Lemma hex_Encode_length b : length (hex_Encode b) = (2 * length b)%nat.
Proof.
  induction b as [|x b IH]; [done|]. unfold hex_Encode in *. rewrite bind_cons, length_app, IH. simpl. lia.
Qed.

Lemma hex_round_trip b : Forall (fun x => 0 <= x < 256) b ->
  hex_DecodeString (hex_Encode b) = (b, false).
Proof.
  induction 1 as [|x b Hx Hb IH]; [done|]. destruct (nibbles x Hx) as (Hxy & Hhi & Hlo).
  change (hex_Encode (x :: b)) with
    (hexdigit (Z.shiftr x 4) :: hexdigit (Z.land x 15) :: hex_Encode b).
  cbn [hex_DecodeString]. by rewrite !fromHexChar_hexdigit, IH, Hxy.
Qed.

Lemma hexdigit_cases n : 0 <= n < 16 -> 48 <= hexdigit n <= 57 \/ 97 <= hexdigit n <= 102.
Proof. intros. unfold hexdigit. destruct (Z.ltb_spec n 10); lia. Qed.

Lemma hex_Encode_range b : Forall (fun x => 0 <= x < 256) b -> Forall (fun x => 0 <= x < 256) (hex_Encode b).
Proof.
  unfold hex_Encode. induction 1 as [|x b Hx _ IH]; [constructor|]. rewrite bind_cons. apply Forall_app. split; [|done].
  destruct (nibbles x Hx) as (_ & Hhi & Hlo). pose proof (hexdigit_cases _ Hhi). pose proof (hexdigit_cases _ Hlo).
  repeat constructor; lia.
Qed.

Lemma blank_hex x b : 0 <= x < 256 -> blank (hex_Encode (x :: b)) = false.
Proof.
  intros Hx. destruct (nibbles x Hx) as (_ & Hhi & _).
  assert (Hall : Forall (fun n => forall s, blank (hexdigit n :: s) = false) (Z.of_nat <$> seq 0 16))
    by (repeat constructor).
  rewrite Forall_forall in Hall. apply Hall. apply list_elem_of_fmap.
  exists (Z.to_nat (Z.shiftr x 4)). split; [lia|]. apply elem_of_seq. lia.
Qed.

Lemma GetAddressBytes_hex a : GetAddressBytes (hex_Encode (be_bytes 20 a)) = Some (a mod 2 ^ 160).
Proof.
  assert (Hb : Forall (fun x => 0 <= x < 256) (be_bytes 20 a)) by apply be_bytes_range.
  assert (Hl : length (be_bytes 20 a) = 20%nat) by apply be_bytes_length.
  pose proof (be_int_be_bytes 20 a) as Hi.
  unfold GetAddressBytes. rewrite hex_round_trip by done. cbn [fst]. rewrite Hl.
  change (20 <? AddressLength)%nat with false. change (20 - AddressLength)%nat with 0%nat.
  rewrite drop_0, Hi. destruct (be_bytes 20 a) as [|x b]; [done|].
  rewrite blank_hex; [done|]. by apply Forall_cons in Hb as [Hx _].
Qed.

(** The text forms of addresses and hashes can be read back: hexadecimal
    encoding followed by decoding gives the same bytes, with or without the 0x
    prefix, the address read from the text of an address is that address and the
    hash read from the text of a hash is that hash. *)
Theorem hex_text_round_trips (b : list Z) (a h : Z) :
  Forall (fun x => 0 <= x < 256) b -> 0 <= a < 2 ^ 160 -> 0 <= h < 2 ^ 256 ->
  hex_DecodeString (EncodeNo0x b) = (b, false) /\ FromHex (Encode b) = b /\
  GetAddressBytes (hex_Encode (be_bytes 20 a)) = Some a /\
  GetHashBytes (EncodeNo0x (be_bytes 32 h)) = h /\ HexToHash (Encode (be_bytes 32 h)) = h.
Proof.
  intros Hb Ha Hh.
  assert (Hfrom : forall b, Forall (fun x => 0 <= x < 256) b -> FromHex (Encode b) = b).
  { intros c Hc. unfold FromHex, Encode. cbn [Z.eqb Pos.eqb orb].
    assert (Hev : Nat.odd (length (hex_Encode c)) = false) by (clear; induction c; done).
    unfold Hex2Bytes. rewrite Hev. by rewrite hex_round_trip. }
  split_and!.
  - by apply hex_round_trip.
  - by apply Hfrom.
  - rewrite GetAddressBytes_hex. by rewrite Z.mod_small.
  - unfold GetHashBytes, EncodeNo0x. rewrite hex_round_trip by apply be_bytes_range. cbn [fst].
    rewrite be_bytes_length. change (HashLength <? 32)%nat with false. cbn iota.
    rewrite be_int_be_bytes. by apply Z.mod_small.
  - unfold HexToHash. rewrite Hfrom by apply be_bytes_range. by apply BytesToHash_be_bytes.
Qed.

Lemma hex_text_round_trips_witness :
  hex_DecodeString (EncodeNo0x [222; 173]) = ([222; 173], false) /\ FromHex (Encode [222; 173]) = [222; 173] /\
  GetAddressBytes (hex_Encode (be_bytes 20 99)) = Some 99 /\
  GetHashBytes (EncodeNo0x (be_bytes 32 7)) = 7 /\ HexToHash (Encode (be_bytes 32 7)) = 7.
Proof. apply (hex_text_round_trips [222; 173] 99 7); [repeat (constructor; [lia|]); constructor|lia|lia]. Defined.
