(* ===== verification/StateData.v ===== *)
(** * The data of the journaled state

    The structures of dvm/ethereum/state: statedb.go, state_object.go and
    journal.go, with [Account] of commons/types/account.go, and the interfaces
    the state works on: the trie database of database.go, the RLP coding of
    accounts, the accounts of the ledger and Go's map iteration.

    State objects are reached through pointers: the live set, the journal and the
    code that modifies an object share it.  [objects] is the heap they live in
    and a [loc] the pointer. *)
From Stdlib Require Import ZArith Lia.
From S2P Require Import Prelude Word Hex Config OpCodes Analysis Machine.
Import Big.
Open Scope Z_scope.

(** ** commons/types/account.go

    Strings and byte slices are their bytes; [None] is a nil slice or integer.  A
    code hash is nil or all the bytes of a [HashBytes], and is that array. *)
Record Account := {
  AccAddress : list Z; PrivateKey : list Z; Name : list Z; Balance : option Z;
  TransactionHash : list Z; Updated : Z; Created : Z;
  Nonce : Z; Root : HashBytes; AccCodeHash : option HashBytes
}.

(** ** Interfaces *)

(** The [Database] and [Trie] interfaces of database.go.  [nodes] is what the
    tries and the code live in.  A Go pair of a value and an error stays a
    pair.  Reading a trie may cache nodes in it, which no reader can tell, so
    reads return no new trie. *)
Class Database := {
  nodes : Type;
  Trie : Type;
  error : Type;
  OpenTrie : nodes -> HashBytes -> Trie * option error;
  OpenStorageTrie : nodes -> HashBytes -> HashBytes -> Trie * option error;
  CopyTrie : Trie -> Trie;
  ContractCode : nodes -> HashBytes -> HashBytes -> option (list Z) * option error;
  ContractCodeSize : nodes -> HashBytes -> HashBytes -> Z * option error;
  TryGet : nodes -> Trie -> list Z -> list Z * option error;
  TryUpdate : nodes -> Trie -> list Z -> list Z -> Trie * option error;
  TryDelete : nodes -> Trie -> list Z -> Trie * option error;
  TrieHash : Trie -> HashBytes;
  (** [Commit] calls its argument, if any, on every leaf and its parent *)
  TrieCommit : nodes -> Trie -> option (list Z -> HashBytes -> nodes -> nodes) ->
    nodes * Trie * (HashBytes * option error);
  InsertBlob : nodes -> HashBytes -> list Z -> nodes;
  Reference : nodes -> HashBytes -> HashBytes -> nodes
}.

(** The RLP coding of an account and of a byte string; [Split] gives the content
    of the first value. *)
Class Codec := {
  EncodeAccount : Account -> option (list Z);
  DecodeAccount : list Z -> option Account;
  EncodeBytes : list Z -> list Z;
  Split : list Z -> option (list Z)
}.

(** The ledger's accounts, read by address, and the clock: [CreatedAt n] is what
    [time.Now()] returns when the [n]-th object is allocated. *)
Class Accounts := {
  ToAccountByAddress : list Z -> option Account;
  CreatedAt : nat -> Z
}.

(** Iterating over a map visits every key once, in an order of its own. *)
Class GoRange := {
  range : forall {A : Type}, gmap Z A -> list Z;
  range_perm : forall {A} (m : gmap Z A), range m ≡ₚ (map_to_list m).*1
}.

#[export] Instance ordered_GoRange : GoRange :=
  {| range := fun A m => (map_to_list m).*1; range_perm := fun A m => reflexivity _ |}.

(** A pointer to a state object. *)
Abbreviation loc := nat (only parsing).

Section Data.
Context {DBI : Database}.

(** What a state remembers of a failure. *)
Inductive db_error :=
  | errDatabase (e : error)
  | errStorageTrie (e : error)
  | errCodeHash (e : error)
  | errSplit.

(** ** state_object.go: [stateObject]; its [db] is the state it is part of *)
Record stateObject := {
  account : Account;
  objErr : option db_error;
  trie : option Trie;
  code : option (list Z);
  cachedStorage : gmap Z HashBytes;
  dirtyStorage : gmap Z HashBytes;
  dirtyCode : bool;
  suicided : bool;
  deleted : bool
}.

(** ** journal.go *)
Inductive journalEntry :=
  | createObjectChange (account : AddressBytes)
  | resetObjectChange (prev : loc)
  | suicideChange (account : AddressBytes) (prev : bool) (prevbalance : Z)
  | balanceChange (account : AddressBytes) (prev : option Z)
  | nonceChange (account : AddressBytes) (prev : Z)
  | storageChange (account : AddressBytes) (key prevalue : HashBytes)
  | codeChange (account : AddressBytes) (prevcode : option (list Z)) (prevhash : option HashBytes)
  | refundChange (prev : Z)
  | addLogChange (txhash : HashBytes)
  | addPreimageChange (hash : HashBytes)
  | touchChange (account : AddressBytes).

(** The newest entry is the head of [entries], the last element of the slice. *)
Record journal := { entries : list journalEntry; dirties : gmap Z Z }.

Definition newJournal : journal := {| entries := []; dirties := ∅ |}.

(** [dirtied]: the address an entry modifies. *)
Definition dirtied (ch : journalEntry) : option AddressBytes :=
  match ch with
  | createObjectChange a | suicideChange a _ _ | balanceChange a _ | nonceChange a _
  | storageChange a _ _ | codeChange a _ _ | touchChange a => Some a
  | resetObjectChange _ | refundChange _ | addLogChange _ | addPreimageChange _ => None
  end.

(** ** statedb.go *)
Record revision := { id : Z; journalIndex : nat }.

(** A log with the fields the node fills in. *)
Record TxLog := { log : Log; TxHash : HashBytes; TxIndex : Z; BlockHash : HashBytes; Index : Z }.

Record state := {
  db : nodes;
  accountTrie : Trie;
  objects : list stateObject;
  StateObjects : gmap Z loc;
  stateObjectsDirty : gset Z;
  dbErr : option db_error;
  refund : Z;
  thash : HashBytes;
  bhash : HashBytes;
  txIndex : Z;
  logs : gmap Z (list TxLog);
  logSize : Z;
  preimages : gmap Z (list Z);
  changes : journal;
  validRevisions : list revision;
  nextRevisionId : Z
}.
End Data.

(** ** Field updates *)
Section Updates.
Context {DBI : Database}.

Definition with_Balance (x : Account) (b : option Z) : Account :=
  {| AccAddress := x.(AccAddress); PrivateKey := x.(PrivateKey); Name := x.(Name); Balance := b;
     TransactionHash := x.(TransactionHash); Updated := x.(Updated); Created := x.(Created);
     Nonce := x.(Nonce); Root := x.(Root); AccCodeHash := x.(AccCodeHash) |}.
Definition with_Nonce (x : Account) (n : Z) : Account :=
  {| AccAddress := x.(AccAddress); PrivateKey := x.(PrivateKey); Name := x.(Name);
     Balance := x.(Balance); TransactionHash := x.(TransactionHash); Updated := x.(Updated);
     Created := x.(Created); Nonce := n; Root := x.(Root); AccCodeHash := x.(AccCodeHash) |}.
Definition with_Root (x : Account) (h : HashBytes) : Account :=
  {| AccAddress := x.(AccAddress); PrivateKey := x.(PrivateKey); Name := x.(Name);
     Balance := x.(Balance); TransactionHash := x.(TransactionHash); Updated := x.(Updated);
     Created := x.(Created); Nonce := x.(Nonce); Root := h; AccCodeHash := x.(AccCodeHash) |}.
Definition with_CodeHash (x : Account) (h : option HashBytes) : Account :=
  {| AccAddress := x.(AccAddress); PrivateKey := x.(PrivateKey); Name := x.(Name);
     Balance := x.(Balance); TransactionHash := x.(TransactionHash); Updated := x.(Updated);
     Created := x.(Created); Nonce := x.(Nonce); Root := x.(Root); AccCodeHash := h |}.

Definition with_account (o : stateObject) (x : Account) : stateObject :=
  {| account := x; objErr := o.(objErr); trie := o.(trie); code := o.(code);
     cachedStorage := o.(cachedStorage); dirtyStorage := o.(dirtyStorage);
     dirtyCode := o.(dirtyCode); suicided := o.(suicided); deleted := o.(deleted) |}.
Definition with_err (o : stateObject) (e : option db_error) : stateObject :=
  {| account := o.(account); objErr := e; trie := o.(trie); code := o.(code);
     cachedStorage := o.(cachedStorage); dirtyStorage := o.(dirtyStorage);
     dirtyCode := o.(dirtyCode); suicided := o.(suicided); deleted := o.(deleted) |}.
Definition with_trie (o : stateObject) (t : Trie) : stateObject :=
  {| account := o.(account); objErr := o.(objErr); trie := Some t; code := o.(code);
     cachedStorage := o.(cachedStorage); dirtyStorage := o.(dirtyStorage);
     dirtyCode := o.(dirtyCode); suicided := o.(suicided); deleted := o.(deleted) |}.
Definition with_code (o : stateObject) (c : option (list Z)) : stateObject :=
  {| account := o.(account); objErr := o.(objErr); trie := o.(trie); code := c;
     cachedStorage := o.(cachedStorage); dirtyStorage := o.(dirtyStorage);
     dirtyCode := o.(dirtyCode); suicided := o.(suicided); deleted := o.(deleted) |}.
Definition with_storage (o : stateObject) (cached dirty : gmap Z HashBytes) : stateObject :=
  {| account := o.(account); objErr := o.(objErr); trie := o.(trie); code := o.(code);
     cachedStorage := cached; dirtyStorage := dirty;
     dirtyCode := o.(dirtyCode); suicided := o.(suicided); deleted := o.(deleted) |}.
Definition with_flags (o : stateObject) (dc su de : bool) : stateObject :=
  {| account := o.(account); objErr := o.(objErr); trie := o.(trie); code := o.(code);
     cachedStorage := o.(cachedStorage); dirtyStorage := o.(dirtyStorage);
     dirtyCode := dc; suicided := su; deleted := de |}.

Definition set_db (s : state) (d : nodes) (t : Trie) : state :=
  {| db := d; accountTrie := t; objects := s.(objects); StateObjects := s.(StateObjects);
     stateObjectsDirty := s.(stateObjectsDirty); dbErr := s.(dbErr); refund := s.(refund);
     thash := s.(thash); bhash := s.(bhash); txIndex := s.(txIndex); logs := s.(logs);
     logSize := s.(logSize); preimages := s.(preimages); changes := s.(changes);
     validRevisions := s.(validRevisions); nextRevisionId := s.(nextRevisionId) |}.
Definition set_objects (s : state) (h : list stateObject) (m : gmap Z loc) (d : gset Z) : state :=
  {| db := s.(db); accountTrie := s.(accountTrie); objects := h; StateObjects := m;
     stateObjectsDirty := d; dbErr := s.(dbErr); refund := s.(refund);
     thash := s.(thash); bhash := s.(bhash); txIndex := s.(txIndex); logs := s.(logs);
     logSize := s.(logSize); preimages := s.(preimages); changes := s.(changes);
     validRevisions := s.(validRevisions); nextRevisionId := s.(nextRevisionId) |}.
Definition set_dbErr (s : state) (e : option db_error) : state :=
  {| db := s.(db); accountTrie := s.(accountTrie); objects := s.(objects);
     StateObjects := s.(StateObjects); stateObjectsDirty := s.(stateObjectsDirty); dbErr := e;
     refund := s.(refund); thash := s.(thash); bhash := s.(bhash); txIndex := s.(txIndex);
     logs := s.(logs); logSize := s.(logSize); preimages := s.(preimages); changes := s.(changes);
     validRevisions := s.(validRevisions); nextRevisionId := s.(nextRevisionId) |}.
Definition set_refund (s : state) (r : Z) : state :=
  {| db := s.(db); accountTrie := s.(accountTrie); objects := s.(objects);
     StateObjects := s.(StateObjects); stateObjectsDirty := s.(stateObjectsDirty);
     dbErr := s.(dbErr); refund := r; thash := s.(thash); bhash := s.(bhash);
     txIndex := s.(txIndex); logs := s.(logs); logSize := s.(logSize);
     preimages := s.(preimages); changes := s.(changes);
     validRevisions := s.(validRevisions); nextRevisionId := s.(nextRevisionId) |}.
Definition set_tx (s : state) (t b : HashBytes) (i : Z) : state :=
  {| db := s.(db); accountTrie := s.(accountTrie); objects := s.(objects);
     StateObjects := s.(StateObjects); stateObjectsDirty := s.(stateObjectsDirty);
     dbErr := s.(dbErr); refund := s.(refund); thash := t; bhash := b; txIndex := i;
     logs := s.(logs); logSize := s.(logSize); preimages := s.(preimages); changes := s.(changes);
     validRevisions := s.(validRevisions); nextRevisionId := s.(nextRevisionId) |}.
Definition set_logs (s : state) (l : gmap Z (list TxLog)) (n : Z) : state :=
  {| db := s.(db); accountTrie := s.(accountTrie); objects := s.(objects);
     StateObjects := s.(StateObjects); stateObjectsDirty := s.(stateObjectsDirty);
     dbErr := s.(dbErr); refund := s.(refund); thash := s.(thash); bhash := s.(bhash);
     txIndex := s.(txIndex); logs := l; logSize := n; preimages := s.(preimages);
     changes := s.(changes); validRevisions := s.(validRevisions);
     nextRevisionId := s.(nextRevisionId) |}.
Definition set_preimages (s : state) (p : gmap Z (list Z)) : state :=
  {| db := s.(db); accountTrie := s.(accountTrie); objects := s.(objects);
     StateObjects := s.(StateObjects); stateObjectsDirty := s.(stateObjectsDirty);
     dbErr := s.(dbErr); refund := s.(refund); thash := s.(thash); bhash := s.(bhash);
     txIndex := s.(txIndex); logs := s.(logs); logSize := s.(logSize); preimages := p;
     changes := s.(changes); validRevisions := s.(validRevisions);
     nextRevisionId := s.(nextRevisionId) |}.
Definition set_changes (s : state) (j : journal) (r : list revision) (n : Z) : state :=
  {| db := s.(db); accountTrie := s.(accountTrie); objects := s.(objects);
     StateObjects := s.(StateObjects); stateObjectsDirty := s.(stateObjectsDirty);
     dbErr := s.(dbErr); refund := s.(refund); thash := s.(thash); bhash := s.(bhash);
     txIndex := s.(txIndex); logs := s.(logs); logSize := s.(logSize);
     preimages := s.(preimages); changes := j; validRevisions := r; nextRevisionId := n |}.

(** ** The monad of a state method: [None] is a panic *)
Definition ST (A : Type) : Type := state -> option (state * A).

#[export] Instance ST_ret : MRet ST := fun A a s => Some (s, a).
#[export] Instance ST_bind : MBind ST := fun A B k m s =>
  match m s with Some (s', a) => k a s' | None => None end.

Definition panic {A} : ST A := fun _ => None.
Definition gets {A} (f : state -> A) : ST A := fun s => Some (s, f s).
Definition modify (f : state -> state) : ST unit := fun s => Some (f s, tt).
Definition lift {A} (m : option A) : ST A := fun s => match m with Some a => Some (s, a) | None => None end.

(** Reading and writing through a pointer. *)
Definition deref (l : loc) : ST stateObject := fun s =>
  match s.(objects) !! l with Some o => Some (s, o) | None => None end.
Definition update (l : loc) (f : stateObject -> stateObject) : ST unit :=
  modify (fun s => set_objects s (alter f l s.(objects)) s.(StateObjects) s.(stateObjectsDirty)).
Definition alloc (o : stateObject) : ST loc := fun s =>
  Some (set_objects s (s.(objects) ++ [o]) s.(StateObjects) s.(stateObjectsDirty),
        length s.(objects)).

(** [for _, x := range l { f(x) }] *)
Fixpoint for_each {A} (l : list A) (f : A -> ST unit) : ST unit :=
  match l with
  | [] => mret tt
  | x :: l' => f x ;; for_each l' f
  end.
End Updates.
