(* ===== verification/Journal.v ===== *)
(** * The journaled state

    The operations of dvm/ethereum/state: state_object.go ([Obj]), journal.go
    ([Jrn]) and statedb.go ([SDB]).  An operation runs in the monad [ST] of
    StateData; a method of an object takes the pointer to it.  The mutex of
    statedb.go only serialises operations and is left out; so is debug output.  *)
From Stdlib Require Import ZArith Lia.
From S2P Require Import Prelude Word Hex Config OpCodes Analysis Machine StateData.
Import Big.
Open Scope Z_scope.

(** [sort.Search] of the Go library: the binary search as it is written. *)
Fixpoint Search_loop (fuel : nat) (f : nat -> bool) (i j : nat) : nat :=
  match fuel with
  | O => i
  | S fuel' =>
      if (i <? j)%nat then
        let h := ((i + j) / 2)%nat in
        if f h then Search_loop fuel' f i h else Search_loop fuel' f (h + 1) j
      else i
  end.
Definition Search (n : nat) (f : nat -> bool) : nat := Search_loop n f 0 n.

Section Constants.
Context {CR : Crypto}.

Definition emptyCodeHash : HashBytes := NewHash [].
Definition emptyState : HashBytes := NewHash [].
Definition emptyCode : HashBytes := NewHash [].
Definition ripemd : AddressBytes := BytesToAddress (FromHex (replicate 39 48 ++ [51])).

(** [bytes.Equal] of a code hash and the 32 bytes of another; [BytesToHash] of one. *)
Definition bytes_Equal (a : option HashBytes) (b : HashBytes) : bool := bool_decide (a = Some b).
Definition slice_hash (a : option HashBytes) : HashBytes := default 0 a.

End Constants.

(** ** journal.go: the journal itself *)
Module Jrn.
Section Jrn.
Context {DBI : Database}.

Definition append_entry (j : journal) (entry : journalEntry) : journal :=
  {| entries := entry :: j.(entries);
     dirties := match dirtied entry with
                | Some addr => <[addr := default 0 (j.(dirties) !! addr) + 1]> j.(dirties)
                | None => j.(dirties)
                end |}.

Definition dirty_addr (j : journal) (addr : AddressBytes) : journal :=
  {| entries := j.(entries); dirties := <[addr := default 0 (j.(dirties) !! addr) + 1]> j.(dirties) |}.

Definition length_ (j : journal) : nat := length j.(entries).

(** The loop of [revert] drops an entry's mark of its address. *)
Definition undirty (d : gmap Z Z) (entry : journalEntry) : gmap Z Z :=
  match dirtied entry with
  | Some addr =>
      let n := default 0 (d !! addr) - 1 in
      if n =? 0 then delete addr d else <[addr := n]> d
  | None => d
  end.

Definition on (f : journal -> journal) : ST unit :=
  modify (fun s => set_changes s (f s.(changes)) s.(validRevisions) s.(nextRevisionId)).
Definition append (entry : journalEntry) : ST unit := on (fun j => append_entry j entry).
Definition dirty (addr : AddressBytes) : ST unit := on (fun j => dirty_addr j addr).

End Jrn.
End Jrn.

(** ** state_object.go *)
Module Obj.
Section Obj.
Context {DBI : Database} {CD : Codec} {CR : Crypto} {GR : GoRange}.

Definition getAddress (o : stateObject) : option AddressBytes :=
  GetAddressBytes o.(account).(AccAddress).

Definition empty (o : stateObject) : option bool :=
  if negb (o.(account).(Nonce) =? 0) then Some false
  else b ← o.(account).(Balance);
       Some ((b =? 0) && bytes_Equal o.(account).(AccCodeHash) emptyCodeHash).

Definition newStateObject (data : Account) : stateObject :=
  let data := match data.(Balance) with None => with_Balance data (Some 0) | Some _ => data end in
  let data := match data.(AccCodeHash) with
              | None => with_CodeHash data (Some emptyCodeHash) | Some _ => data end in
  let data := with_Nonce data 0 in
  {| account := data; objErr := None; trie := None; code := None; cachedStorage := ∅;
     dirtyStorage := ∅; dirtyCode := false; suicided := false; deleted := false |}.

Definition setError (l : loc) (err : option db_error) : ST unit :=
  update l (fun o => match o.(objErr) with None => with_err o err | Some _ => o end).

Definition markSuicided (l : loc) : ST unit :=
  update l (fun o => with_flags o o.(dirtyCode) true o.(deleted)).

Definition touch (l : loc) : ST unit :=
  o ← deref l;
  addr ← lift (getAddress o);
  Jrn.append (touchChange addr);;
  if addr =? ripemd then Jrn.dirty addr else mret tt.

Definition getTrie (l : loc) : ST Trie :=
  o ← deref l;
  match o.(trie) with
  | Some t => mret t
  | None =>
      addr ← lift (getAddress o);
      let addressHash := NewHash (be_bytes AddressLength addr) in
      d ← gets db;
      match OpenStorageTrie d addressHash o.(account).(Root) with
      | (t, None) => update l (fun o => with_trie o t);; mret t
      | (_, Some err) =>
          let '(t, _) := OpenStorageTrie d addressHash 0 in
          update l (fun o => with_trie o t);;
          setError l (Some (errStorageTrie err));;
          mret t
      end
  end.

Definition GetState (l : loc) (key : HashBytes) : ST HashBytes :=
  o ← deref l;
  match o.(cachedStorage) !! key with
  | Some value => mret value
  | None =>
      tr ← getTrie l;
      d ← gets db;
      match TryGet d tr (be_bytes HashLength key) with
      | (_, Some err) => setError l (Some (errDatabase err));; mret 0
      | (enc, None) =>
          value ← (if (0 <? length enc)%nat then
                     match Split enc with
                     | Some content => mret (BytesToHash content)
                     | None => setError l (Some errSplit);; mret (BytesToHash [])
                     end
                   else mret 0);
          (if negb (value =? 0)
           then update l (fun o => with_storage o (<[key := value]> o.(cachedStorage)) o.(dirtyStorage))
           else mret tt);;
          mret value
      end
  end.

Definition setState (l : loc) (key value : HashBytes) : ST unit :=
  update l (fun o => with_storage o (<[key := value]> o.(cachedStorage))
                                    (<[key := value]> o.(dirtyStorage))).

Definition SetState (l : loc) (key value : HashBytes) : ST unit :=
  o ← deref l;
  addr ← lift (getAddress o);
  prevalue ← GetState l key;
  Jrn.append (storageChange addr key prevalue);;
  setState l key value.

(** [bytes.TrimLeft(value, "\x00")] *)
Fixpoint TrimZeros (b : list Z) : list Z :=
  match b with
  | x :: b' => if x =? 0 then TrimZeros b' else b
  | [] => []
  end.

Definition updateTrie (l : loc) : ST unit :=
  getTrie l;;
  o ← deref l;
  for_each (range o.(dirtyStorage)) (fun key =>
    o ← deref l;
    tr ← lift o.(trie);
    value ← lift (o.(dirtyStorage) !! key);
    update l (fun o => with_storage o o.(cachedStorage) (delete key o.(dirtyStorage)));;
    d ← gets db;
    let '(tr, err) :=
      if value =? 0 then TryDelete d tr (be_bytes HashLength key)
      else TryUpdate d tr (be_bytes HashLength key)
             (EncodeBytes (TrimZeros (be_bytes HashLength value))) in
    update l (fun o => with_trie o tr);;
    setError l (errDatabase <$> err)).

Definition updateRoot (l : loc) : ST unit :=
  updateTrie l;;
  o ← deref l;
  tr ← lift o.(trie);
  update l (fun o => with_account o (with_Root o.(account) (TrieHash tr))).

Definition CommitTrie (l : loc) : ST (option db_error) :=
  updateTrie l;;
  o ← deref l;
  match o.(objErr) with
  | Some err => mret (Some err)
  | None =>
      tr ← lift o.(trie);
      d ← gets db;
      let '(d, tr, (root, err)) := TrieCommit d tr None in
      modify (fun s => set_db s d s.(accountTrie));;
      update l (fun o => with_trie o tr);;
      match err with
      | None => update l (fun o => with_account o (with_Root o.(account) root));; mret None
      | Some err => mret (Some (errDatabase err))
      end
  end.

Definition setBalance (l : loc) (amount : option Z) : ST unit :=
  update l (fun o => with_account o (with_Balance o.(account) amount)).

Definition SetBalance (l : loc) (amount : Z) : ST unit :=
  o ← deref l;
  addr ← lift (getAddress o);
  Jrn.append (balanceChange addr o.(account).(Balance));;
  setBalance l (Some amount).

Definition AddBalance (l : loc) (amount : Z) : ST unit :=
  o ← deref l;
  if amount =? 0 then
    e ← lift (empty o);
    (if (e : bool) then touch l else mret tt)
  else b ← lift o.(account).(Balance); SetBalance l (b + amount).

Definition SubBalance (l : loc) (amount : Z) : ST unit :=
  o ← deref l;
  if amount =? 0 then mret tt
  else b ← lift o.(account).(Balance); SetBalance l (b - amount).

(** [deepCopy]; the copy belongs to another state. *)
Definition deepCopy (o : stateObject) : option stateObject :=
  _ ← getAddress o;
  let c := newStateObject o.(account) in
  let c := match o.(trie) with Some t => with_trie c (CopyTrie t) | None => c end in
  let c := with_code c o.(code) in
  let c := with_storage c o.(dirtyStorage) o.(dirtyStorage) in
  Some (with_flags c o.(dirtyCode) o.(suicided) o.(deleted)).

Definition Code (l : loc) : ST (option (list Z)) :=
  o ← deref l;
  match o.(code) with
  | Some c => mret (Some c)
  | None =>
      if bool_decide (o.(account).(AccCodeHash) = None) ||
         bytes_Equal o.(account).(AccCodeHash) emptyCodeHash
      then mret None
      else
        addr ← lift (getAddress o);
        d ← gets db;
        let '(c, err) := ContractCode d (NewHash (be_bytes AddressLength addr))
                           (slice_hash o.(account).(AccCodeHash)) in
        (match err with
         | Some err => setError l (Some (errCodeHash err))
         | None => mret tt
         end);;
        update l (fun o => with_code o c);;
        mret c
  end.

Definition setCode (l : loc) (codeHash : HashBytes) (c : option (list Z)) : ST unit :=
  update l (fun o =>
    with_flags (with_account (with_code o c)
      (with_CodeHash o.(account) (Some codeHash))) true o.(suicided) o.(deleted)).

Definition SetCode (l : loc) (codeHash : HashBytes) (c : option (list Z)) : ST unit :=
  o ← deref l;
  addr ← lift (getAddress o);
  prevcode ← Code l;
  o ← deref l;
  Jrn.append (codeChange addr prevcode o.(account).(AccCodeHash));;
  setCode l codeHash c.

Definition setNonce (l : loc) (nonce : Z) : ST unit :=
  update l (fun o => with_account o (with_Nonce o.(account) nonce)).

Definition SetNonce (l : loc) (nonce : Z) : ST unit :=
  o ← deref l;
  addr ← lift (getAddress o);
  Jrn.append (nonceChange addr o.(account).(Nonce));;
  setNonce l nonce.

End Obj.
End Obj.

(** ** statedb.go *)
Module SDB.
Section SDB.
Context {DBI : Database} {CD : Codec} {AC : Accounts} {CR : Crypto} {GR : GoRange}.

Definition New (d : nodes) (root : HashBytes) : state + error :=
  match OpenTrie d root with
  | (_, Some err) => inr err
  | (tr, None) =>
      inl {| db := d; accountTrie := tr; objects := []; StateObjects := ∅; stateObjectsDirty := ∅;
             dbErr := None; refund := 0; thash := 0; bhash := 0; txIndex := 0; logs := ∅;
             logSize := 0; preimages := ∅; changes := newJournal; validRevisions := [];
             nextRevisionId := 0 |}
  end.

Definition setError (err : option db_error) : ST unit :=
  modify (fun s => match s.(dbErr) with None => set_dbErr s err | Some _ => s end).

Definition clearJournalAndRefund : ST unit :=
  modify (fun s => set_refund (set_changes s newJournal [] s.(nextRevisionId)) 0).

Definition Reset (root : HashBytes) : ST (option error) :=
  d ← gets db;
  match OpenTrie d root with
  | (_, Some err) => mret (Some err)
  | (tr, None) =>
      modify (fun s => set_preimages (set_logs (set_tx
        (set_objects (set_db s d tr) s.(objects) ∅ ∅) 0 0 0) ∅ 0) ∅);;
      clearJournalAndRefund;;
      mret None
  end.

(** *** Reading and creating objects *)
Definition setStateObject (l : loc) : ST unit :=
  o ← deref l;
  addr ← lift (Obj.getAddress o);
  modify (fun s => set_objects s s.(objects) (<[addr := l]> s.(StateObjects)) s.(stateObjectsDirty)).

Definition getStateObject (addr : AddressBytes) : ST (option loc) :=
  m ← gets StateObjects;
  match m !! addr with
  | Some l => o ← deref l; mret (if o.(deleted) then None else Some l)
  | None =>
      s ← gets (fun s => s);
      let '(enc, err) := TryGet s.(db) s.(accountTrie) (be_bytes AddressLength addr) in
      if (length enc =? 0)%nat then setError (errDatabase <$> err);; mret None
      else
        match DecodeAccount enc with
        | None => mret None
        | Some data => l ← alloc (Obj.newStateObject data); setStateObject l;; mret (Some l)
        end
  end.

Definition createObject (addr : AddressBytes) : ST (loc * option loc) :=
  let addressAsString := hex_Encode (be_bytes AddressLength addr) in
  n ← gets (fun s => length s.(objects));
  let account := {| AccAddress := addressAsString; PrivateKey := []; Name := []; Balance := Some 0;
                    TransactionHash := []; Updated := CreatedAt n; Created := CreatedAt n;
                    Nonce := 0; Root := 0; AccCodeHash := None |} in
  prev ← getStateObject addr;
  let account := match prev with
                 | None => default account (ToAccountByAddress addressAsString)
                 | Some _ => account
                 end in
  newobj ← alloc (Obj.newStateObject account);
  Jrn.append (match prev with
              | None => createObjectChange addr
              | Some prev => resetObjectChange prev
              end);;
  setStateObject newobj;;
  mret (newobj, prev).

Definition GetOrNewStateObject (addr : AddressBytes) : ST loc :=
  l ← getStateObject addr;
  match l with
  | Some l => mret l
  | None => '(l, _) ← createObject addr; mret l
  end.

Definition CreateAccount (addr : AddressBytes) : ST unit :=
  '(new, prev) ← createObject addr;
  match prev with
  | Some prev => o ← deref prev; Obj.setBalance new o.(account).(Balance)
  | None => mret tt
  end.

Definition Exist (addr : AddressBytes) : ST bool :=
  l ← getStateObject addr; mret (bool_decide (is_Some l)).

(** Reading a field of the object at [addr], [d] if there is none. *)
Definition reading {A} (addr : AddressBytes) (d : A) (f : loc -> ST A) : ST A :=
  l ← getStateObject addr;
  match l with Some l => f l | None => mret d end.

Definition Empty (addr : AddressBytes) : ST bool :=
  reading addr true (fun l => o ← deref l; lift (Obj.empty o)).
Definition GetBalance (addr : AddressBytes) : ST (option Z) :=
  reading addr (Some 0) (fun l => o ← deref l; mret o.(account).(Balance)).
Definition GetNonce (addr : AddressBytes) : ST Z :=
  reading addr 0 (fun l => o ← deref l; mret o.(account).(Nonce)).
Definition GetCode (addr : AddressBytes) : ST (option (list Z)) :=
  reading addr None Obj.Code.
Definition GetCodeHash (addr : AddressBytes) : ST HashBytes :=
  reading addr 0 (fun l => o ← deref l; mret (slice_hash o.(account).(AccCodeHash))).
Definition GetState (addr : AddressBytes) (key : HashBytes) : ST HashBytes :=
  reading addr 0 (fun l => Obj.GetState l key).
Definition HasSuicided (addr : AddressBytes) : ST bool :=
  reading addr false (fun l => o ← deref l; mret o.(suicided)).

Definition GetCodeSize (addr : AddressBytes) : ST Z :=
  reading addr 0 (fun l =>
    o ← deref l;
    match o.(code) with
    | Some c => mret (Z.of_nat (length c))
    | None =>
        a ← lift (Obj.getAddress o);
        d ← gets db;
        let '(size, err) := ContractCodeSize d (NewHash (be_bytes AddressLength a))
                              (slice_hash o.(account).(AccCodeHash)) in
        (match err with Some err => setError (Some (errDatabase err)) | None => mret tt end);;
        mret size
    end).

Definition StorageTrie (addr : AddressBytes) : ST (option Trie) :=
  reading addr None (fun l =>
    o ← deref l;
    c ← lift (Obj.deepCopy o);
    cpy ← alloc c;
    Obj.updateTrie cpy;;
    o ← deref cpy;
    mret o.(trie)).

(** *** Setters *)
Definition writing (addr : AddressBytes) (f : loc -> ST unit) : ST unit :=
  l ← GetOrNewStateObject addr; f l.

Definition AddBalance (addr : AddressBytes) (amount : Z) : ST unit :=
  writing addr (fun l => Obj.AddBalance l amount;; GetBalance addr;; mret tt).
Definition SubBalance (addr : AddressBytes) (amount : Z) : ST unit :=
  writing addr (fun l => Obj.SubBalance l amount;; GetBalance addr;; mret tt).
Definition SetBalance (addr : AddressBytes) (amount : Z) : ST unit :=
  writing addr (fun l => Obj.SetBalance l amount).
Definition SetNonce (addr : AddressBytes) (nonce : Z) : ST unit :=
  writing addr (fun l => Obj.SetNonce l nonce).
Definition SetCode (addr : AddressBytes) (c : list Z) : ST unit :=
  writing addr (fun l => Obj.SetCode l (NewHash c) (Some c)).
Definition SetState (addr : AddressBytes) (key value : HashBytes) : ST unit :=
  writing addr (fun l => Obj.SetState l key value).

Definition Suicide (addr : AddressBytes) : ST bool :=
  l ← getStateObject addr;
  match l with
  | None => mret false
  | Some l =>
      o ← deref l;
      b ← lift o.(account).(Balance);
      Jrn.append (suicideChange addr o.(suicided) b);;
      Obj.markSuicided l;;
      Obj.setBalance l (Some 0);;
      mret true
  end.

Definition AddLog (l : Log) : ST unit :=
  t ← gets thash;
  Jrn.append (addLogChange t);;
  modify (fun s =>
    let entry := {| log := l; TxHash := s.(thash); TxIndex := u64 s.(txIndex);
                    BlockHash := s.(bhash); Index := s.(logSize) |} in
    set_logs s (<[s.(thash) := default [] (s.(logs) !! s.(thash)) ++ [entry]]> s.(logs))
               (u64 (s.(logSize) + 1))).

Definition GetLogs (hash : HashBytes) : ST (list TxLog) :=
  gets (fun s => default [] (s.(logs) !! hash)).

Definition Logs : ST (list TxLog) :=
  gets (fun s => range s.(logs) ≫= (fun h => default [] (s.(logs) !! h))).

Definition AddPreimage (hash : HashBytes) (preimage : list Z) : ST unit :=
  p ← gets preimages;
  match p !! hash with
  | Some _ => mret tt
  | None =>
      Jrn.append (addPreimageChange hash);;
      modify (fun s => set_preimages s (<[hash := preimage]> s.(preimages)))
  end.

Definition AddRefund (gas : Z) : ST unit :=
  r ← gets refund;
  Jrn.append (refundChange r);;
  modify (fun s => set_refund s (u64 (s.(refund) + gas))).

Definition GetRefund : ST Z := gets refund.

Definition Prepare (t b : HashBytes) (ti : Z) : ST unit := modify (fun s => set_tx s t b ti).

(** *** journal.go: undoing an entry *)
Definition undo (ch : journalEntry) : ST unit :=
  let with_object (a : AddressBytes) (f : loc -> ST unit) : ST unit :=
    l ← getStateObject a;
    match l with Some l => f l | None => panic end in
  match ch with
  | createObjectChange a =>
      modify (fun s => set_objects s s.(objects) (delete a s.(StateObjects))
                         (s.(stateObjectsDirty) ∖ {[a]}))
  | resetObjectChange prev => setStateObject prev
  | suicideChange a prev prevbalance =>
      l ← getStateObject a;
      match l with
      | Some l =>
          update l (fun o => with_flags o o.(dirtyCode) prev o.(deleted));;
          Obj.setBalance l (Some prevbalance)
      | None => mret tt
      end
  | balanceChange a prev => with_object a (fun l => Obj.setBalance l prev)
  | nonceChange a prev => with_object a (fun l => Obj.setNonce l prev)
  | storageChange a key prevalue => with_object a (fun l => Obj.setState l key prevalue)
  | codeChange a prevcode prevhash =>
      with_object a (fun l => Obj.setCode l (slice_hash prevhash) prevcode)
  | refundChange prev => modify (fun s => set_refund s prev)
  | addLogChange txhash => fun s =>
      match default [] (s.(logs) !! txhash) with
      | [] => None
      | [_] => Some (set_logs s (delete txhash s.(logs)) (u64 (s.(logSize) - 1)), tt)
      | l => Some (set_logs s (<[txhash := take (length l - 1) l]> s.(logs))
                            (u64 (s.(logSize) - 1)), tt)
      end
  | addPreimageChange hash => modify (fun s => set_preimages s (delete hash s.(preimages)))
  | touchChange _ => mret tt
  end.

(** [journal.revert]: undo the entries from the newest down to [snapshot], then
    cut the slice. *)
Definition revert (snapshot : nat) : ST unit :=
  es ← gets (fun s => s.(changes).(entries));
  let n := (length es - snapshot)%nat in
  for_each (take n es) (fun ch =>
    undo ch;;
    Jrn.on (fun j => {| entries := j.(entries); dirties := Jrn.undirty j.(dirties) ch |}));;
  Jrn.on (fun j => {| entries := drop n j.(entries); dirties := j.(dirties) |}).

Definition Snapshot : ST Z :=
  s ← gets (fun s => s);
  let id := s.(nextRevisionId) in
  modify (fun s => set_changes s s.(changes)
    (s.(validRevisions) ++ [{| id := id; journalIndex := Jrn.length_ s.(changes) |}]) (id + 1));;
  mret id.

Definition RevertToSnapshot (revid : Z) : ST unit :=
  revs ← gets validRevisions;
  let idx := Search (length revs) (fun i =>
               match revs !! i with Some r => revid <=? r.(id) | None => true end) in
  match revs !! idx with
  | None => panic
  | Some r =>
      if negb (r.(id) =? revid) then panic
      else
        revert r.(journalIndex);;
        modify (fun s => set_changes s s.(changes) (take idx s.(validRevisions)) s.(nextRevisionId))
  end.

(** *** Writing objects back *)
Definition updateStateObject (l : loc) : ST unit :=
  o ← deref l;
  addr ← lift (Obj.getAddress o);
  data ← lift (EncodeAccount o.(account));
  s ← gets (fun s => s);
  let '(tr, err) := TryUpdate s.(db) s.(accountTrie) (be_bytes AddressLength addr) data in
  modify (fun s => set_db s s.(db) tr);;
  setError (errDatabase <$> err).

Definition deleteStateObject (l : loc) : ST unit :=
  update l (fun o => with_flags o o.(dirtyCode) o.(suicided) true);;
  o ← deref l;
  addr ← lift (Obj.getAddress o);
  s ← gets (fun s => s);
  let '(tr, err) := TryDelete s.(db) s.(accountTrie) (be_bytes AddressLength addr) in
  modify (fun s => set_db s s.(db) tr);;
  setError (errDatabase <$> err).

Definition mark_dirty (addr : AddressBytes) : ST unit :=
  modify (fun s => set_objects s s.(objects) s.(StateObjects) ({[addr]} ∪ s.(stateObjectsDirty))).
Definition unmark_dirty (addr : AddressBytes) : ST unit :=
  modify (fun s => set_objects s s.(objects) s.(StateObjects) (s.(stateObjectsDirty) ∖ {[addr]})).

Definition Finalise (deleteEmptyObjects : bool) : ST unit :=
  d ← gets (fun s => s.(changes).(dirties));
  for_each (range d) (fun addr =>
    m ← gets StateObjects;
    match m !! addr with
    | None => mret tt
    | Some l =>
        o ← deref l;
        e ← (if o.(suicided) then mret true
             else if deleteEmptyObjects then lift (Obj.empty o) else mret false);
        (if (e : bool) then deleteStateObject l
         else Obj.updateRoot l;; updateStateObject l);;
        mark_dirty addr
    end);;
  clearJournalAndRefund.

Definition IntermediateRoot (deleteEmptyObjects : bool) : ST HashBytes :=
  Finalise deleteEmptyObjects;;
  gets (fun s => TrieHash s.(accountTrie)).

Definition keys (d : gset Z) : list Z := range (set_to_map (fun a => (a, tt)) d : gmap Z unit).

Definition DeleteSuicides : ST unit :=
  clearJournalAndRefund;;
  d ← gets stateObjectsDirty;
  for_each (keys d) (fun addr =>
    m ← gets StateObjects;
    l ← lift (m !! addr);
    o ← deref l;
    (if o.(suicided) then update l (fun o => with_flags o o.(dirtyCode) o.(suicided) true)
     else mret tt);;
    unmark_dirty addr).

(** The loop of [Commit] over the live objects; it ends at the first error. *)
Fixpoint commit_objects (deleteEmptyObjects : bool) (l : list (Z * loc)) : ST (option db_error) :=
  match l with
  | [] => mret None
  | (addr, l0) :: l' =>
      o ← deref l0;
      d ← gets stateObjectsDirty;
      let isDirty := bool_decide (addr ∈ d) in
      e ← (if o.(suicided) then mret true
           else if isDirty && deleteEmptyObjects then lift (Obj.empty o) else mret false);
      err ← (if (e : bool) then deleteStateObject l0;; mret None
             else if isDirty then
               (match o.(code) with
                | Some c =>
                    if o.(dirtyCode) then
                      modify (fun s => set_db s (InsertBlob s.(db)
                        (slice_hash o.(account).(AccCodeHash)) c) s.(accountTrie));;
                      update l0 (fun o => with_flags o false o.(suicided) o.(deleted))
                    else mret tt
                | None => mret tt
                end);;
               err ← Obj.CommitTrie l0;
               match err with
               | Some err => mret (Some err)
               | None => updateStateObject l0;; mret None
               end
             else mret None);
      match err with
      | Some err => mret (Some err)
      | None => unmark_dirty addr;; commit_objects deleteEmptyObjects l'
      end
  end.

(** The function [Commit] hands to the trie: the storage and the code of an
    account are referenced from the node above it. *)
Definition reference_leaf (leaf : list Z) (parent : HashBytes) (d : nodes) : nodes :=
  match DecodeAccount leaf with
  | None => d
  | Some account =>
      let d := if negb (account.(Root) =? emptyState) then Reference d account.(Root) parent else d in
      let code := slice_hash account.(AccCodeHash) in
      if negb (code =? emptyCode) then Reference d code parent else d
  end.

Definition Commit (deleteEmptyObjects : bool) : ST (HashBytes * option db_error) :=
  d ← gets (fun s => s.(changes).(dirties));
  for_each (range d) mark_dirty;;
  m ← gets StateObjects;
  err ← commit_objects deleteEmptyObjects
          (omap (fun a => (fun l => (a, l)) <$> m !! a) (range m));
  match err with
  | Some err => clearJournalAndRefund;; mret (0, Some err)
  | None =>
      s ← gets (fun s => s);
      let '(d, tr, (root, err)) := TrieCommit s.(db) s.(accountTrie) (Some reference_leaf) in
      modify (fun s => set_db s d tr);;
      clearJournalAndRefund;;
      mret (root, errDatabase <$> err)
  end.

(** *** Copying *)
Fixpoint copy_objects (s : state) (addrs : list Z) (c : state) : option state :=
  match addrs with
  | [] => Some c
  | addr :: addrs' =>
      match c.(StateObjects) !! addr with
      | Some _ => copy_objects s addrs' c
      | None =>
          l ← s.(StateObjects) !! addr;
          o ← s.(objects) !! l;
          o' ← Obj.deepCopy o;
          copy_objects s addrs'
            (set_objects c (c.(objects) ++ [o']) (<[addr := length c.(objects)]> c.(StateObjects))
               ({[addr]} ∪ c.(stateObjectsDirty)))
      end
  end.

(** [Copy]; a dirty address without an object makes it panic.  An address is
    dirty once, so testing the copy first is harmless in the first loop. *)
Definition Copy (s : state) : option state :=
  let c := {| db := s.(db); accountTrie := CopyTrie s.(accountTrie); objects := [];
              StateObjects := ∅; stateObjectsDirty := ∅; dbErr := None; refund := s.(refund);
              thash := 0; bhash := 0; txIndex := 0; logs := s.(logs); logSize := s.(logSize);
              preimages := s.(preimages); changes := newJournal; validRevisions := [];
              nextRevisionId := 0 |} in
  c ← copy_objects s (range s.(changes).(dirties)) c;
  copy_objects s (keys s.(stateObjectsDirty)) c.

End SDB.
End SDB.
