(* ===== verification/StateView.v ===== *)
(** * What a journaled state holds

    The observable content of a [state]: for every address the account a reader
    sees, whether its object is live, not loaded yet or deleted, and the refund,
    logs and preimages.  Two contents are equivalent when no reader can tell them
    apart.  Undoing a journal entry is a function on contents, so a journal
    stands for the contents of every earlier snapshot. *)
From Stdlib Require Import ZArith Lia.
From S2P Require Import Prelude Word Hex Config OpCodes Analysis Machine StateData Journal.
Import Big.
Open Scope Z_scope.

(** ** Contents *)
Record AccountView := {
  v_nonce : Z; v_balance : Z; v_codehash : HashBytes; v_code : list Z;
  v_storage : Z -> HashBytes; v_suicided : bool
}.

Record View := {
  v_accounts : Z -> option AccountView;
  v_refund : Z;
  v_logs : Z -> list TxLog;
  v_logSize : Z;
  v_preimages : gmap Z (list Z)
}.

#[export] Instance AccountView_equiv : Equiv AccountView := fun x y =>
  x.(v_nonce) = y.(v_nonce) /\ x.(v_balance) = y.(v_balance) /\ x.(v_codehash) = y.(v_codehash) /\
  x.(v_code) = y.(v_code) /\ (forall k, x.(v_storage) k = y.(v_storage) k) /\
  x.(v_suicided) = y.(v_suicided).

#[export] Instance View_equiv : Equiv View := fun x y =>
  (forall a, x.(v_accounts) a ≡ y.(v_accounts) a) /\ x.(v_refund) = y.(v_refund) /\
  (forall h, x.(v_logs) h = y.(v_logs) h) /\ x.(v_logSize) = y.(v_logSize) /\
  x.(v_preimages) = y.(v_preimages).

#[export] Instance AccountView_equivalence : Equivalence (≡@{AccountView}).
Proof.
  split.
  - by intros x.
  - intros x y (? & ? & ? & ? & ? & ?). by split_and!.
  - intros x y z (? & ? & ? & ? & Hs & ?) (? & ? & ? & ? & Ht & ?).
    split_and!; congruence.
Qed.

#[export] Instance View_equivalence : Equivalence (≡@{View}).
Proof.
  split.
  - by intros x.
  - intros x y (H & ? & ? & ? & ?). split_and!; [intros a; by rewrite H|done..].
  - intros x y z (Ha & ? & Hl & ? & ?) (Hb & ? & Hm & ? & ?).
    split_and!; try congruence. intros a. by rewrite Ha.
Qed.

(** Writing one account of a content. *)
Definition vset (v : View) (a : Z) (x : option AccountView) : View :=
  {| v_accounts := fun b => if decide (a = b) then x else v.(v_accounts) b;
     v_refund := v.(v_refund); v_logs := v.(v_logs); v_logSize := v.(v_logSize);
     v_preimages := v.(v_preimages) |}.
Definition valter (v : View) (a : Z) (f : AccountView -> AccountView) : View :=
  vset v a (f <$> v.(v_accounts) a).

Definition v_with_balance (x : AccountView) (b : Z) : AccountView :=
  {| v_nonce := x.(v_nonce); v_balance := b; v_codehash := x.(v_codehash); v_code := x.(v_code);
     v_storage := x.(v_storage); v_suicided := x.(v_suicided) |}.
Definition v_with_nonce (x : AccountView) (n : Z) : AccountView :=
  {| v_nonce := n; v_balance := x.(v_balance); v_codehash := x.(v_codehash); v_code := x.(v_code);
     v_storage := x.(v_storage); v_suicided := x.(v_suicided) |}.
Definition v_with_code (x : AccountView) (c : list Z) (h : HashBytes) : AccountView :=
  {| v_nonce := x.(v_nonce); v_balance := x.(v_balance); v_codehash := h; v_code := c;
     v_storage := x.(v_storage); v_suicided := x.(v_suicided) |}.
Definition v_with_storage (x : AccountView) (k v : Z) : AccountView :=
  {| v_nonce := x.(v_nonce); v_balance := x.(v_balance); v_codehash := x.(v_codehash);
     v_code := x.(v_code);
     v_storage := fun j => if decide (k = j) then v else x.(v_storage) j;
     v_suicided := x.(v_suicided) |}.
Definition v_with_suicided (x : AccountView) (b : bool) : AccountView :=
  {| v_nonce := x.(v_nonce); v_balance := x.(v_balance); v_codehash := x.(v_codehash);
     v_code := x.(v_code); v_storage := x.(v_storage); v_suicided := b |}.

#[export] Instance vset_proper : Proper ((≡) ==> eq ==> (≡) ==> (≡)) vset.
Proof.
  intros v w (H & ? & ? & ? & ?) a _ <- x y Hxy. split_and!; simpl; [|done..].
  intros b. by case_decide.
Qed.

Lemma valter_proper v w a f : Proper ((≡) ==> (≡)) f -> v ≡ w -> valter v a f ≡ valter w a f.
Proof.
  intros Hf Hvw. unfold valter. apply vset_proper; [done|done|]. destruct Hvw as [H _].
  by apply (option_fmap_proper f f Hf).
Qed.

#[export] Instance v_with_balance_proper : Proper ((≡) ==> eq ==> (≡)) v_with_balance.
Proof. intros x y (? & ? & ? & ? & ? & ?) b _ <-. by split_and!. Qed.
#[export] Instance v_with_nonce_proper : Proper ((≡) ==> eq ==> (≡)) v_with_nonce.
Proof. intros x y (? & ? & ? & ? & ? & ?) b _ <-. by split_and!. Qed.
#[export] Instance v_with_suicided_proper : Proper ((≡) ==> eq ==> (≡)) v_with_suicided.
Proof. intros x y (? & ? & ? & ? & ? & ?) b _ <-. by split_and!. Qed.
#[export] Instance v_with_code_proper : Proper ((≡) ==> eq ==> eq ==> (≡)) v_with_code.
Proof. intros x y (? & ? & ? & ? & ? & ?) b _ <- h _ <-. by split_and!. Qed.
#[export] Instance v_with_storage_proper : Proper ((≡) ==> eq ==> eq ==> (≡)) v_with_storage.
Proof.
  intros x y (? & ? & ? & ? & Hs & ?) k _ <- u _ <-. split_and!; try done. simpl.
  intros j. case_decide; [done|apply Hs].
Qed.

(** ** Undoing on contents *)
Inductive ventry :=
  | VCreate (a : Z)
  | VReset (a : Z) (x : AccountView)
  | VSuicide (a : Z) (prev : bool) (b : Z)
  | VBalance (a b : Z)
  | VNonce (a n : Z)
  | VStorage (a k v : Z)
  | VCode (a : Z) (c : list Z) (h : HashBytes)
  | VRefund (r : Z)
  | VLog (h : HashBytes)
  | VPreimage (h : HashBytes)
  | VTouch.

Definition vundo (e : ventry) (v : View) : View :=
  match e with
  | VCreate a => vset v a None
  | VReset a x => vset v a (Some x)
  | VSuicide a p b => valter v a (fun x => v_with_balance (v_with_suicided x p) b)
  | VBalance a b => valter v a (fun x => v_with_balance x b)
  | VNonce a n => valter v a (fun x => v_with_nonce x n)
  | VStorage a k u => valter v a (fun x => v_with_storage x k u)
  | VCode a c h => valter v a (fun x => v_with_code x c h)
  | VRefund r =>
      {| v_accounts := v.(v_accounts); v_refund := r; v_logs := v.(v_logs);
         v_logSize := v.(v_logSize); v_preimages := v.(v_preimages) |}
  | VLog h =>
      {| v_accounts := v.(v_accounts); v_refund := v.(v_refund);
         v_logs := fun g => if decide (h = g) then take (length (v.(v_logs) h) - 1) (v.(v_logs) h)
                            else v.(v_logs) g;
         v_logSize := u64 (v.(v_logSize) - 1); v_preimages := v.(v_preimages) |}
  | VPreimage h =>
      {| v_accounts := v.(v_accounts); v_refund := v.(v_refund); v_logs := v.(v_logs);
         v_logSize := v.(v_logSize); v_preimages := delete h v.(v_preimages) |}
  | VTouch => v
  end.

(** Undo the entries from the newest, the head. *)
Definition vundo_all (es : list ventry) (v : View) : View := foldl (fun v e => vundo e v) v es.

#[export] Instance vundo_proper : Proper (eq ==> (≡) ==> (≡)) vundo.
Proof.
  intros e _ <- v w Hvw.
  destruct e; simpl;
    try (apply valter_proper; [|done]; intros x y ->; done);
    try (by apply vset_proper); try done;
    destruct Hvw as (? & ? & Hl & Hs & Hp); split_and!; simpl; try done.
  - intros g. rewrite !Hl. done.
  - by rewrite Hs.
  - by rewrite Hp.
Qed.

#[export] Instance vundo_all_proper es : Proper ((≡) ==> (≡)) (vundo_all es).
Proof. induction es as [|e es IH]; intros v w Hvw; simpl; [done|]. apply IH. by rewrite Hvw. Qed.

Lemma vundo_all_app es fs v : vundo_all (es ++ fs) v = vundo_all fs (vundo_all es v).
Proof. apply foldl_app. Qed.

(** What must hold when an entry's turn to be undone comes: the account is there,
    [known] says which accounts the trie has. *)
Definition undoable (known : Z -> Prop) (e : ventry) (v : View) : Prop :=
  match e with
  | VCreate a => ~ known a
  | VBalance a _ | VNonce a _ | VStorage a _ _ | VCode a _ _ => is_Some (v.(v_accounts) a)
  | VLog h => v.(v_logs) h <> []
  | _ => True
  end.

Fixpoint replayable (known : Z -> Prop) (es : list ventry) (v : View) : Prop :=
  match es with
  | [] => True
  | e :: es' => undoable known e v /\ replayable known es' (vundo e v)
  end.

Lemma is_Some_equiv (x y : option AccountView) : x ≡ y -> is_Some x -> is_Some y.
Proof. intros H [z ->]. inversion H; eauto. Qed.

#[export] Instance undoable_proper known e : Proper ((≡) ==> iff) (undoable known e).
Proof.
  intros v w (Ha & _ & Hl & _). destruct e; simpl; try done;
    try (split; apply is_Some_equiv; [apply Ha|symmetry; apply Ha]).
  by rewrite Hl.
Qed.

#[export] Instance replayable_proper known es : Proper ((≡) ==> iff) (replayable known es).
Proof.
  induction es as [|e es IH]; intros v w Hvw; simpl; [done|].
  rewrite (IH (vundo e v) (vundo e w)) by (by rewrite Hvw). by rewrite Hvw.
Qed.

(** ** The content of a state *)
Section View.
Context {DBI : Database} {CD : Codec} {AC : Accounts} {CR : Crypto} {GR : GoRange}.

Definition load (d : nodes) (t : Trie) (a : AddressBytes) : option Account :=
  let '(enc, _) := TryGet d t (be_bytes AddressLength a) in
  if (length enc =? 0)%nat then None else DecodeAccount enc.

(** The object a reader of [a] gets. *)
Definition lookup_object (s : state) (a : AddressBytes) : option stateObject :=
  match s.(StateObjects) !! a with
  | Some l => o ← s.(objects) !! l; if o.(deleted) then None else Some o
  | None => Obj.newStateObject <$> load s.(db) s.(accountTrie) a
  end.

Definition address_hash (a : AddressBytes) : HashBytes := NewHash (be_bytes AddressLength a).

(** The code [Obj.Code] finds, from the fields it looks at. *)
Definition code_value (d : nodes) (a : AddressBytes) (c : option (list Z)) (h : option HashBytes) : list Z :=
  match c with
  | Some c => c
  | None =>
      if bool_decide (h = None) || bytes_Equal h emptyCodeHash then []
      else default [] (ContractCode d (address_hash a) (slice_hash h)).1
  end.

Definition opened_trie (d : nodes) (a : AddressBytes) (o : stateObject) : Trie :=
  match o.(trie) with
  | Some t => t
  | None =>
      match OpenStorageTrie d (address_hash a) o.(account).(Root) with
      | (t, None) => t
      | (_, Some _) => (OpenStorageTrie d (address_hash a) 0).1
      end
  end.

Definition trie_value (d : nodes) (t : Trie) (key : HashBytes) : HashBytes :=
  match TryGet d t (be_bytes HashLength key) with
  | (_, Some _) => 0
  | (enc, None) =>
      if (0 <? length enc)%nat then BytesToHash (default [] (Split enc)) else 0
  end.

Definition storage_value (d : nodes) (a : AddressBytes) (o : stateObject) (key : HashBytes) : HashBytes :=
  match o.(cachedStorage) !! key with
  | Some v => v
  | None => trie_value d (opened_trie d a o) key
  end.

Definition object_view (d : nodes) (a : AddressBytes) (o : stateObject) : AccountView :=
  {| v_nonce := o.(account).(Nonce);
     v_balance := default 0 o.(account).(Balance);
     v_codehash := slice_hash o.(account).(AccCodeHash);
     v_code := code_value d a o.(code) o.(account).(AccCodeHash);
     v_storage := storage_value d a o;
     v_suicided := o.(suicided) |}.

Definition state_view (s : state) : View :=
  {| v_accounts := fun a => object_view s.(db) a <$> lookup_object s a;
     v_refund := s.(refund);
     v_logs := fun h => default [] (s.(logs) !! h);
     v_logSize := s.(logSize);
     v_preimages := s.(preimages) |}.

(** A journal entry, the object it points to and the code it restores looked up. *)
Definition resolve (d : nodes) (h : list stateObject) (e : journalEntry) : ventry :=
  match e with
  | createObjectChange a => VCreate a
  | resetObjectChange l =>
      match h !! l with
      | Some o => let a := default 0 (Obj.getAddress o) in VReset a (object_view d a o)
      | None => VTouch
      end
  | suicideChange a p b => VSuicide a p b
  | balanceChange a b => VBalance a (default 0 b)
  | nonceChange a n => VNonce a n
  | storageChange a k v => VStorage a k v
  | codeChange a c h => VCode a (code_value d a c h) (slice_hash h)
  | refundChange r => VRefund r
  | addLogChange h => VLog h
  | addPreimageChange h => VPreimage h
  | touchChange _ => VTouch
  end.

Definition resolved (s : state) (es : list journalEntry) : list ventry :=
  resolve s.(db) s.(objects) <$> es.
End View.
