(* ===== verification/Rollback.v ===== *)
(** * Rolling back

    The invariant of a journaled state and what each operation does to it: an
    operation either leaves the content alone ([quiet]) or appends entries that
    undo what it did ([advances]).  Loading an object, filling a cache or opening
    a trie is quiet.  Reverting to a snapshot undoes the newer entries in turn. *)
From Stdlib Require Import ZArith Lia.
From S2P Require Import Prelude Word Hex Config OpCodes Analysis Machine StateData Journal.
From S2P Require Import StateView StateSpec.
Import Big.
Open Scope Z_scope.

Section Rollback.
Context {DBI : Database} {CD : Codec} {AC : Accounts} {CR : Crypto} {GR : GoRange}.

#[local] Arguments be_bytes : simpl never.

(** ** What is well formed *)
Definition address_ok (a : Z) : Prop := 0 <= a < 2 ^ 160.

(** An account the trie or the ledger may hold for address [a]. *)
Definition account_ok (a : Z) (x : Account) : Prop :=
  GetAddressBytes x.(AccAddress) = Some a /\
  (forall b, x.(Balance) = Some b -> 0 <= b).

(** Loaded code is bytes, and code the object's hash is the hash of. *)
Definition code_ok (c : option (list Z)) (h : option HashBytes) : Prop :=
  forall b, c = Some b -> is_bytes b /\ (b = [] \/ NewHash b = slice_hash h).

(** What the state relies on: code is stored under its hash, the ledger knows
    accounts by their address. *)
Class BackendLaws := {
  backend_code : forall d ah h,
    code_ok (ContractCode d ah h).1 (Some h);
  backend_ledger : forall a x, address_ok a ->
    ToAccountByAddress (hex_Encode (be_bytes AddressLength a)) = Some x -> account_ok a x
}.
Context {BL : BackendLaws}.

Record obj_ok (a : Z) (o : stateObject) : Prop := {
  ok_address : Obj.getAddress o = Some a;
  ok_balance : exists b, o.(account).(Balance) = Some b /\ 0 <= b;
  ok_hash : is_Some o.(account).(AccCodeHash);
  ok_code : code_ok o.(code) o.(account).(AccCodeHash)
}.

Definition entry_ok (e : journalEntry) : Prop :=
  match e with
  | createObjectChange a | touchChange a | nonceChange a _ | storageChange a _ _ => address_ok a
  | suicideChange a _ b => address_ok a /\ 0 <= b
  | balanceChange a b => address_ok a /\ exists z, b = Some z /\ 0 <= z
  | codeChange a c h => address_ok a /\ is_Some h /\ code_ok c h
  | resetObjectChange _ | refundChange _ | addLogChange _ | addPreimageChange _ => True
  end.

(** The objects the journal holds on to. *)
Definition prev_of (e : journalEntry) : option loc :=
  match e with resetObjectChange l => Some l | _ => None end.
Definition prevs (es : list journalEntry) : list loc := omap prev_of es.

(** The heap and the live set: an object is the live one of its address, or kept
    by the journal, or garbage. *)
Record heap_ok (es : list journalEntry) (s : state) : Prop := {
  h_trie : forall a x, address_ok a -> load s.(db) s.(accountTrie) a = Some x -> account_ok a x;
  h_live : forall a l, s.(StateObjects) !! a = Some l -> address_ok a /\
    exists o, s.(objects) !! l = Some o /\ obj_ok a o /\
      (o.(deleted) = true -> load s.(db) s.(accountTrie) a = None);
  h_nodup : NoDup (prevs es);
  h_prev : forall l, l ∈ prevs es -> exists a o, address_ok a /\ s.(objects) !! l = Some o /\
    obj_ok a o /\ o.(deleted) = false /\ s.(StateObjects) !! a <> Some l
}.

Definition known (s : state) (a : Z) : Prop := is_Some (load s.(db) s.(accountTrie) a).

Record wf (es : list journalEntry) (s : state) : Prop := {
  wf_heap : heap_ok es s;
  wf_entries : Forall entry_ok es;
  wf_replay : replayable (known s) (resolved s es) (state_view s);
  wf_size : is_u64 s.(logSize)
}.

Definition live_at (s : state) (a : Z) (l : loc) (o : stateObject) : Prop :=
  s.(StateObjects) !! a = Some l /\ s.(objects) !! l = Some o /\ o.(deleted) = false.

(** ** Facts about well-formed objects *)
Lemma live_unique es s a b l o : heap_ok es s -> s.(StateObjects) !! a = Some l ->
  s.(objects) !! l = Some o -> Obj.getAddress o = Some b -> a = b.
Proof.
  intros Hh Ha Ho Hb. destruct (h_live _ _ Hh a l Ha) as (_ & o' & Ho' & Hok & _).
  rewrite (ok_address _ _ Hok) in Hb || (rewrite Ho in Ho'; injection Ho' as <-;
    rewrite (ok_address _ _ Hok) in Hb); congruence.
Qed.

Lemma live_obj_ok es s a l o : heap_ok es s -> live_at s a l o -> obj_ok a o /\ address_ok a.
Proof.
  intros Hh (Ha & Ho & _). destruct (h_live _ _ Hh a l Ha) as (Hr & o' & Ho' & Hok & _).
  rewrite Ho in Ho'. by injection Ho' as <-.
Qed.

Lemma prev_not_live es s a l l' o : heap_ok es s -> live_at s a l o -> l' ∈ prevs es -> l' <> l.
Proof.
  intros Hh (Ha & Ho & _) Hl' ->. destruct (h_prev _ _ Hh l Hl') as (b & o' & _ & Ho' & Hok & _ & Hne).
  rewrite Ho in Ho'. injection Ho' as <-.
  rewrite (live_unique es s a b l o Hh Ha Ho (ok_address _ _ Hok)) in Ha. done.
Qed.

Lemma prev_elem es l : resetObjectChange l ∈ es -> l ∈ prevs es.
Proof. intros H. apply list_elem_of_omap. by exists (resetObjectChange l). Qed.

Lemma live_view s a l o : live_at s a l o ->
  v_accounts (state_view s) a = Some (object_view s.(db) a o).
Proof. intros (Ha & Ho & Hd). simpl. unfold lookup_object. rewrite Ha. simpl. rewrite Ho. simpl. by rewrite Hd. Qed.

Lemma vset_id v a x : v_accounts v a ≡ x -> vset v a x ≡ v.
Proof. intros H. split_and!; simpl; try done. intros b. case_decide; [by subst|done]. Qed.

Lemma vset_vset v a x y : vset (vset v a x) a y ≡ vset v a y.
Proof. split_and!; simpl; try done. intros b. by case_decide. Qed.

Lemma valter_vset v a x f : valter (vset v a (Some x)) a f ≡ vset v a (Some (f x)).
Proof. unfold valter. simpl. rewrite decide_True by done. simpl. apply vset_vset. Qed.

(** ** Quiet steps *)
Record quiet (es : list journalEntry) (s s' : state) : Prop := {
  q_heap : heap_ok es s';
  q_db : s'.(db) = s.(db);
  q_trie : s'.(accountTrie) = s.(accountTrie);
  q_changes : s'.(changes) = s.(changes);
  q_revs : s'.(validRevisions) = s.(validRevisions);
  q_next : s'.(nextRevisionId) = s.(nextRevisionId);
  q_tx : s'.(thash) = s.(thash);
  q_resolve : resolved s' es = resolved s es;
  q_view : state_view s' ≡ state_view s
}.

Lemma quiet_refl es s : heap_ok es s -> quiet es s s.
Proof. by split. Qed.

Lemma quiet_trans es s1 s2 s3 : quiet es s1 s2 -> quiet es s2 s3 -> quiet es s1 s3.
Proof. intros [] []. split; try congruence. by etrans. Qed.

Lemma quiet_known es s s' a : quiet es s s' -> known s' a = known s a.
Proof. intros Hq. unfold known. by rewrite (q_db _ _ _ Hq), (q_trie _ _ _ Hq). Qed.

Lemma replayable_ext (P Q : Z -> Prop) rs v : (forall a, P a = Q a) ->
  replayable P rs v -> replayable Q rs v.
Proof.
  intros HPQ. revert v. induction rs as [|e rs IH]; intros v; simpl; [done|].
  intros [He Hr]. split; [|by apply IH]. destruct e; simpl in *; try done. by rewrite <- HPQ.
Qed.

Lemma quiet_wf es s s' : quiet es s s' -> wf es s -> wf es s'.
Proof.
  intros Hq [Hh He Hr Hn]. split; [apply Hq|done| |].
  - apply (replayable_ext (known s)); [intros; symmetry; by eapply quiet_known|].
    rewrite (q_resolve _ _ _ Hq). by rewrite (q_view _ _ _ Hq).
  - destruct (q_view _ _ _ Hq) as (_ & _ & _ & Hsz & _). simpl in Hsz. by rewrite Hsz.
Qed.

(** The parts of a state the heap is about. *)
Lemma heap_ok_ext es s s' : s'.(db) = s.(db) -> s'.(accountTrie) = s.(accountTrie) ->
  s'.(objects) = s.(objects) -> s'.(StateObjects) = s.(StateObjects) ->
  heap_ok es s -> heap_ok es s'.
Proof. intros H1 H2 H3 H4 []. split; rewrite ?H1, ?H2, ?H3, ?H4; done. Qed.

Lemma heap_ok_incl es es' s : prevs es' = prevs es -> heap_ok es s -> heap_ok es' s.
Proof. intros H []. split; rewrite ?H; done. Qed.

Lemma heap_ok_tail es e s : heap_ok (e :: es) s -> heap_ok es s.
Proof.
  intros [Ht Hl Hn Hp]. split; [done|done| |].
  - unfold prevs in *. simpl in Hn. destruct (prev_of e); [by apply NoDup_cons in Hn as [_ ?]|done].
  - intros l Hin. apply Hp. unfold prevs in *. simpl. destruct (prev_of e); [by right|done].
Qed.

(** ** Changing a live object *)
Definition upd (s : state) (l : loc) (f : stateObject -> stateObject) : state :=
  set_objects s (alter f l s.(objects)) s.(StateObjects) s.(stateObjectsDirty).

Section Update.
Context (es : list journalEntry) (s : state) (a : Z) (l : loc) (o : stateObject)
  (f : stateObject -> stateObject) (Hh : heap_ok es s) (Hlive : live_at s a l o)
  (Hok : obj_ok a (f o)) (Hd : (f o).(deleted) = false).

Lemma upd_heap : heap_ok es (upd s l f).
Proof using Hh Hlive Hok Hd.
  destruct Hlive as (Ha & Ho & Hdo). split; simpl.
  - apply Hh.
  - intros b l' Hb. destruct (h_live _ _ Hh b l' Hb) as (Hr & o' & Ho' & Hok' & Hdel).
    split; [done|]. destruct (decide (l = l')) as [<-|Hne].
    + rewrite list_lookup_alter_eq, Ho'. exists (f o'). rewrite Ho in Ho'. injection Ho' as <-.
      rewrite (live_unique es s b a l o Hh Hb Ho); [|apply (live_obj_ok es s a l o Hh); by split_and!].
      split; [done|]. split; [done|]. by rewrite Hd.
    + rewrite list_lookup_alter_ne by done. by exists o'.
  - apply Hh.
  - intros l' Hl'. destruct (h_prev _ _ Hh l' Hl') as (b & o' & Hr & Ho' & ? & ? & ?).
    exists b, o'. rewrite list_lookup_alter_ne; [done|].
    intros ->. by apply (prev_not_live es s a l' l' o Hh) in Hl'.
Qed.

Lemma upd_resolved : resolved (upd s l f) es = resolved s es.
Proof using Hh Hlive.
  unfold resolved. apply list_fmap_ext. intros i e He. apply list_elem_of_lookup_2 in He.
  destruct e; simpl; try done.
  rewrite list_lookup_alter_ne; [done|]. intros ->.
  apply (prev_not_live es s a prev prev o Hh Hlive); [by apply prev_elem|done].
Qed.

Lemma upd_view : state_view (upd s l f) ≡ vset (state_view s) a (Some (object_view s.(db) a (f o))).
Proof using Hh Hlive Hd.
  destruct Hlive as (Ha & Ho & Hdo). split_and!; simpl; try done. intros b.
  unfold lookup_object. simpl. destruct (decide (a = b)) as [<-|Hne].
  - rewrite Ha. simpl. rewrite list_lookup_alter_eq, Ho. simpl. by rewrite Hd.
  - destruct (StateObjects s !! b) as [l'|] eqn:Hb; simpl; [|done].
    rewrite list_lookup_alter_ne; [done|]. intros <-. apply Hne.
    symmetry. apply (live_unique es s b a l o Hh Hb Ho), (live_obj_ok es s a l o Hh). by split_and!.
Qed.

Lemma upd_live : live_at (upd s l f) a l (f o).
Proof using Hlive Hd.
  destruct Hlive as (Ha & Ho & _). split; [done|]. split; [|done]. simpl.
  by rewrite list_lookup_alter_eq, Ho.
Qed.

(** A change no reader sees. *)
Lemma upd_quiet : object_view s.(db) a (f o) ≡ object_view s.(db) a o -> quiet es s (upd s l f).
Proof using Hh Hlive Hok Hd.
  intros Hv. split; [apply upd_heap|done..|apply upd_resolved|].
  rewrite upd_view. apply vset_id. rewrite (live_view _ _ _ _ Hlive). by rewrite Hv.
Qed.
End Update.

(** ** Quiet operations *)
Lemma bind_eq {A B} (m : ST A) (k : A -> ST B) s s' x :
  m s = Some (s', x) -> (m ≫= k) s = k x s'.
Proof. unfold mbind, ST_bind. by intros ->. Qed.

Lemma deref_eq s a l o : live_at s a l o -> deref l s = Some (s, o).
Proof. intros (_ & Ho & _). unfold deref. by rewrite Ho. Qed.

Lemma update_eq s l f : update l f s = Some (upd s l f, tt).
Proof. done. Qed.

Lemma address_eq {A} es s a l o (k : Z -> ST A) s' : heap_ok es s -> live_at s a l o ->
  (lift (Obj.getAddress o) ≫= k) s' = k a s'.
Proof.
  intros Hh Hl. apply bind_eq. unfold lift.
  by rewrite (ok_address _ _ (proj1 (live_obj_ok _ _ _ _ _ Hh Hl))).
Qed.

(** An update that keeps what a reader sees, and the object's invariant. *)
Lemma update_quiet es s a l o f : heap_ok es s -> live_at s a l o ->
  obj_ok a (f o) -> (f o).(deleted) = false ->
  object_view s.(db) a (f o) ≡ object_view s.(db) a o ->
  quiet es s (upd s l f) /\ live_at (upd s l f) a l (f o).
Proof. intros Hh Hl Hok Hd Hv. split; [by eapply upd_quiet|by apply upd_live]. Qed.

(** The fields of an object that errors, tries and caches leave alone. *)
Lemma obj_ok_fields a o o' : o'.(account) = o.(account) -> o'.(code) = o.(code) ->
  obj_ok a o -> obj_ok a o'.
Proof. intros Ha Hc [H1 H2 H3 H4]. split; unfold Obj.getAddress in *; rewrite ?Ha, ?Hc; done. Qed.

Lemma object_view_ext d a o o' : o'.(account) = o.(account) -> o'.(code) = o.(code) ->
  o'.(suicided) = o.(suicided) ->
  (forall k, storage_value d a o' k = storage_value d a o k) ->
  object_view d a o' ≡ object_view d a o.
Proof. intros Ha Hc Hs Hst. split_and!; simpl; rewrite ?Ha, ?Hc, ?Hs; done. Qed.

Lemma obj_setError_ok es s a l o e : heap_ok es s -> live_at s a l o ->
  exists s' o', Obj.setError l e s = Some (s', tt) /\ quiet es s s' /\ live_at s' a l o' /\
    o'.(trie) = o.(trie) /\ o'.(cachedStorage) = o.(cachedStorage) /\
    o'.(account) = o.(account) /\ o'.(code) = o.(code).
Proof.
  intros Hh Hl. destruct (live_obj_ok _ _ _ _ _ Hh Hl) as [Hok _].
  eexists _, _. split; [apply update_eq|].
  match goal with |- context [upd s l ?g] => set (f := g) end.
  assert (Hf : (f o).(account) = o.(account) /\ (f o).(code) = o.(code) /\
    (f o).(suicided) = o.(suicided) /\ (f o).(deleted) = o.(deleted) /\ (f o).(trie) = o.(trie) /\
    (f o).(cachedStorage) = o.(cachedStorage)) by (subst f; simpl; by destruct (objErr o)).
  destruct Hf as (Ha & Hc & Hs & Hd & Ht & Hst).
  destruct (update_quiet es s a l o f Hh Hl) as [? ?].
  - by apply (obj_ok_fields a o).
  - rewrite Hd. apply Hl.
  - apply object_view_ext; [done..|]. intros k. unfold storage_value, opened_trie. by rewrite Hst, Ht, Ha.
  - split; [done|]. split; [done|]. done.
Qed.

Lemma obj_getTrie_ok es s a l o : heap_ok es s -> live_at s a l o ->
  exists s' o', Obj.getTrie l s = Some (s', opened_trie s.(db) a o) /\ quiet es s s' /\
    live_at s' a l o' /\ o'.(cachedStorage) = o.(cachedStorage) /\
    o'.(account) = o.(account) /\ o'.(code) = o.(code).
Proof.
  intros Hh Hl. destruct (live_obj_ok _ _ _ _ _ Hh Hl) as [Hok _].
  unfold Obj.getTrie. rewrite (bind_eq _ _ _ _ _ (deref_eq _ _ _ _ Hl)).
  unfold opened_trie. destruct (trie o) as [t|] eqn:Et.
  { exists s, o. split; [done|]. split; [by apply quiet_refl|]. by split_and!. }
  rewrite (address_eq es s a l o _ s Hh Hl). cbv zeta.
  rewrite (bind_eq (gets db) _ s s s.(db) eq_refl). unfold address_hash.
  assert (Hset : forall t, (forall k, storage_value (db s) a (with_trie o t) k = storage_value (db s) a o k) ->
    quiet es s (upd s l (fun o => with_trie o t)) /\
    live_at (upd s l (fun o => with_trie o t)) a l (with_trie o t)).
  { intros t Hv. apply (update_quiet es s a l o (fun o => with_trie o t));
      [done|done|by apply (obj_ok_fields a o)|apply Hl|].
    by apply object_view_ext. }
  assert (Hst : forall t, t = opened_trie s.(db) a o -> forall k,
    storage_value (db s) a (with_trie o t) k = storage_value (db s) a o k).
  { intros t -> k. unfold storage_value, opened_trie. simpl. by rewrite Et. }
  unfold opened_trie in Hst. rewrite Et in Hst. unfold address_hash in Hst.
  destruct (OpenStorageTrie _ _ (Root _)) as [t [e|]] eqn:Eo.
  - destruct (OpenStorageTrie _ _ 0) as [t' e'] eqn:Eo'. cbn [fst] in *.
    destruct (Hset t' (Hst t' eq_refl)) as [Hq1 Hl1].
    destruct (obj_setError_ok es _ a l _ (Some (errStorageTrie e)) (q_heap _ _ _ Hq1) Hl1)
      as (s2 & o2 & He & Hq2 & Hl2 & _ & Hc2 & Ha2 & Hcd2).
    exists s2, o2. rewrite (bind_eq _ _ _ _ _ (update_eq _ _ _)), (bind_eq _ _ _ _ _ He).
    split; [done|]. split; [by eapply quiet_trans|]. done.
  - destruct (Hset t (Hst t eq_refl)) as [Hq1 Hl1].
    eexists _, _. rewrite (bind_eq _ _ _ _ _ (update_eq _ _ _)).
    split; [done|]. split; [exact Hq1|]. by split_and!.
Qed.

Lemma quiet_object es s s' a l o l' o' : quiet es s s' -> live_at s a l o -> live_at s' a l' o' ->
  object_view s.(db) a o' ≡ object_view s.(db) a o.
Proof.
  intros Hq Hl Hl'. destruct (q_view _ _ _ Hq) as [Hv _]. specialize (Hv a).
  rewrite (live_view _ _ _ _ Hl), (live_view _ _ _ _ Hl'), (q_db _ _ _ Hq) in Hv.
  by apply (inj Some) in Hv.
Qed.

Lemma obj_GetState_ok es s a l o key : heap_ok es s -> live_at s a l o ->
  exists s' o', Obj.GetState l key s = Some (s', storage_value s.(db) a o key) /\ quiet es s s' /\
    live_at s' a l o'.
Proof.
  intros Hh Hl. unfold Obj.GetState. rewrite (bind_eq _ _ _ _ _ (deref_eq _ _ _ _ Hl)).
  unfold storage_value. destruct (cachedStorage o !! key) as [v|] eqn:Ec.
  { exists s, o. split; [done|]. split; [by apply quiet_refl|done]. }
  destruct (obj_getTrie_ok es s a l o Hh Hl) as (s1 & o1 & Hg & Hq1 & Hl1 & Hc1 & _ & _).
  rewrite (bind_eq _ _ _ _ _ Hg), (bind_eq (gets db) _ s1 s1 s.(db))
    by (unfold gets; by rewrite (q_db _ _ _ Hq1)).
  set (t := opened_trie (db s) a o). unfold trie_value.
  destruct (TryGet (db s) t (be_bytes HashLength key)) as [enc [e|]] eqn:Eg.
  { destruct (obj_setError_ok es s1 a l o1 (Some (errDatabase e)) (q_heap _ _ _ Hq1) Hl1)
      as (s2 & o2 & He & Hq2 & Hl2 & _). exists s2, o2. rewrite (bind_eq _ _ _ _ _ He).
    split; [done|]. split; [by eapply quiet_trans|done]. }
  (* reading the value *)
  set (m := if (0 <? length enc)%nat then _ else _ : ST Z).
  set (v := if (0 <? length enc)%nat then BytesToHash (default [] (Split enc)) else 0).
  assert (exists s2 o2, m s1 = Some (s2, v) /\ quiet es s1 s2 /\ live_at s2 a l o2) as
    (s2 & o2 & Hm & Hq2 & Hl2).
  { subst m v. destruct (0 <? length enc)%nat.
    - destruct (Split enc) as [content|].
      + exists s1, o1. split; [done|]. split; [by apply quiet_refl, (q_heap _ _ _ Hq1)|done].
      + destruct (obj_setError_ok es s1 a l o1 (Some errSplit) (q_heap _ _ _ Hq1) Hl1)
          as (s2 & o2 & He & Hq2 & Hl2 & _). exists s2, o2. rewrite (bind_eq _ _ _ _ _ He). done.
    - exists s1, o1. split; [done|]. split; [by apply quiet_refl, (q_heap _ _ _ Hq1)|done]. }
  rewrite (bind_eq _ _ _ _ _ Hm). clear Hm. clearbody m.
  assert (Hq02 : quiet es s s2) by (by eapply quiet_trans).
  assert (Hv : storage_value s.(db) a o key = v).
  { unfold storage_value. rewrite Ec. unfold trie_value. fold t. by rewrite Eg. }
  clearbody v. destruct (v =? 0) eqn:E0; cbn [negb].
  { exists s2, o2. split; [done|]. by split. }
  destruct (live_obj_ok _ _ _ _ _ (q_heap _ _ _ Hq2) Hl2) as [Hok2 _].
  destruct (update_quiet es s2 a l o2
    (fun o => with_storage o (<[key:=v]> (cachedStorage o)) (dirtyStorage o)) (q_heap _ _ _ Hq2) Hl2)
    as [Hq3 Hl3].
  - by apply (obj_ok_fields a o2).
  - apply Hl2.
  - apply object_view_ext; [done..|]. intros k. unfold storage_value at 1. simpl.
    destruct (decide (key = k)) as [<-|Hne].
    + rewrite lookup_insert_eq.
      pose proof (quiet_object es s s2 a l o l o2 Hq02 Hl Hl2) as (_ & _ & _ & _ & Hvs & _).
      specialize (Hvs key). simpl in Hvs. rewrite (q_db _ _ _ Hq02). by rewrite Hvs.
    + by rewrite lookup_insert_ne by done.
  - eexists _, _. rewrite (bind_eq _ _ _ _ _ (update_eq _ _ _)). split; [done|].
    split; [by eapply quiet_trans|exact Hl3].
Qed.

Lemma code_value_bytes d a c h : code_ok c h -> is_Some h ->
  is_bytes (code_value d a c h) /\
  (code_value d a c h = [] \/ NewHash (code_value d a c h) = slice_hash h).
Proof.
  intros Hc [b ->]. unfold code_value. destruct c as [c|]; [by apply Hc|].
  case_match; [split; [apply is_bytes_nil|by left]|].
  pose proof (backend_code d (address_hash a) b) as Hbk. simpl.
  destruct (ContractCode _ _ _) as [[c|] e]; simpl; [by apply (Hbk c)|].
  split; [apply is_bytes_nil|by left].
Qed.

Lemma obj_Code_ok es s a l o : heap_ok es s -> live_at s a l o ->
  exists s' o', Obj.Code l s = Some (s', o'.(code)) /\ quiet es s s' /\ live_at s' a l o' /\
    default [] o'.(code) = code_value s.(db) a o.(code) o.(account).(AccCodeHash).
Proof.
  intros Hh Hl. destruct (live_obj_ok _ _ _ _ _ Hh Hl) as [Hok _].
  unfold Obj.Code, code_value. rewrite (bind_eq _ _ _ _ _ (deref_eq _ _ _ _ Hl)).
  destruct (code o) as [c|] eqn:Ec.
  { exists s, o. rewrite Ec. split; [done|]. split; [by apply quiet_refl|done]. }
  destruct (_ || _) eqn:Ee.
  { exists s, o. rewrite Ec. split; [done|]. split; [by apply quiet_refl|done]. }
  rewrite (address_eq es s a l o _ s Hh Hl), (bind_eq (gets db) _ s s s.(db) eq_refl).
  fold (address_hash a).
  destruct (ContractCode (db s) _ _) as [c e] eqn:Eg. cbn [fst].
  set (m := match e with Some err => _ | None => _ end : ST unit).
  assert (exists s1 o1, m s = Some (s1, tt) /\ quiet es s s1 /\ live_at s1 a l o1 /\
    o1.(account) = o.(account) /\ o1.(code) = o.(code)) as (s1 & o1 & Hm & Hq1 & Hl1 & Ha1 & Hc1).
  { subst m. destruct e as [e|].
    - destruct (obj_setError_ok es s a l o (Some (errCodeHash e)) Hh Hl)
        as (s1 & o1 & He & Hq & Hl1 & _ & _ & Ha & Hc). by exists s1, o1.
    - exists s, o. split; [done|]. split; [by apply quiet_refl|done]. }
  rewrite (bind_eq _ _ _ _ _ Hm). clear Hm. clearbody m.
  destruct (live_obj_ok _ _ _ _ _ (q_heap _ _ _ Hq1) Hl1) as [Hok1 _].
  assert (Hcode : code_ok c o.(account).(AccCodeHash)).
  { destruct (ok_hash _ _ Hok) as [b Hb]. rewrite Hb in Eg |- *.
    intros x ->. pose proof (backend_code (db s) (address_hash a) b) as Hbk.
    unfold slice_hash in Eg. simpl in Eg. rewrite Eg in Hbk. by apply Hbk. }
  destruct (update_quiet es s1 a l o1 (fun o => with_code o c) (q_heap _ _ _ Hq1) Hl1) as [Hq2 Hl2].
  - destruct Hok1. split; simpl; try done. by rewrite Ha1.
  - apply Hl1.
  - split_and!; simpl; try done. rewrite Ha1, Hc1, Ec, (q_db _ _ _ Hq1). unfold code_value.
    rewrite Ee. destruct c as [c|]; rewrite ?Eg; done.
  - eexists _, (with_code o1 c). rewrite (bind_eq _ _ _ _ _ (update_eq _ _ _)). split; [done|].
    split; [by eapply quiet_trans|]. done.
Qed.

(** *** Getting an object *)
Lemma setError_quiet es s e : heap_ok es s ->
  exists s', SDB.setError e s = Some (s', tt) /\ quiet es s s' /\ s'.(objects) = s.(objects) /\
    s'.(StateObjects) = s.(StateObjects).
Proof.
  intros Hh. eexists. split; [done|]. cbv beta.
  destruct (dbErr s) as [x|]; (split; [split; try done; by apply (heap_ok_ext es s)|done]).
Qed.

Lemma newStateObject_ok a x : account_ok a x -> obj_ok a (Obj.newStateObject x).
Proof.
  intros (Ha & Hb). destruct x as [addr pk nm [b|] th up cr no ro [h|]]; simpl in *.
  all: split; unfold Obj.getAddress; simpl; try done.
  all: try (by exists b; split; [|apply Hb]).
  all: try (by exists 0).
Qed.

Lemma newStateObject_fields x : (Obj.newStateObject x).(deleted) = false /\
  (Obj.newStateObject x).(account).(AccAddress) = x.(AccAddress).
Proof. by destruct x as [addr pk nm [b|] th up cr no ro [h|]]. Qed.

(** A fresh object becomes the live one of its address. *)
Definition install (s : state) (a : Z) (o : stateObject) : state :=
  set_objects s (s.(objects) ++ [o]) (<[a := length s.(objects)]> s.(StateObjects))
    s.(stateObjectsDirty).

Lemma install_eq s a o : Obj.getAddress o = Some a ->
  (l ← alloc o; SDB.setStateObject l;; mret (Some l)) s =
    Some (install s a o, Some (length s.(objects))).
Proof.
  intros Ha. unfold SDB.setStateObject, mbind, ST_bind, alloc, deref, lift, modify. simpl.
  rewrite list_lookup_middle by done. by rewrite Ha.
Qed.

Lemma install_live s a o : o.(deleted) = false -> live_at (install s a o) a (length s.(objects)) o.
Proof.
  intros Hd. split; [by simpl; rewrite lookup_insert_eq|]. split; [|done]. simpl.
  by apply list_lookup_middle.
Qed.

Lemma install_heap es s a o : heap_ok es s -> address_ok a -> obj_ok a o -> o.(deleted) = false ->
  heap_ok es (install s a o).
Proof.
  intros Hh Ha Hok Hd. split; simpl.
  - apply Hh.
  - intros b l Hb. destruct (decide (a = b)) as [<-|Hne].
    + rewrite lookup_insert_eq in Hb. injection Hb as <-. split; [done|]. exists o.
      rewrite list_lookup_middle by done. split; [done|]. split; [done|]. by rewrite Hd.
    + rewrite lookup_insert_ne in Hb by done. destruct (h_live _ _ Hh b l Hb) as (? & o' & Ho' & ?).
      split; [done|]. exists o'. split; [by apply lookup_app_l_Some|done].
  - apply Hh.
  - intros l Hl. destruct (h_prev _ _ Hh l Hl) as (b & o' & ? & Ho' & ? & ? & Hne).
    exists b, o'. split; [done|]. split; [by apply lookup_app_l_Some|]. split; [done|].
    split; [done|]. destruct (decide (a = b)) as [<-|]; [|by rewrite lookup_insert_ne by done].
    rewrite lookup_insert_eq. intros [= <-]. apply lookup_lt_Some in Ho'. lia.
Qed.

Lemma install_resolved es s a o : heap_ok es s -> resolved (install s a o) es = resolved s es.
Proof.
  intros Hh. unfold resolved. apply list_fmap_ext. intros i e He. apply list_elem_of_lookup_2 in He.
  destruct e; simpl; try done.
  destruct (h_prev _ _ Hh prev (prev_elem _ _ He)) as (b & o' & _ & Ho' & _).
  rewrite (lookup_app_l_Some _ _ _ _ Ho'). by rewrite Ho'.
Qed.

Lemma install_view s a o es : heap_ok es s -> o.(deleted) = false ->
  state_view (install s a o) ≡ vset (state_view s) a (Some (object_view s.(db) a o)).
Proof.
  intros Hh Hd. split_and!; simpl; try done. intros b. unfold lookup_object. simpl.
  destruct (decide (a = b)) as [<-|Hne].
  - rewrite lookup_insert_eq. simpl. rewrite list_lookup_middle by done. simpl. by rewrite Hd.
  - rewrite lookup_insert_ne by done. destruct (StateObjects s !! b) as [l|] eqn:Hb; simpl; [|done].
    destruct (h_live _ _ Hh b l Hb) as (_ & o' & Ho' & _).
    by rewrite (lookup_app_l_Some _ _ _ _ Ho'), Ho'.
Qed.

Lemma getStateObject_ok es s a : heap_ok es s -> address_ok a ->
  exists s' r, SDB.getStateObject a s = Some (s', r) /\ quiet es s s' /\
    match r with
    | None => lookup_object s a = None /\ load s.(db) s.(accountTrie) a = None
    | Some l => exists o, live_at s' a l o /\ lookup_object s a = Some o
    end.
Proof.
  intros Hh Ha. unfold SDB.getStateObject. rewrite (bind_eq (gets StateObjects) _ s s _ eq_refl).
  destruct (StateObjects s !! a) as [l|] eqn:El.
  { destruct (h_live _ _ Hh a l El) as (_ & o & Ho & Hok & Hdel).
    exists s, (if deleted o then None else Some l).
    rewrite (bind_eq (deref l) _ s s o) by (unfold deref; by rewrite Ho).
    split; [done|]. split; [by apply quiet_refl|].
    unfold lookup_object. rewrite El. simpl. rewrite Ho. simpl.
    destruct (deleted o) eqn:Ed; [by split; [|apply Hdel]|]. exists o. by split_and!. }
  rewrite (bind_eq (gets (fun s => s)) _ s s s eq_refl).
  unfold lookup_object. rewrite El. pose proof (h_trie _ _ Hh a) as Htrie. unfold load in *.
  destruct (TryGet (db s) (accountTrie s) (be_bytes AddressLength a)) as [enc err] eqn:Eg.
  destruct (length enc =? 0)%nat eqn:El0.
  { destruct (setError_quiet es s (errDatabase <$> err) Hh) as (s1 & He & Hq & Hobj & Hmap).
    exists s1, None. rewrite (bind_eq _ _ _ _ _ He). split; [done|]. split; [done|]. done. }
  destruct (DecodeAccount enc) as [data|] eqn:Edec.
  - specialize (Htrie data Ha eq_refl). destruct (newStateObject_fields data) as [Hd _].
    pose proof (newStateObject_ok a data Htrie) as Hok.
    rewrite (install_eq s a _ (ok_address _ _ Hok)). eexists _, _. split; [done|]. split.
    + split; try done; [by apply install_heap|by apply install_resolved|].
      rewrite (install_view s a _ es Hh Hd). apply vset_id. simpl. unfold lookup_object.
      rewrite El. unfold load. by rewrite Eg, El0, Edec.
    + eexists. split; [by apply install_live|done].
  - exists s, None. split; [done|]. split; [by apply quiet_refl|done].
Qed.
End Rollback.
