(* ===== verification/StateSteps.v ===== *)
(** * What each operation of the state does

    Every operation of statedb.go that changes accounts, refund, logs or
    preimages ends without a panic and [advances] the state: the invariant is
    kept and undoing the entries it appended gives the content back. *)
From Stdlib Require Import ZArith Lia.
From S2P Require Import Prelude Word Hex Config OpCodes Analysis Machine StateData Journal.
From S2P Require Import StateView StateSpec Rollback.
Import Big.
Open Scope Z_scope.

Section Steps.
Context {DBI : Database} {CD : Codec} {AC : Accounts} {CR : Crypto} {GR : GoRange}
  {BL : BackendLaws}.

#[local] Arguments be_bytes : simpl never.

Abbreviation history s := s.(changes).(entries).

Record advances (s s' : state) : Prop := {
  a_wf : wf (history s') s';
  a_db : s'.(db) = s.(db);
  a_trie : s'.(accountTrie) = s.(accountTrie);
  a_revs : s'.(validRevisions) = s.(validRevisions);
  a_next : s'.(nextRevisionId) = s.(nextRevisionId);
  a_old : resolved s' (history s) = resolved s (history s);
  a_undo : exists es, history s' = es ++ history s /\
    vundo_all (resolved s' es) (state_view s') ≡ state_view s
}.

Lemma advances_refl s : wf (history s) s -> advances s s.
Proof. intros Hw. split; try done. by exists []. Qed.

Lemma advances_trans s1 s2 s3 : advances s1 s2 -> advances s2 s3 -> advances s1 s3.
Proof.
  intros [W1 D1 T1 R1 N1 O1 (es1 & E1 & U1)] [W2 D2 T2 R2 N2 O2 (es2 & E2 & U2)].
  rewrite E1 in O2. unfold resolved in O2. rewrite !fmap_app in O2.
  apply app_inj_1 in O2 as [O2a O2b]; [|by rewrite !length_fmap].
  split; try congruence; [unfold resolved in *; congruence|].
  exists (es2 ++ es1). split; [by rewrite E2, E1, app_assoc|].
  unfold resolved. rewrite fmap_app, vundo_all_app. unfold resolved in U2.
  rewrite U2, O2a. exact U1.
Qed.

Lemma quiet_advances s s' : wf (history s) s -> quiet (history s) s s' -> advances s s'.
Proof.
  intros Hw Hq. pose proof (quiet_wf _ _ _ Hq Hw) as Hw'. destruct Hq.
  split; try congruence. exists []. split; [by rewrite q_changes|]. done.
Qed.

(** Nothing but the account changes. *)
Definition only (a : Z) (s s' : state) : Prop :=
  state_view s' ≡ vset (state_view s) a (v_accounts (state_view s') a).

Lemma vset_only a s s' x : state_view s' ≡ vset (state_view s) a x -> only a s s'.
Proof.
  intros Hv. unfold only. rewrite Hv at 1. apply vset_proper; [done|done|].
  destruct Hv as [Ha _]. rewrite (Ha a). simpl. by rewrite decide_True.
Qed.

Lemma only_trans a s1 s2 s3 : only a s1 s2 -> only a s2 s3 -> only a s1 s3.
Proof. unfold only. intros H1 H2. rewrite H2 at 1. rewrite H1 at 1. apply vset_vset. Qed.

Lemma same_only a s s' : state_view s' ≡ state_view s -> only a s s'.
Proof. intros Hv. apply (vset_only _ _ _ (v_accounts (state_view s) a)). by rewrite vset_id. Qed.

Lemma only_refl a s : only a s s.
Proof. by apply same_only. Qed.

Lemma quiet_only es a s s' : quiet es s s' -> only a s s'.
Proof. intros Hq. apply same_only, Hq. Qed.

Lemma only_other a s s' b : only a s s' -> b <> a ->
  v_accounts (state_view s') b ≡ v_accounts (state_view s) b.
Proof. intros [H _] Hb. rewrite (H b). simpl. by rewrite decide_False by congruence. Qed.

(** The account, if it is there, changes by [g], and nothing else does. *)
Record alters (a : Z) (g : AccountView -> AccountView) (s s' : state) : Prop := {
  al_only : only a s s';
  al_at : forall x, v_accounts (state_view s) a ≡ Some x ->
    exists y, v_accounts (state_view s') a = Some y /\ y ≡ g x
}.

Lemma alters_live a g s s' l l' o o' : Proper ((≡) ==> (≡)) g -> only a s s' ->
  live_at s a l o -> live_at s' a l' o' ->
  object_view s'.(db) a o' ≡ g (object_view s.(db) a o) -> alters a g s s'.
Proof.
  intros Hg Ho Hl Hl' Hv. split; [done|]. intros x Hx. rewrite (live_view _ _ _ _ Hl) in Hx.
  eexists. split; [by apply (live_view _ _ l')|]. rewrite Hv. apply Hg. by apply (inj Some).
Qed.

Lemma alters_same_l a g s1 s2 s3 : alters a (fun x => x) s1 s2 -> alters a g s2 s3 -> alters a g s1 s3.
Proof.
  intros [O1 A1] [O2 A2]. split; [by eapply only_trans|]. intros x Hx.
  destruct (A1 x Hx) as (y & Hy & Hyx). apply A2. rewrite Hy. by constructor.
Qed.

Lemma alters_same_r a g s1 s2 s3 : alters a g s1 s2 -> alters a (fun x => x) s2 s3 -> alters a g s1 s3.
Proof.
  intros [O1 A1] [O2 A2]. split; [by eapply only_trans|]. intros x Hx.
  destruct (A1 x Hx) as (y & Hy & Hyx). destruct (A2 y) as (z & Hz & Hzy); [by rewrite Hy|].
  exists z. split; [done|]. by rewrite Hzy.
Qed.

Lemma quiet_alters es a s s' : quiet es s s' -> alters a (fun x => x) s s'.
Proof.
  intros Hq. split; [by eapply quiet_only|]. intros x Hx. destruct (q_view _ _ _ Hq) as [Hv _].
  specialize (Hv a). rewrite Hx in Hv. inversion Hv as [y ? Hy Heq|]. by exists y.
Qed.

(** On an account that is there this is the whole change. *)
Lemma alters_view a g s s' : Proper ((≡) ==> (≡)) g -> alters a g s s' ->
  is_Some (v_accounts (state_view s) a) -> state_view s' ≡ valter (state_view s) a g.
Proof.
  intros Hg [Ho Hat] [x Hx]. destruct (Hat x) as (y & Hy & Hyx); [by rewrite Hx|].
  etrans; [exact Ho|]. unfold valter. apply vset_proper; [done|done|]. rewrite Hx, Hy. by constructor.
Qed.

(** ** Writing an object *)
Definition log_entry (s : state) (e : journalEntry) : state :=
  set_changes s (Jrn.append_entry s.(changes) e) s.(validRevisions) s.(nextRevisionId).

Lemma append_eq e s : Jrn.append e s = Some (log_entry s e, tt).
Proof. done. Qed.

Lemma log_heap es s e : heap_ok es s -> heap_ok es (log_entry s e).
Proof. by apply heap_ok_ext. Qed.

Lemma log_live s e a l o : live_at s a l o -> live_at (log_entry s e) a l o.
Proof. done. Qed.

(** An entry and the update it undoes. *)
Lemma write_advances s a l o o' f e : f o = o' -> wf (history s) s -> live_at s a l o ->
  obj_ok a (f o) -> (f o).(deleted) = false -> entry_ok e -> prev_of e = None ->
  (forall v, is_Some (v_accounts v a) -> undoable (known s) (resolve s.(db) s.(objects) e) v) ->
  vundo (resolve s.(db) s.(objects) e)
    (vset (state_view s) a (Some (object_view s.(db) a (f o)))) ≡
    vset (state_view s) a (Some (object_view s.(db) a o)) ->
  advances s (upd (log_entry s e) l f) /\ live_at (upd (log_entry s e) l f) a l o' /\
  only a s (upd (log_entry s e) l f).
Proof.
  intros <- [Hh He Hr Hn] Hl Hok Hd Heok Hprev Hundoable Hundo.
  assert (Hh' : heap_ok (e :: history s) (log_entry s e)).
  { apply log_heap, (heap_ok_incl (history s)); [|done]. unfold prevs. simpl. by rewrite Hprev. }
  pose proof (log_live s e a l o Hl) as Hl'.
  pose proof (upd_heap _ _ a l o f Hh' Hl' Hok Hd) as Hh2.
  pose proof (upd_resolved _ _ a l o f Hh' Hl') as Hres.
  pose proof (upd_view _ _ a l o f Hh' Hl' Hd) as Hview.
  assert (Hback : vundo (resolve s.(db) s.(objects) e) (state_view (upd (log_entry s e) l f)) ≡
    state_view s).
  { rewrite Hview. change (state_view (log_entry s e)) with (state_view s).
    change (db (log_entry s e)) with (db s). rewrite Hundo. apply vset_id.
    by rewrite (live_view _ _ _ _ Hl). }
  split; [|by split; [apply upd_live|by apply (vset_only a _ _ _ Hview)]]. split; try done.
  - split; [done|by constructor| |done].
    change (history (upd (log_entry s e) l f)) with (e :: history s). rewrite Hres.
    split.
    + apply Hundoable. rewrite (live_view _ a l (f o)); [done|]. by apply upd_live.
    + change (resolved (log_entry s e) (history s)) with (resolved s (history s)).
      change (resolve (db (log_entry s e)) (objects (log_entry s e)) e) with
        (resolve (db s) (objects s) e). by rewrite Hback.
  - by injection Hres.
  - exists [e]. split; [done|]. set (s' := upd (log_entry s e) l f) in *.
    assert (resolve s'.(db) s'.(objects) e = resolve s.(db) s.(objects) e) as Hr1
      by (by injection Hres).
    change (vundo (resolve s'.(db) s'.(objects) e) (state_view s') ≡ state_view s).
    by rewrite Hr1.
Qed.

(** The entries that change one field back. *)
Lemma valter_undo v a x y g : g y ≡ x -> valter (vset v a (Some y)) a g ≡ vset v a (Some x).
Proof. intros H. rewrite valter_vset. apply vset_proper; [done|done|]. by constructor. Qed.

(** ** Objects: state_object.go *)
Lemma obj_SetBalance_ok s a l o b : wf (history s) s -> live_at s a l o -> 0 <= b ->
  exists s', Obj.SetBalance l b s = Some (s', tt) /\ advances s s' /\
    live_at s' a l (with_account o (with_Balance o.(account) (Some b))) /\ only a s s'.
Proof.
  intros Hw Hl Hb. destruct (live_obj_ok _ _ _ _ _ (wf_heap _ _ Hw) Hl) as [Hok Ha].
  unfold Obj.SetBalance. rewrite (bind_eq _ _ _ _ _ (deref_eq _ _ _ _ Hl)).
  rewrite (address_eq _ s a l o _ s (wf_heap _ _ Hw) Hl), (bind_eq _ _ _ _ _ (append_eq _ _)).
  eexists. split; [apply update_eq|]. destruct Hok as [Hoa (z & Hz & Hz0) Hoh Hoc].
  eapply (write_advances s a l o); try done; simpl.
  - split; simpl; try done. by exists b.
  - apply Hl.
  - split; [done|]. by exists z.
  - apply valter_undo. split_and!; simpl; try done.
Qed.

Lemma obj_SetNonce_ok s a l o n : wf (history s) s -> live_at s a l o ->
  exists s', Obj.SetNonce l n s = Some (s', tt) /\ advances s s' /\
    live_at s' a l (with_account o (with_Nonce o.(account) n)) /\ only a s s'.
Proof.
  intros Hw Hl. destruct (live_obj_ok _ _ _ _ _ (wf_heap _ _ Hw) Hl) as [Hok Ha].
  unfold Obj.SetNonce. rewrite (bind_eq _ _ _ _ _ (deref_eq _ _ _ _ Hl)).
  rewrite (address_eq _ s a l o _ s (wf_heap _ _ Hw) Hl), (bind_eq _ _ _ _ _ (append_eq _ _)).
  eexists. split; [apply update_eq|]. destruct Hok as [Hoa Hob Hoh Hoc].
  eapply (write_advances s a l o); try done; simpl.
  - apply Hl.
  - apply valter_undo. split_and!; simpl; try done.
Qed.

Lemma obj_SetState_ok s a l o k v : wf (history s) s -> live_at s a l o ->
  exists s' o', Obj.SetState l k v s = Some (s', tt) /\ advances s s' /\ live_at s' a l o' /\
    object_view s'.(db) a o' ≡ v_with_storage (object_view s.(db) a o) k v /\ only a s s'.
Proof.
  intros Hw Hl. unfold Obj.SetState. rewrite (bind_eq _ _ _ _ _ (deref_eq _ _ _ _ Hl)).
  rewrite (address_eq _ s a l o _ s (wf_heap _ _ Hw) Hl).
  destruct (obj_GetState_ok _ s a l o k (wf_heap _ _ Hw) Hl) as (s1 & o1 & Hg & Hq & Hl1).
  rewrite (bind_eq _ _ _ _ _ Hg), (bind_eq _ _ _ _ _ (append_eq _ _)).
  pose proof (quiet_advances _ _ Hw Hq) as Hadv1.
  destruct (live_obj_ok _ _ _ _ _ (q_heap _ _ _ Hq) Hl1) as [Hok Ha].
  destruct (write_advances s1 a l o1 _
    (fun o => with_storage o (<[k := v]> (cachedStorage o)) (<[k := v]> (dirtyStorage o)))
    (storageChange a k (storage_value (db s) a o k)) eq_refl (a_wf _ _ Hadv1) Hl1) as (Hadv2 & Hl2 & Ho2).
  - by apply (obj_ok_fields a o1).
  - apply Hl1.
  - done.
  - done.
  - done.
  - apply valter_undo. split_and!; simpl; try done. intros j. unfold storage_value at 2. simpl.
    case_decide as Hj.
    + subst j. pose proof (quiet_object _ _ _ _ _ _ _ _ Hq Hl Hl1) as (_ & _ & _ & _ & Hv & _).
      rewrite (q_db _ _ _ Hq). symmetry. exact (Hv k).
    + rewrite lookup_insert_ne by done. done.
  - eexists _, _. split; [apply update_eq|]. split; [by eapply advances_trans|]. split; [exact Hl2|].
    split; [|by eapply only_trans; [eapply quiet_only|]].
    rewrite <- (quiet_object _ _ _ _ _ _ _ _ Hq Hl Hl1), <- (q_db _ _ _ Hq).
    split_and!; try done. intros j. simpl. unfold storage_value. simpl. case_decide as Hj.
    + subst j. by rewrite lookup_insert_eq.
    + by rewrite lookup_insert_ne.
Qed.

Lemma obj_SetCode_ok s a l o c : wf (history s) s -> live_at s a l o -> is_bytes c ->
  exists s' o', Obj.SetCode l (NewHash c) (Some c) s = Some (s', tt) /\ advances s s' /\
    live_at s' a l o' /\
    object_view s'.(db) a o' ≡ v_with_code (object_view s.(db) a o) c (NewHash c) /\ only a s s'.
Proof.
  intros Hw Hl Hc. unfold Obj.SetCode. rewrite (bind_eq _ _ _ _ _ (deref_eq _ _ _ _ Hl)).
  rewrite (address_eq _ s a l o _ s (wf_heap _ _ Hw) Hl).
  destruct (obj_Code_ok _ s a l o (wf_heap _ _ Hw) Hl) as (s1 & o1 & Hg & Hq & Hl1 & Hcv).
  rewrite (bind_eq _ _ _ _ _ Hg), (bind_eq _ _ _ _ _ (deref_eq _ _ _ _ Hl1)),
    (bind_eq _ _ _ _ _ (append_eq _ _)).
  pose proof (quiet_advances _ _ Hw Hq) as Hadv1.
  destruct (live_obj_ok _ _ _ _ _ (q_heap _ _ _ Hq) Hl1) as [[Hoa Hob Hoh Hoc] Ha].
  set (f := fun o => with_flags (with_account (with_code o (Some c))
    (with_CodeHash o.(account) (Some (NewHash c)))) true o.(suicided) o.(deleted)).
  destruct (write_advances s1 a l o1 _ f (codeChange a (code o1) (AccCodeHash (account o1)))
    eq_refl (a_wf _ _ Hadv1) Hl1) as (Hadv2 & Hl2 & Ho2).
  - split; simpl; try done.
    intros b [= <-]. split; [done|by right].
  - apply Hl1.
  - done.
  - done.
  - done.
  - apply valter_undo. split_and!; done.
  - eexists _, _. split; [apply update_eq|]. split; [by eapply advances_trans|].
    split; [exact Hl2|]. split; [|by eapply only_trans; [eapply quiet_only|]].
    rewrite <- (quiet_object _ _ _ _ _ _ _ _ Hq Hl Hl1), <- (q_db _ _ _ Hq). by split_and!.
Qed.

(** An entry about something else than an object. *)
Lemma log_advances s s' e : wf (history s) s ->
  s'.(db) = s.(db) -> s'.(accountTrie) = s.(accountTrie) -> s'.(objects) = s.(objects) ->
  s'.(StateObjects) = s.(StateObjects) -> s'.(validRevisions) = s.(validRevisions) ->
  s'.(nextRevisionId) = s.(nextRevisionId) -> history s' = e :: history s ->
  entry_ok e -> prev_of e = None ->
  undoable (known s) (resolve s.(db) s.(objects) e) (state_view s') ->
  vundo (resolve s.(db) s.(objects) e) (state_view s') ≡ state_view s ->
  is_u64 s'.(logSize) ->
  advances s s'.
Proof.
  intros [Hh He Hr Hn] Ed Et Eo Em Er En Eh Heok Hprev Hun Hundo Hn'.
  assert (Hres : forall es, resolved s' es = resolved s es)
    by (intros; unfold resolved; by rewrite Ed, Eo).
  split; try done.
  - rewrite Eh. split.
    + apply (heap_ok_incl (history s)); [unfold prevs; simpl; by rewrite Hprev|].
      by apply (heap_ok_ext _ s).
    + by constructor.
    + rewrite Hres. apply (replayable_ext (known s)); [intros a; unfold known; by rewrite Ed, Et|].
      split; [done|]. fold (resolved s (history s)). by rewrite Hundo.
    + done.
  - exists [e]. split; [done|]. by rewrite Hres.
Qed.

Lemma obj_touch_ok s a l o : wf (history s) s -> live_at s a l o ->
  exists s', Obj.touch l s = Some (s', tt) /\ advances s s' /\ live_at s' a l o /\ only a s s'.
Proof.
  intros Hw Hl. unfold Obj.touch. rewrite (bind_eq _ _ _ _ _ (deref_eq _ _ _ _ Hl)).
  rewrite (address_eq _ s a l o _ s (wf_heap _ _ Hw) Hl), (bind_eq _ _ _ _ _ (append_eq _ _)).
  destruct (live_obj_ok _ _ _ _ _ (wf_heap _ _ Hw) Hl) as [_ Ha].
  destruct (a =? ripemd); (eexists; split; [reflexivity|]; split; [|split; [exact Hl|by apply same_only]]);
    apply (log_advances s _ (touchChange a)); try done; apply Hw.
Qed.

Lemma obj_empty_ok a o : obj_ok a o -> exists b, Obj.empty o = Some b.
Proof.
  intros Hok. unfold Obj.empty. case_match; [by eexists|].
  destruct (ok_balance _ _ Hok) as (b & -> & _). by eexists.
Qed.

Lemma lift_eq {A B} (x : A) (k : A -> ST B) s : (lift (Some x) ≫= k) s = k x s.
Proof. done. Qed.

Lemma obj_AddBalance_ok s a l o b : wf (history s) s -> live_at s a l o -> 0 <= b ->
  exists s' o', Obj.AddBalance l b s = Some (s', tt) /\ advances s s' /\ live_at s' a l o' /\
    object_view s'.(db) a o' ≡ v_with_balance (object_view s.(db) a o)
      (default 0 o.(account).(Balance) + b) /\ only a s s'.
Proof.
  intros Hw Hl Hb. destruct (live_obj_ok _ _ _ _ _ (wf_heap _ _ Hw) Hl) as [Hok _].
  unfold Obj.AddBalance. rewrite (bind_eq _ _ _ _ _ (deref_eq _ _ _ _ Hl)).
  destruct (ok_balance _ _ Hok) as (z & Hz & Hz0). destruct (Z.eqb_spec b 0) as [->|Hne].
  - destruct (obj_empty_ok a o Hok) as [e ->]. rewrite lift_eq. destruct e.
    + destruct (obj_touch_ok s a l o Hw Hl) as (s' & Ht & Hadv & Hl' & Ho). exists s', o.
      split; [done|]. split; [done|]. split; [done|]. split; [|done].
      rewrite (a_db _ _ Hadv). split_and!; simpl; try done. lia.
    + exists s, o. split; [done|]. split; [by apply advances_refl|]. split; [done|]. split; [|apply only_refl].
      split_and!; simpl; try done. lia.
  - rewrite Hz, lift_eq.
    destruct (obj_SetBalance_ok s a l o (z + b) Hw Hl ltac:(lia)) as (s' & Hs & Hadv & Hl' & Ho).
    exists s', (with_account o (with_Balance o.(account) (Some (z + b)))).
    split; [done|]. split; [done|]. split; [done|]. split; [|done]. rewrite (a_db _ _ Hadv). by split_and!.
Qed.

Lemma obj_SubBalance_ok s a l o b : wf (history s) s -> live_at s a l o ->
  0 <= b -> (b = 0 \/ b <= default 0 o.(account).(Balance)) ->
  exists s' o', Obj.SubBalance l b s = Some (s', tt) /\ advances s s' /\ live_at s' a l o' /\
    object_view s'.(db) a o' ≡ v_with_balance (object_view s.(db) a o)
      (default 0 o.(account).(Balance) - b) /\ only a s s'.
Proof.
  intros Hw Hl Hb Hle. destruct (live_obj_ok _ _ _ _ _ (wf_heap _ _ Hw) Hl) as [Hok _].
  unfold Obj.SubBalance. rewrite (bind_eq _ _ _ _ _ (deref_eq _ _ _ _ Hl)).
  destruct (ok_balance _ _ Hok) as (z & Hz & Hz0). rewrite Hz in Hle. simpl in Hle.
  destruct (Z.eqb_spec b 0) as [->|Hne].
  - exists s, o. split; [done|]. split; [by apply advances_refl|]. split; [done|]. split; [|apply only_refl].
    split_and!; simpl; try done. lia.
  - rewrite Hz, lift_eq.
    destruct (obj_SetBalance_ok s a l o (z - b) Hw Hl ltac:(lia)) as (s' & Hs & Hadv & Hl' & Ho).
    exists s', (with_account o (with_Balance o.(account) (Some (z - b)))).
    split; [done|]. split; [done|]. split; [done|]. split; [|done]. rewrite (a_db _ _ Hadv). by split_and!.
Qed.

(** ** Creating objects: statedb.go *)

(** A fresh object under a journal entry. *)
Lemma created_advances s a o prev : wf (history s) s -> address_ok a -> obj_ok a o ->
  o.(deleted) = false ->
  match prev with
  | None => lookup_object s a = None /\ load s.(db) s.(accountTrie) a = None
  | Some p => exists po, live_at s a p po
  end ->
  let e := match prev with None => createObjectChange a | Some p => resetObjectChange p end in
  advances s (install (log_entry s e) a o).
Proof.
  intros [Hh He Hr Hn] Ha Hok Hd Hprev e.
  pose proof (install_heap _ s a o Hh Ha Hok Hd) as Hh1.
  pose proof (install_resolved _ s a o Hh) as Hres.
  pose proof (install_view s a o _ Hh Hd) as Hview.
  set (s' := install (log_entry s e) a o).
  change (resolved (install s a o)) with (resolved s') in Hres.
  change (state_view (install s a o)) with (state_view s') in Hview.
  assert (Hh' : heap_ok (e :: history s) s').
  { destruct prev as [p|]; [|by apply (heap_ok_incl (history s)), (heap_ok_ext _ (install s a o))].
    destruct Hprev as [po Hp]. destruct Hh1 as [Ht1 Hl1 Hn1 Hp1]. split; [done|done| |].
    - unfold prevs. simpl. apply NoDup_cons. split; [|apply Hh].
      intros Hin. by apply (prev_not_live _ s a p p po Hh Hp) in Hin.
    - intros l Hin. unfold prevs in Hin. simpl in Hin. apply elem_of_cons in Hin as [->|Hin]; [|by apply Hp1].
      destruct (live_obj_ok _ _ _ _ _ Hh Hp) as [Hpok _]. destruct Hp as (Hpa & Hpo & Hpd).
      exists a, po. split; [done|]. split; [by apply lookup_app_l_Some|]. split; [done|].
      split; [done|]. simpl. rewrite lookup_insert_eq. intros [= <-].
      apply lookup_lt_Some in Hpo. lia. }
  assert (Hun : undoable (known s) (resolve s'.(db) s'.(objects) e) (state_view s')).
  { destruct prev as [p|]; simpl; [|by intros [x Hx]; destruct Hprev as [_ ?]; simplify_eq].
    destruct Hprev as [po (_ & Hpo & _)]. by rewrite (lookup_app_l_Some _ _ _ _ Hpo). }
  assert (Hundo : vundo (resolve s'.(db) s'.(objects) e) (state_view s') ≡ state_view s).
  { destruct prev as [p|]; simpl.
    - destruct Hprev as [po Hp]. destruct (live_obj_ok _ _ _ _ _ Hh Hp) as [Hpok _].
      pose proof (live_view _ _ _ _ Hp) as Hv. destruct Hp as (Hpa & Hpo & Hpd).
      rewrite (lookup_app_l_Some _ _ _ _ Hpo), (ok_address _ _ Hpok). cbn [from_option vundo].
      rewrite Hview, vset_vset. apply vset_id. by rewrite Hv.
    - rewrite Hview, vset_vset. apply vset_id. simpl. by rewrite (proj1 Hprev). }
  split; try done.
  - split; [done| | |done].
    + constructor; [|done]. subst e. by destruct prev.
    + change (history s') with (e :: history s). split.
      * done.
      * fold (resolved s' (history s)). rewrite Hres. by rewrite Hundo.
  - by exists [e].
Qed.

Lemma log_install {B} s e a o (k : loc -> ST B) : Obj.getAddress o = Some a ->
  (newobj ← alloc o; Jrn.append e;; SDB.setStateObject newobj;; k newobj) s =
    k (length s.(objects)) (install (log_entry s e) a o).
Proof.
  intros Ha. unfold SDB.setStateObject, mbind, ST_bind, alloc, deref, lift, modify. simpl.
  rewrite list_lookup_middle by done. by rewrite Ha.
Qed.

(** The entry [createObject] appends. *)
Definition creation (a : Z) (prev : option loc) : journalEntry :=
  match prev with None => createObjectChange a | Some p => resetObjectChange p end.

Lemma createObject_ok s a : heap_ok (history s) s -> address_ok a ->
  exists s1 prev o, SDB.createObject a s =
      Some (install (log_entry s1 (creation a prev)) a o, (length s1.(objects), prev)) /\
    quiet (history s) s s1 /\ obj_ok a o /\ o.(deleted) = false /\
    match prev with
    | None => lookup_object s a = None /\ load s.(db) s.(accountTrie) a = None
    | Some p => exists po, live_at s1 a p po /\ lookup_object s a = Some po
    end.
Proof.
  intros Hh Ha. unfold SDB.createObject. rewrite (bind_eq (gets _) _ s s _ eq_refl).
  destruct (getStateObject_ok _ s a Hh Ha) as (s1 & prev & Hg & Hq & Hprev).
  rewrite (bind_eq _ _ _ _ _ Hg). cbv zeta.
  set (x := match prev with Some _ => _ | None => default _ _ end).
  assert (Hx : account_ok a x).
  { assert (Hnew : forall n, account_ok a {| AccAddress := hex_Encode (be_bytes AddressLength a);
      PrivateKey := []; Name := []; Balance := Some 0; TransactionHash := []; Updated := CreatedAt n;
      Created := CreatedAt n; Nonce := 0; Root := 0; AccCodeHash := None |}).
    { intros n. split; [|by intros b [= <-]]. cbn [AccAddress].
      change AddressLength with 20%nat. rewrite GetAddressBytes_hex. f_equal. by apply Z.mod_small. }
    subst x. destruct prev; [apply Hnew|].
    destruct (ToAccountByAddress _) as [y|] eqn:Ey; [by eapply backend_ledger|apply Hnew]. }
  clearbody x. pose proof (newStateObject_ok a x Hx) as Hok.
  exists s1, prev, (Obj.newStateObject x).
  change (match prev with Some p => resetObjectChange p | None => createObjectChange a end)
    with (creation a prev).
  rewrite (log_install s1 (creation a prev) a _ (fun l => mret (l, prev)) (ok_address _ _ Hok)).
  split; [done|]. split; [done|]. split; [done|]. split; [apply newStateObject_fields|].
  by destruct prev.
Qed.

(** What an installed object does to the content. *)
Lemma created_ok s s1 a o prev : wf (history s) s -> address_ok a -> quiet (history s) s s1 ->
  obj_ok a o -> o.(deleted) = false ->
  match prev with
  | None => lookup_object s a = None /\ load s.(db) s.(accountTrie) a = None
  | Some p => exists po, live_at s1 a p po /\ lookup_object s a = Some po
  end ->
  let s' := install (log_entry s1 (creation a prev)) a o in
  advances s s' /\ only a s s' /\ live_at s' a (length s1.(objects)) o.
Proof.
  intros Hw Ha Hq Hok Hd Hprev s'. pose proof (quiet_advances _ _ Hw Hq) as Hadv.
  split; [|split].
  - eapply advances_trans; [done|]. apply created_advances; try done; [apply Hadv|].
    destruct prev as [p|]; [by destruct Hprev as (po & ? & _); exists po|].
    destruct Hprev as [Hlk Hld]. rewrite (q_db _ _ _ Hq), (q_trie _ _ _ Hq). split; [|done].
    destruct (q_view _ _ _ Hq) as [Hv _]. specialize (Hv a). simpl in Hv. rewrite Hlk in Hv.
    destruct (lookup_object s1 a); [by inversion Hv|done].
  - eapply only_trans; [by eapply quiet_only|].
    apply (vset_only a _ _ (Some (object_view s1.(db) a o))).
    exact (install_view s1 a o _ (q_heap _ _ _ Hq) Hd).
  - by apply (install_live s1 a o).
Qed.

(** The balance a reader sees. *)
Definition seen_balance (s : state) (a : Z) : Z :=
  match v_accounts (state_view s) a with Some x => x.(v_balance) | None => 0 end.

Lemma seen_balance_live s a l o : live_at s a l o ->
  seen_balance s a = default 0 o.(account).(Balance).
Proof. intros Hl. unfold seen_balance. by rewrite (live_view _ _ _ _ Hl). Qed.

Lemma only_balance a s s' b : only a s s' -> b <> a -> seen_balance s' b = seen_balance s b.
Proof.
  intros Ho' Hb. pose proof (only_other _ _ _ _ Ho' Hb) as Ho. unfold seen_balance.
  destruct (v_accounts (state_view s') b), (v_accounts (state_view s) b); inversion Ho; [|done].
  match goal with H : _ ≡ _ |- _ => apply H end.
Qed.

Lemma quiet_balance es s s' a : quiet es s s' -> seen_balance s' a = seen_balance s a.
Proof.
  intros Hq. destruct (q_view _ _ _ Hq) as [Hv _]. specialize (Hv a). unfold seen_balance.
  destruct (v_accounts (state_view s') a), (v_accounts (state_view s) a); inversion Hv; [|done].
  match goal with H : _ ≡ _ |- _ => apply H end.
Qed.

Lemma obj_balance_nonneg a o : obj_ok a o -> 0 <= default 0 o.(account).(Balance).
Proof. intros Hok. destruct (ok_balance _ _ Hok) as (b & -> & ?). done. Qed.

Lemma GetOrNew_ok s a : wf (history s) s -> address_ok a ->
  exists s' l o, SDB.GetOrNewStateObject a s = Some (s', l) /\ advances s s' /\ live_at s' a l o /\
    alters a (fun x => x) s s' /\ seen_balance s a <= default 0 o.(account).(Balance).
Proof.
  intros Hw Ha. unfold SDB.GetOrNewStateObject.
  destruct (getStateObject_ok _ s a (wf_heap _ _ Hw) Ha) as (s1 & r & Hg & Hq & Hr).
  rewrite (bind_eq _ _ _ _ _ Hg). pose proof (quiet_advances _ _ Hw Hq) as Hadv.
  destruct r as [l|].
  - destruct Hr as (o & Hl & Hlk). exists s1, l, o. split; [done|]. split; [done|]. split; [done|].
    split; [by eapply quiet_alters|]. rewrite <- (quiet_balance _ _ _ a Hq).
    by rewrite (seen_balance_live _ _ _ _ Hl).
  - pose proof (a_wf _ _ Hadv) as Hw1.
    destruct (createObject_ok s1 a (wf_heap _ _ Hw1) Ha) as (s2 & prev & o & Hc & Hq2 & Hok & Hd & Hp).
    rewrite (bind_eq _ _ _ _ _ Hc).
    destruct (created_ok s1 s2 a o prev Hw1 Ha Hq2 Hok Hd Hp) as (Hadv2 & Ho2 & Hl2).
    eexists _, _, o. split; [reflexivity|]. split; [by eapply advances_trans|]. split; [done|].
    assert (Hnone : v_accounts (state_view s) a = None) by (simpl; by rewrite (proj1 Hr)).
    split; [split; [by eapply only_trans; [eapply quiet_only|]|intros x Hx; rewrite Hnone in Hx; inversion Hx]|].
    unfold seen_balance. simpl. rewrite (proj1 Hr). simpl. by apply (obj_balance_nonneg a).
Qed.

(** ** The operations of statedb.go *)
Lemma CreateAccount_ok s a : wf (history s) s -> address_ok a ->
  exists s', SDB.CreateAccount a s = Some (s', tt) /\ advances s s' /\ only a s s' /\
    seen_balance s a <= seen_balance s' a.
Proof.
  intros Hw Ha. unfold SDB.CreateAccount.
  destruct (createObject_ok s a (wf_heap _ _ Hw) Ha) as (s1 & prev & o & Hc & Hq & Hok & Hd & Hp).
  rewrite (bind_eq _ _ _ _ _ Hc). destruct prev as [p|].
  - destruct Hp as (po & Hpl & Hlk). destruct (live_obj_ok _ _ _ _ _ (q_heap _ _ _ Hq) Hpl) as [Hpok _].
    set (s2 := install _ a o). set (o' := with_account o (with_Balance o.(account) po.(account).(Balance))).
    assert (Hpo : s2.(objects) !! p = Some po) by (apply lookup_app_l_Some, Hpl).
    rewrite (bind_eq (deref p) _ s2 s2 po) by (unfold deref; by rewrite Hpo).
    assert (Hs' : upd s2 (length s1.(objects))
      (fun o => with_account o (with_Balance o.(account) po.(account).(Balance))) =
      install (log_entry s1 (creation a (Some p))) a o').
    { unfold upd, s2, install. simpl. f_equal. rewrite alter_app_r_alt by lia.
      by rewrite Nat.sub_diag. }
    eexists. split; [unfold Obj.setBalance; rewrite update_eq, Hs'; reflexivity|].
    assert (Hok' : obj_ok a o').
    { destruct Hok as [H1 H2 H3 H4]. split; try done. apply (ok_balance _ _ Hpok). }
    destruct (created_ok s s1 a o' (Some p) Hw Ha Hq Hok' Hd) as (Hadv & Ho & Hl);
      [by exists po|].
    split; [done|]. split; [done|]. rewrite <- (quiet_balance _ _ _ a Hq).
    rewrite (seen_balance_live _ _ _ _ Hl), (seen_balance_live _ _ _ _ Hpl). done.
  - destruct (created_ok s s1 a o None Hw Ha Hq Hok Hd Hp) as (Hadv & Ho & Hl).
    eexists. split; [reflexivity|]. split; [done|]. split; [done|].
    rewrite (seen_balance_live _ _ _ _ Hl). unfold seen_balance. simpl. rewrite (proj1 Hp).
    by apply (obj_balance_nonneg a).
Qed.

(** A reader is quiet. *)
Lemma reading_ok {A} es s a (d : A) (f : loc -> ST A) (val : stateObject -> A) :
  heap_ok es s -> address_ok a ->
  (forall s1 l o, quiet es s s1 -> live_at s1 a l o ->
    exists s2, f l s1 = Some (s2, val o) /\ quiet es s1 s2) ->
  exists s', SDB.reading a d f s =
    Some (s', match lookup_object s a with Some o => val o | None => d end) /\ quiet es s s'.
Proof.
  intros Hh Ha Hf. unfold SDB.reading.
  destruct (getStateObject_ok _ s a Hh Ha) as (s1 & r & Hg & Hq & Hr).
  rewrite (bind_eq _ _ _ _ _ Hg). destruct r as [l|].
  - destruct Hr as (o & Hl & ->). destruct (Hf s1 l o Hq Hl) as (s2 & -> & Hq2).
    exists s2. split; [done|]. by eapply quiet_trans.
  - rewrite (proj1 Hr). by exists s1.
Qed.

(** Reading a field of the object. *)
Lemma reading_field {A} es s a (d : A) (val : stateObject -> A) : heap_ok es s -> address_ok a ->
  exists s', SDB.reading a d (fun l => o ← deref l; mret (val o)) s =
    Some (s', match lookup_object s a with Some o => val o | None => d end) /\ quiet es s s'.
Proof.
  intros Hh Ha. apply reading_ok; [done|done|]. intros s1 l o Hq Hl. exists s1.
  rewrite (bind_eq _ _ _ _ _ (deref_eq _ _ _ _ Hl)). split; [done|]. apply quiet_refl, Hq.
Qed.

Lemma GetBalance_ok es s a : heap_ok es s -> address_ok a ->
  exists s' b, SDB.GetBalance a s = Some (s', Some b) /\ quiet es s s' /\ b = seen_balance s a.
Proof.
  intros Hh Ha. destruct (reading_field es s a (Some 0) (fun o => o.(account).(Balance)) Hh Ha)
    as (s' & Hr & Hq). unfold SDB.GetBalance. rewrite Hr. exists s'.
  unfold seen_balance. simpl. destruct (lookup_object s a) as [o|] eqn:El; [|by eexists].
  assert (exists b, o.(account).(Balance) = Some b) as [b Hb].
  { unfold lookup_object in El. destruct (StateObjects s !! a) as [l|] eqn:Ea.
    - destruct (h_live _ _ Hh a l Ea) as (_ & o' & Ho' & Hok & _). rewrite Ho' in El. simpl in El.
      destruct (deleted o'); [done|]. injection El as <-.
      destruct (ok_balance _ _ Hok) as (b & Hb & _). by exists b.
    - destruct (load _ _ a) as [x|] eqn:Ex; [|done]. injection El as <-.
      destruct (ok_balance _ _ (newStateObject_ok a x (h_trie _ _ Hh a x Ha Ex))) as (b & Hb & _).
      by exists b. }
  exists b. simpl. by rewrite Hb.
Qed.

Lemma SetNonce_ok s a n : wf (history s) s -> address_ok a ->
  exists s', SDB.SetNonce a n s = Some (s', tt) /\ advances s s' /\
    alters a (fun x => v_with_nonce x n) s s' /\ seen_balance s a <= seen_balance s' a.
Proof.
  intros Hw Ha. unfold SDB.SetNonce, SDB.writing.
  destruct (GetOrNew_ok s a Hw Ha) as (s1 & l & o & Hg & Hadv & Hl & Ho & Hb).
  rewrite (bind_eq _ _ _ _ _ Hg).
  destruct (obj_SetNonce_ok s1 a l o n (a_wf _ _ Hadv) Hl) as (s2 & Hs & Hadv2 & Hl2 & Ho2).
  exists s2. split; [done|]. split; [by eapply advances_trans|]. split.
  - apply (alters_same_l _ _ s s1); [done|]. eapply alters_live; try done; [solve_proper|].
    by rewrite (a_db _ _ Hadv2).
  - by rewrite (seen_balance_live _ _ _ _ Hl2).
Qed.

(** After a transfer of funds the balance is read once more. *)
Lemma reread s s1 a g : wf (history s1) s1 -> address_ok a -> advances s s1 -> alters a g s s1 ->
  exists s2, (SDB.GetBalance a;; mret tt) s1 = Some (s2, tt) /\ advances s s2 /\ alters a g s s2 /\
    seen_balance s2 a = seen_balance s1 a.
Proof.
  intros Hw Ha Hadv Ho. destruct (GetBalance_ok _ s1 a (wf_heap _ _ Hw) Ha) as (s2 & b & Hg & Hq & _).
  exists s2. rewrite (bind_eq _ _ _ _ _ Hg). split; [done|].
  split; [by eapply advances_trans; [|apply quiet_advances]|].
  split; [by eapply alters_same_r; [|eapply quiet_alters]|]. by apply (quiet_balance (history s1)).
Qed.

Definition v_add (v : Z) (x : AccountView) : AccountView := v_with_balance x (x.(v_balance) + v).

#[export] Instance v_add_proper : Proper (eq ==> (≡) ==> (≡)) v_add.
Proof. intros v _ <- x y (? & Hb & ? & ? & ? & ?). unfold v_add. rewrite Hb. by split_and!. Qed.

Lemma AddBalance_ok s a b : wf (history s) s -> address_ok a -> 0 <= b ->
  exists s', SDB.AddBalance a b s = Some (s', tt) /\ advances s s' /\ alters a (v_add b) s s' /\
    seen_balance s a + b <= seen_balance s' a.
Proof.
  intros Hw Ha Hb. unfold SDB.AddBalance, SDB.writing.
  destruct (GetOrNew_ok s a Hw Ha) as (s1 & l & o & Hg & Hadv & Hl & Ho & Hle).
  rewrite (bind_eq _ _ _ _ _ Hg).
  destruct (obj_AddBalance_ok s1 a l o b (a_wf _ _ Hadv) Hl Hb)
    as (s2 & o2 & Hs & Hadv2 & Hl2 & Hbal & Ho2).
  rewrite (bind_eq _ _ _ _ _ Hs).
  destruct (reread s s2 a (v_add b) (a_wf _ _ Hadv2) Ha) as (s3 & -> & ? & ? & Hs3);
    [by eapply advances_trans| |].
  { apply (alters_same_l _ _ s s1); [done|]. eapply alters_live; try done. solve_proper. }
  exists s3. split; [done|]. split; [done|]. split; [done|].
  rewrite Hs3, (seen_balance_live _ _ _ _ Hl2). destruct Hbal as (_ & Hbal & _). simpl in Hbal. lia.
Qed.

Lemma SubBalance_ok s a b : wf (history s) s -> address_ok a -> 0 <= b <= seen_balance s a ->
  exists s', SDB.SubBalance a b s = Some (s', tt) /\ advances s s' /\ alters a (v_add (- b)) s s' /\
    seen_balance s a - b <= seen_balance s' a.
Proof.
  intros Hw Ha Hb. unfold SDB.SubBalance, SDB.writing.
  destruct (GetOrNew_ok s a Hw Ha) as (s1 & l & o & Hg & Hadv & Hl & Ho & Hle).
  rewrite (bind_eq _ _ _ _ _ Hg).
  destruct (obj_SubBalance_ok s1 a l o b (a_wf _ _ Hadv) Hl ltac:(lia) ltac:(lia))
    as (s2 & o2 & Hs & Hadv2 & Hl2 & Hbal & Ho2).
  rewrite (bind_eq _ _ _ _ _ Hs).
  destruct (reread s s2 a (v_add (- b)) (a_wf _ _ Hadv2) Ha) as (s3 & -> & ? & ? & Hs3);
    [by eapply advances_trans| |].
  { apply (alters_same_l _ _ s s1); [done|]. eapply alters_live; try done. solve_proper. }
  exists s3. split; [done|]. split; [done|]. split; [done|].
  rewrite Hs3, (seen_balance_live _ _ _ _ Hl2). destruct Hbal as (_ & Hbal & _). simpl in Hbal. lia.
Qed.

Lemma SetState_ok s a k v : wf (history s) s -> address_ok a ->
  exists s', SDB.SetState a k v s = Some (s', tt) /\ advances s s' /\
    alters a (fun x => v_with_storage x k v) s s' /\
    exists x, v_accounts (state_view s') a = Some x /\ x.(v_storage) k = v.
Proof.
  intros Hw Ha. unfold SDB.SetState, SDB.writing.
  destruct (GetOrNew_ok s a Hw Ha) as (s1 & l & o & Hg & Hadv & Hl & Ho & _).
  rewrite (bind_eq _ _ _ _ _ Hg).
  destruct (obj_SetState_ok s1 a l o k v (a_wf _ _ Hadv) Hl)
    as (s2 & o2 & Hs & Hadv2 & Hl2 & Hv & Ho2).
  exists s2. split; [done|]. split; [by eapply advances_trans|]. split.
  - apply (alters_same_l _ _ s s1); [done|]. eapply alters_live; try done. solve_proper.
  - eexists. split; [by eapply live_view|]. destruct Hv as (_ & _ & _ & _ & Hv & _). rewrite (Hv k).
    simpl. by rewrite decide_True.
Qed.

Lemma SetCode_ok s a c : wf (history s) s -> address_ok a -> is_bytes c ->
  exists s', SDB.SetCode a c s = Some (s', tt) /\ advances s s' /\
    alters a (fun x => v_with_code x c (NewHash c)) s s' /\
    exists x, v_accounts (state_view s') a = Some x /\ x.(v_code) = c.
Proof.
  intros Hw Ha Hc. unfold SDB.SetCode, SDB.writing.
  destruct (GetOrNew_ok s a Hw Ha) as (s1 & l & o & Hg & Hadv & Hl & Ho & _).
  rewrite (bind_eq _ _ _ _ _ Hg).
  destruct (obj_SetCode_ok s1 a l o c (a_wf _ _ Hadv) Hl Hc) as (s2 & o2 & Hs & Hadv2 & Hl2 & Hcode & Ho2).
  exists s2. split; [done|]. split; [by eapply advances_trans|]. split.
  - apply (alters_same_l _ _ s s1); [done|]. eapply alters_live; try done. solve_proper.
  - eexists. split; [by eapply live_view|]. by destruct Hcode as (_ & _ & _ & -> & _).
Qed.

Lemma Suicide_ok s a : wf (history s) s -> address_ok a ->
  exists s' b, SDB.Suicide a s = Some (s', b) /\ advances s s' /\
    alters a (fun x => v_with_suicided (v_with_balance x 0) true) s s' /\
    b = bool_decide (is_Some (v_accounts (state_view s) a)) /\
    (b = true -> exists x, v_accounts (state_view s') a = Some x /\
       x.(v_suicided) = true /\ x.(v_balance) = 0).
Proof.
  intros Hw Ha. unfold SDB.Suicide.
  destruct (getStateObject_ok _ s a (wf_heap _ _ Hw) Ha) as (s1 & r & Hg & Hq & Hr).
  rewrite (bind_eq _ _ _ _ _ Hg). pose proof (quiet_advances _ _ Hw Hq) as Hadv.
  destruct r as [l|].
  - destruct Hr as (o & Hl & Hlk). destruct (live_obj_ok _ _ _ _ _ (q_heap _ _ _ Hq) Hl) as [Hok _].
    rewrite (bind_eq _ _ _ _ _ (deref_eq _ _ _ _ Hl)).
    destruct Hok as [Hoa (z & Hz & Hz0) Hoh Hoc]. rewrite Hz, lift_eq, (bind_eq _ _ _ _ _ (append_eq _ _)).
    set (f := fun o => with_account (with_flags o o.(dirtyCode) true o.(deleted))
      (with_Balance (with_flags o o.(dirtyCode) true o.(deleted)).(account) (Some 0))).
    destruct (write_advances s1 a l o _ f (suicideChange a (suicided o) z) eq_refl (a_wf _ _ Hadv) Hl)
      as (Hadv2 & Hl2 & Ho2).
    + split; simpl; try done. by exists 0.
    + apply Hl.
    + split; [done|lia].
    + done.
    + done.
    + apply valter_undo. split_and!; simpl; try done. by rewrite Hz.
    + eexists _, true. split; [|split; [by eapply advances_trans|split; [|split]]].
      * unfold Obj.markSuicided, Obj.setBalance, mbind, ST_bind, update, modify, mret, ST_ret.
        do 2 f_equal. unfold upd, set_objects. simpl. f_equal. by apply (alter_twice _ _ f).
      * apply (alters_same_l _ _ s s1); [by eapply quiet_alters|].
        eapply alters_live; try done. solve_proper.
      * simpl. rewrite Hlk. done.
      * intros _. eexists. split; [by eapply live_view|]. done.
  - exists s1, false. split; [done|]. split; [done|]. split; [|].
    { split; [by eapply quiet_only|]. intros x Hx. simpl in Hx. rewrite (proj1 Hr) in Hx. inversion Hx. }
    split; [|done]. simpl. by rewrite (proj1 Hr).
Qed.

Lemma AddRefund_ok s g : wf (history s) s ->
  exists s', SDB.AddRefund g s = Some (s', tt) /\ advances s s'.
Proof.
  intros Hw. eexists. split; [reflexivity|].
  apply (log_advances s _ (refundChange (refund s))); try done. apply Hw.
Qed.

Lemma AddPreimage_ok s h p : wf (history s) s ->
  exists s', SDB.AddPreimage h p s = Some (s', tt) /\ advances s s'.
Proof.
  intros Hw. unfold SDB.AddPreimage. rewrite (bind_eq (gets preimages) _ s s _ eq_refl).
  destruct (preimages s !! h) eqn:E.
  - exists s. split; [done|]. by apply advances_refl.
  - eexists. split; [reflexivity|]. apply (log_advances s _ (addPreimageChange h)); try done.
    + split_and!; simpl; try done. by apply delete_insert_id.
    + apply Hw.
Qed.

Lemma AddLog_ok s l : wf (history s) s ->
  exists s', SDB.AddLog l s = Some (s', tt) /\ advances s s'.
Proof.
  intros Hw. pose proof (wf_size _ _ Hw) as Hn. eexists. split; [reflexivity|].
  apply (log_advances s _ (addLogChange (thash s))); try done; simpl.
  - rewrite lookup_insert_eq. simpl. by destruct (default [] _).
  - split_and!; simpl; try done.
    + intros g. case_decide as Hg.
      * subst g. rewrite lookup_insert_eq. simpl. rewrite length_app. simpl.
        rewrite Nat.add_sub. by rewrite take_app_length.
      * by rewrite lookup_insert_ne by done.
    + unfold is_u64 in Hn. unfold u64. rewrite Zminus_mod_idemp_l, Z.add_simpl_r. by apply Z.mod_small.
  - apply u64_range.
Qed.
End Steps.
