(* ===== verification/StateRevert.v ===== *)
(** * Reverting to a snapshot

    [journal.revert] and [RevertToSnapshot]: undoing the entries one by one takes
    the state back to what each snapshot saved, the binary search finds the
    snapshot, and a snapshot that is not there makes the code panic.  With that
    the journaled state satisfies the laws the machine relies on. *)
From Stdlib Require Import ZArith Lia.
From S2P Require Import Prelude Word Hex Config OpCodes Analysis Machine StateData Journal.
From S2P Require Import StateView StateSpec Rollback StateSteps.
Import Big.
Open Scope Z_scope.

(** ** [sort.Search] *)
Lemma Search_loop_spec f fuel i j :
  (forall x y, (x <= y)%nat -> f x = true -> f y = true) -> (j - i <= fuel)%nat -> (i <= j)%nat ->
  (forall x, (x < i)%nat -> f x = false) -> (forall x, (j <= x)%nat -> f x = true) ->
  let k := Search_loop fuel f i j in
  (i <= k <= j)%nat /\ (forall x, (x < k)%nat -> f x = false) /\ (forall x, (k <= x)%nat -> f x = true).
Proof.
  intros Hmono. revert i j. induction fuel as [|fuel IH]; intros i j Hfuel Hij Hlo Hhi; simpl.
  { replace j with i in Hhi by lia. split; [lia|done]. }
  destruct (Nat.ltb_spec i j) as [Hlt|Hge].
  - pose proof (Nat.Div0.div_mod (i + j) 2). pose proof (Nat.mod_upper_bound (i + j) 2).
    set (h := ((i + j) / 2)%nat) in *. assert (i <= h < j)%nat by lia.
    destruct (f h) eqn:Eh.
    + destruct (IH i h) as (? & ? & ?); [lia|lia|done|intros x Hx; by apply (Hmono h)|].
      split; [lia|done].
    + destruct (IH (h + 1)%nat j) as (? & ? & ?); [lia|lia| |done|split; [lia|done]].
      intros x Hx. destruct (f x) eqn:Ex; [|done]. rewrite (Hmono x h) in Eh; [done|lia|done].
  - replace j with i in Hhi by lia. split; [lia|done].
Qed.

Section Revert.
Context {DBI : Database} {CD : Codec} {AC : Accounts} {CR : Crypto} {GR : GoRange}
  {BL : BackendLaws}.
#[local] Arguments be_bytes : simpl never.
Abbreviation history s := s.(changes).(entries).

(** ** Undoing one entry *)
Record undone (es : list journalEntry) (s s' : state) (v : View) : Prop := {
  u_heap : heap_ok es s';
  u_db : s'.(db) = s.(db);
  u_trie : s'.(accountTrie) = s.(accountTrie);
  u_changes : s'.(changes) = s.(changes);
  u_revs : s'.(validRevisions) = s.(validRevisions);
  u_next : s'.(nextRevisionId) = s.(nextRevisionId);
  u_resolve : resolved s' es = resolved s es;
  u_view : state_view s' ≡ v
}.

(** Undoing a change of a live object. *)
Lemma undo_object es s a (m : loc -> ST unit) f g : heap_ok es s -> address_ok a ->
  (forall l s1, m l s1 = Some (upd s1 l f, tt)) ->
  (forall o, obj_ok a o -> obj_ok a (f o)) -> (forall o, (f o).(deleted) = o.(deleted)) ->
  (forall o, object_view s.(db) a (f o) ≡ g (object_view s.(db) a o)) ->
  Proper ((≡) ==> (≡)) g -> is_Some (v_accounts (state_view s) a) ->
  exists s', (l ← SDB.getStateObject a; match l with Some l => m l | None => panic end) s =
    Some (s', tt) /\ undone es s s' (valter (state_view s) a g).
Proof.
  intros Hh Ha Hm Hok Hd Hv Hg [x Hx].
  destruct (getStateObject_ok es s a Hh Ha) as (s1 & r & Hget & Hq & Hr).
  rewrite (bind_eq _ _ _ _ _ Hget). destruct r as [l|].
  - destruct Hr as (o & Hl & Hlk). rewrite Hm. eexists. split; [done|].
    destruct (live_obj_ok _ _ _ _ _ (q_heap _ _ _ Hq) Hl) as [Hok1 _].
    assert (Hd1 : (f o).(deleted) = false) by (rewrite Hd; apply Hl). destruct Hq.
    split; try done.
    + by eapply (upd_heap _ _ a l o); [..|apply Hok|].
    + rewrite <- q_resolve. by eapply (upd_resolved _ _ a l o).
    + rewrite (upd_view es s1 a l o f q_heap Hl Hd1), q_db. unfold valter.
      apply vset_proper; [done|done|]. simpl. rewrite Hlk. simpl. constructor. apply Hv.
  - destruct Hr as [Hlk _]. simpl in Hx. by rewrite Hlk in Hx.
Qed.

Lemma undo_ok e es s : heap_ok (e :: es) s -> entry_ok e ->
  undoable (known s) (resolve s.(db) s.(objects) e) (state_view s) ->
  exists s', SDB.undo e s = Some (s', tt) /\
    undone es s s' (vundo (resolve s.(db) s.(objects) e) (state_view s)).
Proof.
  intros Hh He Hu. pose proof (heap_ok_tail _ _ _ Hh) as Ht. destruct e; simpl in He, Hu; cbn [SDB.undo resolve].
  - (* createObject *)
    eexists. split; [done|]. split; try done.
    + destruct Ht as [H1 H2 H3 H4]. split; simpl; [done| |done|].
      * intros b l [Hne Hb]%lookup_delete_Some. by apply H2.
      * intros l Hl. destruct (H4 l Hl) as (b & o & ? & ? & ? & ? & Hne). exists b, o.
        split_and!; try done. intros [_ Hb]%lookup_delete_Some. done.
    + split_and!; simpl; try done. intros b. unfold lookup_object. simpl.
      case_decide as Hb.
      * subst b. rewrite lookup_delete_eq. destruct (load _ _ account) eqn:El; [|done].
        destruct Hu. by eexists.
      * by rewrite lookup_delete_ne by done.
  - (* resetObject *)
    destruct (h_prev _ _ Hh prev) as (a & o & Ha & Ho & Hok & Hd & Hne).
    { unfold prevs. simpl. left. }
    rewrite Ho, (ok_address _ _ Hok). cbn [from_option vundo]. unfold Datatypes.id.
    unfold SDB.setStateObject. rewrite (bind_eq (deref prev) _ s s o) by (unfold deref; by rewrite Ho).
    rewrite (ok_address _ _ Hok), lift_eq. eexists. split; [done|]. split; try done.
    + destruct Ht as [H1 H2 H3 H4]. split; simpl; [done| |done|].
      * intros b l Hb. destruct (decide (a = b)) as [<-|Hab].
        -- rewrite lookup_insert_eq in Hb. injection Hb as <-. split; [done|]. exists o.
           split; [done|]. split; [done|]. by rewrite Hd.
        -- rewrite lookup_insert_ne in Hb by done. by apply H2.
      * intros l Hl. destruct (H4 l Hl) as (b & o' & ? & Ho' & ? & ? & Hneb). exists b, o'.
        split_and!; try done. destruct (decide (a = b)) as [<-|Hab].
        -- rewrite lookup_insert_eq. intros [= ->]. pose proof (h_nodup _ _ Hh) as Hnd.
           unfold prevs in Hnd. simpl in Hnd. by apply NoDup_cons in Hnd as [? _].
        -- by rewrite lookup_insert_ne.
    + split_and!; simpl; try done. intros b. unfold lookup_object. simpl. case_decide as Hb.
      * subst b. rewrite lookup_insert_eq. simpl. rewrite Ho. simpl. by rewrite Hd.
      * by rewrite lookup_insert_ne by done.
  - (* suicide *)
    destruct He as [Ha Hb].
    destruct (getStateObject_ok es s account Ht Ha) as (s1 & r & Hget & Hq & Hr).
    rewrite (bind_eq _ _ _ _ _ Hget). destruct r as [l|].
    + destruct Hr as (o & Hl & Hlk). destruct (live_obj_ok _ _ _ _ _ (q_heap _ _ _ Hq) Hl) as [Hok1 _].
      set (f := fun o => with_account (with_flags o o.(dirtyCode) prev o.(deleted))
        (with_Balance o.(StateData.account) (Some prevbalance))).
      assert (Hd1 : (f o).(deleted) = false) by apply Hl.
      assert (Hok2 : obj_ok account (f o)).
      { destruct Hok1. split; try done. by exists prevbalance. }
      exists (upd s1 l f). split.
      { unfold Obj.setBalance, mbind, ST_bind, update, modify, upd.
        do 2 f_equal. unfold set_objects. simpl. f_equal. by apply (alter_twice _ _ f). }
      destruct Hq. split; try done.
      * by eapply (upd_heap _ _ account l o).
      * rewrite <- q_resolve. by eapply (upd_resolved _ _ account l o).
      * rewrite (upd_view es s1 account l o f q_heap Hl Hd1), q_db. cbn [vundo]. unfold valter.
        apply vset_proper; [done|done|]. simpl. rewrite Hlk. simpl. constructor. by split_and!.
    + exists s1. split; [done|]. destruct Hq. split; try done. rewrite q_view. simpl.
      unfold valter. simpl. rewrite (proj1 Hr). simpl. symmetry. apply vset_id. simpl.
      by rewrite (proj1 Hr).
  - (* balance *)
    destruct He as (Ha & z & -> & Hz).
    eapply (undo_object es s account _ (fun o => with_account o (with_Balance o.(StateData.account) (Some z))));
      try done; [|intros x y ->; done].
    intros o [H1 H2 H3 H4]. split; try done. by exists z.
  - (* nonce *)
    eapply (undo_object es s account _ (fun o => with_account o (with_Nonce o.(StateData.account) prev)));
      try done; [|intros x y ->; done].
    intros o [H1 H2 H3 H4]. by split.
  - (* storage *)
    eapply (undo_object es s account _ (fun o => with_storage o (<[key := prevalue]> o.(cachedStorage))
      (<[key := prevalue]> o.(dirtyStorage)))); try done; [| |intros x y ->; done].
    + intros o [H1 H2 H3 H4]. by split.
    + intros o. split_and!; simpl; try done. intros k. unfold storage_value at 1. simpl.
      case_decide as Hk; [subst k; by rewrite lookup_insert_eq|by rewrite lookup_insert_ne by done].
  - (* code *)
    destruct He as (Ha & [h ->] & Hc). unfold slice_hash. cbn [from_option]. unfold Datatypes.id.
    eapply (undo_object es s account _ (fun o =>
      with_flags (with_account (with_code o prevcode) (with_CodeHash o.(StateData.account) (Some h)))
        true o.(suicided) o.(deleted))); try done; [|intros x y ->; done].
    intros o [H1 H2 H3 H4]. by split.
  - (* refund *)
    eexists. split; [done|]. split; try done. by apply (heap_ok_ext es s).
  - (* log *)
    destruct (default [] (logs s !! txhash)) as [|x [|y l]] eqn:El; [done| |].
    + eexists. split; [done|]. split; try done; [by apply (heap_ok_ext es s)|].
      split_and!; simpl; try done. intros g. rewrite El. case_decide as Hg; simpl.
      * subst g. by rewrite lookup_delete_eq.
      * by rewrite lookup_delete_ne by done.
    + eexists. split; [done|]. split; try done; [by apply (heap_ok_ext es s)|].
      split_and!; simpl; try done. intros g. rewrite El. case_decide as Hg; simpl.
      * subst g. by rewrite lookup_insert_eq.
      * by rewrite lookup_insert_ne by done.
  - (* preimage *)
    eexists. split; [done|]. split; try done. by apply (heap_ok_ext es s).
  - (* touch *)
    exists s. by split.
Qed.

(** ** Undoing a run of entries *)
Definition undo_turn (ch : journalEntry) : ST unit :=
  SDB.undo ch;;
  Jrn.on (fun j => {| entries := j.(entries); dirties := Jrn.undirty j.(dirties) ch |}).

Lemma vundo_size e v : is_u64 v.(v_logSize) -> is_u64 (vundo e v).(v_logSize).
Proof. destruct e; simpl; try done. intros _. apply u64_range. Qed.

Lemma undo_turn_ok e es s : wf (e :: es) s ->
  exists s', undo_turn e s = Some (s', tt) /\ wf es s' /\
    s'.(db) = s.(db) /\ s'.(accountTrie) = s.(accountTrie) /\
    s'.(validRevisions) = s.(validRevisions) /\ s'.(nextRevisionId) = s.(nextRevisionId) /\
    history s' = history s /\ resolved s' es = resolved s es /\
    state_view s' ≡ vundo (resolve s.(db) s.(objects) e) (state_view s).
Proof.
  intros [Hh He [Hu Hr] Hn]. apply Forall_cons in He as [He1 He].
  destruct (undo_ok e es s Hh He1 Hu) as (s1 & H1 & [Hh1 Ed Et Ec Er En Eres Hv]).
  unfold undo_turn. rewrite (bind_eq _ _ _ _ _ H1). eexists. split; [done|].
  split; [|split; [done|split; [done|split; [done|split; [done|split; [by simpl; rewrite Ec|done]]]]]].
  split; [by apply (heap_ok_ext es s1)|done| |].
  - apply (replayable_ext (known s)); [intros a; unfold known; simpl; by rewrite Ed, Et|].
    change (replayable (known s) (resolved s1 es) (state_view s1)). rewrite Eres.
    by rewrite Hv.
  - destruct Hv as (_ & _ & _ & Hsz & _). simpl in Hsz |- *. rewrite Hsz.
    by apply (vundo_size (resolve (db s) (objects s) e) (state_view s)).
Qed.

Lemma undo_run_ok n : forall es s, wf es s ->
  exists s', for_each (take n es) undo_turn s = Some (s', tt) /\ wf (drop n es) s' /\
    s'.(db) = s.(db) /\ s'.(accountTrie) = s.(accountTrie) /\
    s'.(validRevisions) = s.(validRevisions) /\ s'.(nextRevisionId) = s.(nextRevisionId) /\
    history s' = history s /\ resolved s' (drop n es) = resolved s (drop n es) /\
    state_view s' ≡ vundo_all (resolved s (take n es)) (state_view s).
Proof.
  induction n as [|n IH]; intros es s Hw; [by exists s; rewrite drop_0|].
  destruct es as [|e es]; [by exists s|]. cbn [take drop for_each].
  destruct (undo_turn_ok e es s Hw) as (s1 & H1 & Hw1 & Ed1 & Et1 & Er1 & En1 & Eh1 & Eres1 & Hv1).
  destruct (IH es s1 Hw1) as (s2 & H2 & Hw2 & Ed2 & Et2 & Er2 & En2 & Eh2 & Eres2 & Hv2).
  exists s2. rewrite (bind_eq _ _ _ _ _ H1). split; [done|]. split; [done|].
  do 5 (split; [congruence|]). split.
  - rewrite Eres2. unfold resolved in *. by rewrite !fmap_drop, Eres1.
  - unfold resolved in *. rewrite Hv2, fmap_cons, !fmap_take, Eres1.
    change (vundo_all (?e :: ?l) ?v) with (vundo_all l (vundo e v)). by rewrite Hv1.
Qed.

(** ** Snapshots *)
Definition saves_before (r q : revision) : Prop := r.(id) < q.(id) /\ (r.(journalIndex) <= q.(journalIndex))%nat.

Record state_ok (s : state) : Prop := {
  s_wf : wf (history s) s;
  s_sorted : StronglySorted saves_before s.(validRevisions);
  s_bounds : Forall (fun r => r.(id) < s.(nextRevisionId) /\
    (r.(journalIndex) <= length (history s))%nat) s.(validRevisions)
}.

Definition is_live (s : state) (i : Z) : Prop := exists r, r ∈ s.(validRevisions) /\ r.(id) = i.

(** The content at journal length [n]. *)
Definition content_at (s : state) (n : nat) : View :=
  vundo_all (resolved s (take (length (history s) - n) (history s))) (state_view s).

Definition saved_view (s : state) (i : Z) : View :=
  match list_find (fun r => r.(id) = i) s.(validRevisions) with
  | Some (_, r) => content_at s r.(journalIndex)
  | None => state_view s
  end.

Lemma content_at_advances s s' n : advances s s' -> (n <= length (history s))%nat ->
  content_at s' n ≡ content_at s n.
Proof.
  intros [_ _ _ _ _ Hold (es & He & Hu)] Hn. unfold content_at. rewrite He, length_app.
  replace (length es + length (history s) - n)%nat with (length es + (length (history s) - n))%nat by lia.
  rewrite take_app_add. unfold resolved in *. rewrite fmap_app, vundo_all_app, !fmap_take, Hold.
  by rewrite Hu.
Qed.

Lemma advances_ok s s' : state_ok s -> advances s s' -> state_ok s' /\
  forall i, is_live s i -> is_live s' i /\ saved_view s' i ≡ saved_view s i.
Proof.
  intros [Hw Hs Hb] Hadv. pose proof Hadv as [Hw' _ _ Er En _ (es & He & _)].
  split.
  - split; [done|by rewrite Er|]. rewrite Er, En, He, length_app. eapply Forall_impl; [exact Hb|].
    simpl. intros r [? ?]. split; [done|lia].
  - intros i Hi. unfold is_live, saved_view. rewrite Er. split; [done|].
    destruct (list_find _ _) as [[j r]|] eqn:Ef.
    + apply list_find_Some in Ef as (Hj & _). apply content_at_advances; [done|].
      rewrite Forall_forall in Hb. apply (Hb r). by eapply list_elem_of_lookup_2.
    + destruct Hi as (r & Hr & Hri). apply list_find_None in Ef. rewrite Forall_forall in Ef.
      by destruct (Ef r Hr).
Qed.

Lemma sorted_lookup l : StronglySorted saves_before l -> forall i j r q,
  l !! i = Some r -> l !! j = Some q -> (i < j)%nat -> saves_before r q.
Proof.
  induction 1 as [|x l Hs IH Hall]; intros i j r q Hi Hj Hlt; [done|].
  destruct j as [|j]; [lia|]. simpl in Hj. destruct i as [|i].
  - injection Hi as <-. rewrite Forall_forall in Hall. apply Hall. by eapply list_elem_of_lookup_2.
  - apply (IH i j); [done|done|lia].
Qed.

(** The search finds the first revision that is not older. *)
Lemma search_revision s revid : StronglySorted saves_before s.(validRevisions) ->
  let f i := match s.(validRevisions) !! i with Some r => revid <=? r.(id) | None => true end in
  let idx := Search (length s.(validRevisions)) f in
  (forall j r, s.(validRevisions) !! j = Some r -> (j < idx)%nat -> r.(id) < revid) /\
  (forall j r, s.(validRevisions) !! j = Some r -> (idx <= j)%nat -> revid <= r.(id)).
Proof.
  intros Hs f idx. destruct (Search_loop_spec f (length (validRevisions s)) 0 (length (validRevisions s)))
    as (_ & Hlo & Hhi); [|lia|lia|lia| |].
  - intros x y Hxy. unfold f. destruct (validRevisions s !! y) as [q|] eqn:Ey; [|done].
    destruct (validRevisions s !! x) as [r|] eqn:Ex.
    + destruct (decide (x = y)) as [->|Hne]; [congruence|].
      destruct (sorted_lookup _ Hs x y r q Ex Ey) as [? _]; [lia|].
      rewrite !Z.leb_le. lia.
    + apply lookup_ge_None_1 in Ex. apply lookup_lt_Some in Ey. lia.
  - intros x Hx. unfold f. by rewrite lookup_ge_None_2.
  - split; intros j r Hj Hlt.
    + specialize (Hlo j Hlt). unfold f in Hlo. rewrite Hj in Hlo. apply Z.leb_gt in Hlo. lia.
    + specialize (Hhi j Hlt). unfold f in Hhi. rewrite Hj in Hhi. by apply Z.leb_le in Hhi.
Qed.

Lemma content_at_all s n m : (n <= m)%nat -> content_at s n =
  vundo_all (resolved s (take (length (history s) - n - (length (history s) - m))
    (drop (length (history s) - m) (history s)))) (content_at s m).
Proof.
  intros Hnm. unfold content_at. rewrite <- vundo_all_app. unfold resolved. rewrite <- fmap_app.
  f_equal. f_equal. rewrite take_drop_commute.
  rewrite <- (take_drop (length (history s) - m) (take (length (history s) - n) (history s))) at 1.
  rewrite take_take. f_equal; [f_equal; lia|]. f_equal. f_equal. lia.
Qed.

Lemma revert_ok s n : wf (history s) s -> (n <= length (history s))%nat ->
  exists s', SDB.revert n s = Some (s', tt) /\ wf (history s') s' /\
    s'.(validRevisions) = s.(validRevisions) /\ s'.(nextRevisionId) = s.(nextRevisionId) /\
    length (history s') = n /\ state_view s' ≡ content_at s n /\
    forall m, (m <= n)%nat -> content_at s' m ≡ content_at s m.
Proof.
  intros Hw Hn. unfold SDB.revert. rewrite (bind_eq (gets _) _ s s _ eq_refl).
  set (k := (length (history s) - n)%nat). cbv zeta.
  destruct (undo_run_ok k (history s) s Hw) as (s1 & H1 & Hw1 & Ed & Et & Er & En & Eh & Eres & Hv).
  rewrite (bind_eq _ _ _ _ _ H1). eexists. split; [done|].
  match goal with |- wf (history ?s2) _ /\ _ => set (s2' := s2) end.
  assert (Hh2 : history s2' = drop k (history s)) by (subst s2'; simpl; by rewrite Eh).
  assert (Hv2 : state_view s2' ≡ content_at s n) by exact Hv.
  assert (Hres2 : resolved s2' (drop k (history s)) = resolved s (drop k (history s))) by exact Eres.
  assert (Hlen : length (history s2') = n) by (rewrite Hh2, length_drop; subst k; lia).
  split.
  { rewrite Hh2. destruct Hw1 as [Ha Hb Hc Hd]. split; try done. by apply (heap_ok_ext _ s1). }
  split; [done|]. split; [done|]. split; [done|]. split; [done|].
  intros m Hm. rewrite (content_at_all s m n Hm). unfold content_at at 1. rewrite Hlen, Hh2.
  fold k. unfold resolved in *. rewrite !fmap_take, Hres2.
  replace (length (history s) - m - k)%nat with (n - m)%nat by (subst k; lia). by rewrite Hv2.
Qed.

Lemma RevertToSnapshot_ok s revid : state_ok s -> is_live s revid ->
  exists s', SDB.RevertToSnapshot revid s = Some (s', tt) /\ state_ok s' /\
    state_view s' ≡ saved_view s revid /\ ~ is_live s' revid /\
    forall i, is_live s i -> i < revid -> is_live s' i /\ saved_view s' i ≡ saved_view s i.
Proof.
  intros [Hw Hs Hb] (r & Hr & Hid). apply list_elem_of_lookup in Hr as [k Hk].
  unfold SDB.RevertToSnapshot. rewrite (bind_eq (gets _) _ s s _ eq_refl).
  destruct (search_revision s revid Hs) as [Hlo Hhi]. cbv zeta.
  set (idx := Search _ _) in *.
  assert (idx = k) as ->.
  { destruct (Nat.lt_trichotomy idx k) as [Hlt|[He|Hgt]]; [|done|].
    - destruct (validRevisions s !! idx) as [q|] eqn:Eq;
        [|apply lookup_ge_None_1 in Eq; apply lookup_lt_Some in Hk; lia].
      pose proof (Hhi idx q Eq (Nat.le_refl _)). destruct (sorted_lookup _ Hs idx k q r Eq Hk Hlt). lia.
    - pose proof (Hlo k r Hk Hgt). lia. }
  rewrite Hk, Hid, Z.eqb_refl. cbn [negb].
  pose proof (proj1 (Forall_lookup _ _) Hb k r Hk) as [Hrn Hri].
  destruct (revert_ok s r.(journalIndex) Hw Hri) as (s1 & H1 & Hw1 & Er & En & Hlen & Hv & Hall).
  rewrite (bind_eq _ _ _ _ _ H1). eexists. split; [done|]. set (s2 := set_changes _ _ _ _).
  assert (Hlive : forall i, is_live s i -> i < revid -> is_live s2 i /\
    exists j q, s.(validRevisions) !! j = Some q /\ (j < k)%nat /\ q.(id) = i).
  { intros i (q & Hq & Hqi) Hlt. apply list_elem_of_lookup in Hq as [j Hj].
    assert (j < k)%nat as Hjk.
    { destruct (Nat.lt_trichotomy j k) as [?|[->|Hgt]]; [done|simplify_eq; lia|].
      destruct (sorted_lookup _ Hs k j r q Hk Hj Hgt). lia. }
    split; [|by exists j, q]. exists q. split; [|done]. apply list_elem_of_lookup. exists j. simpl.
    rewrite Er. by rewrite lookup_take_lt. }
  assert (Hfind : forall i j q l, StronglySorted saves_before l -> l !! j = Some q -> q.(id) = i ->
    list_find (fun r => r.(id) = i) l = Some (j, q)).
  { intros i j q l Hl Hj Hqi. apply list_find_Some. split; [done|]. split; [done|].
    intros j' q' Hj' Hlt Hq'. destruct (sorted_lookup _ Hl j' j q' q Hj' Hj Hlt). lia. }
  assert (Hs2 : StronglySorted saves_before s2.(validRevisions)).
  { simpl. rewrite Er. rewrite <- (take_drop k (validRevisions s)) in Hs.
    by apply StronglySorted_app_1_l in Hs. }
  split.
  - split; [|done|].
    + destruct Hw1 as [Ha Hb1 Hc Hd]. split; try done. by apply (heap_ok_ext _ s1).
    + simpl. rewrite Er, En. apply Forall_lookup. intros j q [Hj Hjk]%lookup_take_Some.
      destruct (proj1 (Forall_lookup _ _) Hb j q Hj). split; [done|]. rewrite Hlen.
      by destruct (sorted_lookup _ Hs j k q r Hj Hk Hjk).
  - split.
    + change (state_view s2) with (state_view s1). unfold saved_view.
      by rewrite (Hfind revid k r _ Hs Hk Hid).
    + split.
      { intros (q & Hq & Hqi). simpl in Hq. rewrite Er in Hq.
        apply list_elem_of_lookup in Hq as [j [Hj Hjk]%lookup_take_Some].
        destruct (sorted_lookup _ Hs j k q r Hj Hk Hjk). lia. }
      intros i Hi Hlt. destruct (Hlive i Hi Hlt) as (Hl2 & j & q & Hj & Hjk & Hqi).
      split; [done|]. unfold saved_view. rewrite (Hfind i j q _ Hs Hj Hqi).
      rewrite (Hfind i j q _ Hs2); [|by simpl; rewrite Er, lookup_take_lt|done].
      change (content_at s2) with (content_at s1). apply Hall.
      by destruct (sorted_lookup _ Hs j k q r Hj Hk Hjk).
Qed.

Lemma RevertToSnapshot_dead s revid : StronglySorted saves_before s.(validRevisions) ->
  ~ is_live s revid -> SDB.RevertToSnapshot revid s = None.
Proof.
  intros Hs Hdead. unfold SDB.RevertToSnapshot. rewrite (bind_eq (gets _) _ s s _ eq_refl). cbv zeta.
  destruct (validRevisions s !! _) as [r|] eqn:Er; [|done].
  destruct (Z.eqb_spec (id r) revid) as [He|Hne]; [|done].
  destruct Hdead. exists r. split; [by eapply list_elem_of_lookup_2|done].
Qed.

Lemma SDB_Snapshot_ok s : state_ok s ->
  exists s' i, SDB.Snapshot s = Some (s', i) /\ state_ok s' /\ is_live s' i /\
    saved_view s' i = state_view s /\ state_view s' = state_view s /\
    forall j, is_live s j -> j < i /\ is_live s' j /\ saved_view s' j = saved_view s j.
Proof.
  intros [Hw Hs Hb]. set (new := {| id := s.(nextRevisionId); journalIndex := length (history s) |}).
  set (s' := set_changes s s.(changes) (s.(validRevisions) ++ [new]) (s.(nextRevisionId) + 1)).
  exists s', s.(nextRevisionId). split; [done|].
  assert (Hrevs : s'.(validRevisions) = s.(validRevisions) ++ [new]) by done.
  assert (Hold : forall r, r ∈ s.(validRevisions) -> saves_before r new).
  { intros r Hr. rewrite Forall_forall in Hb. by apply (Hb r). }
  split; [split|split; [|split; [|split; [done|]]]].
  - destruct Hw as [Ha Hb1 Hc Hd]. split; try done. by apply (heap_ok_ext _ s).
  - rewrite Hrevs. apply StronglySorted_app_2; [|done|repeat constructor].
    intros r q Hr Hq. apply list_elem_of_singleton in Hq as ->. by apply Hold.
  - rewrite Hrevs. apply Forall_app. split; [|repeat constructor; simpl; lia].
    eapply Forall_impl; [exact Hb|]. simpl. intros r [? ?]. split; [lia|done].
  - exists new. split; [|done]. rewrite Hrevs. apply elem_of_app. right. by apply list_elem_of_singleton.
  - unfold saved_view. rewrite Hrevs, list_find_app_r.
    + simpl. rewrite decide_True by done. simpl. unfold content_at. simpl. by rewrite Nat.sub_diag.
    + apply list_find_None, Forall_forall. intros r Hr Hi. destruct (Hold r Hr). simpl in *. lia.
  - intros j (r & Hr & Hj). destruct (Hold r Hr) as [Hlt _]. simpl in Hlt. split; [lia|]. split.
    + exists r. split; [|done]. rewrite Hrevs. apply elem_of_app. by left.
    + unfold saved_view. rewrite Hrevs. destruct (list_find _ (validRevisions s)) as [[k q]|] eqn:Ef.
      * by rewrite (list_find_app_l _ _ _ _ _ Ef).
      * apply list_find_None in Ef. rewrite Forall_forall in Ef. by destruct (Ef r Hr).
Qed.
End Revert.
