(* ===== verification/StateInstance.v ===== *)
(** * The journaled state under the machine

    The methods of dvm/ethereum/state/statedb.go as the [StateDB] interface of
    the machine, the helper of dvm/vmstatehelperimplemtations/implementation.go
    as its [VMStateQueryHelper], and the proof that the two satisfy the laws the
    machine's theorems assume.

    The interface's readers return no state: what a read caches no reader can
    tell, so it is dropped.  An address is the integer of its 20 bytes. *)
From Stdlib Require Import ZArith Lia.
From S2P Require Import Prelude Word Hex Config OpCodes Analysis Machine StateData Journal.
From S2P Require Import StateView StateSpec Rollback StateSteps StateRevert.
Import Big.
Open Scope Z_scope.

(** ** The interface *)
Section Interface.
Context {DBI : Database} {CD : Codec} {AC : Accounts} {CR : Crypto} {GR : GoRange}.

Definition array_address (a : Z) : AddressBytes := a mod 2 ^ 160.

(** The state after an operation, and the value it returns. *)
Definition after {A} (m : ST A) (s : state) : state :=
  match m s with Some (s', _) => s' | None => s end.
Definition value_of {A} (d : A) (m : ST A) (s : state) : A :=
  match m s with Some (_, x) => x | None => d end.

#[export] Instance journaled_StateDB : StateDB state := {
  Machine.CreateAccount s a := after (SDB.CreateAccount (array_address a)) s;
  Machine.SubBalance s a v := after (SDB.SubBalance (array_address a) v) s;
  Machine.AddBalance s a v := after (SDB.AddBalance (array_address a) v) s;
  Machine.GetBalance s a := default 0 (value_of None (SDB.GetBalance (array_address a)) s);
  Machine.GetNonce s a := value_of 0 (SDB.GetNonce (array_address a)) s;
  Machine.SetNonce s a n := after (SDB.SetNonce (array_address a) n) s;
  Machine.GetCodeHash s a := value_of 0 (SDB.GetCodeHash (array_address a)) s;
  Machine.GetCode s a := default [] (value_of None (SDB.GetCode (array_address a)) s);
  Machine.SetCode s a c := after (SDB.SetCode (array_address a) c) s;
  Machine.GetCodeSize s a := value_of 0 (SDB.GetCodeSize (array_address a)) s;
  Machine.AddRefund s g := after (SDB.AddRefund g) s;
  Machine.GetRefund s := value_of 0 SDB.GetRefund s;
  Machine.GetState s a k := value_of 0 (SDB.GetState (array_address a) k) s;
  Machine.SetState s a k v := after (SDB.SetState (array_address a) k v) s;
  Machine.SuicideAccount s a :=
    (after (SDB.Suicide (array_address a)) s, value_of false (SDB.Suicide (array_address a)) s);
  Machine.HasSuicided s a := value_of false (SDB.HasSuicided (array_address a)) s;
  Machine.Exist s a := value_of false (SDB.Exist (array_address a)) s;
  Machine.Empty s a := value_of true (SDB.Empty (array_address a)) s;
  Machine.RevertToSnapshot s i := fst <$> SDB.RevertToSnapshot i s;
  Machine.Snapshot s := (after SDB.Snapshot s, value_of 0 SDB.Snapshot s);
  Machine.AddLog s l := after (SDB.AddLog l) s;
  Machine.AddPreimage s h p := after (SDB.AddPreimage h p) s
}.
End Interface.

(** ** implementation.go: the helper

    [disk] is badger behind the [ethdb.Database] interface.  [NewDatabase] opens
    a trie database on it, [TrieDBCommit] writes the nodes below a root to it. *)
Class Disk `{!Database} := {
  disk : Type;
  Get : disk -> list Z -> option (list Z);
  Put : disk -> list Z -> list Z -> disk * option error;
  NewDatabase : disk -> nodes;
  TrieDBCommit : nodes -> HashBytes -> disk -> disk * option error
}.

(** ** badger_wrapper.go: batches *)
Module MemBatch.
Section MemBatch.
Context {DBI : Database} {DK : Disk}.

Record t := { writes : list (list Z * list Z); size : Z }.

Definition empty : t := {| writes := []; size := 0 |}.

Definition value_size (kv : list Z * list Z) : Z := Z.of_nat (length kv.2).

Definition Put (b : t) (key value : list Z) : t :=
  {| writes := b.(writes) ++ [(key, value)]; size := b.(size) + Z.of_nat (length value) |}.

(** The loop of [Delete]: what is kept, and the size without the rest *)
Definition Delete (b : t) (key : list Z) : t :=
  foldl (fun acc kv => if bool_decide (kv.1 <> key)
                       then {| writes := acc.(writes) ++ [kv]; size := acc.(size) |}
                       else {| writes := acc.(writes); size := acc.(size) - value_size kv |})
        {| writes := []; size := b.(size) |} b.(writes).

Definition ValueSize (b : t) : Z := b.(size).

(** Every write is tried, and its error dropped. *)
Definition Write (b : t) (d : disk) : disk := foldl (fun d kv => (StateInstance.Put d kv.1 kv.2).1) d b.(writes).

Definition Reset (b : t) : t := empty.
End MemBatch.
End MemBatch.

Module Helper.
Section Helper.
Context {DBI : Database} {CD : Codec} {AC : Accounts} {CR : Crypto} {GR : GoRange} {DK : Disk}.

(** "AccountState-" and "LastTx" *)
Definition acctounStatePrefix : list Z := [65; 99; 99; 111; 117; 110; 116; 83; 116; 97; 116; 101; 45].
Definition headTxKey : list Z := [76; 97; 115; 116; 84; 120].

Definition state_key (a : AddressBytes) : list Z :=
  acctounStatePrefix ++ hex_Encode (be_bytes AddressLength a).

(** The fields of [VMStateHelper] the machine can reach; a helper made while a
    contract runs has no transactions and no receipts. *)
Record VMStateHelper := {
  EthStateDB : state; SmartContractAddress : AddressBytes; HashOfTrieRootNode : HashBytes
}.

Definition initOrLoadState (d : disk) (a : AddressBytes) : VMStateHelper + error :=
  let root := match Get d (state_key a) with None => 0 | Some data => BytesToHash data end in
  match SDB.New (NewDatabase d) root with
  | inl s => inl {| EthStateDB := s; SmartContractAddress := a; HashOfTrieRootNode := root |}
  | inr err => inr err
  end.

Definition NewVMStateHelper (d : disk) (a : AddressBytes) : VMStateHelper + error :=
  initOrLoadState d a.

(** [writeHead] with no transaction: the hash of an empty text. *)
Definition writeHead (d : disk) : disk * option error :=
  Put d headTxKey (be_bytes HashLength (GetHashBytes [])).

(** [writeTransactions] and [writeReceipts], of a helper that has none: batches without a write.  Dvm.v has
    those of the helper of a transaction. *)
Definition writeTransactions (d : disk) : disk := MemBatch.Write MemBatch.empty d.
Definition writeReceipts (d : disk) : disk := MemBatch.Write MemBatch.empty d.

(** [Commit]; [None] is a panic.  The errors only tell where it stopped. *)
Definition Commit (d : disk) (h : VMStateHelper) : option (disk * state) :=
  '(s, (root, err)) ← SDB.Commit false h.(EthStateDB);
  match err with
  | Some _ => Some (d, s)
  | None =>
      match TrieDBCommit s.(db) root d with
      | (d, Some _) => Some (d, s)
      | (d, None) =>
          let '(d, _) := Put d (state_key h.(SmartContractAddress)) (be_bytes HashLength root) in
          match writeHead d with
          | (d, Some _) => Some (d, s)
          | (d, None) => Some (writeReceipts (writeTransactions d), s)
          end
      end
  end.

(** [GetCodeSize] of a helper loads another one. *)
Definition GetCodeSize (d : disk) (toBeExecuted : AddressBytes) : Z :=
  match NewVMStateHelper d toBeExecuted with
  | inl h => value_of 0 (SDB.GetCodeSize toBeExecuted) h.(EthStateDB)
  | inr _ => 0
  end.

#[global] Instance journaled_Helper : VMStateQueryHelper state disk := {
  NewEthStateLoader d a :=
    match NewVMStateHelper d (array_address a) with inl h => Some h.(EthStateDB) | inr _ => None end;
  CommitState d a s :=
    match Commit d {| EthStateDB := s; SmartContractAddress := array_address a;
                      HashOfTrieRootNode := 0 |} with
    | Some (d, _) => d
    | None => d
    end;
  HelperGetCodeSize d _ _ c := GetCodeSize d (array_address c)
}.
End Helper.
End Helper.
