(* ===== verification/StateCommit.v ===== *)
(** * Writing the state back

    [Finalise], [Commit] and the helper's [Commit] end without a panic on a
    well-formed state, and what they write can be loaded again: a trie never makes
    up an entry, so every account found later is one that was stored. *)
From Stdlib Require Import ZArith Lia.
From S2P Require Import Prelude Word Hex Config OpCodes Analysis Machine StateData Journal.
From S2P Require Import StateView StateSpec Rollback StateSteps StateRevert StateInstance.
Import Big.
Open Scope Z_scope.

(** What a trie holds under a key. *)
Definition entry {DBI : Database} (d : nodes) (t : Trie) (k : list Z) : list Z := (TryGet d t k).1.

(** What the second trie holds the first one held. *)
Definition no_new {DBI : Database} (d : nodes) (t : Trie) (d' : nodes) (t' : Trie) : Prop :=
  forall k, entry d' t' k = entry d t k \/ entry d' t' k = [].

(** Tries store what they are given and nothing else, whether or not an operation
    reports an error; other writes to the nodes leave them alone. *)
Class TrieLaws {DBI : Database} := {
  trie_update : forall d t k v j, let t' := (TryUpdate d t k v).1 in
    (j = k /\ entry d t' j = v) \/ entry d t' j = entry d t j \/ entry d t' j = [];
  trie_delete : forall d t k, no_new d t d (TryDelete d t k).1;
  trie_blob : forall d t h c, no_new d t (InsertBlob d h c) t;
  trie_commit_other : forall d t u, no_new d u (TrieCommit d t None).1.1 u;
  code_size : forall d ah h, 0 <= (ContractCodeSize d ah h).1
}.

(** An account with a balance can be coded and is found again; the two times are
    not coded, so they come back as zero times. *)
Class CodecLaws {CD : Codec} := {
  codec_account : forall x b, x.(Balance) = Some b -> 0 <= b -> exists enc y,
    EncodeAccount x = Some enc /\ DecodeAccount enc = Some y /\
    y.(AccAddress) = x.(AccAddress) /\ y.(Balance) = x.(Balance) /\ y.(Nonce) = x.(Nonce) /\
    y.(Root) = x.(Root) /\ y.(AccCodeHash) = x.(AccCodeHash)
}.

Section Commit.
Context {DBI : Database} {CD : Codec} {AC : Accounts} {CR : Crypto} {GR : GoRange}
  {BL : BackendLaws} {TL : TrieLaws} {CL : CodecLaws}.
#[local] Arguments be_bytes : simpl never.

(** ** What stays true while objects are written *)
Record storable (m : gmap Z loc) (s : state) : Prop := {
  st_map : s.(StateObjects) = m;
  st_trie : forall a x, address_ok a -> load s.(db) s.(accountTrie) a = Some x -> account_ok a x;
  st_live : forall a l, s.(StateObjects) !! a = Some l ->
    address_ok a /\ exists o, s.(objects) !! l = Some o /\ obj_ok a o
}.

Lemma state_storable s : state_ok s -> storable s.(StateObjects) s.
Proof.
  intros [[Hh _ _ _] _ _]. split; [done|apply Hh|]. intros a l Ha.
  destruct (h_live _ _ Hh a l Ha) as (? & o & ? & ? & _). eauto.
Qed.

(** [ends m I J]: from a state where [I] holds, [m] returns, and [J] holds after. *)
Definition ends {A} (m : ST A) (I : state -> Prop) (J : state -> A -> Prop) : Prop :=
  forall s, I s -> exists s' x, m s = Some (s', x) /\ J s' x.

Lemma ends_bind {A B} (m : ST A) (k : A -> ST B) I J K :
  ends m I J -> (forall x, ends (k x) (fun s => J s x) K) -> ends (m ≫= k) I K.
Proof.
  intros Hm Hk s Hs. destruct (Hm s Hs) as (s1 & x & H1 & HJ). destruct (Hk x s1 HJ) as (s2 & y & H2 & HK).
  exists s2, y. by rewrite (bind_eq _ _ _ _ _ H1).
Qed.

Lemma ends_weaken {A} (m : ST A) (I I' : state -> Prop) (J J' : state -> A -> Prop) :
  ends m I J -> (forall s, I' s -> I s) -> (forall s x, J s x -> J' s x) -> ends m I' J'.
Proof. intros Hm HI HJ s Hs. destruct (Hm s (HI s Hs)) as (s' & x & ? & ?). eauto. Qed.

Lemma ends_ret {A} (x : A) (I : state -> Prop) (J : state -> A -> Prop) :
  (forall s, I s -> J s x) -> ends (mret x) I J.
Proof. intros H s Hs. exists s, x. by split; [|apply H]. Qed.

Lemma ends_gets {A} (f : state -> A) (I : state -> Prop) : ends (gets f) I (fun s x => I s /\ x = f s).
Proof. intros s Hs. by exists s, (f s). Qed.

Lemma ends_modify f (I J : state -> Prop) : (forall s, I s -> J (f s)) -> ends (modify f) I (fun s _ => J s).
Proof. intros H s Hs. exists (f s), tt. by split; [|apply H]. Qed.

Lemma ends_lift {A} (m : option A) (x : A) (I : state -> Prop) : m = Some x ->
  ends (lift m) I (fun s y => I s /\ y = x).
Proof. intros -> s Hs. by exists s, x. Qed.

Lemma ends_for_each {A} (l : list A) (f : A -> ST unit) (I : list A -> state -> Prop) :
  (forall x l', ends (f x) (I (x :: l')) (fun s _ => I l' s)) ->
  ends (for_each l f) (I l) (fun s _ => I [] s).
Proof.
  intros Hf. induction l as [|x l IH]; cbn [for_each]; [by apply ends_ret|].
  eapply ends_bind; [apply Hf|]. intros []. exact IH.
Qed.

(** Back to [ends] after looking at a state. *)
Tactic Notation "as_ends" uconstr(I) uconstr(J) := match goal with |- forall s, _ -> exists s' x, ?m s = _ /\ _ =>
  change (ends m I J) end.

(** *** The live object of an address, in the live set [m] *)
Section Live.
Context (m : gmap Z loc).
Abbreviation storable := (storable m).

Definition at_ (a : Z) (l : loc) (P : stateObject -> Prop) (s : state) : Prop :=
  storable s /\ s.(StateObjects) !! a = Some l /\
  exists o, s.(objects) !! l = Some o /\ P o.

Lemma at_any s a l : storable s -> s.(StateObjects) !! a = Some l -> at_ a l (fun _ => True) s.
Proof.
  intros Hs Ha. split; [done|]. split; [done|]. destruct (st_live _ _ Hs a l Ha) as (_ & o & ? & _).
  by exists o.
Qed.

Lemma at_ok s a l P : at_ a l P s -> at_ a l (fun o => P o /\ obj_ok a o) s.
Proof.
  intros (Hs & Ha & o & Ho & HP). split; [done|]. split; [done|]. exists o. split; [done|].
  split; [done|]. destruct (st_live _ _ Hs a l Ha) as (_ & o' & Ho' & Hok). congruence.
Qed.

Lemma at_deref a l P : ends (deref l) (at_ a l P)
  (fun s o => at_ a l (fun o' => o' = o) s /\ P o /\ obj_ok a o).
Proof.
  intros s Hat. destruct (at_ok _ _ _ _ Hat) as (Hs & Ha & o & Ho & HP & Hok).
  exists s, o. unfold deref. rewrite Ho. split; [done|]. split; [|done].
  split; [done|]. split; [done|]. by exists o.
Qed.

Lemma at_update a l (P Q : stateObject -> Prop) f : (forall o, P o -> obj_ok a o -> Q (f o)) ->
  (forall o, P o -> obj_ok a o -> obj_ok a (f o)) ->
  ends (update l f) (at_ a l P) (fun s _ => at_ a l Q s).
Proof.
  intros HPQ Hok s Hat. destruct (at_ok _ _ _ _ Hat) as (Hs & Ha & o & Ho & HP & Hoo).
  eexists _, _. split; [done|]. split; [|split; [done|]].
  - split; [apply Hs|apply Hs|]. simpl. intros b l' Hb. destruct (st_live _ _ Hs b l' Hb) as (Hr & o' & Ho' & Hok').
    split; [done|]. destruct (decide (l = l')) as [<-|Hne].
    + rewrite list_lookup_alter_eq, Ho. rewrite Ho in Ho'. injection Ho' as <-. exists (f o).
      split; [done|]. replace b with a; [by apply Hok|].
      pose proof (ok_address _ _ Hoo). pose proof (ok_address _ _ Hok'). congruence.
    + rewrite list_lookup_alter_ne by done. eauto.
  - exists (f o). simpl. rewrite list_lookup_alter_eq, Ho. split; [done|]. by apply HPQ.
Qed.

(** Other parts of the state. *)
Lemma at_ext a l P s s' : s'.(db) = s.(db) -> s'.(accountTrie) = s.(accountTrie) ->
  s'.(objects) = s.(objects) -> s'.(StateObjects) = s.(StateObjects) -> at_ a l P s -> at_ a l P s'.
Proof.
  intros H1 H2 H3 H4 ([Hm Ht Hl] & ? & ?). split; [|split; rewrite ?H3, ?H4; done].
  split; rewrite ?H1, ?H2, ?H3, ?H4; done.
Qed.

(** Tries and nodes that make up no account. *)
Lemma load_no_new d t d' t' a x : no_new d t d' t' -> load d' t' a = Some x -> load d t a = Some x.
Proof.
  intros Hn. unfold load. specialize (Hn (be_bytes AddressLength a)). unfold entry in Hn.
  destruct (TryGet d' t' _) as [enc e], (TryGet d t _) as [enc' e']. simpl in Hn.
  by destruct Hn as [->| ->].
Qed.

Lemma at_set_db a l P s d t : no_new s.(db) s.(accountTrie) d t -> at_ a l P s -> at_ a l P (set_db s d t).
Proof.
  intros Hn ([Hm Ht Hl] & ? & ?). split; [|done]. split; [done| |done]. simpl. intros b x Hb Hx.
  apply Ht; [done|]. by eapply load_no_new.
Qed.

(** ** Objects *)
Lemma setError_at a l P e : (forall o e, P o -> P (with_err o e)) ->
  ends (Obj.setError l e) (at_ a l P) (fun s _ => at_ a l P s).
Proof.
  intros HP. apply at_update.
  - intros o Ho _. by destruct (objErr o); [|apply HP].
  - intros o _ Hok. by destruct (objErr o); [|apply (obj_ok_fields a o)].
Qed.

Definition has_trie (o : stateObject) : Prop := is_Some o.(trie).

(** The keys still to be written are dirty. *)
Definition dirty_keys (ks : list Z) (o : stateObject) : Prop :=
  has_trie o /\ NoDup ks /\ Forall (fun k => is_Some (o.(dirtyStorage) !! k)) ks.

Lemma getTrie_at a l : ends (Obj.getTrie l) (at_ a l (fun _ => True)) (fun s _ => at_ a l has_trie s).
Proof.
  unfold Obj.getTrie. eapply ends_bind; [apply at_deref|]. intros o. cbv beta.
  destruct (trie o) as [t|] eqn:Et.
  { apply ends_ret. intros s [(Hs & Ha & o' & Ho' & ->) _]. split; [done|]. split; [done|].
    exists o. split; [done|]. by exists t. }
  intros s (Hat & _ & Hok). rewrite (ok_address _ _ Hok), lift_eq. cbv zeta.
  rewrite (bind_eq (gets db) _ s s _ eq_refl).
  destruct (OpenStorageTrie _ _ (Root _)) as [t [e|]].
  - destruct (OpenStorageTrie _ _ 0) as [t' e'].
    revert s Hat. change (ends (update l (fun o => with_trie o t');;
      Obj.setError l (Some (errStorageTrie e));; mret t') (at_ a l (fun o' => o' = o))
      (fun s _ => at_ a l has_trie s)).
    eapply ends_bind; [apply (at_update a l _ has_trie)|intros []; cbv beta].
    { intros. by eexists. } { intros o' _ Ho'. by apply (obj_ok_fields a o'). }
    eapply ends_bind; [by apply setError_at|intros []; cbv beta]. by apply ends_ret.
  - revert s Hat. change (ends (update l (fun o => with_trie o t);; mret t) (at_ a l (fun o' => o' = o))
      (fun s _ => at_ a l has_trie s)).
    eapply ends_bind; [apply (at_update a l _ has_trie)|intros []; by apply ends_ret].
    { intros. by eexists. } { intros o' _ Ho'. by apply (obj_ok_fields a o'). }
Qed.

Lemma updateTrie_at a l : ends (Obj.updateTrie l) (at_ a l (fun _ => True)) (fun s _ => at_ a l has_trie s).
Proof.
  unfold Obj.updateTrie. eapply ends_bind; [apply getTrie_at|intros ?; cbv beta].
  eapply ends_bind; [apply at_deref|intros o]. cbv beta.
  eapply (ends_weaken _ (at_ a l (dirty_keys (range (dirtyStorage o)))) _ (fun s _ => at_ a l (dirty_keys []) s)).
  - apply (ends_for_each _ _ (fun ks => at_ a l (dirty_keys ks))). clear o. intros key ks.
    eapply ends_bind; [apply at_deref|intros o]. cbv beta. intros s (Hat & (Htr & Hnd & Hks) & Hok).
    destruct Htr as [t Ht]. apply Forall_cons in Hks as [[v Hv] Hks]. apply NoDup_cons in Hnd as [Hin Hnd].
    rewrite Ht, lift_eq, Hv, lift_eq. revert s Hat. cbv beta.
    as_ends (at_ a l (fun o' => o' = o)) (fun s _ => at_ a l (dirty_keys ks) s).
    eapply ends_bind; [apply (at_update a l _ (dirty_keys ks))|intros []; cbv beta].
    { intros o' -> _. split; [by exists t|]. split; [done|]. simpl. rewrite Forall_forall in Hks |- *.
      intros k Hk. rewrite lookup_delete_ne; [by apply Hks|]. by intros ->. }
    { intros o' _ Ho'. by apply (obj_ok_fields a o'). }
    eapply ends_bind; [apply ends_gets|intros d]. cbv beta. destruct (if v =? 0 then _ else _) as [tr err].
    eapply ends_bind; [eapply (ends_weaken _ (at_ a l (dirty_keys ks)));
      [apply (at_update a l _ (dirty_keys ks))|by intros s [? _]|done]|intros []; cbv beta].
    { intros o' (_ & ? & ?) _. split; [by eexists|done]. }
    { intros o' _ Ho'. by apply (obj_ok_fields a o'). }
    by apply setError_at.
  - intros s ((Hs & Ha & o' & Ho' & ->) & Htr & _). split; [done|]. split; [done|]. exists o.
    split; [done|]. split; [done|]. rewrite range_perm. split; [apply NoDup_fst_map_to_list|].
    apply Forall_forall. intros k Hk.
    apply list_elem_of_fmap in Hk as ([k' v] & -> & Hk). apply elem_of_map_to_list in Hk. by exists v.
  - intros s _ (Hs & Ha & o' & Ho' & Ht & _). split; [done|]. split; [done|]. by exists o'.
Qed.

Abbreviation alive a l := (at_ a l (fun _ => True)).

Lemma at_alive a l P s : at_ a l P s -> alive a l s.
Proof. intros (Hs & Ha & o & Ho & _). split; [done|]. split; [done|]. by exists o. Qed.

Lemma at_live a l P s : at_ a l P s -> storable s /\ address_ok a.
Proof. intros ([Hm Ht Hl] & Ha & _). split; [done|]. by destruct (Hl a l Ha). Qed.

Lemma updateRoot_at a l : ends (Obj.updateRoot l) (alive a l) (fun s _ => alive a l s).
Proof.
  unfold Obj.updateRoot. eapply ends_bind; [apply updateTrie_at|intros []; cbv beta].
  eapply ends_bind; [apply at_deref|intros o]. cbv beta. intros s (Hat & [t Ht] & Hok).
  rewrite Ht, lift_eq. revert s Hat.
  as_ends (at_ a l (fun o' => o' = o)) (fun s _ => alive a l s).
  apply at_update; [done|]. intros o' _ [H1 H2 H3 H4]. by split.
Qed.

Lemma setDbErr_at a l e : ends (SDB.setError e) (alive a l) (fun s _ => alive a l s).
Proof.
  apply ends_modify. intros s Hs. destruct (dbErr s); [done|].
  apply (at_ext a l _ s (set_dbErr s e)); done.
Qed.

Lemma be_address_inj a b : address_ok a -> address_ok b ->
  be_bytes AddressLength a = be_bytes AddressLength b -> a = b.
Proof.
  intros Ha Hb He. apply (f_equal be_int) in He. rewrite !be_int_be_bytes in He.
  unfold address_ok, AddressLength in *. rewrite !Z.mod_small in He by lia. done.
Qed.

Lemma updateStateObject_at a l : ends (SDB.updateStateObject l) (alive a l) (fun s _ => alive a l s).
Proof.
  unfold SDB.updateStateObject. eapply ends_bind; [apply at_deref|intros o]. cbv beta.
  intros s (Hat & _ & Hok). rewrite (ok_address _ _ Hok), lift_eq.
  destruct (ok_balance _ _ Hok) as (b & Hb & Hb0).
  destruct (codec_account (account o) b Hb Hb0) as (enc & y & Henc & Hdec & Hya & Hyb & _).
  rewrite Henc, lift_eq, (bind_eq (gets (fun s => s)) _ s s s eq_refl).
  destruct (TryUpdate _ _ _ _) as [tr err] eqn:Et.
  destruct (at_live _ _ _ _ Hat) as [_ Hra]. pose proof (at_alive _ _ _ _ Hat) as ([Hm Htrie Hlive] & Hal & Hex).
  assert (Hnew : alive a l (set_db s s.(db) tr)).
  { split; [|done]. split; [done| |done]. simpl. intros c x Hc Hx. unfold load in Hx.
    pose proof (trie_update (db s) (accountTrie s) (be_bytes AddressLength a) enc
      (be_bytes AddressLength c)) as Hup. rewrite Et in Hup. unfold entry in Hup. simpl in Hup.
    destruct (TryGet (db s) tr _) as [e er]. simpl in Hup. destruct Hup as [[Hk ->]|[He| ->]]; [| |done].
    - apply be_address_inj in Hk as ->; [|done|done].
      destruct (length enc =? 0)%nat; [done|]. rewrite Hdec in Hx. injection Hx as <-.
      split; [rewrite Hya; apply Hok|]. intros z Hz. rewrite Hyb, Hb in Hz. by injection Hz as <-.
    - apply (Htrie c x Hc). unfold load. revert He. destruct (TryGet _ _ _) as [e' er']. simpl. by intros ->. }
  destruct (setDbErr_at a l (errDatabase <$> err) _ Hnew) as (s2 & [] & H2 & Hs2). by exists s2, tt.
Qed.

Lemma deleteStateObject_at a l : ends (SDB.deleteStateObject l) (alive a l) (fun s _ => alive a l s).
Proof.
  unfold SDB.deleteStateObject.
  eapply ends_bind; [apply (at_update a l _ (fun _ => True)); [done|]|intros []; cbv beta].
  { intros o _ [H1 H2 H3 H4]. by split. }
  eapply ends_bind; [apply at_deref|intros o]. cbv beta. intros s (Hat & _ & Hok).
  rewrite (ok_address _ _ Hok), lift_eq, (bind_eq (gets (fun s => s)) _ s s s eq_refl).
  pose proof (trie_delete (db s) (accountTrie s) (be_bytes AddressLength a)) as Hd.
  destruct (TryDelete _ _ _) as [tr err]. simpl in Hd. apply at_alive in Hat.
  pose proof (at_set_db a l _ s (db s) tr Hd Hat) as Hs'.
  destruct (setDbErr_at a l (errDatabase <$> err) _ Hs') as (s2 & [] & H2 & Hs2). by exists s2, tt.
Qed.

Lemma CommitTrie_at a l : ends (Obj.CommitTrie l) (alive a l) (fun s _ => alive a l s).
Proof.
  unfold Obj.CommitTrie. eapply ends_bind; [apply updateTrie_at|intros []; cbv beta].
  eapply ends_bind; [apply at_deref|intros o]. cbv beta. destruct (objErr o) as [e|].
  { apply ends_ret. intros s [? _]. by eapply at_alive. }
  intros s (Hat & [t Ht] & Hok). rewrite Ht, lift_eq, (bind_eq (gets db) _ s s _ eq_refl).
  pose proof (trie_commit_other (db s) t (accountTrie s)) as Hc.
  destruct (TrieCommit _ _ _) as [[d tr] [root err]]. simpl in Hc. apply at_alive in Hat.
  pose proof (at_set_db a l _ s d (accountTrie s) Hc Hat) as Hs'.
  rewrite (bind_eq (modify _) _ s _ tt eq_refl). revert Hs'.
  generalize (set_db s d (accountTrie s)).
  as_ends (alive a l) (fun s _ => alive a l s).
  eapply ends_bind; [apply (at_update a l _ (fun _ => True)); [done|]|intros []; cbv beta].
  { intros o' _ Ho'. by apply (obj_ok_fields a o'). }
  destruct err; [by apply ends_ret|].
  eapply ends_bind; [apply (at_update a l _ (fun _ => True)); [done|]|intros []; cbv beta; by apply ends_ret].
  intros o' _ [H1 H2 H3 H4]. by split.
Qed.

(** ** [Finalise] and [Commit] *)
Lemma empty_lift a o (I : state -> Prop) : obj_ok a o -> exists e, Obj.empty o = Some e /\
  ends (lift (Obj.empty o)) I (fun s y => I s /\ y = e).
Proof. intros Hok. destruct (obj_empty_ok a o Hok) as [e He]. exists e. split; [done|by apply ends_lift]. Qed.

Lemma mark_storable (f : state -> state) :
  (forall s, exists d, f s = set_objects s s.(objects) s.(StateObjects) d) ->
  ends (modify f) storable (fun s _ => storable s).
Proof. intros Hf. apply ends_modify. intros s [H0 H1 H2]. destruct (Hf s) as [d ->]. by split. Qed.

Lemma alive_storable a l s : alive a l s -> storable s.
Proof. by intros [? _]. Qed.

(** Whether an object is to go. *)
Lemma doomed a (o : stateObject) (c : bool) (I : state -> Prop) : obj_ok a o ->
  ends (if o.(suicided) then mret true else if c then lift (Obj.empty o) else mret false)
    I (fun s _ => I s).
Proof.
  intros Hok. destruct (suicided o); [by apply ends_ret|]. destruct c; [|by apply ends_ret].
  destruct (empty_lift a o I Hok) as (e & _ & He). eapply ends_weaken; [exact He|done|]. by intros s x [? _].
Qed.

Lemma Finalise_storable b : ends (SDB.Finalise b) storable
  (fun s _ => storable s /\ s.(changes) = newJournal /\ s.(validRevisions) = [] /\ s.(refund) = 0).
Proof.
  unfold SDB.Finalise. eapply ends_bind; [apply ends_gets|intros d]. cbv beta.
  eapply (ends_bind _ _ _ (fun s _ => storable s)).
  - eapply (ends_weaken _ storable _ (fun s _ => storable s)); [|by intros s [? _]|done].
    apply (ends_for_each _ _ (fun _ => storable)). intros addr _.
    eapply ends_bind; [apply ends_gets|intros mm]. cbv beta.
    destruct (mm !! addr) as [l|] eqn:El; [|by apply ends_ret; intros s [? _]].
    intros s (Hs & ->). pose proof (at_any s addr l Hs El) as Hat. revert s Hat El Hs. intros s Hat _ _.
    revert s Hat. as_ends (alive addr l) (fun s _ => storable s).
    eapply ends_bind; [apply at_deref|intros o]. cbv beta. intros s (Hat & _ & Hok). apply at_alive in Hat.
    revert s Hat. as_ends (alive addr l) (fun s _ => storable s).
    eapply ends_bind; [by apply (doomed addr)|intros e]. cbv beta.
    eapply ends_bind; [destruct e; [apply deleteStateObject_at|eapply ends_bind;
      [apply updateRoot_at|intros []; apply updateStateObject_at]]|intros []; cbv beta].
    eapply ends_weaken; [apply mark_storable; by eexists|apply alive_storable|done].
  - intros []. cbv beta. apply ends_modify. intros s [H0 H1 H2]. split_and!; done.
Qed.

(** Code goes to the node store before the object's trie. *)
Lemma store_code_at a l o : obj_ok a o -> ends
  (match o.(code) with
   | Some c =>
       if o.(dirtyCode) then
         modify (fun s => set_db s (InsertBlob s.(db) (slice_hash o.(account).(AccCodeHash)) c)
           s.(accountTrie));;
         update l (fun o => with_flags o false o.(suicided) o.(deleted))
       else mret tt
   | None => mret tt
   end) (alive a l) (fun s _ => alive a l s).
Proof.
  intros Hok. destruct (code o); [|by apply ends_ret]. destruct (dirtyCode o); [|by apply ends_ret].
  eapply ends_bind; [apply ends_modify|intros []; cbv beta].
  - intros s Hs. apply at_set_db; [apply trie_blob|exact Hs].
  - apply at_update; [done|]. intros o' _ [H1 H2 H3 H4]. by split.
Qed.

Lemma commit_objects_storable b l : Forall (fun p => m !! p.1 = Some p.2) l ->
  ends (SDB.commit_objects b l) storable (fun s _ => storable s).
Proof.
  induction l as [|[a l0] l IH]; intros Hl; cbn [SDB.commit_objects]; [by apply ends_ret|].
  apply Forall_cons in Hl as [Ha Hl]. simpl in Ha.
  eapply (ends_weaken _ (alive a l0) _ (fun s _ => storable s));
    [|intros s Hs; apply at_any; [done|by rewrite (st_map _ _ Hs)]|done].
  eapply ends_bind; [apply at_deref|intros o]. cbv beta. intros s (Hat & _ & Hok). apply at_alive in Hat.
  revert s Hat. as_ends (alive a l0) (fun s _ => storable s).
  eapply ends_bind; [eapply (ends_weaken _ _ _ _ (fun s _ => alive a l0 s)); [apply ends_gets|done|by intros s x [? _]]|].
  intros d. cbv beta. eapply ends_bind; [by apply (doomed a)|intros e]. cbv beta.
  eapply (ends_bind _ _ _ (fun s _ => alive a l0 s)).
  - destruct e.
    + eapply ends_bind; [apply deleteStateObject_at|intros []; cbv beta; by apply ends_ret].
    + destruct (bool_decide _); [|by apply ends_ret].
      eapply ends_bind; [by apply store_code_at|intros []; cbv beta].
      eapply ends_bind; [apply CommitTrie_at|intros [err|]; cbv beta]; [by apply ends_ret|].
      eapply ends_bind; [apply updateStateObject_at|intros []; cbv beta; by apply ends_ret].
  - intros [err|]; [by apply ends_ret; intros s [? _]|].
    eapply (ends_bind _ _ _ (fun s _ => storable s)); [|intros []; by apply IH].
    eapply ends_weaken; [apply mark_storable; by eexists|apply alive_storable|done].
Qed.
End Live.

(** What a successful commit leaves: the trie it committed and its root. *)
Definition committed (s : state) (root : HashBytes) : Prop :=
  exists d t f t', TrieCommit d t f = (s.(db), t', (root, None)) /\
    forall a x, address_ok a -> load d t a = Some x -> account_ok a x.

Lemma Commit_ok b s : state_ok s ->
  exists s' root err, SDB.Commit b s = Some (s', (root, err)) /\
    s'.(changes) = newJournal /\ s'.(validRevisions) = [] /\ s'.(refund) = 0 /\
    (err = None -> committed s' root).
Proof.
  intros Hs. pose proof (state_storable s Hs) as Hst. set (m := StateObjects s) in *.
  unfold SDB.Commit. rewrite (bind_eq (gets _) _ s s _ eq_refl).
  destruct (ends_for_each (range s.(changes).(dirties)) SDB.mark_dirty (fun _ => storable m)) with (s := s)
    as (s1 & [] & H1 & Hs1); [|done|].
  { intros x l'. apply mark_storable. by eexists. }
  rewrite (bind_eq _ _ _ _ _ H1), (bind_eq (gets _) _ s1 s1 _ eq_refl), (st_map _ _ Hs1).
  destruct (commit_objects_storable m b (omap (fun a => (fun l => (a, l)) <$> m !! a) (range m))) with (s := s1)
    as (s2 & err & H2 & Hs2); [|done|].
  { apply Forall_forall. intros [a l] Hin. apply list_elem_of_omap in Hin as (a' & _ & Hal).
    destruct (m !! a') eqn:E; [|done]. by injection Hal as <- <-. }
  rewrite (bind_eq _ _ _ _ _ H2). destruct err as [err|].
  { eexists _, 0, (Some err). split; [done|]. done. }
  rewrite (bind_eq (gets (fun s => s)) _ s2 s2 s2 eq_refl).
  destruct (TrieCommit _ _ _) as [[d tr] [root err]] eqn:Ec.
  eexists _, root, (errDatabase <$> err). split; [done|]. split; [done|]. split; [done|].
  split; [done|]. intros He. destruct err; [done|].
  exists s2.(db), s2.(accountTrie), (Some SDB.reference_leaf), tr. split; [done|apply Hs2].
Qed.
End Commit.
