(* ===== verification/StateLawful.v ===== *)
(** * The journaled state satisfies the laws of a state

    The instance of [StateLaws] for statedb.go and the helper: what the machine's
    theorems assume holds of the journaled state, given what the trie database,
    the RLP coding and the disk promise.  [TrieLaws] and [CodecLaws] are in
    [StateCommit]; [DiskLaws] here says what is stored stays stored, and what a disk that takes every
    write ([takes_writes]) gives back. *)
From Stdlib Require Import ZArith Lia.
From S2P Require Import Prelude Word Hex Config OpCodes Analysis Machine StateData Journal.
From S2P Require Import StateView StateSpec Rollback StateSteps StateRevert StateInstance StateCommit.
Import Big.
Open Scope Z_scope.

#[local] Arguments be_bytes : simpl never.
Abbreviation history s := s.(changes).(entries).

Lemma array_address_ok a : address_ok (array_address a).
Proof. apply Z.mod_pos_bound. lia. Qed.

Section Operations.
Context {DBI : Database} {CD : Codec} {AC : Accounts} {CR : Crypto} {GR : GoRange}
  {BL : BackendLaws}.

(** ** The operations as the interface shows them *)
Lemma after_eq {A} (m : ST A) s s' x : m s = Some (s', x) -> after m s = s'.
Proof. unfold after. by intros ->. Qed.

Lemma value_eq {A} (d : A) (m : ST A) s s' x : m s = Some (s', x) -> value_of d m s = x.
Proof. unfold value_of. by intros ->. Qed.

Lemma balance_seen s a : wf (history s) s -> Machine.GetBalance s a = seen_balance s (array_address a).
Proof.
  intros Hw. destruct (GetBalance_ok _ s (array_address a) (wf_heap _ _ Hw) (array_address_ok a))
    as (s' & b & Hg & _ & ->). simpl. by rewrite (value_eq _ _ _ _ _ Hg).
Qed.

Lemma lookup_object_ok es s a o : heap_ok es s -> address_ok a -> lookup_object s a = Some o -> obj_ok a o.
Proof.
  intros Hh Ha. unfold lookup_object. destruct (StateObjects s !! a) as [l|] eqn:El.
  - destruct (h_live _ _ Hh a l El) as (_ & o' & -> & Hok & _). simpl. destruct (deleted o'); [done|].
    by intros [= <-].
  - destruct (load _ _ a) as [x|] eqn:Ex; [|done]. intros [= <-].
    by apply newStateObject_ok, (h_trie _ _ Hh).
Qed.

Lemma seen_balance_nonneg s a : wf (history s) s -> address_ok a -> 0 <= seen_balance s a.
Proof.
  intros Hw Ha. unfold seen_balance. simpl. destruct (lookup_object s a) as [o|] eqn:Eo; simpl; [|done].
  eapply obj_balance_nonneg, lookup_object_ok; [apply Hw|done|done].
Qed.

Lemma GetCode_ok es s a : heap_ok es s -> address_ok a ->
  exists s' c, SDB.GetCode a s = Some (s', c) /\ quiet es s s' /\
    default [] c = match lookup_object s a with
                   | Some o => code_value s.(db) a o.(code) o.(account).(AccCodeHash)
                   | None => []
                   end.
Proof.
  intros Hh Ha. unfold SDB.GetCode, SDB.reading.
  destruct (getStateObject_ok _ s a Hh Ha) as (s1 & r & Hg & Hq & Hr).
  rewrite (bind_eq _ _ _ _ _ Hg). destruct r as [l|].
  - destruct Hr as (o & Hl & ->). destruct (obj_Code_ok es s1 a l o (q_heap _ _ _ Hq) Hl)
      as (s2 & o' & Hc & Hq2 & _ & Hval). exists s2, o'.(code). rewrite <- (q_db _ _ _ Hq).
    split; [done|]. split; [by eapply quiet_trans|done].
  - rewrite (proj1 Hr). by exists s1, None.
Qed.

Lemma GetCodeHash_ok es s a : heap_ok es s -> address_ok a ->
  exists s', SDB.GetCodeHash a s = Some (s',
    match lookup_object s a with Some o => slice_hash o.(account).(AccCodeHash) | None => 0 end) /\
    quiet es s s'.
Proof. apply reading_field. Qed.

Lemma code_is_bytes s a : wf (history s) s -> is_bytes (Machine.GetCode s a) /\
  (Machine.GetCode s a = [] \/ Machine.GetCodeHash s a = NewHash (Machine.GetCode s a)).
Proof.
  intros Hw. pose proof (wf_heap _ _ Hw) as Hh. pose proof (array_address_ok a) as Ha.
  destruct (GetCode_ok _ s _ Hh Ha) as (s1 & c & Hc & _ & Hv).
  destruct (GetCodeHash_ok _ s _ Hh Ha) as (s2 & Hd & _).
  simpl. rewrite (value_eq _ _ _ _ _ Hc), (value_eq _ _ _ _ _ Hd), Hv.
  destruct (lookup_object s _) as [o|] eqn:Eo; [|split; [apply is_bytes_nil|by left]].
  pose proof (lookup_object_ok _ _ _ _ Hh Ha Eo) as Hok.
  destruct (code_value_bytes s.(db) (array_address a) o.(code) _ (ok_code _ _ Hok) (ok_hash _ _ Hok))
    as [Hb Hn]. split; [done|]. destruct Hn as [?|Hn]; [by left|by right].
Qed.

Lemma code_size_ok s a : (forall d ah h, 0 <= (ContractCodeSize d ah h).1) ->
  0 <= value_of 0 (SDB.GetCodeSize a) s.
Proof.
  intros Hcs. unfold value_of, SDB.GetCodeSize, SDB.reading, mbind, ST_bind.
  destruct (SDB.getStateObject a s) as [[s1 [l|]]|]; [|done|done].
  destruct (deref l s1) as [[s2 o]|]; [|done]. destruct (code o); [simpl; lia|].
  unfold lift. destruct (Obj.getAddress o) as [b|]; [|done]. simpl.
  pose proof (Hcs (db s2) (NewHash (be_bytes AddressLength b)) (slice_hash o.(account).(AccCodeHash))) as Hn.
  destruct (ContractCodeSize _ _ _) as [n [e|]]; done.
Qed.

(** The step of the interface is the step of the method. *)
Ltac step_of He := match type of He with ?m ?s = Some _ =>
  change (advances s (after m s)); rewrite (after_eq _ _ _ _ He) end.

(** ** Every mutation by the machine advances the state *)
Lemma mutation_advances s s' : mutation s s' -> state_ok s -> advances s s'.
Proof.
  intros Hm [Hw _ _]. pose proof array_address_ok as Haddr.
  destruct Hm as [a|a v Hv|a v Hv|a n|a c Hc|g|a k v|a|l|h d].
  - destruct (CreateAccount_ok s _ Hw (Haddr a)) as (s' & He & ? & _). by step_of He.
  - rewrite balance_seen in Hv by done.
    destruct (SubBalance_ok s _ v Hw (Haddr a) Hv) as (s' & He & ? & _). by step_of He.
  - destruct (AddBalance_ok s _ v Hw (Haddr a) Hv) as (s' & He & ? & _). by step_of He.
  - destruct (SetNonce_ok s _ n Hw (Haddr a)) as (s' & He & ? & _). by step_of He.
  - destruct (SetCode_ok s _ c Hw (Haddr a) Hc) as (s' & He & ? & _). by step_of He.
  - destruct (AddRefund_ok s g Hw) as (s' & He & ?). by step_of He.
  - destruct (SetState_ok s _ k v Hw (Haddr a)) as (s' & He & ? & _). by step_of He.
  - destruct (Suicide_ok s _ Hw (Haddr a)) as (s' & b & He & ? & _). by step_of He.
  - destruct (AddLog_ok s l Hw) as (s' & He & ?). by step_of He.
  - destruct (AddPreimage_ok s h d Hw) as (s' & He & ?). by step_of He.
Qed.

Lemma grows_balance s s' a b : wf (history s) s -> wf (history s') s' -> only (array_address a) s s' ->
  seen_balance s (array_address a) <= seen_balance s' (array_address a) ->
  Machine.GetBalance s b <= Machine.GetBalance s' b.
Proof.
  intros Hw Hw' Ho Hle. rewrite !balance_seen by done.
  destruct (decide (array_address b = array_address a)) as [->|Hne]; [done|].
  by rewrite (only_balance _ _ _ _ Ho Hne).
Qed.
End Operations.

(** ** Disk *)

(** [opens n r]: a trie with that root opens, and holds only good accounts. *)
Definition opens {DBI : Database} {CD : Codec} (n : nodes) (r : HashBytes) : Prop :=
  exists t, OpenTrie n r = (t, None) /\
    forall a x, address_ok a -> load n t a = Some x -> account_ok a x.

(** The key of a node or of a preimage: a hash, or "secure-key-" and a hash. *)
Definition node_key (k : list Z) : Prop := length k = 32%nat \/ length k = 43%nat.

(** What opened before still opens, with the same content. *)
Definition still_opens {DBI : Database} (n n' : nodes) : Prop :=
  forall r t, OpenTrie n r = (t, None) ->
    exists t', OpenTrie n' r = (t', None) /\ no_new n t n' t'.

(** A disk that takes every write.  Badger's wrapper need not: its batches drop the error of a write. *)
Definition takes_writes {DBI : Database} {DK : Disk} : Prop :=
  forall d k v, (Put d k v).2 = None /\ Get (Put d k v).1 k = Some v.

(** What holds of a disk and of the trie database that writes to it, as TrieProperties.v shows it of the tries
    of TrieDatabase.v: a write that is no node leaves the tries alone, writing the nodes leaves other
    entries and older tries alone, and a trie that was committed to the nodes and from there, without an error, to
    a disk that takes every write opens again. *)
Class DiskLaws {DBI : Database} {DK : Disk} := {
  disk_put : forall d k v j, let d' := (Put d k v).1 in
    Get d' j = Get d j \/ (j = k /\ Get d' j = Some v);
  disk_put_tries : forall d k v, ~ node_key k ->
    still_opens (NewDatabase d) (NewDatabase (Put d k v).1);
  disk_commit_other : forall n r d j, ~ node_key j -> Get (TrieDBCommit n r d).1 j = Get d j;
  disk_commit_tries : forall n r d, still_opens (NewDatabase d) (NewDatabase (TrieDBCommit n r d).1);
  disk_commit : forall n t f n' t' r d d', takes_writes ->
    TrieCommit n t f = (n', t', (r, None)) -> TrieDBCommit n' r d = (d', None) ->
    0 <= r < 2 ^ 256 /\
    exists t'', OpenTrie (NewDatabase d') r = (t'', None) /\ no_new n t (NewDatabase d') t''
}.

Lemma still_opens_opens {DBI : Database} {CD : Codec} n n' r :
  still_opens n n' -> opens n r -> opens n' r.
Proof.
  intros Hs (t & Ho & Hok). destruct (Hs r t Ho) as (t' & Ho' & Hn). exists t'. split; [done|].
  intros a x Ha Hx. apply Hok; [done|]. by eapply load_no_new.
Qed.

(** ** The helper *)
Section Helper.
Context {DBI : Database} {CD : Codec} {AC : Accounts} {CR : Crypto} {GR : GoRange}
  {BL : BackendLaws} {TL : TrieLaws} {CL : CodecLaws} {DK : Disk} {DL : DiskLaws}.

(** The root [initOrLoadState] opens. *)
Definition stored_root (d : disk) (a : AddressBytes) : HashBytes :=
  match Get d (Helper.state_key a) with None => 0 | Some data => BytesToHash data end.

Definition disk_opens (d : disk) : Prop := forall a, opens (NewDatabase d) (stored_root d a).

Lemma state_key_length a : length (Helper.state_key a) = 53%nat.
Proof.
  unfold Helper.state_key. rewrite length_app, hex_Encode_length, be_bytes_length. reflexivity.
Qed.

Lemma state_key_no_node a : ~ node_key (Helper.state_key a).
Proof. unfold node_key. rewrite state_key_length. lia. Qed.

Lemma head_key_no_node : ~ node_key Helper.headTxKey.
Proof. unfold node_key. simpl. lia. Qed.

Lemma still_opens_refl n : still_opens n n.
Proof. intros r t Ht. exists t. split; [done|]. intros k. by left. Qed.

(** Opening the stored state never fails, and gives a state with an empty journal. *)
Lemma NewVMStateHelper_ok d a : disk_opens d ->
  exists h, Helper.NewVMStateHelper d a = inl h /\ state_ok h.(Helper.EthStateDB) /\
    h.(Helper.HashOfTrieRootNode) = stored_root d a.
Proof.
  intros Hd. destruct (Hd a) as (t & Ho & Hok). fold (stored_root d a) in *.
  unfold Helper.NewVMStateHelper, Helper.initOrLoadState. fold (stored_root d a).
  unfold SDB.New. rewrite Ho. eexists. split; [reflexivity|]. split; [|done].
  split; simpl; [|constructor|constructor]. split; simpl; [|constructor|done|].
  - split; simpl; [done|done|constructor|]. intros l Hl. by apply elem_of_nil in Hl.
  - unfold is_u64. lia.
Qed.

(** Writing an entry that is no node: the roots of other contracts stay, and open. *)
Lemma put_opens d k v : ~ node_key k -> disk_opens d ->
  (forall a, k = Helper.state_key a -> opens (NewDatabase d) (BytesToHash v)) ->
  disk_opens (Put d k v).1.
Proof.
  intros Hk Hd Hv a. apply (still_opens_opens (NewDatabase d)); [by apply disk_put_tries|].
  unfold stored_root. destruct (disk_put d k v (Helper.state_key a)) as [->|[<- ->]]; [apply Hd|].
  by eapply Hv.
Qed.

Lemma commit_opens d a s : takes_writes -> disk_opens d -> state_ok s ->
  exists d' s', Helper.Commit d {| Helper.EthStateDB := s; Helper.SmartContractAddress := a;
    Helper.HashOfTrieRootNode := 0 |} = Some (d', s') /\ disk_opens d' /\ s'.(changes) = newJournal.
Proof.
  intros Hput Hd Hs. unfold Helper.Commit. cbn [Helper.EthStateDB Helper.SmartContractAddress].
  destruct (Commit_ok false s Hs) as (s' & root & err & -> & Hj & _ & _ & Hc). cbn [mbind option_bind].
  destruct err as [err|]; [by exists d, s'|]. destruct (Hc eq_refl) as (n & t & f & t' & Htc & Hok).
  pose proof (disk_commit_tries (db s') root d) as Htr.
  pose proof (fun j => disk_commit_other (db s') root d j) as Hget.
  assert (Hd1 : disk_opens (TrieDBCommit (db s') root d).1).
  { intros b. apply (still_opens_opens (NewDatabase d)); [done|]. unfold stored_root.
    rewrite Hget by apply state_key_no_node. apply Hd. }
  destruct (TrieDBCommit _ root d) as [d1 [e|]] eqn:Ed; cbn [fst] in *; [by exists d1, s'|].
  destruct (disk_commit n t f (db s') t' root d d1 Hput Htc Ed) as (Hroot & t2 & Ht2 & Hn2).
  assert (Hd2 : disk_opens (Put d1 (Helper.state_key a) (be_bytes HashLength root)).1).
  { apply put_opens; [apply state_key_no_node|done|]. intros _ _.
    rewrite BytesToHash_be_bytes by done. exists t2. split; [done|].
    intros b x Hb Hx. apply Hok; [done|]. by eapply load_no_new. }
  destruct (Put d1 (Helper.state_key a) _) as [d2 e2]. cbn [fst] in *.
  pose proof (put_opens d2 Helper.headTxKey (be_bytes HashLength (GetHashBytes [])) head_key_no_node Hd2) as Hd3.
  pose proof (Hput d2 Helper.headTxKey (be_bytes HashLength (GetHashBytes []))) as [He3 _].
  unfold Helper.writeHead. destruct (Put d2 Helper.headTxKey _) as [d3 e3]. cbn [fst snd] in *. subst e3.
  exists d3, s'. split; [done|]. split; [|done]. apply Hd3. intros b Hb.
  pose proof (state_key_length b) as Hlen. rewrite <- Hb in Hlen. done.
Qed.

(** ** The laws *)
Definition journaled_StateLaws : (forall d, is_bytes (Keccak256 d)) -> takes_writes -> StateLaws state disk.
Proof.
  intros Hk Hput.
  refine {| db_ok := state_ok; disk_ok := disk_opens; live := is_live; content := View;
            view := state_view; saved := saved_view |}; try done.
  - intros s a [Hw _ _]. rewrite balance_seen by done. apply seen_balance_nonneg; [done|].
    apply array_address_ok.
  - intros s a [Hw _ _]. by apply code_is_bytes.
  - intros s a [Hw _ _]. by apply code_is_bytes.
  - intros s s' Hm Hs. apply advances_ok; [done|]. by apply mutation_advances.
  - intros s a b Hs. pose proof (mutation_advances _ _ (mut_CreateAccount s a) Hs) as Hadv.
    apply (grows_balance _ _ a); [apply Hs|apply Hadv|..];
      destruct (CreateAccount_ok s _ (s_wf _ Hs) (array_address_ok a)) as (s' & He & _ & ? & ?);
      cbn [Machine.CreateAccount journaled_StateDB]; by rewrite (after_eq _ _ _ _ He).
  - intros s a n b Hs. pose proof (mutation_advances _ _ (mut_SetNonce s a n) Hs) as Hadv.
    apply (grows_balance _ _ a); [apply Hs|apply Hadv|..];
      destruct (SetNonce_ok s _ n (s_wf _ Hs) (array_address_ok a)) as (s' & He & _ & [? _] & ?);
      cbn [Machine.SetNonce journaled_StateDB]; by rewrite (after_eq _ _ _ _ He).
  - intros s Hs. destruct (SDB_Snapshot_ok s Hs) as (s' & i & He & Hs' & Hl & Hsv & Hv & Hall).
    cbn [Machine.Snapshot journaled_StateDB]. rewrite (after_eq _ _ _ _ He), (value_eq _ _ _ _ _ He).
    split; [done|]. split; [done|]. split; [by rewrite Hsv|]. split; [by rewrite Hv|]. split.
    + intros j Hj. destruct (Hall j Hj) as (? & ? & ->). done.
    + intros a. rewrite !balance_seen by (apply Hs || apply Hs'). unfold seen_balance. by rewrite Hv.
  - intros s i Hs Hl. destruct (RevertToSnapshot_ok s i Hs Hl) as (s' & He & ? & ? & _ & ?). exists s'.
    split; [|done]. cbn [Machine.RevertToSnapshot journaled_StateDB]. by rewrite He.
  - intros d a Hd. destruct (NewVMStateHelper_ok d (array_address a) Hd) as (h & He & Hs & _).
    exists h.(Helper.EthStateDB). split; [|done]. cbn [NewEthStateLoader Helper.journaled_Helper].
    by rewrite He.
  - intros d a s Hd Hs. destruct (commit_opens d (array_address a) s Hput Hd Hs) as (d' & s' & He & Hd' & _).
    cbn [CommitState Helper.journaled_Helper]. by rewrite He.
  - intros d a b c. cbn [HelperGetCodeSize Helper.journaled_Helper]. unfold Helper.GetCodeSize.
    destruct (Helper.NewVMStateHelper d _); [|done]. by apply code_size_ok, code_size.
Defined.
End Helper.
