(* ===== verification/StateProperties.v ===== *)
(** * What the journaled state guarantees

    The theorems about dvm/ethereum/state as the machine uses it: reverting
    restores the state a snapshot saved, a write changes what it names and nothing
    else, a reader changes nothing, foreseen message calls on the journaled state end
    safely, a state stored on a disk that takes every write loads again, and loading forgets every
    nonce. *)
From Stdlib Require Import ZArith Lia.
From stdpp Require Import countable.
From S2P Require Import Prelude Word Hex Config OpCodes Analysis Machine Gas Calls Instructions.
From S2P Require Import JumpTable Precompiles Interpreter StateSpec Invariant Safety CallSafety.
From S2P Require Import PrecompileSafety GasSafety Evm StateData Journal StateView Rollback StateSteps.
From S2P Require Import StateRevert StateInstance StateCommit StateLawful Sample.
Import Big.
Open Scope Z_scope.

(** ** A concrete backend of the journaled state

    Tries as finite maps, numbered as they are committed, accounts coded as one
    number, a ledger that knows one account: enough to run the journaled state on
    examples and to show that what its theorems assume can be met. *)

#[local] Arguments be_bytes : simpl never.

(** ** Tries and nodes *)
Abbreviation map_trie := (gmap (list Z) (list Z)).

Record Nodes := { tries : gmap Z map_trie; codes : gmap Z (list Z) }.

Definition open_map (n : Nodes) (r : Z) : map_trie * option unit :=
  if r =? 0 then (∅, None)
  else match n.(tries) !! r with Some t => (t, None) | None => (∅, Some tt) end.

Definition byte_string (c : list Z) : bool :=
  forallb (fun b => (0 <=? b) && (b <? 256)) c && (Z.of_nat (length c) <? 2 ^ 62).

Lemma byte_string_ok c : byte_string c = true -> is_bytes c.
Proof.
  intros [Hb Hl]%andb_true_iff. apply Z.ltb_lt in Hl. split; [|done]. apply Forall_forall. intros b Hin.
  rewrite forallb_forall in Hb. apply list_elem_of_In in Hin. specialize (Hb b Hin). lia.
Qed.

(** Code is checked when it is read. *)
Definition read_code (n : Nodes) (h : Z) : option (list Z) :=
  c ← n.(codes) !! h; if byte_string c && (NewHash c =? h) then Some c else None.

(** The next free number is the root of a trie. *)
Definition commit_map (n : Nodes) (t : map_trie) : Nodes * map_trie * (Z * option unit) :=
  let r := 1 + map_fold (fun k _ m => Z.max k m) 0 n.(tries) in
  match n.(tries) !! r with
  | None => if (0 <? r) && (r <? 2 ^ 256) then ({| tries := <[r := t]> n.(tries); codes := n.(codes) |}, t, (r, None))
            else (n, t, (0, Some tt))
  | Some _ => (n, t, (0, Some tt))
  end.

#[export] Instance map_Database : Database := {
  nodes := Nodes;
  Trie := map_trie;
  error := unit;
  OpenTrie := open_map;
  OpenStorageTrie n _ r := open_map n r;
  CopyTrie t := t;
  ContractCode n _ h := (read_code n h, None);
  ContractCodeSize n _ h := (Z.of_nat (length (default [] (read_code n h))), None);
  TryGet _ t k := (default [] (t !! k), None);
  TryUpdate _ t k v := (<[k := v]> t, None);
  TryDelete _ t k := (delete k t, None);
  TrieHash t := Z.of_nat (size t);
  TrieCommit n t _ := commit_map n t;
  InsertBlob n h c := {| tries := n.(tries); codes := <[h := c]> n.(codes) |};
  Reference n _ _ := n
}.

#[export] Instance map_TrieLaws : TrieLaws.
Proof.
  split.
  - intros d t k v j. unfold entry. simpl. destruct (decide (j = k)) as [->|Hne].
    + left. by rewrite lookup_insert_eq.
    + right. left. by rewrite lookup_insert_ne by done.
  - intros d t k j. unfold entry. simpl. destruct (decide (j = k)) as [->|Hne].
    + right. by rewrite lookup_delete_eq.
    + left. by rewrite lookup_delete_ne by done.
  - intros d t h c j. by left.
  - intros d t u j. by left.
  - intros d ah h. simpl. lia.
Qed.

(** ** Coding *)
Abbreviation account_tuple :=
  (list Z * list Z * list Z * option Z * list Z * (Z * Z * option Z))%type (only parsing).

Definition to_tuple (x : StateData.Account) : account_tuple :=
  (x.(AccAddress), x.(PrivateKey), x.(Name), x.(Balance), x.(TransactionHash),
   (x.(Nonce), x.(Root), x.(AccCodeHash))).

Definition of_tuple (t : account_tuple) : StateData.Account :=
  let '(a, p, n, b, h, (k, r, c)) := t in
  {| AccAddress := a; PrivateKey := p; Name := n; Balance := b; TransactionHash := h;
     Updated := 0; Created := 0; Nonce := k; Root := r; AccCodeHash := c |}.

#[export] Instance map_Codec : Codec := {
  EncodeAccount x := Some [Z.pos (encode (to_tuple x))];
  DecodeAccount l :=
    match l with [Z.pos p] => of_tuple <$> decode p | _ => None end;
  EncodeBytes b := b;
  Split b := Some b
}.

#[export] Instance map_CodecLaws : CodecLaws.
Proof.
  split. intros x b _ _. eexists _, (of_tuple (to_tuple x)). split; [reflexivity|].
  split; [|done]. cbn [DecodeAccount map_Codec]. by rewrite decode_encode.
Qed.

(** ** The ledger: account 7 has a balance of 1000. *)
Definition ledger_account : StateData.Account :=
  {| AccAddress := hex_Encode (be_bytes AddressLength 7); PrivateKey := []; Name := [];
     Balance := Some 1000; TransactionHash := []; Updated := 0; Created := 0; Nonce := 0;
     Root := 0; AccCodeHash := None |}.

#[export] Instance map_Accounts : Accounts := {
  ToAccountByAddress s := if bool_decide (s = AccAddress ledger_account) then Some ledger_account else None;
  CreatedAt n := Z.of_nat n
}.

Lemma hex_Encode_inj a b : address_ok a -> address_ok b ->
  hex_Encode (be_bytes AddressLength a) = hex_Encode (be_bytes AddressLength b) -> a = b.
Proof.
  intros Ha Hb He. apply (f_equal GetAddressBytes) in He. unfold AddressLength in He.
  rewrite !GetAddressBytes_hex in He. unfold address_ok in *.
  assert (a mod 2 ^ 160 = b mod 2 ^ 160) as Hm by congruence.
  rewrite !Z.mod_small in Hm; [done|exact Hb|exact Ha].
Qed.

#[export] Instance map_BackendLaws : BackendLaws.
Proof.
  split.
  - intros d ah h c. unfold ContractCode, map_Database, read_code. cbn [fst].
    destruct (codes d !! h) as [c'|]; [|done]. cbn [mbind option_bind].
    destruct (_ && _) eqn:E; [|done]. intros [= <-].
    apply andb_true_iff in E as [Hb Hh]. split; [by apply byte_string_ok|right].
    exact (proj1 (Z.eqb_eq _ _) Hh).
  - intros a x Ha. unfold ToAccountByAddress, map_Accounts.
    case_bool_decide as He; [|done]. intros [= <-].
    apply hex_Encode_inj in He; [|done|done]. subst a. split; [by vm_compute|]. by intros b [= <-].
Qed.

(** ** The disk *)
Record MapDisk := { dentries : gmap (list Z) (list Z); dnodes : Nodes }.

(** Writing the nodes below a root fails when another trie has its number. *)
Definition write_trie (n : Nodes) (r : Z) (d : MapDisk) : MapDisk * option unit :=
  match n.(tries) !! r with
  | None => (d, Some tt)
  | Some t =>
      if bool_decide (d.(dnodes).(tries) !! r = None) || bool_decide (d.(dnodes).(tries) !! r = Some t) then
        ({| dentries := d.(dentries);
            dnodes := {| tries := <[r := t]> d.(dnodes).(tries); codes := n.(codes) |} |}, None)
      else (d, Some tt)
  end.

#[export] Instance map_Disk : StateInstance.Disk := {
  disk := MapDisk;
  Get d k := d.(dentries) !! k;
  Put d k v := ({| dentries := <[k := v]> d.(dentries); dnodes := d.(dnodes) |}, None);
  NewDatabase d := d.(dnodes);
  TrieDBCommit := write_trie
}.

#[export] Instance map_DiskLaws : DiskLaws.
Proof.
  split.
  - intros d k v j. simpl. destruct (decide (j = k)) as [->|Hne].
    + right. by rewrite lookup_insert_eq.
    + left. by rewrite lookup_insert_ne.
  - intros d k v _. apply still_opens_refl.
  - intros n r d j _. simpl. unfold write_trie. destruct (tries n !! r); [|done]. by destruct (_ || _).
  - intros n r d. simpl. unfold write_trie. destruct (tries n !! r) as [t|]; [|apply still_opens_refl].
    destruct (_ || _) eqn:E; [|apply still_opens_refl]. intros q u. simpl. unfold open_map. simpl.
    intros Hq. exists u. split; [|intros k; by left]. destruct (q =? 0); [done|].
    destruct (decide (q = r)) as [->|Hne]; [|by rewrite lookup_insert_ne].
    rewrite lookup_insert_eq. apply orb_true_iff in E as [E|E]; apply bool_decide_eq_true in E;
      rewrite E in Hq; [done|]. by injection Hq as <-.
  - intros n t f n' t' r d d' _. cbn [TrieCommit map_Database]. unfold commit_map.
    generalize (1 + map_fold (fun k _ m => Z.max k m) 0 (tries n)). intros free.
    destruct (tries n !! free) eqn:En; [done|]. destruct (_ && _) eqn:Er; [|done].
    intros [= <- <- <-]. cbn [TrieDBCommit map_Disk]. unfold write_trie. cbn [tries].
    rewrite lookup_insert_eq. destruct (_ || _); [|done]. intros [= <-]. simpl.
    split; [lia|]. exists t. unfold open_map. cbn [tries dnodes].
    rewrite (proj2 (Z.eqb_neq free 0)), lookup_insert_eq by lia. split; [done|]. intros k. by left.
Qed.

Lemma sample_takes_writes : takes_writes (DK := map_Disk).
Proof. intros d k v. split; [done|]. apply lookup_insert_eq. Qed.

(** ** Running it *)
Definition empty_nodes : Nodes := {| tries := ∅; codes := ∅ |}.
Definition empty_disk : MapDisk := {| dentries := ∅; dnodes := empty_nodes |}.

Lemma empty_disk_opens : disk_opens (DK := map_Disk) empty_disk.
Proof.
  intros a. exists (∅ : map_trie). unfold stored_root. unfold Get, map_Disk. simpl dentries.
  rewrite lookup_empty. split; [done|]. intros b x _. unfold load, TryGet, map_Database.
  by rewrite lookup_empty.
Qed.

(** The state of a contract that has none yet. *)
Definition fresh_state : state :=
  {| db := empty_nodes; accountTrie := (∅ : map_trie); objects := []; StateObjects := ∅;
     stateObjectsDirty := ∅; dbErr := None; refund := 0; thash := 0; bhash := 0; txIndex := 0;
     logs := ∅; logSize := 0; preimages := ∅; changes := newJournal; validRevisions := [];
     nextRevisionId := 0 |}.

Lemma fresh_state_ok : state_ok fresh_state.
Proof.
  destruct (NewVMStateHelper_ok (DK := map_Disk) empty_disk 0 empty_disk_opens) as (h & He & Hs & _).
  unfold Helper.NewVMStateHelper, Helper.initOrLoadState in He. cbn in He. injection He as <-. exact Hs.
Qed.

(** The ledger's account and a contract. *)
Definition sample_state : state :=
  Machine.SetCode (Machine.CreateAccount fresh_state 7) 99 [1; 2].

Lemma mutation_state_ok s s' : mutation s s' -> state_ok s -> state_ok s'.
Proof. intros Hm Hs. apply (advances_ok s s' Hs). by apply mutation_advances. Qed.

Lemma sample_state_ok : state_ok sample_state.
Proof.
  eapply mutation_state_ok; [apply mut_SetCode|].
  - split; [repeat constructor; lia|simpl; lia].
  - eapply mutation_state_ok; [apply mut_CreateAccount|apply fresh_state_ok].
Qed.

(** Creating an account that is not there takes the ledger's balance. *)
Example created_balance : Machine.GetBalance fresh_state 7 = 0 /\ Machine.GetBalance sample_state 7 = 1000.
Proof. split; vm_compute; reflexivity. Qed.

Definition sample_machine : EVM state (@disk map_Database map_Disk) :=
  NewEVM sample_state (Some empty_disk).

Lemma sample_machine_ok :
  evm_ok (laws := journaled_StateLaws (DK := map_Disk) sample_Keccak256 sample_takes_writes) sample_machine.
Proof.
  split; [exact sample_state_ok| |apply is_bytes_nil|done|done].
  exists empty_disk. split; [done|exact empty_disk_opens].
Qed.

#[local] Arguments be_bytes : simpl never.

Section State.
Context {DBI : Database} {CD : Codec} {AC : Accounts} {CR : Crypto} {GR : GoRange}
  {BL : BackendLaws}.

(** ** Snapshots *)

(** What may happen to a state after the snapshot [i]: any mutation by the
    machine, further snapshots, reverting to one of those. *)
Inductive use (i : Z) (s : state) : state -> Prop :=
  | use_mutation s' : mutation s s' -> use i s s'
  | use_snapshot : use i s (Machine.Snapshot s).1
  | use_revert j s' : i < j -> Machine.RevertToSnapshot s j = Some s' -> use i s s'.

(** What using a state keeps of the snapshot [i]. *)
Record holds (i : Z) (v : View) (s : state) : Prop := {
  hold_ok : state_ok s;
  hold_live : is_live s i;
  hold_saved : saved_view s i ≡ v
}.

Lemma use_holds i v s s' : use i s s' -> holds i v s -> holds i v s'.
Proof.
  intros Hu [Hs Hl Hv]. destruct Hu as [s' Hm| |j s' Hij Hr].
  - destruct (advances_ok s s' Hs (mutation_advances _ _ Hm Hs)) as [Hs' Hall].
    destruct (Hall i Hl) as [? Hsv]. split; [done|done|by rewrite Hsv].
  - destruct (SDB_Snapshot_ok s Hs) as (s' & j & He & Hs' & _ & _ & _ & Hall).
    cbn [Machine.Snapshot journaled_StateDB fst]. rewrite (after_eq _ _ _ _ He).
    destruct (Hall i Hl) as (_ & ? & Hsv). split; [done|done|by rewrite Hsv].
  - cbn [Machine.RevertToSnapshot journaled_StateDB] in Hr.
    destruct (SDB.RevertToSnapshot j s) as [[s1 []]|] eqn:Ej; [|done]. injection Hr as <-.
    assert (Hj : is_live s j).
    { unfold is_live. destruct (decide (Exists (fun r => r.(id) = j) s.(validRevisions))) as [Hex|Hno].
      - by apply Exists_exists in Hex as (r & ? & ?); exists r.
      - rewrite RevertToSnapshot_dead in Ej; [done|apply Hs|]. intros (r & Hr & Hrj). apply Hno, Exists_exists.
        by exists r. }
    destruct (RevertToSnapshot_ok s j Hs Hj) as (s2 & He & Hs2 & _ & _ & Hall).
    rewrite He in Ej. injection Ej as <-. destruct (Hall i Hl Hij) as [? Hsv].
    split; [done|done|by rewrite Hsv].
Qed.

(** C5: Whatever is done to a state after a snapshot - mutations, snapshots,
    reverting those - reverting to it never panics and gives back every account,
    the refund counter, the logs and the preimages as they were; reverting to it
    once more panics. *)
Theorem snapshots_restore_the_state s s2 :
  state_ok s -> let '(s1, i) := Machine.Snapshot s in rtc (use i) s1 s2 ->
  exists s3, Machine.RevertToSnapshot s2 i = Some s3 /\ state_ok s3 /\
    state_view s3 ≡ state_view s /\ Machine.RevertToSnapshot s3 i = None.
Proof.
  intros Hs. destruct (SDB_Snapshot_ok s Hs) as (s1 & i & He & Hs1 & Hl & Hsv & _ & _).
  cbn [Machine.Snapshot journaled_StateDB]. rewrite (after_eq _ _ _ _ He), (value_eq _ _ _ _ _ He).
  intros Huse. assert (Hh : holds i (state_view s) s2).
  { assert (Hh1 : holds i (state_view s) s1) by (split; [done|done|by rewrite Hsv]). revert Hh1.
    clear -Huse BL. induction Huse as [|x y z Hxy Hyz IH]; [done|]. intros Hx. apply IH.
    by eapply use_holds. }
  destruct Hh as [Hs2 Hl2 Hsv2].
  destruct (RevertToSnapshot_ok s2 i Hs2 Hl2) as (s3 & Hr & Hs3 & Hv & Hdead & _).
  exists s3. cbn [Machine.RevertToSnapshot journaled_StateDB]. rewrite Hr. split; [done|].
  split; [done|]. split; [by rewrite Hv|]. by rewrite (RevertToSnapshot_dead s3 i (s_sorted _ Hs3) Hdead).
Qed.

(** ** Writing *)
Lemma altered {m : ST unit} {s a g} : state_ok s -> Proper ((≡) ==> (≡)) g ->
  (exists s', m s = Some (s', tt) /\ advances s s' /\ alters a g s s') ->
  is_Some (v_accounts (state_view s) a) ->
  state_ok (after m s) /\ state_view (after m s) ≡ valter (state_view s) a g.
Proof.
  intros Hs Hg (s' & He & Hadv & Hal) Hsome. rewrite (after_eq _ _ _ _ He).
  split; [apply (advances_ok _ _ Hs Hadv)|by apply alters_view].
Qed.

(** On an account that exists, each setter changes the field it names to the
    value given and nothing else: no other field or account, no refund, log or
    preimage. *)
Theorem setters_change_one_field s a0 : let a := array_address a0 in
  state_ok s -> is_Some (v_accounts (state_view s) a) ->
  (forall n, state_view (Machine.SetNonce s a0 n) ≡
     valter (state_view s) a (fun x => v_with_nonce x n)) /\
  (forall v, 0 <= v -> state_view (Machine.AddBalance s a0 v) ≡
     valter (state_view s) a (fun x => v_with_balance x (x.(v_balance) + v))) /\
  (forall v, 0 <= v <= Machine.GetBalance s a0 -> state_view (Machine.SubBalance s a0 v) ≡
     valter (state_view s) a (fun x => v_with_balance x (x.(v_balance) - v))) /\
  (forall k v, state_view (Machine.SetState s a0 k v) ≡
     valter (state_view s) a (fun x => v_with_storage x k v)) /\
  (forall c, is_bytes c -> state_view (Machine.SetCode s a0 c) ≡
     valter (state_view s) a (fun x => v_with_code x c (NewHash c))) /\
  state_view (Machine.SuicideAccount s a0).1 ≡
     valter (state_view s) a (fun x => v_with_suicided (v_with_balance x 0) true) /\
  (Machine.SuicideAccount s a0).2 = true.
Proof.
  intros a Hs Hx. pose proof (s_wf _ Hs) as Hw. pose proof (array_address_ok a0) as Ha. fold a in Ha.
  split_and!.
  - intros n. apply (altered (m := SDB.SetNonce a n) Hs); [solve_proper| |done].
    destruct (SetNonce_ok s a n Hw Ha) as (s' & ? & ? & ? & _). by exists s'.
  - intros v Hv. apply (altered (m := SDB.AddBalance a v) Hs); [apply v_add_proper, eq_refl| |done].
    destruct (AddBalance_ok s a v Hw Ha Hv) as (s' & ? & ? & ? & _). by exists s'.
  - intros v Hv. rewrite balance_seen in Hv by done.
    apply (altered (m := SDB.SubBalance a v) Hs); [apply v_add_proper, eq_refl| |done].
    destruct (SubBalance_ok s a v Hw Ha Hv) as (s' & ? & ? & ? & _). by exists s'.
  - intros k v. apply (altered (m := SDB.SetState a k v) Hs); [solve_proper| |done].
    destruct (SetState_ok s a k v Hw Ha) as (s' & ? & ? & ? & _). by exists s'.
  - intros c Hc. apply (altered (m := SDB.SetCode a c) Hs); [solve_proper| |done].
    destruct (SetCode_ok s a c Hw Ha Hc) as (s' & ? & ? & ? & _). by exists s'.
  - destruct (Suicide_ok s a Hw Ha) as (s' & b & He & Hadv & Hal & _).
    change ((Machine.SuicideAccount s a0).1) with (after (SDB.Suicide a) s).
    rewrite (after_eq _ _ _ _ He). apply alters_view; [solve_proper|done|done].
  - destruct (Suicide_ok s a Hw Ha) as (s' & b & He & _ & _ & Hb & _).
    change ((Machine.SuicideAccount s a0).2) with (value_of false (SDB.Suicide a) s).
    rewrite (value_eq _ _ _ _ _ He), Hb. by apply bool_decide_eq_true.
Qed.

(** ** Reading *)

(** A reader's value, and a state no reader can tell from the old one. *)
Definition reads {A} (m : ST A) (s : state) (x : A) : Prop :=
  exists s', m s = Some (s', x) /\ state_ok s' /\ state_view s' ≡ state_view s /\
    s'.(changes) = s.(changes).

Lemma quiet_reads {A} {m : ST A} {s x} : state_ok s ->
  (exists s', m s = Some (s', x) /\ quiet (history s) s s') -> reads m s x.
Proof.
  intros Hs (s' & He & Hq). exists s'. split; [done|]. split; [|split; apply Hq].
  apply (advances_ok _ _ Hs). apply quiet_advances; [apply Hs|done].
Qed.

Definition field {A} (d : A) (f : AccountView -> A) (s : state) (a : Z) : A :=
  match v_accounts (state_view s) a with Some x => f x | None => d end.

Lemma field_reads {A} s a (d : A) val f : state_ok s -> address_ok a ->
  (forall o, obj_ok a o -> val o = f (object_view s.(db) a o)) ->
  reads (SDB.reading a d (fun l => o ← deref l; mret (val o))) s (field d f s a).
Proof.
  intros Hs Ha Hf. apply (quiet_reads Hs). pose proof (wf_heap _ _ (s_wf _ Hs)) as Hh.
  destruct (reading_field _ s a d val Hh Ha) as (s' & Hr & Hq). exists s'. split; [|done]. rewrite Hr.
  unfold field. simpl. destruct (lookup_object s a) as [o|] eqn:Eo; [|done]. simpl.
  by rewrite (Hf o (lookup_object_ok _ _ _ _ Hh Ha Eo)).
Qed.

Definition empty_account (x : AccountView) : bool :=
  (x.(v_nonce) =? 0) && (x.(v_balance) =? 0) && bool_decide (x.(v_codehash) = emptyCodeHash).

Lemma Obj_empty_view d a o : obj_ok a o -> Obj.empty o = Some (empty_account (object_view d a o)).
Proof.
  intros [_ (b & Hb & _) [h Hh] _]. unfold Obj.empty, empty_account, bytes_Equal. simpl.
  rewrite Hb, Hh. simpl. destruct (Nonce (StateData.account o) =? 0); simpl; [|done].
  do 2 f_equal. apply bool_decide_ext. split; [by intros [= ->]|by intros ->].
Qed.

(** No reader panics or changes anything another reader can see, and each
    returns what the accounts hold: an account that is not there has no balance,
    no code and nonce zero, and is empty. *)
Theorem readers_change_nothing s a : state_ok s -> address_ok a ->
  reads (SDB.Exist a) s (bool_decide (is_Some (v_accounts (state_view s) a))) /\
  reads (SDB.Empty a) s (field true empty_account s a) /\
  reads (SDB.GetBalance a) s (Some (field 0 v_balance s a)) /\
  reads (SDB.GetNonce a) s (field 0 v_nonce s a) /\
  reads (SDB.GetCodeHash a) s (field 0 v_codehash s a) /\
  reads (SDB.HasSuicided a) s (field false v_suicided s a) /\
  (forall k, reads (SDB.GetState a k) s (field 0 (fun x => x.(v_storage) k) s a)) /\
  exists c, reads (SDB.GetCode a) s c /\ default [] c = field [] v_code s a.
Proof.
  intros Hs Ha. pose proof (wf_heap _ _ (s_wf _ Hs)) as Hh. split_and!.
  - apply (quiet_reads Hs). unfold SDB.Exist.
    destruct (getStateObject_ok _ s a Hh Ha) as (s' & r & Hg & Hq & Hr). exists s'.
    rewrite (bind_eq _ _ _ _ _ Hg). split; [|done]. unfold mret, ST_ret. do 2 f_equal.
    apply bool_decide_ext. simpl. rewrite fmap_is_Some. destruct r as [l|].
    + by destruct Hr as (o & _ & ->).
    + by rewrite (proj1 Hr).
  - apply (quiet_reads Hs).
    destruct (reading_ok (history s) s a true (fun l => o ← deref l; lift (Obj.empty o))
      (fun o => empty_account (object_view s.(db) a o)) Hh Ha) as (s' & Hr & Hq).
    + intros s1 l o Hq Hl. exists s1. rewrite (bind_eq _ _ _ _ _ (deref_eq _ _ _ _ Hl)).
      destruct (live_obj_ok _ _ _ _ _ (q_heap _ _ _ Hq) Hl) as [Hok _].
      rewrite (Obj_empty_view s.(db) a o Hok). split; [done|]. apply quiet_refl, Hq.
    + exists s'. split; [|done]. unfold SDB.Empty. rewrite Hr. unfold field. simpl.
      by destruct (lookup_object s a).
  - apply (quiet_reads Hs). destruct (GetBalance_ok _ s a Hh Ha) as (s' & b & Hg & Hq & ->). by exists s'.
  - by apply field_reads.
  - by apply field_reads.
  - by apply field_reads.
  - intros k. apply (quiet_reads Hs).
    destruct (reading_ok (history s) s a 0 (fun l => Obj.GetState l k)
      (fun o => storage_value s.(db) a o k) Hh Ha) as (s' & Hr & Hq).
    + intros s1 l o Hq Hl. rewrite <- (q_db _ _ _ Hq).
      destruct (obj_GetState_ok _ s1 a l o k (q_heap _ _ _ Hq) Hl) as (s2 & o' & ? & ? & _). by exists s2.
    + exists s'. split; [|done]. unfold SDB.GetState. rewrite Hr. unfold field. simpl.
      by destruct (lookup_object s a).
  - destruct (GetCode_ok _ s a Hh Ha) as (s' & c & Hg & Hq & Hc). exists c.
    split; [apply (quiet_reads Hs); by exists s'|]. rewrite Hc. unfold field. simpl.
    by destruct (lookup_object s a).
Qed.

(** ** Loading *)
Lemma newStateObject_nonce x : (Obj.newStateObject x).(StateData.account).(Nonce) = 0.
Proof. done. Qed.

(** Every account of a state that was just opened has nonce zero, whatever
    nonce the trie holds for it. *)
Theorem opened_states_have_no_nonces d root s a : SDB.New d root = inl s ->
  value_of 0 (SDB.GetNonce a) s = 0.
Proof.
  unfold SDB.New. destruct (OpenTrie d root) as [t [e|]]; [done|]. intros [= <-].
  unfold value_of, SDB.GetNonce, SDB.reading, SDB.getStateObject, mbind, ST_bind, gets.
  cbn [StateObjects db accountTrie]. rewrite lookup_empty.
  destruct (TryGet _ _ _) as [enc err]. destruct (length enc =? 0)%nat; [done|].
  destruct (DecodeAccount enc) as [x|]; [|done].
  unfold alloc, SDB.setStateObject, mbind, ST_bind, deref, lift, modify, mret, ST_ret. simpl.
  by destruct (Obj.getAddress _).
Qed.
End State.

(** ** The node: helper and machine *)
Section Node.
Context {DBI : Database} {CD : Codec} {AC : Accounts} {CR : Crypto} {GR : GoRange}
  {BL : BackendLaws} {TL : TrieLaws} {CL : CodecLaws} {DK : Disk} {DL : DiskLaws}.

(** C36: On a disk that takes every write and whose stored states all open, the commit of any
    well-formed state by the helper the machine makes for a contract - a helper without transactions or
    receipts - ends without a panic and clears the journal, and afterwards
    the state of every contract still opens and is well formed, whether or not the
    commit reported an error. *)
Theorem stored_states_always_load d s a : takes_writes -> disk_opens d -> state_ok s ->
  exists d' s',
    Helper.Commit d {| Helper.EthStateDB := s; Helper.SmartContractAddress := a;
                       Helper.HashOfTrieRootNode := 0 |} = Some (d', s') /\
    s'.(changes) = newJournal /\ disk_opens d' /\
    forall b, exists h, Helper.NewVMStateHelper d' b = inl h /\ state_ok h.(Helper.EthStateDB).
Proof.
  intros Hput Hd Hs. destruct (commit_opens d a s Hput Hd Hs) as (d' & s' & He & Hd' & Hj).
  exists d', s'. split; [done|]. split; [done|]. split; [done|]. intros b.
  destruct (NewVMStateHelper_ok d' b Hd') as (h & ? & ? & _). by exists h.
Qed.

Context (Hk : forall d, is_bytes (Keccak256 d)) (Hput : takes_writes) {CU : CodesInUse}.
Context {PL : PrecompileLib} {EN : Env} {EO : EnvOk} {PLaws : PrecompileLaws}.

(** A message call on the journaled state made with less than 2^62 gas, if it is foreseen,
    returns, panics nowhere in machine, state or helper, and if it reports an
    error every account, log and preimage and the refund counter are what they
    were before the call. *)
Theorem calls_on_the_journaled_state cfg (e : EVM state disk) caller addr input gas v :
  configured cfg -> evm_ok (laws := journaled_StateLaws Hk Hput) e -> 0 <= gas < max_gas -> 0 <= v ->
  is_bytes input -> foreseen_run cfg gas (fun run => Call run e caller addr input gas v) ->
  exists e' ret leftOver err,
    (forall fuel, enough_fuel gas <= Z.of_nat fuel ->
       Call (run fuel (NewEVMInterpreter cfg)) e caller addr input gas v =
         Ret (e', (ret, leftOver, err))) /\
    0 <= leftOver <= gas /\ state_ok e'.(evm_StateDB) /\
    (err <> None -> state_view e'.(evm_StateDB) ≡ state_view e.(evm_StateDB)).
Proof.
  set (laws := journaled_StateLaws Hk Hput). intros Hcfg He Hgas Hv Hin Hfs.
  destruct (stable_run cfg gas (fun run => Call run e caller addr input gas v) (call_post e gas))
    as ([e' [[ret leftOver] err]] & (He' & Hr & Hlo & Hb & Hview) & Hcall); [done| | |done|].
  - intros run run' Hle. by apply Call_le.
  - intros run Hrun. by apply (Call_ok gas).
  - exists e', ret, leftOver, err. split; [done|]. split; [apply Hlo|]. split; [apply He'|done].
Qed.
End Node.

(** ** Witnesses *)
Lemma sample_account_present : is_Some (v_accounts (state_view sample_state) (array_address 99)).
Proof. apply is_Some_alt. vm_compute. exact I. Qed.

Lemma snapshots_restore_the_state_witness :
  exists s3, Machine.RevertToSnapshot
      (Machine.SetNonce (Machine.Snapshot (Machine.AddBalance (Machine.Snapshot sample_state).1 99 5)).1 99 3)
      (Machine.Snapshot sample_state).2 = Some s3 /\
    state_ok s3 /\ state_view s3 ≡ state_view sample_state /\
    Machine.RevertToSnapshot s3 (Machine.Snapshot sample_state).2 = None.
Proof.
  apply (snapshots_restore_the_state sample_state _ sample_state_ok).
  eapply rtc_l; [apply use_mutation, (mut_AddBalance _ 99 5); lia|].
  eapply rtc_l; [apply use_snapshot|]. apply rtc_once, use_mutation, mut_SetNonce.
Defined.

Lemma setters_change_one_field_witness :
  (forall n, state_view (Machine.SetNonce sample_state 99 n) ≡
     valter (state_view sample_state) (array_address 99) (fun x => v_with_nonce x n)) /\
  (forall k v, state_view (Machine.SetState sample_state 99 k v) ≡
     valter (state_view sample_state) (array_address 99) (fun x => v_with_storage x k v)).
Proof.
  pose proof (setters_change_one_field sample_state 99 sample_state_ok sample_account_present)
    as (H1 & _ & _ & H4 & _). exact (conj H1 H4).
Defined.

Lemma readers_change_nothing_witness :
  reads (SDB.GetBalance 7) sample_state (Some (field 0 v_balance sample_state 7)) /\
  reads (SDB.HasSuicided 7) sample_state (field false v_suicided sample_state 7).
Proof.
  pose proof (readers_change_nothing sample_state 7 sample_state_ok ltac:(split; [lia|done]))
    as (_ & _ & H3 & _ & _ & H6 & _). exact (conj H3 H6).
Defined.

Lemma opened_states_have_no_nonces_witness : value_of 0 (SDB.GetNonce 7) fresh_state = 0.
Proof. apply (opened_states_have_no_nonces (DBI := map_Database) empty_nodes 0). reflexivity. Defined.

Lemma stored_states_always_load_witness :
  exists d' s',
    Helper.Commit (DK := map_Disk) empty_disk {| Helper.EthStateDB := sample_state; Helper.SmartContractAddress := 99;
                       Helper.HashOfTrieRootNode := 0 |} = Some (d', s') /\
    s'.(changes) = newJournal /\ disk_opens d' /\
    forall b, exists h, Helper.NewVMStateHelper d' b = inl h /\ state_ok h.(Helper.EthStateDB).
Proof. apply (stored_states_always_load (DK := map_Disk) empty_disk sample_state 99 sample_takes_writes empty_disk_opens sample_state_ok). Defined.

#[local] Existing Instance bare_env.
#[local] Instance bare_env_ok : EnvOk := sample_env_ok None.
Lemma calls_on_the_journaled_state_witness :
  exists e' ret leftOver err,
    (forall fuel, enough_fuel 100000 <= Z.of_nat fuel ->
       Call (run fuel (NewEVMInterpreter newConstantinopleInstructionSet)) sample_machine
         (AccountRef 7) 99 [] 100000 5 = Ret (e', (ret, leftOver, err))) /\
    0 <= leftOver <= 100000 /\ state_ok e'.(evm_StateDB) /\
    (err <> None -> state_view e'.(evm_StateDB) ≡ state_view sample_machine.(evm_StateDB)).
Proof.
  apply (calls_on_the_journaled_state sample_Keccak256 sample_takes_writes newConstantinopleInstructionSet
    sample_machine (AccountRef 7) 99 [] 100000 5).
  - by do 4 right.
  - exact sample_machine_ok.
  - done.
  - done.
  - apply is_bytes_nil.
  - apply (foreseen_when (laws := journaled_StateLaws sample_Keccak256 sample_takes_writes) _ _ _ 5); [by do 4 right| | |vm_cast_no_check (eq_refl true)].
    + intros run run' Hle. apply Call_le, Hle.
    + by vm_compute.
Defined.
