(* ===== verification/Rlp.v ===== *)
(** * RLP: encoding

    dvm/ethereum/rlp: typecache.go's view of a Go type, the encode buffer with its
    deferred list headers, the writers and the byte-slice functions of raw.go.

    [rtype] are the types [makeWriter] and [makeDecoder] tell apart and [val] the
    values reflection finds in them.  Types with an [EncodeRLP] or [DecodeRLP]
    method of their own are arbitrary code and left out, and so are recursive
    types, which no finite [rtype] describes. *)
From Stdlib Require Import ZArith Lia.
From S2P Require Import Prelude Word.
Import Big.
Open Scope Z_scope.

(** ** Errors *)
Inductive decode_msg :=
  | msgCanonInt | msgCanonSize | msgExpectedList | msgExpectedString | msgTooLong | msgTooMany
  | msgTooShort | msgTooFewElements | msgTooFewFields.

Inductive rlp_error :=
  | EOL | EOF | ErrUnexpectedEOF
  | ErrExpectedString | ErrExpectedList | ErrCanonInt | ErrCanonSize | ErrElemTooLarge
  | ErrValueTooLarge | ErrMoreThanOneValue
  | errNotInList | errNotAtEOL | errUintOverflow | errNegativeBigInt | errInvalidBool
  | decodeError (msg : decode_msg).

#[export] Instance decode_msg_eq_dec : EqDecision decode_msg.
Proof. solve_decision. Defined.
#[export] Instance rlp_error_eq_dec : EqDecision rlp_error.
Proof. solve_decision. Defined.

(** ** Types and values *)
Record tags := { nilOK : bool; tail : bool }.
Definition no_tags : tags := {| nilOK := false; tail := false |}.

(** A struct lists the fields reflection visits: the exported ones that are not
    ignored, with their tags.  [TBytes] and [TByteArray] have byte elements,
    [TSlice] and [TArray] others. *)
Inductive rtype :=
  | TRawValue | TBigIntPtr | TBigInt | TUint (bits : Z) | TBool | TString | TBytes
  | TByteArray (n : nat) | TSlice (t : rtype) | TArray (n : nat) (t : rtype)
  | TStruct (fields : list (rtype * tags)) | TPtr (t : rtype) | TInterface.

Inductive val :=
  | VBytes (b : list Z)
  | VBig (z : Z)
  | VUint (n : Z)
  | VBool (b : bool)
  | VList (l : list val)
  | VNil
  | VPtr (v : val)
  | VIface (t : rtype) (v : val).

(** ** The encode buffer *)
Record listhead := { offset : nat; size : Z }.

Record encbuf := { str : list Z; lheads : list listhead; lhsize : Z }.

Definition new_encbuf : encbuf := {| str := []; lheads := []; lhsize := 0 |}.

Definition putint (i : Z) : list Z :=
  let byte s := u8 (Z.shiftr i s) in
  if i <? 2 ^ 8 then [byte 0]
  else if i <? 2 ^ 16 then [byte 8; byte 0]
  else if i <? 2 ^ 24 then [byte 16; byte 8; byte 0]
  else if i <? 2 ^ 32 then [byte 24; byte 16; byte 8; byte 0]
  else if i <? 2 ^ 40 then [byte 32; byte 24; byte 16; byte 8; byte 0]
  else if i <? 2 ^ 48 then [byte 40; byte 32; byte 24; byte 16; byte 8; byte 0]
  else if i <? 2 ^ 56 then [byte 48; byte 40; byte 32; byte 24; byte 16; byte 8; byte 0]
  else [byte 56; byte 48; byte 40; byte 32; byte 24; byte 16; byte 8; byte 0].

(** Eight shifts clear a [uint64]. *)
Fixpoint intsize_loop (fuel : nat) (size i : Z) : Z :=
  match fuel with
  | O => size
  | S fuel => let i := Z.shiftr i 8 in if i =? 0 then size else intsize_loop fuel (size + 1) i
  end.
Definition intsize (i : Z) : Z := intsize_loop 8 1 i.

Definition headsize (size : Z) : Z := if size <? 56 then 1 else 1 + intsize size.

(** The bytes [puthead] writes; it returns how many. *)
Definition puthead (smalltag largetag size : Z) : list Z :=
  if size <? 56 then [u8 (smalltag + u8 size)]
  else let b := putint size in u8 (largetag + u8 (Z.of_nat (length b))) :: b.

Definition listhead_encode (head : listhead) : list Z := puthead 0xC0 0xF7 (u64 head.(size)).

Definition append_str (w : encbuf) (b : list Z) : encbuf :=
  {| str := w.(str) ++ b; lheads := w.(lheads); lhsize := w.(lhsize) |}.

Definition encodeStringHeader (w : encbuf) (size : Z) : encbuf :=
  if size <? 56 then append_str w [u8 (0x80 + u8 size)]
  else let b := putint (u64 size) in append_str w (u8 (0xB7 + u8 (Z.of_nat (length b))) :: b).

Definition encodeString (w : encbuf) (b : list Z) : encbuf :=
  match b with
  | [x] => if x <=? 0x7F then append_str w [x]
           else append_str (encodeStringHeader w (Z.of_nat (length b))) b
  | _ => append_str (encodeStringHeader w (Z.of_nat (length b))) b
  end.

Definition encbuf_size (w : encbuf) : Z := Z.of_nat (length w.(str)) + w.(lhsize).

(** [list] gives a pointer to the new header, here its index. *)
Definition list_ (w : encbuf) : encbuf * nat :=
  ({| str := w.(str);
      lheads := w.(lheads) ++ [{| offset := length w.(str); size := w.(lhsize) |}];
      lhsize := w.(lhsize) |}, length w.(lheads)).

Definition listEnd (w : encbuf) (lh : nat) : option encbuf :=
  h ← w.(lheads) !! lh;
  let size := encbuf_size w - Z.of_nat h.(offset) - h.(size) in
  Some {| str := w.(str); lheads := <[lh := {| offset := h.(offset); size := size |}]> w.(lheads);
          lhsize := if size <? 56 then w.(lhsize) + 1 else w.(lhsize) + (1 + intsize (u64 size)) |}.

(** *** Output *)

(** [copy(out[pos:], b)]: what does not fit is dropped. *)
Definition copy_out (out : list Z) (pos : nat) (b : list Z) : option (list Z * nat) :=
  if (length out <? pos)%nat then None
  else let b := take (length out - pos) b in
       Some (take pos out ++ b ++ drop (pos + length b) out, length b).

(** Writing the bytes one by one panics past the end. *)
Definition put_out (out : list Z) (pos : nat) (b : list Z) : option (list Z) :=
  if (pos + length b <=? length out)%nat then Some (take pos out ++ b ++ drop (pos + length b) out)
  else None.

Definition cut (l : list Z) (i j : nat) : option (list Z) := slice l (Z.of_nat i) (Z.of_nat j).

Fixpoint toBytes_loop (s : list Z) (heads : list listhead) (strpos pos : nat) (out : list Z) :
    option (nat * nat * list Z) :=
  match heads with
  | [] => Some (strpos, pos, out)
  | head :: heads =>
      p ← cut s strpos head.(offset);
      '(out, n) ← copy_out out pos p;
      let pos := (pos + n)%nat in let strpos := (strpos + n)%nat in
      let enc := listhead_encode head in
      out ← put_out out pos enc;
      toBytes_loop s heads strpos (pos + length enc) out
  end.

Definition toBytes (w : encbuf) : option (list Z) :=
  let out := replicate (Z.to_nat (encbuf_size w)) 0 in
  '(strpos, pos, out) ← toBytes_loop w.(str) w.(lheads) 0 0 out;
  p ← cut w.(str) strpos (length w.(str));
  '(out, _) ← copy_out out pos p;
  Some out.

(** [toWriter], for any writer. *)
Section ToWriter.
Context {W : Type} (Write : W -> list Z -> W * nat * option rlp_error).

Fixpoint toWriter_loop (s : list Z) (heads : list listhead) (strpos : nat) (out : W) :
    option (W * nat * option rlp_error) :=
  match heads with
  | [] => Some (out, strpos, None)
  | head :: heads =>
      p ← cut s strpos head.(offset);
      let '(out, n, err) := match p with [] => (out, 0%nat, None) | _ => Write out p end in
      match err with
      | Some err => Some (out, strpos, Some err)
      | None =>
          let '(out, _, err) := Write out (listhead_encode head) in
          match err with
          | Some err => Some (out, strpos, Some err)
          | None => toWriter_loop s heads (strpos + n) out
          end
      end
  end.

Definition toWriter (w : encbuf) (out : W) : option (W * option rlp_error) :=
  '(out, strpos, err) ← toWriter_loop w.(str) w.(lheads) 0 out;
  match err with
  | Some err => Some (out, Some err)
  | None =>
      if (strpos <? length w.(str))%nat then
        let '(out, _, err) := Write out (drop strpos w.(str)) in Some (out, err)
      else Some (out, None)
  end.
End ToWriter.

(** *** [encReader]: the encoding in pieces *)
Record encReader := { buf : option encbuf; lhpos : nat; strpos : nat; piece : option (list Z) }.

(** [next]; a slice that is empty is not nil. *)
Definition next (r : encReader) : option (encReader * option (list Z)) :=
  match r.(buf), r.(piece) with
  | None, _ => Some (r, None)
  | _, Some p => Some (r, Some p)
  | Some w, None =>
      match w.(lheads) !! r.(lhpos) with
      | Some head =>
          if (r.(strpos) <? head.(offset))%nat then
            p ← cut w.(str) r.(strpos) head.(offset);
            Some ({| buf := r.(buf); lhpos := r.(lhpos); strpos := head.(offset); piece := None |}, Some p)
          else Some ({| buf := r.(buf); lhpos := S r.(lhpos); strpos := r.(strpos); piece := None |},
                     Some (listhead_encode head))
      | None =>
          if (r.(strpos) <? length w.(str))%nat then
            Some ({| buf := r.(buf); lhpos := r.(lhpos); strpos := length w.(str); piece := None |},
                  Some (drop r.(strpos) w.(str)))
          else Some (r, None)
      end
  end.

(** [Read] into room for [n] bytes: the bytes read and whether it was the end. *)
Fixpoint Read_loop (fuel : nat) (r : encReader) (n : nat) : option (encReader * list Z * bool) :=
  match fuel with
  | O => None
  | S fuel =>
      '(r, p) ← next r;
      match p with
      | None => Some ({| buf := None; lhpos := r.(lhpos); strpos := r.(strpos); piece := None |}, [], true)
      | Some p =>
          let nn := take n p in
          if (length nn <? length p)%nat then
            Some ({| buf := r.(buf); lhpos := r.(lhpos); strpos := r.(strpos);
                     piece := Some (drop (length nn) p) |}, nn, false)
          else
            '(r, b, eof) ← Read_loop fuel
              {| buf := r.(buf); lhpos := r.(lhpos); strpos := r.(strpos); piece := None |} (n - length nn);
            Some (r, nn ++ b, eof)
      end
  end.

(** ** The writers *)
Abbreviation write_result := (outcome rlp_error encbuf).

Definition writeUint (w : encbuf) (i : Z) : encbuf :=
  if i =? 0 then append_str w [0x80]
  else if i <? 128 then append_str w [u8 i]
  else let b := putint i in append_str w (u8 (0x80 + u8 (Z.of_nat (length b))) :: b).

Definition writeBool (w : encbuf) (b : bool) : encbuf := append_str w [if b then 0x01 else 0x80].

Definition writeBigInt (w : encbuf) (i : Z) : write_result :=
  if i <? 0 then Err errNegativeBigInt
  else if i =? 0 then Ret (append_str w [0x80])
  else Ret (encodeString w (Bytes i)).

Definition writeString (w : encbuf) (s : list Z) : encbuf :=
  match s with
  | [x] => if x <=? 0x7F then append_str w [x]
           else append_str (encodeStringHeader w (Z.of_nat (length s))) s
  | _ => append_str (encodeStringHeader w (Z.of_nat (length s))) s
  end.

(** What is written between [w.list()] and [w.listEnd(lh)]. *)
Definition in_list (w : encbuf) (f : encbuf -> write_result) : write_result :=
  let '(w, lh) := list_ w in w ← f w; or_panic (listEnd w lh).

(** The writer of a type on [reflect.Zero] of it, which is what a nil pointer
    writes: a nil pointer inside writes the zero value below it. *)
Fixpoint write_zero (t : rtype) (ts : tags) (w : encbuf) : write_result :=
  match t with
  | TRawValue => Ret w
  | TBigIntPtr | TBigInt => Ret (append_str w [0x80])
  | TUint _ => Ret (writeUint w 0)
  | TBool => Ret (writeBool w false)
  | TString => Ret (writeString w [])
  | TBytes => Ret (encodeString w [])
  | TByteArray n => Ret (encodeString w (replicate n 0))
  | TSlice _ => if ts.(tail) then Ret w else in_list w Ret
  | TArray n t => in_list w (Nat.iter n (fun m => m ≫= write_zero t no_tags) ∘ Ret)
  | TStruct fs => in_list w (fun w => foldl (fun m f => m ≫= write_zero f.1 f.2) (Ret w) fs)
  | TPtr t =>
      match t with
      | TByteArray _ => Ret (append_str w [0x80])
      | TStruct _ | TArray _ _ => in_list w Ret
      | _ => write_zero t no_tags w
      end
  | TInterface => Ret (append_str w [0xC0])
  end.

(** The writer [makeWriter] gives for a type.  A value of another type makes
    reflection panic. *)
Fixpoint write (v : val) (t : rtype) (ts : tags) (w : encbuf) {struct v} : write_result :=
  match t, v with
  | TRawValue, VBytes b => Ret (append_str w b)
  | TBigIntPtr, VNil => Ret (append_str w [0x80])
  | TBigIntPtr, VPtr (VBig i) => writeBigInt w i
  | TBigInt, VBig i => writeBigInt w i
  | TUint _, VUint i => Ret (writeUint w i)
  | TBool, VBool b => Ret (writeBool w b)
  | TString, VBytes s => Ret (writeString w s)
  | TBytes, VBytes b => Ret (encodeString w b)
  | TByteArray _, VBytes b => Ret (encodeString w b)
  | TSlice et, VList l =>
      let elems w := foldl (fun m x => m ≫= write x et no_tags) (Ret w) l in
      if ts.(tail) then elems w else in_list w elems
  | TArray _ et, VList l =>
      in_list w (fun w => foldl (fun m x => m ≫= write x et no_tags) (Ret w) l)
  | TStruct fs, VList l =>
      in_list w (fun w =>
        (fix fields (l : list val) (fs : list (rtype * tags)) (w : encbuf) : write_result :=
           match fs, l with
           | [], [] => Ret w
           | f :: fs, x :: l => w ← write x f.1 f.2 w; fields l fs w
           | _, _ => Panic
           end) l fs w)
  | TPtr et, VNil => write_zero (TPtr et) no_tags w
  | TPtr et, VPtr x => write x et no_tags w
  | TInterface, VNil => Ret (append_str w [0xC0])
  | TInterface, VIface et x => write x et no_tags w
  | _, _ => Panic
  end.

Definition EncodeToBytes (t : rtype) (v : val) : outcome rlp_error (list Z) :=
  w ← write v t no_tags new_encbuf; or_panic (toBytes w).

Definition EncodeToReader (t : rtype) (v : val) : outcome rlp_error (Z * encReader) :=
  w ← write v t no_tags new_encbuf;
  Ret (encbuf_size w, {| buf := Some w; lhpos := 0; strpos := 0; piece := None |}).

(** ** raw.go *)
Inductive Kind := Byte | String | List.

#[export] Instance Kind_eq_dec : EqDecision Kind.
Proof. solve_decision. Defined.

Definition ListSize (contentSize : Z) : Z := u64 (headsize contentSize + contentSize).

(** The bytes of the size, most significant first. *)
Definition readSize (b : list Z) (slen : Z) : outcome rlp_error Z :=
  if Z.of_nat (length b) <? slen then Err ErrUnexpectedEOF
  else
    let s := be_int (take (Z.to_nat slen) b) in
    b0 ← or_panic (b !! 0%nat);
    if (s <? 56) || (b0 =? 0) then Err ErrCanonSize else Ret s.

(** The kind of the first value, the size of its header and of its content. *)
Definition readKind (buf : list Z) : outcome rlp_error (Kind * Z * Z) :=
  match buf with
  | [] => Err ErrUnexpectedEOF
  | b :: rest =>
      '(k, tagsize, contentsize) ←
        (if b <? 0x80 then Ret (Byte, 0, 1)
         else if b <? 0xB8 then
           let contentsize := u8 (b - 0x80) in
           match rest with
           | b1 :: _ => if (contentsize =? 1) && (b1 <? 128) then Err ErrCanonSize
                        else Ret (String, 1, contentsize)
           | [] => Ret (String, 1, contentsize)
           end
         else if b <? 0xC0 then
           s ← readSize rest (u8 (b - 0xB7)); Ret (String, u8 (b - 0xB7) + 1, s)
         else if b <? 0xF8 then Ret (List, 1, u8 (b - 0xC0))
         else s ← readSize rest (u8 (b - 0xF7)); Ret (List, u8 (b - 0xF7) + 1, s));
      if u64 (Z.of_nat (length buf) - tagsize) <? contentsize then Err ErrValueTooLarge
      else Ret (k, tagsize, contentsize)
  end.

Definition Split (b : list Z) : outcome rlp_error (Kind * list Z * list Z) :=
  '(k, ts, cs) ← readKind b;
  content ← or_panic (slice b ts (u64 (ts + cs)));
  rest ← or_panic (slice b (u64 (ts + cs)) (Z.of_nat (length b)));
  Ret (k, content, rest).

Definition SplitString (b : list Z) : outcome rlp_error (list Z * list Z) :=
  '(k, content, rest) ← Split b;
  match k with List => Err ErrExpectedString | _ => Ret (content, rest) end.

Definition SplitList (b : list Z) : outcome rlp_error (list Z * list Z) :=
  '(k, content, rest) ← Split b;
  match k with List => Ret (content, rest) | _ => Err ErrExpectedList end.

(** Each turn cuts off at least one byte. *)
Fixpoint CountValues_loop (fuel : nat) (b : list Z) (i : Z) : outcome rlp_error Z :=
  match b, fuel with
  | [], _ => Ret i
  | _, O => Panic
  | _, S fuel =>
      '(_, tagsize, size) ← readKind b;
      b ← or_panic (slice b (u64 (tagsize + size)) (Z.of_nat (length b)));
      CountValues_loop fuel b (i + 1)
  end.
Definition CountValues (b : list Z) : outcome rlp_error Z := CountValues_loop (length b) b 0.
