(* ===== verification/RlpStream.v ===== *)
(** * RLP: decoding

    dvm/ethereum/rlp/decode.go: the [Stream] over a byte slice and the decoders of
    the types [makeDecoder] tells apart.  Every value is decoded into the zero
    value of its type.  What a decoding error says is its message; the path to the
    field and the name of the type are left out. *)
From Stdlib Require Import ZArith Lia.
From S2P Require Import Prelude Word Rlp.
Import Big.
Open Scope Z_scope.

(** ** Stream *)
Record listpos := { pos : Z; lsize : Z }.

(** [kind] is [None] where Go has -1.  The top of the stack is the head. *)
Record Stream := {
  input : list Z;
  remaining : Z;
  limited : bool;
  kind : option Kind;
  ssize : Z;
  byteval : Z;
  kinderr : option rlp_error;
  stack : list listpos
}.

Definition set_input (s : Stream) (i : list Z) (r : Z) (st : list listpos) : Stream :=
  {| input := i; remaining := r; limited := s.(limited); kind := s.(kind); ssize := s.(ssize);
     byteval := s.(byteval); kinderr := s.(kinderr); stack := st |}.
Definition set_kind (s : Stream) (k : option Kind) (n b : Z) (e : option rlp_error) : Stream :=
  {| input := s.(input); remaining := s.(remaining); limited := s.(limited); kind := k; ssize := n;
     byteval := b; kinderr := e; stack := s.(stack) |}.
Definition set_stack (s : Stream) (st : list listpos) : Stream :=
  {| input := s.(input); remaining := s.(remaining); limited := s.(limited); kind := s.(kind);
     ssize := s.(ssize); byteval := s.(byteval); kinderr := s.(kinderr); stack := st |}.

(** [s.kind = -1] *)
Definition rearm (s : Stream) : Stream := set_kind s None s.(ssize) s.(byteval) s.(kinderr).

(** A method changes the stream whether or not it fails.  [None] is a panic, or,
    in the loops, the end of the fuel. *)
Definition SM (A : Type) : Type := Stream -> option (Stream * (A + rlp_error)).

#[export] Instance SM_ret : MRet SM := fun A a s => Some (s, inl a).
#[export] Instance SM_bind : MBind SM := fun A B k m s =>
  match m s with
  | Some (s, inl a) => k a s
  | Some (s, inr e) => Some (s, inr e)
  | None => None
  end.

Definition err {A} (e : rlp_error) : SM A := fun s => Some (s, inr e).
Definition get {A} (f : Stream -> A) : SM A := fun s => Some (s, inl (f s)).
Definition upd (f : Stream -> Stream) : SM unit := fun s => Some (f s, inl tt).
Definition stuck {A} : SM A := fun _ => None.

(** Go's [if err != nil]: the result of [m] as a value. *)
Definition try {A} (m : SM A) : SM (A + rlp_error) := fun s =>
  match m s with Some (s, r) => Some (s, inl r) | None => None end.

(** [willRead] *)
Definition willRead (n : Z) : SM unit :=
  upd rearm;;
  st ← get stack;
  (match st with
   | tos :: st' =>
       if u64 (tos.(lsize) - tos.(pos)) <? n then err ErrElemTooLarge
       else upd (fun s => set_stack s ({| pos := u64 (tos.(pos) + n); lsize := tos.(lsize) |} :: st'))
   | [] => mret tt
   end);;
  s ← get (fun s => s);
  if s.(limited) then
    if s.(remaining) <? n then err ErrValueTooLarge
    else upd (fun s => set_input s s.(input) (s.(remaining) - n) s.(stack))
  else mret tt.

(** [n] bytes of the reader; what is there is consumed even if it is too little. *)
Definition readFull (n : Z) : SM (list Z) :=
  willRead n;;
  i ← get input;
  let b := take (Z.to_nat n) i in
  upd (fun s => set_input s (drop (Z.to_nat n) i) s.(remaining) s.(stack));;
  if (length b <? Z.to_nat n)%nat then err ErrUnexpectedEOF else mret b.

Definition readByte : SM Z :=
  willRead 1;;
  i ← get input;
  match i with
  | [] => err ErrUnexpectedEOF
  | b :: i' => upd (fun s => set_input s i' s.(remaining) s.(stack));; mret b
  end.

Definition readUint (size : Z) : SM Z :=
  if size =? 0 then upd rearm;; mret 0
  else if size =? 1 then readByte
  else
    b ← readFull size;
    match b with
    | 0 :: _ => err ErrCanonSize
    | _ => mret (be_int b)
    end.

(** [readKind] gives kind and size also with an error of the size. *)
Definition readKind_sized (k : Kind) (n : Z) : SM (Kind * Z * option rlp_error) :=
  r ← try (readUint n);
  match r with
  | inl size => mret (k, size, if size <? 56 then Some ErrCanonSize else None)
  | inr e => mret (k, 0, Some e)
  end.

Definition readKind : SM (Kind * Z * option rlp_error) :=
  r ← try readByte;
  match r with
  | inr e =>
      st ← get stack;
      mret (Byte, 0, Some (match st with
                           | [] => if decide (e = ErrUnexpectedEOF \/ e = ErrValueTooLarge) then EOF else e
                           | _ => e
                           end))
  | inl b =>
      upd (fun s => set_kind s s.(kind) s.(ssize) 0 s.(kinderr));;
      if b <? 0x80 then upd (fun s => set_kind s s.(kind) s.(ssize) b s.(kinderr));; mret (Byte, 0, None)
      else if b <? 0xB8 then mret (String, u8 (b - 0x80), None)
      else if b <? 0xC0 then readKind_sized String (u8 (b - 0xB7))
      else if b <? 0xF8 then mret (List, u8 (b - 0xC0), None)
      else readKind_sized List (u8 (b - 0xF7))
  end.

(** [Stream.Kind] *)
Definition Stream_Kind : SM (Kind * Z) :=
  s ← get (fun s => s);
  (match s.(kind) with
   | Some _ => mret tt
   | None =>
       upd (fun s => set_kind s s.(kind) s.(ssize) s.(byteval) None);;
       match s.(stack) with
       | tos :: _ => if tos.(pos) =? tos.(lsize) then err EOL else mret tt
       | [] => mret tt
       end;;
       '(k, size, e) ← readKind;
       upd (fun s =>
         let e := match e with
                  | Some e => Some e
                  | None =>
                      match s.(stack) with
                      | [] => if s.(limited) && (s.(remaining) <? size) then Some ErrValueTooLarge else None
                      | tos :: _ => if u64 (tos.(lsize) - tos.(pos)) <? size then Some ErrElemTooLarge else None
                      end
                  end in
         set_kind s (Some k) size s.(byteval) e)
   end);;
  s ← get (fun s => s);
  match s.(kinderr), s.(kind) with
  | Some e, _ => err e
  | None, Some k => mret (k, s.(ssize))
  | None, None => stuck
  end.

Definition Stream_Bytes : SM (list Z) :=
  '(k, size) ← Stream_Kind;
  match k with
  | Byte => b ← get byteval; upd rearm;; mret [b]
  | String =>
      b ← readFull size;
      match b with
      | [x] => if x <? 128 then err ErrCanonSize else mret b
      | _ => mret b
      end
  | List => err ErrExpectedString
  end.

Definition Stream_Raw : SM (list Z) :=
  '(k, size) ← Stream_Kind;
  match k with
  | Byte => b ← get byteval; upd rearm;; mret [b]
  | String => b ← readFull size; mret (puthead 0x80 0xB7 size ++ b)
  | List => b ← readFull size; mret (puthead 0xC0 0xF7 size ++ b)
  end.

Definition Stream_uint (maxbits : Z) : SM Z :=
  '(k, size) ← Stream_Kind;
  match k with
  | Byte =>
      b ← get byteval;
      if b =? 0 then err ErrCanonInt else upd rearm;; mret b
  | String =>
      if maxbits / 8 <? size then err errUintOverflow
      else
        r ← try (readUint (u8 size));
        match r with
        | inr e => err (if decide (e = ErrCanonSize) then ErrCanonInt else e)
        | inl v => if (0 <? size) && (v <? 128) then err ErrCanonSize else mret v
        end
  | List => err ErrExpectedString
  end.

Definition Stream_Uint : SM Z := Stream_uint 64.

Definition Stream_Bool : SM bool :=
  num ← Stream_uint 8;
  if num =? 0 then mret false else if num =? 1 then mret true else err errInvalidBool.

Definition Stream_List : SM Z :=
  '(k, size) ← Stream_Kind;
  match k with
  | List =>
      upd (fun s => set_stack (set_kind s None 0 s.(byteval) s.(kinderr))
                              ({| pos := 0; lsize := size |} :: s.(stack)));;
      mret size
  | _ => err ErrExpectedList
  end.

Definition Stream_ListEnd : SM unit :=
  st ← get stack;
  match st with
  | [] => err errNotInList
  | tos :: st' =>
      if negb (tos.(pos) =? tos.(lsize)) then err errNotAtEOL
      else
        let st' := match st' with
                   | p :: st'' => {| pos := u64 (p.(pos) + tos.(lsize)); lsize := p.(lsize) |} :: st''
                   | [] => []
                   end in
        upd (fun s => set_stack (set_kind s None 0 s.(byteval) s.(kinderr)) st')
  end.

(** ** Decoders *)
Definition wrapStreamError (e : rlp_error) : rlp_error :=
  match e with
  | ErrCanonInt => decodeError msgCanonInt
  | ErrCanonSize => decodeError msgCanonSize
  | ErrExpectedList => decodeError msgExpectedList
  | ErrExpectedString => decodeError msgExpectedString
  | errUintOverflow => decodeError msgTooLong
  | errNotAtEOL => decodeError msgTooMany
  | _ => e
  end.

Definition wrapped {A} (m : SM A) : SM A :=
  r ← try m; match r with inl x => mret x | inr e => err (wrapStreamError e) end.

Definition decodeRawValue : SM val := b ← Stream_Raw; mret (VBytes b).
Definition decodeUint (bits : Z) : SM val := n ← wrapped (Stream_uint bits); mret (VUint n).
Definition decodeBool : SM val := b ← wrapped Stream_Bool; mret (VBool b).
Definition decodeString : SM val := b ← wrapped Stream_Bytes; mret (VBytes b).
Definition decodeByteSlice : SM val := b ← wrapped Stream_Bytes; mret (VBytes b).

Definition decodeBigInt : SM Z :=
  b ← wrapped Stream_Bytes;
  match b with
  | 0 :: _ => err (wrapStreamError ErrCanonInt)
  | _ => mret (SetBytes b)
  end.

(** Elements until the end of the innermost list. *)
Fixpoint decodeSliceElems (fuel : nat) (elemdec : SM val) : SM (list val) :=
  match fuel with
  | O => stuck
  | S fuel =>
      r ← try elemdec;
      match r with
      | inr EOL => mret []
      | inr e => err e
      | inl x => l ← decodeSliceElems fuel elemdec; mret (x :: l)
      end
  end.

Definition decodeListSlice (fuel : nat) (elemdec : SM val) : SM val :=
  size ← wrapped Stream_List;
  if size =? 0 then Stream_ListEnd;; mret (VList [])
  else l ← decodeSliceElems fuel elemdec; Stream_ListEnd;; mret (VList l).

Fixpoint decode_array_elems (n : nat) (elemdec : SM val) : SM (list val) :=
  match n with
  | O => mret []
  | S n =>
      r ← try elemdec;
      match r with
      | inr EOL => err (decodeError msgTooFewElements)
      | inr e => err e
      | inl x => l ← decode_array_elems n elemdec; mret (x :: l)
      end
  end.

Definition decodeListArray (n : nat) (elemdec : SM val) : SM val :=
  wrapped Stream_List;;
  l ← decode_array_elems n elemdec;
  wrapped Stream_ListEnd;;
  mret (VList l).

(** The error of [s.Uint()] is dropped: a zero byte is not consumed. *)
Definition decodeByteArray (n : nat) : SM val :=
  '(k, size) ← Stream_Kind;
  match k with
  | Byte =>
      match n with
      | O => err (decodeError msgTooLong)
      | S (S _) => err (decodeError msgTooShort)
      | S O => r ← try Stream_Uint; mret (VBytes [match r with inl bv => u8 bv | inr _ => 0 end])
      end
  | String =>
      if Z.of_nat n <? size then err (decodeError msgTooLong)
      else if size <? Z.of_nat n then err (decodeError msgTooShort)
      else
        b ← readFull (Z.of_nat n);
        match b with
        | [x] => if x <? 128 then err (wrapStreamError ErrCanonSize) else mret (VBytes b)
        | _ => mret (VBytes b)
        end
  | List => err (wrapStreamError ErrExpectedString)
  end.

Fixpoint decodeInterface (fuel : nat) : SM val :=
  match fuel with
  | O => stuck
  | S fuel' =>
      '(k, _) ← Stream_Kind;
      match k with
      | List => l ← decodeListSlice fuel' (decodeInterface fuel'); mret (VIface (TSlice TInterface) l)
      | _ => b ← Stream_Bytes; mret (VIface TBytes (VBytes b))
      end
  end.

(** A field decoder that meets the end of the list makes the struct fail. *)
Definition decode_field (dec : SM val) : SM val :=
  r ← try dec;
  match r with
  | inl x => mret x
  | inr EOL => err (decodeError msgTooFewFields)
  | inr e => err e
  end.

(** A pointer field that may be nil: an empty value is the nil pointer. *)
Definition decode_optional (dec : SM val) : SM val :=
  r ← try Stream_Kind;
  match r with
  | inr e => upd rearm;; err e
  | inl (k, size) =>
      if (size =? 0) && negb (bool_decide (k = Byte)) then upd rearm;; mret VNil
      else x ← dec; mret (VPtr x)
  end.

(** The decoder [makeDecoder] gives for a type. *)
Fixpoint decode (fuel : nat) (t : rtype) (ts : tags) {struct t} : SM val :=
  match t with
  | TRawValue => decodeRawValue
  | TBigIntPtr => n ← decodeBigInt; mret (VPtr (VBig n))
  | TBigInt => n ← decodeBigInt; mret (VBig n)
  | TUint bits => decodeUint bits
  | TBool => decodeBool
  | TString => decodeString
  | TBytes => decodeByteSlice
  | TByteArray n => decodeByteArray n
  | TSlice et =>
      if ts.(tail) then l ← decodeSliceElems fuel (decode fuel et no_tags); mret (VList l)
      else decodeListSlice fuel (decode fuel et no_tags)
  | TArray n et => decodeListArray n (decode fuel et no_tags)
  | TStruct fs =>
      wrapped Stream_List;;
      l ← (fix fields (fs : list (rtype * tags)) : SM (list val) :=
             match fs with
             | [] => mret []
             | f :: fs => x ← decode_field (decode fuel f.1 f.2); l ← fields fs; mret (x :: l)
             end) fs;
      wrapped Stream_ListEnd;;
      mret (VList l)
  | TPtr et =>
      if ts.(nilOK) then decode_optional (decode fuel et no_tags)
      else x ← decode fuel et no_tags; mret (VPtr x)
  | TInterface => decodeInterface fuel
  end.

(** [NewStream] on a byte slice. *)
Definition NewStream (b : list Z) : Stream :=
  {| input := b; remaining := Z.of_nat (length b); limited := true; kind := None; ssize := 0;
     byteval := 0; kinderr := None; stack := [] |}.

Definition DecodeBytes_fuel (fuel : nat) (b : list Z) (t : rtype) : option (val + rlp_error) :=
  '(s, r) ← decode fuel t no_tags (NewStream b);
  match r with
  | inr e => Some (inr e)
  | inl v => if (0 <? length s.(input))%nat then Some (inr ErrMoreThanOneValue) else Some (inl v)
  end.

(** As many turns as there are bytes are enough for every loop that ends. *)
Definition DecodeBytes (b : list Z) (t : rtype) : option (val + rlp_error) :=
  DecodeBytes_fuel (S (length b)) b t.

(** A pair of one-byte arrays, the first of them zero, is not decoded back. *)
Example zero_byte_array :
  DecodeBytes [0xC2; 0; 5] (TStruct [(TByteArray 1, no_tags); (TByteArray 1, no_tags)]) =
    Some (inr (decodeError msgTooMany)).
Proof. reflexivity. Qed.
Example two_bytes :
  DecodeBytes [0xC2; 1; 5] (TStruct [(TByteArray 1, no_tags); (TByteArray 1, no_tags)]) =
    Some (inl (VList [VBytes [1]; VBytes [5]])).
Proof. reflexivity. Qed.
