(* ===== verification/RlpSpec.v ===== *)
(** * What RLP is

    The items of RLP and their encoding, as the Ethereum specification gives it;
    the items a Go value stands for; and the proof that the encode buffer, with
    its list headers filled in afterwards, produces that encoding. *)
From Stdlib Require Import ZArith Lia.
From S2P Require Import Prelude Word Rlp.
Import Big.
Open Scope Z_scope.

(** ** Items *)
Inductive item :=
  | Str (b : list Z)
  | Lst (l : list item)
  | Raw (b : list Z).

Definition header (small large n : Z) : list Z :=
  if n <? 56 then [small + n] else (large + Z.of_nat (length (Bytes n))) :: Bytes n.

Definition single (b : list Z) : bool := match b with [x] => x <? 128 | _ => false end.

Definition enc_str (b : list Z) : list Z :=
  if single b then b else header 0x80 0xB7 (Z.of_nat (length b)) ++ b.

Definition enc_lst (content : list Z) : list Z :=
  header 0xC0 0xF7 (Z.of_nat (length content)) ++ content.

Fixpoint enc (i : item) : list Z :=
  match i with
  | Str b => enc_str b
  | Lst l => enc_lst (concat (map enc l))
  | Raw b => b
  end.

Definition encs (l : list item) : list Z := concat (map enc l).

Lemma encs_app l k : encs (l ++ k) = encs l ++ encs k.
Proof. unfold encs. by rewrite map_app, concat_app. Qed.

(** ** Minimal big-endian bytes *)
Lemma Bytes_minimal (k : nat) z : 256 ^ Z.of_nat k <= z < 256 ^ Z.of_nat (S k) ->
  Bytes z = be_bytes (S k) z.
Proof.
  intros Hz. assert (0 < 256 ^ Z.of_nat k) by (apply Z.pow_pos_nonneg; lia).
  unfold Bytes. rewrite Z.abs_eq by lia. f_equal.
  assert (8 * Z.of_nat k < BitLen z <= 8 * Z.of_nat (S k)) as Hb.
  { split.
    - apply Z.lt_nge. rewrite BitLen_le by lia. rewrite Z.abs_eq, Z.pow_mul_r by lia.
      change (2 ^ 8) with 256. lia.
    - apply BitLen_le; [lia|]. rewrite Z.abs_eq, Z.pow_mul_r by lia. change (2 ^ 8) with 256. lia. }
  assert ((BitLen z + 7) / 8 = Z.of_nat (S k)) as ->; [|lia].
  symmetry. apply Z.div_unique with (BitLen z + 7 - 8 * Z.of_nat (S k)); lia.
Qed.

Lemma Bytes_size z : 0 < z -> exists k, 256 ^ Z.of_nat k <= z < 256 ^ Z.of_nat (S k).
Proof.
  intros Hz. exists (Z.to_nat (Z.log2 z / 8)). pose proof (Z.log2_nonneg z).
  assert (0 <= Z.log2 z / 8) by (apply Z.div_pos; lia).
  rewrite Nat2Z.inj_succ, Z2Nat.id by done. change 256 with (2 ^ 8).
  rewrite <- !Z.pow_mul_r by lia. destruct (Z.log2_spec z Hz) as [Hlo Hhi].
  pose proof (Z.div_mod (Z.log2 z) 8). pose proof (Z.mod_pos_bound (Z.log2 z) 8). split.
  - eapply Z.le_trans; [|exact Hlo]. apply Z.pow_le_mono_r; lia.
  - eapply Z.lt_le_trans; [exact Hhi|]. apply Z.pow_le_mono_r; lia.
Qed.

(** Bytes without a leading zero are the bytes of their number. *)
Lemma Bytes_be_int b bs : Forall (fun x => 0 <= x < 256) (b :: bs) -> b <> 0 ->
  Bytes (be_int (b :: bs)) = b :: bs.
Proof.
  intros Hall Hb. pose proof (be_int_bound _ Hall) as [_ Hhi].
  apply Forall_cons in Hall as Hall'. destruct Hall' as [Hb256 Hbs].
  rewrite (Bytes_minimal (length bs)); [by apply (be_bytes_be_int (b :: bs)); constructor|]. split; [|exact Hhi].
  change (b :: bs) with ([b] ++ bs). rewrite be_int_app. change (be_int [b]) with (0 * 256 + b).
  pose proof (be_int_bound _ Hbs). nia.
Qed.

Lemma Bytes_head z : 0 < z -> exists b bs, Bytes z = b :: bs /\ 0 < b < 256.
Proof.
  intros Hz. destruct (Bytes_size z Hz) as [k Hk]. rewrite (Bytes_minimal k z Hk).
  change (S k) with (1 + k)%nat. rewrite be_bytes_add. cbn [be_bytes app].
  eexists _, _. split; [reflexivity|]. assert (0 < 256 ^ Z.of_nat k) by (apply Z.pow_pos_nonneg; lia).
  rewrite Nat2Z.inj_succ, Z.pow_succ_r in Hk by lia.
  rewrite Z.mod_small; [split; [apply Z.div_str_pos; lia|apply Z.div_lt_upper_bound; lia]|].
  split; [apply Z.div_pos; lia|apply Z.div_lt_upper_bound; lia].
Qed.

(** [putint] and [intsize] are these. *)
Ltac byte_shifts := unfold u8; rewrite !Z.shiftr_div_pow2 by lia; cbn [be_bytes app];
  rewrite ?Z.div_div by lia; rewrite ?Z.div_1_r; reflexivity.

Lemma putint_Bytes i : 0 < i < 2 ^ 64 -> putint i = Bytes i.
Proof.
  intros Hi. unfold putint. repeat case_match;
    repeat match goal with H : (_ <? _) = _ |- _ => apply Z.ltb_lt in H || apply Z.ltb_ge in H end.
  - rewrite (Bytes_minimal 0) by (simpl; lia). byte_shifts.
  - rewrite (Bytes_minimal 1) by (simpl; lia). byte_shifts.
  - rewrite (Bytes_minimal 2) by (simpl; lia). byte_shifts.
  - rewrite (Bytes_minimal 3) by (simpl; lia). byte_shifts.
  - rewrite (Bytes_minimal 4) by (simpl; lia). byte_shifts.
  - rewrite (Bytes_minimal 5) by (simpl; lia). byte_shifts.
  - rewrite (Bytes_minimal 6) by (simpl; lia). byte_shifts.
  - rewrite (Bytes_minimal 7) by (simpl; lia). byte_shifts.
Qed.

Lemma intsize_loop_S fuel sz i : intsize_loop (S fuel) sz i =
  if Z.shiftr i 8 =? 0 then sz else intsize_loop fuel (sz + 1) (Z.shiftr i 8).
Proof. done. Qed.

Lemma intsize_loop_spec fuel k i sz : (k <= fuel)%nat -> 256 ^ Z.of_nat k <= i < 256 ^ Z.of_nat (S k) ->
  intsize_loop (S fuel) sz i = sz + Z.of_nat k.
Proof.
  revert k i sz. induction fuel as [|fuel IH]; intros k i sz Hk Hi.
  - replace k with 0%nat in * by lia. simpl in *. rewrite Z.shiftr_div_pow2 by lia.
    change (2 ^ 8) with 256. rewrite Z.div_small by lia. simpl. lia.
  - rewrite intsize_loop_S, Z.shiftr_div_pow2 by lia. change (2 ^ 8) with 256.
    destruct k as [|k].
    + simpl in Hi. rewrite Z.div_small by lia. simpl. lia.
    + assert (0 < 256 ^ Z.of_nat k) by (apply Z.pow_pos_nonneg; lia).
      rewrite !Nat2Z.inj_succ, !Z.pow_succ_r in Hi by lia.
      assert (256 ^ Z.of_nat k <= i / 256) by (apply Z.div_le_lower_bound; lia).
      rewrite (proj2 (Z.eqb_neq _ _)) by lia. rewrite (IH k); [lia|lia|].
      rewrite Nat2Z.inj_succ, Z.pow_succ_r by lia. split; [done|]. apply Z.div_lt_upper_bound; lia.
Qed.

Lemma intsize_Bytes i : 0 < i < 2 ^ 64 -> intsize i = Z.of_nat (length (Bytes i)).
Proof.
  intros Hi. destruct (Bytes_size i) as [k Hk]; [lia|]. rewrite (Bytes_minimal k i Hk), be_bytes_length.
  assert (k < 8)%nat.
  { apply Nat.lt_nge. intros Hle. assert (256 ^ 8 <= 256 ^ Z.of_nat k) by (apply Z.pow_le_mono_r; lia).
    change (256 ^ 8) with (2 ^ 64) in *. lia. }
  unfold intsize. rewrite (intsize_loop_spec 7 k) by (lia || done). lia.
Qed.

Lemma header_length s l n : 0 <= n < 2 ^ 64 ->
  Z.of_nat (length (header s l n)) = if n <? 56 then 1 else 1 + intsize n.
Proof.
  intros Hn. unfold header. destruct (Z.ltb_spec n 56); [done|]. rewrite intsize_Bytes by lia.
  simpl. lia.
Qed.

Lemma Bytes_short n : 0 <= n < 2 ^ 64 -> (length (Bytes n) <= 8)%nat.
Proof.
  intros Hn. unfold Bytes. rewrite be_bytes_length. assert (BitLen n <= 64) as Hb.
  { apply BitLen_le; [lia|]. rewrite Z.abs_eq; lia. }
  assert ((BitLen n + 7) / 8 < 9) by (apply Z.div_lt_upper_bound; lia).
  lia.
Qed.

Lemma puthead_header s l n : 0 <= n < 2 ^ 64 -> 0 <= s -> s + 55 < 256 -> 0 <= l -> l + 8 < 256 ->
  puthead s l n = header s l n.
Proof.
  intros Hn H1 H2 H3 H4. unfold puthead, header, u8. destruct (Z.ltb_spec n 56).
  - rewrite !Z.mod_small by (rewrite ?Z.mod_small; lia). done.
  - pose proof (Bytes_short n Hn). rewrite putint_Bytes by lia.
    rewrite !Z.mod_small by (rewrite ?Z.mod_small; lia). done.
Qed.

(** ** The items of a Go value *)
Definition bytes_ok (b : list Z) : Prop := Forall (fun x => 0 <= x < 256) b.

(** The values of a type. *)
Fixpoint has_type (v : val) (t : rtype) {struct v} : Prop :=
  match t, v with
  | TRawValue, VBytes b | TString, VBytes b | TBytes, VBytes b => bytes_ok b
  | TByteArray n, VBytes b => bytes_ok b /\ length b = n
  | TBigIntPtr, VNil | TBigIntPtr, VPtr (VBig _) | TBigInt, VBig _ | TBool, VBool _ => True
  | TUint bits, VUint n => 0 <= n < 2 ^ bits /\ 0 < bits <= 64
  | TSlice et, VList l => foldr (fun x P => has_type x et /\ P) True l
  | TArray n et, VList l => foldr (fun x P => has_type x et /\ P) True l /\ length l = n
  | TStruct fs, VList l =>
      (fix fields (l : list val) (fs : list (rtype * tags)) : Prop :=
         match fs, l with
         | [], [] => True
         | f :: fs, x :: l => has_type x f.1 /\ fields l fs
         | _, _ => False
         end) l fs
  | TPtr _, VNil => True
  | TPtr et, VPtr x => has_type x et
  | TInterface, VNil => True
  | TInterface, VIface et x => has_type x et
  | _, _ => False
  end.

(** The zero value of a type, which stands for a nil pointer to it. *)
Fixpoint zero_items (t : rtype) (ts : tags) : list item :=
  match t with
  | TRawValue => [Raw []]
  | TBigIntPtr | TBigInt | TUint _ | TBool | TString | TBytes => [Str []]
  | TByteArray n => [Str (replicate n 0)]
  | TSlice _ => if ts.(tail) then [] else [Lst []]
  | TArray n t => [Lst (concat (replicate n (zero_items t no_tags)))]
  | TStruct fs => [Lst (concat (map (fun f => zero_items f.1 f.2) fs))]
  | TPtr t =>
      match t with
      | TByteArray _ => [Str []]
      | TStruct _ | TArray _ _ => [Lst []]
      | _ => zero_items t no_tags
      end
  | TInterface => [Lst []]
  end.

Definition concat_items (l : list (option (list item))) : option (list item) :=
  foldr (fun x acc => a ← x; b ← acc; Some (a ++ b)) (Some []) l.

(** A negative big integer has no items; a tail slice is spliced into the list
    around it. *)
Fixpoint items (v : val) (t : rtype) (ts : tags) {struct v} : option (list item) :=
  match t, v with
  | TRawValue, VBytes b => Some [Raw b]
  | TBigIntPtr, VPtr (VBig i) | TBigInt, VBig i => if i <? 0 then None else Some [Str (Bytes i)]
  | TBigIntPtr, VNil => Some [Str []]
  | TUint _, VUint i => Some [Str (Bytes i)]
  | TBool, VBool b => Some [Str (if b then [1] else [])]
  | TString, VBytes b | TBytes, VBytes b | TByteArray _, VBytes b => Some [Str b]
  | TSlice et, VList l =>
      c ← concat_items (map (fun x => items x et no_tags) l);
      Some (if ts.(tail) then c else [Lst c])
  | TArray _ et, VList l =>
      c ← concat_items (map (fun x => items x et no_tags) l); Some [Lst c]
  | TStruct fs, VList l =>
      c ← (fix fields (l : list val) (fs : list (rtype * tags)) : option (list item) :=
             match fs, l with
             | f :: fs, x :: l => a ← items x f.1 f.2; b ← fields l fs; Some (a ++ b)
             | _, _ => Some []
             end) l fs;
      Some [Lst c]
  | TPtr et, VNil => Some (zero_items (TPtr et) no_tags)
  | TPtr et, VPtr x => items x et no_tags
  | TInterface, VNil => Some [Lst []]
  | TInterface, VIface et x => items x et no_tags
  | _, _ => None
  end.

(** Induction on values, through the lists in them. *)
Section ValInd.
Context (P : val -> Prop).
Context (HBytes : forall b, P (VBytes b)) (HBig : forall z, P (VBig z)) (HUint : forall n, P (VUint n))
  (HBool : forall b, P (VBool b)) (HList : forall l, Forall P l -> P (VList l)) (HNil : P VNil)
  (HPtr : forall v, P v -> P (VPtr v)) (HIface : forall t v, P v -> P (VIface t v)).

Fixpoint val_nested_ind (v : val) : P v :=
  match v with
  | VBytes b => HBytes b
  | VBig z => HBig z
  | VUint n => HUint n
  | VBool b => HBool b
  | VList l => HList l ((fix go (l : list val) : Forall P l :=
                           match l with
                           | [] => List.Forall_nil P
                           | x :: l => @List.Forall_cons _ P x l (val_nested_ind x) (go l)
                           end) l)
  | VNil => HNil
  | VPtr v => HPtr v (val_nested_ind v)
  | VIface t v => HIface t v (val_nested_ind v)
  end.
End ValInd.

(** ** The encode buffer *)

(** What the headers and the string data give from position [p] on. *)
Fixpoint render (s : list Z) (heads : list listhead) (p : nat) : option (list Z) :=
  match heads with
  | [] => cut s p (length s)
  | h :: heads =>
      a ← cut s p h.(offset); b ← render s heads h.(offset); Some (a ++ listhead_encode h ++ b)
  end.

Lemma cut_Some s i j : (i <= j)%nat -> (j <= length s)%nat -> cut s i j = Some (take (j - i) (drop i s)).
Proof.
  intros Hi Hj. unfold cut, slice.
  rewrite (proj2 (Z.leb_le _ _)), (proj2 (Z.leb_le _ _)), (proj2 (Z.leb_le _ _)) by lia. simpl.
  by rewrite <- Nat2Z.inj_sub, !Nat2Z.id by done.
Qed.

Lemma cut_inv s i j a : cut s i j = Some a -> (i <= j <= length s)%nat /\ a = take (j - i) (drop i s).
Proof.
  unfold cut, slice. destruct (_ && _) eqn:E; [|done]. intros [= <-].
  apply andb_true_iff in E as [[_ E1%Z.leb_le]%andb_true_iff E2%Z.leb_le].
  rewrite <- Nat2Z.inj_sub, !Nat2Z.id by lia. split; [lia|done].
Qed.

Lemma cut_earlier s p q j a : (p <= q)%nat -> cut s q j = Some a ->
  cut s p j = Some (take (q - p) (drop p s) ++ a).
Proof.
  intros Hpq [Hj ->]%cut_inv. rewrite cut_Some by lia. f_equal.
  replace (j - p)%nat with ((q - p) + (j - q))%nat by lia.
  rewrite <- take_take_drop, drop_drop. by replace (p + (q - p))%nat with q by lia.
Qed.

Lemma render_earlier s heads p q r : (p <= q)%nat -> render s heads q = Some r ->
  render s heads p = Some (take (q - p) (drop p s) ++ r).
Proof.
  intros Hpq. destruct heads as [|h heads]; cbn [render].
  - by apply cut_earlier.
  - destruct (cut s q (offset h)) as [a|] eqn:Ea; [|done]. cbn [mbind option_bind].
    destruct (render s heads (offset h)) as [b|]; [|done]. intros [= <-].
    rewrite (cut_earlier _ _ _ _ _ Hpq Ea). cbn [mbind option_bind]. by rewrite <- app_assoc.
Qed.

Lemma render_prefix a b heads p r : (p <= length a)%nat -> render (a ++ b) heads (length a) = Some r ->
  render (a ++ b) heads p = Some (drop p a ++ r).
Proof.
  intros Hp Hr. rewrite (render_earlier _ _ _ _ _ Hp Hr). do 2 f_equal.
  rewrite drop_app_le by done. apply take_app_length'. rewrite length_drop. lia.
Qed.

(** The buffer grows by an encoding. *)
Definition grows (w w' : encbuf) (out : list Z) : Prop := exists s hs,
  w'.(str) = w.(str) ++ s /\ w'.(lheads) = w.(lheads) ++ hs /\
  w'.(lhsize) = w.(lhsize) + (Z.of_nat (length out) - Z.of_nat (length s)) /\
  forall s2 hs2 p r, (p <= length w.(str))%nat ->
    render (w'.(str) ++ s2) hs2 (length w'.(str)) = Some r ->
    render (w'.(str) ++ s2) (hs ++ hs2) p = Some (drop p w.(str) ++ out ++ r).

Lemma grows_append w b : grows w (append_str w b) b.
Proof.
  exists b, []. simpl. rewrite app_nil_r. split; [done|]. split; [done|]. split; [lia|].
  intros s2 hs2 p r Hp Hr. pose proof (length_app w.(str) b) as Hl.
  rewrite (render_prefix (w.(str) ++ b) s2 hs2 p r ltac:(lia) Hr).
  by rewrite drop_app_le, <- app_assoc.
Qed.

Lemma grows_refl w : grows w w [].
Proof.
  exists [], []. rewrite !app_nil_r. split; [done|]. split; [done|]. split; [simpl; lia|].
  intros s2 hs2 p r Hp Hr. exact (render_prefix _ _ _ _ _ Hp Hr).
Qed.

Lemma grows_trans w w1 w2 o1 o2 : grows w w1 o1 -> grows w1 w2 o2 -> grows w w2 (o1 ++ o2).
Proof.
  intros (s1 & h1 & S1 & L1 & N1 & R1) (s2 & h2 & S2 & L2 & N2 & R2).
  exists (s1 ++ s2), (h1 ++ h2). split; [by rewrite S2, S1, app_assoc|].
  split; [by rewrite L2, L1, app_assoc|]. split; [rewrite !length_app; lia|].
  intros s3 hs3 p r Hp Hr. specialize (R2 s3 hs3 (length (str w1)) r (Nat.le_refl _) Hr).
  rewrite drop_all in R2. simpl in R2. rewrite S2, <- app_assoc in R2 |- *.
  rewrite <- (app_assoc h1). by rewrite (R1 _ _ p _ Hp R2), <- app_assoc.
Qed.

(** A list: the header put in front once its size is known. *)
Lemma grows_list w w1 w2 lh out : list_ w = (w1, lh) -> grows w1 w2 out ->
  Z.of_nat (length out) < 2 ^ 64 -> exists w3, listEnd w2 lh = Some w3 /\ grows w w3 (enc_lst out).
Proof.
  intros [= <- <-] (s & hs & S2 & L2 & N2 & R2) Hlen. simpl in S2, L2, N2, R2. unfold listEnd.
  rewrite L2, <- app_assoc, lookup_app_r, Nat.sub_diag by done. cbn [app mbind option_bind lookup list_lookup].
  cbn [offset size]. set (sz := encbuf_size w2 - _ - _).
  assert (sz = Z.of_nat (length out)) as Hsz.
  { subst sz. unfold encbuf_size. rewrite S2, N2, length_app. lia. }
  clearbody sz. subst sz. eexists. split; [reflexivity|].
  exists s, ({| offset := length w.(str); size := Z.of_nat (length out) |} :: hs).
  cbn [str lheads lhsize]. split; [done|].
  split; [by rewrite insert_app_r_alt, Nat.sub_diag by done|].
  unfold enc_lst. rewrite length_app, Nat2Z.inj_add, header_length, u64_id by (unfold is_u64; lia).
  split; [destruct (_ <? 56); lia|]. intros s2 hs2 p r Hp Hr.
  specialize (R2 s2 hs2 (length (str w)) r (Nat.le_refl _) Hr). rewrite drop_all in R2. simpl in R2.
  cbn [app render offset]. rewrite R2, S2, <- app_assoc, cut_Some by (rewrite ?length_app; lia).
  cbn [mbind option_bind]. f_equal.
  rewrite drop_app_le, take_app_length' by (rewrite ?length_drop; lia).
  unfold listhead_encode. cbn [size].
  rewrite u64_id, puthead_header by (unfold is_u64; lia). by rewrite <- !app_assoc.
Qed.

(** ** The writers *)
Lemma append_twice w a b : append_str (append_str w a) b = append_str w (a ++ b).
Proof. unfold append_str. simpl. by rewrite app_assoc. Qed.

Lemma encodeStringHeader_header w n : 0 <= n < 2 ^ 64 ->
  encodeStringHeader w n = append_str w (header 0x80 0xB7 n).
Proof.
  intros Hn. rewrite <- (puthead_header 0x80 0xB7) by lia. unfold encodeStringHeader, puthead.
  destruct (Z.ltb_spec n 56); [done|]. by rewrite u64_id by done.
Qed.

Lemma encodeString_enc w b : bytes_ok b -> Z.of_nat (length b) < 2 ^ 64 ->
  encodeString w b = append_str w (enc_str b).
Proof.
  intros Hb Hlen. unfold encodeString, enc_str, single.
  assert (Hh : append_str (encodeStringHeader w (Z.of_nat (length b))) b =
    append_str w (header 128 183 (Z.of_nat (length b)) ++ b)).
  { rewrite encodeStringHeader_header by lia. apply append_twice. }
  destruct b as [|x [|y b]]; [exact Hh| |exact Hh].
  destruct (Z.leb_spec x 0x7F), (Z.ltb_spec x 128); done || lia.
Qed.

Lemma writeUint_enc w i : 0 <= i < 2 ^ 64 -> writeUint w i = append_str w (enc_str (Bytes i)).
Proof.
  intros Hi. unfold writeUint. destruct (Z.eqb_spec i 0) as [->|Hne]; [done|].
  destruct (Z.ltb_spec i 128) as [Hlt|Hge].
  - rewrite (Bytes_minimal 0) by (simpl; lia). cbn [be_bytes app]. unfold u8, enc_str, single.
    rewrite Z.mod_small by lia. by rewrite (proj2 (Z.ltb_lt _ _)).
  - rewrite putint_Bytes by lia. pose proof (Bytes_short i Hi). unfold enc_str.
    assert (Hs : single (Bytes i) = false).
    { destruct (Bytes i) as [|x [|y l]] eqn:E; [done| |done]. simpl.
      pose proof (Bytes_int i) as He. rewrite E in He. change (be_int [x]) with (0 * 256 + x) in He. lia. }
    rewrite Hs. unfold header, u8. rewrite (proj2 (Z.ltb_lt (Z.of_nat (length (Bytes i))) 56)) by lia.
    by rewrite !Z.mod_small by (rewrite ?Z.mod_small; lia).
Qed.

Lemma Bytes_ok i : bytes_ok (Bytes i).
Proof. apply Bytes_range. Qed.

Lemma Bytes_0 : Bytes 0 = [].
Proof. done. Qed.

(** A writer does what it should: it never panics, fails exactly if the value has
    no items, and grows the buffer by the items' encoding if that is of a length
    Go can count. *)
Definition writes (f : encbuf -> write_result) (r : option (list item)) : Prop := forall w,
  match r with
  | Some l => exists w' hs, f w = Ret w' /\ w'.(lheads) = w.(lheads) ++ hs /\
      (Z.of_nat (length (encs l)) < 2 ^ 63 -> grows w w' (encs l))
  | None => f w = Err errNegativeBigInt
  end.

Lemma encs_single i : encs [i] = enc i.
Proof. unfold encs. simpl. apply app_nil_r. Qed.

Lemma writes_append b i : enc i = b -> writes (fun w => Ret (append_str w b)) (Some [i]).
Proof.
  intros <- w. eexists _, []. split; [done|]. rewrite encs_single, app_nil_r. split; [done|].
  intros _. apply grows_append.
Qed.

Lemma encodeString_append w b : exists c, encodeString w b = append_str w c.
Proof.
  unfold encodeString, encodeStringHeader. destruct b as [|x [|y b]]; repeat case_match;
    rewrite ?append_twice; eauto.
Qed.

Lemma writes_string b : bytes_ok b -> writes (fun w => Ret (encodeString w b)) (Some [Str b]).
Proof.
  intros Hb w. eexists _, []. split; [done|]. rewrite encs_single, app_nil_r. simpl. split.
  { by destruct (encodeString_append w b) as [c ->]. }
  intros Hlen. assert (Z.of_nat (length b) <= Z.of_nat (length (enc_str b))).
  { unfold enc_str. destruct (single b); [lia|]. rewrite length_app. lia. }
  rewrite encodeString_enc by (done || lia). apply grows_append.
Qed.

Lemma writes_in_list f l : writes f l -> writes (fun w => in_list w f) ((fun c => [Lst c]) <$> l).
Proof.
  intros Hf w. unfold in_list. destruct (list_ w) as [w1 lh] eqn:El. specialize (Hf w1).
  destruct l as [c|]; cbn [fmap option_fmap option_map]; [|by rewrite Hf].
  destruct Hf as (w2 & hs & -> & Hh & Hg). cbn [mbind outcome_bind].
  assert (lh = length (lheads w) /\ lheads w1 = lheads w ++ [{| offset := length (str w); size := lhsize w |}])
    as [-> Hw1] by (by injection El as <- <-).
  assert (exists w3 h, listEnd w2 (length (lheads w)) = Some w3 /\ lheads w3 = lheads w ++ h :: hs)
    as (w3 & h & He & Hh3).
  { unfold listEnd. rewrite Hh, Hw1, <- app_assoc, lookup_app_r, Nat.sub_diag by done.
    cbn [app mbind option_bind lookup list_lookup]. eexists _, _. split; [done|]. cbn [lheads].
    by rewrite insert_app_r_alt, Nat.sub_diag by done. }
  exists w3, (h :: hs). rewrite He. split; [done|]. split; [done|]. rewrite encs_single. cbn [enc].
  intros Hlen. assert (Z.of_nat (length (encs c)) < 2 ^ 63).
  { unfold enc_lst in Hlen. rewrite length_app in Hlen. unfold encs. lia. }
  destruct (grows_list _ _ _ _ _ El (Hg ltac:(done)) ltac:(lia)) as (w3' & He' & Hg3).
  rewrite He in He'. by injection He' as <-.
Qed.

Lemma writes_ret : writes Ret (Some []).
Proof. intros w. exists w, []. rewrite app_nil_r. split; [done|]. split; [done|]. intros _. apply grows_refl. Qed.

Lemma writes_bind f g a b : writes f a -> writes g b ->
  writes (fun w => f w ≫= g) (a ≫= fun a => b ≫= fun b => Some (a ++ b)).
Proof.
  intros Hf Hg w. specialize (Hf w). destruct a as [a|]; cbn [mbind option_bind]; [|by rewrite Hf].
  destruct Hf as (w1 & h1 & -> & H1 & Hg1). cbn [mbind outcome_bind]. specialize (Hg w1).
  destruct b as [b|]; cbn [mbind option_bind]; [|done].
  destruct Hg as (w2 & h2 & -> & H2 & Hg2). exists w2, (h1 ++ h2).
  rewrite encs_app, length_app. split; [done|]. split; [by rewrite H2, H1, app_assoc|].
  intros Hlen. eapply grows_trans; [apply Hg1|apply Hg2]; lia.
Qed.

Lemma writes_ext f g r : (forall w, f w = g w) -> writes f r -> writes g r.
Proof. intros Hfg Hf w. rewrite <- Hfg. apply Hf. Qed.

(** Loops that write element after element. *)
Lemma foldl_bind {A} (f : A -> encbuf -> write_result) l m :
  foldl (fun m x => m ≫= f x) m l = m ≫= fun w => foldl (fun m x => m ≫= f x) (Ret w) l.
Proof.
  revert m. induction l as [|x l IH]; intros m; simpl; [by destruct m|].
  rewrite IH. destruct m as [w| |]; simpl; [|done|done]. by rewrite (IH (f x w)).
Qed.

Lemma writes_fold {A} (f : A -> encbuf -> write_result) (g : A -> option (list item)) l :
  Forall (fun x => writes (f x) (g x)) l ->
  writes (fun w => foldl (fun m x => m ≫= f x) (Ret w) l) (concat_items (map g l)).
Proof.
  induction 1 as [|x l Hx Hl IH]; [apply writes_ret|]. simpl.
  eapply writes_ext; [|apply (writes_bind _ _ _ _ Hx IH)]. intros w. simpl. by rewrite (foldl_bind f l).
Qed.

Lemma concat_items_Some l : concat_items (map Some l) = Some (concat l).
Proof. unfold concat_items. induction l as [|x l IH]; [done|]. simpl. by rewrite IH. Qed.

(** Induction on types, through the fields of structs. *)
Section TypeInd.
Context (P : rtype -> Prop) (Hleaf : forall t, match t with TSlice _ | TArray _ _ | TStruct _ | TPtr _ => True
  | _ => P t end).
Context (HSlice : forall t, P t -> P (TSlice t)) (HArray : forall n t, P t -> P (TArray n t))
  (HStruct : forall fs, Forall (fun f => P f.1) fs -> P (TStruct fs)) (HPtr : forall t, P t -> P (TPtr t)).

Fixpoint rtype_nested_ind (t : rtype) : P t :=
  match t with
  | TSlice t => HSlice t (rtype_nested_ind t)
  | TArray n t => HArray n t (rtype_nested_ind t)
  | TStruct fs => HStruct fs
      ((fix go (l : list (rtype * tags)) : Forall (fun f => P f.1) l :=
          match l with
          | [] => List.Forall_nil _
          | f :: l => @List.Forall_cons _ (fun f => P f.1) f l (rtype_nested_ind f.1) (go l)
          end) fs)
  | TPtr t => HPtr t (rtype_nested_ind t)
  | TRawValue => Hleaf TRawValue | TBigIntPtr => Hleaf TBigIntPtr | TBigInt => Hleaf TBigInt
  | TUint b => Hleaf (TUint b) | TBool => Hleaf TBool | TString => Hleaf TString | TBytes => Hleaf TBytes
  | TByteArray n => Hleaf (TByteArray n) | TInterface => Hleaf TInterface
  end.
End TypeInd.

Lemma bytes_ok_zeros n : bytes_ok (replicate n 0).
Proof. apply Forall_replicate. lia. Qed.

Lemma write_zero_writes t : forall ts, writes (write_zero t ts) (Some (zero_items t ts)).
Proof.
  revert t. refine (rtype_nested_ind _ _ _ _ _ _); [intros t|intros t IH ts|intros n t IH ts|intros fs IH ts|intros t IH ts].
  - destruct t; try done; intros ts; cbn [write_zero zero_items].
    + intros w. exists w, []. rewrite app_nil_r. split; [done|]. split; [done|].
      intros _. rewrite encs_single. apply grows_refl.
    + by apply (writes_append _ (Str [])).
    + by apply (writes_append _ (Str [])).
    + by apply (writes_append _ (Str [])).
    + by apply (writes_append _ (Str [])).
    + apply writes_string. constructor.
    + apply writes_string. constructor.
    + apply writes_string, bytes_ok_zeros.
    + by apply (writes_append _ (Lst [])).
  - cbn [write_zero zero_items]. destruct (tail ts); [apply writes_ret|].
    apply (writes_in_list _ (Some [])), writes_ret.
  - cbn [write_zero zero_items].
    apply (writes_in_list _ (Some _)). rewrite <- concat_items_Some.
    eapply writes_ext; [|apply (writes_fold (fun _ => write_zero t no_tags) Some); by apply Forall_replicate].
    intros w. unfold compose. generalize (Ret w : write_result). induction n as [|n IHn]; intros m; [done|].
    cbn [replicate foldl]. rewrite IHn. apply Nat.iter_swap.
  - cbn [write_zero zero_items].
    apply (writes_in_list _ (Some _)). rewrite <- concat_items_Some, map_map.
    apply (writes_fold (fun f => write_zero f.1 f.2)). eapply Forall_impl; [exact IH|]. intros f Hf. apply Hf.
  - cbn [write_zero zero_items]. destruct t; try apply IH.
    + by apply (writes_append _ (Str [])).
    + apply (writes_in_list _ (Some [])), writes_ret.
    + apply (writes_in_list _ (Some [])), writes_ret.
Qed.

Lemma writes_bigint i : writes (fun w => writeBigInt w i) (if i <? 0 then None else Some [Str (Bytes i)]).
Proof.
  unfold writeBigInt. destruct (i <? 0); [done|]. destruct (Z.eqb_spec i 0) as [->|Hne].
  - by apply (writes_append _ (Str [])).
  - apply writes_string, Bytes_ok.
Qed.

Lemma foldr_Forall {A} (P : A -> Prop) l : foldr (fun x Q => P x /\ Q) True l <-> Forall P l.
Proof. induction l as [|x l IH]; simpl; [done|]. by rewrite Forall_cons, IH. Qed.

Lemma has_type_elems P l et : Forall (fun v => forall t ts, has_type v t -> P v t ts) l ->
  foldr (fun x Q => has_type x et /\ Q) True l -> Forall (fun x => P x et no_tags) l.
Proof.
  rewrite foldr_Forall. intros IH Hl. induction l as [|x l IHl]; [constructor|].
  apply Forall_cons in IH as [Hx IH], Hl as [Hxt Hl]. constructor; [by apply Hx|by apply IHl].
Qed.

Lemma writes_elems l et :
  Forall (fun v => forall t ts, has_type v t -> writes (write v t ts) (items v t ts)) l ->
  foldr (fun x Q => has_type x et /\ Q) True l ->
  writes (fun w => foldl (fun m x => m ≫= write x et no_tags) (Ret w) l)
    (concat_items (map (fun x => items x et no_tags) l)).
Proof.
  intros IH Hl. apply (writes_fold (fun x => write x et no_tags)).
  by apply (has_type_elems (fun v t ts => writes (write v t ts) (items v t ts))).
Qed.

Lemma write_writes v : forall t ts, has_type v t -> writes (write v t ts) (items v t ts).
Proof.
  induction v as [b|z|n|b|l IH| |v IH|t' v IH] using val_nested_ind; intros t ts Ht;
    destruct t; try done; cbn [write items has_type] in *.
  - (* a raw value *) by apply (writes_append _ (Raw b)).
  - by apply writes_string.
  - by apply writes_string.
  - by apply writes_string, Ht.
  - apply writes_bigint.
  - destruct Ht as [[Hn Hlt] Hb]. assert (2 ^ bits <= 2 ^ 64) by (apply Z.pow_le_mono_r; lia).
    eapply writes_ext; [intros w; by rewrite writeUint_enc by lia|]. by apply writes_append.
  - unfold writeBool. destruct b; by apply writes_append.
  - (* a slice *) eapply writes_elems in IH; [|exact Ht]. destruct (tail ts).
    + by destruct (concat_items _).
    + apply writes_in_list in IH. by destruct (concat_items _).
  - (* an array *) eapply writes_elems in IH; [|apply Ht]. apply writes_in_list in IH.
    by destruct (concat_items _).
  - (* a struct *)
    match goal with |- writes (fun w => in_list w ?f) (?r ≫= _) => enough (writes f r) as Hw end.
    { apply writes_in_list in Hw. match goal with |- writes _ (?r ≫= _) => by destruct r end. }
    revert fields Ht. induction IH as [|x l Hx _ IHl]; intros [|[t ts'] fs] Ht; try done.
    + apply writes_ret.
    + destruct Ht as [Hxt Ht]. apply (writes_bind _ _ _ _ (Hx _ ts' Hxt) (IHl _ Ht)).
  - (* nil pointers *) by apply (writes_append _ (Str [])).
  - apply (write_zero_writes (TPtr t)).
  - by apply (writes_append _ (Lst [])).
  - destruct v; try done. apply writes_bigint.
  - by apply IH.
  - by apply IH.
Qed.

(** ** Getting the bytes out *)
Lemma copy_out_fits l k (b : list Z) : (length b <= k)%nat ->
  copy_out (l ++ replicate k 0) (length l) b = Some (l ++ b ++ replicate (k - length b) 0, length b).
Proof.
  intros Hb. unfold copy_out. rewrite length_app, length_replicate.
  rewrite (proj2 (Nat.ltb_ge _ _)) by lia. rewrite (take_ge b) by lia. do 2 f_equal.
  rewrite take_app_length. f_equal. f_equal. rewrite drop_app_add. apply drop_replicate.
Qed.

Lemma put_out_fits l k (b : list Z) : (length b <= k)%nat ->
  put_out (l ++ replicate k 0) (length l) b = Some (l ++ b ++ replicate (k - length b) 0).
Proof.
  intros Hb. unfold put_out. rewrite length_app, length_replicate.
  rewrite (proj2 (Nat.leb_le _ _)) by lia. f_equal.
  rewrite take_app_length. f_equal. f_equal. rewrite drop_app_add. apply drop_replicate.
Qed.

Lemma toBytes_loop_spec s heads : forall strpos l r, render s heads strpos = Some r ->
  exists sp l' p, toBytes_loop s heads strpos (length l) (l ++ replicate (length r) 0) =
    Some (sp, length l', l' ++ replicate (length p) 0) /\
    cut s sp (length s) = Some p /\ l' ++ p = l ++ r.
Proof.
  induction heads as [|h heads IH]; intros strpos l r Hr; cbn [render toBytes_loop] in *.
  - by exists strpos, l, r.
  - destruct (cut s strpos (offset h)) as [a|] eqn:Ea; [|done].
    destruct (render s heads (offset h)) as [b|] eqn:Eb; [|done]. injection Hr as <-.
    cbn [mbind option_bind]. rewrite copy_out_fits by (rewrite length_app; lia). cbn [mbind option_bind].
    assert (strpos + length a = offset h)%nat as ->.
    { apply cut_inv in Ea as [? ->]. rewrite length_take, length_drop. lia. }
    rewrite !length_app. replace (length a + _ - length a)%nat with
      (length (listhead_encode h) + length b)%nat by lia.
    rewrite app_assoc, <- (length_app l a), put_out_fits by lia. cbn [mbind option_bind].
    replace (_ + length b - _)%nat with (length b) by lia. rewrite app_assoc, <- length_app.
    destruct (IH (offset h) ((l ++ a) ++ listhead_encode h) b Eb) as (sp & l' & p & -> & Hc & Hl).
    exists sp, l', p. split; [done|]. split; [done|]. rewrite Hl. by rewrite <- !app_assoc.
Qed.

Lemma toBytes_render w r : render w.(str) w.(lheads) 0 = Some r ->
  encbuf_size w = Z.of_nat (length r) -> toBytes w = Some r.
Proof.
  intros Hr Hn. unfold toBytes. rewrite Hn, Nat2Z.id.
  destruct (toBytes_loop_spec _ _ 0 [] r Hr) as (sp & l & p & Hl & Hc & He). cbn [app length] in *.
  rewrite Hl. cbn [mbind option_bind]. rewrite Hc. cbn [mbind option_bind].
  rewrite copy_out_fits by lia. cbn [mbind option_bind]. by rewrite Nat.sub_diag, app_nil_r, He.
Qed.

(** A writer that takes all it is given, like a [bytes.Buffer]. *)
Definition buffer_Write (out b : list Z) : list Z * nat * option rlp_error := (out ++ b, length b, None).

Lemma toWriter_loop_spec s heads : forall strpos out r, render s heads strpos = Some r ->
  exists out' sp p, toWriter_loop buffer_Write s heads strpos out = Some (out', sp, None) /\
    cut s sp (length s) = Some p /\ out' ++ p = out ++ r.
Proof.
  induction heads as [|h heads IH]; intros strpos out r Hr; cbn [render toWriter_loop] in *.
  - by exists out, strpos, r.
  - destruct (cut s strpos (offset h)) as [a|] eqn:Ea; [|done].
    destruct (render s heads (offset h)) as [b|] eqn:Eb; [|done]. injection Hr as <-.
    assert (strpos + length a = offset h)%nat as Hp.
    { apply cut_inv in Ea as [? ->]. rewrite length_take, length_drop. lia. }
    cbn [mbind option_bind]. replace (match a with [] => _ | _ => _ end) with
      (out ++ a, length a, @None rlp_error) by (destruct a; [by rewrite app_nil_r|done]).
    unfold buffer_Write at 1. rewrite Hp.
    destruct (IH _ ((out ++ a) ++ listhead_encode h) b Eb) as (out' & sp & p & -> & Hc & He).
    exists out', sp, p. split; [done|]. split; [done|]. rewrite He. by rewrite <- !app_assoc.
Qed.

Lemma toWriter_render w r out : render w.(str) w.(lheads) 0 = Some r ->
  toWriter buffer_Write w out = Some (out ++ r, None).
Proof.
  intros Hr. unfold toWriter.
  destruct (toWriter_loop_spec _ _ 0 out r Hr) as (out' & sp & p & -> & Hc & He). cbn [mbind option_bind].
  rewrite <- He. apply cut_inv in Hc as [Hb ->]. rewrite take_ge by (rewrite length_drop; lia).
  destruct (Nat.ltb_spec sp (length (str w))); [done|]. by rewrite drop_ge, app_nil_r by lia.
Qed.

(** What a reader still has to give, and the pieces it gives it in. *)
Definition to_read (r : encReader) : option (list Z) :=
  match r.(buf) with
  | None => Some []
  | Some w =>
      rest ← render w.(str) (drop r.(lhpos) w.(lheads)) r.(strpos);
      Some (default [] r.(piece) ++ rest)
  end.

Lemma next_spec r b : to_read r = Some b -> exists r' p, next r = Some (r', p) /\
  match p with
  | None => b = []
  | Some p => r'.(buf) = r.(buf) /\ exists rest,
      to_read {| buf := r'.(buf); lhpos := r'.(lhpos); strpos := r'.(strpos); piece := None |} = Some rest /\
      b = p ++ rest
  end.
Proof.
  destruct r as [[w|] lp sp [p|]]; unfold to_read, next; cbn [buf piece lhpos strpos default]; intros Hb.
  - destruct (render _ _ sp) as [rest|] eqn:Er; [|done]. injection Hb as <-. eexists _, _.
    split; [done|]. split; [done|]. exists rest. cbn [buf lhpos strpos piece]. by rewrite Er.
  - destruct (lheads w !! lp) as [h|] eqn:Eh.
    + rewrite (drop_S _ _ _ Eh) in Hb. cbn [render] in Hb.
      destruct (cut (str w) sp (offset h)) as [a|] eqn:Ea; [|done]. pose proof (cut_inv _ _ _ _ Ea) as [Hs Ha].
      destruct (render (str w) _ (offset h)) as [c|] eqn:Ec; [|done]. injection Hb as <-.
      destruct (Nat.ltb_spec sp (offset h)) as [Hlt|Hge].
      * eexists _, _. split; [done|]. split; [done|]. exists (listhead_encode h ++ c).
        cbn [buf lhpos strpos piece]. rewrite (drop_S _ _ _ Eh). cbn [render].
        by rewrite cut_Some, Nat.sub_diag, Ec by lia.
      * eexists _, _. split; [done|]. split; [done|]. exists c. cbn [buf lhpos strpos piece].
        replace sp with (offset h) by lia. rewrite Ec. split; [done|].
        rewrite Ha, (proj2 (Nat.sub_0_le _ _)) by lia. done.
    + rewrite drop_ge in Hb by (by apply lookup_ge_None). cbn [render] in Hb.
      destruct (cut _ sp _) as [a|] eqn:Ea; [|done]. injection Hb as <-.
      apply cut_inv in Ea as [Hs ->]. rewrite take_ge by (rewrite length_drop; lia).
      destruct (Nat.ltb_spec sp (length (str w))) as [Hlt|Hge].
      * eexists _, _. split; [done|]. split; [done|]. exists []. cbn [buf lhpos strpos piece].
        rewrite drop_ge by (by apply lookup_ge_None). cbn [render]. rewrite cut_Some, Nat.sub_diag by lia.
        split; [done|]. by rewrite app_nil_r.
      * eexists _, None. split; [done|]. by rewrite drop_ge by lia.
  - eexists _, None. split; [done|]. by injection Hb.
  - eexists _, None. split; [done|]. by injection Hb.
Qed.

Lemma puthead_nonempty a b c : puthead a b c <> [].
Proof. unfold puthead. by case_match. Qed.

Lemma next_nonempty r r' : next r = Some (r', Some []) -> r.(piece) = Some [].
Proof.
  unfold next. destruct r as [[w|] lp sp [q|]]; cbn [buf piece lhpos strpos]; try congruence.
  destruct (lheads w !! lp) as [h|].
  - destruct (Nat.ltb_spec sp (offset h)) as [Hlt|Hge].
    + destruct (cut (str w) sp (offset h)) as [a|] eqn:Ea; cbn [mbind option_bind]; [|congruence].
      intros [= _ ->]. apply cut_inv in Ea as [Hs Ha]. apply (f_equal length) in Ha.
      rewrite length_take, length_drop in Ha. simpl in Ha. lia.
    + intros He. assert (listhead_encode h = []) as Hn by congruence. by apply puthead_nonempty in Hn.
  - destruct (Nat.ltb_spec sp (length (str w))) as [Hlt|Hge]; [|congruence]. intros He.
    assert (drop sp (str w) = []) as Hn by congruence.
    apply (f_equal length) in Hn. rewrite length_drop in Hn. simpl in Hn. lia.
Qed.

(** [Read] gives the next [n] bytes, and the end if there are no more. *)
Lemma Read_loop_spec fuel : forall r b n, to_read r = Some b -> r.(piece) <> Some [] ->
  (length b < fuel)%nat -> exists r', Read_loop fuel r n = Some (r', take n b, bool_decide (length b <= n)%nat) /\
    to_read r' = Some (drop n b) /\ r'.(piece) <> Some [].
Proof.
  induction fuel as [|fuel IH]; intros r b n Hr Hp Hlen; [lia|]. cbn [Read_loop].
  destruct (next_spec r b Hr) as (r1 & p & Hn & Hspec). rewrite Hn. cbn [mbind option_bind].
  destruct p as [p|].
  - destruct Hspec as (Hbuf & rest & Hrest & ->).
    assert (p <> []) as Hne.
    { intros ->. by apply Hp, (next_nonempty _ _ Hn). }
    assert (0 < length p)%nat by (destruct p; [done|simpl; lia]).
    rewrite length_app in *. rewrite length_take.
    destruct (Nat.ltb_spec (n `min` length p) (length p)) as [Hlt|Hge].
    + rewrite Nat.min_l by lia. eexists. split; [rewrite bool_decide_eq_false_2 by lia; do 2 f_equal|].
      { by rewrite take_app_le by lia. }
      cbn [to_read buf lhpos strpos piece] in *. split.
      * unfold to_read in *. cbn [buf lhpos strpos piece default] in *.
        destruct (buf r1) as [w|]; [|exfalso].
        { destruct (render _ _ _) as [rr|]; [|done]. injection Hrest as <-. cbn [mbind option_bind].
          by rewrite drop_app_le by lia. }
        revert Hn Hbuf. clear. unfold next. destruct r as [[w|] lp sp [q|]]; cbn; congruence.
      * intros [= He]. apply (f_equal length) in He. rewrite length_drop in He. simpl in He. lia.
    + rewrite Nat.min_r by lia.
      destruct (IH _ rest (n - length p)%nat Hrest) as (r' & -> & Hr' & Hp'); [done|lia|].
      exists r'. cbn [mbind option_bind]. split; [|split; [|done]].
      * rewrite take_ge by lia. do 2 f_equal; [f_equal; by rewrite take_app_ge by lia|].
        apply bool_decide_ext. lia.
      * rewrite Hr', drop_app_ge by lia. done.
  - subst b. rewrite take_nil, drop_nil, bool_decide_eq_true_2 by (simpl; lia).
    eexists. split; [reflexivity|]. done.
Qed.

(** ** Encoding *)
Lemma encode_grows v t l : has_type v t -> items v t no_tags = Some l ->
  Z.of_nat (length (encs l)) < 2 ^ 63 ->
  exists w, write v t no_tags new_encbuf = Ret w /\ render w.(str) w.(lheads) 0 = Some (encs l) /\
    encbuf_size w = Z.of_nat (length (encs l)).
Proof.
  intros Ht Hl Hlen. pose proof (write_writes v t no_tags Ht new_encbuf) as Hw. rewrite Hl in Hw.
  destruct Hw as (w & hs & -> & _ & Hg). exists w. split; [done|].
  destruct (Hg Hlen) as (s & hs' & S & L & N & R). simpl in S, L, N. subst s hs'. split.
  - specialize (R [] [] 0%nat [] (Nat.le_refl _)). rewrite !app_nil_r in R. apply R.
    cbn [render]. by rewrite cut_Some, Nat.sub_diag by lia.
  - unfold encbuf_size. lia.
Qed.
