(* ===== verification/RlpDecode.v ===== *)
(** * RLP: the stream reads what the encoder wrote

    A stream between two values is [at_ i st]: the bytes left and the lists it is
    inside of.  A decoder [reads] an encoding when it takes exactly these bytes
    and gives the value back; the lemmas go from single reads over [Kind] to
    lists and, by induction on the value, to every decoder. *)
From Stdlib Require Import ZArith Lia.
From S2P Require Import Prelude Word Rlp RlpSpec RlpStream.
Import Big.
Open Scope Z_scope.

(** ** Streams *)
Definition mk (i : list Z) (st : list listpos) (k : option Kind) (n x : Z) (e : option rlp_error) : Stream :=
  {| input := i; remaining := Z.of_nat (length i); limited := true; kind := k; ssize := n;
     byteval := x; kinderr := e; stack := st |}.

(** The innermost list has room for [n] more bytes. *)
Definition room (st : list listpos) (n : Z) : Prop :=
  match st with
  | [] => True
  | tos :: _ => 0 <= tos.(pos) /\ tos.(pos) + n <= tos.(lsize) < 2 ^ 64
  end.

Definition advance (st : list listpos) (n : Z) : list listpos :=
  match st with
  | [] => []
  | tos :: st => {| pos := tos.(pos) + n; lsize := tos.(lsize) |} :: st
  end.

Abbreviation len b := (Z.of_nat (length b)).

Lemma room_less st n m : room st m -> n <= m -> room st n.
Proof. destruct st as [|[p l] st]; simpl; [done|lia]. Qed.

Lemma room_advance st n m : 0 <= n -> room st (n + m) -> room (advance st n) m.
Proof. destruct st as [|[p l] st]; simpl; [done|lia]. Qed.

Lemma advance_add st n m : advance (advance st n) m = advance st (n + m).
Proof. destruct st as [|[p l] st]; simpl; [done|]. by rewrite Z.add_assoc. Qed.

Lemma advance_0 st : advance st 0 = st.
Proof. destruct st as [|[p l] st]; simpl; [done|]. by rewrite Z.add_0_r. Qed.

Lemma willRead_ok i st k n x e m : 0 <= m <= len i -> room st m ->
  willRead m (mk i st k n x e) =
    Some ({| input := i; remaining := len i - m; limited := true; kind := None; ssize := n;
             byteval := x; kinderr := e; stack := advance st m |}, inl tt).
Proof.
  intros Hm Hr. unfold willRead. cbv [mbind SM_bind upd get err mret SM_ret rearm set_kind mk].
  cbn [stack kind ssize byteval kinderr input remaining limited]. destruct st as [|[p l] st]; simpl in Hr.
  - cbn [input remaining limited]. by rewrite (proj2 (Z.ltb_ge _ _)) by lia.
  - cbn [pos lsize]. rewrite u64_id by (unfold is_u64; lia). rewrite (proj2 (Z.ltb_ge _ _)) by lia.
    cbn [remaining limited set_stack]. rewrite (proj2 (Z.ltb_ge _ _)) by lia.
    unfold set_input. cbn. by rewrite u64_id by (unfold is_u64; lia).
Qed.

Lemma readFull_ok b rest st k n x e : room st (len b) ->
  readFull (len b) (mk (b ++ rest) st k n x e) =
    Some (mk rest (advance st (len b)) None n x e, inl b).
Proof.
  intros Hr. unfold readFull. cbv [mbind SM_bind]. rewrite willRead_ok by (rewrite ?length_app; lia || done).
  cbv [get upd err mret SM_ret set_input]. cbn [input remaining limited kind ssize byteval kinderr stack].
  rewrite Nat2Z.id, take_app_length, drop_app_length, Nat.ltb_irrefl. unfold mk. do 3 f_equal.
  rewrite length_app. lia.
Qed.

Lemma readByte_ok b rest st k n x e : room st 1 ->
  readByte (mk (b :: rest) st k n x e) = Some (mk rest (advance st 1) None n x e, inl b).
Proof.
  intros Hr. unfold readByte. cbv [mbind SM_bind]. rewrite willRead_ok by (cbn [length]; lia || done).
  cbv [get upd err mret SM_ret set_input]. cbn [input remaining limited kind ssize byteval kinderr stack].
  unfold mk. do 3 f_equal. cbn [length]. lia.
Qed.

(** Minimal big-endian bytes of a positive number, as [readUint] checks them. *)
Lemma readUint_ok z rest st k n x e : 0 < z -> room st (len (Bytes z)) ->
  readUint (len (Bytes z)) (mk (Bytes z ++ rest) st k n x e) =
    Some (mk rest (advance st (len (Bytes z))) None n x e, inl z).
Proof.
  intros Hz Hr. destruct (Bytes_head z Hz) as (b & bs & Hb & Hb0).
  pose proof (Bytes_int z) as Hi. rewrite Z.abs_eq in Hi by lia.
  unfold readUint. rewrite Hb in *. rewrite (proj2 (Z.eqb_neq _ 0)) by (cbn [length]; lia).
  destruct (Z.eqb_spec (len (b :: bs)) 1) as [E|E].
  - destruct bs; [|cbn [length] in E; lia]. cbn [app]. rewrite readByte_ok by done. by rewrite <- Hi.
  - cbv [mbind SM_bind]. rewrite readFull_ok by done. rewrite <- Hi. destruct b; [lia|done|lia].
Qed.

(** ** Kind *)
Definition small (k : Kind) : Z := match k with List => 0xC0 | _ => 0x80 end.
Definition large (k : Kind) : Z := match k with List => 0xF7 | _ => 0xB7 end.
Definition hdr (k : Kind) (n : Z) : list Z := header (small k) (large k) n.

Lemma len_hdr k n : 0 <= n < 2 ^ 64 -> 1 <= len (hdr k n) <= 9.
Proof.
  intros Hn. unfold hdr, header. case_match; cbn [length]; [lia|]. pose proof (Bytes_short n Hn). lia.
Qed.

Lemma readKind_hdr k m rest st n x e : k <> Byte -> 0 <= m < 2 ^ 64 -> room st (len (hdr k m)) ->
  readKind (mk (hdr k m ++ rest) st None n x e) =
    Some (mk rest (advance st (len (hdr k m))) None n 0 e, inl (k, m, None)).
Proof.
  intros Hk Hm Hr. unfold readKind. unfold hdr, header in *. destruct (Z.ltb_spec m 56) as [Hlt|Hge].
  - cbv [mbind SM_bind try]. cbn [app]. rewrite readByte_ok by done. cbv [upd]. unfold set_kind, mk.
    cbn [input remaining limited kind ssize byteval kinderr stack length].
    destruct k; [done|..]; unfold small in *.
    + rewrite (proj2 (Z.ltb_ge _ 0x80)), (proj2 (Z.ltb_lt _ 0xB8)) by lia.
      cbv [mret SM_ret]. unfold u8. rewrite Z.mod_small by lia. by replace (128 + m - 128) with m by lia.
    + rewrite (proj2 (Z.ltb_ge _ 0x80)), (proj2 (Z.ltb_ge _ 0xB8)), (proj2 (Z.ltb_ge _ 0xC0)),
        (proj2 (Z.ltb_lt _ 0xF8)) by lia.
      cbv [mret SM_ret]. unfold u8. rewrite Z.mod_small by lia. by replace (192 + m - 192) with m by lia.
  - pose proof (Bytes_short m Hm). destruct (Bytes_head m ltac:(lia)) as (b & bs & Hb & _).
    assert (1 <= len (Bytes m)) by (rewrite Hb; cbn [length]; lia). clear b bs Hb.
    assert (readKind_sized k (len (Bytes m))
              (mk (Bytes m ++ rest) (advance st 1) None n 0 e) =
            Some (mk rest (advance st (len ((large k + len (Bytes m)) :: Bytes m))) None n 0 e,
                  inl (k, m, None))) as Hs.
    { unfold readKind_sized. cbv [mbind SM_bind try]. cbn [length] in *.
      rewrite readUint_ok by (lia || (apply room_advance; [lia|]; eapply room_less; [exact Hr|lia])).
      cbv [mret SM_ret]. rewrite (proj2 (Z.ltb_ge m 56)) by lia. rewrite advance_add.
      by replace (1 + len (Bytes m)) with (Z.of_nat (S (length (Bytes m)))) by lia. }
    cbv [mbind SM_bind try]. cbn [app].
    rewrite readByte_ok by (eapply room_less; [exact Hr|cbn [length]; lia]).
    cbv [upd]. unfold set_kind. unfold mk at 1 2 3 4 5. cbn [input remaining limited kind ssize byteval kinderr stack].
    destruct k; [done|..]; unfold large in *.
    + rewrite (proj2 (Z.ltb_ge _ 0x80)), (proj2 (Z.ltb_ge _ 0xB8)), (proj2 (Z.ltb_lt _ 0xC0)) by lia.
      unfold u8. rewrite Z.mod_small by lia. replace (183 + len (Bytes m) - 183) with (len (Bytes m)) by lia.
      apply Hs.
    + rewrite (proj2 (Z.ltb_ge _ 0x80)), (proj2 (Z.ltb_ge _ 0xB8)), (proj2 (Z.ltb_ge _ 0xC0)),
        (proj2 (Z.ltb_ge _ 0xF8)) by lia.
      unfold u8. rewrite Z.mod_small by lia. replace (247 + len (Bytes m) - 247) with (len (Bytes m)) by lia.
      apply Hs.
Qed.

Lemma room_not_end st m : room st m -> 0 < m ->
  match st with tos :: _ => (tos.(pos) =? tos.(lsize)) = false | [] => True end.
Proof. destruct st as [|[p l] st]; simpl; [done|]. intros. apply Z.eqb_neq. lia. Qed.

Lemma Kind_hdr k c rest st n x e : k <> Byte -> len c < 2 ^ 64 -> room st (len (hdr k (len c)) + len c) ->
  Stream_Kind (mk (hdr k (len c) ++ c ++ rest) st None n x e) =
    Some (mk (c ++ rest) (advance st (len (hdr k (len c)))) (Some k) (len c) 0 None, inl (k, len c)).
Proof.
  intros Hk Hc Hr. pose proof (len_hdr k (len c) ltac:(lia)) as Hh.
  pose proof (room_not_end _ _ Hr ltac:(lia)) as Hend. unfold Stream_Kind.
  cbv [mbind SM_bind get upd mret SM_ret]. unfold mk at 1 2. cbn [kind stack set_kind].
  replace (match st with [] => _ | _ => _ end) with (@mret SM _ unit tt)
    by (destruct st; [done|by rewrite Hend]).
  cbv [mret SM_ret]. change (set_kind (mk ?i ?s None ?n ?x ?e) (kind _) _ _ None) with (mk i s None n x None).
  rewrite readKind_hdr by (lia || done || (eapply room_less; [exact Hr|lia])).
  unfold set_kind, mk. cbn [input remaining limited kind ssize byteval kinderr stack].
  assert (match advance st (len (hdr k (len c))) with
          | [] => if true && (len (c ++ rest) <? len c) then Some ErrValueTooLarge else None
          | tos :: _ => if u64 (lsize tos - pos tos) <? len c then Some ErrElemTooLarge else None
          end = None) as ->; [|done].
  destruct st as [|[p l] st]; cbn [advance andb pos lsize].
  - by rewrite (proj2 (Z.ltb_ge _ _)) by (rewrite length_app; lia).
  - simpl in Hr. rewrite u64_id by (unfold is_u64; lia). by rewrite (proj2 (Z.ltb_ge _ _)) by lia.
Qed.

Lemma Kind_byte b rest st n x e : 0 <= b < 128 -> room st 1 ->
  Stream_Kind (mk (b :: rest) st None n x e) =
    Some (mk rest (advance st 1) (Some Byte) 0 b None, inl (Byte, 0)).
Proof.
  intros Hb Hr. pose proof (room_not_end _ _ Hr ltac:(lia)) as Hend. unfold Stream_Kind.
  cbv [mbind SM_bind get upd mret SM_ret]. unfold mk at 1 2. cbn [kind stack set_kind].
  replace (match st with [] => _ | _ => _ end) with (@mret SM _ unit tt)
    by (destruct st; [done|by rewrite Hend]).
  cbv [mret SM_ret]. change (set_kind (mk ?i ?s None ?n ?x ?e) (kind _) _ _ None) with (mk i s None n x None).
  unfold readKind. cbv [mbind SM_bind try upd mret SM_ret]. rewrite readByte_ok by done.
  rewrite (proj2 (Z.ltb_lt b 128)) by lia.
  unfold set_kind, mk. cbn [input remaining limited kind ssize byteval kinderr stack].
  assert (match advance st 1 with
          | [] => if true && (len rest <? 0) then Some ErrValueTooLarge else None
          | tos :: _ => if u64 (lsize tos - pos tos) <? 0 then Some ErrElemTooLarge else None
          end = None) as ->; [|done].
  destruct st as [|[p l] st]; cbn [advance andb pos lsize].
  - by rewrite (proj2 (Z.ltb_ge _ _)) by lia.
  - by rewrite (proj2 (Z.ltb_ge _ _)) by apply u64_range.
Qed.

(** Asked again, a stream gives the same answer. *)
Lemma Kind_again s s' r : Stream_Kind s = Some (s', inl r) -> Stream_Kind s' = Some (s', inl r).
Proof.
  unfold Stream_Kind. cbv [mbind SM_bind get upd mret SM_ret err stuck].
  match goal with |- match ?m with _ => _ end = _ -> _ => destruct m as [[s1 [u|er]]|] end; try congruence.
  destruct (kinderr s1) eqn:E1; [congruence|]. destruct (kind s1) eqn:E2; [|congruence].
  intros [= <- <-]. by rewrite E2, E1, E2.
Qed.

(** At the end of a list there is no kind. *)
Lemma Kind_end i p st n x e :
  Stream_Kind (mk i ({| pos := p; lsize := p |} :: st) None n x e) =
    Some (mk i ({| pos := p; lsize := p |} :: st) None n x None, inr EOL).
Proof.
  unfold Stream_Kind. cbv [mbind SM_bind get upd mret SM_ret err]. unfold mk. cbn [kind stack set_kind pos lsize].
  by rewrite Z.eqb_refl.
Qed.

(** ** Decoders *)
Definition reads {A} (m : SM A) (b : list Z) (v : A) : Prop := forall rest st n x e,
  len b < 2 ^ 64 -> room st (len b) -> exists n' x' e',
  m (mk (b ++ rest) st None n x e) = Some (mk rest (advance st (len b)) None n' x' e', inl v).

(** It reads all that is left of the innermost list. *)
Definition closes {A} (m : SM A) (b : list Z) (v : A) : Prop := forall rest st p n x e,
  0 <= p -> p + len b < 2 ^ 64 -> exists n' x' e',
  m (mk (b ++ rest) ({| pos := p; lsize := p + len b |} :: st) None n x e) =
    Some (mk rest ({| pos := p + len b; lsize := p + len b |} :: st) None n' x' e', inl v).

(** At the end of a list it says so. *)
Definition ends_list {A} (m : SM A) : Prop := forall i p st n x e,
  exists n' x' e', m (mk i ({| pos := p; lsize := p |} :: st) None n x e) =
    Some (mk i ({| pos := p; lsize := p |} :: st) None n' x' e', inr EOL).

Lemma reads_closes {A} (m : SM A) b v : reads m b v -> closes m b v.
Proof.
  intros Hm rest st p n x e Hp Hb. destruct (Hm rest ({| pos := p; lsize := p + len b |} :: st) n x e)
    as (n' & x' & e' & ->); [lia|simpl; lia|]. by exists n', x', e'.
Qed.

Lemma reads_ret {A B} (m : SM A) (f : A -> B) b v : reads m b v -> reads (x ← m; mret (f x)) b (f v).
Proof.
  intros Hm rest st n x e Hb Hr. destruct (Hm rest st n x e Hb Hr) as (n' & x' & e' & Hs).
  exists n', x', e'. cbv [mbind SM_bind]. by rewrite Hs.
Qed.

Lemma closes_ret {A B} (m : SM A) (f : A -> B) b v : closes m b v -> closes (x ← m; mret (f x)) b (f v).
Proof.
  intros Hm rest st p n x e Hp Hb. destruct (Hm rest st p n x e Hp Hb) as (n' & x' & e' & Hs).
  exists n', x', e'. cbv [mbind SM_bind]. by rewrite Hs.
Qed.

Lemma reads_wrapped {A} (m : SM A) b v : reads m b v -> reads (wrapped m) b v.
Proof.
  intros Hm rest st n x e Hb Hr. destruct (Hm rest st n x e Hb Hr) as (n' & x' & e' & Hs).
  exists n', x', e'. unfold wrapped. cbv [mbind SM_bind try]. by rewrite Hs.
Qed.

Lemma ends_wrapped {A} (m : SM A) : ends_list m -> ends_list (wrapped m).
Proof.
  intros Hm i p st n x e. destruct (Hm i p st n x e) as (n' & x' & e' & Hs). exists n', x', e'.
  unfold wrapped. cbv [mbind SM_bind try]. by rewrite Hs.
Qed.

Lemma ends_list_bind {A B} (m : SM A) (k : A -> SM B) : ends_list m -> ends_list (x ← m; k x).
Proof.
  intros Hm i p st n x e. destruct (Hm i p st n x e) as (n' & x' & e' & Hs). exists n', x', e'.
  cbv [mbind SM_bind]. by rewrite Hs.
Qed.

Lemma ends_Kind : ends_list Stream_Kind.
Proof. intros i p st n x e. eexists _, _, _. apply Kind_end. Qed.

(** *** Over one header *)

(** After the header, [k] runs on the content. *)
Lemma reads_hdr {A} (m : Kind * Z -> SM A) k c v : k <> Byte ->
  (forall rest st, len c < 2 ^ 64 -> room st (len c) -> exists n' x' e',
     m (k, len c) (mk (c ++ rest) st (Some k) (len c) 0 None) =
       Some (mk rest (advance st (len c)) None n' x' e', inl v)) ->
  reads (Stream_Kind ≫= m) (hdr k (len c) ++ c) v.
Proof.
  intros Hk Hm rest st n x e Hb Hr. rewrite length_app in *. rewrite Nat2Z.inj_add in *.
  destruct (Hm rest (advance st (len (hdr k (len c))))) as (n' & x' & e' & Hs); [lia| |].
  { apply room_advance; [lia|done]. }
  exists n', x', e'. rewrite <- app_assoc. cbv [mbind SM_bind].
  rewrite Kind_hdr by (done || lia). by rewrite Hs, advance_add.
Qed.

Lemma reads_byte {A} (m : Kind * Z -> SM A) b v : 0 <= b < 128 ->
  (forall rest st, exists n' x' e',
     m (Byte, 0) (mk rest st (Some Byte) 0 b None) = Some (mk rest st None n' x' e', inl v)) ->
  reads (Stream_Kind ≫= m) [b] v.
Proof.
  intros Hb Hm rest st n x e Hl Hr. destruct (Hm rest (advance st 1)) as (n' & x' & e' & Hs).
  exists n', x', e'. cbv [mbind SM_bind]. cbn [app]. rewrite Kind_byte by done. by rewrite Hs.
Qed.

Lemma single_spec b : bytes_ok b -> single b = true -> exists x, b = [x] /\ 0 <= x < 128.
Proof.
  intros Hb. destruct b as [|x [|]]; try done. intros Hx%Z.ltb_lt. apply Forall_cons in Hb as [Hx' _].
  exists x. split; [done|lia].
Qed.

Lemma reads_Bytes b : bytes_ok b -> reads Stream_Bytes (enc_str b) b.
Proof.
  intros Hb. unfold enc_str. destruct (single b) eqn:Es.
  - destruct (single_spec b Hb Es) as (x & -> & Hx). apply reads_byte; [done|]. intros rest st.
    eexists _, _, _. reflexivity.
  - apply (reads_hdr _ String); [done|]. intros rest st Hl Hr. eexists _, _, _. cbv [mbind SM_bind].
    rewrite readFull_ok by done. destruct b as [|y [|]]; [reflexivity| |reflexivity].
    unfold single in Es. rewrite Es. reflexivity.
Qed.

Lemma reads_BigInt z : 0 <= z -> reads decodeBigInt (enc_str (Bytes z)) z.
Proof.
  intros Hz rest st n x e Hb Hr.
  destruct (reads_wrapped _ _ _ (reads_Bytes (Bytes z) (be_bytes_range _ _)) rest st n x e Hb Hr)
    as (n' & x' & e' & Hs).
  exists n', x', e'. unfold decodeBigInt. cbv [mbind SM_bind]. rewrite Hs. unfold SetBytes.
  pose proof (Bytes_int z) as Hi. rewrite Z.abs_eq in Hi by done.
  assert (match Bytes z with 0 :: _ => false | _ => true end = true) as Hc.
  { destruct (Z.eq_dec z 0) as [->|]; [done|]. destruct (Bytes_head z ltac:(lia)) as (b & bs & -> & Hb0).
    destruct b; [lia|done|lia]. }
  destruct (Bytes z) as [|[|y|y] bs]; try done; cbv [mret SM_ret]; by rewrite Hi.
Qed.

(** The shape of every encoding: one byte, or a header and its content. *)
Definition headed (b : list Z) : Prop :=
  (exists x, b = [x] /\ 0 <= x < 128) \/ (exists k c, k <> Byte /\ b = hdr k (len c) ++ c).

Lemma headed_str b : bytes_ok b -> headed (enc_str b).
Proof.
  intros Hb. unfold enc_str. destruct (single b) eqn:Es.
  - left. by apply single_spec.
  - right. by exists String, b.
Qed.

Lemma headed_lst c : headed (enc_lst c).
Proof. right. by exists List, c. Qed.

Lemma headed_nonempty b : headed b -> (0 < length b)%nat.
Proof.
  intros [(x & -> & _)|(k & c & Hk & ->)]; [simpl; lia|]. rewrite length_app. unfold hdr, header.
  case_match; simpl; lia.
Qed.

Lemma reads_Raw b : headed b -> reads Stream_Raw b b.
Proof.
  intros [(x & -> & Hx)|(k & c & Hk & ->)].
  - apply reads_byte; [done|]. intros rest st. eexists _, _, _. reflexivity.
  - apply reads_hdr; [done|]. intros rest st Hl Hr. eexists _, _, _.
    destruct k; [done|..]; cbv [mbind SM_bind]; rewrite readFull_ok by done; cbv [mret SM_ret];
      by rewrite puthead_header by lia.
Qed.

Lemma single_Bytes z : 0 < z < 128 -> Bytes z = [z].
Proof. intros Hz. apply (Bytes_be_int z []); [|lia]. constructor; [lia|constructor]. Qed.

Lemma not_single_Bytes z : 128 <= z -> single (Bytes z) = false.
Proof.
  intros Hz. pose proof (Bytes_int z) as Hi. rewrite Z.abs_eq in Hi by lia.
  destruct (Bytes z) as [|y [|]]; [done| |done]. change (be_int [y]) with (0 * 256 + y) in Hi.
  apply Z.ltb_ge. lia.
Qed.

Lemma len_Bytes z bits : 0 <= z < 2 ^ bits -> 0 < bits <= 64 -> bits mod 8 = 0 -> len (Bytes z) <= bits / 8.
Proof.
  intros Hz Hb Hm. unfold Bytes. rewrite be_bytes_length. assert (BitLen z <= bits).
  { apply BitLen_le; [lia|]. rewrite Z.abs_eq; lia. }
  assert ((BitLen z + 7) / 8 < bits / 8 + 1); [|pose proof (Z.div_pos bits 8); lia].
  apply Z.div_lt_upper_bound; [lia|]. pose proof (Z.div_mod bits 8). lia.
Qed.

Lemma reads_uint z bits : 0 <= z < 2 ^ bits -> 0 < bits <= 64 -> bits mod 8 = 0 ->
  reads (Stream_uint bits) (enc_str (Bytes z)) z.
Proof.
  intros Hz Hb Hm. pose proof (len_Bytes z bits Hz Hb Hm) as Hlen. unfold enc_str.
  assert (bits / 8 <= 8) by (apply Z.div_le_upper_bound; lia).
  destruct (Z.eq_dec z 0) as [->|Hnz]; [|destruct (Z.lt_ge_cases z 128)].
  - change (Bytes 0) with (@nil Z) in *. cbn [single]. apply (reads_hdr _ String); [done|]. intros rest st _ _.
    cbn [length Z.of_nat] in *. eexists _, _, _. rewrite (proj2 (Z.ltb_ge _ _)) by lia.
    rewrite advance_0. reflexivity.
  - rewrite single_Bytes by lia. cbn [single]. rewrite (proj2 (Z.ltb_lt z 128)) by lia.
    apply reads_byte; [lia|]. intros rest st. eexists _, _, _. cbv [mbind SM_bind get].
    unfold mk at 1 2. cbn [byteval]. rewrite (proj2 (Z.eqb_neq _ _)) by lia. reflexivity.
  - rewrite not_single_Bytes by lia. apply (reads_hdr _ String); [done|]. intros rest st Hl Hr.
    eexists _, _, _. rewrite (proj2 (Z.ltb_ge (bits / 8) _)) by lia. cbv [mbind SM_bind try].
    unfold u8. rewrite Z.mod_small by lia. rewrite readUint_ok by (lia || done).
    rewrite (proj2 (Z.ltb_ge z 128)), andb_false_r by lia. reflexivity.
Qed.

Lemma reads_Bool (b : bool) : reads Stream_Bool (enc_str (if b then [1] else [])) b.
Proof.
  intros rest st n x e Hb Hr. unfold Stream_Bool. cbv [mbind SM_bind].
  replace (if b then [1] else []) with (Bytes (if b then 1 else 0)) in * by (by destruct b).
  destruct (reads_uint (if b then 1 else 0) 8 ltac:(destruct b; lia) ltac:(lia) ltac:(done) rest st n x e Hb Hr)
    as (n' & x' & e' & ->).
  exists n', x', e'. by destruct b.
Qed.

Lemma reads_ByteArray b : bytes_ok b -> b <> [0] -> reads (decodeByteArray (length b)) (enc_str b) (VBytes b).
Proof.
  intros Hb H0. unfold enc_str. destruct (single b) eqn:Es.
  - destruct (single_spec b Hb Es) as (x & -> & Hx). apply reads_byte; [done|]. intros rest st.
    eexists _, _, _. cbn [length]. unfold Stream_Uint, Stream_uint. cbv [mbind SM_bind try].
    change (Stream_Kind (mk rest st (Some Byte) 0 x None)) with
      (Some (mk rest st (Some Byte) 0 x None, @inl _ rlp_error (Byte, 0))). cbv [get]. unfold mk at 1 2. cbn [byteval].
    rewrite (proj2 (Z.eqb_neq x 0)) by congruence. cbv [upd mret SM_ret]. unfold u8.
    rewrite Z.mod_small by lia. reflexivity.
  - apply (reads_hdr _ String); [done|]. intros rest st Hl Hr. eexists _, _, _. rewrite !Z.ltb_irrefl.
    cbv [mbind SM_bind]. rewrite readFull_ok by done. destruct b as [|y [|]]; [reflexivity| |reflexivity].
    unfold single in Es. rewrite Es. reflexivity.
Qed.

(** *** Lists *)
Lemma enc_lst_hdr c : enc_lst c = hdr List (len c) ++ c.
Proof. done. Qed.

Lemma List_ok c rest st n x e : len (enc_lst c) < 2 ^ 64 -> room st (len (enc_lst c)) ->
  Stream_List (mk (enc_lst c ++ rest) st None n x e) =
    Some (mk (c ++ rest) ({| pos := 0; lsize := len c |} :: advance st (len (hdr List (len c)))) None 0 0 None,
          inl (len c)).
Proof.
  rewrite enc_lst_hdr, length_app, Nat2Z.inj_add. intros Hl Hr.
  unfold Stream_List. cbv [mbind SM_bind]. rewrite <- app_assoc. by rewrite Kind_hdr by (done || lia).
Qed.

Lemma ListEnd_ok rest st q n x e : 0 <= q -> room st q ->
  Stream_ListEnd (mk rest ({| pos := q; lsize := q |} :: st) None n x e) =
    Some (mk rest (advance st q) None 0 x e, inl tt).
Proof.
  intros Hq Hr. unfold Stream_ListEnd. cbv [mbind SM_bind get]. unfold mk. cbn [stack pos lsize].
  rewrite Z.eqb_refl. cbn [negb]. cbv [upd]. unfold set_stack, set_kind.
  cbn [input remaining limited kind ssize byteval kinderr stack].
  destruct st as [|[p l] st]; [done|]. simpl in Hr. cbn [pos lsize advance].
  by rewrite u64_id by (unfold is_u64; lia).
Qed.

Lemma reads_in_list (m : SM (list val)) c l : closes m c l ->
  reads (wrapped Stream_List;; l ← m; wrapped Stream_ListEnd;; mret (VList l)) (enc_lst c) (VList l).
Proof.
  intros Hm rest st n x e Hl Hr. pose proof (List_ok c rest st n x e Hl Hr) as Ho. revert Hl Hr Ho.
  rewrite enc_lst_hdr, length_app, Nat2Z.inj_add. intros Hl Hr Ho.
  destruct (Hm rest (advance st (len (hdr List (len c)))) 0 0 0 None) as (n' & x' & e' & Hs); [lia|lia|].
  exists 0, x', e'. cbv [mbind SM_bind wrapped try]. rewrite Ho. cbv [mret SM_ret]. rewrite Z.add_0_l in Hs.
  rewrite Hs, ListEnd_ok by (try apply room_advance; lia || done). by rewrite advance_add.
Qed.

Lemma reads_ListSlice fuel (m : SM val) c l : closes (decodeSliceElems fuel m) c l -> (c = [] -> l = []) ->
  reads (decodeListSlice fuel m) (enc_lst c) (VList l).
Proof.
  intros Hm Hc rest st n x e Hl Hr. pose proof (List_ok c rest st n x e Hl Hr) as Ho. revert Hl Hr Ho.
  rewrite enc_lst_hdr, length_app, Nat2Z.inj_add. intros Hl Hr Ho.
  unfold decodeListSlice. cbv [mbind SM_bind wrapped try]. rewrite Ho. cbv [mret SM_ret].
  destruct (Z.eqb_spec (len c) 0) as [E|E].
  - assert (c = []) as -> by (destruct c; [done|cbn [length] in E; lia]). rewrite Hc by done.
    eexists _, _, _. cbn [length Z.of_nat app].
    rewrite ListEnd_ok by (try apply room_advance; lia || done). by rewrite advance_add.
  - destruct (Hm rest (advance st (len (hdr List (len c)))) 0 0 0 None) as (n' & x' & e' & Hs); [lia|lia|].
    exists 0, x', e'. rewrite Z.add_0_l in Hs.
    rewrite Hs, ListEnd_ok by (try apply room_advance; lia || done). by rewrite advance_add.
Qed.

Lemma closes_bind {A B} (m : SM A) (k : A -> SM B) b c v r :
  reads m b v -> closes (k v) c r -> closes (m ≫= k) (b ++ c) r.
Proof.
  intros Hm Hk rest st p n x e Hp Hl. rewrite length_app in *. rewrite Nat2Z.inj_add in *.
  destruct (Hm (c ++ rest) ({| pos := p; lsize := p + (len b + len c) |} :: st) n x e)
    as (n' & x' & e' & Hs); [lia|simpl; lia|].
  destruct (Hk rest st (p + len b) n' x' e') as (n2 & x2 & e2 & Hs2); [lia|lia|].
  exists n2, x2, e2. rewrite <- app_assoc. cbv [mbind SM_bind]. rewrite Hs. cbn [advance pos lsize].
  by rewrite Z.add_assoc.
Qed.

Lemma closes_SliceElems (m : SM val) fuel bs l : Forall2 (reads m) bs l -> ends_list m ->
  (length l < fuel)%nat -> closes (decodeSliceElems fuel m) (concat bs) l.
Proof.
  intros Hall Hend. revert fuel. induction Hall as [|b v bs l Hb _ IH]; intros [|fuel] Hf; try (simpl in Hf; lia);
    cbn [decodeSliceElems concat].
  - intros rest st p n x e _ _. cbn [length Z.of_nat app]. rewrite Z.add_0_r.
    destruct (Hend rest p st n x e) as (n' & x' & e' & Hs). exists n', x', e'.
    cbv [mbind SM_bind try]. by rewrite Hs.
  - intros rest st p n x e Hp Hl. cbn [length] in Hf.
    destruct (closes_bind m (fun x => l ← decodeSliceElems fuel m; mret (x :: l)) b (concat bs) v (v :: l) Hb
                (closes_ret _ (cons v) _ _ (IH fuel ltac:(lia))) rest st p n x e Hp Hl) as (n' & x' & e' & Hs).
    exists n', x', e'. rewrite <- Hs. cbv [mbind SM_bind try]. destruct (m _) as [[s [y|er]]|] eqn:Em; [done| |done].
    revert Hs. cbv [mbind SM_bind]. rewrite Em. congruence.
Qed.

Lemma closes_array_elems (m : SM val) bs l : Forall2 (reads m) bs l ->
  closes (decode_array_elems (length l) m) (concat bs) l.
Proof.
  intros Hall. induction Hall as [|b v bs l Hb _ IH]; cbn [decode_array_elems concat length].
  - intros rest st p n x e _ _. cbn [length Z.of_nat app]. rewrite Z.add_0_r. by exists n, x, e.
  - intros rest st p n x e Hp Hl.
    destruct (closes_bind m (fun x => l' ← decode_array_elems (length l) m; mret (x :: l')) b (concat bs) v
                (v :: l) Hb (closes_ret _ (cons v) _ _ IH) rest st p n x e Hp Hl) as (n' & x' & e' & Hs).
    exists n', x', e'. rewrite <- Hs. cbv [mbind SM_bind try]. destruct (m _) as [[s [y|er]]|] eqn:Em; [done| |done].
    revert Hs. cbv [mbind SM_bind]. rewrite Em. congruence.
Qed.

Lemma closes_field (m : SM val) b v : closes m b v -> closes (decode_field m) b v.
Proof.
  intros Hm rest st p n x e Hp Hb. destruct (Hm rest st p n x e Hp Hb) as (n' & x' & e' & Hs).
  exists n', x', e'. unfold decode_field. cbv [mbind SM_bind try]. by rewrite Hs.
Qed.

Lemma reads_field (m : SM val) b v : reads m b v -> reads (decode_field m) b v.
Proof.
  intros Hm rest st n x e Hb Hr. destruct (Hm rest st n x e Hb Hr) as (n' & x' & e' & Hs).
  exists n', x', e'. unfold decode_field. cbv [mbind SM_bind try]. by rewrite Hs.
Qed.

(** *** Looking at the next value *)
Definition is_tail (t : rtype) (ts : tags) : bool :=
  match t with TSlice _ => ts.(tail) | _ => false end.

(** A decoder that has looked at the kind goes on as if it had not. *)
Lemma decode_peek t : forall fuel ts s s' r, is_tail t ts = false -> ts.(nilOK) = false ->
  Stream_Kind s = Some (s', inl r) -> decode fuel t ts s' = decode fuel t ts s.
Proof.
  induction t; intros fuel ts s s' r Ht Hts Hs; pose proof (Kind_again _ _ _ Hs) as Ha; cbn [decode];
    try (cbv [decodeRawValue decodeBigInt decodeUint decodeBool decodeString decodeByteSlice decodeByteArray
              decodeListArray decodeListSlice mbind SM_bind wrapped try Stream_Raw Stream_Bytes Stream_uint
              Stream_Bool Stream_List]; rewrite Hs, Ha; reflexivity).
  - (* slices *) cbn [is_tail] in Ht. rewrite Ht.
    cbv [decodeListSlice mbind SM_bind wrapped try Stream_List]. by rewrite Hs, Ha.
  - (* pointers *) rewrite Hts. cbv [mbind SM_bind]. by rewrite (IHt fuel no_tags s s' r) by by destruct t.
  - destruct fuel; [done|]. cbn [decodeInterface]. cbv [mbind SM_bind]. by rewrite Hs, Ha.
Qed.

Ltac ends := unfold decodeRawValue, decodeBigInt, decodeUint, decodeBool, decodeString, decodeByteSlice,
    decodeByteArray, decodeListArray, decodeListSlice, Stream_Raw, Stream_Bytes, Stream_Bool, Stream_uint,
    Stream_List;
  repeat match goal with
    | |- ends_list Stream_Kind => apply ends_Kind
    | |- ends_list (wrapped _) => apply ends_wrapped
    | |- ends_list (mbind _ _) => apply ends_list_bind
    end.

Lemma ends_decode t : forall fuel ts, is_tail t ts = false -> ts.(nilOK) = false -> (0 < fuel)%nat ->
  ends_list (decode fuel t ts).
Proof.
  induction t; intros fuel ts Ht Hts Hf; cbn [decode is_tail] in *; try (ends; done).
  - rewrite Ht. ends.
  - rewrite Hts. apply ends_list_bind, IHt; [by destruct t|done|done].
  - destruct fuel; [lia|]. cbn [decodeInterface]. ends.
Qed.

(** *** Values that come back *)

(** The values decoding can give: no pointer is nil without the tag that allows it
    and its element is not written as empty with it, raw values are whole encodings,
    what is in an interface is bytes or a list, a tail slice is the last field; and
    no byte array is a single zero, which the decoder does not read. *)
Fixpoint decodable (v : val) (t : rtype) (ts : tags) {struct v} : Prop :=
  match t, v with
  | TRawValue, VBytes b => headed b /\ bytes_ok b
  | TBigIntPtr, VPtr (VBig z) | TBigInt, VBig z => 0 <= z
  | TUint bits, VUint n => 0 <= n < 2 ^ bits /\ 0 < bits <= 64 /\ bits mod 8 = 0
  | TBool, VBool _ => True
  | TString, VBytes b | TBytes, VBytes b => bytes_ok b
  | TByteArray n, VBytes b => bytes_ok b /\ length b = n /\ b <> [0]
  | TSlice et, VList l => foldr (fun x P => decodable x et no_tags /\ P) True l
  | TArray n et, VList l => foldr (fun x P => decodable x et no_tags /\ P) True l /\ length l = n
  | TStruct fs, VList l =>
      (fix fields (l : list val) (fs : list (rtype * tags)) : Prop :=
         match fs, l with
         | [], [] => True
         | f :: fs, x :: l =>
             decodable x f.1 f.2 /\ (fs <> [] -> is_tail f.1 f.2 = false) /\ fields l fs
         | _, _ => False
         end) l fs
  | TPtr et, VNil =>
      ts.(nilOK) = true /\
      (zero_items (TPtr et) no_tags = [Str []] \/ zero_items (TPtr et) no_tags = [Lst []])
  | TPtr et, VPtr x =>
      decodable x et no_tags /\
      (ts.(nilOK) = true -> forall l, items x et no_tags = Some l -> encs l <> [0x80] /\ encs l <> [0xC0])
  | TInterface, VIface TBytes (VBytes b) => bytes_ok b
  | TInterface, VIface (TSlice TInterface) (VList l) =>
      foldr (fun x P => decodable x TInterface no_tags /\ P) True l
  | _, _ => False
  end.

Lemma decodable_elems {P : val -> rtype -> tags -> Prop} l et :
  Forall (fun v => forall t ts, decodable v t ts -> P v t ts) l ->
  foldr (fun x Q => decodable x et no_tags /\ Q) True l -> Forall (fun x => P x et no_tags) l.
Proof.
  rewrite foldr_Forall. intros IH Hl. induction l as [|x l IHl]; [constructor|].
  apply Forall_cons in IH as [Hx IH], Hl as [Hxt Hl]. constructor; [by apply Hx|by apply IHl].
Qed.

Lemma is_tail_no_tags t : is_tail t no_tags = false.
Proof. by destruct t. Qed.

Lemma encs_one i : encs [i] = enc i.
Proof. apply app_nil_r. Qed.

Lemma headed_enc i : (forall b, i = Str b -> bytes_ok b) -> (forall b, i = Raw b -> headed b) -> headed (encs [i]).
Proof.
  rewrite encs_one. destruct i as [b|l|b]; intros Hs Hr; [by apply headed_str, Hs|apply headed_lst|by apply Hr].
Qed.

Lemma headed_Str b : bytes_ok b -> headed (encs [Str b]).
Proof. intros Hb. rewrite encs_one. by apply headed_str. Qed.

Lemma headed_Lst c (l : list item) : (c ← c; Some [Lst c]) = Some l -> headed (encs l).
Proof. destruct c as [c|]; [|done]. intros [= <-]. rewrite encs_one. apply headed_lst. Qed.

Lemma headed_big z l : 0 <= z -> (if z <? 0 then None else Some [Str (Bytes z)]) = Some l -> headed (encs l).
Proof.
  intros Hz. rewrite (proj2 (Z.ltb_ge _ _)) by done. intros [= <-]. apply headed_Str, be_bytes_range.
Qed.

Lemma headed_decodable v : forall t ts l, decodable v t ts -> is_tail t ts = false -> items v t ts = Some l ->
  headed (encs l).
Proof.
  induction v as [b|z|n|b|l IH| |v IH|t' v IH] using val_nested_ind; intros t ts k Ht Htail Hk;
    destruct t; try done; cbn [decodable items is_tail] in *.
  - destruct Ht as [Hh _]. injection Hk as <-. by rewrite encs_one.
  - injection Hk as <-. by apply headed_Str.
  - injection Hk as <-. by apply headed_Str.
  - injection Hk as <-. by apply headed_Str, Ht.
  - by eapply headed_big.
  - injection Hk as <-. apply headed_Str, be_bytes_range.
  - injection Hk as <-. apply headed_Str. destruct b; repeat constructor; lia.
  - rewrite Htail in Hk. by eapply headed_Lst.
  - by eapply headed_Lst.
  - by eapply headed_Lst.
  - assert (k = zero_items (TPtr t) no_tags) as -> by congruence.
    destruct Ht as [_ [->| ->]]; [apply headed_Str; constructor|by apply (headed_Lst (Some []))].
  - destruct v; try done. by eapply headed_big.
  - destruct Ht as [Ht _]. by apply (IH _ _ _ Ht (is_tail_no_tags _)).
  - destruct t'; try done.
    + destruct v; try done. injection Hk as <-. by apply headed_Str.
    + destruct t', v; try done. by eapply headed_Lst.
Qed.

(** Bytes left against items left. *)
Lemma length_concat_headed (bs : list (list Z)) : Forall headed bs -> (length bs <= length (concat bs))%nat.
Proof.
  induction 1 as [|b bs Hb _ IH]; [done|]. cbn [concat length]. rewrite length_app.
  apply headed_nonempty in Hb. lia.
Qed.

Lemma concat_items_inv ls c : concat_items ls = Some c ->
  exists cs, ls = map Some cs /\ c = concat cs.
Proof.
  revert c. induction ls as [|[a|] ls IH]; intros c; cbn [concat_items foldr mbind option_bind]; [|intros H|done].
  - intros [= <-]. by exists [].
  - fold (concat_items ls) in H. destruct (concat_items ls) as [d|]; [|done]. injection H as <-.
    destruct (IH d eq_refl) as (cs & -> & ->). by exists (a :: cs).
Qed.

Lemma encs_concat cs : encs (concat cs) = concat (map encs cs).
Proof. induction cs as [|c cs IH]; [done|]. cbn [concat map]. by rewrite encs_app, IH. Qed.

Lemma reads_optional t v b fuel : headed b -> reads (decode fuel t no_tags) b v -> b <> [0x80] -> b <> [0xC0] ->
  reads (decode_optional (decode fuel t no_tags)) b (VPtr v).
Proof.
  intros Hh Hm H80 HC0 rest st n x e Hl Hr.
  assert (exists s k sz, Stream_Kind (mk (b ++ rest) st None n x e) = Some (s, inl (k, sz)) /\
            (sz =? 0) && negb (bool_decide (k = Byte)) = false) as (s & k & sz & Hs & Hc).
  { destruct Hh as [(y & -> & Hy)|(k & c & Hk & ->)].
    - eexists _, _, _. split; [by apply Kind_byte|done].
    - rewrite length_app, Nat2Z.inj_add in Hl, Hr. rewrite <- app_assoc. eexists _, _, _.
      split; [by apply Kind_hdr; lia || done|].
      destruct c as [|y c]; [destruct k; done|]. rewrite (proj2 (Z.eqb_neq _ _)) by (cbn [length]; lia). done. }
  destruct (Hm rest st n x e Hl Hr) as (n' & x' & e' & Hd). exists n', x', e'.
  unfold decode_optional. cbv [mbind SM_bind try]. rewrite Hs, Hc.
  by rewrite (decode_peek t fuel no_tags _ _ _ (is_tail_no_tags _) eq_refl Hs), Hd.
Qed.

Lemma reads_nil k m : k <> Byte -> reads (decode_optional m) (hdr k 0) VNil.
Proof.
  intros Hk rest st n x e Hl Hr. unfold decode_optional. cbv [mbind SM_bind try].
  rewrite (Kind_hdr k [] rest) by (done || lia || (cbn [length Z.of_nat]; by rewrite Z.add_0_r)).
  cbn [length Z.of_nat]. rewrite bool_decide_eq_false_2 by done. cbn [Z.eqb negb andb].
  eexists _, _, _. reflexivity.
Qed.

(** *** Every decoder *)
Definition decodes (v : val) (t : rtype) (ts : tags) : Prop := forall fuel l,
  items v t ts = Some l -> (length (encs l) < fuel)%nat ->
  closes (decode fuel t ts) (encs l) v /\
  (is_tail t ts = false -> reads (decode fuel t ts) (encs l) v).

Lemma decodes_reads v t ts : (forall fuel l, items v t ts = Some l -> (length (encs l) < fuel)%nat ->
  reads (decode fuel t ts) (encs l) v) -> decodes v t ts.
Proof. intros H fuel l Hl Hf. split; [apply reads_closes|intros _]; by apply H. Qed.

(** The elements of a list, each with the bytes it is read from. *)
Lemma decodes_elems l et c fuel :
  Forall (fun x => decodes x et no_tags) l -> Forall (fun x => decodable x et no_tags) l ->
  concat_items (map (fun x => items x et no_tags) l) = Some c -> (length (encs c) < fuel)%nat ->
  exists bs, encs c = concat bs /\ Forall2 (reads (decode fuel et no_tags)) bs l /\ (length l <= length (encs c))%nat.
Proof.
  intros Hl Hd Hc Hf. destruct (concat_items_inv _ _ Hc) as (cs & Hcs & ->). exists (map encs cs).
  rewrite encs_concat in *. split; [done|].
  assert (Forall2 (reads (decode fuel et no_tags)) (map encs cs) l /\ Forall headed (map encs cs)) as [Hr Hh].
  { clear Hc. revert cs Hcs Hf. induction Hl as [|x l Hx Hl IH]; intros [|d cs] Hcs Hf; try done.
    cbn [map concat] in *. rewrite length_app in Hf. injection Hcs as Hi Hcs. apply Forall_cons in Hd as [Hdx Hd].
    destruct (IH Hd cs Hcs ltac:(lia)) as [IH1 IH2].
    destruct (Hx fuel d Hi ltac:(lia)) as [_ Hx2]. pose proof (headed_decodable _ _ _ _ Hdx (is_tail_no_tags _) Hi).
    split; constructor; try done. by apply Hx2, is_tail_no_tags. }
  split; [done|]. apply Forall2_length in Hr as Hlen. rewrite <- Hlen. by apply length_concat_headed.
Qed.

Lemma decodes_slice l et ts : Forall (fun x => decodes x et no_tags) l ->
  Forall (fun x => decodable x et no_tags) l -> decodes (VList l) (TSlice et) ts.
Proof.
  intros Hl Hd fuel k Hk Hf. cbn [items decode is_tail] in *.
  destruct (concat_items _) as [c|] eqn:Hc; [|done]. cbn [mbind option_bind] in Hk.
  assert (length (encs c) < fuel)%nat as Hf'.
  { destruct (tail ts); injection Hk as <-; [done|]. rewrite encs_one in Hf. cbn [enc] in Hf.
    unfold enc_lst in Hf. rewrite length_app in Hf. unfold encs. lia. }
  destruct (decodes_elems l et c fuel Hl Hd Hc Hf') as (bs & Hbs & Hr & Hlen).
  assert (closes (decodeSliceElems fuel (decode fuel et no_tags)) (encs c) l) as Hcl.
  { rewrite Hbs. apply closes_SliceElems; [done| |lia].
    apply ends_decode; [apply is_tail_no_tags|done|lia]. }
  destruct (tail ts); injection Hk as <-.
  - split; [|done]. by apply (closes_ret _ VList).
  - rewrite encs_one. cbn [enc]. fold (encs c).
    assert (reads (decodeListSlice fuel (decode fuel et no_tags)) (enc_lst (encs c)) (VList l)) as Hrd.
    { apply reads_ListSlice; [done|]. intros He. rewrite He in Hlen. by apply nil_length_inv, Nat.le_0_r. }
    split; [by apply reads_closes|done].
Qed.

Lemma decodes_array l et ts : Forall (fun x => decodes x et no_tags) l ->
  Forall (fun x => decodable x et no_tags) l -> decodes (VList l) (TArray (length l) et) ts.
Proof.
  intros Hl Hd. apply decodes_reads. intros fuel k Hk Hf. cbn [items decode] in *.
  destruct (concat_items _) as [c|] eqn:Hc; [|done]. injection Hk as <-. rewrite encs_one in *.
  cbn [enc] in *. fold (encs c) in *. unfold enc_lst in Hf. rewrite length_app in Hf.
  destruct (decodes_elems l et c fuel Hl Hd Hc ltac:(lia)) as (bs & Hbs & Hr & Hlen).
  apply (reads_in_list (decode_array_elems (length l) (decode fuel et no_tags))).
  rewrite Hbs. by apply closes_array_elems.
Qed.

Lemma decodes_struct l fs ts :
  Forall (fun x => forall t ts, decodable x t ts -> decodes x t ts) l ->
  decodable (VList l) (TStruct fs) ts -> decodes (VList l) (TStruct fs) ts.
Proof.
  intros Hl Hd. apply decodes_reads. intros fuel k Hk Hf. cbn [items decode decodable] in *.
  match type of Hk with (?r ≫= _) = _ => destruct r as [c|] eqn:Hc; [|done] end.
  injection Hk as <-. rewrite encs_one in *. cbn [enc] in *. fold (encs c) in *. unfold enc_lst in Hf.
  rewrite length_app in Hf. assert (length (encs c) < fuel)%nat as Hf' by lia. clear Hf.
  apply (reads_in_list ((fix fields (fs : list (rtype * tags)) : SM (list val) :=
    match fs with
    | [] => mret []
    | f :: fs => x ← decode_field (decode fuel f.1 f.2); l ← fields fs; mret (x :: l)
    end) fs)).
  revert fs c Hd Hc Hf'. induction Hl as [|x l Hx _ IH]; intros [|[t ts'] fs] c Hd Hc Hf; try done; cbn [fst snd] in *.
  - injection Hc as <-. intros rest st p n x e _ _. cbn [encs map concat length Z.of_nat app].
    rewrite Z.add_0_r. by exists n, x, e.
  - destruct Hd as (Hdx & Htail & Hd). destruct (items x t ts') as [a|] eqn:Ha; [|done].
    match type of Hc with (_ ≫= fun a => ?r ≫= _) = _ => destruct r as [b|] eqn:Hb; [|done] end.
    injection Hc as <-. rewrite encs_app, length_app in *.
    destruct (Hx t ts' Hdx fuel a Ha ltac:(lia)) as [Hcl Hrd].
    specialize (IH fs b Hd Hb ltac:(lia)). destruct fs as [|f fs].
    + destruct l; [|done]. injection Hb as <-. cbn [encs map concat]. rewrite app_nil_r.
      apply (closes_ret _ (fun x => [x])), closes_field, Hcl.
    + eapply closes_bind; [apply reads_field, Hrd, Htail; done|]. by apply (closes_ret _ (cons x)).
Qed.

Lemma decodes_iface_list l : Forall (fun x => decodes x TInterface no_tags) l ->
  Forall (fun x => decodable x TInterface no_tags) l ->
  forall ts, decodes (VIface (TSlice TInterface) (VList l)) TInterface ts.
Proof.
  intros Hl Hd ts. apply decodes_reads. intros [|fuel] k Hk Hf; [lia|]. cbn [items decode decodeInterface] in *.
  destruct (concat_items _) as [c|] eqn:Hc; [|done]. injection Hk as <-. rewrite encs_one in *.
  cbn [enc] in *. fold (encs c) in *. assert (length (encs c) < fuel)%nat as Hf'.
  { unfold enc_lst in Hf. rewrite length_app in Hf. unfold header in Hf.
    destruct (_ <? 56) in Hf; cbn [length] in Hf; lia. }
  destruct (decodes_elems l TInterface c fuel Hl Hd Hc Hf') as (bs & Hbs & Hr & Hlen).
  assert (reads (decodeListSlice fuel (decodeInterface fuel)) (enc_lst (encs c)) (VList l)) as Hrd.
  { apply reads_ListSlice; [|intros He; rewrite He in Hlen; by apply nil_length_inv, Nat.le_0_r]. rewrite Hbs.
    apply closes_SliceElems; [done| |lia]. apply (ends_decode TInterface fuel no_tags); [done|done|lia]. }
  intros rest st n x e Hln Hrm. destruct (Hrd rest st n x e Hln Hrm) as (n' & x' & e' & Hs). exists n', x', e'.
  rewrite enc_lst_hdr in *. rewrite length_app, Nat2Z.inj_add in Hln, Hrm. rewrite <- app_assoc in *.
  cbv [mbind SM_bind]. rewrite Kind_hdr by (done || lia).
  pose proof (decode_peek (TSlice TInterface) fuel no_tags _ _ _ eq_refl eq_refl
                (Kind_hdr List (encs c) rest st n x e ltac:(done) ltac:(lia) Hrm)) as Hp.
  cbn [decode tail no_tags] in Hp. rewrite Hp, Hs. done.
Qed.

Lemma decodes_iface_bytes b ts : bytes_ok b -> decodes (VIface TBytes (VBytes b)) TInterface ts.
Proof.
  intros Hb. apply decodes_reads. intros [|fuel] k Hk Hf; [lia|]. injection Hk as <-. rewrite encs_one in *.
  cbn [decode decodeInterface enc].
  pose proof (reads_ret _ (fun b => VIface TBytes (VBytes b)) _ _ (reads_Bytes b Hb)) as Hr.
  unfold enc_str in *. destruct (single b) eqn:Es.
  - destruct (single_spec b Hb Es) as (y & -> & Hy). apply reads_byte; [done|]. intros rest st. by eexists _, _, _.
  - intros rest st n x e Hln Hrm. destruct (Hr rest st n x e Hln Hrm) as (n' & x' & e' & Hs). exists n', x', e'.
    revert Hs. change (header 0x80 0xB7 (len b)) with (hdr String (len b)) in *.
    rewrite length_app, Nat2Z.inj_add in Hln, Hrm |- *. rewrite <- app_assoc.
    pose proof (Kind_hdr String b rest st n x e ltac:(done) ltac:(lia) Hrm) as Hk. pose proof (Kind_again _ _ _ Hk) as Hk'.
    unfold Stream_Bytes. cbv [mbind SM_bind]. by rewrite Hk, Hk'.
Qed.

Lemma decodes_big z : 0 <= z -> decodes (VBig z) TBigInt no_tags.
Proof.
  intros Hz. apply decodes_reads. intros fuel l Hl Hf. cbn [items] in Hl.
  rewrite (proj2 (Z.ltb_ge _ _)) in Hl by done. injection Hl as <-. rewrite encs_one.
  by apply (reads_ret decodeBigInt VBig), reads_BigInt.
Qed.

Lemma decodes_nil t ts : decodable VNil (TPtr t) ts -> decodes VNil (TPtr t) ts.
Proof.
  intros [Hn Hz]. apply decodes_reads. intros fuel l Hl Hf.
  assert (l = zero_items (TPtr t) no_tags) as -> by (cbn [items] in Hl; congruence).
  cbn [decode]. rewrite Hn. destruct Hz as [->| ->].
  - by apply (reads_nil String).
  - by apply (reads_nil List).
Qed.

Lemma decodes_ptr v t ts : decodable (VPtr v) (TPtr t) ts -> decodes v t no_tags -> decodes (VPtr v) (TPtr t) ts.
Proof.
  intros [Hd He] Hv. apply decodes_reads. intros fuel l Hl Hf. cbn [items decode] in *.
  destruct (Hv fuel l Hl Hf) as [_ Hr]. specialize (Hr (is_tail_no_tags t)). destruct (nilOK ts).
  - destruct (He eq_refl l Hl). apply reads_optional; [|done..].
    by eapply headed_decodable; [| |exact Hl]; [|apply is_tail_no_tags].
  - by apply (reads_ret _ VPtr).
Qed.

(** What an interface holds is a list of interfaces, not a list of its type: the
    induction keeps the elements as well. *)
Definition decodes_all (v : val) : Prop := forall t ts, decodable v t ts -> decodes v t ts.

Lemma decode_list_ok v : decodes_all v /\ match v with VList l => Forall decodes_all l | _ => True end.
Proof.
  induction v as [b|z|n|b|l IH| |v IH|t' v IH] using val_nested_ind; (split; [|try done]);
    try (eapply Forall_impl; [exact IH|by intros ? []]); intros t ts Hd; destruct t; try done; cbn [decodable] in Hd.
  - apply decodes_reads. intros fuel k [= <-] Hf. rewrite encs_one. apply (reads_ret _ VBytes), reads_Raw, Hd.
  - apply decodes_reads. intros fuel k [= <-] Hf. rewrite encs_one.
    by apply (reads_ret _ VBytes), reads_wrapped, reads_Bytes.
  - apply decodes_reads. intros fuel k [= <-] Hf. rewrite encs_one.
    by apply (reads_ret _ VBytes), reads_wrapped, reads_Bytes.
  - destruct Hd as (Hb & <- & H0). apply decodes_reads. intros fuel k [= <-] Hf. rewrite encs_one.
    by apply reads_ByteArray.
  - apply (decodes_big z Hd).
  - apply decodes_reads. intros fuel k [= <-] Hf. rewrite encs_one.
    by apply (reads_ret _ VUint), reads_wrapped, reads_uint; apply Hd.
  - apply decodes_reads. intros fuel k [= <-] Hf. rewrite encs_one.
    apply (reads_ret _ VBool), reads_wrapped, reads_Bool.
  - apply decodes_slice; [eapply (decodable_elems (P := decodes)); [|exact Hd]|by rewrite foldr_Forall in Hd].
    eapply Forall_impl; [exact IH|by intros ? []].
  - destruct Hd as [Hd <-]. apply decodes_array; [eapply (decodable_elems (P := decodes)); [|exact Hd]|by rewrite foldr_Forall in Hd].
    eapply Forall_impl; [exact IH|by intros ? []].
  - apply decodes_struct; [|done]. eapply Forall_impl; [exact IH|by intros ? []].
  - by apply decodes_nil.
  - destruct v as [|z| | | | | |]; try done. apply decodes_reads. intros fuel k Hk Hf. cbn [items] in Hk.
    rewrite (proj2 (Z.ltb_ge _ _)) in Hk by done. injection Hk as <-. rewrite encs_one.
    by apply (reads_ret _ (fun z => VPtr (VBig z))), reads_BigInt.
  - apply decodes_ptr; [done|]. apply IH, Hd.
  - destruct t'; try done.
    + destruct v; try done. by apply decodes_iface_bytes.
    + destruct t'; try done. destruct v as [| | | |l| | |]; try done.
      apply decodes_iface_list; [|by rewrite foldr_Forall in Hd].
      eapply (decodable_elems (P := decodes)); [apply IH|exact Hd].
Qed.

Lemma decode_ok v : decodes_all v.
Proof. apply decode_list_ok. Qed.

(** ** Decodable values are values of their type *)
Lemma decodable_has_type v : forall t ts, decodable v t ts -> has_type v t.
Proof.
  assert (forall l et, Forall (fun v => forall t ts, decodable v t ts -> has_type v t) l ->
    foldr (fun x P => decodable x et no_tags /\ P) True l -> foldr (fun x P => has_type x et /\ P) True l) as Hl.
  { intros l et IH. induction IH as [|x l Hx _ IHl]; [done|]. cbn [foldr]. intros [Hd Hds].
    split; [by eapply Hx|by apply IHl]. }
  induction v as [b|z|n|b|l IH| |v IH|t' v IH] using val_nested_ind; intros t ts Hd; destruct t; try done;
    cbn [decodable has_type] in *.
  - apply Hd.
  - destruct Hd as (Hb & Hn & _). by split.
  - by destruct Hd as (Hn & Hb & _).
  - by apply Hl.
  - destruct Hd as [Hd Hn]. split; [by apply Hl|done].
  - revert fields Hd. induction IH as [|x l Hx _ IHl]; intros [|[t ts'] fs] Hd; try done.
    destruct Hd as (Hdx & _ & Hd). split; [by eapply Hx|by apply IHl].
  - by destruct v.
  - destruct Hd as [Hd _]. by eapply IH.
  - destruct t'; try done.
    + apply (IH TBytes no_tags). by destruct v.
    + apply (IH (TSlice t') no_tags). by destruct t', v.
Qed.

Lemma RetPtr_nonneg z : 0 <= z -> (if z <? 0 then None else Some [Str (Bytes z)]) <> None.
Proof. intros Hz. by rewrite (proj2 (Z.ltb_ge _ _)). Qed.

Lemma concat_items_map {A} (f : A -> option (list item)) l : Forall (fun x => f x <> None) l ->
  concat_items (map f l) <> None.
Proof.
  induction 1 as [|x l Hx _ IH]; [done|]. cbn [map concat_items foldr]. fold (concat_items (map f l)).
  destruct (f x); [|done]. by destruct (concat_items _).
Qed.

Lemma decodable_items v : forall t ts, decodable v t ts -> items v t ts <> None.
Proof.
  assert (forall l et, Forall (fun v => forall t ts, decodable v t ts -> items v t ts <> None) l ->
    foldr (fun x P => decodable x et no_tags /\ P) True l ->
    concat_items (map (fun x => items x et no_tags) l) <> None) as Hl.
  { intros l et IH Hd. by apply concat_items_map, (decodable_elems (P := fun v t ts => items v t ts <> None)). }
  induction v as [b|z|n|b|l IH| |v IH|t' v IH] using val_nested_ind; intros t ts Hd; destruct t; try done;
    cbn [decodable items] in *.
  - by apply RetPtr_nonneg.
  - specialize (Hl l t IH Hd). by destruct (concat_items _).
  - destruct Hd as [Hd _]. specialize (Hl l t IH Hd). by destruct (concat_items _).
  - match goal with |- ?r ≫= _ <> None => enough (r <> None) by by destruct r end.
    revert fields Hd. induction IH as [|x l Hx _ IHl]; intros [|[t ts'] fs] Hd; try done.
    destruct Hd as (Hdx & _ & Hd). specialize (Hx _ _ Hdx). specialize (IHl _ Hd). cbn [fst snd] in *.
    destruct (items x t ts'); [|done]. cbn [mbind option_bind]. match goal with |- context [?r ≫= _] => by destruct r end.
  - destruct v; try done. by apply RetPtr_nonneg.
  - by apply IH, Hd.
  - destruct t'; try done.
    + apply (IH TBytes no_tags). by destruct v.
    + apply (IH (TSlice t') no_tags). by destruct t', v.
Qed.
