(* ===== verification/RlpTotal.v ===== *)
(** * RLP: decoding comes to an end

    What is left of a stream, its bytes and a kind that was looked at, never
    grows, and the decoders of most types make it shrink; a slice of such elements
    ends.  The decoder of a one-byte array may leave the stream as it is, and a
    slice of those may not end. *)
From Stdlib Require Import ZArith Lia.
From S2P Require Import Prelude Word Rlp RlpSpec RlpStream RlpDecode.
Import Big.
Open Scope Z_scope.

Definition left (s : Stream) : nat :=
  length s.(input) + match s.(kind) with Some _ => 1 | None => 0 end.

Definition wp {A} (m : SM A) (s : Stream) (Q : Stream -> A + rlp_error -> Prop) : Prop :=
  match m s with Some (s', r) => Q s' r | None => False end.

Lemma swp_mono {A} (m : SM A) s (Q Q' : Stream -> A + rlp_error -> Prop) :
  wp m s Q -> (forall s' r, Q s' r -> Q' s' r) -> wp m s Q'.
Proof. unfold wp. destruct (m s) as [[s' r]|]; auto. Qed.

Lemma swp_bind {A B} (m : SM A) (k : A -> SM B) s Q :
  wp m s (fun s' r => match r with inl a => wp (k a) s' Q | inr e => Q s' (inr e) end) -> wp (m ≫= k) s Q.
Proof. unfold wp. cbv [mbind SM_bind]. by destruct (m s) as [[s' [a|e]]|]. Qed.

Lemma swp_try {A} (m : SM A) s Q : wp m s (fun s' r => Q s' (inl r)) -> wp (try m) s Q.
Proof. unfold wp, try. by destruct (m s) as [[s' r]|]. Qed.

Lemma swp_wrapped {A} (m : SM A) s (Q : Stream -> A + rlp_error -> Prop) :
  wp m s (fun s' r => match r with inl a => Q s' (inl a) | inr e => Q s' (inr (wrapStreamError e)) end) ->
  wp (wrapped m) s Q.
Proof.
  intros Hm. apply swp_bind, swp_try. eapply swp_mono; [exact Hm|]. by intros s' [a|e].
Qed.

(** ** Reading *)
Definition shrunk {A} (n : nat) (s' : Stream) (_ : A + rlp_error) : Prop := (left s' <= n)%nat.

Lemma willRead_kept n s :
  wp (willRead n) s (fun s' r => s'.(input) = s.(input) /\ s'.(kind) = None /\ r <> inr EOL).
Proof.
  unfold wp, willRead. cbv [mbind SM_bind upd get mret SM_ret err]. destruct s as [i rm lm k z x e st].
  cbn. destruct st as [|[p l] st]; cbn.
  - destruct lm; [|done]. by destruct (_ <? _).
  - destruct (_ <? _); [done|]. cbn. destruct lm; [|done]. by destruct (_ <? _).
Qed.

Lemma readFull_shrinks n s : wp (readFull n) s (shrunk (length s.(input))).
Proof.
  unfold readFull. apply swp_bind. eapply swp_mono; [apply willRead_kept|].
  intros s' r (Hi & Hk & _). unfold shrunk, left. destruct r as [[]|e]; [|rewrite Hi, Hk; lia].
  unfold wp. cbv [mbind SM_bind upd get mret SM_ret err]. rewrite Hi.
  destruct (_ <? _)%nat; cbn [input kind set_input]; rewrite Hk, length_drop; lia.
Qed.

Lemma readByte_shrinks s :
  wp readByte s (fun s' r => match r with
    | inl _ => (left s' < length s.(input))%nat
    | inr e => (left s' <= length s.(input))%nat /\ e <> EOL
    end).
Proof.
  unfold readByte. apply swp_bind. eapply swp_mono; [apply willRead_kept|].
  intros s' r (Hi & Hk & Hr). unfold left. destruct r as [[]|e].
  - unfold wp. cbv [mbind SM_bind upd get mret SM_ret err]. rewrite Hi.
    destruct (input s) as [|b i]; cbn [input kind set_input]; rewrite ?Hk, ?Hi; cbn [length]; [|lia].
    split; [lia|done].
  - rewrite Hi, Hk. split; [lia|congruence].
Qed.

Lemma readUint_shrinks n s : wp (readUint n) s (shrunk (length s.(input))).
Proof.
  unfold readUint. destruct (n =? 0).
  - unfold wp, shrunk. cbv [mbind SM_bind upd mret SM_ret]. unfold left, rearm. cbn [input kind set_kind]. lia.
  - destruct (n =? 1).
    + eapply swp_mono; [apply readByte_shrinks|]. unfold shrunk. intros s' [b|e]; [lia|intros [? _]; lia].
    + apply swp_bind. eapply swp_mono; [apply readFull_shrinks|]. intros s' [b|e]; [|done].
      intros Hs. unfold wp. by destruct b as [|[]].
Qed.

(** The header is read, or there is not even a byte and the list goes on. *)
Lemma readKind_shrinks s : s.(kind) = None ->
  wp readKind s (fun s' r => match r with
    | inl (_, _, e) => (length s'.(input) < length s.(input))%nat \/ exists e', e = Some e' /\ e' <> EOL
    | inr _ => False
    end).
Proof.
  intros Hk. unfold readKind. apply swp_bind, swp_try. eapply swp_mono; [apply readByte_shrinks|].
  intros s' [b|e].
  - intros Hs. assert (length s'.(input) < length s.(input))%nat as Hi by (unfold left in Hs; lia).
    assert (forall k n, wp (readKind_sized k n) (set_kind s' s'.(kind) s'.(ssize) 0 s'.(kinderr)) (fun s' r => match r with
              | inl (_, _, e) => (length s'.(input) < length s.(input))%nat \/ exists e', e = Some e' /\ e' <> EOL
              | inr _ => False
              end)) as Hsized.
    { intros k n. unfold readKind_sized. apply swp_bind, swp_try. eapply swp_mono; [apply readUint_shrinks|].
      unfold shrunk, left. cbn [input set_kind]. intros s2 [v|e] Hs2; left; lia. }
    unfold wp at 1. cbv [mbind SM_bind upd]. destruct (b <? 0x80); [left; exact Hi|].
    destruct (b <? 0xB8); [left; exact Hi|]. destruct (b <? 0xC0); [exact (Hsized _ _)|].
    destruct (b <? 0xF8); [left; exact Hi|exact (Hsized _ _)].
  - intros [Hs He]. unfold wp. cbv [mbind SM_bind get mret SM_ret]. right. eexists. split; [reflexivity|].
    destruct (stack s'); [|done]. by destruct (decide _).
Qed.

(** A kind was looked at, and the stream has not grown; so at the end of a list. *)
Lemma Kind_shrinks s : wp Stream_Kind s (fun s' r =>
  match r with
  | inl _ => s'.(kind) <> None /\ (left s' <= left s)%nat
  | inr e => e = EOL -> (left s' <= left s)%nat
  end).
Proof.
  unfold Stream_Kind. apply swp_bind. change (wp (get (fun s => s)) s ?Q) with (Q s (inl s)). cbn beta iota.
  apply swp_bind. destruct (kind s) as [k|] eqn:Hk.
  { unfold wp. cbv [mbind SM_bind upd get mret SM_ret err stuck]. rewrite Hk.
    destruct (kinderr s); [done|]. split; [congruence|done]. }
  apply swp_bind. change (wp (upd ?f) s ?Q) with (Q (f s) (@inl _ rlp_error tt)). cbn beta iota. apply swp_bind.
  set (s1 := set_kind s s.(kind) s.(ssize) s.(byteval) None).
  assert (left s1 = left s /\ kind s1 = None /\ left s1 = length (input s1)) as (Hl & Hk1 & Hi).
  { unfold left, s1. cbn [input kind set_kind]. rewrite Hk. repeat split; lia. }
  assert (wp (match s.(stack) with tos :: _ => if tos.(pos) =? tos.(lsize) then err EOL else mret tt | [] => mret tt end)
             s1 (fun s' r => s' = s1 /\ (r = inl tt \/ r = inr EOL))) as Hend.
  { destruct (stack s); [by repeat split; left|]. unfold wp. destruct (_ =? _); cbv; auto. }
  eapply swp_mono; [exact Hend|]. intros s2 r [-> [->| ->]]; [|lia].
  apply swp_bind. eapply swp_mono; [by apply readKind_shrinks|]. intros s2 [[[k n] e]|e]; [|done].
  intros Hs. unfold wp. cbv [mbind SM_bind upd get mret SM_ret err stuck].
  cbn [kinderr kind set_kind ssize]. destruct e as [e|].
  - intros ->. destruct Hs as [Hs|(e' & He & Hn)]; [|congruence]. unfold left at 1. cbn [input kind set_kind]. lia.
  - destruct Hs as [Hs|(e' & He & Hn)]; [|congruence].
    assert (forall z e, (left (set_kind s2 (Some k) n z e) <= left s)%nat) as Hle.
    { intros z e. unfold left at 1. cbn [input kind set_kind]. lia. }
    destruct (stack s2); [destruct (_ && _)|destruct (_ <? _)]; try done; split; try done; apply Hle.
Qed.

(** ** Decoders *)

(** A result leaves less than [n], or as much; so does the end of a list. *)
Definition leaves {A} (strict : bool) (n : nat) (s' : Stream) (r : A + rlp_error) : Prop :=
  match r with
  | inl _ => (left s' + (if strict then 1 else 0) <= n)%nat
  | inr e => e = EOL -> (left s' <= n)%nat
  end.

Definition takes {A} (strict : bool) (m : SM A) : Prop := forall s, wp m s (leaves strict (left s)).

Lemma leaves_weaken {A} b b' n n' s' (r : A + rlp_error) : (n <= n')%nat -> (b' = true -> b = true) ->
  leaves b n s' r -> leaves b' n' s' r.
Proof.
  intros Hn Hb. destruct r as [a|e]; simpl; [|intros He ->; specialize (He eq_refl); lia].
  destruct b, b'; (lia || by specialize (Hb eq_refl)).
Qed.

Lemma takes_any {A} b (m : SM A) : takes true m -> takes b m.
Proof. intros Hm s. eapply swp_mono; [apply Hm|]. intros s' r. by apply leaves_weaken. Qed.

Lemma wrapStreamError_EOL e : wrapStreamError e = EOL -> e = EOL.
Proof. by destruct e. Qed.

Lemma takes_wrapped {A} b (m : SM A) : takes b m -> takes b (wrapped m).
Proof.
  intros Hm s. apply swp_wrapped. eapply swp_mono; [apply Hm|]. intros s' [a|e]; [done|]. simpl.
  intros He Hw. by apply He, wrapStreamError_EOL.
Qed.

(** What runs with a kind looked at. *)
Definition armed {A} (kn : Kind * Z) (b : bool) (m : SM A) : Prop :=
  forall s, Stream_Kind s = Some (s, inl kn) -> wp m s (leaves b (left s)).

Lemma takes_Kind {A} b (k : Kind * Z -> SM A) : (forall kn, armed kn b (k kn)) -> takes b (Stream_Kind ≫= k).
Proof.
  intros Hk s. apply swp_bind. pose proof (Kind_shrinks s) as Hs. unfold wp at 1 in Hs. unfold wp at 1.
  destruct (Stream_Kind s) as [[s' [kn|e]]|] eqn:E; [|done|done]. destruct Hs as [_ Hl].
  eapply swp_mono; [by apply Hk, (Kind_again s)|]. intros s2 r. by apply leaves_weaken.
Qed.

Lemma armed_left s kn : Stream_Kind s = Some (s, inl kn) -> left s = S (length s.(input)).
Proof.
  intros E. pose proof (Kind_shrinks s) as Hs. unfold wp in Hs. rewrite E in Hs. destruct Hs as [Hs _].
  unfold left. destruct (kind s); [lia|done].
Qed.

(** A read, then what does not touch the stream. *)
Lemma armed_read {A B} kn (m : SM A) (k : A + rlp_error -> B + rlp_error) :
  (forall s, wp m s (shrunk (length s.(input)))) ->
  armed kn true (fun s => match m s with Some (s, r) => Some (s, k r) | None => None end).
Proof.
  intros Hm s Hs. specialize (Hm s). unfold wp, shrunk in *. rewrite (armed_left s kn) by done.
  destruct (m s) as [[s' r]|]; [|done]. unfold leaves. destruct (k r); [lia|]. intros _. lia.
Qed.

Lemma armed_bind_read {A B} kn (m : SM A) (k : A -> SM B) (f : A -> B + rlp_error) :
  (forall s, wp m s (shrunk (length s.(input)))) -> (forall a s, k a s = Some (s, f a)) -> armed kn true (m ≫= k).
Proof.
  intros Hm Hk s Hs. pose proof (armed_read kn m (fun r => match r with inl a => f a | inr e => inr e end) Hm s Hs) as Hr.
  unfold wp in *. cbv [mbind SM_bind]. destruct (m s) as [[s' [a|e]]|]; [by rewrite Hk|done|done].
Qed.

Lemma armed_rearm {A} kn (a : A) b : armed kn b (upd rearm;; mret a).
Proof.
  intros s Hs. unfold wp. cbv [mbind SM_bind upd mret SM_ret]. rewrite (armed_left s _ Hs).
  unfold leaves, left, rearm. cbn [input kind set_kind]. destruct b; lia.
Qed.

Lemma armed_byteval {A} kn b (k : Z -> SM A) : (forall x, armed kn b (k x)) -> armed kn b (x ← get byteval; k x).
Proof. intros Hk s Hs. apply (Hk (byteval s) s Hs). Qed.

Lemma armed_err {A} kn b e : e <> EOL -> armed kn b (@err A e).
Proof. by intros He s Hs ?. Qed.

Lemma takes_Bytes : takes true Stream_Bytes.
Proof.
  apply takes_Kind. intros [[] n]; [apply armed_byteval; intros x; apply armed_rearm| |by apply armed_err].
  apply (armed_bind_read _ _ _ (fun b => match b with [x] => if x <? 128 then inr ErrCanonSize else inl b | _ => inl b end)).
  { intros s. apply readFull_shrinks. }
  intros [|x [|]] s; [done| |done]. by destruct (x <? 128).
Qed.

Lemma takes_Raw : takes true Stream_Raw.
Proof.
  apply takes_Kind. intros [[] n]; [apply armed_byteval; intros x; apply armed_rearm|..];
    (eapply armed_bind_read; [intros s; apply readFull_shrinks|]); intros a s; reflexivity.
Qed.

Lemma takes_uint bits : takes true (Stream_uint bits).
Proof.
  apply takes_Kind. intros [[] n]; [| |by apply armed_err].
  - apply armed_byteval. intros x. destruct (x =? 0); [by apply armed_err|apply armed_rearm].
  - destruct (_ <? n); [by apply armed_err|]. intros s Hs.
    pose proof (readUint_shrinks (u8 n) s) as Hr. unfold wp, shrunk in *. cbv [mbind SM_bind try].
    rewrite (armed_left s _ Hs). destruct (readUint (u8 n) s) as [[s' [v|e]]|]; [|simpl; lia|done].
    destruct (_ && _); simpl; lia.
Qed.

Lemma takes_ret {A B} b (m : SM A) (f : A -> B) : takes b m -> takes b (x ← m; mret (f x)).
Proof.
  intros Hm s. apply swp_bind. eapply swp_mono; [apply Hm|]. by intros s' [a|e].
Qed.

Lemma takes_Bool : takes true Stream_Bool.
Proof.
  intros s. apply swp_bind. eapply swp_mono; [apply takes_uint|]. intros s' [v|e]; [|done]. simpl. intros Hs.
  unfold wp. destruct (v =? 0); [done|]. by destruct (v =? 1).
Qed.

Lemma takes_BigInt : takes true decodeBigInt.
Proof.
  intros s. apply swp_bind. eapply swp_mono; [apply takes_wrapped, takes_Bytes|]. intros s' [b|e]; [|done].
  simpl. intros Hs. unfold wp. by destruct b as [|[] b].
Qed.

Lemma takes_List : takes true Stream_List.
Proof.
  apply takes_Kind. intros [[] n]; [by apply armed_err..|]. intros s Hs. unfold wp.
  cbv [mbind SM_bind upd mret SM_ret]. rewrite (armed_left s _ Hs). unfold leaves, left.
  cbn [input kind set_kind set_stack]. lia.
Qed.

Lemma takes_ListEnd : takes false Stream_ListEnd.
Proof.
  intros s. unfold wp, Stream_ListEnd. cbv [mbind SM_bind get]. destruct (stack s) as [|tos st]; [done|].
  destruct (negb _); [done|]. cbv [upd]. unfold leaves, left. cbn [input kind set_kind set_stack]. lia.
Qed.

(** A one-byte array can leave a zero byte where it is. *)
Lemma takes_ByteArray n : takes (negb (n =? 1)%nat) (decodeByteArray n).
Proof.
  apply takes_Kind. intros [[] sz]; [| |by apply armed_err].
  - destruct n as [|[|n]]; [by apply armed_err| |by apply armed_err]. intros s Hs.
    unfold wp, Stream_Uint, Stream_uint. cbv [mbind SM_bind try]. rewrite Hs. cbv [get].
    destruct (byteval s =? 0); cbv [err upd mret SM_ret]; rewrite (armed_left s _ Hs);
      unfold leaves; cbn [negb Nat.eqb]; [rewrite (armed_left s _ Hs); lia|].
    unfold left, rearm. cbn [input kind set_kind]. lia.
  - destruct (_ <? sz); [by apply armed_err|]. destruct (sz <? _); [by apply armed_err|].
    intros s Hs. eapply swp_mono; [|intros s' r; apply (leaves_weaken true); [apply Nat.le_refl|done]].
    revert s Hs. apply (armed_bind_read _ _ _ (fun b => match b with
      | [x] => if x <? 128 then inr (wrapStreamError ErrCanonSize) else inl (VBytes b) | _ => inl (VBytes b) end)).
    { intros s. apply readFull_shrinks. }
    intros [|x [|]] s; [done| |done]. by destruct (x <? 128).
Qed.

(** ** Lists *)

(** The same, for streams with less than [n] left, which is what fuel is enough for. *)
Definition takes_below {A} (n : nat) (strict : bool) (m : SM A) : Prop :=
  forall s, (left s < n)%nat -> wp m s (leaves strict (left s)).

Lemma takes_takes_below {A} n b (m : SM A) : takes b m -> takes_below n b m.
Proof. intros Hm s _. apply Hm. Qed.

Lemma takes_below_any {A} n b (m : SM A) : takes_below n true m -> takes_below n b m.
Proof. intros Hm s Hs. eapply swp_mono; [by apply Hm|]. intros s' r. by apply leaves_weaken. Qed.

Lemma takes_below_false {A} n b (m : SM A) : takes_below n b m -> takes_below n false m.
Proof. intros Hm s Hs. eapply swp_mono; [by apply Hm|]. intros s' r. by apply leaves_weaken. Qed.

Lemma takes_below_bind {A B} n b (m : SM A) (k : A -> SM B) :
  takes_below n b m -> (forall a, takes_below n false (k a)) -> takes_below n b (m ≫= k).
Proof.
  intros Hm Hk s Hs. apply swp_bind. eapply swp_mono; [by apply Hm|]. intros s' [a|e]; [|done].
  unfold leaves at 1. intros Hl. eapply swp_mono; [apply Hk; lia|]. intros s2 [r|e]; simpl; [lia|].
  intros He ->. specialize (He eq_refl). lia.
Qed.

Lemma takes_below_ret {A} n (a : A) : takes_below n false (mret a).
Proof. intros s _. unfold wp. simpl. lia. Qed.

(** Errors are passed on, the end of a list as another error. *)
Lemma takes_below_eol {A} n b (m : SM A) e : takes_below n b m -> e <> EOL ->
  takes_below n b (r ← try m; match r with inl x => mret x | inr EOL => err e | inr e => err e end).
Proof.
  intros Hm He s Hs. apply swp_bind, swp_try. eapply swp_mono; [by apply Hm|].
  intros s' [a|[]]; try done. intros _. unfold wp, err. simpl. congruence.
Qed.

Lemma takes_SliceElems n (m : SM val) : takes_below n true m ->
  forall fuel, (forall s, (left s < fuel)%nat -> (left s < n)%nat -> wp (decodeSliceElems fuel m) s (leaves false (left s))).
Proof.
  intros Hm fuel. induction fuel as [|fuel IH]; intros s Hf Hn; [lia|]. cbn [decodeSliceElems].
  apply swp_bind, swp_try. eapply swp_mono; [by apply Hm|]. intros s' [x|e].
  - unfold leaves at 1. intros Hl. apply swp_bind. eapply swp_mono; [apply IH; lia|].
    intros s2 [r|e]; [unfold wp; simpl; lia|]. simpl. intros He ->. specialize (He eq_refl). lia.
  - intros He. unfold wp. destruct e; try done. simpl. specialize (He eq_refl). lia.
Qed.

Lemma takes_ListSlice n (m : SM val) s : takes_below n true m -> (left s <= n)%nat ->
  wp (decodeListSlice n m) s (leaves true (left s)).
Proof.
  intros Hm Hn. unfold decodeListSlice. apply swp_bind. eapply swp_mono; [apply takes_wrapped, takes_List|].
  intros s1 [size|e]; [|done]. unfold leaves at 1. intros Hl.
  assert (forall (v : val) s2, (left s2 <= left s1)%nat ->
    wp (Stream_ListEnd;; mret v) s2 (leaves true (left s))) as Hend.
  { intros v s2 Hs2. apply swp_bind. eapply swp_mono; [apply takes_ListEnd|]. intros s3 [[]|e]; simpl.
    - unfold wp. simpl. lia.
    - intros He ->. specialize (He eq_refl). lia. }
  destruct (size =? 0); [by apply Hend|]. apply swp_bind.
  eapply swp_mono; [apply (takes_SliceElems n); [done|lia|lia]|]. intros s2 [l|e]; simpl.
  - intros Hs2. apply Hend. lia.
  - intros He ->. specialize (He eq_refl). lia.
Qed.

Lemma takes_array_elems n k (m : SM val) : takes_below n false m -> takes_below n false (decode_array_elems k m).
Proof.
  intros Hm. induction k as [|k IH]; cbn [decode_array_elems]; [apply takes_below_ret|].
  intros s Hs. apply swp_bind, swp_try. eapply swp_mono; [by apply Hm|]. intros s' [x|e].
  - unfold leaves at 1. intros Hl. apply swp_bind. eapply swp_mono; [apply IH; lia|].
    intros s2 [r|e]; [unfold wp; simpl; lia|]. simpl. intros He ->. specialize (He eq_refl). lia.
  - intros He. unfold wp. by destruct e.
Qed.

Lemma takes_in_list n (m : SM (list val)) : takes_below n false m ->
  takes_below n true (wrapped Stream_List;; l ← m; wrapped Stream_ListEnd;; mret (VList l)).
Proof.
  intros Hm. apply takes_below_bind; [apply takes_takes_below, takes_wrapped, takes_List|]. intros _.
  apply takes_below_bind; [done|]. intros l.
  apply takes_below_bind; [apply takes_takes_below, takes_wrapped, takes_ListEnd|]. intros _.
  apply takes_below_ret.
Qed.

Lemma takes_Interface fuel : takes_below fuel true (decodeInterface fuel).
Proof.
  induction fuel as [|fuel IH]; intros s Hs; [lia|]. cbn [decodeInterface]. apply swp_bind.
  eapply swp_mono; [apply Kind_shrinks|]. intros s1 [[k sz]|e]; [|done]. intros [_ Hl].
  assert (forall A (m : SM A) (f : A -> val), wp m s1 (leaves true (left s1)) ->
    wp (x ← m; mret (f x)) s1 (leaves true (left s))) as Hret.
  { intros A m f Hm. apply swp_bind. eapply swp_mono; [exact Hm|]. intros s2 [x|e]; unfold wp; simpl; [lia|].
    intros He ->. specialize (He eq_refl). lia. }
  destruct k; apply Hret; [apply takes_Bytes..|]. apply takes_ListSlice; [done|lia].
Qed.

Lemma takes_optional n (m : SM val) b : takes_below n b m -> takes_below n b (decode_optional m).
Proof.
  intros Hm s Hs. unfold decode_optional. apply swp_bind, swp_try. eapply swp_mono; [apply Kind_shrinks|].
  intros s1 [[k sz]|e].
  - intros [Ha Hl]. destruct (_ && _).
    + unfold wp. cbv [mbind SM_bind upd mret SM_ret]. unfold leaves, left at 1, rearm. cbn [input kind set_kind].
      unfold left at 1 in Hl. destruct (kind s1); [|done]. destruct b; lia.
    + apply swp_bind. eapply swp_mono; [apply Hm; lia|]. intros s2 [x|e]; unfold wp; simpl; [lia|].
      intros He ->. specialize (He eq_refl). lia.
  - intros He. unfold wp. cbv [mbind SM_bind upd err]. unfold leaves. intros ->. specialize (He eq_refl).
    unfold left, rearm in *. cbn [input kind set_kind]. lia.
Qed.

(** ** Types *)

(** Reading one of these takes something off the stream. *)
Fixpoint takes_bytes (t : rtype) : bool :=
  match t with
  | TByteArray n => negb (n =? 1)%nat
  | TPtr t => takes_bytes t
  | _ => true
  end.

(** All slices are of such elements. *)
Fixpoint slices_end (t : rtype) : bool :=
  match t with
  | TSlice t => takes_bytes t && slices_end t
  | TArray _ t | TPtr t => slices_end t
  | TStruct fs => forallb (fun f => slices_end f.1) fs
  | _ => true
  end.

(** A struct stops at the first field that fails, the end of its list included. *)
Lemma takes_field n b (m : SM val) : takes_below n b m -> takes_below n b (decode_field m).
Proof.
  intros Hm s Hs. unfold decode_field. apply swp_bind, swp_try. eapply swp_mono; [by apply Hm|].
  intros s' [x|e]; [done|]. intros _. unfold wp. by destruct e.
Qed.

Lemma takes_fields n fuel fs :
  Forall (fun f => takes_below n false (decode fuel f.1 f.2)) fs ->
  takes_below n false ((fix fields (fs : list (rtype * tags)) : SM (list val) :=
    match fs with
    | [] => mret []
    | f :: fs => x ← decode_field (decode fuel f.1 f.2); l ← fields fs; mret (x :: l)
    end) fs).
Proof.
  induction 1 as [|f fs Hf _ IH]; [apply takes_below_ret|].
  apply takes_below_bind; [by apply takes_field|]. intros x.
  apply takes_below_bind; [exact IH|]. intros l. apply takes_below_ret.
Qed.

Lemma takes_below_map {A B} n b (m : SM A) (f : A -> B) : takes_below n b m -> takes_below n b (x ← m; mret (f x)).
Proof. intros Hm. apply takes_below_bind; [done|]. intros x. apply takes_below_ret. Qed.

Lemma takes_decode t : forall fuel ts, slices_end t = true ->
  takes_below fuel (takes_bytes t && negb (is_tail t ts)) (decode fuel t ts).
Proof.
  revert t. refine (rtype_nested_ind _ _ _ _ _ _);
    [intros t|intros t IH|intros n t IH|intros fs IH|intros t IH];
    [destruct t; try done|..]; intros fuel ts Hs; cbn [slices_end takes_bytes is_tail decode andb negb] in *.
  - apply takes_takes_below, takes_ret, takes_Raw.
  - apply takes_takes_below, takes_ret, takes_BigInt.
  - apply takes_takes_below, takes_ret, takes_BigInt.
  - apply takes_takes_below, takes_ret, takes_wrapped, takes_uint.
  - apply takes_takes_below, takes_ret, takes_wrapped, takes_Bool.
  - apply takes_takes_below, takes_ret, takes_wrapped, takes_Bytes.
  - apply takes_takes_below, takes_ret, takes_wrapped, takes_Bytes.
  - rewrite andb_true_r. apply takes_takes_below, takes_ByteArray.
  - apply takes_Interface.
  - apply andb_true_iff in Hs as [Ht Hs]. specialize (IH fuel no_tags Hs).
    rewrite Ht, is_tail_no_tags in IH. cbn [andb negb] in IH. destruct (tail ts); cbn [negb].
    + apply takes_below_map. intros s Hl. by apply (takes_SliceElems fuel).
    + intros s Hl. apply takes_ListSlice; [done|lia].
  - apply (takes_in_list fuel (decode_array_elems n (decode fuel t no_tags))), takes_array_elems.
    eapply takes_below_false, IH, Hs.
  - apply (takes_in_list fuel _), takes_fields. apply Is_true_eq_left, forallb_True in Hs.
    eapply Forall_impl; [apply Forall_and; split; [exact IH|exact Hs]|]. intros f [Hf Hfs].
    eapply takes_below_false, Hf, Is_true_eq_true, Hfs.
  - rewrite andb_true_r. specialize (IH fuel no_tags Hs). rewrite is_tail_no_tags, andb_true_r in IH.
    destruct (nilOK ts); [by apply takes_optional|by apply takes_below_map].
Qed.

(** Any input, good or bad, is decoded or refused. *)
Lemma DecodeBytes_ends b t : slices_end t = true -> DecodeBytes b t <> None.
Proof.
  intros Ht. pose proof (takes_decode t (S (length b)) no_tags Ht (NewStream b)) as Hw.
  unfold DecodeBytes, DecodeBytes_fuel. unfold wp in Hw.
  destruct (decode _ t no_tags (NewStream b)) as [[s [v|e]]|]; cbn [mbind option_bind]; [|done|].
  - by destruct (0 <? _)%nat.
  - exfalso. apply Hw. unfold left, NewStream. cbn [input kind]. lia.
Qed.

(** Where the kind is a zero byte, a one-byte array is read again and again. *)
Lemma zero_bytes_never_end fuel s : Stream_Kind s = Some (s, inl (Byte, 0)) -> s.(byteval) = 0 ->
  decodeSliceElems fuel (decodeByteArray 1) s = None.
Proof.
  intros Hk Hb. induction fuel as [|fuel IH]; [done|]. cbn [decodeSliceElems].
  assert (decodeByteArray 1 s = Some (s, inl (VBytes [0]))) as Hd.
  { unfold decodeByteArray, Stream_Uint, Stream_uint. cbv [mbind SM_bind try]. rewrite !Hk. cbv [get].
    by rewrite Hb. }
  cbv [mbind SM_bind try] in *. by rewrite Hd, IH.
Qed.
