(* ===== verification/RlpProperties.v ===== *)
(** * RLP: the properties

    What the encoder produces, that decoding gives it back, when decoding ends, and
    what the functions of raw.go find in an encoding. *)
From Stdlib Require Import ZArith Lia.
From S2P Require Import Prelude Word Rlp RlpSpec RlpStream RlpDecode RlpTotal.
Import Big.
Open Scope Z_scope.

(** ** raw.go *)
Lemma readSize_Bytes n rest : 56 <= n < 2 ^ 64 -> readSize (Bytes n ++ rest) (len (Bytes n)) = Ret n.
Proof.
  intros Hn. unfold readSize. rewrite (proj2 (Z.ltb_ge _ _)) by (rewrite length_app; lia).
  rewrite Nat2Z.id, take_app_length, Bytes_int, Z.abs_eq by lia.
  destruct (Bytes_head n) as (b & bs & Hb & Hb0); [lia|]. rewrite Hb. cbn [app].
  change ((b :: bs ++ rest) !! 0%nat) with (Some b). cbn [or_panic mbind outcome_bind].
  rewrite (proj2 (Z.ltb_ge n 56)), (proj2 (Z.eqb_neq b 0)) by lia. done.
Qed.

Lemma readKind_byte x rest : 0 <= x < 128 -> len rest < 2 ^ 63 -> Rlp.readKind (x :: rest) = Ret (Byte, 0, 1).
Proof.
  intros Hx Hl. unfold Rlp.readKind. rewrite (proj2 (Z.ltb_lt x 128)) by lia. cbn [mbind outcome_bind].
  rewrite u64_id by (unfold is_u64; cbn [length]; lia). rewrite (proj2 (Z.ltb_ge _ _)) by (cbn [length]; lia). done.
Qed.

Lemma raw_readKind_hdr k c rest : k <> Byte -> len (hdr k (len c) ++ c ++ rest) < 2 ^ 63 ->
  (k = String -> single c = false) ->
  Rlp.readKind (hdr k (len c) ++ c ++ rest) = Ret (k, len (hdr k (len c)), len c).
Proof.
  intros Hk Hl Hs. assert (0 <= len c < 2 ^ 64) as Hc by (rewrite !length_app in Hl; lia).
  assert (forall tagsize, 0 <= tagsize -> tagsize + len c <= len (hdr k (len c) ++ c ++ rest) ->
    u64 (len (hdr k (len c) ++ c ++ rest) - tagsize) <? len c = false) as Hsz.
  { intros tagsize H1 H2. rewrite u64_id by (unfold is_u64; lia). apply Z.ltb_ge. lia. }
  revert Hl Hsz. unfold Rlp.readKind, hdr, header. destruct (Z.ltb_spec (len c) 56) as [Hlt|Hge]; intros Hl Hsz.
  - cbn [app length] in *. destruct k; [done|..]; unfold small in *.
    + rewrite (proj2 (Z.ltb_ge _ 0x80)), (proj2 (Z.ltb_lt _ 0xB8)) by lia. unfold u8.
      rewrite Z.mod_small by lia. replace (128 + len c - 128) with (len c) by lia.
      replace (match c ++ rest with [] => _ | _ => _ end)
        with (@Ret rlp_error _ (String, 1, len c)).
      { cbn [mbind outcome_bind]. rewrite Hsz by (cbn [length]; rewrite ?length_app; lia). done. }
      destruct (c ++ rest) as [|y l] eqn:E; [done|]. destruct (Z.eqb_spec (len c) 1) as [E1|]; [|done].
      destruct c as [|z [|]]; try (cbn [length] in E1; lia). injection E as -> _.
      specialize (Hs eq_refl). unfold single in Hs. by rewrite Hs.
    + rewrite (proj2 (Z.ltb_ge _ 0x80)), (proj2 (Z.ltb_ge _ 0xB8)), (proj2 (Z.ltb_ge _ 0xC0)),
        (proj2 (Z.ltb_lt _ 0xF8)) by lia.
      unfold u8. rewrite Z.mod_small by lia. replace (192 + len c - 192) with (len c) by lia.
      cbn [mbind outcome_bind]. rewrite Hsz by (cbn [length]; rewrite ?length_app; lia). done.
  - pose proof (Bytes_short (len c) ltac:(lia)) as H8. destruct (Bytes_head (len c) ltac:(lia)) as (b & bs & Hb & _).
    assert (1 <= len (Bytes (len c))) by (rewrite Hb; cbn [length]; lia). clear b bs Hb Hs.
    cbn [app length] in *. destruct k; [done|..]; unfold large in *.
    + rewrite (proj2 (Z.ltb_ge _ 0x80)), (proj2 (Z.ltb_ge _ 0xB8)), (proj2 (Z.ltb_lt _ 0xC0)) by lia.
      unfold u8. rewrite Z.mod_small by lia. replace (183 + len (Bytes (len c)) - 183) with (len (Bytes (len c))) by lia.
      rewrite readSize_Bytes by lia. cbn [mbind outcome_bind].
      rewrite Hsz by (cbn [length]; rewrite ?length_app; lia). do 3 f_equal. lia.
    + rewrite (proj2 (Z.ltb_ge _ 0x80)), (proj2 (Z.ltb_ge _ 0xB8)), (proj2 (Z.ltb_ge _ 0xC0)),
        (proj2 (Z.ltb_ge _ 0xF8)) by lia.
      unfold u8. rewrite Z.mod_small by lia. replace (247 + len (Bytes (len c)) - 247) with (len (Bytes (len c))) by lia.
      rewrite readSize_Bytes by lia. cbn [mbind outcome_bind].
      rewrite Hsz by (cbn [length]; rewrite ?length_app; lia). do 3 f_equal. lia.
Qed.

Lemma slice_app_mid (a b c : list Z) : slice (a ++ b ++ c) (len a) (len a + len b) = Some b.
Proof.
  unfold slice. rewrite (proj2 (Z.leb_le 0 _)), (proj2 (Z.leb_le _ (_ + _))), (proj2 (Z.leb_le _ _)) by
    (rewrite ?length_app; lia). cbn [andb]. f_equal. rewrite Nat2Z.id, drop_app_length.
  apply take_app_length'. lia.
Qed.

Lemma slice_app_end (a c : list Z) n : n = len (a ++ c) -> slice (a ++ c) (len a) n = Some c.
Proof.
  intros ->. pose proof (slice_app_mid a c []) as Hs. rewrite app_nil_r in Hs.
  by rewrite length_app, Nat2Z.inj_add.
Qed.

(** What [Split] finds in an item. *)
Definition item_kind (i : item) : Kind :=
  match i with Str b => if single b then Byte else String | _ => List end.
Definition item_content (i : item) : list Z :=
  match i with Str b | Raw b => b | Lst l => encs l end.
Definition plain (i : item) : Prop :=
  match i with Str b => bytes_ok b | Lst _ => True | Raw _ => False end.

(** The header's size of an item, none for a single byte. *)
Lemma item_parts i rest : plain i -> len (enc i ++ rest) < 2 ^ 63 -> exists h,
  enc i = h ++ item_content i /\
  Rlp.readKind (enc i ++ rest) = Ret (item_kind i, len h, len (item_content i)).
Proof.
  intros Hp Hl. destruct i as [b|l|b]; [|exists (hdr List (len (encs l)))|done].
  - cbn [enc item_kind item_content plain] in *. unfold enc_str in *. destruct (single b) eqn:Es.
    + exists []. split; [done|]. destruct (single_spec b Hp Es) as (x & -> & Hx).
      apply readKind_byte; [lia|]. cbn [app length] in Hl. lia.
    + exists (hdr String (len b)). split; [done|].
      change (header 128 183 (len b)) with (hdr String (len b)) in *. rewrite <- app_assoc in *.
      by apply raw_readKind_hdr.
  - cbn [enc item_kind item_content] in *. fold (encs l) in *. split; [done|].
    rewrite enc_lst_hdr, <- app_assoc in *. by apply raw_readKind_hdr.
Qed.

Lemma Split_item i rest : plain i -> len (enc i ++ rest) < 2 ^ 63 ->
  Split (enc i ++ rest) = Ret (item_kind i, item_content i, rest).
Proof.
  intros Hp Hl. destruct (item_parts i rest Hp Hl) as (h & He & Hk). unfold Split. rewrite Hk.
  cbn [mbind outcome_bind]. rewrite He in *. rewrite <- app_assoc in *. rewrite !length_app in Hl.
  rewrite u64_id by (unfold is_u64; lia). rewrite slice_app_mid. cbn [or_panic mbind outcome_bind].
  rewrite app_assoc, <- Nat2Z.inj_add, <- length_app.
  by rewrite slice_app_end.
Qed.

Lemma CountValues_items l : Forall plain l -> len (encs l) < 2 ^ 63 -> forall fuel i,
  (length (encs l) <= fuel)%nat -> CountValues_loop fuel (encs l) i = Ret (i + len l).
Proof.
  induction 1 as [|x l Hx _ IH]; intros Hl fuel i Hf.
  - destruct fuel; cbn; by rewrite Z.add_0_r.
  - change (encs (x :: l)) with (enc x ++ encs l) in *.
    destruct (item_parts x (encs l) Hx Hl) as (h & He & Hk).
    assert (0 < length (enc x))%nat as Hpos.
    { apply headed_nonempty. rewrite <- encs_one. by apply headed_enc; intros b ->. }
    rewrite length_app in Hf. destruct fuel as [|fuel]; [lia|].
    assert (CountValues_loop (S fuel) (enc x ++ encs l) i =
      ('(_, tagsize, size) ← Rlp.readKind (enc x ++ encs l);
       b ← or_panic (slice (enc x ++ encs l) (u64 (tagsize + size)) (len (enc x ++ encs l)));
       CountValues_loop fuel b (i + 1))) as ->.
    { cbn [CountValues_loop]. by destruct (enc x ++ encs l) eqn:E; [destruct (enc x)|]. }
    rewrite Hk. cbn [mbind outcome_bind]. rewrite length_app in Hl.
    assert (len h + len (item_content x) = len (enc x)) as -> by (rewrite He, length_app; lia).
    rewrite u64_id, slice_app_end by (done || (unfold is_u64; lia)). cbn [or_panic mbind outcome_bind].
    rewrite IH by lia. f_equal. cbn [length]. lia.
Qed.

(** * Properties *)

(** C12: the encoder writes RLP.  A value of a type - a boolean too, which the comment of Encode calls unsupported, and
    which is the byte 1 or the empty string - is refused exactly when there is a negative big integer in
    it; otherwise its encoding is that of the items it stands for, [encs], whichever of the three ways it leaves
    the encode buffer: as one slice, into a writer, or piece by piece through a reader, which after [n] bytes
    holds the rest. *)
Theorem encoding_is_rlp t v : has_type v t ->
  match items v t no_tags with
  | None => EncodeToBytes t v = Err errNegativeBigInt
  | Some l =>
      len (encs l) < 2 ^ 63 ->
      EncodeToBytes t v = Ret (encs l) /\
      (exists w, write v t no_tags new_encbuf = Ret w /\
         forall out, toWriter buffer_Write w out = Some (out ++ encs l, None)) /\
      exists r, EncodeToReader t v = Ret (len (encs l), r) /\ to_read r = Some (encs l) /\
        forall n, exists r',
          Read_loop (S (length (encs l))) r n =
            Some (r', take n (encs l), bool_decide (length (encs l) <= n)%nat) /\
          to_read r' = Some (drop n (encs l))
  end.
Proof.
  intros Ht. destruct (items v t no_tags) as [l|] eqn:Hl.
  - intros Hlen. destruct (encode_grows v t l Ht Hl Hlen) as (w & Hw & Hr & Hs).
    unfold EncodeToBytes, EncodeToReader. rewrite Hw. cbn [mbind outcome_bind].
    split; [by rewrite (toBytes_render w _ Hr Hs)|]. split.
    { exists w. split; [done|]. intros out. by apply toWriter_render. }
    rewrite Hs. eexists. split; [reflexivity|].
    assert (to_read {| buf := Some w; lhpos := 0; strpos := 0; piece := None |} = Some (encs l)) as Hread.
    { unfold to_read. cbn [buf lhpos strpos piece]. rewrite drop_0, Hr. done. }
    split; [done|]. intros n. destruct (Read_loop_spec (S (length (encs l))) _ _ n Hread) as (r' & H1 & H2 & _);
      [done|lia|]. by exists r'.
  - pose proof (write_writes v t no_tags Ht new_encbuf) as Hw. rewrite Hl in Hw.
    unfold EncodeToBytes. by rewrite Hw.
Qed.

Lemma encode_then_decode t v : decodable v t no_tags -> exists l, items v t no_tags = Some l /\
  (len (encs l) < 2 ^ 63 ->
   EncodeToBytes t v = Ret (encs l) /\ DecodeBytes (encs l) t = Some (inl v)).
Proof.
  intros Hd. destruct (items v t no_tags) as [l|] eqn:Hl; [|by apply decodable_items in Hd].
  exists l. split; [done|]. intros Hlen.
  destruct (encode_grows v t l (decodable_has_type _ _ _ Hd) Hl Hlen) as (w & Hw & Hr & Hs).
  split; [unfold EncodeToBytes; rewrite Hw; cbn [mbind outcome_bind]; by rewrite (toBytes_render w _ Hr Hs)|].
  destruct (decode_ok v t no_tags Hd (S (length (encs l))) l Hl ltac:(lia)) as [_ Hrd].
  destruct (Hrd (is_tail_no_tags t) [] [] 0 0 None) as (n' & x' & e' & Hdec); [lia|done|].
  rewrite app_nil_r in Hdec. unfold DecodeBytes, DecodeBytes_fuel.
  change (NewStream (encs l)) with (mk (encs l) [] None 0 0 None). by rewrite Hdec.
Qed.

(** C13: decoding gives back what was encoded.  The encoding of a value decoding can give ([decodable]: every
    type, with booleans, which the comment of Decode calls unsupported, but for nil pointers without their tag, raw values that are no encoding, other things than bytes and
    lists in an interface, and zero bytes in one-byte arrays) is decoded to that value, with nothing left over
    and no error. *)
Theorem decoding_inverts_encoding t v : decodable v t no_tags -> exists l, items v t no_tags = Some l /\
  (len (encs l) < 2 ^ 63 ->
   EncodeToBytes t v = Ret (encs l) /\ DecodeBytes (encs l) t = Some (inl v)).
Proof. apply encode_then_decode. Qed.

(** C39: decoding ends.  Whatever the bytes are, the decoder of a type whose slices have elements that take a
    byte or more of the input gives a value or an error; as many turns as there are bytes, and one, are enough
    for all its loops. *)
Theorem decoding_ends b t : slices_end t = true -> exists r, DecodeBytes b t = Some r.
Proof. intros Ht. apply DecodeBytes_ends with (b := b) in Ht. destruct (DecodeBytes b t) as [r|]; [by exists r|done]. Qed.

(** decoding a slice of one-byte arrays that has a zero byte does not end, although it is what the encoder
    writes: the decoder of the array leaves a zero byte in the stream, so the same element is appended without
    end; however many turns the loop is given, it wants another. *)
Theorem one_byte_arrays_loop : 
  let t := TSlice (TByteArray 1) in
  EncodeToBytes t (VList [VBytes [0]]) = Ret [0xC1; 0] /\
  forall fuel, DecodeBytes_fuel fuel [0xC1; 0] t = None.
Proof.
  split; [reflexivity|]. intros [|fuel]; [done|]. unfold DecodeBytes_fuel. cbn [decode tail no_tags].
  unfold decodeListSlice. cbv [mbind SM_bind wrapped try].
  replace (Stream_List (NewStream [0xC1; 0])) with
    (Some (mk [0] [{| pos := 0; lsize := 1 |}] None 0 0 None, @inl _ rlp_error 1)) by done.
  cbv [mret SM_ret]. change (1 =? 0) with false.
  set (s := mk [0] [{| pos := 0; lsize := 1 |}] None 0 0 None).
  set (s' := mk [] [{| pos := 1; lsize := 1 |}] (Some Byte) 0 0 None).
  assert (decodeByteArray 1 s = Some (s', inl (VBytes [0]))) as Hd by reflexivity.
  cbn [decodeSliceElems]. cbv [mbind SM_bind try]. rewrite Hd.
  by rewrite (zero_bytes_never_end fuel s') by done.
Qed.

(** Raw.go takes encodings apart.  [Split] gives the kind and the content of the first item and what comes
    after it, [SplitString] and [SplitList] do so for their kinds and refuse the other, and [CountValues] is the
    number of items. *)
Theorem split_finds_the_items l : Forall plain l -> len (encs l) < 2 ^ 63 ->
  CountValues (encs l) = Ret (len l) /\
  match l with
  | [] => Split (encs l) = Err ErrUnexpectedEOF
  | i :: rest =>
      Split (encs l) = Ret (item_kind i, item_content i, encs rest) /\
      (SplitString (encs l), SplitList (encs l)) =
        match i with
        | Lst _ => (Err ErrExpectedString, Ret (item_content i, encs rest))
        | _ => (Ret (item_content i, encs rest), Err ErrExpectedList)
        end
  end.
Proof.
  intros Hl Hlen. split; [by apply (CountValues_items l Hl Hlen)|].
  destruct l as [|i rest]; [done|]. apply Forall_cons in Hl as [Hi _].
  change (encs (i :: rest)) with (enc i ++ encs rest) in *.
  pose proof (Split_item i (encs rest) Hi Hlen) as Hs. split; [done|]. unfold SplitString, SplitList. rewrite Hs.
  cbn [mbind outcome_bind]. destruct i as [b|k|b]; [|done|done]. unfold item_kind. by destruct (single b).
Qed.

(** ** Witnesses *)

(** A struct with a number, an optional pointer, an interface and a tail. *)
Definition sample_type : rtype :=
  TStruct [(TUint 64, no_tags); (TPtr (TStruct [(TBytes, no_tags)]), {| nilOK := true; tail := false |});
           (TInterface, no_tags); (TSlice (TByteArray 2), {| nilOK := false; tail := true |})].
Definition sample_value : val :=
  VList [VUint 1024; VNil; VIface (TSlice TInterface) (VList [VIface TBytes (VBytes [7])]); VList [VBytes [0; 9]]].
Definition sample_items : list item :=
  [Lst [Str [4; 0]; Lst []; Lst [Str [7]]; Str [0; 9]]].

Lemma encoding_is_rlp_witness :
  EncodeToBytes sample_type sample_value = Ret (encs sample_items) /\
  encs sample_items = [201; 130; 4; 0; 192; 193; 7; 130; 0; 9].
Proof.
  split; [|reflexivity].
  assert (has_type sample_value sample_type) as Ht by (repeat constructor; lia).
  destruct (encoding_is_rlp sample_type sample_value Ht) as [H _]; [reflexivity|exact H].
Defined.

Lemma decoding_inverts_encoding_witness : exists l, items sample_value sample_type no_tags = Some l /\
  (len (encs l) < 2 ^ 63 ->
   EncodeToBytes sample_type sample_value = Ret (encs l) /\ DecodeBytes (encs l) sample_type = Some (inl sample_value)).
Proof.
  apply (decoding_inverts_encoding sample_type sample_value). cbn.
  repeat first [split | lia | done | by right | constructor].
Defined.

Lemma decoding_ends_witness : exists r, DecodeBytes [0xF8; 1; 0xC0] sample_type = Some r.
Proof. apply (decoding_ends [0xF8; 1; 0xC0] sample_type). reflexivity. Defined.

Lemma split_finds_the_items_witness :
  CountValues (encs [Str [200]; Lst [Str [1]]; Str [5]]) = Ret 3 /\
  Split (encs [Str [200]; Lst [Str [1]]; Str [5]]) = Ret (String, [200], [193; 1; 5]).
Proof.
  destruct (split_finds_the_items [Str [200]; Lst [Str [1]]; Str [5]]) as [H1 [H2 _]].
  - repeat constructor; lia.
  - reflexivity.
  - exact (conj H1 H2).
Defined.
