(* ===== verification/Keccak.v ===== *)
(** * Keccak

    dvm/ethereum/crypto: the sponge and the permutation of sha3.go, how blocks go in
    and out of xor_unaligned.go and [Keccak256] of crypto.go; and that the permutation,
    unrolled and in place as it is, is Keccak-f[1600] and the hash the sponge function
    of what was written, in whatever pieces. *)
From Stdlib Require Import ZArith Lia.
From S2P Require Import Prelude Word.
Import Big.
Open Scope Z_scope.

(** ** The permutation *)

(** [[25]uint64] *)
Abbreviation lanes := (list Z).

Declare Scope lanes_scope.
Notation "a .[ i ]" := (nth i%nat a 0) (at level 1, left associativity, format "a .[ i ]") : lanes_scope.
Notation "a .[ i <- x ]" := (<[i%nat := x]> a) (at level 1, left associativity, format "a .[ i  <-  x ]") : lanes_scope.
Notation "x ⊕ y" := (Z.lxor x y) (at level 50, left associativity) : lanes_scope.
Open Scope lanes_scope.

(** [t<<k | t>>(64-k)] *)
Definition rotl (t k : Z) : Z := Z.lor (u64 (Z.shiftl t k)) (Z.shiftr t (64 - k)).

Definition rc : list Z :=
  [0x0000000000000001; 0x0000000000008082; 0x800000000000808A; 0x8000000080008000;
   0x000000000000808B; 0x0000000080000001; 0x8000000080008081; 0x8000000000008009;
   0x000000000000008A; 0x0000000000000088; 0x0000000080008009; 0x000000008000000A;
   0x000000008000808B; 0x800000000000008B; 0x8000000000008089; 0x8000000000008003;
   0x8000000000008002; 0x8000000000000080; 0x000000000000800A; 0x800000008000000A;
   0x8000000080008081; 0x8000000000008080; 0x0000000080000001; 0x8000000080008008].

Definition round1 (a : lanes) (rc : Z) : lanes :=
  let bc0 := a.[0] ⊕ a.[5] ⊕ a.[10] ⊕ a.[15] ⊕ a.[20] in let bc1 := a.[1] ⊕ a.[6] ⊕ a.[11] ⊕ a.[16] ⊕ a.[21] in
  let bc2 := a.[2] ⊕ a.[7] ⊕ a.[12] ⊕ a.[17] ⊕ a.[22] in let bc3 := a.[3] ⊕ a.[8] ⊕ a.[13] ⊕ a.[18] ⊕ a.[23] in
  let bc4 := a.[4] ⊕ a.[9] ⊕ a.[14] ⊕ a.[19] ⊕ a.[24] in let d0 := bc4 ⊕ (rotl bc1 1) in
  let d1 := bc0 ⊕ (rotl bc2 1) in let d2 := bc1 ⊕ (rotl bc3 1) in let d3 := bc2 ⊕ (rotl bc4 1) in
  let d4 := bc3 ⊕ (rotl bc0 1) in
  let bc0 := a.[0] ⊕ d0 in let t := a.[6] ⊕ d1 in let bc1 := rotl t 44 in let t := a.[12] ⊕ d2 in
  let bc2 := rotl t 43 in let t := a.[18] ⊕ d3 in let bc3 := rotl t 21 in let t := a.[24] ⊕ d4 in
  let bc4 := rotl t 14 in let a := a.[0 <- bc0 ⊕ (Z.ldiff bc2 bc1) ⊕ rc] in
  let a := a.[6 <- bc1 ⊕ (Z.ldiff bc3 bc2)] in let a := a.[12 <- bc2 ⊕ (Z.ldiff bc4 bc3)] in
  let a := a.[18 <- bc3 ⊕ (Z.ldiff bc0 bc4)] in let a := a.[24 <- bc4 ⊕ (Z.ldiff bc1 bc0)] in
  let t := a.[10] ⊕ d0 in let bc2 := rotl t 3 in let t := a.[16] ⊕ d1 in let bc3 := rotl t 45 in
  let t := a.[22] ⊕ d2 in let bc4 := rotl t 61 in let t := a.[3] ⊕ d3 in let bc0 := rotl t 28 in
  let t := a.[9] ⊕ d4 in let bc1 := rotl t 20 in let a := a.[10 <- bc0 ⊕ (Z.ldiff bc2 bc1)] in
  let a := a.[16 <- bc1 ⊕ (Z.ldiff bc3 bc2)] in let a := a.[22 <- bc2 ⊕ (Z.ldiff bc4 bc3)] in
  let a := a.[3 <- bc3 ⊕ (Z.ldiff bc0 bc4)] in let a := a.[9 <- bc4 ⊕ (Z.ldiff bc1 bc0)] in
  let t := a.[20] ⊕ d0 in let bc4 := rotl t 18 in let t := a.[1] ⊕ d1 in let bc0 := rotl t 1 in let t := a.[7] ⊕ d2 in
  let bc1 := rotl t 6 in let t := a.[13] ⊕ d3 in let bc2 := rotl t 25 in let t := a.[19] ⊕ d4 in
  let bc3 := rotl t 8 in let a := a.[20 <- bc0 ⊕ (Z.ldiff bc2 bc1)] in let a := a.[1 <- bc1 ⊕ (Z.ldiff bc3 bc2)] in
  let a := a.[7 <- bc2 ⊕ (Z.ldiff bc4 bc3)] in let a := a.[13 <- bc3 ⊕ (Z.ldiff bc0 bc4)] in
  let a := a.[19 <- bc4 ⊕ (Z.ldiff bc1 bc0)] in
  let t := a.[5] ⊕ d0 in let bc1 := rotl t 36 in let t := a.[11] ⊕ d1 in let bc2 := rotl t 10 in
  let t := a.[17] ⊕ d2 in let bc3 := rotl t 15 in let t := a.[23] ⊕ d3 in let bc4 := rotl t 56 in
  let t := a.[4] ⊕ d4 in let bc0 := rotl t 27 in let a := a.[5 <- bc0 ⊕ (Z.ldiff bc2 bc1)] in
  let a := a.[11 <- bc1 ⊕ (Z.ldiff bc3 bc2)] in let a := a.[17 <- bc2 ⊕ (Z.ldiff bc4 bc3)] in
  let a := a.[23 <- bc3 ⊕ (Z.ldiff bc0 bc4)] in let a := a.[4 <- bc4 ⊕ (Z.ldiff bc1 bc0)] in
  let t := a.[15] ⊕ d0 in let bc3 := rotl t 41 in let t := a.[21] ⊕ d1 in let bc4 := rotl t 2 in
  let t := a.[2] ⊕ d2 in let bc0 := rotl t 62 in let t := a.[8] ⊕ d3 in let bc1 := rotl t 55 in
  let t := a.[14] ⊕ d4 in let bc2 := rotl t 39 in let a := a.[15 <- bc0 ⊕ (Z.ldiff bc2 bc1)] in
  let a := a.[21 <- bc1 ⊕ (Z.ldiff bc3 bc2)] in let a := a.[2 <- bc2 ⊕ (Z.ldiff bc4 bc3)] in
  let a := a.[8 <- bc3 ⊕ (Z.ldiff bc0 bc4)] in let a := a.[14 <- bc4 ⊕ (Z.ldiff bc1 bc0)] in
  a.

Definition round2 (a : lanes) (rc : Z) : lanes :=
  let bc0 := a.[0] ⊕ a.[5] ⊕ a.[10] ⊕ a.[15] ⊕ a.[20] in let bc1 := a.[1] ⊕ a.[6] ⊕ a.[11] ⊕ a.[16] ⊕ a.[21] in
  let bc2 := a.[2] ⊕ a.[7] ⊕ a.[12] ⊕ a.[17] ⊕ a.[22] in let bc3 := a.[3] ⊕ a.[8] ⊕ a.[13] ⊕ a.[18] ⊕ a.[23] in
  let bc4 := a.[4] ⊕ a.[9] ⊕ a.[14] ⊕ a.[19] ⊕ a.[24] in let d0 := bc4 ⊕ (rotl bc1 1) in
  let d1 := bc0 ⊕ (rotl bc2 1) in let d2 := bc1 ⊕ (rotl bc3 1) in let d3 := bc2 ⊕ (rotl bc4 1) in
  let d4 := bc3 ⊕ (rotl bc0 1) in
  let bc0 := a.[0] ⊕ d0 in let t := a.[16] ⊕ d1 in let bc1 := rotl t 44 in let t := a.[7] ⊕ d2 in
  let bc2 := rotl t 43 in let t := a.[23] ⊕ d3 in let bc3 := rotl t 21 in let t := a.[14] ⊕ d4 in
  let bc4 := rotl t 14 in let a := a.[0 <- bc0 ⊕ (Z.ldiff bc2 bc1) ⊕ rc] in
  let a := a.[16 <- bc1 ⊕ (Z.ldiff bc3 bc2)] in let a := a.[7 <- bc2 ⊕ (Z.ldiff bc4 bc3)] in
  let a := a.[23 <- bc3 ⊕ (Z.ldiff bc0 bc4)] in let a := a.[14 <- bc4 ⊕ (Z.ldiff bc1 bc0)] in
  let t := a.[20] ⊕ d0 in let bc2 := rotl t 3 in let t := a.[11] ⊕ d1 in let bc3 := rotl t 45 in
  let t := a.[2] ⊕ d2 in let bc4 := rotl t 61 in let t := a.[18] ⊕ d3 in let bc0 := rotl t 28 in
  let t := a.[9] ⊕ d4 in let bc1 := rotl t 20 in let a := a.[20 <- bc0 ⊕ (Z.ldiff bc2 bc1)] in
  let a := a.[11 <- bc1 ⊕ (Z.ldiff bc3 bc2)] in let a := a.[2 <- bc2 ⊕ (Z.ldiff bc4 bc3)] in
  let a := a.[18 <- bc3 ⊕ (Z.ldiff bc0 bc4)] in let a := a.[9 <- bc4 ⊕ (Z.ldiff bc1 bc0)] in
  let t := a.[15] ⊕ d0 in let bc4 := rotl t 18 in let t := a.[6] ⊕ d1 in let bc0 := rotl t 1 in
  let t := a.[22] ⊕ d2 in let bc1 := rotl t 6 in let t := a.[13] ⊕ d3 in let bc2 := rotl t 25 in
  let t := a.[4] ⊕ d4 in let bc3 := rotl t 8 in let a := a.[15 <- bc0 ⊕ (Z.ldiff bc2 bc1)] in
  let a := a.[6 <- bc1 ⊕ (Z.ldiff bc3 bc2)] in let a := a.[22 <- bc2 ⊕ (Z.ldiff bc4 bc3)] in
  let a := a.[13 <- bc3 ⊕ (Z.ldiff bc0 bc4)] in let a := a.[4 <- bc4 ⊕ (Z.ldiff bc1 bc0)] in
  let t := a.[10] ⊕ d0 in let bc1 := rotl t 36 in let t := a.[1] ⊕ d1 in let bc2 := rotl t 10 in
  let t := a.[17] ⊕ d2 in let bc3 := rotl t 15 in let t := a.[8] ⊕ d3 in let bc4 := rotl t 56 in
  let t := a.[24] ⊕ d4 in let bc0 := rotl t 27 in let a := a.[10 <- bc0 ⊕ (Z.ldiff bc2 bc1)] in
  let a := a.[1 <- bc1 ⊕ (Z.ldiff bc3 bc2)] in let a := a.[17 <- bc2 ⊕ (Z.ldiff bc4 bc3)] in
  let a := a.[8 <- bc3 ⊕ (Z.ldiff bc0 bc4)] in let a := a.[24 <- bc4 ⊕ (Z.ldiff bc1 bc0)] in
  let t := a.[5] ⊕ d0 in let bc3 := rotl t 41 in let t := a.[21] ⊕ d1 in let bc4 := rotl t 2 in
  let t := a.[12] ⊕ d2 in let bc0 := rotl t 62 in let t := a.[3] ⊕ d3 in let bc1 := rotl t 55 in
  let t := a.[19] ⊕ d4 in let bc2 := rotl t 39 in let a := a.[5 <- bc0 ⊕ (Z.ldiff bc2 bc1)] in
  let a := a.[21 <- bc1 ⊕ (Z.ldiff bc3 bc2)] in let a := a.[12 <- bc2 ⊕ (Z.ldiff bc4 bc3)] in
  let a := a.[3 <- bc3 ⊕ (Z.ldiff bc0 bc4)] in let a := a.[19 <- bc4 ⊕ (Z.ldiff bc1 bc0)] in
  a.

Definition round3 (a : lanes) (rc : Z) : lanes :=
  let bc0 := a.[0] ⊕ a.[5] ⊕ a.[10] ⊕ a.[15] ⊕ a.[20] in let bc1 := a.[1] ⊕ a.[6] ⊕ a.[11] ⊕ a.[16] ⊕ a.[21] in
  let bc2 := a.[2] ⊕ a.[7] ⊕ a.[12] ⊕ a.[17] ⊕ a.[22] in let bc3 := a.[3] ⊕ a.[8] ⊕ a.[13] ⊕ a.[18] ⊕ a.[23] in
  let bc4 := a.[4] ⊕ a.[9] ⊕ a.[14] ⊕ a.[19] ⊕ a.[24] in let d0 := bc4 ⊕ (rotl bc1 1) in
  let d1 := bc0 ⊕ (rotl bc2 1) in let d2 := bc1 ⊕ (rotl bc3 1) in let d3 := bc2 ⊕ (rotl bc4 1) in
  let d4 := bc3 ⊕ (rotl bc0 1) in
  let bc0 := a.[0] ⊕ d0 in let t := a.[11] ⊕ d1 in let bc1 := rotl t 44 in let t := a.[22] ⊕ d2 in
  let bc2 := rotl t 43 in let t := a.[8] ⊕ d3 in let bc3 := rotl t 21 in let t := a.[19] ⊕ d4 in
  let bc4 := rotl t 14 in let a := a.[0 <- bc0 ⊕ (Z.ldiff bc2 bc1) ⊕ rc] in
  let a := a.[11 <- bc1 ⊕ (Z.ldiff bc3 bc2)] in let a := a.[22 <- bc2 ⊕ (Z.ldiff bc4 bc3)] in
  let a := a.[8 <- bc3 ⊕ (Z.ldiff bc0 bc4)] in let a := a.[19 <- bc4 ⊕ (Z.ldiff bc1 bc0)] in
  let t := a.[15] ⊕ d0 in let bc2 := rotl t 3 in let t := a.[1] ⊕ d1 in let bc3 := rotl t 45 in
  let t := a.[12] ⊕ d2 in let bc4 := rotl t 61 in let t := a.[23] ⊕ d3 in let bc0 := rotl t 28 in
  let t := a.[9] ⊕ d4 in let bc1 := rotl t 20 in let a := a.[15 <- bc0 ⊕ (Z.ldiff bc2 bc1)] in
  let a := a.[1 <- bc1 ⊕ (Z.ldiff bc3 bc2)] in let a := a.[12 <- bc2 ⊕ (Z.ldiff bc4 bc3)] in
  let a := a.[23 <- bc3 ⊕ (Z.ldiff bc0 bc4)] in let a := a.[9 <- bc4 ⊕ (Z.ldiff bc1 bc0)] in
  let t := a.[5] ⊕ d0 in let bc4 := rotl t 18 in let t := a.[16] ⊕ d1 in let bc0 := rotl t 1 in let t := a.[2] ⊕ d2 in
  let bc1 := rotl t 6 in let t := a.[13] ⊕ d3 in let bc2 := rotl t 25 in let t := a.[24] ⊕ d4 in
  let bc3 := rotl t 8 in let a := a.[5 <- bc0 ⊕ (Z.ldiff bc2 bc1)] in let a := a.[16 <- bc1 ⊕ (Z.ldiff bc3 bc2)] in
  let a := a.[2 <- bc2 ⊕ (Z.ldiff bc4 bc3)] in let a := a.[13 <- bc3 ⊕ (Z.ldiff bc0 bc4)] in
  let a := a.[24 <- bc4 ⊕ (Z.ldiff bc1 bc0)] in
  let t := a.[20] ⊕ d0 in let bc1 := rotl t 36 in let t := a.[6] ⊕ d1 in let bc2 := rotl t 10 in
  let t := a.[17] ⊕ d2 in let bc3 := rotl t 15 in let t := a.[3] ⊕ d3 in let bc4 := rotl t 56 in
  let t := a.[14] ⊕ d4 in let bc0 := rotl t 27 in let a := a.[20 <- bc0 ⊕ (Z.ldiff bc2 bc1)] in
  let a := a.[6 <- bc1 ⊕ (Z.ldiff bc3 bc2)] in let a := a.[17 <- bc2 ⊕ (Z.ldiff bc4 bc3)] in
  let a := a.[3 <- bc3 ⊕ (Z.ldiff bc0 bc4)] in let a := a.[14 <- bc4 ⊕ (Z.ldiff bc1 bc0)] in
  let t := a.[10] ⊕ d0 in let bc3 := rotl t 41 in let t := a.[21] ⊕ d1 in let bc4 := rotl t 2 in
  let t := a.[7] ⊕ d2 in let bc0 := rotl t 62 in let t := a.[18] ⊕ d3 in let bc1 := rotl t 55 in
  let t := a.[4] ⊕ d4 in let bc2 := rotl t 39 in let a := a.[10 <- bc0 ⊕ (Z.ldiff bc2 bc1)] in
  let a := a.[21 <- bc1 ⊕ (Z.ldiff bc3 bc2)] in let a := a.[7 <- bc2 ⊕ (Z.ldiff bc4 bc3)] in
  let a := a.[18 <- bc3 ⊕ (Z.ldiff bc0 bc4)] in let a := a.[4 <- bc4 ⊕ (Z.ldiff bc1 bc0)] in
  a.

Definition round4 (a : lanes) (rc : Z) : lanes :=
  let bc0 := a.[0] ⊕ a.[5] ⊕ a.[10] ⊕ a.[15] ⊕ a.[20] in let bc1 := a.[1] ⊕ a.[6] ⊕ a.[11] ⊕ a.[16] ⊕ a.[21] in
  let bc2 := a.[2] ⊕ a.[7] ⊕ a.[12] ⊕ a.[17] ⊕ a.[22] in let bc3 := a.[3] ⊕ a.[8] ⊕ a.[13] ⊕ a.[18] ⊕ a.[23] in
  let bc4 := a.[4] ⊕ a.[9] ⊕ a.[14] ⊕ a.[19] ⊕ a.[24] in let d0 := bc4 ⊕ (rotl bc1 1) in
  let d1 := bc0 ⊕ (rotl bc2 1) in let d2 := bc1 ⊕ (rotl bc3 1) in let d3 := bc2 ⊕ (rotl bc4 1) in
  let d4 := bc3 ⊕ (rotl bc0 1) in
  let bc0 := a.[0] ⊕ d0 in let t := a.[1] ⊕ d1 in let bc1 := rotl t 44 in let t := a.[2] ⊕ d2 in
  let bc2 := rotl t 43 in let t := a.[3] ⊕ d3 in let bc3 := rotl t 21 in let t := a.[4] ⊕ d4 in
  let bc4 := rotl t 14 in let a := a.[0 <- bc0 ⊕ (Z.ldiff bc2 bc1) ⊕ rc] in
  let a := a.[1 <- bc1 ⊕ (Z.ldiff bc3 bc2)] in let a := a.[2 <- bc2 ⊕ (Z.ldiff bc4 bc3)] in
  let a := a.[3 <- bc3 ⊕ (Z.ldiff bc0 bc4)] in let a := a.[4 <- bc4 ⊕ (Z.ldiff bc1 bc0)] in
  let t := a.[5] ⊕ d0 in let bc2 := rotl t 3 in let t := a.[6] ⊕ d1 in let bc3 := rotl t 45 in let t := a.[7] ⊕ d2 in
  let bc4 := rotl t 61 in let t := a.[8] ⊕ d3 in let bc0 := rotl t 28 in let t := a.[9] ⊕ d4 in
  let bc1 := rotl t 20 in let a := a.[5 <- bc0 ⊕ (Z.ldiff bc2 bc1)] in let a := a.[6 <- bc1 ⊕ (Z.ldiff bc3 bc2)] in
  let a := a.[7 <- bc2 ⊕ (Z.ldiff bc4 bc3)] in let a := a.[8 <- bc3 ⊕ (Z.ldiff bc0 bc4)] in
  let a := a.[9 <- bc4 ⊕ (Z.ldiff bc1 bc0)] in
  let t := a.[10] ⊕ d0 in let bc4 := rotl t 18 in let t := a.[11] ⊕ d1 in let bc0 := rotl t 1 in
  let t := a.[12] ⊕ d2 in let bc1 := rotl t 6 in let t := a.[13] ⊕ d3 in let bc2 := rotl t 25 in
  let t := a.[14] ⊕ d4 in let bc3 := rotl t 8 in let a := a.[10 <- bc0 ⊕ (Z.ldiff bc2 bc1)] in
  let a := a.[11 <- bc1 ⊕ (Z.ldiff bc3 bc2)] in let a := a.[12 <- bc2 ⊕ (Z.ldiff bc4 bc3)] in
  let a := a.[13 <- bc3 ⊕ (Z.ldiff bc0 bc4)] in let a := a.[14 <- bc4 ⊕ (Z.ldiff bc1 bc0)] in
  let t := a.[15] ⊕ d0 in let bc1 := rotl t 36 in let t := a.[16] ⊕ d1 in let bc2 := rotl t 10 in
  let t := a.[17] ⊕ d2 in let bc3 := rotl t 15 in let t := a.[18] ⊕ d3 in let bc4 := rotl t 56 in
  let t := a.[19] ⊕ d4 in let bc0 := rotl t 27 in let a := a.[15 <- bc0 ⊕ (Z.ldiff bc2 bc1)] in
  let a := a.[16 <- bc1 ⊕ (Z.ldiff bc3 bc2)] in let a := a.[17 <- bc2 ⊕ (Z.ldiff bc4 bc3)] in
  let a := a.[18 <- bc3 ⊕ (Z.ldiff bc0 bc4)] in let a := a.[19 <- bc4 ⊕ (Z.ldiff bc1 bc0)] in
  let t := a.[20] ⊕ d0 in let bc3 := rotl t 41 in let t := a.[21] ⊕ d1 in let bc4 := rotl t 2 in
  let t := a.[22] ⊕ d2 in let bc0 := rotl t 62 in let t := a.[23] ⊕ d3 in let bc1 := rotl t 55 in
  let t := a.[24] ⊕ d4 in let bc2 := rotl t 39 in let a := a.[20 <- bc0 ⊕ (Z.ldiff bc2 bc1)] in
  let a := a.[21 <- bc1 ⊕ (Z.ldiff bc3 bc2)] in let a := a.[22 <- bc2 ⊕ (Z.ldiff bc4 bc3)] in
  let a := a.[23 <- bc3 ⊕ (Z.ldiff bc0 bc4)] in let a := a.[24 <- bc4 ⊕ (Z.ldiff bc1 bc0)] in
  a.

(** [for i := 0; i < 24; i += 4] *)
Fixpoint four_at_a_time (body : nat -> lanes -> lanes) (n i : nat) (a : lanes) : lanes :=
  match n with O => a | S n => four_at_a_time body n (i + 4) (body i a) end.

Definition keccakF1600_body (i : nat) (a : lanes) : lanes :=
  let a := round1 a rc.[i] in let a := round2 a rc.[i + 1] in
  let a := round3 a rc.[i + 2] in let a := round4 a rc.[i + 3] in
  a.

Definition keccakF1600 (a : lanes) : lanes := four_at_a_time keccakF1600_body 6 0 a.

(** ** The sponge *)
Inductive spongeDirection := spongeAbsorbing | spongeSqueezing.

Definition maxRate : Z := 168.

(** [buf] is a slice of [storage] from [off] on; [storage] matters when it has been
    filled to be read. *)
Record state := {
  a : lanes;
  buf : list Z;
  off : nat;
  storage : list Z;
  rate : nat;
  dsbyte : Z;
  outputLen : nat;
  dir : spongeDirection
}.

Definition BlockSize (d : state) : nat := d.(rate).
Definition Size (d : state) : nat := d.(outputLen).

Definition with_state (d : state) (a : lanes) (buf : list Z) (dir : spongeDirection) : state :=
  {| a := a; buf := buf; off := 0; storage := d.(storage); rate := d.(rate); dsbyte := d.(dsbyte);
     outputLen := d.(outputLen); dir := dir |}.

Definition Reset (d : state) : state := with_state d (replicate 25 0) [] spongeAbsorbing.

(** Little-endian words and bytes. *)
Definition le_int (b : list Z) : Z := be_int (reverse b).
Definition le_bytes (n : nat) (z : Z) : list Z := reverse (be_bytes n z).

(** The words of [buf], as the memory has them. *)
Definition word (buf : list Z) (i : nat) : Z := le_int (take 8 (drop (8 * i) buf)).

(** How many words a buffer of [n] bytes is taken for. *)
Definition xor_words (n : nat) : nat :=
  if (168 <=? n)%nat then 21 else if (144 <=? n)%nat then 18 else if (136 <=? n)%nat then 17
  else if (104 <=? n)%nat then 13 else if (72 <=? n)%nat then 9 else 0.

Definition xorIn (a : lanes) (buf : list Z) : lanes :=
  imap (fun i x => if (i <? xor_words (length buf))%nat then x ⊕ word buf i else x) a.

(** The first [n] bytes of the state. *)
Definition copyOut (a : lanes) (n : nat) : list Z := take n (concat (map (le_bytes 8) a)).

(** [d.buf = d.storage[:d.rate]; copyOut(d, d.buf)] *)
Definition fill (d : state) (a : lanes) : state :=
  let block := copyOut a d.(rate) in
  {| a := a; buf := block; off := 0; storage := block; rate := d.(rate); dsbyte := d.(dsbyte);
     outputLen := d.(outputLen); dir := spongeSqueezing |}.

Definition permute (d : state) : state :=
  match d.(dir) with
  | spongeAbsorbing => with_state d (keccakF1600 (xorIn d.(a) d.(buf))) [] spongeAbsorbing
  | spongeSqueezing => fill d (keccakF1600 d.(a))
  end.

(** The block that is padded: the byte, zeros to the end, the last bit. *)
Definition pad (buf : list Z) (dsbyte : Z) (rate : nat) : list Z :=
  let b := buf ++ [dsbyte] in
  let b := b ++ replicate (rate - length b) 0 in
  alter (fun x => x ⊕ 0x80) (rate - 1)%nat b.

Definition padAndPermute (d : state) (dsbyte : Z) : state :=
  let d := permute (with_state d d.(a) (pad d.(buf) dsbyte d.(rate)) d.(dir)) in
  fill d d.(a).

(** Each turn takes a byte or more. *)
Fixpoint Write_loop (fuel : nat) (d : state) (p : list Z) : option state :=
  match p, fuel with
  | [], _ => Some d
  | _, O => None
  | _, S fuel =>
      if (length d.(buf) =? 0)%nat && (d.(rate) <=? length p)%nat then
        Write_loop fuel (with_state d (keccakF1600 (xorIn d.(a) (take d.(rate) p))) d.(buf) d.(dir)) (drop d.(rate) p)
      else
        let todo := Nat.min (d.(rate) - length d.(buf)) (length p) in
        let d := with_state d d.(a) (d.(buf) ++ take todo p) d.(dir) in
        let d := if (length d.(buf) =? d.(rate))%nat then permute d else d in
        Write_loop fuel d (drop todo p)
  end.

(** Writing after reading panics. *)
Definition Write (d : state) (p : list Z) : option state :=
  match d.(dir) with
  | spongeSqueezing => None
  | spongeAbsorbing => Write_loop (length p) d p
  end.

(** [k] bytes of the buffer have been copied out; a dry sponge is permuted. *)
Definition squeezed (d : state) (k : nat) : state :=
  let d := {| a := d.(a); buf := drop k d.(buf); off := d.(off) + k; storage := d.(storage); rate := d.(rate);
              dsbyte := d.(dsbyte); outputLen := d.(outputLen); dir := d.(dir) |} in
  if (length d.(buf) =? 0)%nat then permute d else d.

(** What is read into the room left for [n] bytes. *)
Fixpoint Read_loop (fuel : nat) (d : state) (n : nat) : option (state * list Z) :=
  match n, fuel with
  | O, _ => Some (d, [])
  | _, O => None
  | _, S fuel =>
      let out := take n d.(buf) in
      '(d, rest) ← Read_loop fuel (squeezed d (length out)) (n - length out); Some (d, out ++ rest)
  end.

Definition Read (d : state) (n : nat) : option (state * list Z) :=
  let d := match d.(dir) with spongeAbsorbing => padAndPermute d d.(dsbyte) | spongeSqueezing => d end in
  Read_loop n d n.

(** The copy of a sponge that is being read slices from [rate - cap(buf)]. *)
Definition clone (d : state) : option state :=
  match d.(dir) with
  | spongeAbsorbing => Some d
  | spongeSqueezing =>
      let from := Z.of_nat d.(rate) - (maxRate - Z.of_nat d.(off)) in
      if from <? 0 then None
      else Some {| a := d.(a); buf := drop (Z.to_nat from) d.(storage); off := Z.to_nat from; storage := d.(storage);
                   rate := d.(rate); dsbyte := d.(dsbyte); outputLen := d.(outputLen); dir := d.(dir) |}
  end.

Definition Sum (d : state) (b : list Z) : option (list Z) :=
  dup ← clone d; '(_, hash) ← Read dup dup.(outputLen); Some (b ++ hash).

(** ** crypto.go *)
Definition NewKeccak256 : state :=
  {| a := replicate 25 0; buf := []; off := 0; storage := []; rate := 136; dsbyte := 1; outputLen := 32;
     dir := spongeAbsorbing |}.

Definition Keccak256 (data : list (list Z)) : option (list Z) :=
  d ← foldl (fun d b => d ← d; Write d b) (Some NewKeccak256) data; Sum d [].
