(* ===== verification/KeccakSpec.v ===== *)
(** * Keccak as the standard has it

    The permutation Keccak-f[1600] step by step with its tables computed, the sponge
    function over it, and that the code is the same function. *)
From Stdlib Require Import ZArith Lia.
From S2P Require Import Prelude Word Keccak.
Import Big.
Open Scope Z_scope.
Open Scope lanes_scope.

(** ** Keccak-f *)

(** The lane at [x], [y]. *)
Definition lane (A : lanes) (x y : nat) : Z := A.[x mod 5 + 5 * (y mod 5)].
Definition by_lane (f : nat -> nat -> Z) : lanes := map (fun i => f (i mod 5)%nat (i / 5)%nat) (seq 0 25).

Definition theta (A : lanes) : lanes :=
  let C x := lane A x 0 ⊕ lane A x 1 ⊕ lane A x 2 ⊕ lane A x 3 ⊕ lane A x 4 in
  let D x := C (x + 4)%nat ⊕ rotl (C (x + 1)%nat) 1 in
  by_lane (fun x y => lane A x y ⊕ D x).

(** The offsets lie along a walk from (1, 0). *)
Fixpoint offsets (n t x y : nat) : list (nat * nat * Z) :=
  match n with
  | O => []
  | S n => (x, y, Z.of_nat ((t + 1) * (t + 2) / 2) mod 64) :: offsets n (S t) y ((2 * x + 3 * y) mod 5)
  end.
Definition offset (x y : nat) : Z :=
  default 0 (snd <$> find (fun o => (o.1.1 =? x)%nat && (o.1.2 =? y)%nat) (offsets 24 0 1 0)).

Definition rho (A : lanes) : lanes :=
  by_lane (fun x y => if offset x y =? 0 then lane A x y else rotl (lane A x y) (offset x y)).

Definition pi (A : lanes) : lanes := by_lane (fun x y => lane A (x + 3 * y) x).

Definition chi (A : lanes) : lanes := by_lane (fun x y => lane A x y ⊕ Z.ldiff (lane A (x + 2) y) (lane A (x + 1) y)).

Definition iota (c : Z) (A : lanes) : lanes := A.[0 <- A.[0] ⊕ c].

Definition Rnd (A : lanes) (c : Z) : lanes := iota c (chi (pi (rho (theta A)))).

(** The round constants come from a shift register. *)
Definition lfsr (r : Z) : Z := let r := 2 * r in if Z.testbit r 8 then r ⊕ 0x171 else r.
Definition rc_bit (t : nat) : Z := Nat.iter t lfsr 1 mod 2.
Definition RC (i : nat) : Z :=
  foldl (fun c j => c + rc_bit (j + 7 * i) * 2 ^ (2 ^ Z.of_nat j - 1)) 0 (seq 0 7).

Definition Keccak_f (A : lanes) : lanes := foldl Rnd A (map RC (seq 0 24)).

(** The code works in place: after each of the four rounds the lanes are elsewhere. *)
Definition view (places : list nat) (a : lanes) : lanes := map (fun i => a.[i]) places.
Definition places1 : list nat := [0; 6; 12; 18; 24; 10; 16; 22; 3; 9; 20; 1; 7; 13; 19; 5; 11; 17; 23; 4; 15; 21; 2; 8; 14]%nat.
Definition places2 : list nat := [0; 16; 7; 23; 14; 20; 11; 2; 18; 9; 15; 6; 22; 13; 4; 10; 1; 17; 8; 24; 5; 21; 12; 3; 19]%nat.
Definition places3 : list nat := [0; 11; 22; 8; 19; 15; 1; 12; 23; 9; 5; 16; 2; 13; 24; 20; 6; 17; 3; 14; 10; 21; 7; 18; 4]%nat.

Ltac lanes a H :=
  let go x := destruct a as [|x a]; [discriminate H|] in
  go ident:(a0); go ident:(a1); go ident:(a2); go ident:(a3); go ident:(a4); go ident:(a5); go ident:(a6); go ident:(a7); go ident:(a8); go ident:(a9); go ident:(a10); go ident:(a11); go ident:(a12);
  go ident:(a13); go ident:(a14); go ident:(a15); go ident:(a16); go ident:(a17); go ident:(a18); go ident:(a19); go ident:(a20); go ident:(a21); go ident:(a22); go ident:(a23); go ident:(a24);
  destruct a; [|discriminate H].

(** The same column summed up in another order. *)
Lemma xor5 v w x y z v' w' x' y' z' : (forall n, xorb (xorb (xorb (xorb (Z.testbit v n) (Z.testbit w n)) (Z.testbit x n)) (Z.testbit y n)) (Z.testbit z n) =
    xorb (xorb (xorb (xorb (Z.testbit v' n) (Z.testbit w' n)) (Z.testbit x' n)) (Z.testbit y' n)) (Z.testbit z' n)) ->
  v ⊕ w ⊕ x ⊕ y ⊕ z = v' ⊕ w' ⊕ x' ⊕ y' ⊕ z'.
Proof. intros H. apply Z.bits_inj. intros n. rewrite !Z.lxor_spec. apply H. Qed.

Ltac column l r :=
  replace l with r; [|apply xor5; intros n; repeat match goal with |- context [Z.testbit ?x n] => destruct (Z.testbit x n) end; reflexivity].

#[local] Strategy opaque [Z.lxor Z.ldiff rotl].

Lemma round1_Rnd a c : length a = 25%nat -> view places1 (round1 a c) = Rnd a c /\ length (round1 a c) = 25%nat.
Proof. intros H. lanes a H. split; lazy -[Z.lxor Z.ldiff rotl]; reflexivity. Qed.

Lemma round2_Rnd a c : length a = 25%nat ->
  view places2 (round2 a c) = Rnd (view places1 a) c /\ length (round2 a c) = 25%nat.
Proof.
  intros H. lanes a H. split; lazy -[Z.lxor Z.ldiff rotl]; [|reflexivity].
  column (a0 ⊕ a5 ⊕ a10 ⊕ a15 ⊕ a20) (a0 ⊕ a10 ⊕ a20 ⊕ a5 ⊕ a15).
  column (a1 ⊕ a6 ⊕ a11 ⊕ a16 ⊕ a21) (a6 ⊕ a16 ⊕ a1 ⊕ a11 ⊕ a21).
  column (a2 ⊕ a7 ⊕ a12 ⊕ a17 ⊕ a22) (a12 ⊕ a22 ⊕ a7 ⊕ a17 ⊕ a2).
  column (a3 ⊕ a8 ⊕ a13 ⊕ a18 ⊕ a23) (a18 ⊕ a3 ⊕ a13 ⊕ a23 ⊕ a8).
  column (a4 ⊕ a9 ⊕ a14 ⊕ a19 ⊕ a24) (a24 ⊕ a9 ⊕ a19 ⊕ a4 ⊕ a14).
  reflexivity.
Qed.

Lemma round3_Rnd a c : length a = 25%nat ->
  view places3 (round3 a c) = Rnd (view places2 a) c /\ length (round3 a c) = 25%nat.
Proof.
  intros H. lanes a H. split; lazy -[Z.lxor Z.ldiff rotl]; [|reflexivity].
  column (a0 ⊕ a5 ⊕ a10 ⊕ a15 ⊕ a20) (a0 ⊕ a20 ⊕ a15 ⊕ a10 ⊕ a5).
  column (a1 ⊕ a6 ⊕ a11 ⊕ a16 ⊕ a21) (a16 ⊕ a11 ⊕ a6 ⊕ a1 ⊕ a21).
  column (a2 ⊕ a7 ⊕ a12 ⊕ a17 ⊕ a22) (a7 ⊕ a2 ⊕ a22 ⊕ a17 ⊕ a12).
  column (a3 ⊕ a8 ⊕ a13 ⊕ a18 ⊕ a23) (a23 ⊕ a18 ⊕ a13 ⊕ a8 ⊕ a3).
  column (a4 ⊕ a9 ⊕ a14 ⊕ a19 ⊕ a24) (a14 ⊕ a9 ⊕ a4 ⊕ a24 ⊕ a19).
  reflexivity.
Qed.

Lemma round4_Rnd a c : length a = 25%nat ->
  round4 a c = Rnd (view places3 a) c /\ length (round4 a c) = 25%nat.
Proof.
  intros H. lanes a H. split; lazy -[Z.lxor Z.ldiff rotl]; [|reflexivity].
  column (a0 ⊕ a5 ⊕ a10 ⊕ a15 ⊕ a20) (a0 ⊕ a15 ⊕ a5 ⊕ a20 ⊕ a10).
  column (a1 ⊕ a6 ⊕ a11 ⊕ a16 ⊕ a21) (a11 ⊕ a1 ⊕ a16 ⊕ a6 ⊕ a21).
  column (a2 ⊕ a7 ⊕ a12 ⊕ a17 ⊕ a22) (a22 ⊕ a12 ⊕ a2 ⊕ a17 ⊕ a7).
  column (a3 ⊕ a8 ⊕ a13 ⊕ a18 ⊕ a23) (a8 ⊕ a23 ⊕ a13 ⊕ a3 ⊕ a18).
  column (a4 ⊕ a9 ⊕ a14 ⊕ a19 ⊕ a24) (a19 ⊕ a9 ⊕ a24 ⊕ a14 ⊕ a4).
  reflexivity.
Qed.

#[local] Strategy opaque [round1 round2 round3 round4 Rnd].

(** Four rounds of the code are four rounds. *)
Lemma four_rounds a c1 c2 c3 c4 : length a = 25%nat ->
  round4 (round3 (round2 (round1 a c1) c2) c3) c4 = foldl Rnd a [c1; c2; c3; c4] /\
  length (round4 (round3 (round2 (round1 a c1) c2) c3) c4) = 25%nat.
Proof.
  intros Ha. destruct (round1_Rnd a c1 Ha) as [H1 L1]. destruct (round2_Rnd _ c2 L1) as [H2 L2].
  destruct (round3_Rnd _ c3 L2) as [H3 L3]. destruct (round4_Rnd _ c4 L3) as [H4 L4].
  split; [|exact L4]. by rewrite H4, H3, H2, H1.
Qed.

Lemma seq_4 i n : seq i (4 * S n) = [i; i + 1; i + 2; i + 3]%nat ++ seq (i + 4) (4 * n).
Proof.
  replace (4 * S n)%nat with (4 + 4 * n)%nat by lia. rewrite seq_app. f_equal. cbn [seq]. repeat f_equal; lia.
Qed.

Lemma body_rounds i a : length a = 25%nat ->
  keccakF1600_body i a = foldl Rnd a (map (fun j => nth j rc 0) [i; i + 1; i + 2; i + 3]%nat) /\
  length (keccakF1600_body i a) = 25%nat.
Proof.
  intros Ha. exact (four_rounds a (nth i rc 0) (nth (i + 1) rc 0) (nth (i + 2) rc 0) (nth (i + 3) rc 0) Ha).
Qed.

Lemma four_at_a_time_Rnd body n : (forall i a, length a = 25%nat ->
    body i a = foldl Rnd a (map (fun j => nth j rc 0) [i; i + 1; i + 2; i + 3]%nat) /\ length (body i a) = 25%nat) ->
  forall i a, length a = 25%nat ->
  four_at_a_time body n i a = foldl Rnd a (map (fun j => nth j rc 0) (seq i (4 * n))) /\
  length (four_at_a_time body n i a) = 25%nat.
Proof.
  intros Hb. induction n as [|n IH]; intros i a Ha; [done|]. cbn [four_at_a_time].
  destruct (Hb i a Ha) as [H L]. destruct (IH (i + 4)%nat _ L) as [H5 L5]. split; [|exact L5].
  by rewrite seq_4, map_app, foldl_app, <- H.
Qed.

Lemma rc_RC : map RC (seq 0 24) = rc.
Proof. vm_compute. reflexivity. Qed.

Lemma keccakF1600_ok a : length a = 25%nat -> keccakF1600 a = Keccak_f a /\ length (keccakF1600 a) = 25%nat.
Proof.
  intros Ha. destruct (four_at_a_time_Rnd keccakF1600_body 6 body_rounds 0 a Ha) as [H L]. split; [|exact L].
  unfold keccakF1600, Keccak_f. rewrite H, rc_RC. reflexivity.
Qed.

#[global] Opaque keccakF1600 Keccak_f.
#[global] Strategy opaque [keccakF1600 Keccak_f].

(** ** The sponge *)
Definition block : nat := 136.

(** A block goes into the first 17 lanes. *)
Definition absorb_block (A : lanes) (b : list Z) : lanes :=
  Keccak_f (imap (fun i x => if (i <? 17)%nat then x ⊕ le_int (take 8 (drop (8 * i) b)) else x) A).

Fixpoint absorb (n : nat) (A : lanes) (p : list Z) : lanes :=
  match n with O => A | S n => absorb n (absorb_block A (take block p)) (drop block p) end.

(** A one, zeros and a one, in bytes with the low bit first, to the end of a block. *)
Definition padding (n : nat) : list Z :=
  let q := (block - n mod block)%nat in if (q =? 1)%nat then [0x81] else 0x01 :: replicate (q - 2) 0 ++ [0x80].

Definition sponge (message : list Z) : list Z :=
  let p := message ++ padding (length message) in
  take 32 (concat (map (le_bytes 8) (absorb (length p / block) (replicate 25 0) p))).

(** *** The code *)
Lemma xorIn_ok A b : length A = 25%nat -> length b = block -> keccakF1600 (xorIn A b) = absorb_block A b.
Proof.
  intros HA Hb. unfold xorIn. rewrite Hb. change (xor_words block) with 17%nat. unfold absorb_block.
  apply keccakF1600_ok. by rewrite length_imap.
Qed.

Lemma absorb_block_length A b : length A = 25%nat -> length (absorb_block A b) = 25%nat.
Proof.
  intros HA. unfold absorb_block. destruct (keccakF1600_ok (imap (fun i x => if (i <? 17)%nat then x ⊕ le_int (take 8 (drop (8 * i) b)) else x) A)) as [<- H]; [by rewrite length_imap|done].
Qed.

Lemma absorb_length n : forall A p, length A = 25%nat -> length (absorb n A p) = 25%nat.
Proof. induction n as [|n IH]; intros A p HA; [done|]. cbn [absorb]. by apply IH, absorb_block_length. Qed.

Lemma absorb_snoc n : forall A p b, length p = (n * block)%nat -> length b = block ->
  absorb (S n) A (p ++ b) = absorb_block (absorb n A p) b.
Proof.
  induction n as [|n IH]; intros A p b Hp Hb.
  - destruct p; [|cbn in Hp; lia]. cbn [absorb app]. rewrite take_ge by lia. reflexivity.
  - cbn [absorb]. rewrite take_app_le by lia. rewrite drop_app_le by lia.
    change (absorb n ?A ?p) with (absorb n A p). rewrite <- IH; [done| |done]. rewrite length_drop. lia.
Qed.

Lemma absorb_app n : forall A p q, length p = (n * block)%nat -> absorb n A (p ++ q) = absorb n A p.
Proof.
  induction n as [|n IH]; intros A p q Hp; [done|]. cbn [absorb]. rewrite take_app_le by lia. rewrite drop_app_le by lia.
  apply IH. rewrite length_drop. lia.
Qed.

(** The sponge after a message has been written. *)
Definition whole (m : list Z) : nat := (length m / block)%nat.
Definition after (m : list Z) : state :=
  with_state NewKeccak256 (absorb (whole m) (replicate 25 0) (take (whole m * block) m)) (drop (whole m * block) m) spongeAbsorbing.

Lemma whole_spec m : exists k, length m = (whole m * block + k)%nat /\ (k < block)%nat /\ length (drop (whole m * block) m) = k.
Proof.
  exists (length m mod block)%nat. unfold whole. pose proof (Nat.div_mod_eq (length m) block). pose proof (Nat.mod_upper_bound (length m) block).
  unfold block in *. rewrite length_drop. lia.
Qed.

Lemma whole_unique m n k : length m = (n * block + k)%nat -> (k < block)%nat -> whole m = n.
Proof. intros H Hk. unfold whole. rewrite H. symmetry. apply Nat.div_unique with k; lia. Qed.

(** What is written fits into the block. *)
Lemma after_part m x : (length (drop (whole m * block) m) + length x < block)%nat ->
  after (m ++ x) = with_state (after m) (after m).(a) ((after m).(buf) ++ x) spongeAbsorbing.
Proof.
  destruct (whole_spec m) as (k & Hm & Hk & Hl). rewrite Hl. intros Hx. unfold after.
  rewrite (whole_unique (m ++ x) (whole m) (k + length x)) by (rewrite ?length_app; lia).
  rewrite take_app_le, drop_app_le by lia. done.
Qed.

(** It fills the block. *)
Lemma after_full m x : (length (drop (whole m * block) m) + length x = block)%nat ->
  after (m ++ x) = with_state (after m) (keccakF1600 (xorIn (after m).(a) ((after m).(buf) ++ x))) [] spongeAbsorbing.
Proof.
  destruct (whole_spec m) as (k & Hm & Hk & Hl). rewrite Hl. intros Hx. unfold after.
  rewrite (whole_unique (m ++ x) (S (whole m)) 0) by (rewrite ?length_app; lia).
  rewrite take_ge, drop_ge by (rewrite length_app; lia). cbn [a buf with_state].
  rewrite xorIn_ok by (rewrite ?length_app; try lia; by apply absorb_length).
  rewrite <- absorb_snoc by (rewrite ?length_take, ?length_app; lia).
  by rewrite app_assoc, take_drop.
Qed.

Lemma Write_loop_after fuel : forall p m, (length p <= fuel)%nat -> Write_loop fuel (after m) p = Some (after (m ++ p)).
Proof.
  induction fuel as [|fuel IH]; intros p m Hf.
  { destruct p; [|cbn in Hf; lia]. by rewrite app_nil_r. }
  destruct p as [|b p]; [by rewrite app_nil_r|]. remember (b :: p) as q eqn:Eq. assert (0 < length q)%nat as Hq by (subst; cbn; lia).
  assert (Write_loop (S fuel) (after m) q =
    if (length (after m).(buf) =? 0)%nat && ((after m).(rate) <=? length q)%nat then
      Write_loop fuel (with_state (after m) (keccakF1600 (xorIn (after m).(a) (take (after m).(rate) q))) (after m).(buf) (after m).(dir)) (drop (after m).(rate) q)
    else
      let todo := Nat.min ((after m).(rate) - length (after m).(buf)) (length q) in
      let d := with_state (after m) (after m).(a) ((after m).(buf) ++ take todo q) (after m).(dir) in
      let d := if (length d.(buf) =? d.(rate))%nat then permute d else d in
      Write_loop fuel d (drop todo q)) as -> by by subst q.
  change (rate (after m)) with block. change (dir (after m)) with spongeAbsorbing.
  destruct (whole_spec m) as (k & Hm & Hk & Hl). change (drop (whole m * block) m) with (after m).(buf) in Hl. rewrite Hl.
  destruct (Nat.eqb_spec k 0) as [Hk0|Hk0]; destruct (Nat.leb_spec block (length q)) as [Hr|Hr]; cbn [andb].
  - destruct (after m).(buf) as [|? ?] eqn:Eb; [|cbn in Hl; lia].
    pose proof (after_full m (take block q)) as Hfull. rewrite length_take in Hfull.
    change (drop (whole m * block) m) with (after m).(buf) in Hfull. rewrite Eb in Hfull. cbn [app length] in Hfull.
    rewrite <- Hfull by lia. rewrite IH by (rewrite length_drop; unfold block; lia). by rewrite <- app_assoc, take_drop.
  - cbv zeta. rewrite Nat.min_r by lia. rewrite take_ge, drop_all by lia. cbn [buf rate with_state]. rewrite length_app, Hl.
    rewrite (proj2 (Nat.eqb_neq _ _)) by (change (rate (after m)) with block; lia).
    change (buf (after m) ++ q) with ((after m).(buf) ++ q). rewrite <- after_part by (change (drop (whole m * block) m) with (after m).(buf); lia).
    destruct fuel; done.
  - cbv zeta. rewrite Nat.min_l by lia. cbn [buf rate with_state]. rewrite length_app, length_take, Hl.
    rewrite (proj2 (Nat.eqb_eq _ _)) by (change (rate (after m)) with block; lia).
    pose proof (after_full m (take (block - k) q)) as Hfull. rewrite length_take in Hfull.
    change (drop (whole m * block) m) with (after m).(buf) in Hfull. 
    change (permute (with_state (after m) (a (after m)) (buf (after m) ++ take (block - k) q) spongeAbsorbing)) with
      (with_state (after m) (keccakF1600 (xorIn (after m).(a) ((after m).(buf) ++ take (block - k) q))) [] spongeAbsorbing).
    rewrite <- Hfull by lia. rewrite IH by (rewrite length_drop; lia). by rewrite <- app_assoc, take_drop.
  - cbv zeta. destruct (Nat.le_gt_cases (block - k) (length q)) as [Hle|Hgt].
    + rewrite Nat.min_l by lia. cbn [buf rate with_state]. rewrite length_app, length_take, Hl.
      rewrite (proj2 (Nat.eqb_eq _ _)) by (change (rate (after m)) with block; lia).
      pose proof (after_full m (take (block - k) q)) as Hfull. rewrite length_take in Hfull.
      change (drop (whole m * block) m) with (after m).(buf) in Hfull.
      change (permute (with_state (after m) (a (after m)) (buf (after m) ++ take (block - k) q) spongeAbsorbing)) with
        (with_state (after m) (keccakF1600 (xorIn (after m).(a) ((after m).(buf) ++ take (block - k) q))) [] spongeAbsorbing).
      rewrite <- Hfull by lia. rewrite IH by (rewrite length_drop; lia). by rewrite <- app_assoc, take_drop.
    + rewrite Nat.min_r by lia. rewrite take_ge, drop_all by lia. cbn [buf rate with_state]. rewrite length_app, Hl.
      rewrite (proj2 (Nat.eqb_neq _ _)) by (change (rate (after m)) with block; lia).
      rewrite <- after_part by (change (drop (whole m * block) m) with (after m).(buf); lia). destruct fuel; done.
Qed.

(** The padding of the code is that of the standard. *)
Lemma pad_padding m : drop (whole m * block) m ++ padding (length m) = pad (drop (whole m * block) m) 1 block.
Proof.
  destruct (whole_spec m) as (k & Hm & Hk & Hl). set (b := drop (whole m * block) m) in *.
  unfold padding. assert (length m mod block = k)%nat as -> by (symmetry; apply (Nat.mod_unique _ _ (whole m)); lia).
  unfold pad. destruct (Nat.eqb_spec (block - k) 1) as [Hq|Hq].
  - assert (block - length (b ++ [1%Z]) = 0)%nat as -> by (rewrite length_app; cbn [length]; lia). cbn [replicate]. rewrite app_nil_r.
    replace (block - 1)%nat with (length b + 0)%nat by lia. by rewrite alter_app_r.
  - assert (block - length (b ++ [1%Z]) = S (block - k - 2))%nat as -> by (rewrite length_app; cbn [length]; lia).
    replace (S (block - k - 2)) with (block - k - 2 + 1)%nat by lia. rewrite replicate_add. cbn [replicate].
    rewrite (app_assoc (b ++ [1])). replace (block - 1)%nat with (length ((b ++ [1%Z]) ++ replicate (block - k - 2) 0%Z) + 0)%nat.
    2: { rewrite !length_app, length_replicate. cbn [length]. lia. }
    rewrite alter_app_r. cbn [alter list_alter]. by rewrite <- !app_assoc.
Qed.

Lemma pad_length m : length (pad (drop (whole m * block) m) 1 block) = block.
Proof.
  rewrite <- pad_padding. destruct (whole_spec m) as (k & Hm & Hk & Hl). rewrite length_app, Hl. unfold padding.
  assert (length m mod block = k)%nat as -> by (symmetry; apply (Nat.mod_unique _ _ (whole m)); lia).
  destruct (Nat.eqb_spec (block - k) 1); cbn [length]; [lia|]. rewrite length_app, length_replicate. cbn [length]. lia.
Qed.

Lemma bytes_length (A : lanes) : length (concat (map (le_bytes 8) A)) = (8 * length A)%nat.
Proof.
  induction A as [|x A IH]; [done|]. cbn [map concat length]. rewrite length_app, IH. unfold le_bytes.
  rewrite length_reverse, be_bytes_length. lia.
Qed.

(** Reading what is there. *)
Lemma Read_loop_S fuel d n : Read_loop (S fuel) d (S n) =
  ('(d', rest) ← Read_loop fuel (squeezed d (length (take (S n) d.(buf)))) (S n - length (take (S n) d.(buf)));
   Some (d', take (S n) d.(buf) ++ rest)).
Proof. reflexivity. Qed.

Lemma Read_loop_there d n : (n <= length d.(buf))%nat -> exists d', Read_loop n d n = Some (d', take n d.(buf)).
Proof.
  intros H. destruct n as [|n]; [by eexists|]. rewrite Read_loop_S, length_take, Nat.min_l, Nat.sub_diag by done.
  destruct n; eexists; cbn [Read_loop mbind option_bind]; by rewrite app_nil_r.
Qed.

Lemma Read_absorbing d n : d.(dir) = spongeAbsorbing ->
  let A := keccakF1600 (xorIn d.(a) (pad d.(buf) d.(dsbyte) d.(rate))) in
  (n <= length (copyOut A d.(rate)))%nat -> exists d', Read d n = Some (d', take n (copyOut A d.(rate))).
Proof.
  intros Hd A Hl. unfold Read. rewrite Hd.
  assert (buf (padAndPermute d (dsbyte d)) = copyOut A (rate d)) as Hb.
  { unfold padAndPermute, permute. cbn [with_state dir]. by rewrite Hd. }
  destruct (Read_loop_there (padAndPermute d (dsbyte d)) n) as [d' H]; [by rewrite Hb|].
  exists d'. by rewrite H, Hb.
Qed.

(** The digest of what has been written. *)
Lemma last_block m : let p := m ++ padding (length m) in
  keccakF1600 (xorIn (after m).(a) (pad (after m).(buf) 1 block)) = absorb (length p / block) (replicate 25 0) p.
Proof.
  cbv zeta. pose proof (pad_length m) as Hp. destruct (whole_spec m) as (k & Hm & Hk & Hl).
  cbn [after with_state a buf]. rewrite xorIn_ok by (done || by apply absorb_length).
  rewrite <- pad_padding in *. rewrite <- absorb_snoc by (done || (rewrite length_take; lia)).
  rewrite app_assoc, take_drop. f_equal. symmetry. apply (whole_unique _ (S (whole m)) 0); [|unfold block; lia].
  rewrite length_app in *. rewrite Hl in Hp. lia.
Qed.

Definition final (m : list Z) : lanes := let p := m ++ padding (length m) in absorb (length p / block) (replicate 25 0) p.

Lemma final_length m : length (final m) = 25%nat.
Proof. by apply absorb_length. Qed.

Lemma copyOut_length m : length (copyOut (final m) block) = block.
Proof. unfold copyOut. rewrite length_take, bytes_length, final_length. unfold block. lia. Qed.

Lemma sponge_final m : sponge m = take 32 (copyOut (final m) block).
Proof. unfold copyOut. rewrite take_take. reflexivity. Qed.

Lemma Read_after m n : (n <= 32)%nat -> exists d, Read (after m) n = Some (d, take n (sponge m)).
Proof.
  intros Hn. rewrite sponge_final, take_take, Nat.min_l by done.
  assert (dir (after m) = spongeAbsorbing) as Hd by reflexivity.
  pose proof (Read_absorbing (after m) n Hd) as H. cbv zeta in H.
  assert (rate (after m) = block) as Er by reflexivity. assert (dsbyte (after m) = 1) as Ed by reflexivity.
  rewrite Er, Ed, last_block in H. apply H. change (n <= length (copyOut (final m) block))%nat. rewrite copyOut_length. unfold block. lia.
Qed.

Lemma sponge_length m : length (sponge m) = 32%nat.
Proof. rewrite sponge_final, length_take, copyOut_length. done. Qed.

Lemma Sum_absorbing d out : d.(dir) = spongeAbsorbing -> (exists d', Read d d.(outputLen) = Some (d', out)) ->
  Sum d [] = Some out.
Proof. intros Hd [d' H]. unfold Sum, clone. rewrite Hd. cbn [mbind option_bind]. by rewrite H. Qed.

Lemma Sum_after m : Sum (after m) [] = Some (sponge m).
Proof.
  apply Sum_absorbing; [reflexivity|]. assert (outputLen (after m) = 32%nat) as -> by reflexivity.
  destruct (Read_after m 32 (le_n 32)) as [d H]. exists d. by rewrite take_ge in H by (by rewrite sponge_length).
Qed.

Lemma Write_after m p : Write (after m) p = Some (after (m ++ p)).
Proof. unfold Write. change (dir (after m)) with spongeAbsorbing. by apply Write_loop_after. Qed.

Lemma Writes_after data : forall m, foldl (fun d b => d ← d; Write d b) (Some (after m)) data = Some (after (m ++ concat data)).
Proof.
  induction data as [|b data IH]; intros m; [cbn; by rewrite app_nil_r|]. cbn [foldl mbind option_bind concat].
  by rewrite Write_after, IH, <- app_assoc.
Qed.

Lemma Keccak256_sponge data : Keccak256 data = Some (sponge (concat data)).
Proof. unfold Keccak256. change NewKeccak256 with (after []). rewrite Writes_after. cbn [mbind option_bind app]. apply Sum_after. Qed.

Lemma sponge_bytes m : Forall (fun x => 0 <= x < 256) (sponge m).
Proof.
  unfold sponge. apply Forall_take, Forall_concat, Forall_map. apply Forall_true. intros x.
  unfold le_bytes. apply Forall_reverse, be_bytes_range.
Qed.

Lemma Reset_after : Reset NewKeccak256 = after [].
Proof. reflexivity. Qed.

Lemma Size_after m : Size (after m) = 32%nat.
Proof. reflexivity. Qed.
