(* ===== verification/TrieEncoding.v ===== *)
(** * Keys of the trie

    dvm/ethereum/trie/encoding.go: the three encodings of a key - its bytes, its
    nibbles with an optional terminator of 16, and the compact form that is stored -
    and that they are inverse to each other. *)
From Stdlib Require Import ZArith Lia.
From S2P Require Import Prelude Word.
Import Big.
Open Scope Z_scope.

Definition hasTerm (s : list Z) : bool := match last s with Some x => x =? 16 | None => false end.

(** Two nibbles to a byte; an odd nibble at the end is an index out of range. *)
Fixpoint decodeNibbles (nibbles : list Z) : option (list Z) :=
  match nibbles with
  | [] => Some []
  | [_] => None
  | a :: b :: l => r ← decodeNibbles l; Some (Z.lor (u8 (Z.shiftl a 4)) b :: r)
  end.

Definition hexToCompact (hex : list Z) : option (list Z) :=
  let term := hasTerm hex in
  let hex := if term then removelast hex else hex in
  let flag := if term then Z.shiftl 1 5 else 0 in
  match Nat.odd (length hex), hex with
  | true, x :: hex => r ← decodeNibbles hex; Some (Z.lor (Z.lor flag (Z.shiftl 1 4)) x :: r)
  | _, hex => r ← decodeNibbles hex; Some (flag :: r)
  end.

Fixpoint nibbles_of (str : list Z) : list Z :=
  match str with [] => [] | b :: str => b / 16 :: b mod 16 :: nibbles_of str end.

Definition keybytesToHex (str : list Z) : list Z := nibbles_of str ++ [16].

(** [s[i:]] *)
Definition from (s : list Z) (i : nat) : option (list Z) := if (i <=? length s)%nat then Some (drop i s) else None.

(** [base[0]] of the empty string is the terminator. *)
Definition compactToHex (compact : list Z) : option (list Z) :=
  let base := keybytesToHex compact in
  b0 ← head base;
  let base := if b0 <? 2 then removelast base else base in
  from base (Z.to_nat (2 - Z.land b0 1)).

(** An odd number of nibbles panics. *)
Definition hexToKeybytes (hex : list Z) : option (list Z) :=
  let hex := if hasTerm hex then removelast hex else hex in
  if Nat.odd (length hex) then None else decodeNibbles hex.

Fixpoint prefixLen (a b : list Z) : nat :=
  match a, b with
  | x :: a, y :: b => if x =? y then S (prefixLen a b) else O
  | _, _ => O
  end.

(** ** Facts *)
Definition nibble (x : Z) : Prop := 0 <= x < 16.
Definition nibbles (l : list Z) : Prop := Forall nibble l.
Definition bytes (l : list Z) : Prop := Forall (fun x => 0 <= x < 256) l.

Lemma nibbles_of_nibbles b : bytes b -> nibbles (nibbles_of b).
Proof.
  induction 1 as [|x b Hx _ IH]; [constructor|]. cbn [nibbles_of]. repeat constructor; try done; unfold nibble.
  - apply Z.div_pos; lia.
  - apply Z.div_lt_upper_bound; lia.
  - apply Z.mod_pos_bound; lia.
  - apply Z.mod_pos_bound; lia.
Qed.

Lemma nibbles_of_length b : length (nibbles_of b) = (2 * length b)%nat.
Proof. induction b as [|x b IH]; [done|]. cbn [nibbles_of length]. lia. Qed.

Lemma lor_nibbles a b : nibble a -> nibble b -> Z.lor (u8 (Z.shiftl a 4)) b = a * 16 + b.
Proof.
  unfold nibble, u8. intros Ha Hb. rewrite Z.shiftl_mul_pow2 by lia. change (2 ^ 4) with 16.
  rewrite Z.mod_small by lia. symmetry. apply Z.add_nocarry_lor.
  apply Z.bits_inj'. intros n Hn. rewrite Z.land_spec, Z.bits_0. change 16 with (2 ^ 4).
  destruct (Z.lt_ge_cases n 4).
  - by rewrite Z.mul_pow2_bits_low.
  - rewrite andb_comm. apply andb_false_iff. left. destruct (Z.eq_dec b 0) as [->|]; [by rewrite Z.bits_0|].
    apply Z.bits_above_log2; [lia|]. apply Z.lt_le_trans with 4; [|lia]. apply Z.log2_lt_pow2; lia.
Qed.

Lemma decodeNibbles_of b : bytes b -> decodeNibbles (nibbles_of b) = Some b.
Proof.
  induction 1 as [|x b Hx Hb IH]; [done|]. cbn [nibbles_of decodeNibbles]. rewrite IH. cbn [mbind option_bind].
  rewrite lor_nibbles.
  - do 2 f_equal. rewrite Z.mul_comm. symmetry. apply Z.div_mod. lia.
  - unfold nibble. split; [apply Z.div_pos; lia|apply Z.div_lt_upper_bound; lia].
  - apply Z.mod_pos_bound. lia.
Qed.

(** Nibbles in pairs are those of bytes. *)
Lemma nibbles_pairs k n : length k = (2 * n)%nat -> nibbles k ->
  exists b, bytes b /\ k = nibbles_of b /\ length b = n.
Proof.
  revert k. induction n as [|n IH]; intros k Hl Hk.
  - destruct k; [|cbn in Hl; lia]. exists []. split; [constructor|done].
  - destruct k as [|x [|y k]]; cbn in Hl; [lia|lia|].
    apply Forall_cons in Hk as [Hx Hk]. apply Forall_cons in Hk as [Hy Hk].
    destruct (IH k) as (b & Hb & -> & Hlb); [lia|done|]. exists (x * 16 + y :: b). unfold nibble in *.
    split; [constructor; [lia|done]|]. split; [|cbn; lia]. cbn [nibbles_of]. f_equal; [|f_equal].
    + apply Z.div_unique with y; lia.
    + apply Z.mod_unique with x; lia.
Qed.

Lemma nibbles_of_inj a b : bytes a -> bytes b -> nibbles_of a = nibbles_of b -> a = b.
Proof. intros Ha Hb H. apply (f_equal decodeNibbles) in H. rewrite !decodeNibbles_of in H by done. congruence. Qed.

Lemma keybytesToHex_inj a b : bytes a -> bytes b -> keybytesToHex a = keybytesToHex b -> a = b.
Proof. intros Ha Hb H. apply app_inj_tail in H as [H _]. by apply nibbles_of_inj. Qed.

Lemma hasTerm_app k : hasTerm (k ++ [16]) = true.
Proof. unfold hasTerm. by rewrite last_snoc. Qed.

Lemma hasTerm_nibbles k : nibbles k -> hasTerm k = false.
Proof.
  intros Hk. unfold hasTerm. destruct (last k) as [x|] eqn:Hx; [|done].
  apply Z.eqb_neq. apply last_Some_elem_of in Hx. unfold nibbles in Hk. rewrite Forall_forall in Hk.
  specialize (Hk x Hx). unfold nibble in Hk. lia.
Qed.

Lemma hexToKeybytes_Hex b : bytes b -> hexToKeybytes (keybytesToHex b) = Some b.
Proof.
  intros Hb. unfold hexToKeybytes, keybytesToHex. rewrite hasTerm_app, removelast_last, nibbles_of_length.
  rewrite Nat.odd_mul. cbn [Nat.odd andb]. by apply decodeNibbles_of.
Qed.

(** A hex key: nibbles, with or without the terminator. *)
Definition hex_key (k : list Z) : Prop := exists n, nibbles n /\ (k = n \/ k = n ++ [16]).

Definition terminated (term : bool) (n : list Z) : list Z := if term then n ++ [16] else n.

Lemma hexToCompact_terminated term n : nibbles n -> hexToCompact (terminated term n) =
  let flag := if term then 32 else 0 in
  match Nat.odd (length n), n with
  | true, x :: n => r ← decodeNibbles n; Some (Z.lor (Z.lor flag 16) x :: r)
  | _, n => r ← decodeNibbles n; Some (flag :: r)
  end.
Proof.
  intros Hn. unfold hexToCompact, terminated. destruct term.
  - by rewrite hasTerm_app, removelast_last.
  - by rewrite hasTerm_nibbles.
Qed.

Lemma flag_nibble f x : f = 16 \/ f = 48 -> nibble x ->
  Z.lor f x = f + x /\ (f + x) / 16 = f / 16 /\ (f + x) mod 16 = x.
Proof.
  unfold nibble. intros Hf Hx. split; [|destruct Hf as [-> | ->]; split].
  - assert (nibble (f / 16)) as Hn by (unfold nibble; destruct Hf as [-> | ->]; vm_compute; split; congruence).
    pose proof (lor_nibbles (f / 16) x Hn Hx) as H. destruct Hf as [-> | ->]; exact H.
  - symmetry. change (16 / 16) with 1. apply Z.div_unique with x; lia.
  - symmetry. apply Z.mod_unique with 1; lia.
  - symmetry. change (48 / 16) with 3. apply Z.div_unique with x; lia.
  - symmetry. apply Z.mod_unique with 3; lia.
Qed.

Lemma compactToHex_cons b0 r : compactToHex (b0 :: r) =
  from (if b0 / 16 <? 2 then b0 / 16 :: b0 mod 16 :: nibbles_of r
        else b0 / 16 :: b0 mod 16 :: nibbles_of r ++ [16]) (Z.to_nat (2 - Z.land (b0 / 16) 1)).
Proof.
  unfold compactToHex, keybytesToHex. cbn [nibbles_of app head mbind option_bind]. destruct (b0 / 16 <? 2); [|done].
  change (b0 / 16 :: b0 mod 16 :: nibbles_of r ++ [16]) with ((b0 / 16 :: b0 mod 16 :: nibbles_of r) ++ [16]).
  by rewrite removelast_last.
Qed.

(** The terminator and the parity are in the first nibble. *)
Lemma compact_hex term n : nibbles n ->
  exists c, hexToCompact (terminated term n) = Some c /\ compactToHex c = Some (terminated term n).
Proof.
  intros Hn. rewrite hexToCompact_terminated by done. cbv zeta. destruct (Nat.Even_or_Odd (length n)) as [Ho|Ho].
  - assert (Nat.odd (length n) = false) as -> by (rewrite <- Nat.negb_even; by apply negb_false_iff, Nat.even_spec).
    destruct Ho as [m Hm]. destruct (nibbles_pairs n m Hm Hn) as (b & Hb & -> & _).
    exists ((if term then 32 else 0) :: b). split; [rewrite decodeNibbles_of by done; by destruct (nibbles_of b)|].
    rewrite compactToHex_cons. unfold terminated. by destruct term.
  - pose proof Ho as Ho'. apply Nat.odd_spec in Ho' as ->. destruct Ho as [m Hm].
    destruct n as [|x n]; [cbn in Hm; lia|].
    apply Forall_cons in Hn as [Hx Hn]. destruct (nibbles_pairs n m) as (b & Hb & -> & _); [cbn in Hm; lia|done|].
    rewrite decodeNibbles_of by done. eexists. split; [reflexivity|].
    destruct (flag_nibble (if term then 48 else 16) x) as (H1 & H2 & H3); [destruct term; auto|done|].
    assert (Z.lor (if term then 32 else 0) 16 = if term then 48 else 16) as -> by by destruct term.
    rewrite compactToHex_cons, H1, H2, H3. unfold terminated. by destruct term.
Qed.
