(* ===== verification/TrieTree.v ===== *)
(** * Tries without a database

    The tree a node stands for when everything is loaded, the operations on it, what
    a minimal tree is, and that a minimal tree is a map from keys to values: it is
    determined by its contents. *)
From Stdlib Require Import ZArith Lia.
From S2P Require Import Prelude Word TrieEncoding.
Import Big.
Open Scope Z_scope.

Inductive tree :=
  | TNil
  | TVal (v : list Z)
  | TShort (k : list Z) (t : tree)
  | TFull (cs : list tree).

#[export] Instance tree_nil_dec (c : tree) : Decision (c = TNil).
Proof. destruct c; [by left|by right..]. Defined.

(** Recursion in a list of children, with [Z] indices as they come in keys. *)
Definition at_child {A} (f : tree -> A) (d : A) : list tree -> nat -> A :=
  fix go cs i := match cs, i with
                 | [], _ => d
                 | c :: _, O => f c
                 | _ :: cs, S i => go cs i
                 end.
Definition in_child (f : tree -> tree) : list tree -> nat -> list tree :=
  fix go cs i := match cs, i with
                 | [], _ => []
                 | c :: cs, O => f c :: cs
                 | c :: cs, S i => c :: go cs i
                 end.

Lemma at_child_lookup {A} (f : tree -> A) d cs i :
  at_child f d cs i = match cs !! i with Some c => f c | None => d end.
Proof. revert i. induction cs as [|c cs IH]; by intros [|i]; cbn. Qed.

Lemma in_child_alter f cs i : in_child f cs i = alter f i cs.
Proof. revert i. induction cs as [|c cs IH]; intros [|i]; cbn; by rewrite ?IH. Qed.

Fixpoint tget (t : tree) (key : list Z) : option (list Z) :=
  match t with
  | TNil => None
  | TVal v => Some v
  | TShort k t =>
      if bool_decide (take (length k) key = k) then tget t (drop (length k) key) else None
  | TFull cs =>
      match key with
      | [] => None
      | i :: key => at_child (fun c => tget c key) None cs (Z.to_nat i)
      end
  end.

Definition leaf (k : list Z) (t : tree) : tree := match k with [] => t | _ => TShort k t end.

Definition empty_branch : list tree := replicate 17 TNil.

(** A short node that does not match branches out where the keys part. *)
Definition branch (k key : list Z) (t : tree) (v : tree) (m : nat) : list tree :=
  match k !! m, key !! m with
  | Some a, Some b =>
      <[Z.to_nat b := leaf (drop (S m) key) v]> (<[Z.to_nat a := leaf (drop (S m) k) t]> empty_branch)
  | _, _ => empty_branch
  end.

Fixpoint tinsert (t : tree) (key v : list Z) : tree :=
  match key with
  | [] => TVal v
  | i :: rest =>
      match t with
      | TNil => TShort key (TVal v)
      | TVal _ => t
      | TShort k c =>
          let m := prefixLen key k in
          if (m =? length k)%nat then TShort k (tinsert c (drop m key) v)
          else
            let b := TFull (branch k key c (TVal v) m) in
            if (m =? 0)%nat then b else TShort (take m key) b
      | TFull cs => TFull (in_child (fun c => tinsert c rest v) cs (Z.to_nat i))
      end
  end.

(** The children that are there, with their places. *)
Fixpoint present (i : Z) (cs : list tree) : list (Z * tree) :=
  match cs with
  | [] => []
  | TNil :: cs => present (i + 1) cs
  | c :: cs => (i, c) :: present (i + 1) cs
  end.

(** A full node with one child left becomes a short one. *)
Definition reduce (cs : list tree) : tree :=
  match present 0 cs with
  | [(i, c)] =>
      match c with
      | TShort k t => if i =? 16 then TShort [i] c else TShort (i :: k) t
      | _ => TShort [i] c
      end
  | _ => TFull cs
  end.

Definition merge_short (k : list Z) (c : tree) : tree :=
  match c with TShort k' t => TShort (k ++ k') t | _ => TShort k c end.

Fixpoint tdelete (t : tree) (key : list Z) : tree :=
  match t with
  | TNil | TVal _ => TNil
  | TShort k c =>
      let m := prefixLen key k in
      if (m <? length k)%nat then t
      else if (m =? length key)%nat then TNil
      else merge_short k (tdelete c (drop m key))
  | TFull cs =>
      match key with
      | [] => t
      | i :: key => reduce (in_child (fun c => tdelete c key) cs (Z.to_nat i))
      end
  end.

(** ** Minimal trees *)
Definition is_full (t : tree) : bool := match t with TFull _ => true | _ => false end.

(** A tree below which keys go on ([inner]); a key ends in the terminator. *)
Inductive inner : tree -> Prop :=
  | inner_leaf k v : nibbles k -> v <> [] -> inner (TShort (k ++ [16]) (TVal v))
  | inner_short k t : nibbles k -> k <> [] -> is_full t = true -> inner t -> inner (TShort k t)
  | inner_full cs last : length cs = 16%nat -> Forall (fun c => c = TNil \/ inner c) cs ->
      last = TNil \/ (exists v, last = TVal v /\ v <> []) ->
      (2 <= length (present 0 (cs ++ [last])))%nat -> inner (TFull (cs ++ [last])).

(** Empty, or minimal. *)
Definition minimal (t : tree) : Prop := t = TNil \/ inner t.

(** A key as the operations get it. *)
Definition hexkey (k : list Z) : Prop := exists n, nibbles n /\ k = n ++ [16].

Section InnerInd.
Context (P : tree -> Prop).
Context (Pleaf : forall k v, nibbles k -> v <> [] -> P (TShort (k ++ [16]) (TVal v))).
Context (Pshort : forall k t, nibbles k -> k <> [] -> is_full t = true -> inner t -> P t -> P (TShort k t)).
Context (Pfull : forall cs last, length cs = 16%nat -> Forall (fun c => c = TNil \/ (inner c /\ P c)) cs ->
  last = TNil \/ (exists v, last = TVal v /\ v <> []) ->
  (2 <= length (present 0 (cs ++ [last])))%nat -> P (TFull (cs ++ [last]))).

Fixpoint inner_nested_ind (t : tree) (H : inner t) {struct H} : P t.
Proof.
  destruct H as [k v Hk Hv|k t Hk Hne Hf Ht|cs last Hl Hcs Hlast Hp].
  - by apply Pleaf.
  - apply Pshort; try done. by apply inner_nested_ind.
  - apply Pfull; try done. clear Hl Hp. induction Hcs as [|c cs Hc Hcs IH]; constructor; [|exact IH].
    destruct Hc as [Hc|Hc]; [by left|right]. split; [exact Hc|by apply inner_nested_ind].
Defined.
End InnerInd.

(** ** Keys *)
Lemma hexkey_cons i k : nibble i -> hexkey k -> hexkey (i :: k).
Proof. intros Hi (n & Hn & ->). exists (i :: n). split; [by constructor|done]. Qed.

Lemma hexkey_app p k : nibbles p -> hexkey k -> hexkey (p ++ k).
Proof. intros Hp (n & Hn & ->). exists (p ++ n). split; [by apply Forall_app|]. by rewrite app_assoc. Qed.

Lemma hexkey_16 : hexkey [16].
Proof. exists []. by split; [constructor|]. Qed.

Lemma hexkey_nil : ~ hexkey [].
Proof. intros (n & _ & H). by destruct n. Qed.

Lemma hexkey_cases k : hexkey k -> k = [16] \/ exists i r, k = i :: r /\ nibble i /\ hexkey r.
Proof.
  intros ([|i n] & Hn & ->); [by left|]. right. apply Forall_cons in Hn as [Hi Hn].
  exists i, (n ++ [16]). split_and!; try done. by exists n.
Qed.

Lemma hexkey_drop p k : nibbles p -> hexkey (p ++ k) -> hexkey k.
Proof.
  induction 1 as [|x p Hx _ IH]; [done|]. cbn. intros H. apply IH.
  apply hexkey_cases in H as [H|(i & r & [= -> ->] & _ & H)]; [|done].
  injection H as -> H. unfold nibble in Hx. lia.
Qed.

(** A key does not go on after another. *)
Lemma hexkey_prefix a b : hexkey a -> hexkey (a ++ b) -> b = [].
Proof.
  intros (n & Hn & ->). rewrite <- app_assoc. intros H%hexkey_drop; [|done]. cbn in H.
  apply hexkey_cases in H as [[= ->]|(i & r & [= <- ->] & Hi & _)]; [done|]. unfold nibble in Hi. lia.
Qed.

Lemma prefixLen_spec a b :
  take (prefixLen a b) a = take (prefixLen a b) b /\ (prefixLen a b <= length a)%nat /\
  (prefixLen a b <= length b)%nat /\
  (forall x y, a !! prefixLen a b = Some x -> b !! prefixLen a b = Some y -> x <> y).
Proof.
  revert b. induction a as [|x a IH]; intros b; [by destruct b; cbn; split_and!; try lia|].
  destruct b as [|y b]; [cbn; split_and!; try lia; done|]. cbn [prefixLen].
  destruct (Z.eqb_spec x y) as [->|Hne].
  - destruct (IH b) as (H1 & H2 & H3 & H4). cbn. rewrite H1. split_and!; try lia; [done|exact H4].
  - cbn. split_and!; try lia; [done|]. intros ? ? [= <-] [= <-]. done.
Qed.

(** Either the short node's key is a prefix, or they part. *)
Lemma prefixLen_cases key k :
  (prefixLen key k = length k /\ exists r, key = k ++ r) \/
  ((prefixLen key k < length k)%nat /\ ~ exists r, key = k ++ r).
Proof.
  destruct (prefixLen_spec key k) as (H1 & H2 & H3 & H4).
  destruct (decide (prefixLen key k = length k)) as [He|Hne].
  - left. split; [done|]. exists (drop (length k) key). rewrite He, (take_ge k) in H1 by done.
    rewrite <- H1 at 1. symmetry. apply take_drop.
  - right. split; [lia|]. intros [r ->].
    destruct (lookup_lt_is_Some_2 k (prefixLen (k ++ r) k)) as [x Hx]; [lia|].
    apply (H4 x x); [|done|done]. rewrite lookup_app_l; [done|lia].
Qed.

(** ** Looking up *)
Lemma take_prefix (k key : list Z) : take (length k) key = k <-> exists r, key = k ++ r.
Proof.
  split.
  - intros H. exists (drop (length k) key). rewrite <- H at 1. by rewrite take_drop.
  - intros [r ->]. apply take_app_length.
Qed.

Lemma tget_short_app k t r : tget (TShort k t) (k ++ r) = tget t r.
Proof. cbn [tget]. rewrite bool_decide_true by (apply take_app_length). by rewrite drop_app_length. Qed.

Lemma tget_short_ne k t key : ~ (exists r, key = k ++ r) -> tget (TShort k t) key = None.
Proof. intros H. cbn [tget]. by rewrite bool_decide_false by (by rewrite take_prefix). Qed.

Lemma tget_leaf_app k t r : tget (leaf k t) (k ++ r) = tget t r.
Proof. destruct k; [done|]. apply tget_short_app. Qed.

Lemma tget_leaf_ne k t key : ~ (exists r, key = k ++ r) -> tget (leaf k t) key = None.
Proof. destruct k; [|apply tget_short_ne]. intros []. by exists key. Qed.

Lemma tget_full cs i r : tget (TFull cs) (i :: r) =
  match cs !! Z.to_nat i with Some c => tget c r | None => None end.
Proof. cbn [tget]. apply at_child_lookup. Qed.

(** ** Children *)
Definition value_child (c : tree) : Prop := c = TNil \/ exists v, c = TVal v /\ v <> [].
Definition child_ok (i : nat) (c : tree) : Prop :=
  ((i < 16)%nat /\ (c = TNil \/ inner c)) \/ (i = 16%nat /\ value_child c).

Lemma present_elem cs : forall z i c, (i, c) ∈ present z cs <->
  exists n, i = z + Z.of_nat n /\ cs !! n = Some c /\ c <> TNil.
Proof.
  induction cs as [|c0 cs IH]; intros z i c; cbn [present].
  - split; [set_solver|]. intros (n & _ & H & _). by destruct n.
  - assert ((i, c) ∈ present (z + 1) cs <-> exists n, i = z + Z.of_nat (S n) /\ (c0 :: cs) !! S n = Some c /\ c <> TNil) as Hrest.
    { rewrite IH. split; intros (n & -> & H); exists n; (split; [lia|exact H]). }
    destruct (decide (c0 = TNil)) as [->|Hne].
    + rewrite Hrest. split; [intros (n & H); by exists (S n)|]. intros ([|n] & -> & H1 & H2); [naive_solver|by exists n].
    + assert ((i, c) ∈ (z, c0) :: present (z + 1) cs <->
        exists n, i = z + Z.of_nat n /\ (c0 :: cs) !! n = Some c /\ c <> TNil) as Hgoal.
      { rewrite elem_of_cons, Hrest. split.
        - intros [[= -> ->]|(n & H)]; [exists O; split_and!; try done; lia|by exists (S n)].
        - intros ([|n] & -> & H1 & H2); [left; injection H1 as ->; f_equal; lia|right; by exists n]. }
      destruct c0; [done|exact Hgoal..].
Qed.

Lemma present_NoDup cs : forall z, NoDup (present z cs).*1 /\ Forall (fun x => z <= x.1) (present z cs).
Proof.
  induction cs as [|c cs IH]; intros z; cbn [present]; [by split; constructor|].
  destruct (IH (z + 1)) as [H1 H2].
  assert (Forall (fun x : Z * tree => z <= x.1) (present (z + 1) cs)) as H3 by (eapply Forall_impl; [exact H2|]; cbn; lia).
  assert (NoDup (z :: (present (z + 1) cs).*1)) as H4.
  { constructor; [|done]. intros (x & -> & Hx)%list_elem_of_fmap. rewrite Forall_forall in H2. specialize (H2 _ Hx). lia. }
  destruct c; [done|split; [exact H4|constructor; [cbn; lia|done]]..].
Qed.

(** Two children make a full node. *)
Lemma present_two cs i j c d : cs !! i = Some c -> cs !! j = Some d -> c <> TNil -> d <> TNil -> i <> j ->
  (2 <= length (present 0 cs))%nat.
Proof.
  intros Hi Hj Hc Hd Hne.
  assert ((Z.of_nat i, c) ∈ present 0 cs) as H1 by (apply present_elem; exists i; split_and!; (done || lia)).
  assert ((Z.of_nat j, d) ∈ present 0 cs) as H2 by (apply present_elem; exists j; split_and!; (done || lia)).
  destruct (present 0 cs) as [|x [|y l]]; [set_solver| |cbn; lia].
  apply list_elem_of_singleton in H1, H2. rewrite <- H2 in H1. injection H1 as H1. lia.
Qed.

Lemma two_present cs : (2 <= length (present 0 cs))%nat ->
  exists i j c d, cs !! i = Some c /\ cs !! j = Some d /\ c <> TNil /\ d <> TNil /\ i <> j.
Proof.
  intros H. destruct (present_NoDup cs 0) as [Hn _].
  destruct (present 0 cs) as [|[i c] [|[j d] l]] eqn:E; cbn in H; [lia|lia|].
  assert ((i, c) ∈ present 0 cs) as H1 by (rewrite E; set_solver).
  assert ((j, d) ∈ present 0 cs) as H2 by (rewrite E; set_solver).
  apply present_elem in H1 as (n & -> & Hc & Hc'). apply present_elem in H2 as (m & -> & Hd & Hd').
  exists n, m, c, d. split_and!; try done. intros ->. cbn in Hn. apply NoDup_cons in Hn as [Hn _]. set_solver.
Qed.

Lemma inner_full_intro cs : length cs = 17%nat -> (forall i c, cs !! i = Some c -> child_ok i c) ->
  (2 <= length (present 0 cs))%nat -> inner (TFull cs).
Proof.
  intros Hl Hc Hp. destruct (exists_last (l := cs)) as (l & last & ->); [by intros ->|].
  rewrite length_app in Hl. cbn in Hl. constructor; [lia| | |done].
  - apply Forall_lookup. intros i c Hi. pose proof (lookup_lt_Some _ _ _ Hi) as Hlt.
    destruct (Hc i c) as [[_ H]|[-> _]]; [by apply lookup_app_l_Some|done|lia].
  - destruct (Hc 16%nat last) as [[? _]|[_ H]]; [|lia|exact H].
    rewrite lookup_app_r by lia. by replace (16 - length l)%nat with O by lia.
Qed.

Lemma full_children cs last i c : length cs = 16%nat -> Forall (fun c => c = TNil \/ inner c) cs ->
  value_child last -> (cs ++ [last]) !! i = Some c -> child_ok i c.
Proof.
  intros Hl Hcs Hlast Hi. apply lookup_app_Some in Hi as [Hi|[Hge Hi]].
  - left. pose proof (lookup_lt_Some _ _ _ Hi). split; [lia|]. rewrite Forall_lookup in Hcs. by apply (Hcs i).
  - right. apply lookup_lt_Some in Hi as Hlt. cbn in Hlt. replace (i - length cs)%nat with O in Hi by lia.
    injection Hi as <-. split; [lia|done].
Qed.

Lemma inner_full_inv cs : inner (TFull cs) -> length cs = 17%nat /\
  (forall i c, cs !! i = Some c -> child_ok i c) /\ (2 <= length (present 0 cs))%nat.
Proof.
  inversion 1 as [| |l last Hl Hcs Hlast Hp]; subst. split; [rewrite length_app; cbn; lia|].
  split; [|done]. intros i c. by apply full_children.
Qed.

Lemma inner_not_nil t : inner t -> t <> TNil.
Proof. by destruct 1. Qed.

(** What a leaf below a place is. *)
Lemma leaf_value_ok i r v : hexkey (i :: r) -> v <> [] -> child_ok (Z.to_nat i) (leaf r (TVal v)) /\ leaf r (TVal v) <> TNil.
Proof.
  intros Hk Hv. apply hexkey_cases in Hk as [[= -> ->]|(i' & r' & [= <- <-] & Hi & (n & Hn & ->))].
  - split; [|done]. right. split; [done|]. right. by exists v.
  - assert (leaf (n ++ [16]) (TVal v) = TShort (n ++ [16]) (TVal v)) as -> by (by destruct n).
    split; [|done]. left. unfold nibble in Hi. split; [lia|]. right. by constructor.
Qed.

Lemma leaf_full_ok i k t : nibbles (i :: k) -> is_full t = true -> inner t ->
  child_ok (Z.to_nat i) (leaf k t) /\ leaf k t <> TNil.
Proof.
  intros Hk Hf Ht. apply Forall_cons in Hk as [Hi Hk]. unfold nibble in Hi. split.
  - left. split; [lia|]. right. destruct k; [done|]. by constructor.
  - destruct k; [by apply inner_not_nil|done].
Qed.

(** ** Inserting *)
Lemma tget_short_cons a ka t i r :
  tget (TShort (a :: ka) t) (i :: r) = if decide (i = a) then tget (leaf ka t) r else None.
Proof.
  case_decide as Hi.
  - subst. destruct (decide (take (length ka) r = ka)) as [H|H]; rewrite take_prefix in H.
    + destruct H as [x ->]. change (a :: ka ++ x) with ((a :: ka) ++ x). by rewrite tget_short_app, tget_leaf_app.
    + rewrite tget_leaf_ne, tget_short_ne; [done| |done]. intros [x [= ->]]. apply H. by exists x.
  - rewrite tget_short_ne; [done|]. by intros [x [= ? _]].
Qed.

Lemma hexkey_head i r : hexkey (i :: r) -> 0 <= i < 17.
Proof. intros [[= -> _]|(i' & r' & [= <- _] & Hi & _)]%hexkey_cases; [lia|unfold nibble in Hi; lia]. Qed.

Lemma short_rest p a ka t : inner (TShort (p ++ a :: ka) t) ->
  nibbles p /\ 0 <= a < 17 /\ child_ok (Z.to_nat a) (leaf ka t) /\ leaf ka t <> TNil.
Proof.
  intros H. remember (TShort (p ++ a :: ka) t) as x eqn:Hx. destruct H as [k v Hk Hv|k t' Hk Hne Hf Ht|];
    [injection Hx as He <-|injection Hx as -> ->|done].
  - assert (hexkey (p ++ a :: ka)) as Hh by (rewrite <- He; by exists k).
    assert (nibbles p) as Hp.
    { destruct (exists_last (l := a :: ka)) as (l & x & E); [done|]. rewrite E, app_assoc in He.
      apply app_inj_tail in He as [-> _]. by apply Forall_app in Hk as [? _]. }
    split; [done|]. apply hexkey_drop in Hh; [|done]. split; [|by apply leaf_value_ok].
    apply hexkey_cases in Hh as [[= -> _]|(i & r & [= <- _] & Hi & _)]; [lia|unfold nibble in Hi; lia].
  - apply Forall_app in Hk as [Hp Hk]. split; [done|]. split; [|by apply leaf_full_ok].
    apply Forall_cons in Hk as [Hi _]. unfold nibble in Hi. lia.
Qed.

Lemma branch_parts p a ka b kb t v : branch (p ++ a :: ka) (p ++ b :: kb) t v (length p) =
  <[Z.to_nat b := leaf kb v]> (<[Z.to_nat a := leaf ka t]> empty_branch).
Proof.
  unfold branch. rewrite !lookup_app_r, !Nat.sub_diag by lia. cbn [lookup list_lookup].
  assert (forall x l, drop (S (length p)) (p ++ x :: l) = l) as Hd.
  { intros x l. rewrite (app_assoc p [x] l : p ++ x :: l = _). replace (S (length p)) with (length (p ++ [x])) by (rewrite length_app; cbn; lia).
    apply drop_app_length. }
  by rewrite !Hd.
Qed.

Lemma branch_ok p a ka b kb t v :
  inner (TShort (p ++ a :: ka) t) -> hexkey (b :: kb) -> a <> b -> v <> [] ->
  let bt := TFull (branch (p ++ a :: ka) (p ++ b :: kb) t (TVal v) (length p)) in
  inner bt /\ forall key, hexkey key -> tget bt key = if decide (key = b :: kb) then Some v else tget (TShort (a :: ka) t) key.
Proof.
  intros Ht Hk Hab Hv. rewrite branch_parts. cbv zeta.
  destruct (short_rest _ _ _ _ Ht) as (Hp & Ha & Hca & Hna).
  destruct (leaf_value_ok b kb v Hk Hv) as [Hcb Hnb].
  pose proof (hexkey_head _ _ Hk) as Hb.
  assert (Z.to_nat a <> Z.to_nat b) as Hab' by lia.
  set (cs := <[Z.to_nat b := leaf kb (TVal v)]> (<[Z.to_nat a := leaf ka t]> empty_branch)).
  assert (length cs = 17%nat) as Hl by (unfold cs; by rewrite !length_insert).
  assert (cs !! Z.to_nat b = Some (leaf kb (TVal v))) as Hlb.
  { apply list_lookup_insert_eq. rewrite length_insert. cbn. lia. }
  assert (cs !! Z.to_nat a = Some (leaf ka t)) as Hla.
  { unfold cs. rewrite list_lookup_insert_ne by done. apply list_lookup_insert_eq. cbn. lia. }
  split.
  - apply inner_full_intro; [done| |by eapply (present_two cs _ _ _ _ Hla Hlb)].
    intros i c Hi. destruct (decide (i = Z.to_nat b)) as [->|Hib]; [naive_solver|].
    destruct (decide (i = Z.to_nat a)) as [->|Hia]; [naive_solver|].
    unfold cs in Hi. rewrite !list_lookup_insert_ne in Hi by done.
    apply lookup_replicate in Hi as [-> Hi]. unfold child_ok. destruct (decide (i = 16%nat)); [right|left]; (split; [lia|by left]).
  - intros key Hkey. destruct key as [|i r]; [by apply hexkey_nil in Hkey|]. rewrite tget_full.
    pose proof (hexkey_head _ _ Hkey) as Hi0. rewrite tget_short_cons.
    destruct (decide (i = b)) as [->|Hib].
    + rewrite Hlb, (decide_False (P := b = a)) by congruence. destruct (decide (b :: r = b :: kb)) as [[= ->]|Hne].
      * rewrite <- (app_nil_r kb) at 2. by rewrite tget_leaf_app.
      * rewrite tget_leaf_ne; [done|].
        intros [x ->]. change (b :: kb ++ x) with ((b :: kb) ++ x) in Hkey. apply hexkey_prefix in Hkey as ->; [|done].
        by rewrite app_nil_r in Hne.
    + rewrite (decide_False (P := i :: r = b :: kb)) by congruence. case_decide as Hia.
      * subst i. by rewrite Hla.
      * unfold cs. rewrite !list_lookup_insert_ne by lia. destruct (_ !! Z.to_nat i) eqn:E; [|done].
        by apply lookup_replicate in E as [-> _].
Qed.

(** A short node and what is below it, put behind more nibbles. *)
Lemma short_full_intro p t : nibbles p -> is_full t = true -> inner t ->
  inner (leaf p t) /\ forall key, hexkey key -> tget (leaf p t) key = if decide (take (length p) key = p) then tget t (drop (length p) key) else None.
Proof.
  intros Hp Hf Ht. split; [destruct p; [done|by constructor]|]. intros key Hkey. case_decide as H.
  - apply take_prefix in H as [r ->]. by rewrite tget_leaf_app, drop_app_length.
  - rewrite take_prefix in H. by apply tget_leaf_ne.
Qed.

Lemma tget_short_strip p k t r : tget (TShort (p ++ k) t) (p ++ r) = tget (TShort k t) r.
Proof.
  destruct (decide (take (length k) r = k)) as [H|H]; rewrite take_prefix in H.
  - destruct H as [x ->]. by rewrite app_assoc, !tget_short_app.
  - rewrite !tget_short_ne; [done|done|]. intros [x Hx]. rewrite <- app_assoc in Hx. apply app_inv_head in Hx. apply H. by exists x.
Qed.

(** What it is to be the insertion of a value. *)
Definition inserted (t t' : tree) (key v : list Z) : Prop :=
  inner t' /\ (is_full t = true -> is_full t' = true) /\
  forall key', hexkey key' -> tget t' key' = if decide (key' = key) then Some v else tget t key'.

(** Where a key and a short node's part. *)
Lemma parting k t key : inner (TShort k t) -> hexkey key -> (prefixLen key k < length k)%nat ->
  exists a b, k !! prefixLen key k = Some a /\ key !! prefixLen key k = Some b /\ a <> b /\ 0 <= a < 17 /\ 0 <= b < 17.
Proof.
  intros Ht Hk Hm. destruct (prefixLen_spec key k) as (H1 & H2 & H3 & H4).
  set (m := prefixLen key k) in *. destruct (lookup_lt_is_Some_2 k m Hm) as [a Ha].
  assert (inner (TShort (take m k ++ a :: drop (S m) k) t)) as Hin by (by rewrite take_drop_middle).
  apply short_rest in Hin as (Hp & Ha17 & _).
  assert (m < length key)%nat as Hmk.
  { apply Nat.le_neq. split; [done|]. intros He. rewrite (take_ge key) in H1 by lia.
    rewrite <- H1 in Hp. destruct Hk as (n & _ & ->).
    apply Forall_app in Hp as [_ Hp]. apply Forall_cons in Hp as [Hp _]. unfold nibble in Hp. lia. }
  destruct (lookup_lt_is_Some_2 key m Hmk) as [b Hb]. pose proof (H4 b a Hb Ha) as Hab.
  exists a, b. split_and!; try done; try lia.
  all: assert (hexkey (b :: drop (S m) key)) as Hh by
    (apply (hexkey_drop (take m key)); [by rewrite H1|by rewrite take_drop_middle]).
  all: apply hexkey_head in Hh; lia.
Qed.

Lemma insert_parted k t key v : inner (TShort k t) -> hexkey key -> v <> [] ->
  (prefixLen key k < length k)%nat ->
  inserted (TShort k t) (let m := prefixLen key k in
    let b := TFull (branch k key t (TVal v) m) in if (m =? 0)%nat then b else TShort (take m key) b) key v.
Proof.
  intros Ht Hk Hv Hm. cbv zeta. destruct (prefixLen_spec key k) as (H1 & H2 & H3 & H4).
  destruct (parting k t key Ht Hk Hm) as (a & b & Ha & Hb & Hab & _ & _). set (m := prefixLen key k) in *.
  assert (m < length key)%nat as Hmk by by apply lookup_lt_Some in Hb.
  set (p := take m key). assert (length p = m) as Hpl by (unfold p; rewrite length_take; lia).
  assert (k = p ++ a :: drop (S m) k) as Ek by (unfold p; rewrite H1; by rewrite take_drop_middle).
  assert (key = p ++ b :: drop (S m) key) as Ekey by (unfold p; by rewrite take_drop_middle).
  rewrite Ek in Ht. destruct (short_rest _ _ _ _ Ht) as (Hp & _).
  assert (hexkey (b :: drop (S m) key)) as Hkb by (apply (hexkey_drop p); [done|by rewrite <- Ekey]).
  destruct (branch_ok p a (drop (S m) k) b (drop (S m) key) t v Ht Hkb) as [Hin Hget]; [done|done|].
  rewrite <- Ek, <- Ekey, Hpl in Hin, Hget. set (bt := TFull (branch k key t (TVal v) m)) in *.
  destruct (short_full_intro p bt Hp eq_refl Hin) as [Hin' Hget'].
  assert ((if (m =? 0)%nat then bt else TShort p bt) = leaf p bt) as ->.
  { destruct p as [|x p']; destruct (Nat.eqb_spec m 0); cbn in Hpl; (done || lia). }
  split; [done|]. split; [done|]. intros key' Hk'. rewrite Hget' by done.
  assert (key' = key <-> exists r, key' = p ++ r /\ r = b :: drop (S m) key) as Heq.
  { rewrite Ekey at 1. split; [intros ->; by eexists|]. by intros (r & -> & ->). }
  case_decide as Hpre.
  - apply take_prefix in Hpre as [r ->]. rewrite drop_app_length. apply hexkey_drop in Hk' as Hr; [|done].
    assert (tget (TShort k t) (p ++ r) = tget (TShort (a :: drop (S m) k) t) r) as -> by (rewrite Ek at 1; apply tget_short_strip).
    rewrite Hget by done. apply decide_ext. rewrite Heq. split.
    + intros ->. by exists (b :: drop (S m) key).
    + intros (r' & Hr' & ->). by apply app_inv_head in Hr'.
  - rewrite take_prefix in Hpre. rewrite decide_False.
    + symmetry. apply tget_short_ne. rewrite Ek. intros [x ->]. apply Hpre. rewrite <- app_assoc. by eexists.
    + intros He. apply Heq in He as (r & -> & _). apply Hpre. by exists r.
Qed.

Lemma tinsert_nil t v : tinsert t [] v = TVal v.
Proof. by destruct t. Qed.

Lemma inserted_leaf key v : hexkey key -> v <> [] -> inner (TShort key (TVal v)) /\
  forall key', hexkey key' -> tget (TShort key (TVal v)) key' = if decide (key' = key) then Some v else None.
Proof.
  intros Hk Hv. split; [destruct Hk as (q & Hq & ->); by constructor|]. intros key' Hk'. case_decide as Hd.
  - subst key'. rewrite <- (app_nil_r key) at 2. by rewrite tget_short_app.
  - rewrite tget_short_ne; [done|]. intros [y ->]. apply hexkey_prefix in Hk' as ->; [|done]. by rewrite app_nil_r in Hd.
Qed.

(** One child of a full node put in place of another. *)
Lemma full_update cs n c' : length cs = 17%nat -> (forall i c, cs !! i = Some c -> child_ok i c) -> child_ok n c' ->
  length (<[n := c']> cs) = 17%nat /\ (forall i c, <[n := c']> cs !! i = Some c -> child_ok i c).
Proof.
  intros Hl Hc Hok. split; [by rewrite length_insert|]. intros i c Hi. destruct (decide (i = n)) as [->|Hne].
  - apply list_lookup_insert_Some in Hi as [(_ & <- & _)|(? & _)]; done.
  - rewrite list_lookup_insert_ne in Hi by done. by apply Hc.
Qed.

Lemma alter_insert_same {A} (f : A -> A) n (cs : list A) c : cs !! n = Some c -> alter f n cs = <[n := f c]> cs.
Proof.
  intros Hc. pose proof (lookup_lt_Some _ _ _ Hc). apply list_eq. intros j. destruct (decide (j = n)) as [->|].
  - by rewrite list_lookup_alter_eq, list_lookup_insert_eq, Hc by lia.
  - by rewrite list_lookup_alter_ne, list_lookup_insert_ne by done.
Qed.

Lemma insert_child n i r c v : n = Z.to_nat i -> hexkey (i :: r) -> v <> [] -> child_ok n c ->
  (inner c -> forall key, hexkey key -> inserted c (tinsert c key v) key v) ->
  child_ok n (tinsert c r v) /\ tinsert c r v <> TNil /\
  forall key', hexkey (i :: key') -> tget (tinsert c r v) key' = if decide (key' = r) then Some v else tget c key'.
Proof.
  intros Hn Hkey Hv Hc IH. apply hexkey_cases in Hkey as [[= -> ->]|(i' & r' & [= <- <-] & Hni & Hr)].
  - rewrite tinsert_nil. split; [right; split; [done|right; by exists v]|]. split; [done|].
    intros key' Hk'. change (16 :: key') with ([16] ++ key') in Hk'.
    apply hexkey_prefix in Hk' as ->; [by rewrite decide_True|apply hexkey_16].
  - unfold nibble in Hni. assert (forall key', hexkey (i :: key') -> hexkey key') as Hsub.
    { intros key'. apply (hexkey_drop [i]). by constructor. }
    destruct Hc as [[_ [->|Hc]]|[? _]]; [| |lia].
    + destruct r as [|x r]; [by apply hexkey_nil in Hr|]. cbn [tinsert].
      destruct (inserted_leaf (x :: r) v Hr Hv) as [H1 H2].
      split; [left; split; [lia|by right]|]. split; [done|]. intros key' Hk'. apply H2, Hsub, Hk'.
    + destruct (IH Hc r Hr) as (H1 & _ & H3). split; [left; split; [lia|by right]|].
      split; [by apply inner_not_nil|]. intros key' Hk'. apply H3, Hsub, Hk'.
Qed.

Lemma insert_full cs i r v : inner (TFull cs) -> hexkey (i :: r) -> v <> [] ->
  (forall c, cs !! Z.to_nat i = Some c -> inner c -> forall key, hexkey key -> inserted c (tinsert c key v) key v) ->
  inserted (TFull cs) (tinsert (TFull cs) (i :: r) v) (i :: r) v.
Proof.
  intros Ht Hkey Hv IH. apply inner_full_inv in Ht as (Hl & Hcs & Hp). cbn [tinsert]. rewrite in_child_alter.
  pose proof (hexkey_head _ _ Hkey) as Hi. remember (Z.to_nat i) as n eqn:En.
  destruct (lookup_lt_is_Some_2 cs n) as [c Hc]; [lia|].
  destruct (insert_child n i r c v En Hkey Hv (Hcs _ _ Hc) (IH _ Hc)) as (Hok & Hnn & Hget).
  rewrite (alter_insert_same _ _ _ _ Hc).
  destruct (full_update cs n (tinsert c r v) Hl Hcs Hok) as [Hl' Hcs'].
  assert (<[n := tinsert c r v]> cs !! n = Some (tinsert c r v)) as Hn by (apply list_lookup_insert_eq; lia).
  split; [|split; [done|]].
  - apply inner_full_intro; [done|done|]. destruct (two_present cs Hp) as (j & k & c1 & c2 & Hj & Hk & Hn1 & Hn2 & Hjk).
    assert (exists j' c', j' <> n /\ cs !! j' = Some c' /\ c' <> TNil) as (j' & c' & Hj' & Hc' & Hnn').
    { destruct (decide (j = n)) as [->|]; [exists k, c2|exists j, c1]; by split_and!; auto. }
    eapply (present_two _ n j' _ c' Hn); [|done|done|done]. by rewrite list_lookup_insert_ne.
  - intros [|i' r'] Hk'; [by apply hexkey_nil in Hk'|]. rewrite !tget_full. pose proof (hexkey_head _ _ Hk') as Hi'.
    destruct (decide (i' = i)) as [->|Hii].
    + rewrite <- En, Hn, Hc, Hget by done. apply decide_ext. split; [by intros ->|by intros [= ->]].
    + rewrite list_lookup_insert_ne by lia. by rewrite decide_False by congruence.
Qed.

(** What is known of the children is known of one below which keys go on. *)
Lemma full_child_ind (P : tree -> Prop) cs last i : length cs = 16%nat ->
  Forall (fun c => c = TNil \/ (inner c /\ P c)) cs -> value_child last ->
  forall c, (cs ++ [last]) !! i = Some c -> inner c -> P c.
Proof.
  intros Hl Hcs Hlast c Hc Hin. rewrite lookup_app in Hc. destruct (cs !! i) as [d|] eqn:Hd.
  - injection Hc as <-. rewrite Forall_lookup in Hcs. destruct (Hcs _ _ Hd) as [->|[_ H]]; [inversion Hin|done].
  - apply list_elem_of_lookup_2, list_elem_of_singleton in Hc as ->.
    destruct Hlast as [->|(? & -> & _)]; inversion Hin.
Qed.

Lemma insert_inner t : inner t -> forall key v, hexkey key -> v <> [] -> inserted t (tinsert t key v) key v.
Proof.
  induction 1 as [k v0 Hk Hv0|k t Hk Hne Hf Ht IH|cs last Hl Hcs Hlast Hp] using inner_nested_ind; intros key v Hkey Hv.
  1,2: assert (exists i r, key = i :: r) as (i & r & E) by (destruct key; [by apply hexkey_nil in Hkey|by eexists _, _]);
    rewrite E; cbn [tinsert]; rewrite <- E; clear E.
  - destruct (prefixLen_cases key (k ++ [16])) as [[Hm [x Hx]]|[Hm _]].
    + rewrite Hm, Nat.eqb_refl. assert (x = []) as ->.
      { apply (hexkey_prefix (k ++ [16])); [by exists k|by rewrite <- Hx]. }
      rewrite app_nil_r in Hx. subst key. rewrite drop_all. cbn [tinsert].
      destruct (inserted_leaf (k ++ [16]) v Hkey Hv) as [H1 H2].
      split; [done|]. split; [done|]. intros key' Hk'. rewrite H2 by done. case_decide as Hd; [done|].
      rewrite (proj2 (inserted_leaf (k ++ [16]) v0 Hkey Hv0)) by done. by rewrite decide_False.
    + rewrite (proj2 (Nat.eqb_neq _ _)) by lia. apply insert_parted; try done. by constructor.
  - destruct (prefixLen_cases key k) as [[Hm [x ->]]|[Hm _]].
    + rewrite Hm, Nat.eqb_refl, drop_app_length. apply hexkey_drop in Hkey as Hx; [|done].
      destruct (IH x v Hx Hv) as (H1 & H2 & H3). split; [by constructor; auto|]. split; [done|].
      intros key' Hk'. destruct (decide (take (length k) key' = k)) as [Hpre|Hpre]; rewrite take_prefix in Hpre.
      * destruct Hpre as [y ->]. rewrite !tget_short_app, H3 by (by eapply hexkey_drop). apply decide_ext.
        split; [by intros ->|apply app_inv_head].
      * rewrite !tget_short_ne by done. rewrite decide_False; [done|]. intros ->. apply Hpre. by exists x.
    + rewrite (proj2 (Nat.eqb_neq _ _)) by lia. apply insert_parted; try done. by constructor.
  - destruct key as [|i r]; [by apply hexkey_nil in Hkey|]. apply insert_full; try done.
    + constructor; try done. eapply Forall_impl; [exact Hcs|]. naive_solver.
    + intros c Hc Hin key Hk. by apply (full_child_ind (fun c => forall key v, hexkey key -> v <> [] -> inserted c (tinsert c key v) key v) _ _ _ Hl Hcs Hlast c Hc Hin).
Qed.
