(* ===== verification/TrieMap.v ===== *)
(** * Minimal tries are maps

    Deleting keeps a tree minimal, a minimal tree is determined by its contents, and
    the operations are those of a finite map from the keys' bytes. *)
From Stdlib Require Import ZArith Lia.
From S2P Require Import Prelude Word TrieEncoding TrieTree.
Import Big.
Open Scope Z_scope.

(** ** Deleting *)
Definition deleted (t t' : tree) (key : list Z) : Prop :=
  minimal t' /\ (is_full t = true -> t' <> TNil) /\
  forall key', hexkey key' -> tget t' key' = if decide (key' = key) then None else tget t key'.

(** More nibbles in front of a short node. *)
Lemma short_prefix p k t : nibbles p -> inner (TShort k t) -> inner (TShort (p ++ k) t).
Proof.
  intros Hp H. remember (TShort k t) as x eqn:Hx. destruct H as [k' v Hk Hv|k' t' Hk Hne Hf Ht|]; [..|done].
  - injection Hx as <- <-. rewrite app_assoc. constructor; [by apply Forall_app|done].
  - injection Hx as -> ->. constructor; try done; [by apply Forall_app|]. by destruct p.
Qed.

Lemma merge_short_inner k c : nibbles k -> k <> [] -> inner c ->
  inner (merge_short k c) /\ forall key, tget (merge_short k c) key = tget (TShort k c) key.
Proof.
  intros Hk Hne Hc. destruct c as [|v|k' t|cs]; cbn [merge_short].
  - inversion Hc.
  - inversion Hc.
  - split; [by apply short_prefix|]. intros key.
    destruct (decide (take (length k) key = k)) as [H|H]; rewrite take_prefix in H.
    + destruct H as [r ->]. by rewrite tget_short_strip, tget_short_app.
    + rewrite !tget_short_ne; [done|done|]. intros [r ->]. apply H. rewrite <- app_assoc. by eexists.
  - split; [by constructor|done].
Qed.

(** A child put where it would be the only one. *)
Definition lone (i : Z) (c : tree) : tree :=
  match c with TShort k t => if i =? 16 then TShort [i] c else TShort (i :: k) t | _ => TShort [i] c end.

Lemma reduce_cases cs : reduce cs = match present 0 cs with [(i, c)] => lone i c | _ => TFull cs end.
Proof. unfold reduce, lone. by destruct (present 0 cs) as [|[i c] []]. Qed.

Lemma lone_inner i c : 0 <= i -> child_ok (Z.to_nat i) c -> c <> TNil ->
  inner (lone i c) /\ forall key, tget (lone i c) key = tget (TShort [i] c) key.
Proof.
  intros Hi0 [[Hi [->|Hc]]|[Hi [->|(v & -> & Hv)]]] Hne; [done| |done|].
  - assert (nibbles [i]) as Hn by (constructor; [unfold nibble; lia|done]).
    assert (lone i c = merge_short [i] c) as ->.
    { destruct c; cbn [lone merge_short]; [inversion Hc|inversion Hc| |done].
      rewrite (proj2 (Z.eqb_neq _ _)) by lia. done. }
    by apply merge_short_inner.
  - assert (i = 16) as -> by lia. split; [|done]. apply (inner_leaf []); [constructor|done].
Qed.

Lemma reduce_inner cs : length cs = 17%nat -> (forall i c, cs !! i = Some c -> child_ok i c) ->
  (1 <= length (present 0 cs))%nat ->
  inner (reduce cs) /\ forall key, hexkey key -> tget (reduce cs) key = tget (TFull cs) key.
Proof.
  intros Hl Hcs Hp. rewrite reduce_cases. destruct (present 0 cs) as [|[i c] [|p ps]] eqn:E; [cbn in Hp; lia| |].
  - assert ((i, c) ∈ present 0 cs) as Hin by (rewrite E; set_solver).
    apply present_elem in Hin as (n & -> & Hc & Hne). rewrite Z.add_0_l.
    assert (Z.to_nat (Z.of_nat n) = n) as Hn by lia.
    destruct (lone_inner (Z.of_nat n) c) as [H1 H2]; [lia|rewrite Hn; by apply Hcs|done|].
    split; [done|]. intros [|x r] Hk; [by apply hexkey_nil in Hk|]. rewrite H2, tget_short_cons, tget_full.
    pose proof (hexkey_head _ _ Hk). case_decide as Hx; [subst x; by rewrite Hn, Hc|].
    destruct (cs !! Z.to_nat x) as [d|] eqn:Hd; [|done]. destruct (decide (d = TNil)) as [->|Hd']; [done|exfalso].
    assert (2 <= length (present 0 cs))%nat as Hp2.
    { eapply (present_two cs n (Z.to_nat x)); try done. lia. }
    rewrite E in Hp2. cbn in Hp2. lia.
  - split; [|done]. apply inner_full_intro; try done. rewrite E. cbn. lia.
Qed.

Lemma delete_child n i r c : n = Z.to_nat i -> hexkey (i :: r) -> child_ok n c ->
  (inner c -> forall key, hexkey key -> deleted c (tdelete c key) key) ->
  child_ok n (tdelete c r) /\
  forall key', hexkey (i :: key') -> tget (tdelete c r) key' = if decide (key' = r) then None else tget c key'.
Proof.
  intros Hn Hkey Hc IH. apply hexkey_cases in Hkey as [[= -> ->]|(i' & r' & [= <- <-] & Hni & Hr)].
  - destruct Hc as [[? _]|[_ Hc]]; [lia|]. assert (tdelete c [] = TNil) as -> by by destruct Hc as [->|(v & -> & _)].
    split; [right; split; [done|by left]|]. intros key' Hk'. change (16 :: key') with ([16] ++ key') in Hk'.
    apply hexkey_prefix in Hk' as ->; [by rewrite decide_True|apply hexkey_16].
  - unfold nibble in Hni. assert (forall key', hexkey (i :: key') -> hexkey key') as Hsub.
    { intros key'. apply (hexkey_drop [i]). by constructor. }
    destruct Hc as [[_ [->|Hc]]|[? _]]; [| |lia].
    + split; [left; split; [lia|by left]|]. intros. by case_decide.
    + destruct (IH Hc r Hr) as (H1 & _ & H3). split; [left; split; [lia|done]|]. intros key' Hk'. apply H3, Hsub, Hk'.
Qed.

Lemma delete_full cs i r : inner (TFull cs) -> hexkey (i :: r) ->
  (forall c, cs !! Z.to_nat i = Some c -> inner c -> forall key, hexkey key -> deleted c (tdelete c key) key) ->
  deleted (TFull cs) (tdelete (TFull cs) (i :: r)) (i :: r).
Proof.
  intros Ht Hkey IH. apply inner_full_inv in Ht as (Hl & Hcs & Hp). cbn [tdelete]. rewrite in_child_alter.
  pose proof (hexkey_head _ _ Hkey) as Hi. remember (Z.to_nat i) as n eqn:En.
  destruct (lookup_lt_is_Some_2 cs n) as [c Hc]; [lia|].
  destruct (delete_child n i r c En Hkey (Hcs _ _ Hc) (IH _ Hc)) as [Hok Hget].
  rewrite (alter_insert_same _ _ _ _ Hc).
  destruct (full_update cs n (tdelete c r) Hl Hcs Hok) as [Hl' Hcs'].
  assert (<[n := tdelete c r]> cs !! n = Some (tdelete c r)) as Hn by (apply list_lookup_insert_eq; lia).
  assert (1 <= length (present 0 (<[n := tdelete c r]> cs)))%nat as Hp'.
  { destruct (two_present cs Hp) as (j & k & c1 & c2 & Hj & Hk & Hn1 & Hn2 & Hjk).
    assert (exists j' c', j' <> n /\ cs !! j' = Some c' /\ c' <> TNil) as (j' & c' & Hj' & Hc' & Hnn').
    { destruct (decide (j = n)) as [->|]; [exists k, c2|exists j, c1]; by split_and!; auto. }
    assert ((Z.of_nat j', c') ∈ present 0 (<[n := tdelete c r]> cs)) as Hin.
    { apply present_elem. exists j'. split_and!; [lia| |done]. by rewrite list_lookup_insert_ne. }
    revert Hin. destruct (present 0 (<[n := tdelete c r]> cs)); [by intros ?%not_elem_of_nil|cbn; lia]. }
  destruct (reduce_inner _ Hl' Hcs' Hp') as [H1 H2].
  split; [by right|]. split; [intros _; by apply inner_not_nil|].
  intros [|i' r'] Hk'; [by apply hexkey_nil in Hk'|]. rewrite H2, !tget_full by done. pose proof (hexkey_head _ _ Hk') as Hi'.
  destruct (decide (i' = i)) as [->|Hii].
  - rewrite <- En, Hn, Hc, Hget by done. apply decide_ext. split; [by intros ->|by intros [= ->]].
  - rewrite list_lookup_insert_ne by lia. by rewrite decide_False by congruence.
Qed.

(** A key that does not go through a short node. *)
Lemma delete_parted k t key : inner (TShort k t) -> (prefixLen key k < length k)%nat ->
  ~ (exists r, key = k ++ r) -> deleted (TShort k t) (TShort k t) key.
Proof.
  intros Ht Hm Hno. split; [by right|]. split; [done|]. intros key' _. case_decide; [|done]. subst key'. by apply tget_short_ne.
Qed.

Lemma delete_inner t : inner t -> forall key, hexkey key -> deleted t (tdelete t key) key.
Proof.
  induction 1 as [k v Hk Hv|k t Hk Hne Hf Ht IH|cs last Hl Hcs Hlast Hp] using inner_nested_ind; intros key Hkey.
  - cbn [tdelete]. destruct (prefixLen_cases key (k ++ [16])) as [[Hm [x Hx]]|[Hm Hno]].
    + rewrite Hm. assert (x = []) as ->.
      { apply (hexkey_prefix (k ++ [16])); [by exists k|by rewrite <- Hx]. }
      rewrite app_nil_r in Hx. subst key. rewrite Nat.ltb_irrefl, Nat.eqb_refl. split; [by left|]. split; [done|].
      intros key' Hk'. case_decide as Hd; [done|]. rewrite (proj2 (inserted_leaf _ v Hkey Hv)) by done.
      by rewrite decide_False.
    + rewrite (proj2 (Nat.ltb_lt _ _) Hm). apply delete_parted; try done. by constructor.
  - cbn [tdelete]. destruct (prefixLen_cases key k) as [[Hm [x ->]]|[Hm Hno]].
    + rewrite Hm, Nat.ltb_irrefl, drop_app_length. apply hexkey_drop in Hkey as Hx; [|done].
      assert (x <> []) as Hxne by (intros ->; by apply hexkey_nil in Hx).
      rewrite (proj2 (Nat.eqb_neq _ _)) by (rewrite length_app; destruct x; cbn; [done|lia]).
      destruct (IH x Hx) as (H1 & H2 & H3). destruct H1 as [H1|H1]; [by apply H2 in Hf|].
      destruct (merge_short_inner k (tdelete t x) Hk Hne H1) as [H4 H5].
      split; [by right|]. split; [done|]. intros key' Hk'. rewrite H5.
      destruct (decide (take (length k) key' = k)) as [Hpre|Hpre]; rewrite take_prefix in Hpre.
      * destruct Hpre as [y ->]. rewrite !tget_short_app, H3 by (by eapply hexkey_drop). apply decide_ext.
        split; [by intros ->|apply app_inv_head].
      * rewrite !tget_short_ne by done. by case_decide.
    + rewrite (proj2 (Nat.ltb_lt _ _) Hm). apply delete_parted; try done. by constructor.
  - destruct key as [|i r]; [by apply hexkey_nil in Hkey|]. apply delete_full; try done.
    + constructor; try done. eapply Forall_impl; [exact Hcs|]. naive_solver.
    + intros c Hc Hin. by apply (full_child_ind (fun c => forall key, hexkey key -> deleted c (tdelete c key) key) _ _ _ Hl Hcs Hlast c Hc Hin).
Qed.

(** ** Contents determine a minimal tree *)
Lemma child_some n c : child_ok n c -> c <> TNil ->
  (inner c -> exists k v, hexkey k /\ tget c k = Some v /\ v <> []) ->
  exists k v, hexkey (Z.of_nat n :: k) /\ tget c k = Some v /\ v <> [].
Proof.
  intros [[Hn [->|Hc]]|[-> [->|(v & -> & Hv)]]] Hne IH; [done| |done|].
  - destruct (IH Hc) as (k & v & Hk & Hv). exists k, v. split; [|done]. apply hexkey_cons; [|done]. unfold nibble. lia.
  - exists [], v. split; [apply hexkey_16|done].
Qed.

Lemma inner_some t : inner t -> exists k v, hexkey k /\ tget t k = Some v /\ v <> [].
Proof.
  induction 1 as [k v Hk Hv|k t Hk Hne Hf Ht IH|cs last Hl Hcs Hlast Hp] using inner_nested_ind.
  - exists (k ++ [16]), v. split; [by exists k|]. split; [|done]. rewrite <- (app_nil_r (k ++ [16])) at 2. by rewrite tget_short_app.
  - destruct IH as (r & v & Hr & Hv). exists (k ++ r), v. split; [by apply hexkey_app|]. by rewrite tget_short_app.
  - destruct (two_present _ Hp) as (n & _ & c & _ & Hc & _ & Hne & _).
    assert (child_ok n c) as Hok.
    { eapply (full_children cs last); try done. eapply Forall_impl; [exact Hcs|]. naive_solver. }
    destruct (child_some n c Hok Hne) as (k & v & Hk & Hg & Hv).
    + intros Hin. apply (full_child_ind (fun c => exists k v, hexkey k /\ tget c k = Some v /\ v <> []) _ _ _ Hl Hcs Hlast c Hc Hin).
    + exists (Z.of_nat n :: k), v. split; [done|]. by rewrite tget_full, Nat2Z.id, Hc.
Qed.

(** There are two ways on in a full node. *)
Lemma full_two cs : inner (TFull cs) -> exists i r j r', i <> j /\ hexkey (i :: r) /\ hexkey (j :: r') /\
  tget (TFull cs) (i :: r) <> None /\ tget (TFull cs) (j :: r') <> None.
Proof.
  intros (Hl & Hcs & Hp)%inner_full_inv. destruct (two_present _ Hp) as (n & m & c & d & Hc & Hd & Hnc & Hnd & Hnm).
  destruct (child_some n c (Hcs _ _ Hc) Hnc (inner_some c)) as (k & v & Hk & Hg & _).
  destruct (child_some m d (Hcs _ _ Hd) Hnd (inner_some d)) as (k' & v' & Hk' & Hg' & _).
  exists (Z.of_nat n), k, (Z.of_nat m), k'. split_and!; [lia|done|done|..]; rewrite tget_full, Nat2Z.id.
  - by rewrite Hc, Hg.
  - by rewrite Hd, Hg'.
Qed.

Definition same_contents (t t' : tree) : Prop := forall k, hexkey k -> tget t k = tget t' k.

Lemma tget_short_prefix k t key : tget (TShort k t) key <> None -> exists r, key = k ++ r.
Proof. intros H. destruct (decide (take (length k) key = k)) as [Hk|Hk]; rewrite take_prefix in Hk; [done|by rewrite tget_short_ne in H]. Qed.

(** Where two keys part, both of which go on after [k]. *)
Lemma part_prefix (p : list Z) i r j r' k x y : p ++ i :: r = k ++ x -> p ++ j :: r' = k ++ y -> i <> j -> exists q, p = k ++ q.
Proof.
  revert k. induction p as [|a p IH]; intros [|b k] H1 H2 Hij; [by exists []| |by exists (a :: p)|].
  - injection H1 as -> _. injection H2 as -> _. done.
  - injection H1 as -> H1. injection H2 as H2. destruct (IH k H1 H2 Hij) as [q ->]. by exists q.
Qed.

Lemma short_two k t : nibbles k -> is_full t = true -> inner t -> exists i r j r', i <> j /\
  hexkey (k ++ i :: r) /\ hexkey (k ++ j :: r') /\
  tget (TShort k t) (k ++ i :: r) <> None /\ tget (TShort k t) (k ++ j :: r') <> None.
Proof.
  intros Hk Hf Ht. destruct t as [| | |cs]; [done..|]. destruct (full_two cs Ht) as (i & r & j & r' & H1 & H2 & H3 & H4 & H5).
  exists i, r, j, r'. rewrite !tget_short_app. split_and!; try done; by apply hexkey_app.
Qed.

(** All keys of a node go through its prefix. *)
Lemma shorts_comparable k t k' t' : nibbles k -> is_full t = true -> inner t ->
  same_contents (TShort k t) (TShort k' t') -> exists q, k = k' ++ q.
Proof.
  intros Hk Hf Ht Hs. destruct (short_two k t Hk Hf Ht) as (i & r & j & r' & Hij & Hi & Hj & Gi & Gj).
  rewrite Hs in Gi, Gj by done. apply tget_short_prefix in Gi as [x Hx]. apply tget_short_prefix in Gj as [y Hy].
  by apply (part_prefix k i r j r' k' x y).
Qed.

Lemma same_contents_sym t t' : same_contents t t' -> same_contents t' t.
Proof. intros H k Hk. by rewrite H. Qed.

Lemma short_contents k t t' : nibbles k -> same_contents (TShort k t) (TShort k t') -> same_contents t t'.
Proof. intros Hk H r Hr. specialize (H (k ++ r)). rewrite !tget_short_app in H. by apply H, hexkey_app. Qed.

Lemma full_short_differ cs k t : inner (TFull cs) -> k <> [] -> ~ same_contents (TFull cs) (TShort k t).
Proof.
  intros Hi Hk Hs. destruct (full_two cs Hi) as (i & r & j & r' & Hij & H1 & H2 & G1 & G2).
  rewrite Hs in G1, G2 by done. apply tget_short_prefix in G1 as [x Hx]. apply tget_short_prefix in G2 as [y Hy].
  destruct k as [|a k]; [done|]. injection Hx as -> _. injection Hy as -> _. done.
Qed.

Lemma leaf_short_differ k v k' t : hexkey k -> nibbles k' -> is_full t = true -> inner t ->
  ~ same_contents (TShort k (TVal v)) (TShort k' t).
Proof.
  intros Hk Hk' Hf Ht Hs. destruct (short_two k' t Hk' Hf Ht) as (i & r & j & r' & Hij & Hi & Hj & Gi & Gj).
  rewrite <- Hs in Gi, Gj by done. apply tget_short_prefix in Gi as [x Hx]. apply tget_short_prefix in Gj as [y Hy].
  rewrite Hx in Hi. rewrite Hy in Hj. apply hexkey_prefix in Hi as ->; [|done]. apply hexkey_prefix in Hj as ->; [|done].
  rewrite app_nil_r in Hx, Hy. rewrite <- Hy in Hx. apply app_inv_head in Hx. congruence.
Qed.

Lemma tget_leaf_key k v : tget (TShort k (TVal v)) k = Some v.
Proof. rewrite <- (app_nil_r k) at 2. by rewrite tget_short_app. Qed.

(** Children with the same contents are the same child. *)
Lemma same_children n c d : child_ok n c -> child_ok n d -> (forall k, hexkey (Z.of_nat n :: k) -> tget c k = tget d k) ->
  (inner c -> forall d, inner d -> same_contents c d -> c = d) -> c = d.
Proof.
  intros Hc Hd Hs IH.
  assert (c = TNil -> c = d) as Hcn.
  { intros ->. destruct (decide (d = TNil)) as [->|Hne]; [done|]. destruct (child_some n d Hd) as (k & v & Hk & Hv & _); [done|apply inner_some|].
    specialize (Hs k Hk). rewrite Hv in Hs. done. }
  assert (d = TNil -> c = d) as Hdn.
  { intros ->. destruct (decide (c = TNil)) as [->|Hne]; [done|]. destruct (child_some n c Hc Hne (inner_some c)) as (k & v & Hk & Hv & _).
    specialize (Hs k Hk). rewrite Hv in Hs. done. }
  destruct Hc as [[Hn [Hc|Hc]]|[-> [Hc|(v & -> & Hv)]]]; [by apply Hcn| |by apply Hcn|].
  - destruct Hd as [[_ [Hd|Hd]]|[? _]]; [by apply Hdn| |lia]. apply IH; [done|done|]. intros k Hk. apply Hs.
    apply hexkey_cons; [unfold nibble; lia|done].
  - destruct Hd as [[? _]|[_ [Hd|(v' & -> & Hv')]]]; [lia|by apply Hdn|]. specialize (Hs [] hexkey_16). cbn in Hs. congruence.
Qed.

Lemma same_trees t : inner t -> forall t', inner t' -> same_contents t t' -> t = t'.
Proof.
  induction 1 as [k v Hk Hv|k t Hk Hne Hf Ht IH|cs last Hl Hcs Hlast Hp] using inner_nested_ind; intros t' Ht' Hs.
  - assert (hexkey (k ++ [16])) as Hkey by by exists k.
    remember t' as x eqn:Ex. destruct Ht' as [k' v' Hk' Hv'|k' t'' Hk' Hne' Hf' Ht''|cs last Hl Hcs Hlast Hp].
    + pose proof (Hs _ Hkey) as Hg. rewrite tget_leaf_key in Hg.
      destruct (tget_short_prefix (k' ++ [16]) (TVal v') (k ++ [16])) as [y Hy]; [by rewrite <- Hg|].
      rewrite Hy in Hkey. apply hexkey_prefix in Hkey as ->; [|by exists k']. rewrite app_nil_r in Hy.
      rewrite Hy, tget_leaf_key in Hg. congruence.
    + by apply leaf_short_differ in Hs.
    + apply same_contents_sym, full_short_differ in Hs; [done|by constructor|by destruct k].
  - remember t' as x eqn:Ex. destruct Ht' as [k' v' Hk' Hv'|k' t'' Hk' Hne' Hf' Ht''|cs last Hl Hcs Hlast Hp].
    + apply same_contents_sym, leaf_short_differ in Hs; try done. by exists k'.
    + destruct (shorts_comparable k t k' t'' Hk Hf Ht Hs) as [q Hq].
      destruct (shorts_comparable k' t'' k t Hk' Hf' Ht'' (same_contents_sym _ _ Hs)) as [q' Hq'].
      assert (q = []) as ->.
      { apply (f_equal length) in Hq, Hq'. rewrite !length_app in Hq, Hq'. destruct q; [done|cbn in Hq; lia]. }
      rewrite app_nil_r in Hq. subst k'. f_equal. apply IH; [done|]. by apply (short_contents k).
    + apply same_contents_sym, full_short_differ in Hs; [done|by constructor|done].
  - assert (inner (TFull (cs ++ [last]))) as Hin.
    { constructor; try done. eapply Forall_impl; [exact Hcs|]. naive_solver. }
    destruct t' as [| |k t''|cs']; [inversion Ht'|inversion Ht'| |].
    { exfalso. eapply full_short_differ; [exact Hin| |exact Hs].
      remember (TShort k t'') as x eqn:Ex. destruct Ht' as [k' v' _ _|k' ? _ Hk' _ _|]; [..|done]; injection Ex as <- _; [by destruct k'|done]. }
    apply inner_full_inv in Ht' as (Hl' & Hcs' & _). apply inner_full_inv in Hin as (Hl'' & Hcs'' & _).
    f_equal. apply list_eq_same_length with 17%nat; [done|done|]. intros i c d Hi Hc Hd.
    apply (same_children i); [by apply Hcs''|by apply Hcs'| |].
    + intros k Hk. specialize (Hs _ Hk). by rewrite !tget_full, Nat2Z.id, Hc, Hd in Hs.
    + intros Hci. by apply (full_child_ind (fun c => forall t', inner t' -> same_contents c t' -> c = t') _ _ _ Hl Hcs Hlast c Hc Hci).
Qed.

Lemma minimal_same t t' : minimal t -> minimal t' -> same_contents t t' -> t = t'.
Proof.
  intros [->|Ht] [->|Ht'] Hs; [done| | |by apply same_trees].
  - destruct (inner_some _ Ht') as (k & v & Hk & Hv & _). rewrite <- Hs in Hv by done. done.
  - destruct (inner_some _ Ht) as (k & v & Hk & Hv & _). rewrite Hs in Hv by done. done.
Qed.

(** ** Maps from keys of bytes *)
Abbreviation content := (gmap (list Z) (list Z)).

Definition holds (M : content) (t : tree) : Prop :=
  minimal t /\ forall k, hexkey k -> tget t k = b ← hexToKeybytes k; M !! b.

Lemma hexkey_of b : bytes b -> hexkey (keybytesToHex b).
Proof. intros Hb. exists (nibbles_of b). split; [by apply nibbles_of_nibbles|done]. Qed.

Lemma hexToKeybytes_inv k b : hexkey k -> hexToKeybytes k = Some b -> bytes b /\ k = keybytesToHex b.
Proof.
  intros (n & Hn & ->). unfold hexToKeybytes. rewrite hasTerm_app, removelast_last.
  destruct (Nat.odd (length n)) eqn:Ho; [done|]. rewrite <- Nat.negb_even in Ho. apply negb_false_iff, Nat.even_spec in Ho as [m Hm].
  destruct (nibbles_pairs n m Hm Hn) as (b' & Hb' & -> & _). rewrite decodeNibbles_of by done. by intros [= <-].
Qed.

Lemma holds_get M t b : holds M t -> bytes b -> tget t (keybytesToHex b) = M !! b.
Proof. intros [_ H] Hb. rewrite H by (by apply hexkey_of). by rewrite hexToKeybytes_Hex. Qed.

Lemma holds_empty : holds ∅ TNil.
Proof. split; [by left|]. intros k _. by destruct (hexToKeybytes k). Qed.

Lemma key_cases k b : hexkey k -> bytes b ->
  (k = keybytesToHex b /\ hexToKeybytes k = Some b) \/ (k <> keybytesToHex b /\ hexToKeybytes k <> Some b).
Proof.
  intros Hk Hb. destruct (decide (k = keybytesToHex b)) as [->|Hne]; [left; by rewrite hexToKeybytes_Hex|].
  right. split; [done|]. by intros [_ ?]%hexToKeybytes_inv.
Qed.

Lemma holds_insert M t b v : holds M t -> bytes b -> v <> [] -> holds (<[b := v]> M) (tinsert t (keybytesToHex b) v).
Proof.
  intros [Hm Hg] Hb Hv. pose proof (hexkey_of b Hb) as Hkey.
  assert (inner (tinsert t (keybytesToHex b) v) /\ forall k, hexkey k ->
    tget (tinsert t (keybytesToHex b) v) k = if decide (k = keybytesToHex b) then Some v else tget t k) as [H1 H2].
  { destruct Hm as [->|Hm].
    - destruct (keybytesToHex b) as [|x r] eqn:E; [by apply hexkey_nil in Hkey|]. by apply inserted_leaf.
    - by destruct (insert_inner t Hm _ v Hkey Hv) as (? & _ & ?). }
  split; [by right|]. intros k Hk. rewrite H2 by done. destruct (key_cases k b Hk Hb) as [[-> ->]|[Hne Hne']].
  - rewrite decide_True by done. cbn. by rewrite lookup_insert_eq.
  - rewrite decide_False, Hg by done. destruct (hexToKeybytes k) as [b'|]; [|done]. cbn.
    rewrite lookup_insert_ne; [done|congruence].
Qed.

Lemma holds_delete M t b : holds M t -> bytes b -> holds (delete b M) (tdelete t (keybytesToHex b)).
Proof.
  intros [Hm Hg] Hb. pose proof (hexkey_of b Hb) as Hkey.
  assert (minimal (tdelete t (keybytesToHex b)) /\ forall k, hexkey k ->
    tget (tdelete t (keybytesToHex b)) k = if decide (k = keybytesToHex b) then None else tget t k) as [H1 H2].
  { destruct Hm as [->|Hm].
    - split; [by left|]. intros. by case_decide.
    - by destruct (delete_inner t Hm _ Hkey) as (? & _ & ?). }
  split; [done|]. intros k Hk. rewrite H2 by done. destruct (key_cases k b Hk Hb) as [[-> ->]|[Hne Hne']].
  - rewrite decide_True by done. cbn. by rewrite lookup_delete_eq.
  - rewrite decide_False, Hg by done. destruct (hexToKeybytes k) as [b'|]; [|done]. cbn.
    rewrite lookup_delete_ne; [done|congruence].
Qed.

Lemma holds_unique M t t' : holds M t -> holds M t' -> t = t'.
Proof. intros [Hm Hg] [Hm' Hg']. apply minimal_same; [done|done|]. intros k Hk. by rewrite Hg, Hg'. Qed.
