(* ===== verification/TrieNode.v ===== *)
(** * Nodes of the trie

    dvm/ethereum/trie/node.go, and the raw nodes of database.go: the values a [node]
    interface holds, their flags, how they are written as RLP and read back, and the
    conversions between the nodes of a live trie and those the database keeps.

    Nodes are values: where the source changes one it has copied it first. *)
From Stdlib Require Import ZArith Lia.
From S2P Require Import Prelude Word Rlp RlpStream RlpSpec RlpDecode RlpProperties Keccak KeccakSpec TrieEncoding TrieTree TrieMap.
Import Big.
Open Scope Z_scope.
Close Scope lanes_scope.

Definition u16 (z : Z) : Z := z mod 2 ^ 16.

(** [crypto.HashBytes] as its bytes. *)
Definition hashLen : nat := 32.
Definition zeroHash : list Z := replicate hashLen 0.
Definition BytesToHash (b : list Z) : list Z :=
  let b := if (hashLen <? length b)%nat then drop (length b - hashLen) b else b in
  replicate (hashLen - length b) 0 ++ b.

(** A nil hash is [None]. *)
Record nodeFlag := { fhash : option (list Z); gen : Z; dirty : bool }.

Inductive node :=
  | nilNode
  | fullNode (Children : list node) (flags : nodeFlag)
  | shortNode (Key : list Z) (Val : node) (flags : nodeFlag)
  | hashNode (h : list Z)
  | valueNode (v : list Z)
  | rawNode (blob : list Z)
  | rawFullNode (Children : list node)
  | rawShortNode (Key : list Z) (Val : node).

Definition is_nil (n : node) : bool := match n with nilNode => true | _ => false end.

(** ** Flags *)
Definition flag_canUnload (f : nodeFlag) (cachegen cachelimit : Z) : bool :=
  negb f.(dirty) && (cachelimit <=? u16 (cachegen - f.(gen))).

(** [None]: a method of a nil interface, or of a raw node. *)
Definition canUnload (n : node) (cachegen cachelimit : Z) : option bool :=
  match n with
  | fullNode _ f | shortNode _ _ f => Some (flag_canUnload f cachegen cachelimit)
  | hashNode _ | valueNode _ => Some false
  | _ => None
  end.

Definition cache (n : node) : option (option (list Z) * bool) :=
  match n with
  | fullNode _ f | shortNode _ _ f => Some (f.(fhash), f.(dirty))
  | hashNode _ | valueNode _ => Some (None, true)
  | _ => None
  end.

(** ** Encoding *)

(** What reflection finds in a [node].  A full node writes itself ([EncodeRLP]) as an
    array of nodes, with an empty value for a child that is not there. *)
Definition short_type : rtype := TStruct [(TBytes, no_tags); (TInterface, no_tags)].

Fixpoint node_val (n : node) : val :=
  let child c := match c with nilNode => VIface TBytes (VBytes []) | _ => node_val c end in
  match n with
  | nilNode => VNil
  | valueNode b | hashNode b | rawNode b => VIface TBytes (VBytes b)
  | shortNode k v _ => VIface (TPtr short_type) (VPtr (VList [VBytes k; node_val v]))
  | rawShortNode k v => VIface (TPtr short_type) (VPtr (VList [VBytes k; node_val v]))
  | fullNode cs _ => VIface (TArray 17 TInterface) (VList (map child cs))
  | rawFullNode cs => VIface (TArray 17 TInterface) (VList (map child cs))
  end.

(** [rlp.EncodeToBytes(n)], and [rlp.Encode(w, n)] into a buffer that keeps all. *)
Definition EncodeNode (n : node) : outcome rlp_error (list Z) := EncodeToBytes TInterface (node_val n).

Definition WriteNode (n : node) : outcome rlp_error (list Z) :=
  w ← write (node_val n) TInterface no_tags new_encbuf;
  '(out, err) ← or_panic (toWriter buffer_Write w []);
  match err with Some e => Err e | None => Ret out end.

(** ** Decoding *)
Inductive node_what :=
  | errRlp (e : rlp_error) | errUnexpectedEOF | errDecode (e : rlp_error) | errCount (c : Z)
  | errValueNode (e : rlp_error) | errOversized (size : Z) | errStringSize (size : Z).

(** The context of a wrapped error: the last place first. *)
Inductive place := inShort | inFull | inVal | inChild (i : nat).

Record node_error := { what : node_what; decodeErr : option (list place) }.

Definition plainError (w : node_what) : node_error := {| what := w; decodeErr := None |}.

Definition wrapError (e : node_error) (ctx : place) : node_error :=
  match e.(decodeErr) with
  | Some stack => {| what := e.(what); decodeErr := Some (stack ++ [ctx]) |}
  | None => {| what := e.(what); decodeErr := Some [ctx] |}
  end.

(** [if err != nil { return ..., f(err) }] *)
Definition mapErr {E F A} (f : E -> F) (m : outcome E A) : outcome F A :=
  match m with Ret a => Ret a | Err e => Err (f e) | Panic => Panic end.

Definition decoded (cachegen : Z) (hash : option (list Z)) : nodeFlag :=
  {| fhash := hash; gen := cachegen; dirty := false |}.

Section Decode.
Context (cachegen : Z) (decodeNode : list Z -> outcome node_error node).

Definition decodeRef (buf : list Z) : outcome node_error (node * list Z) :=
  '(kind, val, rest) ← mapErr (plainError ∘ errRlp) (Split buf);
  match kind with
  | List =>
      let size := Z.of_nat (length buf) - Z.of_nat (length rest) in
      if Z.of_nat hashLen <? size then Err (plainError (errOversized size))
      else n ← decodeNode buf; Ret (n, rest)
  | String =>
      if (length val =? 0)%nat then Ret (nilNode, rest)
      else if (length val =? 32)%nat then Ret (hashNode val, rest)
      else Err (plainError (errStringSize (Z.of_nat (length val))))
  | Byte => Err (plainError (errStringSize (Z.of_nat (length val))))
  end.

Definition decodeShort (hash : option (list Z)) (elems : list Z) : outcome node_error node :=
  '(kbuf, rest) ← mapErr (plainError ∘ errRlp) (SplitString elems);
  key ← or_panic (compactToHex kbuf);
  if hasTerm key then
    '(val, _) ← mapErr (plainError ∘ errValueNode) (SplitString rest);
    Ret (shortNode key (valueNode val) (decoded cachegen hash))
  else
    '(r, _) ← mapErr (fun e => wrapError e inVal) (decodeRef rest);
    Ret (shortNode key r (decoded cachegen hash)).

(** The first [n] children, from the [i]th place on. *)
Fixpoint decodeRefs (n i : nat) (elems : list Z) : outcome node_error (list node * list Z) :=
  match n with
  | O => Ret ([], elems)
  | S n =>
      '(cld, rest) ← mapErr (fun e => wrapError e (inChild i)) (decodeRef elems);
      '(cs, elems) ← decodeRefs n (S i) rest;
      Ret (cld :: cs, elems)
  end.

Definition decodeFull (hash : option (list Z)) (elems : list Z) : outcome node_error node :=
  '(cs, elems) ← decodeRefs 16 0 elems;
  '(val, _) ← mapErr (plainError ∘ errRlp) (SplitString elems);
  Ret (fullNode (cs ++ [if (0 <? length val)%nat then valueNode val else nilNode]) (decoded cachegen hash)).
End Decode.

(** An embedded node is shorter than what it is in, so the fuel is the length. *)
Fixpoint decodeNode_fuel (fuel : nat) (hash : option (list Z)) (buf : list Z) (cachegen : Z) : outcome node_error node :=
  match fuel with
  | O => Panic
  | S fuel =>
      if (length buf =? 0)%nat then Err (plainError errUnexpectedEOF)
      else
        '(elems, _) ← mapErr (plainError ∘ errDecode) (SplitList buf);
        let embedded buf := decodeNode_fuel fuel None buf cachegen in
        let c := match CountValues elems with Ret c => Ret c | Err _ => Ret 0 | Panic => Panic end in
        c ← c;
        if c =? 2 then mapErr (fun e => wrapError e inShort) (decodeShort cachegen embedded hash elems)
        else if c =? 17 then mapErr (fun e => wrapError e inFull) (decodeFull cachegen embedded hash elems)
        else Err (plainError (errCount c))
  end.

Definition decodeNode (hash : option (list Z)) (buf : list Z) (cachegen : Z) : outcome node_error node :=
  decodeNode_fuel (S (length buf)) hash buf cachegen.

(** [None]: it panics. *)
Definition mustDecodeNode (hash : option (list Z)) (buf : list Z) (cachegen : Z) : option node :=
  match decodeNode hash buf cachegen with Ret n => Some n | _ => None end.

(** ** The nodes of the database *)

(** All of a list, or nothing. *)
Definition all_some (f : node -> option node) : list node -> option (list node) :=
  fix go cs := match cs with
               | [] => Some []
               | c :: cs => d ← f c; ds ← go cs; Some (d :: ds)
               end.

Fixpoint simplifyNode (n : node) : option node :=
  match n with
  | shortNode k v _ => v ← simplifyNode v; Some (rawShortNode k v)
  | fullNode cs _ =>
      cs ← all_some (fun c => match c with nilNode => Some nilNode | _ => simplifyNode c end) cs;
      Some (rawFullNode cs)
  | valueNode _ | hashNode _ | rawNode _ => Some n
  | _ => None
  end.

Fixpoint expandNode (hash : option (list Z)) (n : node) (cachegen : Z) : option node :=
  match n with
  | rawShortNode k v =>
      key ← compactToHex k; v ← expandNode None v cachegen;
      Some (shortNode key v (decoded cachegen hash))
  | rawFullNode cs =>
      cs ← all_some (fun c => match c with nilNode => Some nilNode | _ => expandNode None c cachegen end) cs;
      Some (fullNode cs (decoded cachegen hash))
  | valueNode _ | hashNode _ => Some n
  | _ => None
  end.

(** The hashes below a raw node, in order; those of the first [n] children. *)
Definition gather (f : node -> option (list (list Z))) : list node -> nat -> option (list (list Z)) :=
  fix go cs n := match cs, n with
                 | c :: cs, S n => a ← f c; b ← go cs n; Some (a ++ b)
                 | _, _ => Some []
                 end.

Fixpoint gatherChildren (n : node) : option (list (list Z)) :=
  match n with
  | rawShortNode _ v => gatherChildren v
  | rawFullNode cs => gather gatherChildren cs 16
  | hashNode h => Some [BytesToHash h]
  | valueNode _ | nilNode => Some []
  | _ => None
  end.

(** ** What tries are stored as

    The encoding and the hash of a tree, the nodes that stand for it collapsed, in the
    database and loaded again; and that writing, reading, simplifying and expanding
    nodes go from one to the other. *)

(** ** Specification *)
Definition compact (k : list Z) : list Z := default [] (hexToCompact k).

(** The hash in place of what is long. *)
Definition by_hash (e : list Z) : bool := (32 <=? length e)%nat.

Fixpoint tree_item (t : tree) : item :=
  let ref c := match c with
               | TNil | TVal _ => tree_item c
               | _ => let e := enc (tree_item c) in if by_hash e then Str (sponge e) else tree_item c
               end in
  match t with
  | TNil => Str []
  | TVal v => Str v
  | TShort k c => Lst [Str (compact k); ref c]
  | TFull cs => Lst (map ref cs)
  end.

Definition encoding (t : tree) : list Z := enc (tree_item t).
Definition tree_hash (t : tree) : list Z := sponge (encoding t).
Definition big (t : tree) : bool := match t with TNil | TVal _ => false | _ => by_hash (encoding t) end.

(** In its parent. *)
Definition item_ref (c : tree) : item := if big c then Str (tree_hash c) else tree_item c.

Lemma tree_item_short k c : tree_item (TShort k c) = Lst [Str (compact k); item_ref c].
Proof. unfold item_ref, tree_hash, encoding, big. by destruct c. Qed.

Lemma tree_item_full cs : tree_item (TFull cs) = Lst (map item_ref cs).
Proof. cbn [tree_item]. f_equal. apply map_ext. intros []; done. Qed.

(** As the database keeps it. *)
Fixpoint raw_of (t : tree) : node :=
  let ref c := if big c then hashNode (tree_hash c) else raw_of c in
  match t with
  | TNil => nilNode
  | TVal v => valueNode v
  | TShort k c => rawShortNode (compact k) (ref c)
  | TFull cs => rawFullNode (map ref cs)
  end.
Definition raw_ref (c : tree) : node := if big c then hashNode (tree_hash c) else raw_of c.

(** As it is loaded. *)
Fixpoint tree_node (h : option (list Z)) (g : Z) (t : tree) : node :=
  let ref c := if big c then hashNode (tree_hash c) else tree_node None g c in
  match t with
  | TNil => nilNode
  | TVal v => valueNode v
  | TShort k c => shortNode k (ref c) (decoded g h)
  | TFull cs => fullNode (map ref cs) (decoded g h)
  end.
Definition node_ref (g : Z) (c : tree) : node := if big c then hashNode (tree_hash c) else tree_node None g c.

(** Values of bytes, and encodings of lengths Go can count, throughout. *)
Fixpoint wf (t : tree) : Prop :=
  len (encoding t) < 2 ^ 63 /\
  match t with
  | TNil => True
  | TVal v => bytes v
  | TShort _ c => wf c
  | TFull cs => foldr (fun c P => wf c /\ P) True cs
  end.

Lemma wf_full cs : foldr (fun c P => wf c /\ P) True cs <-> Forall wf cs.
Proof. induction cs as [|c cs IH]; cbn; [by split|]. by rewrite IH, Forall_cons. Qed.

(** ** Keys *)
Definition node_key (k : list Z) : Prop := exists term n, nibbles n /\ k = terminated term n.

Lemma compact_bytes term n c : nibbles n -> hexToCompact (terminated term n) = Some c -> bytes c.
Proof.
  intros Hn. rewrite hexToCompact_terminated by done. cbv zeta. destruct (Nat.Even_or_Odd (length n)) as [Ho|Ho].
  - assert (Nat.odd (length n) = false) as -> by (rewrite <- Nat.negb_even; by apply negb_false_iff, Nat.even_spec).
    destruct Ho as [m Hm]. destruct (nibbles_pairs n m Hm Hn) as (b & Hb & -> & _). rewrite decodeNibbles_of by done.
    cbn [mbind option_bind]. destruct (nibbles_of b); intros [= <-]; (constructor; [destruct term; lia|done]).
  - pose proof Ho as Ho'. apply Nat.odd_spec in Ho' as ->. destruct Ho as [m Hm]. destruct n as [|x n]; [cbn in Hm; lia|].
    apply Forall_cons in Hn as [Hx Hn]. destruct (nibbles_pairs n m) as (b & Hb & -> & _); [cbn in Hm; lia|done|].
    rewrite decodeNibbles_of by done. cbn [mbind option_bind]. intros [= <-]. constructor; [|done].
    destruct (flag_nibble (if term then 48 else 16) x) as (H & _); [destruct term; auto|done|].
    assert (Z.lor (if term then 32 else 0) 16 = if term then 48 else 16) as -> by by destruct term.
    rewrite H. unfold nibble in Hx. destruct term; lia.
Qed.

Lemma compact_ok k : node_key k ->
  hexToCompact k = Some (compact k) /\ compactToHex (compact k) = Some k /\ bytes (compact k).
Proof.
  intros (term & n & Hn & ->). destruct (compact_hex term n Hn) as (c & Hc & Hk). unfold compact. rewrite Hc. cbn.
  split; [done|]. split; [done|]. by eapply compact_bytes.
Qed.

(** What is below a short node, by whether its key is terminated. *)
Lemma inner_short_inv k t : inner (TShort k t) -> node_key k /\
  ((hasTerm k = true /\ exists v, t = TVal v /\ v <> []) \/ (hasTerm k = false /\ is_full t = true /\ inner t)).
Proof.
  intros H. remember (TShort k t) as x eqn:Ex. destruct H as [k' v Hk Hv|k' t' Hk Hne Hf Ht|]; [..|done].
  - injection Ex as <- <-. split; [by exists true, k'|]. left. rewrite hasTerm_app. split; [done|]. by exists v.
  - injection Ex as -> ->. split; [by exists false, k|]. right. by rewrite hasTerm_nibbles.
Qed.

Lemma inner_big t : inner t -> big t = by_hash (encoding t).
Proof. by destruct 1. Qed.

(** ** Writing *)
Definition child_val (n : node) : val := match n with nilNode => VIface TBytes (VBytes []) | _ => node_val n end.

Lemma node_val_full cs : node_val (rawFullNode cs) = VIface (TArray 17 TInterface) (VList (map child_val cs)).
Proof. cbn [node_val]. do 2 f_equal. Qed.

(** A value of an interface type and its one item. *)
Definition writes_item (v : val) (i : item) : Prop := has_type v TInterface /\ items v TInterface no_tags = Some [i].

Lemma writes_bytes b : bytes b -> writes_item (VIface TBytes (VBytes b)) (Str b).
Proof. by split. Qed.

Lemma writes_all vs its : Forall2 writes_item vs its ->
  foldr (fun x P => has_type x TInterface /\ P) True vs /\ concat_items (map (fun x => items x TInterface no_tags) vs) = Some its.
Proof.
  unfold concat_items. induction 1 as [|v i vs its [Hv Hi] _ [IH1 IH2]]; [done|]. cbn [foldr map]. split; [done|].
  rewrite Hi. cbn [mbind option_bind]. by rewrite IH2.
Qed.

Lemma sponge_is_bytes m : bytes (sponge m).
Proof. apply sponge_bytes. Qed.

Lemma raw_writes_ref c : wf c -> (c = TNil \/ (exists v, c = TVal v) \/ (inner c /\ writes_item (node_val (raw_of c)) (tree_item c))) ->
  writes_item (child_val (raw_ref c)) (item_ref c).
Proof.
  intros Hwf H. unfold raw_ref, item_ref. destruct (big c) eqn:Hb; [apply writes_bytes, sponge_is_bytes|].
  destruct H as [->|[[v ->]|[Hc H]]].
  - apply writes_bytes. constructor.
  - apply writes_bytes, Hwf.
  - destruct c; [inversion Hc|exact H..].
Qed.

Lemma raw_writes t : inner t -> wf t -> writes_item (node_val (raw_of t)) (tree_item t).
Proof.
  induction 1 as [k v Hk Hv|k t Hk Hne Hf Ht IH|cs last Hl Hcs Hlast Hp] using inner_nested_ind; intros Hwf.
  - destruct (compact_ok (k ++ [16])) as (_ & _ & Hc); [by exists true, k|]. destruct Hwf as [_ [_ Hwf]].
    cbn [raw_of]. cbn [node_val]. split; [by repeat split|done].
  - destruct (compact_ok k) as (_ & _ & Hc); [by exists false, k|]. destruct Hwf as [_ Hwf].
    assert (raw_of (TShort k t) = rawShortNode (compact k) (raw_ref t)) as -> by done. rewrite tree_item_short.
    destruct (raw_writes_ref t Hwf) as [H1 H2]; [right; right; auto|].
    assert (child_val (raw_ref t) = node_val (raw_ref t)) as E by (unfold raw_ref; destruct t; try done; by destruct (big _)).
    rewrite E in H1, H2. cbn [node_val]. split; [by repeat split|]. cbn [items mbind option_bind]. unfold short_type.
    cbn [items fst snd]. rewrite H2. done.
  - destruct Hwf as [_ Hwf]. apply wf_full in Hwf.
    assert (raw_of (TFull (cs ++ [last])) = rawFullNode (map raw_ref (cs ++ [last]))) as -> by done.
    rewrite tree_item_full, node_val_full, !map_map.
    assert (Forall2 writes_item (map (fun c => child_val (raw_ref c)) (cs ++ [last])) (map item_ref (cs ++ [last]))) as H.
    { apply Forall2_fmap, Forall_Forall2_diag. apply Forall_app in Hwf as [Hwf Hwl]. apply Forall_app. split.
      - apply Forall_lookup. intros i c Hc. rewrite Forall_lookup in Hcs, Hwf. apply raw_writes_ref; [by eapply Hwf|].
        destruct (Hcs i c Hc) as [->|[Hin IH]]; [by left|]. right. right. split; [done|]. by apply IH, (Hwf i).
      - constructor; [|done]. apply Forall_cons in Hwl as [Hwl _]. apply raw_writes_ref; [done|].
        destruct Hlast as [->|(v & -> & _)]; [by left|right; left; by exists v]. }
    destruct (writes_all _ _ H) as [H1 H2]. split.
    + cbn [has_type]. split; [exact H1|]. rewrite length_map, length_app. cbn. lia.
    + cbn [items]. by rewrite H2.
Qed.

(** What is written does not depend on the flags. *)
Section NodeInd.
Context (P : node -> Prop) (Hnil : P nilNode) (Hfull : forall cs f, Forall P cs -> P (fullNode cs f))
  (Hshort : forall k v f, P v -> P (shortNode k v f)) (Hhash : forall h, P (hashNode h)) (Hval : forall v, P (valueNode v))
  (Hraw : forall b, P (rawNode b)) (Hrfull : forall cs, Forall P cs -> P (rawFullNode cs))
  (Hrshort : forall k v, P v -> P (rawShortNode k v)).

Fixpoint node_nested_ind (n : node) : P n.
Proof.
  destruct n as [|cs f|k v f|h|v|b|cs|k v]; [done|apply Hfull|by apply Hshort|done|done|done|apply Hrfull|by apply Hrshort].
  - induction cs as [|c cs IH]; constructor; [apply node_nested_ind|exact IH].
  - induction cs as [|c cs IH]; constructor; [apply node_nested_ind|exact IH].
Defined.
End NodeInd.

Lemma simplify_val n : forall s, simplifyNode n = Some s -> node_val n = node_val s /\ is_nil s = false.
Proof.
  induction n as [|cs f IH|k v f IH|h|v|b|cs IH|k v IH] using node_nested_ind; intros s Hs; try done;
    cbn [simplifyNode] in Hs; try (by injection Hs as <-).
  - apply bind_Some in Hs as (ds & Hds & [= <-]). split; [|done]. cbn [node_val]. do 2 f_equal.
    change (map child_val cs = map child_val ds). revert ds Hds. induction IH as [|c cs Hc _ IHcs]; intros ds Hds; [by injection Hds as <-|].
    apply bind_Some in Hds as (d & Hd & Hds). apply bind_Some in Hds as (ds' & Hds & [= <-]). cbn [map].
    rewrite (IHcs ds' Hds). f_equal. destruct c; [by injection Hd as <-|..];
      (destruct (Hc d Hd) as [Hv Hnn]; unfold child_val; rewrite <- Hv; by destruct d).
  - apply bind_Some in Hs as (w & Hw & [= <-]). destruct (IH w Hw) as [Hv _]. cbn [node_val]. by rewrite Hv.
Qed.

Lemma node_encoding n t : inner t -> wf t -> node_val n = node_val (raw_of t) ->
  WriteNode n = Ret (encoding t) /\ EncodeNode n = Ret (encoding t).
Proof.
  intros Ht Hwf Hs. destruct (raw_writes t Ht Hwf) as [H1 H2]. rewrite <- Hs in H1, H2.
  assert (len (encoding t) < 2 ^ 63) as Hlen by by destruct t, Hwf.
  assert (encs [tree_item t] = encoding t) as He by apply encs_single.
  destruct (encode_grows (node_val n) TInterface [tree_item t] H1 H2) as (w & Hw & Hr & Hsz); [by rewrite He|].
  unfold WriteNode, EncodeNode, EncodeToBytes. rewrite Hw. cbn [mbind outcome_bind].
  rewrite (toWriter_render w _ [] Hr), (toBytes_render w _ Hr Hsz), He. done.
Qed.

Lemma WriteNode_encoding n t : inner t -> wf t -> simplifyNode n = Some (raw_of t) -> WriteNode n = Ret (encoding t).
Proof. intros Ht Hwf Hs. apply node_encoding; [done|done|]. by apply simplify_val. Qed.

(** ** Reading *)
Lemma plain_ref c : wf c -> plain (item_ref c).
Proof.
  intros Hwf. unfold item_ref. destruct (big c) eqn:Hb; [apply sponge_bytes|].
  destruct c; cbn; [constructor|apply Hwf|done|done].
Qed.

Lemma item_ref_small c : big c = false -> item_ref c = tree_item c.
Proof. unfold item_ref. by intros ->. Qed.

(** A child that is no value. *)
Definition no_value (c : tree) : Prop := c = TNil \/ inner c.

Definition reads (g : Z) (embedded : list Z -> outcome node_error node) (c : tree) : Prop :=
  forall rest, len (encoding c ++ rest) < 2 ^ 63 -> embedded (encoding c ++ rest) = Ret (tree_node None g c).

Lemma single_32 b : length b = 32%nat -> single b = false.
Proof. by destruct b as [|? [|? b]]. Qed.

Lemma decodeRef_ok g embedded c rest : wf c -> no_value c -> (big c = false -> inner c -> reads g embedded c) ->
  len (enc (item_ref c) ++ rest) < 2 ^ 63 ->
  decodeRef embedded (enc (item_ref c) ++ rest) = Ret (node_ref g c, rest).
Proof.
  intros Hwf Hc He Hlen. unfold decodeRef. rewrite Split_item by (done || by apply plain_ref). cbn [mapErr mbind outcome_bind].
  unfold item_ref, node_ref in *. destruct (big c) eqn:Hb.
  - cbn [item_kind item_content]. unfold tree_hash. rewrite single_32 by apply sponge_length.
    by rewrite sponge_length.
  - destruct Hc as [->|Hc]; [done|]. specialize (He eq_refl Hc rest Hlen). rewrite inner_big in Hb by done.
    unfold by_hash in Hb. apply Nat.leb_gt in Hb.
    assert (item_kind (tree_item c) = List) as -> by (destruct Hc; done).
    rewrite (proj2 (Z.ltb_ge _ _)).
    + change (enc (tree_item c)) with (encoding c). rewrite He. done.
    + change (enc (tree_item c)) with (encoding c). rewrite length_app. unfold hashLen. lia.
Qed.

Lemma decodeRefs_ok g embedded cs : forall i rest, Forall wf cs -> Forall no_value cs ->
  Forall (fun c => big c = false -> inner c -> reads g embedded c) cs ->
  len (encs (map item_ref cs) ++ rest) < 2 ^ 63 ->
  decodeRefs embedded (length cs) i (encs (map item_ref cs) ++ rest) = Ret (map (node_ref g) cs, rest).
Proof.
  induction cs as [|c cs IH]; intros i rest Hwf Hnv He Hlen; [done|].
  apply Forall_cons in Hwf as [Hwc Hwf]. apply Forall_cons in Hnv as [Hcv Hnv]. apply Forall_cons in He as [Hec He].
  change (encs (map item_ref (c :: cs))) with (enc (item_ref c) ++ encs (map item_ref cs)) in *. rewrite <- app_assoc in *.
  cbn [length decodeRefs map]. rewrite (decodeRef_ok g) by done. cbn [mapErr mbind outcome_bind].
  rewrite IH; [done|done|done|done|]. rewrite length_app in Hlen. lia.
Qed.

Lemma SplitString_item b rest : bytes b -> len (enc (Str b) ++ rest) < 2 ^ 63 -> SplitString (enc (Str b) ++ rest) = Ret (b, rest).
Proof. intros Hb Hlen. unfold SplitString. rewrite Split_item by done. cbn. by destruct (single b). Qed.

(** A list of 2 or 17 items is what a node is read from. *)
Lemma decodeNode_list fuel h l rest g : Forall plain l -> len (enc (Lst l) ++ rest) < 2 ^ 63 -> len l = 2 \/ len l = 17 ->
  decodeNode_fuel (S fuel) h (enc (Lst l) ++ rest) g =
  if len l =? 2 then mapErr (fun e => wrapError e inShort) (decodeShort g (fun buf => decodeNode_fuel fuel None buf g) h (encs l))
  else mapErr (fun e => wrapError e inFull) (decodeFull g (fun buf => decodeNode_fuel fuel None buf g) h (encs l)).
Proof.
  intros Hl Hlen Hn. cbn [decodeNode_fuel].
  assert (0 < length (enc (Lst l)) /\ length (encs l) <= length (enc (Lst l)))%nat as [H0 H1].
  { cbn [enc]. unfold enc_lst. fold (encs l). rewrite length_app. split; [|lia].
    unfold header. destruct (_ <? _); cbn; lia. }
  rewrite (proj2 (Nat.eqb_neq _ _)) by (rewrite length_app; lia).
  unfold SplitList. rewrite Split_item by done. cbn [mapErr mbind outcome_bind item_kind item_content].
  unfold CountValues. rewrite CountValues_items; [|done|rewrite length_app in Hlen; lia|lia].
  rewrite Z.add_0_l. cbn [mbind outcome_bind]. destruct Hn as [-> | ->]; done.
Qed.

Lemma child_size i l : In i l -> (length (enc i) < length (enc (Lst l)))%nat.
Proof.
  intros H. cbn [enc]. unfold enc_lst. fold (encs l). rewrite length_app.
  assert (length (enc i) <= length (encs l))%nat.
  { unfold encs. apply in_split in H as (l1 & l2 & ->). rewrite map_app, concat_app, length_app. cbn. rewrite length_app. lia. }
  unfold header. destruct (_ <? _); cbn; lia.
Qed.

Lemma decodeNode_ok t : inner t -> wf t -> forall fuel h rest g, (length (encoding t) < fuel)%nat ->
  len (encoding t ++ rest) < 2 ^ 63 -> decodeNode_fuel fuel h (encoding t ++ rest) g = Ret (tree_node h g t).
Proof.
  induction 1 as [k v Hk Hv|k t Hk Hne Hf Ht IH|cs last Hl Hcs Hlast Hp] using inner_nested_ind; intros Hwf fuel h rest g Hfuel Hlen;
    (destruct fuel as [|fuel]; [lia|]); unfold encoding in *.
  - destruct (compact_ok (k ++ [16])) as (_ & Hk' & Hc); [by exists true, k|]. destruct Hwf as [_ [_ Hwf]].
    rewrite tree_item_short in *. change (item_ref (TVal v)) with (Str v) in *. rewrite decodeNode_list; [|constructor; [exact Hc|constructor; [exact Hwf|constructor]]|done|by left].
    cbn [length Z.of_nat Z.eqb]. unfold decodeShort.
    change (encs [Str (compact (k ++ [16])); Str v]) with (enc (Str (compact (k ++ [16]))) ++ enc (Str v) ++ []).
    pose proof (child_size (Str (compact (k ++ [16]))) [Str (compact (k ++ [16])); Str v]) as H1.
    rewrite length_app in Hlen.
    assert (len (enc (Str (compact (k ++ [16]))) ++ enc (Str v) ++ []) < 2 ^ 63) as Hlen2.
    { change (enc (Str (compact (k ++ [16]))) ++ enc (Str v) ++ []) with (encs [Str (compact (k ++ [16])); Str v]).
      cbn [enc] in Hlen. unfold enc_lst in Hlen. rewrite length_app in Hlen. unfold encs. lia. }
    rewrite SplitString_item by done. cbn [mapErr mbind outcome_bind]. rewrite Hk'. cbn [or_panic mbind outcome_bind].
    rewrite hasTerm_app, SplitString_item; [done|done|]. rewrite length_app in Hlen2. lia.
  - destruct (compact_ok k) as (_ & Hk' & Hc); [by exists false, k|]. destruct Hwf as [_ Hwf].
    rewrite tree_item_short in *. rewrite decodeNode_list; [|constructor; [exact Hc|constructor; [by apply plain_ref|constructor]]|done|by left].
    cbn [length Z.of_nat Z.eqb]. unfold decodeShort.
    change (encs [Str (compact k); item_ref t]) with (enc (Str (compact k)) ++ enc (item_ref t) ++ []).
    assert (len (enc (Str (compact k)) ++ enc (item_ref t) ++ []) < 2 ^ 63) as Hlen2.
    { change (enc (Str (compact k)) ++ enc (item_ref t) ++ []) with (encs [Str (compact k); item_ref t]).
      rewrite length_app in Hlen. cbn [enc] in Hlen. unfold enc_lst in Hlen. rewrite length_app in Hlen. unfold encs. lia. }
    rewrite SplitString_item by done. cbn [mapErr mbind outcome_bind]. rewrite Hk'. cbn [or_panic mbind outcome_bind].
    rewrite hasTerm_nibbles by done. rewrite (decodeRef_ok g).
    + done.
    + done.
    + by right.
    + intros Hb _ r Hr. apply IH; [done| |done].
      pose proof (child_size (item_ref t) [Str (compact k); item_ref t] ltac:(right; by left)) as H1.
      rewrite (item_ref_small t Hb) in H1, Hfuel. lia.
    + rewrite length_app in Hlen2. lia.
  - destruct Hwf as [_ Hwf]. apply wf_full in Hwf. rewrite tree_item_full in *.
    assert (length (map item_ref (cs ++ [last])) = 17%nat) as H17 by (rewrite length_map, length_app; cbn; lia).
    rewrite decodeNode_list; [|by apply Forall_map; eapply Forall_impl; [exact Hwf|]; intros; apply plain_ref|done|right; by rewrite H17].
    rewrite H17. change (Z.of_nat 17 =? 2) with false. cbv iota. unfold decodeFull.
    assert (len (encs (map item_ref (cs ++ [last]))) < 2 ^ 63) as Hlen2.
    { rewrite length_app in Hlen. cbn [enc] in Hlen. unfold enc_lst in Hlen. rewrite length_app in Hlen. unfold encs. lia. }
    apply Forall_app in Hwf as [Hwf Hwl]. apply Forall_cons in Hwl as [Hwl _].
    rewrite map_app, encs_app in *. replace 16%nat with (length cs). rewrite (decodeRefs_ok g).
    + cbn [mbind outcome_bind map]. change (encs [item_ref last]) with (enc (item_ref last) ++ []).
      assert (len (enc (item_ref last) ++ []) < 2 ^ 63) as Hlen3.
      { change (enc (item_ref last) ++ []) with (encs (map item_ref [last])). rewrite length_app in Hlen2. lia. }
      assert (exists b, item_ref last = Str b /\ bytes b /\ (if (0 <? length b)%nat then valueNode b else nilNode) = node_ref g last) as (b & Eb & Hb & Hn).
      { destruct Hlast as [->|(v & -> & Hv)]; [exists []; by repeat constructor|exists v]. split; [done|]. split; [apply Hwl|]. by destruct v. }
      rewrite Eb in Hlen3 |- *. rewrite SplitString_item by done. cbn [mapErr mbind outcome_bind]. rewrite Hn.
      change (tree_node h g (TFull (cs ++ [last]))) with (fullNode (map (node_ref g) (cs ++ [last])) (decoded g h)).
      by rewrite map_app.
    + done.
    + eapply Forall_impl; [exact Hcs|]. intros c [->|[Hc _]]; [by left|by right].
    + apply Forall_lookup. intros i c Hc Hb Hin r Hr. rewrite Forall_lookup in Hcs, Hwf.
      destruct (Hcs i c Hc) as [->|[_ IH]]; [inversion Hin|]. apply IH; [by eapply Hwf| |done].
      assert (In (item_ref c) (map item_ref cs ++ map item_ref [last])) as Hin'.
      { apply in_or_app. left. apply in_map. by apply list_elem_of_In, list_elem_of_lookup_2 with i. }
      apply child_size in Hin'. rewrite (item_ref_small c Hb) in Hin'. lia.
    + done.
Qed.

Lemma mustDecodeNode_ok t h g : inner t -> wf t -> mustDecodeNode h (encoding t) g = Some (tree_node h g t).
Proof.
  intros Ht Hwf. unfold mustDecodeNode, decodeNode. pose proof (decodeNode_ok t Ht Hwf (S (length (encoding t))) h [] g) as H.
  rewrite app_nil_r in H. rewrite H; [done|lia|]. by destruct t, Hwf.
Qed.

(** ** Expanding *)
Lemma expandNode_ok t : inner t -> forall h g, expandNode h (raw_of t) g = Some (tree_node h g t).
Proof.
  assert (forall c g, (c = TNil \/ (exists v, c = TVal v) \/ (inner c /\ forall h g, expandNode h (raw_of c) g = Some (tree_node h g c))) ->
    match raw_ref c with nilNode => Some nilNode | _ => expandNode None (raw_ref c) g end = Some (node_ref g c)) as Href.
  { intros c g Hc. unfold raw_ref, node_ref. destruct (big c); [done|]. destruct Hc as [->|[[v ->]|[Hc H]]]; [done|done|].
    rewrite H. by destruct c. }
  induction 1 as [k v Hk Hv|k t Hk Hne Hf Ht IH|cs last Hl Hcs Hlast Hp] using inner_nested_ind; intros h g.
  - destruct (compact_ok (k ++ [16])) as (_ & Hk' & _); [by exists true, k|]. cbn [raw_of big expandNode]. by rewrite Hk'.
  - destruct (compact_ok k) as (_ & Hk' & _); [by exists false, k|].
    change (raw_of (TShort k t)) with (rawShortNode (compact k) (raw_ref t)). cbn [expandNode]. rewrite Hk'. cbn [mbind option_bind].
    assert (expandNode None (raw_ref t) g = Some (node_ref g t)) as ->; [|done].
    rewrite <- Href by auto. unfold raw_ref. destruct (big t); [done|]. destruct t; done.
  - change (raw_of (TFull (cs ++ [last]))) with (rawFullNode (map raw_ref (cs ++ [last]))). cbn [expandNode].
    assert (forall cs, Forall (fun c => c = TNil \/ (exists v, c = TVal v) \/
        (inner c /\ forall h g, expandNode h (raw_of c) g = Some (tree_node h g c))) cs ->
      all_some (fun c => match c with nilNode => Some nilNode | _ => expandNode None c g end) (map raw_ref cs) =
      Some (map (node_ref g) cs)) as Hall.
    { induction 1 as [|c l Hc _ IH]; [done|]. cbn [map all_some]. rewrite (Href c g Hc). cbn [mbind option_bind].
      by rewrite IH. }
    rewrite Hall; [done|]. apply Forall_app. split.
    + eapply Forall_impl; [exact Hcs|]. intros c [->|[Hc H]]; [by left|right; right; auto].
    + constructor; [|done]. destruct Hlast as [->|(v & -> & _)]; [by left|right; left; by exists v].
Qed.

Lemma tree_node_loaded t h g : inner t -> match tree_node h g t with fullNode _ _ | shortNode _ _ _ => True | _ => False end.
Proof. by destruct 1. Qed.
