(* ===== verification/TrieDatabase.v ===== *)
(** * The trie's database

    dvm/ethereum/trie/database.go: the nodes kept in memory with their reference
    counts and the list in which they are flushed, what is below them on disk, and
    the operations that move nodes from one to the other.  Sizes, which the source
    keeps as floating point numbers, are integers; timers and logging are left out.

    The disk is an interface (ethdb/interface.go); [MemDatabase] of
    ethdb/memory_database.go implements it.  [None] is a panic, a lock that is never
    given, or the end of the fuel. *)
From Stdlib Require Import ZArith Lia.
From S2P Require Import Prelude Word TrieEncoding TrieNode.
Import Big.
Open Scope Z_scope.

(** ** ethdb *)
Class EthDB := {
  disk : Type;
  batch : Type;
  dberror : Type;
  Get : disk -> list Z -> option (list Z);
  NewBatch : disk -> batch;
  BatchPut : batch -> list Z -> list Z -> batch * option dberror;
  ValueSize : batch -> Z;
  BatchWrite : batch -> disk -> batch * disk * option dberror;
  BatchReset : batch -> batch
}.

Definition IdealBatchSize : Z := 100 * 1024.

(** The order in which Go goes over a map is not fixed. *)
Class MapRange := {
  range : forall {A : Type}, gmap (list Z) A -> list (list Z * A);
  range_perm : forall {A} (m : gmap (list Z) A), range m ≡ₚ map_to_list m
}.
#[export] Instance ordered_MapRange : MapRange := {| range := fun A m => map_to_list m; range_perm := fun A m => reflexivity _ |}.

Module MemDatabase.
Definition t : Type := gmap (list Z) (list Z).

Record kv := { k : list Z; v : list Z; del : bool }.
Record memBatch := { writes : list kv; bsize : Z }.

Definition Put (db : t) (key value : list Z) : t := <[key := value]> db.
Definition Has (db : t) (key : list Z) : bool := bool_decide (is_Some (db !! key)).
Definition Get (db : t) (key : list Z) : option (list Z) := db !! key.
Definition Keys {MR : MapRange} (db : t) : list (list Z) := (range db).*1.
Definition Delete (db : t) (key : list Z) : t := delete key db.
Definition Len (db : t) : nat := size db.

Definition new : memBatch := {| writes := []; bsize := 0 |}.
Definition batch_Put (b : memBatch) (key value : list Z) : memBatch :=
  {| writes := b.(writes) ++ [{| k := key; v := value; del := false |}]; bsize := b.(bsize) + Z.of_nat (length value) |}.
Definition batch_Delete (b : memBatch) (key : list Z) : memBatch :=
  {| writes := b.(writes) ++ [{| k := key; v := []; del := true |}]; bsize := b.(bsize) + 1 |}.
(** The writes stay in the batch. *)
Definition batch_Write (b : memBatch) (db : t) : t :=
  foldl (fun db x => if x.(del) then delete x.(k) db else <[x.(k) := x.(v)]> db) db b.(writes).
Definition batch_Reset (b : memBatch) : memBatch := new.
End MemDatabase.

#[export] Instance MemDatabase_EthDB : EthDB := {|
  disk := MemDatabase.t;
  batch := MemDatabase.memBatch;
  dberror := unit;
  Get := MemDatabase.Get;
  NewBatch := fun _ => MemDatabase.new;
  BatchPut b k v := (MemDatabase.batch_Put b k v, None);
  ValueSize := MemDatabase.bsize;
  BatchWrite b d := (b, MemDatabase.batch_Write b d, None);
  BatchReset := MemDatabase.batch_Reset
|}.

(** ** Data *)

(** A nil map of children is empty. *)
Record cachedNode := {
  cnode : node;
  csize : Z;
  parents : Z;
  children : gmap (list Z) Z;
  flushPrev : list Z;
  flushNext : list Z
}.

Record stats := { gcnodes : Z; gcsize : Z; flushnodes : Z; flushsize : Z }.

(** [readers]: the read locks that have not been given back. *)
Record Database {ED : EthDB} := {
  diskdb : disk;
  nodes : gmap (list Z) cachedNode;
  oldest : list Z;
  newest : list Z;
  preimages : gmap (list Z) (list Z);
  nodesSize : Z;
  preimagesSize : Z;
  statistics : stats;
  readers : nat
}.
Arguments Database : clear implicits.

Definition set_parents (f : Z -> Z) (c : cachedNode) : cachedNode :=
  {| cnode := c.(cnode); csize := c.(csize); parents := u16 (f c.(parents)); children := c.(children);
     flushPrev := c.(flushPrev); flushNext := c.(flushNext) |}.
Definition set_children (f : gmap (list Z) Z -> gmap (list Z) Z) (c : cachedNode) : cachedNode :=
  {| cnode := c.(cnode); csize := c.(csize); parents := c.(parents); children := f c.(children);
     flushPrev := c.(flushPrev); flushNext := c.(flushNext) |}.
Definition set_prev (h : list Z) (c : cachedNode) : cachedNode :=
  {| cnode := c.(cnode); csize := c.(csize); parents := c.(parents); children := c.(children);
     flushPrev := h; flushNext := c.(flushNext) |}.
Definition set_next (h : list Z) (c : cachedNode) : cachedNode :=
  {| cnode := c.(cnode); csize := c.(csize); parents := c.(parents); children := c.(children);
     flushPrev := c.(flushPrev); flushNext := h |}.

Section Ops.
Context {ED : EthDB} {MR : MapRange}.

Definition set_nodes (db : Database ED) (ns : gmap (list Z) cachedNode) (o n : list Z) (size : Z) : Database ED :=
  {| diskdb := db.(diskdb); nodes := ns; oldest := o; newest := n; preimages := db.(preimages);
     nodesSize := size; preimagesSize := db.(preimagesSize); statistics := db.(statistics); readers := db.(readers) |}.
Definition set_disk (db : Database ED) (d : disk) : Database ED :=
  {| diskdb := d; nodes := db.(nodes); oldest := db.(oldest); newest := db.(newest); preimages := db.(preimages);
     nodesSize := db.(nodesSize); preimagesSize := db.(preimagesSize); statistics := db.(statistics); readers := db.(readers) |}.
Definition set_preimages (db : Database ED) (p : gmap (list Z) (list Z)) (size : Z) : Database ED :=
  {| diskdb := db.(diskdb); nodes := db.(nodes); oldest := db.(oldest); newest := db.(newest); preimages := p;
     nodesSize := db.(nodesSize); preimagesSize := size; statistics := db.(statistics); readers := db.(readers) |}.
Definition set_stats (db : Database ED) (s : stats) : Database ED :=
  {| diskdb := db.(diskdb); nodes := db.(nodes); oldest := db.(oldest); newest := db.(newest); preimages := db.(preimages);
     nodesSize := db.(nodesSize); preimagesSize := db.(preimagesSize); statistics := s; readers := db.(readers) |}.
Definition set_readers (db : Database ED) (n : nat) : Database ED :=
  {| diskdb := db.(diskdb); nodes := db.(nodes); oldest := db.(oldest); newest := db.(newest); preimages := db.(preimages);
     nodesSize := db.(nodesSize); preimagesSize := db.(preimagesSize); statistics := db.(statistics); readers := n |}.

(** [db.lock.Lock()] waits for the readers. *)
Definition Lock (db : Database ED) : option unit := if (db.(readers) =? 0)%nat then Some tt else None.
Definition RLock (db : Database ED) : Database ED := set_readers db (S db.(readers)).
Definition RUnlock (db : Database ED) : Database ED := set_readers db (pred db.(readers)).

(** *** Cached nodes *)
Definition no_node : cachedNode :=
  {| cnode := nilNode; csize := 0; parents := 0; children := ∅; flushPrev := zeroHash; flushNext := zeroHash |}.

(** There is an entry for the zero hash from the start. *)
Definition NewDatabase (d : disk) : Database ED :=
  {| diskdb := d; nodes := {[zeroHash := no_node]}; oldest := zeroHash; newest := zeroHash; preimages := ∅;
     nodesSize := 0; preimagesSize := 0;
     statistics := {| gcnodes := 0; gcsize := 0; flushnodes := 0; flushsize := 0 |}; readers := 0 |}.

Definition cached_rlp (n : cachedNode) : option (list Z) :=
  match n.(cnode) with
  | rawNode blob => Some blob
  | c => match EncodeNode c with Ret blob => Some blob | _ => None end
  end.

Definition cached_obj (n : cachedNode) (hash : list Z) (cachegen : Z) : option node :=
  match n.(cnode) with
  | rawNode blob => mustDecodeNode (Some hash) blob cachegen
  | c => expandNode (Some hash) c cachegen
  end.

Definition childs (n : cachedNode) : option (list (list Z)) :=
  let external := (range n.(children)).*1 in
  match n.(cnode) with
  | rawNode _ => Some external
  | c => inside ← gatherChildren c; Some (external ++ inside)
  end.

(** *** Inserting *)
Definition insert (db : Database ED) (hash blob : list Z) (n : node) : option (Database ED) :=
  match db.(nodes) !! hash with
  | Some _ => Some db
  | None =>
      c ← simplifyNode n;
      let entry := {| cnode := c; csize := u16 (Z.of_nat (length blob)); parents := 0; children := ∅;
                      flushPrev := db.(newest); flushNext := zeroHash |} in
      kids ← childs entry;
      let ns := foldl (fun ns child => alter (set_parents (Z.add 1)) child ns) db.(nodes) kids in
      let ns := <[hash := entry]> ns in
      let size := db.(nodesSize) + (32 + entry.(csize)) in
      if decide (db.(oldest) = zeroHash) then Some (set_nodes db ns hash hash size)
      else
        last ← ns !! db.(newest);
        Some (set_nodes db (<[db.(newest) := set_next hash last]> ns) db.(oldest) hash size)
  end.

Definition InsertBlob (db : Database ED) (hash blob : list Z) : option (Database ED) :=
  _ ← Lock db; insert db hash blob (rawNode blob).

Definition insertPreimage (db : Database ED) (hash preimage : list Z) : Database ED :=
  match db.(preimages) !! hash with
  | Some _ => db
  | None => set_preimages db (<[hash := preimage]> db.(preimages))
              (db.(preimagesSize) + (32 + Z.of_nat (length preimage)))
  end.

(** *** Reading *)

(** The inner [None] is a panic, [nilNode] a node that is not there. *)
Definition Database_node (db : Database ED) (hash : list Z) (cachegen : Z) : option node :=
  match db.(nodes) !! hash with
  | Some n => cached_obj n hash cachegen
  | None =>
      match Get db.(diskdb) hash with
      | None => Some nilNode
      | Some enc => mustDecodeNode (Some hash) enc cachegen
      end
  end.

(** The inner [None] is the error of the disk. *)
Definition Database_Node (db : Database ED) (hash : list Z) : option (option (list Z)) :=
  match db.(nodes) !! hash with
  | Some n => Some <$> cached_rlp n
  | None => Some (Get db.(diskdb) hash)
  end.

(** "secure-key-" *)
Definition secureKeyPrefix : list Z := [115; 101; 99; 117; 114; 101; 45; 107; 101; 121; 45].
Definition secureKey (key : list Z) : list Z := secureKeyPrefix ++ key.

Definition preimage (db : Database ED) (hash : list Z) : option (list Z) :=
  match db.(preimages) !! hash with
  | Some p => Some p
  | None => Get db.(diskdb) (secureKey hash)
  end.

Definition Nodes (db : Database ED) : list (list Z) :=
  filter (fun h => h <> zeroHash) (range db.(nodes)).*1.

Definition Size (db : Database ED) : Z * Z :=
  (db.(nodesSize) + (Z.of_nat (size db.(nodes)) - 1) * 2 * 32, db.(preimagesSize)).

(** *** References *)
Definition reference (db : Database ED) (child parent : list Z) : option (Database ED) :=
  match db.(nodes) !! child with
  | None => Some db
  | Some _ =>
      p ← db.(nodes) !! parent;
      if bool_decide (is_Some (p.(children) !! child)) && bool_decide (parent <> zeroHash) then Some db
      else
        let ns := alter (set_parents (Z.add 1)) child db.(nodes) in
        let ns := alter (set_children (fun m => <[child := u16 (default 0 (m !! child) + 1)]> m)) parent ns in
        Some (set_nodes db ns db.(oldest) db.(newest) db.(nodesSize))
  end.

Definition Reference := reference.

(** What takes a node out of the flush-list. *)
Definition unlink (db : Database ED) (hash : list Z) (n : cachedNode) : option (Database ED) :=
  if decide (hash = db.(oldest)) then
    next ← db.(nodes) !! n.(flushNext);
    Some (set_nodes db (<[n.(flushNext) := set_prev zeroHash next]> db.(nodes)) n.(flushNext) db.(newest) db.(nodesSize))
  else if decide (hash = db.(newest)) then
    prev ← db.(nodes) !! n.(flushPrev);
    Some (set_nodes db (<[n.(flushPrev) := set_next zeroHash prev]> db.(nodes)) db.(oldest) n.(flushPrev) db.(nodesSize))
  else
    prev ← db.(nodes) !! n.(flushPrev);
    let ns := <[n.(flushPrev) := set_next n.(flushNext) prev]> db.(nodes) in
    next ← ns !! n.(flushNext);
    Some (set_nodes db (<[n.(flushNext) := set_prev n.(flushPrev) next]> ns) db.(oldest) db.(newest) db.(nodesSize)).

Definition remove (db : Database ED) (hash : list Z) (size : Z) : Database ED :=
  set_nodes db (delete hash db.(nodes)) db.(oldest) db.(newest) (db.(nodesSize) - (32 + size)).

(** [for _, hash := range hashes { f(db, hash) }] *)
Definition each {A} (f : A -> list Z -> option A) (a : A) (hashes : list (list Z)) : option A :=
  foldl (fun a h => a ← a; f a h) (Some a) hashes.

(** Nodes are below each other no deeper than there are nodes. *)
Fixpoint dereference (fuel : nat) (db : Database ED) (child parent : list Z) : option (Database ED) :=
  match fuel with
  | O => None
  | S fuel =>
      p ← db.(nodes) !! parent;
      let count := default 0 (p.(children) !! child) in
      let kids m := if count =? 1 then delete child m else <[child := count - 1]> m in
      let db := if 0 <? count
                then set_nodes db (<[parent := set_children kids p]> db.(nodes)) db.(oldest) db.(newest) db.(nodesSize)
                else db in
      match db.(nodes) !! child with
      | None => Some db
      | Some n =>
          let n := if 0 <? n.(parents) then set_parents (fun p => p - 1) n else n in
          let db := set_nodes db (<[child := n]> db.(nodes)) db.(oldest) db.(newest) db.(nodesSize) in
          if n.(parents) =? 0 then
            db ← unlink db child n;
            kids ← childs n;
            db ← each (fun db hash => dereference fuel db hash child) db kids;
            Some (remove db child n.(csize))
          else Some db
      end
  end.

Definition Dereference (fuel : nat) (db : Database ED) (root : list Z) : option (Database ED) :=
  if decide (root = zeroHash) then Some db
  else
    _ ← Lock db;
    db' ← dereference fuel db root zeroHash;
    let s := db.(statistics) in
    Some (set_stats db' {| gcnodes := u64 (s.(gcnodes) + u64 (Z.of_nat (size db.(nodes)) - Z.of_nat (size db'.(nodes))));
                           gcsize := s.(gcsize) + (db.(nodesSize) - db'.(nodesSize));
                           flushnodes := s.(flushnodes); flushsize := s.(flushsize) |}).

(** *** Flushing *)

(** A state that goes on, or an error with the state it leaves. *)
Abbreviation flushed A := (A + (A * dberror))%type.

(** [if err := batch.Write(); err != nil { return err }; batch.Reset()], when the batch is large. *)
Definition flush_large (b : batch) (d : disk) (large : bool) : flushed (batch * disk) :=
  if large then
    let '(b, d, err) := BatchWrite b d in
    match err with Some e => inr (b, d, e) | None => inl (BatchReset b, d) end
  else inl (b, d).

(** The preimages, written under their keys; [inr (d, e, true)] is an error of a write, the others of a put. *)
Fixpoint flush_preimages (ps : list (list Z * list Z)) (b : batch) (d : disk) :
    (batch * disk) + (disk * dberror * bool) :=
  match ps with
  | [] => inl (b, d)
  | (hash, p) :: ps =>
      match BatchPut b (secureKey hash) p with
      | (_, Some e) => inr (d, e, false)
      | (b, None) =>
          match flush_large b d (IdealBatchSize <? ValueSize b) with
          | inr (_, d, e) => inr (d, e, true)
          | inl (b, d) => flush_preimages ps b d
          end
      end
  end.

(** The node and what is below it, the node last. *)
Fixpoint commit (fuel : nat) (db : Database ED) (st : batch * disk) (hash : list Z) : option (flushed (batch * disk)) :=
  match fuel with
  | O => None
  | S fuel =>
      match db.(nodes) !! hash with
      | None => Some (inl st)
      | Some n =>
          kids ← childs n;
          r ← each (fun r h => match r with inl st => commit fuel db st h | inr _ => Some r end) (inl st) kids;
          match r with
          | inr _ => Some r
          | inl (b, d) =>
              blob ← cached_rlp n;
              match BatchPut b hash blob with
              | (b, Some e) => Some (inr (b, d, e))
              | (b, None) => Some (flush_large b d (IdealBatchSize <=? ValueSize b))
              end
          end
      end
  end.

Fixpoint uncache (fuel : nat) (db : Database ED) (hash : list Z) : option (Database ED) :=
  match fuel with
  | O => None
  | S fuel =>
      match db.(nodes) !! hash with
      | None => Some db
      | Some n =>
          db ← unlink db hash n;
          kids ← childs n;
          db ← each (uncache fuel) db kids;
          Some (remove db hash n.(csize))
      end
  end.

(** An error of a batch that was written to make room for more preimages is returned
    with the lock held. *)
Definition Commit (fuel : nat) (db : Database ED) (root : list Z) : option (Database ED * option dberror) :=
  let db := RLock db in
  let fail d e (unlock : bool) :=
    let db := set_disk db d in Some (if unlock then RUnlock db else db, Some e) in
  match flush_preimages (range db.(preimages)) (NewBatch db.(diskdb)) db.(diskdb) with
  | inr (d, e, in_write) => fail d e (negb in_write)
  | inl st =>
      r ← commit fuel db st root;
      match r with
      | inr (_, d, e) => fail d e true
      | inl (b, d) =>
          let '(_, d, err) := BatchWrite b d in
          match err with
          | Some e => fail d e true
          | None =>
              let db := RUnlock (set_disk db d) in
              _ ← Lock db;
              db ← uncache fuel (set_preimages db ∅ 0) root;
              Some (set_stats db {| gcnodes := 0; gcsize := 0; flushnodes := 0; flushsize := 0 |}, None)
          end
      end
  end.

(** The nodes from the oldest on, until the size is within the limit; and which is then the oldest. *)
Fixpoint cap_nodes (fuel : nat) (db : Database ED) (limit size : Z) (oldest : list Z) (st : batch * disk) :
    option (flushed (batch * disk) * list Z) :=
  match fuel with
  | O => None
  | S fuel =>
      if (limit <? size) && bool_decide (oldest <> zeroHash) then
        n ← db.(nodes) !! oldest;
        blob ← cached_rlp n;
        match BatchPut st.1 oldest blob with
        | (b, Some e) => Some (inr (b, st.2, e), oldest)
        | (b, None) =>
            match flush_large b st.2 (IdealBatchSize <=? ValueSize b) with
            | inr r => Some (inr r, oldest)
            | inl st => cap_nodes fuel db limit (size - (3 * 32 + n.(csize))) n.(flushNext) st
            end
        end
      else Some (inl st, oldest)
  end.

Fixpoint cap_forget (fuel : nat) (db : Database ED) (until : list Z) : option (Database ED) :=
  match fuel with
  | O => None
  | S fuel =>
      if decide (db.(oldest) = until) then Some db
      else
        n ← db.(nodes) !! db.(oldest);
        cap_forget fuel (set_nodes db (delete db.(oldest) db.(nodes)) n.(flushNext) db.(newest)
                           (db.(nodesSize) - (32 + n.(csize)))) until
  end.

Definition Cap (fuel : nat) (db : Database ED) (limit : Z) : option (Database ED * option dberror) :=
  let db0 := db in
  let db := RLock db in
  let fail d e := Some (RUnlock (set_disk db d), Some e) in
  let flushPreimages := 4 * 1024 * 1024 <? db.(preimagesSize) in
  match (if flushPreimages then flush_preimages (range db.(preimages)) (NewBatch db.(diskdb)) db.(diskdb)
         else inl (NewBatch db.(diskdb), db.(diskdb))) with
  | inr (d, e, _) => fail d e
  | inl st =>
      '(r, upto) ← cap_nodes fuel db limit (Size db).1 db.(oldest) st;
      match r with
      | inr (_, d, e) => fail d e
      | inl (b, d) =>
          let '(_, d, err) := BatchWrite b d in
          match err with
          | Some e => fail d e
          | None =>
              let db := RUnlock (set_disk db d) in
              _ ← Lock db;
              let db := if flushPreimages then set_preimages db ∅ 0 else db in
              db ← cap_forget fuel db upto;
              db ← (if decide (db.(oldest) = zeroHash) then Some db
                    else n ← db.(nodes) !! db.(oldest);
                         Some (set_nodes db (<[db.(oldest) := set_prev zeroHash n]> db.(nodes)) db.(oldest) db.(newest)
                                 db.(nodesSize)));
              let s := db.(statistics) in
              Some (set_stats db
                {| gcnodes := s.(gcnodes); gcsize := s.(gcsize);
                   flushnodes := u64 (s.(flushnodes) + u64 (Z.of_nat (size db0.(nodes)) - Z.of_nat (size db.(nodes))));
                   flushsize := s.(flushsize) + (db0.(nodesSize) - db.(nodesSize)) |}, None)
          end
      end
  end.
End Ops.
