(* ===== verification/Trie.v ===== *)
(** * The trie

    dvm/ethereum/trie/trie.go over nodes that are loaded from a database when they are
    reached.  The database is shared, so it is an argument of the operations; what they
    use of it is [node], which only reads.  A nil slice is [None].

    The fuel bounds the recursion: every call is for a shorter key or one node further
    down, see TrieRefines.v. *)
From Stdlib Require Import ZArith Lia.
From S2P Require Import Prelude Word TrieEncoding TrieNode TrieDatabase.
Import Big.
Open Scope Z_scope.

Record MissingNodeError := { NodeHash : list Z; Path : list Z }.

Section Nodes.
(** [db.node], [t.cachegen] *)
Context (dbnode : list Z -> Z -> option node) (cachegen : Z).

Definition newFlag : nodeFlag := {| fhash := None; gen := cachegen; dirty := true |}.

Definition set_gen (f : nodeFlag) (g : Z) : nodeFlag := {| fhash := f.(fhash); gen := g; dirty := f.(dirty) |}.

Definition resolveHash (n prefix : list Z) : outcome MissingNodeError node :=
  let hash := BytesToHash n in
  n ← or_panic (dbnode hash cachegen);
  if is_nil n then Err {| NodeHash := hash; Path := prefix |} else Ret n.

Definition resolve (n : node) (prefix : list Z) : outcome MissingNodeError node :=
  match n with hashNode h => resolveHash h prefix | _ => Ret n end.

(** [n.Children[i] = c] *)
Definition set_child (cs : list node) (i : Z) (c : node) : option (list node) :=
  if (Z.to_nat i <? length cs)%nat then Some (<[Z.to_nat i := c]> cs) else None.

(** The value, the node with what was loaded in it, and whether anything was loaded. *)
Fixpoint tryGet (fuel : nat) (origNode : node) (key : list Z) (pos : nat) :
    outcome MissingNodeError (option (list Z) * node * bool) :=
  match fuel with
  | O => Panic
  | S fuel =>
      match origNode with
      | nilNode => Ret (None, nilNode, false)
      | valueNode v => Ret (Some v, valueNode v, false)
      | shortNode nkey nval flags =>
          if (length key - pos <? length nkey)%nat
             || negb (bool_decide (nkey = take (length nkey) (drop pos key)))
          then Ret (None, origNode, false)
          else
            '(value, newnode, didResolve) ← tryGet fuel nval key (pos + length nkey);
            Ret (value, if didResolve : bool then shortNode nkey newnode (set_gen flags cachegen) else origNode, didResolve)
      | fullNode cs flags =>
          i ← or_panic (key !! pos);
          c ← or_panic (cs !! Z.to_nat i);
          '(value, newnode, didResolve) ← tryGet fuel c key (pos + 1);
          if didResolve : bool then
            cs ← or_panic (set_child cs i newnode);
            Ret (value, fullNode cs (set_gen flags cachegen), true)
          else Ret (value, origNode, false)
      | hashNode h =>
          child ← resolveHash h (take pos key);
          '(value, newnode, _) ← tryGet fuel child key pos;
          Ret (value, newnode, true)
      | _ => Panic
      end
  end.

Definition no_children : list node := replicate 17 nilNode.

(** Whether anything changed, and the node as it is then. *)
Fixpoint insert (fuel : nat) (n : node) (prefix key : list Z) (value : node) : outcome MissingNodeError (bool * node) :=
  match fuel with
  | O => Panic
  | S fuel =>
      match key with
      | [] =>
          match n with
          | valueNode v =>
              match value with
              | valueNode w => Ret (negb (bool_decide (v = w)), value)
              | _ => Panic
              end
          | _ => Ret (true, value)
          end
      | k0 :: krest =>
          match n with
          | shortNode nkey nval _ =>
              let matchlen := prefixLen key nkey in
              if (matchlen =? length nkey)%nat then
                '(dirty, nn) ← insert fuel nval (prefix ++ take matchlen key) (drop matchlen key) value;
                Ret (if dirty : bool then (true, shortNode nkey nn newFlag) else (false, n))
              else
                a ← or_panic (nkey !! matchlen);
                '(_, c) ← insert fuel nilNode (prefix ++ take (matchlen + 1) nkey) (drop (matchlen + 1) nkey) nval;
                cs ← or_panic (set_child no_children a c);
                b ← or_panic (key !! matchlen);
                '(_, c) ← insert fuel nilNode (prefix ++ take (matchlen + 1) key) (drop (matchlen + 1) key) value;
                cs ← or_panic (set_child cs b c);
                let branch := fullNode cs newFlag in
                Ret (true, if (matchlen =? 0)%nat then branch else shortNode (take matchlen key) branch newFlag)
          | fullNode cs _ =>
              c ← or_panic (cs !! Z.to_nat k0);
              '(dirty, nn) ← insert fuel c (prefix ++ [k0]) krest value;
              if dirty : bool then cs ← or_panic (set_child cs k0 nn); Ret (true, fullNode cs newFlag)
              else Ret (false, n)
          | nilNode => Ret (true, shortNode key value newFlag)
          | hashNode h =>
              rn ← resolveHash h prefix;
              '(dirty, nn) ← insert fuel rn prefix key value;
              Ret (if dirty : bool then (true, nn) else (false, rn))
          | _ => Panic
          end
      end
  end.

(** The loop over the children: the place of the only one, -1 without any, -2 with more. *)
Fixpoint child_pos (cs : list node) (i pos : Z) : Z :=
  match cs with
  | [] => pos
  | c :: cs =>
      if is_nil c then child_pos cs (i + 1) pos
      else if pos =? -1 then child_pos cs (i + 1) i else -2
  end.

Fixpoint delete (fuel : nat) (n : node) (prefix key : list Z) : outcome MissingNodeError (bool * node) :=
  match fuel with
  | O => Panic
  | S fuel =>
      match n with
      | shortNode nkey nval _ =>
          let matchlen := prefixLen key nkey in
          if (matchlen <? length nkey)%nat then Ret (false, n)
          else if (matchlen =? length key)%nat then Ret (true, nilNode)
          else
            '(dirty, child) ← delete fuel nval (prefix ++ take (length nkey) key) (drop (length nkey) key);
            Ret (if dirty : bool then
                   (true, match child with
                          | shortNode ckey cval _ => shortNode (nkey ++ ckey) cval newFlag
                          | _ => shortNode nkey child newFlag
                          end)
                 else (false, n))
      | fullNode cs _ =>
          match key with
          | [] => Panic
          | k0 :: krest =>
              c ← or_panic (cs !! Z.to_nat k0);
              '(dirty, nn) ← delete fuel c (prefix ++ [k0]) krest;
              if dirty : bool then
                cs ← or_panic (set_child cs k0 nn);
                let pos := child_pos cs 0 (-1) in
                if 0 <=? pos then
                  child ← or_panic (cs !! Z.to_nat pos);
                  if negb (pos =? 16) then
                    cnode ← resolve child prefix;
                    match cnode with
                    | shortNode ckey cval _ => Ret (true, shortNode (pos :: ckey) cval newFlag)
                    | _ => Ret (true, shortNode [pos] child newFlag)
                    end
                  else Ret (true, shortNode [pos] child newFlag)
                else Ret (true, fullNode cs newFlag)
              else Ret (false, n)
          end
      | valueNode _ => Ret (true, nilNode)
      | nilNode => Ret (false, nilNode)
      | hashNode h =>
          rn ← resolveHash h prefix;
          '(dirty, nn) ← delete fuel rn prefix key;
          Ret (if dirty : bool then (true, nn) else (false, rn))
      | _ => Panic
      end
  end.
End Nodes.

(** ** The trie *)
Record Trie := { root : node; originalRoot : list Z; cachegen : Z; cachelimit : Z }.

(** 56e81f171bcc55a6ff8345e692c0f86e5b48e01b996cadc001622fb5e363b421 *)
Definition emptyRoot : list Z :=
  [0x56; 0xe8; 0x1f; 0x17; 0x1b; 0xcc; 0x55; 0xa6; 0xff; 0x83; 0x45; 0xe6; 0x92; 0xc0; 0xf8; 0x6e;
   0x5b; 0x48; 0xe0; 0x1b; 0x99; 0x6c; 0xad; 0xc0; 0x01; 0x62; 0x2f; 0xb5; 0xe3; 0x63; 0xb4; 0x21].

Section Ops.
Context {ED : EthDB}.

Definition set_root (t : Trie) (n : node) : Trie :=
  {| root := n; originalRoot := t.(originalRoot); cachegen := t.(cachegen); cachelimit := t.(cachelimit) |}.

Definition SetCacheLimit (t : Trie) (l : Z) : Trie :=
  {| root := t.(root); originalRoot := t.(originalRoot); cachegen := t.(cachegen); cachelimit := l |}.

(** A nil database panics. *)
Definition New (r : list Z) (db : option (Database ED)) : outcome MissingNodeError Trie :=
  db ← or_panic db;
  let trie := {| root := nilNode; originalRoot := r; cachegen := 0; cachelimit := 0 |} in
  if bool_decide (r <> zeroHash) && bool_decide (r <> emptyRoot) then
    rootnode ← resolveHash (Database_node db) trie.(cachegen) r [];
    Ret (set_root trie rootnode)
  else Ret trie.

(** Twice: for a key, each of its nibbles takes at most a node and its hash. *)
Definition fuel_for (key : list Z) : nat := 2 * length key + 4.

Definition TryGet (db : Database ED) (t : Trie) (key : list Z) : outcome MissingNodeError (option (list Z) * Trie) :=
  let key := keybytesToHex key in
  '(value, newroot, didResolve) ← tryGet (Database_node db) t.(cachegen) (fuel_for key) t.(root) key 0;
  Ret (value, if didResolve : bool then set_root t newroot else t).

Definition TryUpdate (db : Database ED) (t : Trie) (key value : list Z) : outcome MissingNodeError Trie :=
  let k := keybytesToHex key in
  '(_, n) ← (if negb (length value =? 0)%nat
             then insert (Database_node db) t.(cachegen) (fuel_for k) t.(root) [] k (valueNode value)
             else delete (Database_node db) t.(cachegen) (fuel_for k) t.(root) [] k);
  Ret (set_root t n).

Definition TryDelete (db : Database ED) (t : Trie) (key : list Z) : outcome MissingNodeError Trie :=
  let k := keybytesToHex key in
  '(_, n) ← delete (Database_node db) t.(cachegen) (fuel_for k) t.(root) [] k;
  Ret (set_root t n).

(** [Get], [Update] and [Delete] log an error and go on with the trie as it was.
    The outer [None] is a panic. *)
Definition Get (db : Database ED) (t : Trie) (key : list Z) : option (option (list Z) * Trie) :=
  match TryGet db t key with Ret r => Some r | Err _ => Some (None, t) | Panic => None end.
Definition Update (db : Database ED) (t : Trie) (key value : list Z) : option Trie :=
  match TryUpdate db t key value with Ret t => Some t | Err _ => Some t | Panic => None end.
Definition Delete (db : Database ED) (t : Trie) (key : list Z) : option Trie :=
  match TryDelete db t key with Ret t => Some t | Err _ => Some t | Panic => None end.
End Ops.
