(* ===== verification/TrieRefines.v ===== *)
(** * Tries are trees

    What it is for a node to stand for a tree, some of it in a database, and that the
    operations of Trie.v do to the node what those of TrieTree.v do to the tree, or say
    which node is missing.  The fuel is enough, and nothing panics. *)
From Stdlib Require Import ZArith Lia.
From S2P Require Import Prelude Word TrieEncoding TrieTree TrieMap TrieNode TrieDatabase Trie.
Import Big.
Open Scope Z_scope.

Definition is_loaded (n : node) : bool := match n with fullNode _ _ | shortNode _ _ _ => true | _ => false end.
Definition is_hash (n : node) : bool := match n with hashNode _ => true | _ => false end.

(** A place that a key with [rest] left comes to. *)
Definition comes_to (t : tree) (rest : list Z) : Prop :=
  (inner t /\ hexkey rest) \/ (t = TNil /\ (rest = [] \/ hexkey rest)) \/ ((exists v, t = TVal v /\ v <> []) /\ rest = []).

Lemma short_child k t r : inner (TShort k t) -> hexkey (k ++ r) -> k <> [] /\ comes_to t r.
Proof.
  intros H Hk. remember (TShort k t) as x eqn:Ex. destruct H as [k' v Hk' Hv|k' t' Hk' Hne Hf Ht|]; [..|done].
  - injection Ex as <- <-. split; [by destruct k'|]. right. right. split; [by exists v|].
    apply (hexkey_prefix (k' ++ [16])); [by exists k'|done].
  - injection Ex as -> ->. split; [done|]. left. split; [done|]. by eapply hexkey_drop.
Qed.

Lemma full_child cs i r c : inner (TFull cs) -> hexkey (i :: r) -> cs !! Z.to_nat i = Some c -> comes_to c r.
Proof.
  intros (Hl & Hcs & _)%inner_full_inv Hk Hc. apply Hcs in Hc. apply hexkey_cases in Hk as [[= -> ->]|(i' & r' & [= <- <-] & Hi & Hr)].
  - destruct Hc as [[? _]|[_ [->|Hv]]]; [lia|right; left; auto|right; right; auto].
  - unfold nibble in Hi. destruct Hc as [[_ [->|Hc]]|[? _]]; [right; left; auto|left; auto|lia].
Qed.

Create HintDb trie.

Section Repr.
(** Some nodes may be missing from the database if [partial].  The flags of a node and the hashes in the
    places of nodes may have to be those of the tree; a node is the root of its trie or not. *)
Context (dbnode : list Z -> Z -> option node) (partial : bool).
Context (flag_ok : bool -> nodeFlag -> tree -> Prop) (hash_ok : bool -> list Z -> tree -> Prop).

Inductive repr : bool -> node -> tree -> Prop :=
  | repr_nil r : repr r nilNode TNil
  | repr_value r v : repr r (valueNode v) (TVal v)
  | repr_short r k n f t : repr false n t -> flag_ok r f (TShort k t) -> repr r (shortNode k n f) (TShort k t)
  | repr_full r cs f ts : Forall2 (repr false) cs ts -> flag_ok r f (TFull ts) -> repr r (fullNode cs f) (TFull ts)
  | repr_hash r h load t : hash_ok r h t -> (forall g, dbnode (BytesToHash h) g = Some (load g)) ->
      (forall g, is_loaded (load g) = true) -> (forall g, repr r (load g) t) -> repr r (hashNode h) t
  | repr_missing r h t : partial = true -> hash_ok r h t -> (forall g, dbnode (BytesToHash h) g = Some nilNode) ->
      inner t -> repr r (hashNode h) t.

Lemma repr_loaded r n t : repr r n t -> is_loaded n = true -> t <> TNil.
Proof. by destruct 1. Qed.

Lemma repr_is_nil r n t : repr r n t -> is_nil n = bool_decide (t = TNil).
Proof.
  destruct 1 as [|r v|r k n f t H _|r cs f ts H _|r h load t _ _ Hl Hr|r h t _ _ _ Ht]; try done.
  - symmetry. apply bool_decide_false. by apply (repr_loaded r (load 0)).
  - symmetry. apply bool_decide_false. by apply inner_not_nil.
Qed.

Context (cachegen : Z).
Context (flag_new : forall r t, flag_ok r (newFlag cachegen) t).
Context (flag_gen : forall r f t, flag_ok r f t -> flag_ok r (set_gen f cachegen) t).
#[local] Hint Resolve repr_nil repr_value repr_short repr_full flag_new flag_gen : trie.


(** What an operation gives: a result, or the hash of a node that is missing and the part of the key above it. *)
Definition good {A} (P : A -> Prop) (prefix key : list Z) (m : outcome MissingNodeError A) : Prop :=
  match m with
  | Ret a => P a
  | Err e => partial = true /\ dbnode e.(NodeHash) cachegen = Some nilNode /\
             exists p r, e.(Path) = prefix ++ p /\ key = p ++ r
  | Panic => False
  end.

Lemma good_bind {A B} (P : A -> Prop) (Q : B -> Prop) prefix key m k : good P prefix key m ->
  (forall a, P a -> good Q prefix key (k a)) -> good Q prefix key (m ≫= k).
Proof. destruct m; cbn; auto. Qed.

Lemma good_impl {A} (P Q : A -> Prop) prefix key m : good P prefix key m -> (forall a, P a -> Q a) -> good Q prefix key m.
Proof. destruct m; cbn; auto. Qed.

(** Further down the key. *)
Lemma good_app {A} (P : A -> Prop) prefix p key m : good P (prefix ++ p) key m -> good P prefix (p ++ key) m.
Proof.
  destruct m as [a|e|]; [done| |done]. cbn. intros (H1 & H2 & q & r & H3 & ->). split_and!; try done.
  exists (p ++ q), r. by rewrite H3, <- !app_assoc.
Qed.

Lemma resolveHash_good b h t prefix key : repr b (hashNode h) t ->
  good (fun n => is_loaded n = true /\ repr b n t) prefix key (resolveHash dbnode cachegen h prefix).
Proof.
  unfold resolveHash. remember (hashNode h) as n eqn:En. destruct 1 as [|r v|r k n f t H _|r cs f ts H _|r h' load t Hh Hd Hl Hr|r h' t Hp Hh Hd Ht]; try done.
  - injection En as ->. rewrite Hd. cbn. specialize (Hl cachegen). specialize (Hr cachegen).
    by destruct (load cachegen).
  - injection En as ->. rewrite Hd. cbn. split_and!; [done|done|]. exists [], key. by rewrite app_nil_r.
Qed.

Definition need (n : node) (rest : list Z) : nat := (2 * length rest + if is_hash n then 2 else 1)%nat.

Lemma need_le n rest : (need n rest <= 2 * length rest + 2)%nat.
Proof. unfold need. destruct (is_hash n); lia. Qed.

Lemma loaded_need n rest : is_loaded n = true -> need n rest = (2 * length rest + 1)%nat.
Proof. by destruct n. Qed.

(** ** Getting *)
Lemma tryGet_good fuel : forall b n t key pos, repr b n t -> comes_to t (drop pos key) -> (pos <= length key)%nat ->
  (need n (drop pos key) <= fuel)%nat ->
  good (fun r => r.1.1 = tget t (drop pos key) /\ repr b r.1.2 t /\ (r.2 = false -> r.1.2 = n)) (take pos key) (drop pos key)
    (tryGet dbnode cachegen fuel n key pos).
Proof.
  induction fuel as [|fuel IH]; intros b n t key pos Hn Hk Hpos Hf; [unfold need in Hf; destruct (is_hash n); lia|].
  destruct Hn as [b|b v|b k n f t Hn Hfl|b cs f ts Hcs Hfl|b h load t Hh Hd Hl Hr|b h t Hp Hh Hd Ht]; cbn [tryGet].
  - cbn. split_and!; try done. eauto with trie.
  - cbn. split_and!; try done. eauto with trie.
  - destruct (decide (take (length k) (drop pos key) = k)) as [Hpre|Hpre].
    + apply take_prefix in Hpre as Hpre'. destruct Hpre' as [r Hr].
      destruct Hk as [[Ht Hk]|[[? _]|[(v & ? & _) _]]]; [|done|done]. rewrite Hr in Hk.
      destruct (short_child k t r Ht Hk) as [Hne Hr'].
      assert (length key = pos + length k + length r)%nat as Hlen.
      { apply (f_equal length) in Hr. rewrite length_drop, length_app in Hr. lia. }
      rewrite (proj2 (Nat.ltb_ge _ _)), Hpre, bool_decide_true by (done || lia). cbn [negb orb].
      assert (drop (pos + length k) key = r) as Hd by (rewrite <- drop_drop, Hr; apply drop_app_length).
      assert (take (pos + length k) key = take pos key ++ k) as Htk.
      { rewrite <- (take_drop pos key) at 1. rewrite Hr. rewrite app_assoc, take_app_length'; [done|].
        rewrite length_app, length_take. lia. }
      rewrite Hr, tget_short_app. eapply good_bind.
      * apply good_app. rewrite <- Htk, <- Hd. apply IH; [done|by rewrite Hd|lia|].
        rewrite Hd. unfold need in Hf at 1. cbn [is_hash] in Hf. rewrite Hr, length_app in Hf.
        pose proof (need_le n r). destruct k; [done|cbn in Hf; lia].
      * intros [[value nn] did] (H1 & H2 & H3). cbn [fst snd] in *. rewrite Hd in H1. destruct did; cbn.
        -- cbn. split_and!; try done. by eauto with trie.
        -- cbn. split_and!; try done. by eauto with trie.
    + assert ((length key - pos <? length k)%nat || negb (bool_decide (k = take (length k) (drop pos key))) = true) as ->.
      { apply orb_true_iff. right. rewrite bool_decide_false; [done|congruence]. }
      cbn. rewrite bool_decide_false by done. split_and!; try done. by eauto with trie.
  - destruct Hk as [[Ht Hk]|[[? _]|[(v & ? & _) _]]]; [|done|done].
    destruct (drop pos key) as [|i r] eqn:Hr; [by apply hexkey_nil in Hk|].
    assert (key !! pos = Some i) as -> by (rewrite <- (Nat.add_0_r pos), <- lookup_drop, Hr; done).
    pose proof (hexkey_head _ _ Hk) as Hi. pose proof Ht as Ht'. apply inner_full_inv in Ht' as (Hlt & _ & _).
    destruct (lookup_lt_is_Some_2 ts (Z.to_nat i)) as [t Hti]; [lia|].
    pose proof (full_child ts i r t Ht Hk Hti) as Hr'.
    destruct (Forall2_lookup_r _ _ _ _ _ Hcs Hti) as (c & Hc & Hct).
    assert (drop (pos + 1) key = r) as Hd by (rewrite <- drop_drop, Hr; done).
    assert (take (pos + 1) key = take pos key ++ [i]) as Htk.
    { rewrite <- (take_drop pos key) at 1. rewrite Hr. change (i :: r) with ([i] ++ r).
      rewrite app_assoc, take_app_length'; [done|]. rewrite length_app, length_take.
      apply (f_equal length) in Hr. rewrite length_drop in Hr. cbn in *. lia. }
    rewrite tget_full, Hti. cbn [or_panic mbind outcome_bind]. rewrite Hc. cbn [or_panic mbind outcome_bind].
    assert (pos + 1 <= length key)%nat as Hpos'.
    { apply (f_equal length) in Hr. rewrite length_drop in Hr. cbn in Hr. lia. }
    eapply good_bind.
    + change (i :: r) with ([i] ++ r). apply good_app. rewrite <- Htk, <- Hd. apply IH; [done|by rewrite Hd|done|].
      rewrite Hd. pose proof (need_le c r). unfold need in Hf. cbn in Hf. lia.
    + intros [[value nn] did] (H1 & H2 & H3). cbn [fst snd] in *. rewrite Hd in H1. destruct did.
      * unfold set_child. rewrite (proj2 (Nat.ltb_lt _ _)) by (by apply lookup_lt_Some in Hc). cbn.
        split_and!; try done. apply repr_full; [|auto]. rewrite <- (list_insert_id ts (Z.to_nat i) t) by done. by apply Forall2_insert.
      * cbn. split_and!; try done. by eauto with trie.
  - eapply good_bind; [eapply resolveHash_good; by econstructor|]. intros n [Hln Hn]. eapply good_bind.
    + apply IH; [done|done|done|]. rewrite loaded_need by done. unfold need in Hf. cbn [is_hash] in Hf. lia.
    + intros [[value nn] did] (H1 & H2 & _). by split_and!.
  - eapply good_bind; [eapply resolveHash_good; by apply repr_missing|]. intros n [Hln Hn]. eapply good_bind.
    + apply IH; [done|done|done|]. rewrite loaded_need by done. unfold need in Hf. cbn [is_hash] in Hf. lia.
    + intros [[value nn] did] (H1 & H2 & _). by split_and!.
Qed.

(** ** Inserting *)
Definition node_leaf (k : list Z) (n : node) : node := match k with [] => n | _ => shortNode k n (newFlag cachegen) end.

Lemma insert_nil fuel p k v : (1 <= fuel)%nat -> insert dbnode cachegen fuel nilNode p k v = Ret (true, node_leaf k v).
Proof. intros H. destruct fuel; [lia|]. by destruct k. Qed.

Lemma repr_leaf k n t : repr false n t -> repr false (node_leaf k n) (leaf k t).
Proof. intros H. destruct k; [done|]. by eauto with trie. Qed.

Lemma repr_set_child cs ts i c t : Forall2 (repr false) cs ts -> repr false c t -> (Z.to_nat i < length ts)%nat ->
  exists cs', set_child cs i c = Some cs' /\ Forall2 (repr false) cs' (<[Z.to_nat i := t]> ts).
Proof.
  intros Hcs Hc Hi. unfold set_child. rewrite (Forall2_length _ _ _ Hcs), (proj2 (Nat.ltb_lt _ _)) by done.
  eexists. split; [done|]. by apply Forall2_insert.
Qed.

Lemma no_children_repr : Forall2 (repr false) no_children empty_branch.
Proof. apply Forall2_replicate. constructor. Qed.

(** The new branch. *)
Lemma branch_good fuel b prefix key k n t v f : repr false n t -> inner (TShort k t) -> hexkey key -> v <> [] ->
  (prefixLen key k < length k)%nat -> (1 <= fuel)%nat ->
  good (fun r => repr b r.2 (tinsert (TShort k t) key v) /\ r.1 = true) prefix key
    (insert dbnode cachegen (S fuel) (shortNode k n f) prefix key (valueNode v)).
Proof.
  intros Hn Ht Hk Hv Hm Hf.
  destruct key as [|k0 kr]; [by apply hexkey_nil in Hk|]. cbn [insert tinsert]. cbv zeta.
  set (key := k0 :: kr) in *. set (m := prefixLen key k) in *.
  rewrite (proj2 (Nat.eqb_neq m (length k))) by lia.
  destruct (parting k t key Ht Hk Hm) as (x & y & Ha & Hb & Hab & Ha17 & Hb17). fold m in Ha, Hb.
  rewrite Ha. cbn [or_panic mbind outcome_bind]. rewrite !insert_nil by done. cbn [mbind outcome_bind].
  unfold branch. rewrite Ha, Hb. replace (m + 1)%nat with (S m) by lia.
  destruct (repr_set_child _ _ x _ _ no_children_repr (repr_leaf (drop (S m) k) _ _ Hn)) as (cs & -> & Hcs); [cbn; lia|].
  cbn [or_panic mbind outcome_bind].
  destruct (repr_set_child _ _ y _ _ Hcs (repr_leaf (drop (S m) key) _ _ (repr_value false v))) as (cs' & -> & Hcs').
  { rewrite length_insert. cbn. lia. }
  cbn [or_panic mbind outcome_bind good]. cbn [fst snd]. split; [|done].
  destruct (m =? 0)%nat; [by eauto with trie|]. by eauto with trie.
Qed.

Lemma comes_to_nil t : comes_to t [] -> t = TNil \/ exists v, t = TVal v.
Proof. intros [[_ ?%hexkey_nil]|[[-> _]|[(v & -> & _) _]]]; [done|by left|right; by exists v]. Qed.

Lemma comes_to_cons t k r : comes_to t (k :: r) -> t = TNil \/ inner t.
Proof. by intros [[? _]|[[-> _]|[_ ?]]]; [right|left|]. Qed.

Lemma comes_to_hexkey t r : comes_to t r -> r <> [] -> hexkey r.
Proof. by intros [[_ ?]|[[_ [?|?]]|[_ ?]]]. Qed.

Lemma alter_same {A} (f : A -> A) n (cs : list A) c : cs !! n = Some c -> f c = c -> alter f n cs = cs.
Proof. intros Hc Hf. rewrite (alter_insert_same _ _ _ _ Hc), Hf. by apply list_insert_id. Qed.

Lemma insert_good fuel : forall b n t prefix key v, repr b n t -> comes_to t key -> v <> [] -> (need n key <= fuel)%nat ->
  good (fun r => repr b r.2 (tinsert t key v) /\ (r.1 = false -> tinsert t key v = t)) prefix key
    (insert dbnode cachegen fuel n prefix key (valueNode v)).
Proof.
  induction fuel as [|fuel IH]; intros b n t prefix key v Hn Hk Hv Hf; [unfold need in Hf; destruct (is_hash n); lia|].
  destruct key as [|k0 kr].
  { rewrite tinsert_nil. cbn [insert]. destruct Hn as [b|b w|b k n f t Hn Hfl|b cs f ts Hcs Hfl|b h load t Hh Hd Hl Hr|b h t Hp Hh Hd Ht];
      try (cbn; split; [eauto with trie|done]).
    cbn. split; [eauto with trie|]. intros H%negb_false_iff%bool_decide_eq_true. by subst. }
  assert (hexkey (k0 :: kr)) as Hkey by by apply (comes_to_hexkey t).
  remember (k0 :: kr) as key eqn:Ekey. assert (length key = S (length kr)) as Hlk by by subst.
  destruct Hn as [b|b w|b k n f t Hn Hfl|b cs f ts Hcs Hfl|b h load t Hh Hd Hl Hr|b h t Hp Hh Hd Ht].
  - subst key. cbn. split; [|done]. eauto with trie.
  - subst key. by apply comes_to_cons in Hk as [?|Hk]; [|inversion Hk].
  - assert (inner (TShort k t)) as Ht by (subst key; by apply comes_to_cons in Hk as [?|?]).
    destruct (prefixLen_cases key k) as [[Hm [r Hr]]|[Hm _]].
    + subst key. cbn [insert tinsert]. rewrite Hm, Nat.eqb_refl, Hr, drop_app_length, take_app_length.
      rewrite Hr in Hkey, Hlk. destruct (short_child k t r Ht Hkey) as [Hne Hr'].
      apply (good_app _ prefix k r). eapply good_bind.
      * apply IH; [done|exact Hr'|done|]. pose proof (need_le n r). unfold need in Hf. cbn [is_hash] in Hf.
        rewrite Hr, length_app in Hf. destruct k; [done|cbn in Hf; lia].
      * intros [dirty nn] [H1 H2]. cbn [fst snd] in *. destruct dirty; cbn.
        -- split; [by eauto with trie|done].
        -- rewrite H2 by done. split; [by eauto with trie|done].
    + eapply good_impl; [apply branch_good; try done; unfold need in Hf; lia|]. intros [d nn] [H1 H2]. cbn in *. by subst.
  - assert (inner (TFull ts)) as Ht by (subst key; by apply comes_to_cons in Hk as [?|?]).
    pose proof Ht as Ht'. apply inner_full_inv in Ht' as (Hlt & _ & _). subst key. pose proof (hexkey_head _ _ Hkey) as Hi.
    destruct (lookup_lt_is_Some_2 ts (Z.to_nat k0)) as [t Hti]; [lia|].
    pose proof (full_child ts k0 kr t Ht Hkey Hti) as Hr'.
    destruct (Forall2_lookup_r _ _ _ _ _ Hcs Hti) as (c & Hc & Hct).
    cbn [insert tinsert]. rewrite Hc. cbn [or_panic mbind outcome_bind]. rewrite in_child_alter.
    apply (good_app _ prefix [k0] kr). eapply good_bind.
    + apply IH; [exact Hct|exact Hr'|done|]. pose proof (need_le c kr). unfold need in Hf. cbn in Hf. lia.
    + intros [dirty nn] [H1 H2]. cbn [fst snd] in *. destruct dirty.
      * destruct (repr_set_child cs ts k0 _ _ Hcs H1) as (cs' & -> & Hcs'); [lia|]. cbn. split; [|done].
        rewrite (alter_insert_same _ _ _ _ Hti). by eauto with trie.
      * specialize (H2 eq_refl). cbn. rewrite (alter_same _ _ _ _ Hti H2). split; [by eauto with trie|done].
  - subst key. cbn [insert]. eapply good_bind; [eapply resolveHash_good; by econstructor|]. intros n [Hln Hn]. eapply good_bind.
    + apply IH; [done|done|done|]. rewrite loaded_need by done. unfold need in Hf. cbn [is_hash] in Hf. lia.
    + intros [dirty nn] [H1 H2]. cbn [fst snd] in *. destruct dirty; cbn; [done|]. by rewrite H2.
  - subst key. cbn [insert]. eapply good_bind; [eapply resolveHash_good; by apply repr_missing|]. intros n [Hln Hn]. eapply good_bind.
    + apply IH; [done|done|done|]. rewrite loaded_need by done. unfold need in Hf. cbn [is_hash] in Hf. lia.
    + intros [dirty nn] [H1 H2]. cbn [fst snd] in *. destruct dirty; cbn; [done|]. by rewrite H2.
Qed.

(** ** Deleting *)
Lemma child_pos_done cs : forall i pos, 0 <= i -> pos <> -1 ->
  child_pos cs i pos = if forallb is_nil cs then pos else -2.
Proof.
  induction cs as [|c cs IH]; intros i pos Hi Hp; [done|]. cbn [child_pos forallb]. destruct (is_nil c); cbn [andb].
  - apply IH; lia.
  - by rewrite (proj2 (Z.eqb_neq _ _)).
Qed.

Lemma present_none cs ts : Forall2 (repr false) cs ts -> forall z, forallb is_nil cs = bool_decide (present z ts = []).
Proof.
  induction 1 as [|c t cs ts Hc Hcs IH]; intros z; [done|]. cbn [forallb present]. rewrite (repr_is_nil false c t Hc).
  destruct t; cbn; [apply IH|done..].
Qed.

Lemma child_pos_present cs ts : Forall2 (repr false) cs ts -> forall i, 0 <= i ->
  child_pos cs i (-1) = match present i ts with [] => -1 | [(j, _)] => j | _ => -2 end.
Proof.
  induction 1 as [|c t cs ts Hc Hcs IH]; intros i Hi; [done|]. cbn [child_pos present]. rewrite (repr_is_nil false c t Hc).
  destruct t as [| | |]; [cbn; apply IH; lia|..]; cbn;
    rewrite child_pos_done, (present_none cs ts Hcs (i + 1)) by lia; destruct (present (i + 1) ts) as [|[]]; done.
Qed.

(** A node that may be the result of a change: not a hash. *)
Definition seen (n : node) : bool := negb (is_hash n).

Lemma repr_short_inv b n k t : seen n = true -> repr b n (TShort k t) -> exists nval f, n = shortNode k nval f /\ repr false nval t.
Proof. intros Hs H. remember (TShort k t) as x eqn:Ex. destruct H; try done. injection Ex as -> ->. eauto. Qed.

Lemma repr_other b n t : seen n = true -> repr b n t -> (forall k u, t <> TShort k u) -> forall k v f, n <> shortNode k v f.
Proof. intros Hs H Ht. destruct H; try done. by destruct (Ht k t). Qed.

Lemma short_cases t : (exists k u, t = TShort k u) \/ (forall k u, t <> TShort k u).
Proof. destruct t; [by right|by right|left; eauto|by right]. Qed.

Lemma resolve_good b n t prefix key : repr b n t ->
  good (fun n => seen n = true /\ repr b n t) prefix key (resolve dbnode cachegen n prefix).
Proof.
  intros Hn. destruct n as [| | |h| | | |]; cbn [resolve]; try (by split).
  eapply good_impl; [by apply resolveHash_good|]. intros n [Hl H]. by destruct n.
Qed.

Lemma reduce_present ts : reduce ts = match present 0 ts with [(i, c)] => lone i c | _ => TFull ts end.
Proof. apply reduce_cases. Qed.

Lemma present_Some ts i c : (i, c) ∈ present 0 ts -> 0 <= i /\ ts !! Z.to_nat i = Some c.
Proof. intros (n & -> & Hc & _)%present_elem. rewrite Z.add_0_l, Nat2Z.id. split; [lia|done]. Qed.

(** What is done with a full node one of whose children has changed. *)
Definition reduced (cs : list node) (prefix : list Z) : outcome MissingNodeError (bool * node) :=
  let pos := child_pos cs 0 (-1) in
  if 0 <=? pos then
    child ← or_panic (cs !! Z.to_nat pos);
    if negb (pos =? 16) then
      cnode ← resolve dbnode cachegen child prefix;
      match cnode with
      | shortNode ckey cval _ => Ret (true, shortNode (pos :: ckey) cval (newFlag cachegen))
      | _ => Ret (true, shortNode [pos] child (newFlag cachegen))
      end
    else Ret (true, shortNode [pos] child (newFlag cachegen))
  else Ret (true, fullNode cs (newFlag cachegen)).

Lemma reduced_good b cs ts prefix key : Forall2 (repr false) cs ts ->
  good (fun r => r.1 = true /\ seen r.2 = true /\ repr b r.2 (reduce ts)) prefix key (reduced cs prefix).
Proof.
  intros Hcs. unfold reduced. rewrite (child_pos_present cs ts Hcs 0) by lia. rewrite reduce_present.
  destruct (present 0 ts) as [|[i t] [|p ps]] eqn:E; [by split_and!; eauto with trie| |by split_and!; eauto with trie].
  assert ((i, t) ∈ present 0 ts) as Hin by (rewrite E; by apply list_elem_of_singleton).
  destruct (present_Some ts i t Hin) as [Hi Ht].
  rewrite (proj2 (Z.leb_le _ _)) by done. destruct (Forall2_lookup_r _ _ _ _ _ Hcs Ht) as (c & -> & Hc).
  cbn [or_panic mbind outcome_bind]. destruct (i =? 16) eqn:Hi16; cbn [negb].
  - cbn. split_and!; try done. unfold lone. rewrite Hi16. destruct t; by eauto with trie.
  - eapply good_bind; [by apply (resolve_good false c t)|]. intros n [Hs Hn]. destruct (short_cases t) as [(k & u & ->)|Hno].
    + destruct (repr_short_inv false n k u Hs Hn) as (nval & f & -> & Hu). cbn. split_and!; try done.
      rewrite Hi16. by eauto with trie.
    + pose proof (repr_other false n t Hs Hn Hno) as Hn'.
      assert (good (fun r => r.1 = true /\ seen r.2 = true /\ repr b r.2 (lone i t)) prefix key
        (Ret (true, shortNode [i] c (newFlag cachegen)))) as Hgoal.
      { cbn. split_and!; try done. unfold lone. destruct t; try (by eauto with trie). by destruct (Hno k t). }
      destruct n; try exact Hgoal. by destruct (Hn' Key n flags).
Qed.

Lemma delete_good fuel : forall b n t prefix key, repr b n t -> comes_to t key -> (need n key <= fuel)%nat ->
  good (fun r => repr b r.2 (tdelete t key) /\ (r.1 = false -> tdelete t key = t) /\ (r.1 = true -> seen r.2 = true)) prefix key
    (delete dbnode cachegen fuel n prefix key).
Proof.
  induction fuel as [|fuel IH]; intros b n t prefix key Hn Hk Hf; [unfold need in Hf; destruct (is_hash n); lia|].
  destruct Hn as [b|b w|b k n f t Hn Hfl|b cs f ts Hcs Hfl|b h load t Hh Hd Hl Hr|b h t Hp Hh Hd Ht]; cbn [delete].
  - cbn. split_and!; try done. eauto with trie.
  - cbn. split_and!; try done. eauto with trie.
  - destruct Hk as [[Ht Hk]|[[? _]|[(v & ? & _) _]]]; [|done|done]. cbn [tdelete].
    destruct (prefixLen_cases key k) as [[Hm [r Hr]]|[Hm _]].
    + rewrite Hm, Nat.ltb_irrefl. destruct (length k =? length key)%nat eqn:Hlen.
      { cbn. split_and!; try done. eauto with trie. }
      rewrite Hr in Hk. destruct (short_child k t r Ht Hk) as [Hne Hr'].
      assert (is_full t = true) as Hfull.
      { remember (TShort k t) as x eqn:Ex. destruct Ht as [k' v Hk' Hv|k' t' Hk' Hne' Hf' Ht|]; [..|done].
        - injection Ex as <- <-. destruct r; [rewrite Hr, app_nil_r, Nat.eqb_refl in Hlen; done|].
          destruct Hr' as [[Hi _]|[[? _]|[_ ?]]]; [inversion Hi|done|done].
        - by injection Ex as -> ->. }
      rewrite Hr, drop_app_length, take_app_length. apply good_app. eapply good_bind.
      * apply IH; [done|exact Hr'|]. pose proof (need_le n r). unfold need in Hf. cbn [is_hash] in Hf.
        rewrite Hr, length_app in Hf. destruct k; [done|cbn in Hf; lia].
      * intros [dirty child] (H1 & H2 & H3). cbn [fst snd] in *. destruct dirty; cbn [good fst snd].
        -- split_and!; [|done|by destruct child]. specialize (H3 eq_refl). destruct (short_cases (tdelete t r)) as [(k' & u & Hs)|Hno].
           ++ rewrite Hs in *. destruct (repr_short_inv false child k' u H3 H1) as (nval & f' & -> & Hu). by eauto with trie.
           ++ pose proof (repr_other false child _ H3 H1 Hno) as Hn'.
              assert (merge_short k (tdelete t r) = TShort k (tdelete t r)) as ->.
              { destruct (tdelete t r); try done. by destruct (Hno k0 t0). }
              destruct child; try (by eauto with trie). by destruct (Hn' Key child flags).
        -- rewrite H2 by done. destruct t; try done. cbn. split_and!; try done. by eauto with trie.
    + rewrite (proj2 (Nat.ltb_lt _ _)) by done. cbn. split_and!; try done. by eauto with trie.
  - destruct Hk as [[Ht Hk]|[[? _]|[(v & ? & _) _]]]; [|done|done].
    destruct key as [|i r]; [by apply hexkey_nil in Hk|]. cbn [tdelete].
    pose proof Ht as Ht'. apply inner_full_inv in Ht' as (Hlt & _ & Hp). pose proof (hexkey_head _ _ Hk) as Hi.
    destruct (lookup_lt_is_Some_2 ts (Z.to_nat i)) as [t Hti]; [lia|].
    pose proof (full_child ts i r t Ht Hk Hti) as Hr'.
    destruct (Forall2_lookup_r _ _ _ _ _ Hcs Hti) as (c & Hc & Hct).
    rewrite Hc. cbn [or_panic mbind outcome_bind]. rewrite in_child_alter. eapply good_bind.
    + apply (good_app _ prefix [i] r). apply IH; [exact Hct|exact Hr'|]. pose proof (need_le c r). unfold need in Hf. cbn in Hf. lia.
    + intros [dirty nn] (H1 & H2 & H3). cbn [fst snd] in *. destruct dirty.
      * destruct (repr_set_child cs ts i _ _ Hcs H1) as (cs' & -> & Hcs'); [lia|]. cbn [or_panic mbind outcome_bind].
        rewrite (alter_insert_same _ _ _ _ Hti).
        eapply good_impl; [exact (reduced_good b cs' _ prefix (i :: r) Hcs')|]. intros [d n] (Hd & Hs & Hn). cbn in *. by subst.
      * specialize (H2 eq_refl). rewrite (alter_same _ _ _ _ Hti H2).
        assert (reduce ts = TFull ts) as -> by (rewrite reduce_cases; by destruct (present 0 ts) as [|[] [|]]; [|cbn in Hp; lia|]).
        cbn. split_and!; try done. by eauto with trie.
  - eapply good_bind; [eapply resolveHash_good; by econstructor|]. intros n [Hln Hn]. eapply good_bind.
    + apply IH; [done|done|]. rewrite loaded_need by done. unfold need in Hf. cbn [is_hash] in Hf. lia.
    + intros [dirty nn] (H1 & H2 & H3). cbn [fst snd] in *. destruct dirty; cbn; [done|]. by rewrite H2.
  - eapply good_bind; [eapply resolveHash_good; by apply repr_missing|]. intros n [Hln Hn]. eapply good_bind.
    + apply IH; [done|done|]. rewrite loaded_need by done. unfold need in Hf. cbn [is_hash] in Hf. lia.
    + intros [dirty nn] (H1 & H2 & H3). cbn [fst snd] in *. destruct dirty; cbn; [done|]. by rewrite H2.
Qed.
End Repr.
