(* ===== verification/TrieHasher.v ===== *)
(** * Hashing and committing tries

    dvm/ethereum/trie/hasher.go and the rest of trie.go: a node is replaced by its hash
    when its encoding is 32 bytes or more, and with a database at hand it is stored
    there.  [None] is a panic; the source's errors are always nil here. *)
From Stdlib Require Import ZArith Lia.
From S2P Require Import Prelude Word Keccak TrieEncoding TrieNode TrieDatabase Trie.
Import Big.
Open Scope Z_scope.

Definition is_some {A} (x : option A) : bool := match x with Some _ => true | None => false end.

Section Hasher.
Context {ED : EthDB} {MR : MapRange}.

(** [LeafCallback]: it may change the database; its error is ignored. *)
Definition LeafCallback : Type := list Z -> list Z -> Database ED -> option (Database ED).

Record hasher := { hgen : Z; hlimit : Z; onleaf : option LeafCallback }.

(** The hash state is reset before every use. *)
Definition makeHashNode (data : list Z) : option (list Z) :=
  d ← Keccak.Write (Keccak.Reset NewKeccak256) data; '(_, n) ← Keccak.Read d (Keccak.Size d); Some n.

(** The leaves a stored node has. *)
Definition leaves (n : node) : list (list Z) :=
  match n with
  | shortNode _ (valueNode v) _ => [v]
  | fullNode cs _ => omap (fun c => match c with valueNode v => Some v | _ => None end) (take 16 cs)
  | _ => []
  end.

Definition store (h : hasher) (n : node) (db : option (Database ED)) (force : bool) : option (node * option (Database ED)) :=
  match n with
  | nilNode | hashNode _ => Some (n, db)
  | _ =>
      data ← match WriteNode n with Ret d => Some d | _ => None end;
      if (length data <? 32)%nat && negb force then Some (n, db)
      else
        '(cached, _) ← cache n;
        hash ← match cached with Some hash => Some hash | None => makeHashNode data end;
        match db with
        | None => Some (hashNode hash, None)
        | Some db =>
            let key := BytesToHash hash in
            _ ← Lock db;
            db ← TrieDatabase.insert db key data n;
            db ← match h.(onleaf) with
                 | None => Some db
                 | Some f => foldl (fun db leaf => db ← db; f leaf key db) (Some db) (leaves n)
                 end;
            Some (hashNode hash, Some db)
        end
  end.

Definition set_cached (n hashed : node) (clean : bool) : node :=
  let h := match hashed with hashNode h => Some h | _ => None end in
  let set f := {| fhash := h; gen := f.(gen); dirty := if clean then false else f.(dirty) |} in
  match n with
  | shortNode k v f => shortNode k v (set f)
  | fullNode cs f => fullNode cs (set f)
  | _ => n
  end.

(** The children that are there, hashed from left to right, the last one left as it is. *)
Definition hash_each (hash : node -> option (Database ED) -> option (node * node * option (Database ED))) :
    list node -> nat -> option (Database ED) -> option (list node * list node * option (Database ED)) :=
  fix go cs n db :=
    match cs, n with
    | c :: cs, S n =>
        '(h, c, db) ← (match c with nilNode => Some (nilNode, nilNode, db) | _ => hash c db end :
                         option (node * node * option (Database ED)));
        '(hs, cs, db) ← (go cs n db : option (list node * list node * option (Database ED)));
        Some (h :: hs, c :: cs, db)
    | cs, _ => Some (cs, cs, db)
    end.

(** The node collapsed, with hashes for children, and the node with the hashes cached. *)
Fixpoint hash (h : hasher) (n : node) (db : option (Database ED)) (force : bool) {struct n} :
    option (node * node * option (Database ED)) :=
  let child c db := hash h c db false in
  let hashChildren :=
    match n with
    | shortNode k v f =>
        key ← hexToCompact k;
        match v with
        | valueNode _ => Some (shortNode key v f, n, db)
        | _ => '(v, v', db) ← child v db; Some (shortNode key v f, shortNode k v' f, db)
        end
    | fullNode cs f =>
        '(cs, cs', db) ← hash_each child cs 16 db; Some (fullNode cs f, fullNode cs' f, db)
    | _ => Some (n, n, db)
    end in
  let walk :=
    '(collapsed, cached, db) ← hashChildren;
    '(hashed, db) ← store h collapsed db force;
    Some (hashed, set_cached cached hashed (is_some db), db) in
  '(known, dirty) ← cache n;
  match known with
  | None => walk
  | Some hs =>
      match db with
      | None => Some (hashNode hs, n, db)
      | Some _ =>
          unload ← canUnload n h.(hgen) h.(hlimit);
          if unload : bool then Some (hashNode hs, hashNode hs, db)
          else if negb dirty then Some (hashNode hs, n, db) else walk
      end
  end.

Definition hashChildren (h : hasher) (n : node) (db : option (Database ED)) : option (node * node * option (Database ED)) :=
  match n with
  | shortNode k v f =>
      key ← hexToCompact k;
      match v with
      | valueNode _ => Some (shortNode key v f, n, db)
      | _ => '(v, v', db) ← hash h v db false; Some (shortNode key v f, shortNode k v' f, db)
      end
  | fullNode cs f =>
      '(cs, cs', db) ← hash_each (fun c db => hash h c db false) cs 16 db; Some (fullNode cs f, fullNode cs' f, db)
  | _ => Some (n, n, db)
  end.

(** ** trie.go *)
Definition hashRoot (t : Trie) (db : option (Database ED)) (onleaf : option LeafCallback) :
    option (node * node * option (Database ED)) :=
  match t.(root) with
  | nilNode => Some (hashNode emptyRoot, nilNode, db)
  | n => hash {| hgen := t.(cachegen); hlimit := t.(cachelimit); onleaf := onleaf |} n db true
  end.

(** Something other than a hash is a failed type assertion. *)
Definition hash_of (n : node) : option (list Z) := match n with hashNode h => Some (BytesToHash h) | _ => None end.

Definition Hash (t : Trie) : option (list Z * Trie) :=
  '(hashed, cached, _) ← hashRoot t None None; h ← hash_of hashed; Some (h, set_root t cached).

Definition Root (t : Trie) : option (list Z * Trie) := Hash t.

Definition Commit (db : Database ED) (t : Trie) (onleaf : option LeafCallback) : option (list Z * Database ED * Trie) :=
  '(hashed, cached, db) ← hashRoot t (Some db) onleaf;
  db ← db;
  h ← hash_of hashed;
  Some (h, db, {| root := cached; originalRoot := t.(originalRoot); cachegen := u16 (t.(cachegen) + 1);
                  cachelimit := t.(cachelimit) |}).
End Hasher.
Arguments hasher : clear implicits.
Arguments LeafCallback : clear implicits.
