(* ===== verification/TrieCommit.v ===== *)
(** * Hashing and committing keep the trie

    The invariant of the database, what of a tree is stored in it, and that hashing
    computes the hash of the tree and committing stores it; the trie stands for the
    same tree before and after, loaded from there or not.

    The hash is the sponge of Keccak.v.  That different encodings have different hashes
    is asked for those of a set [U], of all that is ever stored. *)
From Stdlib Require Import ZArith Lia.
From S2P Require Import Prelude Word Rlp RlpStream RlpSpec RlpDecode Keccak KeccakSpec.
From S2P Require Import TrieEncoding TrieTree TrieMap TrieNode TrieDatabase Trie TrieRefines TrieHasher.
Import Big.
Open Scope Z_scope.
Close Scope lanes_scope.

Lemma BytesToHash_id h : length h = 32%nat -> BytesToHash h = h.
Proof. intros H. unfold BytesToHash, hashLen. rewrite H. cbn [Nat.ltb Nat.leb]. rewrite H. done. Qed.

Lemma tree_hash_length t : length (tree_hash t) = 32%nat.
Proof. apply sponge_length. Qed.

Lemma tree_hash_id t : BytesToHash (tree_hash t) = tree_hash t.
Proof. apply BytesToHash_id, tree_hash_length. Qed.

(** The hash of a node to be is that of Keccak-256. *)
Lemma digest_bind {A B} (w : option A) (f : A -> option (A * B)) d d' out : w = Some d -> f d = Some (d', out) ->
  (d ← w; '(_, n) ← f d; Some n) = Some out.
Proof. intros -> H. cbn [mbind option_bind]. by rewrite H. Qed.

Lemma makeHashNode_sponge data : makeHashNode data = Some (sponge data).
Proof.
  destruct (Read_after data 32 (le_n 32)) as [d H]. rewrite take_ge in H by (by rewrite sponge_length).
  apply (digest_bind _ (fun d => Keccak.Read d (Keccak.Size d)) (after data) d).
  - rewrite Reset_after. apply (Write_after []).
  - by rewrite Size_after.
Qed.

(** ** Induction on what a node stands for *)
Section ReprInd.
Context (dbnode : list Z -> Z -> option node) (partial : bool).
Context (flag_ok : bool -> nodeFlag -> tree -> Prop) (hash_ok : bool -> list Z -> tree -> Prop).
Abbreviation repr' := (repr dbnode partial flag_ok hash_ok).
Context (P : bool -> node -> tree -> Prop).
Context (Hnil : forall r, P r nilNode TNil) (Hval : forall r v, P r (valueNode v) (TVal v))
  (Hshort : forall r k n f t, repr' false n t -> P false n t -> flag_ok r f (TShort k t) -> P r (shortNode k n f) (TShort k t))
  (Hfull : forall r cs f ts, Forall2 (fun n t => repr' false n t /\ P false n t) cs ts -> flag_ok r f (TFull ts) -> P r (fullNode cs f) (TFull ts))
  (Hhash : forall r h load t, hash_ok r h t -> (forall g, dbnode (BytesToHash h) g = Some (load g)) ->
     (forall g, is_loaded (load g) = true) -> (forall g, repr' r (load g) t) -> (forall g, P r (load g) t) -> P r (hashNode h) t)
  (Hmiss : forall r h t, partial = true -> hash_ok r h t -> (forall g, dbnode (BytesToHash h) g = Some nilNode) -> inner t -> P r (hashNode h) t).

Fixpoint repr_nested_ind (r : bool) (n : node) (t : tree) (H : repr' r n t) {struct H} : P r n t.
Proof.
  destruct H as [r|r v|r k n f t H Hf|r cs f ts H Hf|r h load t Hh Hd Hl H|r h t Hp Hh Hd Ht].
  - apply Hnil.
  - apply Hval.
  - apply Hshort; [exact H|by apply repr_nested_ind|exact Hf].
  - apply Hfull; [|exact Hf]. clear Hf. induction H as [|c u cs ts Hc Hcs IH]; constructor; [|exact IH].
    split; [exact Hc|by apply repr_nested_ind].
  - apply (Hhash _ _ load); [exact Hh|exact Hd|exact Hl|exact H|]. intros g. by apply repr_nested_ind.
  - by apply Hmiss.
Defined.
End ReprInd.

Section Store.
Context {ED : EthDB} {MR : MapRange}.
Context (U : list Z -> Prop).

(** Hashes in [U] tell the encodings apart, and none is the zero hash. *)
Definition collision_free : Prop :=
  (forall a b, U a -> U b -> sponge a = sponge b -> a = b) /\ (forall a, U a -> sponge a <> zeroHash).

(** ** The database *)

(** An entry is the encoding its hash belongs to. *)
Definition entry (h : list Z) (c : cachedNode) (e : list Z) : Prop :=
  h = sponge e /\ U e /\ cached_rlp c = Some e /\ is_Some (childs c) /\
  forall g, cached_obj c h g = mustDecodeNode (Some h) e g.

Definition sound (db : Database ED) : Prop :=
  (forall h c, db.(nodes) !! h = Some c -> h <> zeroHash -> exists e, entry h c e) /\
  (forall h e, length h = 32%nat -> TrieDatabase.Get db.(diskdb) h = Some e -> h = sponge e /\ U e) /\
  (db.(oldest) = zeroHash \/ is_Some (db.(nodes) !! db.(newest))) /\
  db.(readers) = 0%nat.

(** What was found stays. *)
Definition ext (db db' : Database ED) : Prop := forall h g n, length h = 32%nat ->
  Database_node db h g = Some n -> is_nil n = false -> Database_node db' h g = Some n.

Lemma ext_refl db : ext db db.
Proof. by intros h g n. Qed.

Lemma ext_trans a b c : ext a b -> ext b c -> ext a c.
Proof. intros H1 H2 h g n Hl Ha Hn. apply H2; [done|by apply H1|done]. Qed.

(** ** Stored trees *)
Definition found (db : Database ED) (t : tree) : Prop :=
  forall g, Database_node db (tree_hash t) g = Some (tree_node (Some (tree_hash t)) g t).

Fixpoint below (db : Database ED) (t : tree) : Prop :=
  let kept c := (big c = true -> found db c) /\ below db c in
  match t with
  | TNil | TVal _ => True
  | TShort _ c => kept c
  | TFull cs => foldr (fun c P => kept c /\ P) True cs
  end.

Definition kept (db : Database ED) (c : tree) : Prop := (big c = true -> found db c) /\ below db c.
Definition stored (db : Database ED) (t : tree) : Prop := found db t /\ below db t.

Lemma below_full db cs : below db (TFull cs) <-> Forall (kept db) cs.
Proof.
  change (below db (TFull cs)) with (foldr (fun c P => kept db c /\ P) True cs).
  induction cs as [|c cs IH]; cbn [foldr]; [by split|]. by rewrite IH, Forall_cons.
Qed.

Lemma stored_kept db t : stored db t -> kept db t.
Proof. by intros [H1 H2]. Qed.

Lemma tree_node_not_nil t h g : inner t -> is_nil (tree_node h g t) = false.
Proof. intros Ht. pose proof (tree_node_loaded t h g Ht). by destruct (tree_node h g t). Qed.

Lemma found_ext db db' t : ext db db' -> inner t -> found db t -> found db' t.
Proof. intros He Ht Hf g. apply He; [apply tree_hash_length|done|by apply tree_node_not_nil]. Qed.

Lemma kept_value db c : value_child c -> kept db c.
Proof. by intros [->|(v & -> & _)]. Qed.

Lemma below_ext db db' t : ext db db' -> inner t -> below db t -> below db' t.
Proof.
  intros He. induction 1 as [k v Hk Hv|k t Hk Hne Hf Ht IH|cs last Hl Hcs Hlast Hp] using inner_nested_ind; intros Hb.
  - done.
  - destruct Hb as [Hb1 Hb2]. split; [|by apply IH]. intros H. by apply (found_ext db), Hb1.
  - rewrite below_full in *. apply Forall_app in Hb as [Hb _]. apply Forall_app. split.
    + apply Forall_lookup. intros i c Hc. rewrite Forall_lookup in Hcs, Hb. specialize (Hb i c Hc).
      destruct (Hcs i c Hc) as [->|[Hin IH]]; [done|]. destruct Hb as [Hb1 Hb2]. split; [|by apply IH].
      intros H. by apply (found_ext db), Hb1.
    + constructor; [|done]. by apply kept_value.
Qed.

Lemma kept_ext db db' c : ext db db' -> inner c -> kept db c -> kept db' c.
Proof. intros He Hc [H1 H2]. split; [intros H; apply (found_ext db); auto|by apply (below_ext db)]. Qed.

Lemma stored_ext db db' t : ext db db' -> inner t -> stored db t -> stored db' t.
Proof. intros He Ht [H1 H2]. split; [by apply (found_ext db)|by apply (below_ext db)]. Qed.

(** ** Flags and hashes *)
Definition flag_ok (db : Database ED) (b : bool) (f : nodeFlag) (t : tree) : Prop :=
  (forall h, f.(fhash) = Some h -> h = tree_hash t /\ (b = false -> big t = true) /\ (f.(dirty) = false -> stored db t)) /\
  (f.(fhash) = None -> f.(dirty) = false -> b = false /\ big t = false).
Definition hash_ok (db : Database ED) (b : bool) (h : list Z) (t : tree) : Prop :=
  h = tree_hash t /\ (b = false -> big t = true) /\ stored db t.

Definition stands (db : Database ED) : bool -> node -> tree -> Prop :=
  repr (Database_node db) false (flag_ok db) (hash_ok db).

Lemma flag_ok_new db g b t : flag_ok db b (newFlag g) t.
Proof. by split. Qed.

Lemma flag_ok_gen db g b f t : flag_ok db b f t -> flag_ok db b (set_gen f g) t.
Proof. done. Qed.

Lemma flag_ok_ext db db' b f t : ext db db' -> inner t -> flag_ok db b f t -> flag_ok db' b f t.
Proof.
  intros He Ht [H1 H2]. split; [|done]. intros h Hh. destruct (H1 h Hh) as (-> & Hb & Hs). split; [done|]. split; [done|].
  intros Hd. by apply (stored_ext db), Hs.
Qed.

Lemma hash_ok_ext db db' b h t : ext db db' -> inner t -> hash_ok db b h t -> hash_ok db' b h t.
Proof. intros He Ht (-> & Hb & Hs). split; [done|]. split; [done|]. by apply (stored_ext db). Qed.

(** A node that stands for a tree in a place. *)
Definition place (t : tree) : Prop := value_child t \/ inner t.

Lemma place_short k t : inner (TShort k t) -> place t.
Proof. intros [_ [[_ (v & -> & Hv)]|(_ & _ & H)]]%inner_short_inv; [left; right; by exists v|by right]. Qed.

Lemma place_full ts : inner (TFull ts) -> Forall place ts.
Proof.
  intros (Hl & Hcs & _)%inner_full_inv. apply Forall_lookup. intros i c Hc. destruct (Hcs i c Hc) as [[_ [->|H]]|[_ H]].
  - left. by left.
  - by right.
  - by left.
Qed.

Lemma repr_nil_inv dbnode partial fo ho b n : repr dbnode partial fo ho b n TNil -> n = nilNode.
Proof.
  remember TNil as t eqn:Et. destruct 1 as [| | | |r h load t _ _ Hl Hr|r h t _ _ _ Ht]; try done.
  - by destruct (repr_loaded _ _ _ _ _ _ _ (Hr 0) (Hl 0)).
  - subst t. inversion Ht.
Qed.

Lemma repr_value_inv dbnode partial fo ho b n v : repr dbnode partial fo ho b n (TVal v) -> n = valueNode v.
Proof.
  remember (TVal v) as t eqn:Et. destruct 1 as [| | | |r h load t _ _ Hl Hr|r h t _ _ _ Ht]; try done.
  - by injection Et as ->.
  - subst t. specialize (Hl 0). specialize (Hr 0). remember (TVal v) as t eqn:Et. by destruct Hr.
  - subst t. inversion Ht.
Qed.

Lemma loaded_inner dbnode partial fo ho b n t : repr dbnode partial fo ho b n t -> is_loaded n = true -> place t -> inner t.
Proof. by destruct 1; intros Hl [[?|(? & ? & _)]|?]. Qed.

Lemma stands_ext db db' b n t : ext db db' -> place t -> stands db b n t -> stands db' b n t.
Proof.
  intros He Hp H. revert Hp. unfold stands in *.
  induction H as [r|r v|r k n f t H IH Hf|r cs f ts H Hf|r h load t Hh Hd Hl H IH|r h t Hp' Hh Hd Ht] using repr_nested_ind; intros Hp.
  - constructor.
  - constructor.
  - destruct Hp as [[?|(? & ? & _)]|Hp]; [done|done|]. constructor; [apply IH; by eapply place_short|by apply (flag_ok_ext db)].
  - destruct Hp as [[?|(? & ? & _)]|Hp]; [done|done|]. constructor; [|by apply (flag_ok_ext db)].
    pose proof (place_full _ Hp) as Hps. clear Hf Hp. induction H as [|c u cs ts [_ Hc] _ IH]; constructor.
    + apply Hc. by apply Forall_cons in Hps as [? _].
    + apply IH. by apply Forall_cons in Hps as [_ ?].
  - assert (inner t) as Ht.
    { by apply (loaded_inner _ _ _ _ _ _ _ (H 0)). }
    apply (repr_hash _ _ _ _ _ _ load); [by apply (hash_ok_ext db)| |done|auto].
    intros g. apply He; [|apply Hd|specialize (Hl g); by destruct (load g)].
    destruct Hh as (-> & _). by rewrite tree_hash_id, tree_hash_length.
  - done.
Qed.

(** A stored tree is loaded. *)
Lemma tree_node_stands db t : inner t -> below db t -> forall b h g,
  match h with Some h => h = tree_hash t /\ (b = false -> big t = true) /\ found db t | None => b = false /\ big t = false end ->
  stands db b (tree_node h g t) t.
Proof.
  intros Ht. unfold stands.
  assert (forall c g, value_child c \/ (inner c /\ (kept db c -> forall b h g, match h with Some h => h = tree_hash c /\ (b = false -> big c = true) /\ found db c
        | None => b = false /\ big c = false end -> stands db b (tree_node h g c) c)) -> kept db c -> stands db false (node_ref g c) c) as Href.
  { intros c g [[->|(v & -> & _)]|[Hc IH]] Hk; [constructor|constructor|]. pose proof Hk as [Hk1 Hk2].
      unfold node_ref. destruct (big c) eqn:Hb.
    - apply (repr_hash _ _ _ _ _ _ (fun g => tree_node (Some (tree_hash c)) g c)).
      + split; [done|]. split; [done|]. by split; auto.
      + intros g'. rewrite tree_hash_id. by apply Hk1.
      + intros g'. pose proof (tree_node_loaded c (Some (tree_hash c)) g' Hc). by destruct (tree_node _ g' c).
      + intros g'. apply IH; [done|]. auto.
    - by apply IH. }
  assert (forall t b h g, below db t -> match h with Some h => h = tree_hash t /\ (b = false -> big t = true) /\ found db t | None => b = false /\ big t = false end ->
    flag_ok db b (decoded g h) t) as Hflag.
  { intros u b [h|] g Hb; cbn; [|by split]. intros (-> & H1 & H2). split; [|done]. intros h [= <-]. split; [done|]. split; [done|].
    intros _. by split. }
  induction Ht as [k v Hk Hv|k t Hk Hne Hf Ht IH|cs last Hl Hcs Hlast Hp] using inner_nested_ind; intros Hb b h g Hh.
  - constructor; [constructor|by apply Hflag].
  - change (tree_node h g (TShort k t)) with (shortNode k (node_ref g t) (decoded g h)). constructor; [|by apply Hflag].
    apply Href; [right; split; [done|]|exact Hb]. intros [_ Hb']. by apply IH.
  - change (tree_node h g (TFull (cs ++ [last]))) with (fullNode (map (node_ref g) (cs ++ [last])) (decoded g h)).
    constructor; [|by apply Hflag]. apply below_full in Hb. apply Forall2_fmap_l, Forall_Forall2_diag.
    apply Forall_app in Hb as [Hb Hbl]. apply Forall_app. split.
    + apply Forall_lookup. intros i c Hc. rewrite Forall_lookup in Hcs, Hb. apply Href; [|by eapply Hb].
      destruct (Hcs i c Hc) as [->|[Hin IH]]; [left; by left|right; split; [done|]]. intros [_ Hb']. by apply IH.
    + constructor; [|done]. apply Forall_cons in Hbl as [Hbl _]. apply Href; [by left|done].
Qed.

(** ** Storing a node *)
Definition same_nodes (m m' : gmap (list Z) cachedNode) : Prop := forall h, cnode <$> m !! h = cnode <$> m' !! h.

Lemma entry_cnode h c c' e : cnode c = cnode c' -> entry h c e -> entry h c' e.
Proof.
  intros Hc (H1 & H2 & H3 & H4 & H5). unfold entry, cached_rlp, cached_obj, childs in *. rewrite Hc in H3, H4, H5.
  split_and!; try done. destruct (cnode c'); try done; destruct H4 as [l Hl]; by eauto;
  apply bind_Some in Hl as (x & Hx & _); rewrite Hx; cbn; eauto.
Qed.

Lemma Database_node_same db db' h g : same_nodes db.(nodes) db'.(nodes) -> db.(diskdb) = db'.(diskdb) ->
  Database_node db h g = Database_node db' h g.
Proof.
  intros Hs Hd. unfold Database_node. specialize (Hs h). rewrite Hd.
  destruct (nodes db !! h) as [c|], (nodes db' !! h) as [c'|]; cbn in Hs; try done.
  injection Hs as Hc. unfold cached_obj. by rewrite Hc.
Qed.

Lemma parents_same kids : forall m, same_nodes m (foldl (fun ns child => alter (set_parents (Z.add 1)) child ns) m kids).
Proof.
  induction kids as [|k kids IH]; intros m h; [done|]. cbn [foldl]. rewrite <- IH.
  destruct (decide (h = k)) as [->|Hne]; [rewrite lookup_alter_eq|by rewrite lookup_alter_ne].
  by destruct (m !! k).
Qed.

Lemma gather_ok t : inner t -> is_Some (gatherChildren (raw_of t)).
Proof.
  assert (forall c, value_child c \/ (inner c /\ is_Some (gatherChildren (raw_of c))) -> is_Some (gatherChildren (raw_ref c))) as Href.
  { intros c Hc. unfold raw_ref. destruct (big c); [by eexists|]. destruct Hc as [[->|(v & -> & _)]|[_ H]]; [by eexists|by eexists|done]. }
  induction 1 as [k v Hk Hv|k t Hk Hne Hf Ht IH|cs last Hl Hcs Hlast Hp] using inner_nested_ind.
  - by eexists.
  - apply (Href t). auto.
  - change (raw_of (TFull (cs ++ [last]))) with (rawFullNode (map raw_ref (cs ++ [last]))). cbn [gatherChildren].
    assert (Forall (fun c => is_Some (gatherChildren (raw_ref c))) (cs ++ [last])) as H.
    { apply Forall_app. split; [|constructor; [apply Href; by left|done]].
      eapply Forall_impl; [exact Hcs|]. intros c [->|[Hc H]]; apply Href; [left; by left|by right]. }
    generalize 16%nat. revert H. generalize (cs ++ [last]). induction 1 as [|c l [x Hx] _ IH]; intros [|n]; try by eexists.
    cbn [map gather]. rewrite Hx. cbn [mbind option_bind]. destruct (IH n) as [y Hy]. rewrite Hy. by eexists.
Qed.

Lemma raw_of_not_raw t : inner t -> match raw_of t with rawNode _ => False | _ => True end.
Proof. by destruct 1. Qed.

Lemma new_entry t c : inner t -> wf t -> U (encoding t) -> cnode c = raw_of t -> entry (tree_hash t) c (encoding t).
Proof.
  intros Ht Hwf HU Hc. pose proof (raw_of_not_raw t Ht) as Hr. split; [done|]. split; [done|].
  destruct (node_encoding (raw_of t) t Ht Hwf eq_refl) as [_ He]. destruct (gather_ok t Ht) as [kids Hk].
  unfold cached_rlp, childs, cached_obj. rewrite Hc. split_and!.
  - destruct (raw_of t); try done; by rewrite He.
  - destruct (raw_of t); try done; rewrite Hk; by eexists.
  - intros g. rewrite mustDecodeNode_ok by done. rewrite <- (expandNode_ok t Ht). by destruct (raw_of t).
Qed.

Lemma insert_sound db n t : collision_free -> sound db -> inner t -> wf t -> U (encoding t) -> simplifyNode n = Some (raw_of t) ->
  exists db', TrieDatabase.insert db (tree_hash t) (encoding t) n = Some db' /\ sound db' /\ ext db db' /\ found db' t /\
    is_Some (db'.(nodes) !! tree_hash t).
Proof.
  intros [U_inj U_nonzero] (Hent & Hdisk & Hlist & Hrd) Ht Hwf HU Hn. unfold TrieDatabase.insert.
  assert (tree_hash t <> zeroHash) as Hnz by by apply U_nonzero.
  destruct (nodes db !! tree_hash t) as [c|] eqn:Ec.
  - exists db. split; [done|]. split; [done|]. split; [apply ext_refl|]. split; [|by eexists]. intros g.
    destruct (Hent _ _ Ec Hnz) as (e & He & HUe & _ & _ & Hobj). apply U_inj in He; [|done|done]. subst e.
    unfold Database_node. rewrite Ec, Hobj. by apply mustDecodeNode_ok.
  - rewrite Hn. cbn [mbind option_bind]. set (entry0 := {| cnode := raw_of t; csize := _; parents := 0; children := ∅; flushPrev := _; flushNext := _ |}).
    pose proof (new_entry t entry0 Ht Hwf HU eq_refl) as Hnew. destruct Hnew as (_ & _ & Hrlp & [kids Hkids] & Hobj).
    assert (entry (tree_hash t) entry0 (encoding t)) as Hnew by by apply new_entry.
    rewrite Hkids. cbn [mbind option_bind]. set (ns := foldl _ _ kids).
    assert (same_nodes db.(nodes) ns) as Hns by apply parents_same.
    assert (forall m o nw size, same_nodes (<[tree_hash t := entry0]> ns) m -> nw = tree_hash t -> is_Some (m !! tree_hash t) ->
      let db' := set_nodes db m o nw size in sound db' /\ ext db db' /\ found db' t /\ is_Some (db'.(nodes) !! tree_hash t)) as Hfin.
    { intros m o nw size Hm -> Hin. cbv zeta.
      assert (found (set_nodes db m o (tree_hash t) size) t) as Hfound.
      { intros g. unfold Database_node. cbn [set_nodes nodes]. pose proof (Hm (tree_hash t)) as Hmt. rewrite lookup_insert_eq in Hmt.
        destruct (m !! tree_hash t) as [c|]; [|done]. injection Hmt as Hmt.
        assert (cached_obj c (tree_hash t) g = cached_obj entry0 (tree_hash t) g) as -> by (unfold cached_obj; by rewrite <- Hmt).
        rewrite Hobj. by apply mustDecodeNode_ok. }
      split; [|split; [|split]]; try done.
      - split; [|split; [|split]]; cbn [set_nodes nodes diskdb oldest newest readers]; [|done|by right|done].
        intros h c Hc Hz. specialize (Hm h). rewrite Hc in Hm. destruct (decide (h = tree_hash t)) as [->|Hne].
        + rewrite lookup_insert_eq in Hm. injection Hm as Hm. exists (encoding t). by apply (entry_cnode _ entry0).
        + rewrite lookup_insert_ne in Hm by congruence. rewrite <- Hns in Hm. destruct (nodes db !! h) as [c0|] eqn:E; [|done].
          injection Hm as Hm. destruct (Hent h c0 E Hz) as [e He]. exists e. by apply (entry_cnode _ c0).
      - intros h g nd Hl Hd Hnn. destruct (decide (h = tree_hash t)) as [->|Hne].
        + rewrite Hfound. unfold Database_node in Hd. rewrite Ec in Hd.
          destruct (TrieDatabase.Get (diskdb db) (tree_hash t)) as [e|] eqn:Eg; [|injection Hd as <-; done].
          destruct (Hdisk _ _ Hl Eg) as [He HUe]. apply U_inj in He; [|done|done]. subst e.
          rewrite mustDecodeNode_ok in Hd by done. exact Hd.
        + rewrite <- Hd. unfold Database_node. cbn [set_nodes nodes diskdb]. specialize (Hm h).
          rewrite lookup_insert_ne in Hm by congruence. rewrite <- Hns in Hm.
          destruct (nodes db !! h) as [c0|], (m !! h) as [c1|]; cbn in Hm; try done.
          injection Hm as Hm. unfold cached_obj. by rewrite Hm. }
    case_decide as Ho.
    + eexists. split; [reflexivity|]. apply Hfin; [done|done|]. rewrite lookup_insert_eq. by eexists.
    + assert (is_Some (<[tree_hash t := entry0]> ns !! newest db)) as [last Hlast].
      { destruct Hlist as [?|[c Hc]]; [done|]. destruct (decide (newest db = tree_hash t)) as [->|Hne]; [rewrite lookup_insert_eq; by eexists|].
        rewrite lookup_insert_ne by congruence. specialize (Hns (newest db)). rewrite Hc in Hns. destruct (ns !! newest db); [by eexists|done]. }
      rewrite Hlast. cbn [mbind option_bind]. eexists. split; [reflexivity|]. apply Hfin; [|done|].
      * intros h. destruct (decide (h = newest db)) as [->|Hne]; [by rewrite Hlast, lookup_insert_eq|by rewrite (lookup_insert_ne _ (newest db)) by congruence].
      * destruct (decide (newest db = tree_hash t)) as [->|Hne]; [rewrite lookup_insert_eq; by eexists|].
        rewrite lookup_insert_ne, lookup_insert_eq by congruence. by eexists.
Qed.

(** A callback leaves the nodes alone. *)
Definition leaf_ok (f : option (LeafCallback ED)) : Prop := forall f', f = Some f' -> forall leaf parent db,
  sound db -> is_Some (db.(nodes) !! parent) ->
  exists db', f' leaf parent db = Some db' /\ sound db' /\ ext db db' /\ is_Some (db'.(nodes) !! parent).

Context (h : hasher ED) (h_ok : leaf_ok h.(onleaf)) (ambient : Database ED).

(** The database in use: that of the trie when none is written to. *)
Definition cur (odb : option (Database ED)) : Database ED := default ambient odb.
Definition good_db (odb : option (Database ED)) : Prop := forall db, odb = Some db -> collision_free /\ sound db.

Lemma leaves_ok f parent ls : leaf_ok (Some f) -> forall db, sound db -> is_Some (db.(nodes) !! parent) ->
  exists db', foldl (fun db leaf => db ← db; f leaf parent db) (Some db) ls = Some db' /\ sound db' /\ ext db db'.
Proof.
  intros Hf. induction ls as [|l ls IH]; intros db Hs Hp; [exists db; split_and!; auto using ext_refl|].
  cbn [foldl mbind option_bind]. destruct (Hf f eq_refl l parent db Hs Hp) as (db1 & -> & Hs1 & He1 & Hp1).
  destruct (IH db1 Hs1 Hp1) as (db2 & H & Hs2 & He2). exists db2. split; [done|]. split; [done|]. by eapply ext_trans.
Qed.

Lemma simplify_inner n t : inner t -> simplifyNode n = Some (raw_of t) ->
  (exists k v f, n = shortNode k v f) \/ (exists cs f, n = fullNode cs f).
Proof. intros Ht Hs. destruct n; try done; [by right; eauto|by left; eauto|..]; by destruct Ht; injection Hs. Qed.

Lemma store_ok n b odb t : simplifyNode n = Some (raw_of t) -> inner t -> wf t ->
  (is_some odb = true -> U (encoding t)) -> good_db odb ->
  (exists k d, cache n = Some (k, d) /\ (k = None \/ k = Some (tree_hash t))) ->
  exists odb', store h n odb b = Some (if b || big t then hashNode (tree_hash t) else n, odb') /\ is_some odb' = is_some odb /\
    good_db odb' /\ ext (cur odb) (cur odb') /\ (is_some odb = true -> b || big t = true -> found (cur odb') t).
Proof.
  intros Hn Ht Hwf HU Hg (k & d & Hc & Hk).
  assert (store h n odb b =
    (data ← match WriteNode n with Ret d => Some d | _ => None end;
      if (length data <? 32)%nat && negb b then Some (n, odb)
      else
        '(cached, _) ← cache n;
        hash ← match cached with Some hash => Some hash | None => makeHashNode data end;
        match odb with
        | None => Some (hashNode hash, None)
        | Some db =>
            _ ← Lock db;
            db ← TrieDatabase.insert db (BytesToHash hash) data n;
            db ← match h.(onleaf) with
                 | None => Some db
                 | Some f => foldl (fun db leaf => db ← db; f leaf (BytesToHash hash) db) (Some db) (leaves n)
                 end;
            Some (hashNode hash, Some db)
        end)) as ->.
  { by destruct (simplify_inner n t Ht Hn) as [(? & ? & ? & ->)|(? & ? & ->)]. }
  rewrite (WriteNode_encoding n t Ht Hwf Hn). cbn [mbind option_bind].
  assert ((length (encoding t) <? 32)%nat && negb b = negb (b || big t)) as ->.
  { rewrite inner_big by done. unfold by_hash. rewrite Nat.ltb_antisym. destruct b; cbn [negb orb]; [by rewrite andb_false_r|by rewrite andb_true_r]. }
  destruct (b || big t) eqn:Hb; cbn [negb].
  - rewrite Hc. cbn [mbind option_bind].
    assert (match k with Some hash => Some hash | None => makeHashNode (encoding t) end = Some (tree_hash t)) as ->.
    { destruct Hk as [-> | ->]; [by rewrite makeHashNode_sponge|done]. }
    cbn [mbind option_bind]. destruct odb as [db|].
    + pose proof (Hg db eq_refl) as [Hcf Hs]. destruct (insert_sound db n t Hcf Hs Ht Hwf (HU eq_refl) Hn) as (db1 & Hi & Hs1 & He1 & Hf1 & Hin1).
      unfold Lock. destruct Hs as (_ & _ & _ & ->). cbn [Nat.eqb mbind option_bind]. rewrite tree_hash_id, Hi. cbn [mbind option_bind].
      assert (exists db2, match h.(onleaf) with
                 | None => Some db1
                 | Some f => foldl (fun db leaf => db ← db; f leaf (tree_hash t) db) (Some db1) (leaves n)
                 end = Some db2 /\ sound db2 /\ ext db1 db2) as (db2 & -> & Hs2 & He2).
      { destruct (onleaf h) as [f|]; [by apply leaves_ok|exists db1; split_and!; auto using ext_refl]. }
      cbn [mbind option_bind]. exists (Some db2). split; [done|]. split; [done|]. split; [by intros ? [= <-]|].
      split; [by eapply ext_trans|]. intros _ _. cbn. by apply (found_ext db1).
    + exists None. split; [done|]. split; [done|]. split; [done|]. split; [apply ext_refl|done].
  - exists odb. split; [done|]. split; [done|]. split; [done|]. split; [apply ext_refl|done].
Qed.

(** ** Hashing *)
Fixpoint covered (t : tree) : Prop :=
  match t with
  | TNil | TVal _ => True
  | TShort _ c => U (encoding t) /\ covered c
  | TFull cs => U (encoding t) /\ foldr (fun c P => covered c /\ P) True cs
  end.

Lemma covered_full cs : foldr (fun c P => covered c /\ P) True cs <-> Forall covered cs.
Proof. induction cs as [|c cs IH]; cbn; [by split|]. by rewrite IH, Forall_cons. Qed.

Lemma covered_U t : inner t -> covered t -> U (encoding t).
Proof. destruct 1; cbn; by intros [? _]. Qed.

(** The collapsed node has a form as the database keeps it, the other stands for what it stood for. *)
Definition result_ok (r : option (node * node * option (Database ED))) (b : bool) (odb : option (Database ED)) (t : tree) : Prop :=
  exists hn cn odb', r = Some (hn, cn, odb') /\ is_some odb' = is_some odb /\ good_db odb' /\
    ext (cur odb) (cur odb') /\
    simplifyNode hn = Some (if b then hashNode (tree_hash t) else raw_ref t) /\
    stands (cur odb') b cn t /\
    (is_some odb = true -> if b then stored (cur odb') t else kept (cur odb') t).

Definition hashes (t : tree) : Prop := forall n b odb, (is_some odb = true -> covered t) -> stands (cur odb) b n t ->
  good_db odb -> result_ok (hash h n odb b) b odb t.

Lemma or_big t b : (if b || big t then hashNode (tree_hash t) else raw_of t) = if b then hashNode (tree_hash t) else raw_ref t.
Proof. by destruct b. Qed.

(** From the collapsed node on. *)
Lemma walk_ok n b f t odb odb1 collapsed cached :
  (exists k v f', n = shortNode k v f') \/ (exists cs f', n = fullNode cs f') ->
  inner t -> wf t -> (is_some odb = true -> covered t) -> good_db odb1 -> is_some odb1 = is_some odb -> ext (cur odb) (cur odb1) ->
  flag_ok (cur odb) b f t -> (is_some odb = false -> f.(fhash) = None) ->
  simplifyNode collapsed = Some (raw_of t) -> cache collapsed = Some (f.(fhash), f.(dirty)) ->
  (forall db f', ext (cur odb1) db -> flag_ok db b f' t -> stands db b (match cached with
     | shortNode k v _ => shortNode k v f' | fullNode cs _ => fullNode cs f' | _ => cached end) t) ->
  (exists k v, cached = shortNode k v f) \/ (exists cs, cached = fullNode cs f) ->
  (is_some odb = true -> below (cur odb1) t) ->
  result_ok ('(hashed, db) ← store h collapsed odb1 b; Some (hashed, set_cached cached hashed (is_some db), db)) b odb t.
Proof.
  intros Hshape Ht Hwf Hcov Hg1 Hm1 He1 [Hfl1 Hfl2] Hnone Hs Hc Hst Hcached Hbelow.
  destruct (store_ok collapsed b odb1 t Hs Ht Hwf) as (odb2 & -> & Hm2 & Hg2 & He2 & Hf2).
  { intros Hm. apply (covered_U t Ht), Hcov. congruence. }
  { done. }
  { eexists _, _. split; [exact Hc|]. destruct (fhash f) as [k|]; [right|by left]. by destruct (Hfl1 k eq_refl) as (-> & _). }
  cbn [mbind option_bind]. eexists _, _, odb2. split; [reflexivity|]. split; [congruence|]. split; [done|].
  split; [by eapply ext_trans|]. split; [rewrite <- or_big; by destruct (b || big t)|].
  assert (is_some odb = true -> below (cur odb2) t) as Hb2 by (intros H; apply (below_ext (cur odb1)); auto).
  assert (is_some odb = true -> b || big t = true -> stored (cur odb2) t) as Hst2.
  { intros H Hb. split; [|by apply Hb2]. apply Hf2; [congruence|done]. }
  split.
  - set (f' := {| fhash := if b || big t then Some (tree_hash t) else None; gen := f.(gen); dirty := if is_some odb2 then false else f.(dirty) |}).
    assert (flag_ok (cur odb2) b f' t) as Hf'.
    { unfold f'. split; cbn [fhash dirty].
      - intros x Hx. destruct (b || big t) eqn:Hb; [injection Hx as <-|done]. split; [done|].
        split; [by intros ->|]. intros Hd. destruct (is_some odb) eqn:Em; [by apply Hst2|].
        rewrite Hm2, Hm1 in Hd. destruct (Hfl2 (Hnone eq_refl) Hd) as [-> Hbig]. by rewrite Hbig in Hb.
      - destruct (b || big t) eqn:Hb; [done|]. intros _ _. by apply orb_false_iff in Hb. }
    specialize (Hst (cur odb2) f' He2 Hf'). unfold set_cached.
    assert (match (if b || big t then hashNode (tree_hash t) else collapsed) with hashNode x => Some x | _ => None end = f'.(fhash)) as ->.
    { cbn. destruct (b || big t); [done|]. by destruct (simplify_inner collapsed t Ht Hs) as [(? & ? & ? & ->)|(? & ? & ->)]. }
    by destruct Hcached as [(k & v & ->)|(cs & ->)].
  - intros H. destruct b; [by apply Hst2|]. split; [intros Hb; by apply Hst2|by apply Hb2].
Qed.

(** What is known of a node may do. *)
Definition known_or (f : nodeFlag) (n : node) (odb : option (Database ED)) (walk : option (node * node * option (Database ED))) :=
  match f.(fhash) with
  | None => walk
  | Some hs =>
      match odb with
      | None => Some (hashNode hs, n, odb)
      | Some _ =>
          if flag_canUnload f h.(hgen) h.(hlimit) then Some (hashNode hs, hashNode hs, odb)
          else if negb f.(dirty) then Some (hashNode hs, n, odb) else walk
      end
  end.

Lemma raw_ref_big b t : (b = false -> big t = true) -> (if b then hashNode (tree_hash t) else raw_ref t) = hashNode (tree_hash t).
Proof. intros H. destruct b; [done|]. unfold raw_ref. by rewrite H. Qed.

(** The hash of a stored tree stands for it. *)
Lemma hash_stands db b t : inner t -> (b = false -> big t = true) -> stored db t -> stands db b (hashNode (tree_hash t)) t.
Proof.
  intros Ht Hb [Hf Hbl]. apply (repr_hash _ _ _ _ _ _ (fun g => tree_node (Some (tree_hash t)) g t)).
  - split; [done|]. split; [done|]. by split.
  - intros g. rewrite tree_hash_id. apply Hf.
  - intros g. pose proof (tree_node_loaded t (Some (tree_hash t)) g Ht). by destruct (tree_node _ g t).
  - intros g. by apply tree_node_stands.
Qed.

(** Nothing is written. *)
Lemma result_same hn cn (b : bool) odb t : good_db odb -> simplifyNode hn = Some (if b then hashNode (tree_hash t) else raw_ref t) ->
  stands (cur odb) b cn t -> (is_some odb = true -> if b then stored (cur odb) t else kept (cur odb) t) ->
  result_ok (Some (hn, cn, odb)) b odb t.
Proof.
  intros Hg H1 H2 H3. exists hn, cn, odb. split; [done|]. split; [done|]. split; [done|]. split; [apply ext_refl|]. by split.
Qed.

Lemma stored_if db (b : bool) t : stored db t -> if b then stored db t else kept db t.
Proof. destruct b; [done|apply stored_kept]. Qed.

Lemma known_ok f n b odb t walk : inner t -> good_db odb -> stands (cur odb) b n t -> flag_ok (cur odb) b f t ->
  ((is_some odb = false -> f.(fhash) = None) -> result_ok walk b odb t) -> result_ok (known_or f n odb walk) b odb t.
Proof.
  intros Ht Hg Hn [Hf _] Hw. unfold known_or. destruct (fhash f) as [hs|] eqn:Ef; [|by apply Hw].
  destruct (Hf hs eq_refl) as (-> & Hbig & Hst). destruct odb as [db|].
  - destruct (flag_canUnload f (hgen h) (hlimit h)) eqn:Eu.
    + apply andb_true_iff in Eu as [Hd%negb_true_iff _]. apply result_same; [done|by rewrite raw_ref_big| |].
      * apply hash_stands; auto.
      * intros _. by apply stored_if, Hst.
    + destruct (dirty f) eqn:Ed; cbn [negb]; [by apply Hw|]. apply result_same; [done|by rewrite raw_ref_big|done|].
      intros _. by apply stored_if, Hst.
  - apply result_same; [done|by rewrite raw_ref_big|done|done].
Qed.

Lemma hashNode_ok x b odb t : inner t -> good_db odb -> stands (cur odb) b (hashNode x) t ->
  result_ok (hash h (hashNode x) odb b) b odb t.
Proof.
  intros Ht Hg Hn. pose proof Hn as Hn'. unfold stands in Hn'. remember (hashNode x) as n eqn:En.
  assert (hash_ok (cur odb) b x t) as (-> & Hbig & Hst).
  { destruct Hn'; try done; by injection En as ->. }
  subst n. change (hash h (hashNode (tree_hash t)) odb b) with (Some (hashNode (tree_hash t), hashNode (tree_hash t), odb)).
  apply result_same; [done|by rewrite raw_ref_big|done|]. intros _. by apply stored_if.
Qed.

(** The children of a full node, one after the other. *)
Lemma hash_each_ok child : (forall c odb, child c odb = hash h c odb false) ->
  forall ts n cs odb, Forall2 (stands (cur odb) false) cs ts -> good_db odb -> Forall place ts ->
  (forall i t, ts !! i = Some t -> (i < n)%nat -> t = TNil \/ (inner t /\ (is_some odb = true -> covered t) /\ hashes t)) ->
  (forall i t, ts !! i = Some t -> (n <= i)%nat -> value_child t) ->
  exists hs cs' odb', hash_each child cs n odb = Some (hs, cs', odb') /\ is_some odb' = is_some odb /\ good_db odb' /\
    ext (cur odb) (cur odb') /\
    all_some (fun c => match c with nilNode => Some nilNode | _ => simplifyNode c end) hs = Some (map raw_ref ts) /\
    Forall2 (stands (cur odb') false) cs' ts /\ (is_some odb = true -> Forall (kept (cur odb')) ts).
Proof.
  intros Hchild. induction ts as [|t ts IH]; intros n cs odb Hcs Hg Hp Hin Hval.
  { apply Forall2_nil_inv_r in Hcs as ->. eexists _, _, odb. split; [by destruct n|]. split_and!; auto using ext_refl. }
  apply Forall2_cons_inv_r in Hcs as (c & cs' & Hc & Hcs & ->). apply Forall_cons in Hp as [Hpt Hp].
  destruct n as [|n].
  - assert (forall l, Forall value_child l -> forall cs, Forall2 (stands (cur odb) false) cs l ->
      all_some (fun c => match c with nilNode => Some nilNode | _ => simplifyNode c end) cs = Some (map raw_ref l)) as Hvals.
    { induction 1 as [|u l Hu _ IHl]; intros ds Hds; [by apply Forall2_nil_inv_r in Hds as ->|].
      apply Forall2_cons_inv_r in Hds as (d & ds' & Hd & Hds & ->). cbn [all_some map]. rewrite (IHl ds' Hds).
      assert (match d with nilNode => Some nilNode | _ => simplifyNode d end = Some (raw_ref u)) as ->; [|done].
      destruct Hu as [->|(v & -> & _)]; unfold stands in Hd.
      - rewrite (repr_nil_inv _ _ _ _ _ _ Hd). done.
      - by rewrite (repr_value_inv _ _ _ _ _ _ _ Hd). }
    assert (Forall value_child (t :: ts)) as Hv by (apply Forall_lookup; intros i u Hu; apply (Hval i u Hu); lia).
    exists (c :: cs'), (c :: cs'), odb. split; [done|]. split; [done|]. split; [done|]. split; [apply ext_refl|]. split; [|split].
    + apply Hvals; [exact Hv|by constructor].
    + by constructor.
    + intros _. eapply Forall_impl; [exact Hv|]. intros u. apply kept_value.
  - assert (exists hc c' odb1, match c with nilNode => Some (nilNode, nilNode, odb) | _ => child c odb end = Some (hc, c', odb1) /\
      is_some odb1 = is_some odb /\ good_db odb1 /\ ext (cur odb) (cur odb1) /\
      match hc with nilNode => Some nilNode | _ => simplifyNode hc end = Some (raw_ref t) /\ stands (cur odb1) false c' t /\
      (is_some odb = true -> kept (cur odb1) t)) as (hc & c' & odb1 & Hc1 & Hm1 & Hg1 & He1 & Hs1 & Hst1 & Hk1).
    { destruct (Hin 0%nat t eq_refl) as [->|(Hti & Hcov & Ht)]; [lia| |].
      - unfold stands in Hc. rewrite (repr_nil_inv _ _ _ _ _ _ Hc). exists nilNode, nilNode, odb. split_and!; auto using ext_refl; [constructor|].
        intros _. apply kept_value. by left.
      - destruct (Ht c false odb Hcov Hc Hg) as (hc & c' & odb1 & H1 & H2 & H3 & H4 & H5 & H6 & H7). exists hc, c', odb1.
        split; [rewrite Hchild; pose proof (repr_is_nil _ _ _ _ false c t Hc) as Hnil; rewrite bool_decide_false in Hnil by (by apply inner_not_nil);
          by destruct c|]. split_and!; auto. destruct hc; try done. }
    cbn [hash_each]. change (hash_each child) with (hash_each child). rewrite Hc1. cbn [mbind option_bind].
    destruct (IH n cs' odb1) as (hs & cs2 & odb2 & H2 & Hm2 & Hg2 & He2 & Hs2 & Hst2 & Hk2).
    + clear IH Hin Hval. induction Hcs as [|d u ds us Hd Hds IHds]; constructor; apply Forall_cons in Hp as [Hpu Hp]; [by apply (stands_ext (cur odb))|by apply IHds].
    + done.
    + done.
    + intros i u Hu Hi. rewrite Hm1. apply (Hin (S i) u Hu). lia.
    + intros i u Hu Hi. apply (Hval (S i) u Hu). lia.
    + fold (hash_each child). rewrite H2. cbn [mbind option_bind]. exists (hc :: hs), (c' :: cs2), odb2.
      split; [done|]. split; [congruence|]. split; [done|]. split; [by eapply ext_trans|]. split; [|split].
      * cbn [all_some map]. rewrite Hs1. cbn [mbind option_bind]. by rewrite Hs2.
      * constructor; [by apply (stands_ext (cur odb1))|done].
      * intros H. constructor; [|apply Hk2; congruence]. destruct (Hin 0%nat t eq_refl) as [->|(Hti & _)]; [lia|apply kept_value; by left|].
        by apply (kept_ext (cur odb1)), Hk1.
Qed.

Lemma flag_of_short db b k v f k' t : stands db b (shortNode k v f) (TShort k' t) -> k = k' /\ stands db false v t /\ flag_ok db b f (TShort k t).
Proof.
  unfold stands. intros H. remember (shortNode k v f) as n eqn:En. remember (TShort k' t) as u eqn:Eu.
  destruct H; try done. injection En as -> -> ->. injection Eu as <- <-. done.
Qed.

Lemma flag_of_full db b cs f ts : stands db b (fullNode cs f) (TFull ts) -> Forall2 (stands db false) cs ts /\ flag_ok db b f (TFull ts).
Proof.
  unfold stands. intros H. remember (fullNode cs f) as n eqn:En. remember (TFull ts) as u eqn:Eu.
  destruct H; try done. injection En as -> ->. by injection Eu as ->.
Qed.

Lemma stands_cases db b n t : stands db b n t -> inner t ->
  (exists x, n = hashNode x) \/ (exists k v f u, n = shortNode k v f /\ t = TShort k u) \/ (exists cs f ts, n = fullNode cs f /\ t = TFull ts).
Proof.
  unfold stands. destruct 1 as [r|r v|r k n f t H Hf|r cs f ts H Hf|r x load t Hh Hd Hl H|r x t Hp Hh Hd Ht]; intros Hi; [inversion Hi|inversion Hi|..].
  - right. left. by eexists _, _, _, _.
  - right. right. by eexists _, _, _.
  - left. by eexists.
  - left. by eexists.
Qed.

Lemma ext_None odb odb' : is_some odb' = is_some odb -> is_some odb = false -> cur odb' = cur odb.
Proof. by destruct odb, odb'. Qed.

Lemma hash_short_eq k v f odb b : hash h (shortNode k v f) odb b = known_or f (shortNode k v f) odb
  ('(collapsed, cached, db) ←
     (key ← hexToCompact k;
      match v with
      | valueNode _ => Some (shortNode key v f, shortNode k v f, odb)
      | _ => '(v, v', db) ← hash h v odb false; Some (shortNode key v f, shortNode k v' f, db)
      end);
   '(hashed, db) ← store h collapsed db b; Some (hashed, set_cached cached hashed (is_some db), db)).
Proof. by destruct v. Qed.

Lemma hash_full_eq cs f odb b : hash h (fullNode cs f) odb b = known_or f (fullNode cs f) odb
  ('(collapsed, cached, db) ←
     ('(cs, cs', db) ← hash_each (fun c db => hash h c db false) cs 16 odb; Some (fullNode cs f, fullNode cs' f, db));
   '(hashed, db) ← store h collapsed db b; Some (hashed, set_cached cached hashed (is_some db), db)).
Proof. done. Qed.

Lemma hashes_ok t : inner t -> wf t -> hashes t.
Proof.
  induction 1 as [k v Hk Hv|k t Hk Hne Hf Ht IH|cs last Hl Hcs Hlast Hp] using inner_nested_ind; intros Hwf n b odb Hcov Hn Hg.
  - assert (inner (TShort (k ++ [16]) (TVal v))) as Hin by by constructor.
    destruct (stands_cases _ _ _ _ Hn Hin) as [[x ->]|[(k' & w & f & u & -> & [= <- <-])|(? & ? & ? & _ & ?)]]; [by apply hashNode_ok| |done].
    destruct (flag_of_short _ _ _ _ _ _ _ Hn) as (_ & Hw & Hfl). unfold stands in Hw. apply repr_value_inv in Hw as ->.
    rewrite hash_short_eq. apply (known_ok _ _ _ _ _ _ Hin Hg Hn Hfl). intros Hnone.
    destruct (compact_ok (k ++ [16])) as (Hc & _); [by exists true, k|]. rewrite Hc. cbn [mbind option_bind].
    apply (walk_ok (shortNode (k ++ [16]) (valueNode v) f) b f _ odb odb);
      [by left; eauto|done|done|done|done|done|apply ext_refl|done|done|done|done| |by left; eauto|done].
    intros db f' He Hf'. by constructor; [constructor|].
  - assert (inner (TShort k t)) as Hin by by constructor.
    destruct (stands_cases _ _ _ _ Hn Hin) as [[x ->]|[(k' & w & f & u & -> & [= <- <-])|(? & ? & ? & _ & ?)]]; [by apply hashNode_ok| |done].
    destruct (flag_of_short _ _ _ _ _ _ _ Hn) as (_ & Hw & Hfl).
    rewrite hash_short_eq. apply (known_ok _ _ _ _ _ _ Hin Hg Hn Hfl). intros Hnone.
    destruct (compact_ok k) as (Hc & _); [by exists false, k|]. rewrite Hc. cbn [mbind option_bind].
    destruct Hwf as [Hlen Hwf].
    destruct (IH Hwf w false odb (fun H => proj2 (Hcov H)) Hw Hg) as (hc & c' & odb1 & H1 & Hm1 & Hg1 & He1 & Hs1 & Hst1 & Hk1).
    assert (forall A (x y : A), match w with valueNode _ => x | _ => y end = y) as Hnv.
    { intros A x y. destruct w; try done. unfold stands in Hw. inversion Hw; subst. inversion Ht. }
    rewrite Hnv, H1. cbn [mbind option_bind].
    apply (walk_ok (shortNode k w f) b f _ odb odb1);
      [by left; eauto|done|by split|done|done|done|done|done|done| |done| |by left; eauto|].
    + cbn [simplifyNode]. by rewrite Hs1.
    + intros db f' He Hf'. constructor; [|done]. apply (stands_ext (cur odb1)); [done|by right|done].
    + intros Hm. exact (Hk1 Hm).
  - assert (inner (TFull (cs ++ [last]))) as Hin.
    { constructor; try done. eapply Forall_impl; [exact Hcs|]. naive_solver. }
    destruct (stands_cases _ _ _ _ Hn Hin) as [[x ->]|[(? & ? & ? & ? & _ & ?)|(cn & f & ts & -> & [= <-])]]; [by apply hashNode_ok|done|].
    destruct (flag_of_full _ _ _ _ _ Hn) as [Hw Hfl].
    rewrite hash_full_eq. apply (known_ok _ _ _ _ _ _ Hin Hg Hn Hfl). intros Hnone.
    pose proof Hwf as [_ Hwfs]. apply wf_full in Hwfs.
    destruct (hash_each_ok (fun c db => hash h c db false) (fun _ _ => eq_refl) (cs ++ [last]) 16 cn odb Hw Hg (place_full _ Hin))
      as (hs & cs' & odb1 & H1 & Hm1 & Hg1 & He1 & Hs1 & Hst1 & Hk1).
    + intros i t Hi Hlt. rewrite lookup_app_l in Hi by lia. rewrite Forall_lookup in Hcs.
      destruct (Hcs i t Hi) as [->|[Hti IH]]; [by left|]. right. split; [done|]. split.
      * intros H. destruct (Hcov H) as [_ Hcovs]. apply covered_full in Hcovs. rewrite Forall_lookup in Hcovs.
        apply (Hcovs i). by apply lookup_app_l_Some.
      * apply IH. rewrite Forall_lookup in Hwfs. apply (Hwfs i). by apply lookup_app_l_Some.
    + intros i t Hi Hge. rewrite lookup_app_r in Hi by lia. apply list_elem_of_lookup_2, list_elem_of_singleton in Hi as ->. exact Hlast.
    + rewrite H1. cbn [mbind option_bind].
      apply (walk_ok (fullNode cn f) b f _ odb odb1);
        [by right; eauto|done|done|done|done|done|done|done|done| |done| |by right; eauto|].
      * change (raw_of (TFull (cs ++ [last]))) with (rawFullNode (map raw_ref (cs ++ [last]))). cbn [simplifyNode]. by rewrite Hs1.
      * intros db f' He Hf'. constructor; [|done]. pose proof (place_full _ Hin) as Hpl. clear -Hst1 He Hpl.
        induction Hst1 as [|c u cs' us Hc Hds IHds]; constructor; apply Forall_cons in Hpl as [Hpu Hpl]; [by apply (stands_ext (cur odb1))|by apply IHds].
      * intros Hm. apply below_full. by apply Hk1.
Qed.
End Store.
