(* ===== verification/TrieContent.v ===== *)
(** * What a trie holds

    Tries over a database and the maps they stand for: the operations of Trie.v and
    TrieHasher.v on a whole trie, from the lemmas on nodes. *)
From Stdlib Require Import ZArith Lia.
From S2P Require Import RlpDecode.
From S2P Require Import Prelude Word Rlp RlpSpec Keccak KeccakSpec.
From S2P Require Import TrieEncoding TrieTree TrieMap TrieNode TrieDatabase Trie TrieRefines TrieHasher TrieCommit.
Import Big.
Open Scope Z_scope.
Close Scope lanes_scope.

(** ** How long the encodings of a trie get

    A trie whose keys and values are not absurdly long has nodes of encodings that Go
    can count, which is what TrieNode.v asks of a tree. *)

Lemma header_le s l n : 0 <= n < 2 ^ 64 -> len (header s l n) <= 9.
Proof.
  intros Hn. unfold header. destruct (n <? 56); [cbn; lia|]. pose proof (Bytes_short n Hn). cbn [length]. lia.
Qed.

Lemma enc_str_le b : len b < 2 ^ 64 -> len (enc_str b) <= len b + 9.
Proof.
  intros Hb. unfold enc_str. destruct (single b); [lia|]. rewrite length_app.
  pose proof (header_le 0x80 0xB7 (len b) ltac:(lia)). lia.
Qed.

Lemma enc_lst_le b : len b < 2 ^ 64 -> len (enc_lst b) <= len b + 9.
Proof. intros Hb. unfold enc_lst. rewrite length_app. pose proof (header_le 0xC0 0xF7 (len b) ltac:(lia)). lia. Qed.

Lemma decodeNibbles_le : forall n k r, (length k <= n)%nat -> decodeNibbles k = Some r -> (length r <= length k)%nat.
Proof.
  induction n as [|n IH]; intros [|a [|b k]] r Hk; cbn [decodeNibbles length] in *; try (intros [= <-]; cbn; lia); try done; [lia|].
  intros (x & Hx & [= <-])%bind_Some. specialize (IH k x ltac:(lia) Hx). cbn [length]. lia.
Qed.

Lemma compact_le k : (length (compact k) <= S (length k))%nat.
Proof.
  unfold compact, hexToCompact. cbv zeta.
  set (hex := if hasTerm k then removelast k else k).
  assert (length hex <= length k)%nat as Hl.
  { subst hex. destruct (hasTerm k); [|done]. clear. induction k as [|x [|y k] IH]; cbn [removelast length] in *; lia. }
  destruct (Nat.odd (length hex)), hex as [|x hex'];
    match goal with |- context [decodeNibbles ?l] => destruct (decodeNibbles l) as [r|] eqn:E; [apply (decodeNibbles_le (length l)) in E; [|done]|] | _ => idtac end;
    cbn [mbind option_bind default length from_option id] in *; lia.
Qed.

(** What a child takes in its parent. *)
Lemma item_ref_le c : inner c -> len (enc (item_ref c)) <= 41.
Proof.
  intros Hc. unfold item_ref. rewrite inner_big by done. unfold by_hash. destruct (Nat.leb_spec 32 (length (encoding c))) as [H|H].
  - change (enc (Str (tree_hash c))) with (enc_str (tree_hash c)).
    assert (length (tree_hash c) = 32%nat) as Hl by apply sponge_length.
    pose proof (enc_str_le (tree_hash c) ltac:(lia)). lia.
  - unfold encoding in H. lia.
Qed.

Lemma encs_le (l : list item) n : Forall (fun i => len (enc i) <= n) l -> len (concat (map enc l)) <= len l * n.
Proof. induction 1 as [|i l Hi _ IH]; [done|]. cbn [map concat length]. rewrite length_app. lia. Qed.

(** The keys that lead on from a node, and the values they lead to. *)
Definition fits (t : tree) : Prop :=
  forall k v, hexkey k -> tget t k = Some v -> bytes v /\ len v < 2 ^ 56 /\ len k < 2 ^ 60.

Lemma encoding_short_lt k c : len k < 2 ^ 60 -> len (enc (item_ref c)) < 2 ^ 57 -> len (encoding (TShort k c)) < 2 ^ 63.
Proof.
  intros Hk Hc. unfold encoding. rewrite tree_item_short. cbn [enc map concat]. rewrite app_nil_r.
  pose proof (compact_le k). pose proof (enc_str_le (compact k) ltac:(lia)).
  set (b := enc_str (compact k) ++ _). assert (len b < 2 ^ 62) as Hb by (subst b; rewrite length_app; lia).
  pose proof (enc_lst_le b ltac:(lia)). lia.
Qed.

Lemma value_le v : len v < 2 ^ 56 -> len (enc (Str v)) < 2 ^ 57.
Proof. intros Hv. pose proof (enc_str_le v ltac:(lia)). change (enc (Str v)) with (enc_str v). lia. Qed.

Lemma fits_wf t : inner t -> fits t -> wf t.
Proof.
  induction 1 as [k v Hk Hv|k t Hk Hne Hf Ht IH|cs last Hl Hcs Hlast Hp] using inner_nested_ind; intros Hfit.
  - destruct (Hfit (k ++ [16]) v) as (Hb & Hlv & Hlk); [by exists k|by apply tget_leaf_key|].
    pose proof (value_le v Hlv) as He. split; [by apply encoding_short_lt|]. split; [|done].
    unfold encoding. cbn [tree_item]. lia.
  - destruct (inner_some t Ht) as (r & v & Hr & Hg & _).
    assert (len k < 2 ^ 60) as Hlk.
    { destruct (Hfit (k ++ r) v) as (_ & _ & H); [by apply hexkey_app|by rewrite tget_short_app|]. rewrite length_app in H. lia. }
    split; [apply encoding_short_lt; [done|]; pose proof (item_ref_le t Ht); lia|]. apply IH. intros r' v' Hr' Hg'.
    destruct (Hfit (k ++ r') v') as (H1 & H2 & H3); [by apply hexkey_app|by rewrite tget_short_app|].
    rewrite length_app in H3. split_and!; [done|done|lia].
  - assert (forall i c, (cs ++ [last]) !! i = Some c -> child_ok i c) as Hch.
    { intros i c. apply full_children; [done| |done]. eapply Forall_impl; [exact Hcs|]. naive_solver. }
    assert (forall i c r v, (cs ++ [last]) !! i = Some c -> hexkey (Z.of_nat i :: r) -> tget c r = Some v ->
      bytes v /\ len v < 2 ^ 56 /\ len r < 2 ^ 60) as Hchild.
    { intros i c r v Hc Hr Hg. destruct (Hfit (Z.of_nat i :: r) v Hr) as (H1 & H2 & H3).
      - by rewrite tget_full, Nat2Z.id, Hc.
      - cbn [length] in H3. split_and!; [done|done|lia]. }
    assert (forall i c, (cs ++ [last]) !! i = Some c -> wf c /\ len (enc (item_ref c)) <= 2 ^ 57) as Hall.
    { intros i c Hc. destruct (Hch i c Hc) as [[Hi [->|Hin]]|[-> [->|(v & -> & Hv)]]].
      - split; [split; [done|done]|done].
      - split; [|pose proof (item_ref_le c Hin); lia].
        apply (full_child_ind (fun c => fits c -> wf c) cs last i Hl Hcs Hlast c Hc Hin).
        intros r v Hr Hg. apply (Hchild i c r v Hc); [|done]. apply hexkey_cons; [unfold nibble; lia|done].
      - split; [split; [done|done]|done].
      - destruct (Hchild 16%nat (TVal v) [] v Hc hexkey_16 eq_refl) as (Hb & Hlv & _).
        pose proof (value_le v Hlv). split; [split; [unfold encoding; cbn [tree_item]; lia|done]|]. unfold item_ref. cbn [big tree_item]. lia. }
    split.
    + unfold encoding. rewrite tree_item_full. cbn [enc]. fold (encs (map item_ref (cs ++ [last]))).
      assert (len (encs (map item_ref (cs ++ [last]))) <= 17 * 2 ^ 57) as Hle.
      { unfold encs. etrans; [apply (encs_le _ (2 ^ 57))|rewrite length_map, length_app, Hl; cbn; lia].
        apply Forall_fmap, Forall_lookup. intros i c Hc. by apply (Hall i c). }
      pose proof (enc_lst_le (encs (map item_ref (cs ++ [last]))) ltac:(lia)). unfold encs in *. lia.
    + apply wf_full, Forall_lookup. intros i c Hc. by apply (Hall i c).
Qed.

(** Of a map. *)
Definition small (M : content) : Prop := map_Forall (fun k v => bytes v /\ len v < 2 ^ 56 /\ len k < 2 ^ 58) M.

Lemma small_wf M t : holds M t -> small M -> wf t.
Proof.
  intros [[->|Ht] Hg] HM; [by split|]. apply fits_wf; [done|]. intros k v Hk Hv. rewrite Hg in Hv by done.
  apply bind_Some in Hv as (b & Hb & Hv). destruct (HM b v Hv) as (H1 & H2 & H3).
  apply hexToKeybytes_inv in Hb as [_ ->]; [|done]. split_and!; [done|done|].
  unfold keybytesToHex. rewrite length_app, nibbles_of_length. cbn [length]. lia.
Qed.

Section Content.
Context {ED : EthDB} {MR : MapRange}.

(** The trie stands for a tree that holds the map. *)
Definition keeps (db : Database ED) (t : Trie) (M : content) (T : tree) : Prop :=
  stands db true t.(root) T /\ holds M T.

Definition represents (db : Database ED) (t : Trie) (M : content) : Prop := exists T, keeps db t M T.

Lemma comes_to_key T b : minimal T -> bytes b -> comes_to T (keybytesToHex b).
Proof. intros [->|HT] Hb; [right; left; split; [done|right]|left; split; [done|]]; by apply hexkey_of. Qed.

Lemma need_key n b : (need n (keybytesToHex b) <= fuel_for (keybytesToHex b))%nat.
Proof. pose proof (need_le n (keybytesToHex b)). unfold fuel_for. lia. Qed.

(** With nothing missing there is no error. *)
Lemma good_Ret {A} dbnode g (P : A -> Prop) prefix key m : good dbnode false g P prefix key m -> exists a, m = Ret a /\ P a.
Proof. destruct m as [a|e|]; cbn; [by exists a|by intros []|done]. Qed.

Lemma TryGet_keeps db t M T key : keeps db t M T -> bytes key ->
  exists t', TryGet db t key = Ret (M !! key, t') /\ keeps db t' M T.
Proof.
  intros [HT HM] Hb. unfold TryGet. cbv zeta. set (k := keybytesToHex key).
  pose proof (tryGet_good (Database_node db) false (flag_ok db) (hash_ok db) t.(cachegen)
    (flag_ok_gen db t.(cachegen)) (fuel_for k) true t.(root) T k 0 HT) as H.
  rewrite drop_0 in H. destruct (good_Ret _ _ _ _ _ _ (H (comes_to_key T key (proj1 HM) Hb) ltac:(lia) (need_key _ key))) as ([[v n] did] & He & Hv & Hn & Hd).
  rewrite He. cbn [mbind outcome_bind fst snd] in *. subst k. rewrite Hv, <- (holds_get M T key HM Hb).
  eexists. split; [done|]. split; [|done]. destruct did; [exact Hn|exact HT].
Qed.

Lemma insert_keeps db t M T key value : keeps db t M T -> bytes key -> value <> [] ->
  exists d n, insert (Database_node db) t.(cachegen) (fuel_for (keybytesToHex key)) t.(root) [] (keybytesToHex key) (valueNode value) = Ret (d, n) /\
    keeps db (set_root t n) (<[key := value]> M) (tinsert T (keybytesToHex key) value).
Proof.
  intros [HT HM] Hb Hv.
  pose proof (insert_good (Database_node db) false (flag_ok db) (hash_ok db) t.(cachegen) (flag_ok_new db t.(cachegen))
    (fuel_for (keybytesToHex key)) true t.(root) T [] (keybytesToHex key) value HT
    (comes_to_key T key (proj1 HM) Hb) Hv (need_key _ key)) as H.
  destruct (good_Ret _ _ _ _ _ _ H) as ([d n] & He & Hn & _). exists d, n. split; [done|]. split; [exact Hn|by apply holds_insert].
Qed.

Lemma delete_keeps db t M T key : keeps db t M T -> bytes key ->
  exists d n, delete (Database_node db) t.(cachegen) (fuel_for (keybytesToHex key)) t.(root) [] (keybytesToHex key) = Ret (d, n) /\
    keeps db (set_root t n) (base.delete key M) (tdelete T (keybytesToHex key)).
Proof.
  intros [HT HM] Hb.
  pose proof (delete_good (Database_node db) false (flag_ok db) (hash_ok db) t.(cachegen) (flag_ok_new db t.(cachegen))
    (fuel_for (keybytesToHex key)) true t.(root) T [] (keybytesToHex key) HT
    (comes_to_key T key (proj1 HM) Hb) (need_key _ key)) as H.
  destruct (good_Ret _ _ _ _ _ _ H) as ([d n] & He & Hn & _). exists d, n. split; [done|]. split; [exact Hn|by apply holds_delete].
Qed.

(** *** As operations on a map *)
Inductive op := OGet (key : list Z) | OUpdate (key value : list Z) | ODelete (key : list Z).

Definition op_bytes (o : op) : Prop := match o with OGet k | OUpdate k _ | ODelete k => bytes k end.

Definition map_step (M : content) (o : op) : option (list Z) * content :=
  match o with
  | OGet k => (M !! k, M)
  | OUpdate k [] => (None, base.delete k M)
  | OUpdate k v => (None, <[k := v]> M)
  | ODelete k => (None, base.delete k M)
  end.

Definition trie_step (db : Database ED) (t : Trie) (o : op) : outcome MissingNodeError (option (list Z) * Trie) :=
  match o with
  | OGet k => TryGet db t k
  | OUpdate k v => t ← TryUpdate db t k v; Ret (None, t)
  | ODelete k => t ← TryDelete db t k; Ret (None, t)
  end.

Fixpoint trie_run (db : Database ED) (t : Trie) (ops : list op) : outcome MissingNodeError (list (option (list Z)) * Trie) :=
  match ops with
  | [] => Ret ([], t)
  | o :: ops => '(v, t) ← trie_step db t o; '(vs, t) ← trie_run db t ops; Ret (v :: vs, t)
  end.

Fixpoint map_run (M : content) (ops : list op) : list (option (list Z)) * content :=
  match ops with
  | [] => ([], M)
  | o :: ops => let '(v, M) := map_step M o in let '(vs, M) := map_run M ops in (v :: vs, M)
  end.

Lemma trie_step_keeps db t M o : represents db t M -> op_bytes o ->
  exists t', trie_step db t o = Ret ((map_step M o).1, t') /\ represents db t' (map_step M o).2.
Proof.
  intros [T HT] Hb. destruct o as [k|k v|k]; cbn [trie_step map_step op_bytes] in *.
  - destruct (TryGet_keeps db t M T k HT Hb) as (t' & H & Ht). exists t'. split; [done|]. by exists T.
  - unfold TryUpdate. cbv zeta. destruct v as [|x v]; cbn [length Nat.eqb negb].
    + destruct (delete_keeps db t M T k HT Hb) as (d & n & -> & Hn). eexists. split; [done|]. by eexists.
    + destruct (insert_keeps db t M T k (x :: v) HT Hb) as (d & n & -> & Hn); [done|]. eexists. split; [done|]. by eexists.
  - unfold TryDelete. cbv zeta. destruct (delete_keeps db t M T k HT Hb) as (d & n & -> & Hn). eexists. split; [done|]. by eexists.
Qed.

(** ** Hashing *)
Definition root_hash (T : tree) : list Z := match T with TNil => emptyRoot | _ => tree_hash T end.

Lemma root_hash_length T : length (root_hash T) = 32%nat.
Proof. destruct T; [done|apply tree_hash_length..]. Qed.

Lemma stands_not_nil db b n T : stands db b n T -> inner T -> is_nil n = false.
Proof. intros H Ht. rewrite (repr_is_nil _ _ _ _ b n T H). apply bool_decide_false. by apply inner_not_nil. Qed.

Lemma hashRoot_eq (t : Trie) (odb : option (Database ED)) f : is_nil t.(root) = false ->
  hashRoot t odb f = hash {| hgen := t.(cachegen); hlimit := t.(cachelimit); onleaf := f |} t.(root) odb true.
Proof. unfold hashRoot. by destruct (root t). Qed.

Lemma inner_root_hash T : inner T -> root_hash T = tree_hash T.
Proof. by destruct 1. Qed.

Lemma leaf_ok_None U : leaf_ok U (None : option (LeafCallback ED)).
Proof. by intros f. Qed.

Lemma simplify_hash n x : simplifyNode n = Some (hashNode x) -> n = hashNode x.
Proof.
  destruct n; cbn; try done; [| |by intros [= ->]]; intros H; apply bind_Some in H as (? & _ & H); done.
Qed.

Lemma Hash_keeps db t M T : keeps db t M T -> wf T -> exists t', Hash t = Some (root_hash T, t') /\ keeps db t' M T.
Proof.
  intros [HT HM] Hwf. unfold Hash. destruct (proj1 HM) as [->|Hin].
  - unfold stands in HT. apply repr_nil_inv in HT as Hr. unfold hashRoot. rewrite Hr. eexists. split; [reflexivity|].
    split; [constructor|done].
  - rewrite hashRoot_eq by by eapply stands_not_nil. set (h := {| hgen := _; hlimit := _; onleaf := None |}).
    destruct (hashes_ok (fun _ => False) h (leaf_ok_None _) db T Hin Hwf t.(root) true None) as (hn & cn & odb & Hh & Hm & _ & _ & Hs & Hst & _);
      [done|exact HT|done|].
    rewrite Hh. cbn [mbind option_bind]. apply simplify_hash in Hs as ->. cbn [hash_of mbind option_bind].
    rewrite tree_hash_id, inner_root_hash by done. eexists. split; [done|]. split; [|done].
    destruct odb; [done|exact Hst].
Qed.

(** ** Committing *)
Lemma Commit_keeps U db t M T f : collision_free U -> sound U db -> leaf_ok U f -> keeps db t M T -> wf T -> covered U T ->
  exists db' t', Commit db t f = Some (root_hash T, db', t') /\ sound U db' /\ ext db db' /\ keeps db' t' M T /\
    (T = TNil \/ stored db' T).
Proof.
  intros Hcf Hs Hf [HT HM] Hwf Hcov. unfold Commit. destruct (proj1 HM) as [->|Hin].
  - unfold stands in HT. apply repr_nil_inv in HT as Hr. unfold hashRoot. rewrite Hr. eexists _, _. split; [reflexivity|].
    split; [done|]. split; [apply ext_refl|]. split; [split; [constructor|done]|by left].
  - rewrite hashRoot_eq by by eapply stands_not_nil. set (h := {| hgen := _; hlimit := _; onleaf := f |}).
    destruct (hashes_ok U h Hf db T Hin Hwf t.(root) true (Some db)) as (hn & cn & odb & Hh & Hm & Hg & He & Hsim & Hst & Hk);
      [done|exact HT|by intros ? [= <-]|].
    rewrite Hh. cbn [mbind option_bind]. destruct odb as [db'|]; [|done]. apply simplify_hash in Hsim as ->. cbn [hash_of mbind option_bind].
    rewrite tree_hash_id, inner_root_hash by done. destruct (Hg db' eq_refl) as [_ Hs'].
    eexists _, _. split; [done|]. split; [done|]. split; [exact He|]. split; [split; [exact Hst|done]|right; by apply Hk].
Qed.

(** Opening what is stored. *)
Lemma New_keeps db M T : holds M T -> (T = TNil \/ stored db T) -> root_hash T <> zeroHash ->
  (T <> TNil -> root_hash T <> emptyRoot) -> exists t, New (root_hash T) (Some db) = Ret t /\ keeps db t M T.
Proof.
  intros HM Hst Hz He. unfold New. cbn [or_panic mbind outcome_bind]. destruct (proj1 HM) as [->|Hin].
  - cbn [root_hash] in *. rewrite (bool_decide_false (emptyRoot <> emptyRoot)) by (by intros []). rewrite andb_false_r.
    eexists. split; [done|]. split; [constructor|done].
  - destruct Hst as [->|[Hfd Hb]]; [inversion Hin|]. pose proof (inner_not_nil _ Hin) as Hn. specialize (He Hn).
    rewrite !bool_decide_true by done. cbn [andb]. rewrite inner_root_hash by done. unfold resolveHash. rewrite tree_hash_id, Hfd.
    cbn [or_panic mbind outcome_bind]. rewrite tree_node_not_nil by done. cbn [mbind outcome_bind]. eexists. split; [done|]. split; [|done].
    cbn [set_root root]. apply tree_node_stands; [done|done|]. cbv zeta. done.
Qed.
End Content.

(** ** Equal hashes *)
Section Binding.
Context (U : list Z -> Prop) (U_free : collision_free U).

Definition bound (t : tree) : Prop := forall t', inner t' -> wf t' -> covered U t' -> tree_node None 0 t = tree_node None 0 t' -> t = t'.

(** The hash of a tree gives what is read from its encoding. *)
Lemma same_hash_node t t' : inner t -> inner t' -> wf t -> wf t' -> covered U t -> covered U t' -> tree_hash t = tree_hash t' ->
  tree_node None 0 t = tree_node None 0 t'.
Proof.
  intros Ht Ht' Hw Hw' Hc Hc' Hh. apply U_free in Hh; [|by apply covered_U..].
  pose proof (mustDecodeNode_ok t None 0 Ht Hw) as H. rewrite Hh, mustDecodeNode_ok in H by done. by injection H.
Qed.

Lemma same_ref c c' : place c -> place c' -> wf c -> wf c' -> covered U c -> covered U c' -> (inner c -> bound c) ->
  node_ref 0 c = node_ref 0 c' -> c = c'.
Proof.
  assert (forall c, inner c -> big c = false -> node_ref 0 c = tree_node None 0 c) as Hsmall by (intros x _ Hx; unfold node_ref; by rewrite Hx).
  assert (forall c v, inner c -> node_ref 0 c <> nilNode /\ node_ref 0 c <> valueNode v) as Hneq.
  { intros x v Hx. unfold node_ref. destruct (big x); [done|]. pose proof (tree_node_loaded x None 0 Hx). by destruct (tree_node None 0 x). }
  intros Hp Hp' Hw Hw' Hc Hc' IH Hr.
  destruct Hp as [[->|(v & -> & _)]|Ht], Hp' as [[->|(v' & -> & _)]|Ht']; try done.
  - by destruct (proj1 (Hneq c' [] Ht')).
  - by injection Hr as ->.
  - by destruct (proj2 (Hneq c' v Ht')).
  - by destruct (proj1 (Hneq c [] Ht)).
  - by destruct (proj2 (Hneq c v' Ht)).
  - apply (IH Ht); [done..|]. unfold node_ref in Hr. destruct (big c), (big c').
    + injection Hr as Hr. by apply same_hash_node.
    + pose proof (tree_node_loaded c' None 0 Ht') as Hl. by rewrite <- Hr in Hl.
    + pose proof (tree_node_loaded c None 0 Ht) as Hl. by rewrite Hr in Hl.
    + done.
Qed.

Lemma inner_bound t : inner t -> wf t -> covered U t -> bound t.
Proof.
  induction 1 as [k v Hk Hv|k t Hk Hne Hf Ht IH|cs last Hl Hcs Hlast Hp] using inner_nested_ind; intros Hwf Hcov t' Ht' Hwf' Hcov' He.
  1,2: destruct t' as [| |k' c'|cs']; try done; injection He as -> He;
    destruct Hwf as [_ Hwf], Hwf' as [_ Hwf'], Hcov as [_ Hcov], Hcov' as [_ Hcov']; f_equal;
    apply place_short in Ht' as Hp'.
  - apply same_ref; [left; right; by exists v|done|done|done|done|done|by inversion 1|exact He].
  - apply same_ref; [by right|done|done|done|done|done|auto|exact He].
  - destruct t' as [| |k' c'|cs']; try done. injection He as He. pose proof (place_full _ Ht') as Hpl'.
    assert (inner (TFull (cs ++ [last]))) as Hin.
  { constructor; try done. eapply Forall_impl; [exact Hcs|]. naive_solver. }
  pose proof (place_full _ Hin) as Hpl. destruct Hwf as [_ Hwf], Hwf' as [_ Hwf'], Hcov as [_ Hcov], Hcov' as [_ Hcov'].
  apply wf_full in Hwf, Hwf'. apply covered_full in Hcov, Hcov'. f_equal. apply list_eq. intros i.
  assert ((node_ref 0 <$> (cs ++ [last])) !! i = (node_ref 0 <$> cs') !! i) as Hi by (f_equal; exact He).
  rewrite !list_lookup_fmap in Hi.
  destruct ((cs ++ [last]) !! i) as [c|] eqn:Ec, (cs' !! i) as [c'|] eqn:Ec'; try done. f_equal.
  rewrite Forall_lookup in Hpl, Hpl', Hwf, Hwf', Hcov, Hcov'. injection Hi as Hi.
  apply same_ref; [by eapply Hpl|by eapply Hpl'|by eapply Hwf|by eapply Hwf'|by eapply Hcov|by eapply Hcov'| |exact Hi].
  intros Hci. apply (full_child_ind (fun c => wf c -> covered U c -> bound c) _ _ _ Hl Hcs Hlast c Ec Hci); [by eapply Hwf|by eapply Hcov].
Qed.

Lemma nil_hash : emptyRoot = tree_hash TNil.
Proof. vm_compute. reflexivity. Qed.

Lemma root_hash_tree T : root_hash T = tree_hash T.
Proof. destruct T; [apply nil_hash|done..]. Qed.

Lemma nil_encoding t : inner t -> encoding TNil <> encoding t.
Proof.
  assert (forall l, enc (Lst l) <> [128]) as H.
  { intros l. cbn [enc]. unfold enc_lst, header. destruct (Z.ltb_spec (Z.of_nat (length (concat (map enc l)))) 56); cbn [app]; intros [= H1 _]; lia. }
  intros Ht E. symmetry in E. revert E. unfold encoding. change (enc (tree_item TNil)) with [128].
  destruct Ht; apply H.
Qed.

Lemma same_root T T' : minimal T -> minimal T' -> wf T -> wf T' -> covered U T -> covered U T' -> U (encoding TNil) ->
  root_hash T = root_hash T' -> T = T'.
Proof.
  intros HT HT' Hw Hw' Hc Hc' HU. rewrite !root_hash_tree. intros Hr.
  destruct HT as [->|Ht], HT' as [->|Ht']; [done|..].
  - apply U_free in Hr; [|done|by apply covered_U]. by apply nil_encoding in Hr.
  - symmetry in Hr. apply U_free in Hr; [|done|by apply covered_U]. by apply nil_encoding in Hr.
  - apply (inner_bound T Ht Hw Hc); [done..|]. by apply same_hash_node.
Qed.
End Binding.
