(* ===== verification/TrieProof.v ===== *)
(** * Merkle proofs

    dvm/ethereum/trie/proof.go: collecting the nodes on the way to a key, and following
    them again from the hash of a root.  What proofs are written to and read from are
    arguments: [Put] of an ethdb.Putter, whose error is ignored, and [Get] of a
    DatabaseReader. *)
From Stdlib Require Import ZArith Lia.
From S2P Require Import Prelude Word Keccak TrieEncoding TrieNode TrieDatabase Trie TrieHasher.
Import Big.
Open Scope Z_scope.
Close Scope lanes_scope.

Section Prove.
Context {ED : EthDB} {MR : MapRange}.

(** The first loop of [Prove]: the nodes on the path to the key. *)
Fixpoint prove_path (dbnode : list Z -> Z -> option node) (cachegen : Z) (fuel : nat) (tn : node) (key : list Z) :
    outcome MissingNodeError (list node) :=
  match fuel with
  | O => Panic
  | S fuel =>
      match key, tn with
      | [], _ | _, nilNode => Ret []
      | _, shortNode nkey nval _ =>
          if (length key <? length nkey)%nat || negb (bool_decide (nkey = take (length nkey) key)) then Ret [tn]
          else l ← prove_path dbnode cachegen fuel nval (drop (length nkey) key); Ret (tn :: l)
      | k0 :: krest, fullNode cs _ =>
          c ← or_panic (cs !! Z.to_nat k0);
          l ← prove_path dbnode cachegen fuel c krest; Ret (tn :: l)
      | _, hashNode h =>
          n ← resolveHash dbnode cachegen h [];
          prove_path dbnode cachegen fuel n key
      | _, _ => Panic
      end
  end.

Context {P : Type} (Put : P -> list Z -> list Z -> P).

(** The second: what is hashed, and the root, become elements of the proof. *)
Fixpoint prove_nodes (h : hasher ED) (i : nat) (nodes : list node) (fromLevel : nat) (proofDb : P) : option P :=
  match nodes with
  | [] => Some proofDb
  | n :: nodes =>
      '(n, _, _) ← hashChildren h n None;
      '(hn, _) ← store h n None false;
      let hash := match hn with hashNode x => Some x | _ => None end in
      if is_some hash || (i =? 0)%nat then
        match fromLevel with
        | S fromLevel => prove_nodes h (S i) nodes fromLevel proofDb
        | O =>
            enc ← match WriteNode n with Ret e => Some e | Err _ => Some [] | Panic => None end;
            hash ← match hash with Some x => Some x | None => Keccak256 [enc] end;
            prove_nodes h (S i) nodes 0 (Put proofDb hash enc)
        end
      else prove_nodes h (S i) nodes fromLevel proofDb
  end.

Definition Prove (db : Database ED) (t : Trie) (key : list Z) (fromLevel : nat) (proofDb : P) : outcome MissingNodeError P :=
  let key := keybytesToHex key in
  nodes ← prove_path (Database_node db) t.(cachegen) (fuel_for key) t.(root) key;
  or_panic (prove_nodes {| hgen := 0; hlimit := 0; onleaf := None |} 0 nodes fromLevel proofDb).
End Prove.

(** ** Verifying *)
Definition at_node {A} (f : node -> A) (d : A) : list node -> nat -> A :=
  fix go cs i := match cs, i with
                 | [], _ => d
                 | c :: cs, O => f c
                 | c :: cs, S i => go cs i
                 end.

(** The rest of the key and the hash or the value it comes to; [None] is a panic. *)
Fixpoint get (tn : node) (key : list Z) : option (list Z * node) :=
  match tn with
  | shortNode nkey nval _ =>
      if (length key <? length nkey)%nat || negb (bool_decide (nkey = take (length nkey) key)) then Some ([], nilNode)
      else get nval (drop (length nkey) key)
  | fullNode cs _ =>
      match key with
      | [] => None
      | k0 :: krest => at_node (fun c => get c krest) None cs (Z.to_nat k0)
      end
  | hashNode _ => Some (key, tn)
  | nilNode => Some (key, nilNode)
  | valueNode _ => Some ([], tn)
  | _ => None
  end.

Inductive proof_error := errMissing (i : nat) (hash : list Z) | errBad (i : nat) (e : node_error).

(** A turn of the loop goes on, or returns the value and the number of nodes, an error, or panics. *)
Inductive turn := More (wantHash key : list Z) | Done (value : option (list Z)) (nodes : nat) | Failed (e : proof_error) | Crashed.

Definition verify_turn (proofDb : list Z -> option (list Z)) (i : nat) (wantHash key : list Z) : turn :=
  match proofDb wantHash with
  | None => Failed (errMissing i wantHash)
  | Some buf =>
      match decodeNode (Some wantHash) buf 0 with
      | Panic => Crashed
      | Err e => Failed (errBad i e)
      | Ret n =>
          match get n key with
          | None => Crashed
          | Some (keyrest, hashNode cld) => More (take hashLen (cld ++ drop (length cld) wantHash)) keyrest
          | Some (_, valueNode v) => Done (Some v) (S i)
          | Some (_, _) => Done None i
          end
      end
  end.

(** [None]: it has not returned after that many turns. *)
Fixpoint verify_loop (proofDb : list Z -> option (list Z)) (fuel i : nat) (wantHash key : list Z) : option turn :=
  match fuel with
  | O => None
  | S fuel =>
      match verify_turn proofDb i wantHash key with
      | More wantHash key => verify_loop proofDb fuel (S i) wantHash key
      | t => Some t
      end
  end.

(** Every node of a proof but the last takes some of the key, see TrieProofs.v. *)
Definition VerifyProof (rootHash key : list Z) (proofDb : list Z -> option (list Z)) : option turn :=
  let key := keybytesToHex key in verify_loop proofDb (length key) 0 rootHash key.
