(* ===== verification/SecureTrie.v ===== *)
(** * Tries with hashed keys

    dvm/ethereum/trie/secure_trie.go: a trie under the hashes of keys that remembers the
    keys themselves.  A copy of a trie does not own the cache it shares; whether a trie
    does is [owns], for the pointer to itself.

    What the tries of TrieContent.v give under hashes they give under keys, as long as the
    keys in use do not collide. *)
From Stdlib Require Import ZArith Lia.
From S2P Require Import Prelude Word Keccak KeccakSpec.
From S2P Require Import TrieEncoding TrieTree TrieMap TrieNode TrieDatabase Trie TrieHasher TrieCommit TrieContent TrieProof.
Import Big.
Open Scope Z_scope.
Close Scope lanes_scope.

Module Secure.
Record SecureTrie := { trie : Trie; secKeyCache : gmap (list Z) (list Z); owns : bool }.

Section Ops.
Context {ED : EthDB} {MR : MapRange}.
Implicit Types (db : Database ED) (t : SecureTrie).

Definition set_trie t (x : Trie) : SecureTrie := {| trie := x; secKeyCache := t.(secKeyCache); owns := t.(owns) |}.

(** The hash state is reset before every use. *)
Definition hashKey (key : list Z) : option (list Z) :=
  d ← Keccak.Write (Keccak.Reset NewKeccak256) key; Keccak.Sum d [].

(** The cache, and the trie as its owner. *)
Definition getSecKeyCache t : SecureTrie :=
  if t.(owns) then t else {| trie := t.(trie); secKeyCache := ∅; owns := true |}.

Definition set_cache t (c : gmap (list Z) (list Z)) : SecureTrie :=
  {| trie := t.(trie); secKeyCache := c; owns := t.(owns) |}.

Definition NewSecure (root : list Z) (db : option (Database ED)) (cachelimit : Z) : outcome MissingNodeError SecureTrie :=
  match db with
  | None => Panic
  | Some _ => t ← New root db; Ret {| trie := SetCacheLimit t cachelimit; secKeyCache := ∅; owns := false |}
  end.

Definition TryGet db t (key : list Z) : outcome MissingNodeError (option (list Z) * SecureTrie) :=
  hk ← or_panic (hashKey key);
  '(v, x) ← Trie.TryGet db t.(trie) hk; Ret (v, set_trie t x).

Definition TryUpdate db t (key value : list Z) : outcome MissingNodeError SecureTrie :=
  hk ← or_panic (hashKey key);
  x ← Trie.TryUpdate db t.(trie) hk value;
  let t := getSecKeyCache (set_trie t x) in
  Ret (set_cache t (<[hk := key]> t.(secKeyCache))).

(** The key is forgotten also when the trie is left as it was; the cache then is that of the error. *)
Definition TryDelete db t (key : list Z) : option (SecureTrie * option MissingNodeError) :=
  hk ← hashKey key;
  let t := getSecKeyCache t in
  let t := set_cache t (base.delete hk t.(secKeyCache)) in
  match Trie.TryDelete db t.(trie) hk with
  | Ret x => Some (set_trie t x, None)
  | Err e => Some (t, Some e)
  | Panic => None
  end.

(** [Get], [Update] and [Delete] log an error and go on. *)
Definition Get db t (key : list Z) : option (option (list Z) * SecureTrie) :=
  match TryGet db t key with Ret r => Some r | Err _ => Some (None, t) | Panic => None end.
Definition Update db t (key value : list Z) : option SecureTrie :=
  match TryUpdate db t key value with Ret t => Some t | Err _ => Some t | Panic => None end.
Definition Delete db t (key : list Z) : option SecureTrie := '(t, _) ← TryDelete db t key; Some t.

(** The key whose hash this is, from the cache or the database. *)
Definition GetKey db t (shaKey : list Z) : option (list Z) * SecureTrie :=
  let t := getSecKeyCache t in
  match t.(secKeyCache) !! shaKey with
  | Some key => (Some key, t)
  | None => (preimage db (BytesToHash shaKey), t)
  end.

Definition Commit db t (onleaf : option (LeafCallback ED)) : option (list Z * Database ED * SecureTrie) :=
  let t := getSecKeyCache t in
  '(db, t) ← (if (0 <? size t.(secKeyCache))%nat then
                _ ← Lock db;
                Some (foldl (fun db x => insertPreimage db (BytesToHash x.1) x.2) db (range t.(secKeyCache)), set_cache t ∅)
              else Some (db, t));
  '(root, db, x) ← TrieHasher.Commit db t.(trie) onleaf;
  Some (root, db, set_trie t x).

Definition Hash t : option (list Z * SecureTrie) := '(h, x) ← TrieHasher.Hash t.(trie); Some (h, set_trie t x).
Definition Root t : option (list Z * SecureTrie) := '(h, x) ← TrieHasher.Root t.(trie); Some (h, set_trie t x).

Definition Copy t : SecureTrie := {| trie := t.(trie); secKeyCache := t.(secKeyCache); owns := false |}.

Definition Prove {P} (Put : P -> list Z -> list Z -> P) db t (key : list Z) (fromLevel : nat) (proofDb : P) :
    outcome MissingNodeError P := TrieProof.Prove Put db t.(trie) key fromLevel proofDb.
End Ops.
End Secure.

(** ** As maps *)
Section Maps.
Context {ED : EthDB} {MR : MapRange} (U : list Z -> Prop).
Implicit Types (db : Database ED) (t : Secure.SecureTrie) (M : content).

Lemma hashKey_sponge key : Secure.hashKey key = Some (sponge key).
Proof. unfold Secure.hashKey. rewrite Reset_after, (Write_after []). cbn [mbind option_bind app]. apply Sum_after. Qed.

(** The trie holds under hashes what the map holds under the keys in use, and the keys it remembers are those. *)
Definition secures db t M : Prop :=
  (exists M', represents db t.(Secure.trie) M' /\ forall k, U k -> M' !! sponge k = M !! k) /\
  forall h k, t.(Secure.secKeyCache) !! h = Some k -> h = sponge k.

Definition secure_step db t (o : op) : option (option (list Z) * Secure.SecureTrie) :=
  match o with
  | OGet k => Secure.Get db t k
  | OUpdate k v => t ← Secure.Update db t k v; Some (None, t)
  | ODelete k => t ← Secure.Delete db t k; Some (None, t)
  end.

Fixpoint secure_run db t (ops : list op) : option (list (option (list Z)) * Secure.SecureTrie) :=
  match ops with
  | [] => Some ([], t)
  | o :: ops => '(v, t) ← secure_step db t o; '(vs, t) ← secure_run db t ops; Some (v :: vs, t)
  end.

Definition op_in (o : op) : Prop := match o with OGet k | OUpdate k _ | ODelete k => U k end.
Definition under_hash (o : op) : op :=
  match o with OGet k => OGet (sponge k) | OUpdate k v => OUpdate (sponge k) v | ODelete k => ODelete (sponge k) end.

Lemma under_hash_bytes o : op_bytes (under_hash o).
Proof. destruct o; apply sponge_is_bytes. Qed.

Context (U_free : collision_free U).

Lemma map_under_hash M M' o : op_in o -> (forall k, U k -> M' !! sponge k = M !! k) ->
  (map_step M' (under_hash o)).1 = (map_step M o).1 /\
  forall k, U k -> (map_step M' (under_hash o)).2 !! sponge k = (map_step M o).2 !! k.
Proof.
  intros Ho HM.
  assert (forall k x, U k -> U x -> k <> x -> sponge k <> sponge x) as Hne by (intros k x Hk Hx Hn H; by apply U_free in H).
  destruct o as [k|k [|x v]|k]; cbn [under_hash map_step op_in fst snd] in *; (split; [auto|intros k' Hk'; auto]);
    (destruct (decide (k' = k)) as [->|Hd]; [by rewrite ?lookup_delete_eq, ?lookup_insert_eq|]);
    rewrite ?lookup_delete_ne, ?lookup_insert_ne by (try apply Hne; congruence); auto.
Qed.

Lemma own_cache t h k : (forall h k, t.(Secure.secKeyCache) !! h = Some k -> h = sponge k) ->
  (Secure.getSecKeyCache t).(Secure.secKeyCache) !! h = Some k -> h = sponge k.
Proof. intros H. unfold Secure.getSecKeyCache. destruct (Secure.owns t); [apply H|done]. Qed.

Lemma own_trie t : Secure.trie (Secure.getSecKeyCache t) = Secure.trie t.
Proof. unfold Secure.getSecKeyCache. by destruct (Secure.owns t). Qed.

Lemma secure_step_ok db t M o : secures db t M -> op_in o ->
  exists t', secure_step db t o = Some ((map_step M o).1, t') /\ secures db t' (map_step M o).2.
Proof.
  intros [(M' & Ht & HM) Hc] Ho. destruct (map_under_hash M M' o Ho HM) as [Hv HM2].
  destruct (trie_step_keeps db t.(Secure.trie) M' (under_hash o) Ht (under_hash_bytes o)) as (x & Hx & Hx').
  destruct o as [k|k v|k]; cbn [secure_step under_hash trie_step] in *.
  - unfold Secure.Get, Secure.TryGet. rewrite hashKey_sponge. cbn [or_panic mbind outcome_bind]. rewrite Hx. cbn [mbind outcome_bind].
    eexists. split; [by rewrite Hv|]. split; [exists M'; by split|exact Hc].
  - unfold Secure.Update, Secure.TryUpdate. rewrite hashKey_sponge. cbn [or_panic mbind outcome_bind].
    destruct (Trie.TryUpdate db (Secure.trie t) (sponge k) v) as [y|e|]; cbn [mbind outcome_bind] in Hx; [|done|done].
    injection Hx as Hx0 <-. cbn [mbind outcome_bind option_bind]. eexists. split; [by destruct v|]. split.
    + eexists. split; [|exact HM2]. cbn [Secure.set_cache Secure.trie]. by rewrite own_trie.
    + intros h k'. cbn [Secure.set_cache Secure.secKeyCache]. destruct (decide (h = sponge k)) as [->|Hne].
      * rewrite lookup_insert_eq. by intros [= <-].
      * rewrite lookup_insert_ne by congruence. by apply own_cache.
  - unfold Secure.Delete, Secure.TryDelete. rewrite hashKey_sponge. cbn [mbind option_bind Secure.set_cache Secure.trie].
    rewrite own_trie. destruct (Trie.TryDelete db (Secure.trie t) (sponge k)) as [y|e|]; cbn [mbind outcome_bind] in Hx; [|done|done].
    injection Hx as <-. cbn [mbind outcome_bind option_bind]. eexists. split; [done|]. split; [eexists; split; [exact Hx'|exact HM2]|].
    intros h k'. cbn [Secure.set_trie Secure.set_cache Secure.secKeyCache]. rewrite lookup_delete_Some. intros [_ H]. by apply (own_cache t).
Qed.

Lemma secure_run_ok db ops : Forall op_in ops -> forall t M, secures db t M ->
  exists t', secure_run db t ops = Some ((map_run M ops).1, t') /\ secures db t' (map_run M ops).2.
Proof.
  induction 1 as [|o ops Ho _ IH]; intros t M Ht; [by exists t|]. cbn [secure_run map_run].
  destruct (secure_step_ok db t M o Ht Ho) as (t1 & -> & Ht1). destruct (map_step M o) as [v M1]. cbn [mbind option_bind fst snd] in *.
  destruct (IH t1 M1 Ht1) as (t2 & -> & Ht2). destruct (map_run M1 ops) as [vs M2]. by exists t2.
Qed.
End Maps.
