(* ===== verification/TrieProofs.v ===== *)
(** * Proofs prove

    What the functions of TrieProof.v do on a trie that stands for a tree: the elements of
    the proof are the stored nodes on the path to the key, and following them gives what
    the tree holds. *)
From Stdlib Require Import ZArith Lia.
From S2P Require Import Prelude Word Rlp RlpSpec RlpDecode Keccak KeccakSpec.
From S2P Require Import TrieEncoding TrieTree TrieMap TrieNode TrieDatabase Trie TrieRefines TrieHasher TrieCommit TrieContent TrieProof.
Import Big.
Open Scope Z_scope.
Close Scope lanes_scope.

(** ** Paths *)
Fixpoint path (t : tree) (key : list Z) : list tree :=
  match t with
  | TNil | TVal _ => []
  | TShort k c => t :: if bool_decide (take (length k) key = k) then path c (drop (length k) key) else []
  | TFull cs => t :: match key with
                     | [] => []
                     | i :: key => at_child (fun c => path c key) [] cs (Z.to_nat i)
                     end
  end.

(** The nodes of the path that are stored: the first, and those of long encodings. *)
Definition proof_of (t : tree) (key : list Z) : list tree :=
  match path t key with [] => [] | s :: l => s :: filter (fun s => big s = true) l end.

Lemma path_short k t r : path (TShort k t) (k ++ r) = TShort k t :: path t r.
Proof. cbn [path]. rewrite take_app_length, drop_app_length. by rewrite bool_decide_true. Qed.

Lemma path_full cs i r c : cs !! Z.to_nat i = Some c -> path (TFull cs) (i :: r) = TFull cs :: path c r.
Proof. intros Hc. cbn [path]. by rewrite at_child_lookup, Hc. Qed.

Lemma at_node_lookup {A} (f : node -> A) d cs i : at_node f d cs i = match cs !! i with Some c => f c | None => d end.
Proof. revert i. induction cs as [|c cs IH]; by intros [|i]; cbn. Qed.

(** What is below: shorter nodes do as well. *)
Definition part (s t : tree) : Prop := inner s /\ (wf t -> wf s) /\ forall U, covered U t -> covered U s.

Lemma part_refl t : inner t -> part t t.
Proof. done. Qed.

Lemma part_trans r s t : part r s -> part s t -> part r t.
Proof. intros (H1 & H2 & H3) (H4 & H5 & H6). by split_and!; auto. Qed.

Lemma part_short k t : inner t -> part t (TShort k t).
Proof. intros Ht. split; [done|]. split; [by intros [_ H]|by intros U [_ H]]. Qed.

Lemma part_full cs i c : cs !! i = Some c -> inner c -> part c (TFull cs).
Proof.
  intros Hc Ht. split; [done|]. split.
  - intros [_ H]. apply wf_full in H. rewrite Forall_lookup in H. by apply (H i).
  - intros U [_ H]. apply covered_full in H. rewrite Forall_lookup in H. by apply (H i).
Qed.

(** Where keys go below a node. *)
Lemma key_short k t key : inner (TShort k t) -> hexkey key ->
  (exists r, key = k ++ r /\ k <> [] /\ comes_to t r) \/ take (length k) key <> k.
Proof.
  intros Ht Hk. destruct (decide (take (length k) key = k)) as [H|H]; [left|by right].
  apply take_prefix in H as [r ->]. exists r. split; [done|]. by apply short_child.
Qed.

Lemma key_full cs key : inner (TFull cs) -> hexkey key ->
  exists i r c, key = i :: r /\ cs !! Z.to_nat i = Some c /\ comes_to c r.
Proof.
  intros Ht Hk. destruct key as [|i r]; [by apply hexkey_nil in Hk|]. pose proof (hexkey_head _ _ Hk).
  destruct (lookup_lt_is_Some_2 cs (Z.to_nat i)) as [c Hc]; [apply inner_full_inv in Ht as (-> & _); lia|].
  exists i, r, c. split_and!; [done|done|]. by eapply full_child.
Qed.

Lemma path_parts t : inner t -> forall key, hexkey key -> Forall (fun s => part s t) (path t key).
Proof.
  induction 1 as [k v Hk Hv|k t Hk Hne Hf Ht IH|cs last Hl Hcs Hlast Hp] using inner_nested_ind; intros key Hkey.
  - constructor; [by apply part_refl; constructor|]. by destruct (bool_decide _).
  - assert (inner (TShort k t)) as Hin by by constructor. constructor; [by apply part_refl|].
    destruct (bool_decide _) eqn:E; [|constructor]. apply bool_decide_eq_true, take_prefix in E as [r ->].
    rewrite drop_app_length. apply hexkey_drop in Hkey; [|done]. eapply Forall_impl; [by apply IH|].
    intros s Hs. eapply part_trans; [exact Hs|by apply part_short].
  - assert (inner (TFull (cs ++ [last]))) as Hin.
    { constructor; try done. eapply Forall_impl; [exact Hcs|]. naive_solver. }
    destruct (key_full _ _ Hin Hkey) as (i & r & c & -> & Hc & Hr). rewrite (path_full _ _ _ _ Hc). constructor; [by apply part_refl|].
    destruct Hr as [[Hci Hr]|[[-> _]|[(v & -> & _) _]]]; [|constructor|constructor].
    pose proof (full_child_ind (fun c => forall key, hexkey key -> Forall (fun s => part s c) (path c key)) _ _ _ Hl Hcs Hlast c Hc Hci r Hr) as H.
    eapply Forall_impl; [exact H|]. intros s Hs. eapply part_trans; [exact Hs|by eapply part_full].
Qed.

(** ** Making proofs *)
Section Making.
Context {ED : EthDB} {MR : MapRange} (db : Database ED) (cachegen : Z).

(** A node of the path as it is in the trie. *)
Definition on_path (n : node) (s : tree) : Prop := is_loaded n = true /\ exists b, stands db b n s.

Lemma stands_loaded_eq b n t : stands db b n t -> is_loaded n = true -> on_path n t.
Proof. intros H Hl. split; [done|by exists b]. Qed.

Lemma prove_path_ok fuel : forall b n t key, stands db b n t -> comes_to t key -> (need n key <= fuel)%nat ->
  exists ns, prove_path (Database_node db) cachegen fuel n key = Ret ns /\ Forall2 on_path ns (path t key).
Proof.
  induction fuel as [|fuel IH]; intros b n t key Hn Hk Hf; [unfold need in Hf; destruct (is_hash n); lia|].
  destruct Hk as [[Ht Hk]|[[-> Hk]|[(v & -> & _) ->]]].
  - destruct (stands_cases _ _ _ _ Hn Ht) as [[x ->]|[(k & w & f & u & -> & ->)|(cs & f & ts & -> & ->)]].
    + destruct key as [|k0 kr]; [by apply hexkey_nil in Hk|]. cbn [prove_path].
      pose proof (resolveHash_good _ false _ _ cachegen b x t [] (k0 :: kr) Hn) as H.
      destruct (good_Ret _ _ _ _ _ _ H) as (n & -> & Hl & Hn'). cbn [mbind outcome_bind].
      apply (IH b); [done|by left|]. rewrite loaded_need by done. unfold need in Hf. cbn [is_hash] in Hf. lia.
    + destruct (flag_of_short _ _ _ _ _ _ _ Hn) as (_ & Hw & _).
      destruct key as [|k0 kr]; [by apply hexkey_nil in Hk|]. cbn [prove_path].
      destruct (key_short k u _ Ht Hk) as [(r & Hr & Hne & Hc)|Hno].
      * rewrite Hr, path_short. assert ((length (k ++ r) <? length k)%nat || negb (bool_decide (k = take (length k) (k ++ r))) = false) as ->.
        { rewrite take_app_length, bool_decide_true, orb_false_r by done. apply Nat.ltb_ge. rewrite length_app. lia. }
        rewrite drop_app_length. destruct (IH false w u r Hw Hc) as (ns & -> & Hns).
        { pose proof (need_le w r). unfold need in Hf. cbn [is_hash] in Hf. rewrite Hr, length_app in Hf. destruct k; [done|cbn in Hf; lia]. }
        cbn [mbind outcome_bind]. eexists. split; [done|]. constructor; [|done]. by eapply stands_loaded_eq.
      * assert ((length (k0 :: kr) <? length k)%nat || negb (bool_decide (k = take (length k) (k0 :: kr))) = true) as ->.
        { apply orb_true_iff. right. rewrite bool_decide_false; [done|congruence]. }
        cbn [path]. rewrite bool_decide_false by done. eexists. split; [done|]. constructor; [|done]. by eapply stands_loaded_eq.
    + destruct (flag_of_full _ _ _ _ _ Hn) as [Hw _].
      destruct (key_full _ _ Ht Hk) as (i & r & c & -> & Hc & Hr). rewrite (path_full _ _ _ _ Hc). cbn [prove_path].
      destruct (Forall2_lookup_r _ _ _ _ _ Hw Hc) as (d & Hd & Hdc). rewrite Hd. cbn [or_panic mbind outcome_bind].
      destruct (IH false d c r Hdc Hr) as (ns & -> & Hns).
      { pose proof (need_le d r). unfold need in Hf. cbn in Hf. lia. }
      cbn [mbind outcome_bind]. eexists. split; [done|]. constructor; [|done]. by eapply stands_loaded_eq.
  - unfold stands in Hn. apply repr_nil_inv in Hn as ->. exists []. split; [by destruct key|constructor].
  - exists []. by split.
Qed.

(** Without a database. *)
Context (h : hasher ED) (no_leaf : h.(onleaf) = None).

Lemma hash_pure t n : inner t -> wf t -> stands db false n t ->
  exists hn cn, hash h n None false = Some (hn, cn, None) /\ simplifyNode hn = Some (raw_ref t).
Proof.
  intros Ht Hwf Hn. assert (leaf_ok (fun _ => False) h.(onleaf)) as Hleaf by by rewrite no_leaf.
  destruct (hashes_ok (fun _ => False) h Hleaf db t Ht Hwf n false None) as (hn & cn & odb & Hh & Hm & _ & _ & Hs & _); [done|done|done|].
  destruct odb; [done|]. by exists hn, cn.
Qed.

(** The node of the database for a node of the trie. *)
Lemma collapse_ok n s : on_path n s -> inner s -> wf s ->
  exists c n' k d, hashChildren h n None = Some (c, n', None) /\ simplifyNode c = Some (raw_of s) /\
    cache c = Some (k, d) /\ (k = None \/ k = Some (tree_hash s)).
Proof.
  intros [Hl [b Hn]] Hs Hwf. assert (leaf_ok (fun _ => False) h.(onleaf)) as Hleaf by by rewrite no_leaf.
  assert (forall f : nodeFlag, flag_ok db b f s -> f.(fhash) = None \/ f.(fhash) = Some (tree_hash s)) as Hcache.
  { intros f [H _]. destruct (fhash f) as [x|]; [right|by left]. by destruct (H x eq_refl) as [-> _]. }
  destruct (stands_cases _ _ _ _ Hn Hs) as [[x ->]|[(k & w & f & u & -> & ->)|(cs & f & ts & -> & ->)]]; [done|..].
  - destruct (flag_of_short _ _ _ _ _ _ _ Hn) as (_ & Hw & Hfl). apply Hcache in Hfl. cbn [hashChildren].
    pose proof (inner_short_inv k u Hs) as [Hkey Hu]. destruct (compact_ok k Hkey) as (-> & _). cbn [mbind option_bind].
    destruct Hu as [(_ & v & -> & _)|(_ & _ & Hu)].
    + unfold stands in Hw. apply repr_value_inv in Hw as ->. eexists _, _, _, _. by split_and!.
    + destruct (hash_pure u w Hu) as (hn & cn & Hh & Hsim); [by destruct Hwf|done|].
      assert (forall A (x y : A), match w with valueNode _ => x | _ => y end = y) as ->.
      { intros A x y. destruct w; try done. unfold stands in Hw. inversion Hw; subst. inversion Hu. }
      rewrite Hh. cbn [mbind option_bind]. eexists _, _, _, _. split; [reflexivity|].
      split; [|by split]. cbn [simplifyNode]. by rewrite Hsim.
  - destruct (flag_of_full _ _ _ _ _ Hn) as [Hw Hfl]. apply Hcache in Hfl. cbn [hashChildren].
    pose proof Hs as (Hlen & Hch & _)%inner_full_inv. destruct Hwf as [_ Hwf]. apply wf_full in Hwf. rewrite Forall_lookup in Hwf.
    destruct (hash_each_ok (fun _ => False) h db (fun c db => hash h c db false) (fun _ _ => eq_refl) ts 16 cs None Hw)
      as (hs & cs' & odb1 & H1 & Hm1 & _ & _ & Hs1 & _); [done|by apply place_full| | |].
    + intros i t Hi Hlt. destruct (Hch i t Hi) as [[_ [->|Hti]]|[-> _]]; [by left| |lia]. right. split; [done|]. split; [done|].
      apply hashes_ok; [done|done|]. by apply (Hwf i).
    + intros i t Hi Hge. destruct (Hch i t Hi) as [[? _]|[_ H]]; [lia|exact H].
    + destruct odb1; [done|]. rewrite H1. cbn [mbind option_bind]. eexists _, _, _, _. split; [reflexivity|].
      split; [|by split]. change (raw_of (TFull ts)) with (rawFullNode (map raw_ref ts)). cbn [simplifyNode]. by rewrite Hs1.
Qed.
Lemma store_pure c k d s : inner s -> wf s -> simplifyNode c = Some (raw_of s) -> cache c = Some (k, d) ->
  k = None \/ k = Some (tree_hash s) -> store h c None false = Some (if big s then hashNode (tree_hash s) else c, None).
Proof.
  intros Hs Hwf Hc Hk Hkh. assert (leaf_ok (fun _ => False) h.(onleaf)) as Hleaf by by rewrite no_leaf.
  destruct (store_ok (fun _ => False) h Hleaf db c false None s Hc Hs Hwf) as (odb & -> & Hm & _); [done|done|by exists k, d|].
  by destruct odb.
Qed.

Context {P : Type} (Put : P -> list Z -> list Z -> P).
Definition put_node (p : P) (s : tree) : P := Put p (tree_hash s) (encoding s).

Lemma prove_nodes_ok : forall ns ss i lvl p, Forall2 on_path ns ss -> Forall (fun s => inner s /\ wf s) ss ->
  prove_nodes Put h i ns lvl p =
    Some (foldl put_node p (drop lvl (match i, ss with O, s :: ss => s :: filter (fun s => big s = true) ss | _, _ => filter (fun s => big s = true) ss end))).
Proof.
  induction ns as [|n ns IH]; intros ss i lvl p Hns Hss.
  { apply Forall2_nil_inv_l in Hns as ->. cbn. by destruct i, lvl. }
  apply Forall2_cons_inv_l in Hns as (s & ss' & Hn & Hns & ->). apply Forall_cons in Hss as [[Hs Hwf] Hss].
  destruct (collapse_ok n s Hn Hs Hwf) as (c & n' & k & d & Hh & Hc & Hk & Hkh). cbn [prove_nodes]. rewrite Hh. cbn [mbind option_bind].
  rewrite (store_pure c k d s) by done. cbn [mbind option_bind].
  assert (match (if big s then hashNode (tree_hash s) else c) with hashNode x => Some x | _ => None end = if big s then Some (tree_hash s) else None) as ->.
  { destruct (big s); [done|]. by destruct (simplify_inner c s Hs Hc) as [(? & ? & ? & ->)|(? & ? & ->)]. }
  rewrite (WriteNode_encoding c s Hs Hwf Hc). cbn [mbind option_bind].
  assert (match (if big s then Some (tree_hash s) else None) with Some x => Some x | None => Keccak256 [encoding s] end = Some (tree_hash s)) as ->.
  { destruct (big s); [done|]. rewrite Keccak256_sponge. cbn [concat]. by rewrite app_nil_r. }
  cbn [mbind option_bind].
  assert (forall lvl p, prove_nodes Put h (S i) ns lvl p = Some (foldl put_node p (drop lvl (filter (fun s => big s = true) ss')))) as IH'.
  { intros lvl' p'. by rewrite (IH ss'). }
  destruct i as [|i].
  - rewrite orb_true_r. destruct lvl as [|lvl]; rewrite IH'; done.
  - rewrite orb_false_r, filter_cons. destruct (big s) eqn:Hb; cbn [is_some].
    + rewrite decide_True by done. destruct lvl as [|lvl]; rewrite IH'; done.
    + rewrite decide_False by done. apply IH'.
Qed.
End Making.

Lemma Prove_ok {ED : EthDB} {MR : MapRange} {P} (Put : P -> list Z -> list Z -> P) db t M T key lvl p :
  keeps db t M T -> wf T -> bytes key ->
  Prove Put db t key lvl p = Ret (foldl (put_node Put) p (drop lvl (proof_of T (keybytesToHex key)))).
Proof.
  intros [HT HM] Hwf Hb. unfold Prove. cbv zeta.
  destruct (prove_path_ok db t.(cachegen) (fuel_for (keybytesToHex key)) true t.(root) T (keybytesToHex key) HT
    (comes_to_key T key (proj1 HM) Hb) (need_key _ key)) as (ns & -> & Hns). cbn [mbind outcome_bind].
  rewrite (prove_nodes_ok db {| hgen := 0; hlimit := 0; onleaf := None |} eq_refl Put ns (path T (keybytesToHex key)) 0 lvl p Hns).
  - cbn [or_panic]. do 3 f_equal. unfold proof_of. by destruct (path _ _).
  - destruct (proj1 HM) as [->|Ht]; [constructor|]. eapply Forall_impl; [apply (path_parts T Ht); by apply hexkey_of|].
    intros s (H1 & H2 & _). auto.
Qed.

(** ** Following them *)

(** Where [get] comes to: a part below of its own with at most [n] of the key left, nothing, or a value. *)
Definition comes (n : nat) (t : tree) (key : list Z) (r : option (list Z * node)) : Prop :=
  (exists s rest, r = Some (rest, hashNode (tree_hash s)) /\ big s = true /\ (inner t /\ part s t) /\ hexkey rest /\ (length rest <= n)%nat /\
     tget t key = tget s rest /\ forall x, x ∈ path s rest -> x ∈ path t key) \/
  (exists rest, r = Some (rest, nilNode) /\ tget t key = None) \/
  (exists v, r = Some ([], valueNode v) /\ tget t key = Some v).

Definition descends (t : tree) : Prop := forall h g key, hexkey key ->
  comes (pred (length key)) t key (get (tree_node h g t) key).

Lemma comes_le n m t key r : (n <= m)%nat -> comes n t key r -> comes m t key r.
Proof.
  intros Hle [(s & rest & H1 & H2 & H3 & H4 & H5 & H6)|H]; [|by right]. left. exists s, rest.
  split; [done|]. split; [done|]. split; [done|]. split; [done|]. split; [lia|done].
Qed.

Lemma ref_comes c g rest : comes_to c rest -> (inner c -> descends c) -> comes (length rest) c rest (get (node_ref g c) rest).
Proof.
  intros [[Hc Hk]|[[-> Hk]|[(v & -> & _) ->]]] IH.
  - unfold node_ref. destruct (big c) eqn:Hb.
    + left. exists c, rest. split; [done|]. split; [done|]. split; [split; [done|by apply part_refl]|]. by split_and!.
    + eapply comes_le; [|by apply IH]. lia.
  - right. left. by exists rest.
  - right. right. by exists v.
Qed.

(** From a child to its parent. *)
Lemma comes_up c t rest key n r : inner t -> comes n c rest r -> (inner c -> part c t) -> tget t key = tget c rest ->
  path t key = t :: path c rest -> comes n t key r.
Proof.
  intros Ht [(s & rest' & -> & H1 & [Hc H2] & H3 & H4 & H5 & H6)|[(rest' & -> & H)|(v & -> & H)]] Hp Hg Hpath.
  - left. exists s, rest'. split; [done|]. split; [done|]. split; [split; [done|]; eapply part_trans; [exact H2|by apply Hp]|]. split; [done|]. split; [done|]. split; [congruence|].
    intros x Hx. rewrite Hpath. right. by apply H6.
  - right. left. exists rest'. split; [done|congruence].
  - right. right. exists v. split; [done|congruence].
Qed.

Lemma get_descends t : inner t -> descends t.
Proof.
  induction 1 as [k v Hk Hv|k t Hk Hne Hf Ht IH|cs last Hl Hcs Hlast Hp] using inner_nested_ind; intros h g key Hkey.
  1,2: match goal with |- comes _ (TShort ?K ?T) _ _ =>
      assert (inner (TShort K T)) as Hin by (by constructor);
      change (tree_node h g (TShort K T)) with (shortNode K (node_ref g T) (decoded g h));
      destruct (key_short K T key Hin Hkey) as [(r & -> & HK & Hr)|Hno];
      [|cbn [get]; right; left; exists []; split;
        [assert ((length key <? length K)%nat || negb (bool_decide (K = take (length K) key)) = true) as ->;
          [apply orb_true_iff; right; rewrite bool_decide_false; [done|congruence]|done]
        |cbn [tget]; by rewrite bool_decide_false]] end;
    cbn [get]; rewrite take_app_length, bool_decide_true by done;
    rewrite (proj2 (Nat.ltb_ge _ _)) by (rewrite !length_app; lia); cbn [negb orb]; rewrite drop_app_length;
    eapply comes_up; [exact Hin|eapply comes_le; [|apply ref_comes; [exact Hr|]]| |by rewrite tget_short_app|by rewrite path_short].
  - rewrite !length_app. cbn. lia.
  - by inversion 1.
  - by inversion 1.
  - rewrite length_app. destruct k; [done|cbn; lia].
  - done.
  - intros _. by apply part_short.
  - assert (inner (TFull (cs ++ [last]))) as Hin.
    { constructor; try done. eapply Forall_impl; [exact Hcs|]. naive_solver. }
    destruct (key_full _ _ Hin Hkey) as (i & r & c & -> & Hc & Hr).
    change (tree_node h g (TFull (cs ++ [last]))) with (fullNode (map (node_ref g) (cs ++ [last])) (decoded g h)).
    cbn [get]. rewrite at_node_lookup, list_lookup_fmap, Hc. cbn [fmap option_fmap option_map].
    eapply comes_up; [exact Hin|eapply comes_le; [|apply ref_comes; [exact Hr|]]| |by rewrite tget_full, Hc|by apply path_full].
    + cbn. lia.
    + intros Hci. by apply (full_child_ind descends _ _ _ Hl Hcs Hlast c Hc).
    + intros Hci. by eapply part_full.
Qed.

(** ** Verifying *)
Section Verifying.
Context (U : list Z -> Prop) (U_free : collision_free U) (proofDb : list Z -> option (list Z)).

(** What is in the proof is under its hash. *)
Definition hashed : Prop := forall h e, length h = 32%nat -> proofDb h = Some e -> h = sponge e /\ U e.

(** The value of the key, or the hash of a node of the proof that is missing. *)
Definition verified (t : tree) (key : list Z) (r : turn) : Prop :=
  (exists n, r = Done (tget t key) n) \/
  (exists j s, r = Failed (errMissing j (tree_hash s)) /\ (s = t \/ (big s = true /\ s ∈ path t key)) /\ proofDb (tree_hash s) = None).

Lemma verify_ok : hashed -> forall fuel t key i, inner t -> wf t -> covered U t -> hexkey key -> (length key <= fuel)%nat ->
  exists r, verify_loop proofDb fuel i (tree_hash t) key = Some r /\ verified t key r.
Proof.
  intros Hdb. induction fuel as [|fuel IH]; intros t key i Ht Hwf Hcov Hk Hf.
  { destruct key; [by apply hexkey_nil in Hk|cbn in Hf; lia]. }
  cbn [verify_loop]. unfold verify_turn. destruct (proofDb (tree_hash t)) as [e|] eqn:He.
  2: { eexists. split; [reflexivity|]. right. exists i, t. split; [done|]. split; [by left|done]. }
  destruct (Hdb _ _ (tree_hash_length t) He) as [Heq HU].
  apply U_free in Heq; [|by apply covered_U|done]. subst e.
  pose proof (decodeNode_ok t Ht Hwf (S (length (encoding t))) (Some (tree_hash t)) [] 0) as Hd. rewrite app_nil_r in Hd.
  unfold decodeNode. rewrite Hd by (by lia || by destruct t, Hwf). clear Hd.
  destruct (get_descends t Ht (Some (tree_hash t)) 0 key Hk) as [(s & rest & -> & Hb & [_ (Hs & Hws & Hcs)] & Hr & Hl & Hg & Hp)|[(rest & -> & Hg)|(v & -> & Hg)]].
  - assert (take hashLen (tree_hash s ++ drop (length (tree_hash s)) (tree_hash t)) = tree_hash s) as ->.
    { unfold hashLen. rewrite take_app_length' by (by rewrite tree_hash_length). done. }
    destruct (IH s rest (S i)) as (r & Hr' & Hv); [done|by apply Hws|by apply Hcs|done|destruct key; [by apply hexkey_nil in Hk|cbn in *; lia]|].
    exists r. split; [done|]. destruct Hv as [(n & ->)|(j & s' & -> & Hs' & Hmiss)]; [left; exists n; by rewrite Hg|].
    right. exists j, s'. split; [done|]. split; [|done]. right. destruct Hs' as [->|[Hb' Hin]]; [split; [done|]|split; [done|by apply Hp]].
    apply Hp. destruct Hs; cbn [path]; by left.
  - eexists. split; [reflexivity|]. left. exists i. by rewrite Hg.
  - eexists. split; [reflexivity|]. left. exists (S i). by rewrite Hg.
Qed.

(** Of a whole trie. *)
Lemma VerifyProof_ok T M key : hashed -> holds M T -> T <> TNil -> wf T -> covered U T -> bytes key ->
  exists r, VerifyProof (root_hash T) key proofDb = Some r /\ verified T (keybytesToHex key) r.
Proof.
  intros Hdb [[->|Ht] _] Hne Hwf Hcov Hb; [done|]. unfold VerifyProof. cbv zeta. rewrite inner_root_hash by done.
  apply verify_ok; try done. by apply hexkey_of.
Qed.
End Verifying.

(** ** Proofs in a map *)
Definition proof_map (l : list tree) : gmap (list Z) (list Z) :=
  foldl (put_node (fun m k v => <[k := v]> m)) ∅ l.

Lemma proof_map_snoc l s : proof_map (l ++ [s]) = <[tree_hash s := encoding s]> (proof_map l).
Proof. unfold proof_map. by rewrite foldl_app. Qed.

Lemma proof_map_hashed U l : Forall (fun s => U (encoding s)) l -> forall h e, proof_map l !! h = Some e -> h = sponge e /\ U e.
Proof.
  induction l as [|s l IH] using rev_ind; intros Hl h e; [done|]. rewrite proof_map_snoc.
  apply Forall_app in Hl as [Hl [Hs _]%Forall_cons]. destruct (decide (h = tree_hash s)) as [->|Hne].
  - rewrite lookup_insert_eq. by intros [= <-].
  - rewrite lookup_insert_ne by congruence. by apply IH.
Qed.

Lemma proof_map_has l s : s ∈ l -> proof_map l !! tree_hash s <> None.
Proof.
  induction l as [|x l IH] using rev_ind; [by intros ?%not_elem_of_nil|]. rewrite proof_map_snoc, elem_of_app, list_elem_of_singleton.
  destruct (decide (tree_hash s = tree_hash x)) as [->|Hne]; [by rewrite lookup_insert_eq|].
  rewrite lookup_insert_ne by congruence. intros [H| ->]; [by apply IH|done].
Qed.

Lemma proof_of_in t key s : inner t -> s = t \/ (big s = true /\ s ∈ path t key) -> s ∈ proof_of t key.
Proof.
  intros Ht H. unfold proof_of. assert (exists l, path t key = t :: l) as [l Hl] by (destruct Ht; cbn [path]; by eexists).
  rewrite Hl in *. destruct H as [->|[Hb H]]; [by left|]. apply elem_of_cons in H as [->|H]; [by left|]. right.
  by apply list_elem_of_filter.
Qed.

Lemma proof_of_parts t key : inner t -> hexkey key -> Forall (fun s => part s t) (proof_of t key).
Proof.
  intros Ht Hk. pose proof (path_parts t Ht key Hk) as H. unfold proof_of. destruct (path t key) as [|s l]; [done|].
  apply Forall_cons in H as [H1 H2]. constructor; [done|]. apply Forall_forall. intros x [_ Hx]%list_elem_of_filter.
  rewrite Forall_forall in H2. by apply H2.
Qed.
