(* ===== verification/TrieProperties.v ===== *)
(** * What the trie promises

    The properties of the Merkle Patricia trie, of its proofs, and of the hash they rest
    on, each with a witness on the trie of two keys below. *)
From Stdlib Require Import ZArith Lia.
From S2P Require Import Prelude Word Rlp RlpSpec RlpDecode Keccak KeccakSpec.
From S2P Require Import TrieEncoding TrieTree TrieMap TrieNode TrieDatabase Trie TrieRefines TrieHasher TrieCommit.
From S2P Require Import TrieContent TrieProof SecureTrie TrieProofs.
Import Big.
Open Scope Z_scope.
Close Scope lanes_scope.

(** ** A trie of two keys

    Its tree, the encodings it is stored as, and that their hashes differ. *)

Definition key1 : list Z := [0x11].
Definition key2 : list Z := [0x21].
Definition value1 : list Z := repeat 7 40.
Definition value2 : list Z := repeat 9 40.

Definition two : content := <[key2 := value2]> (<[key1 := value1]> ∅).
Definition one : content := <[key1 := value1]> ∅.
Definition two_tree : tree := tinsert (tinsert TNil (keybytesToHex key1) value1) (keybytesToHex key2) value2.

Lemma key1_bytes : bytes key1.
Proof. repeat constructor; lia. Qed.
Lemma key2_bytes : bytes key2.
Proof. repeat constructor; lia. Qed.

Lemma two_holds : holds two two_tree.
Proof.
  apply holds_insert; [|apply key2_bytes|done]. apply holds_insert; [apply holds_empty|apply key1_bytes|done].
Qed.

Lemma two_small : small two.
Proof.
  unfold two, small. apply map_Forall_insert_2; [|apply map_Forall_insert_2; [|apply map_Forall_empty]];
    (split; [repeat constructor; lia|done]).
Qed.

(** ** Encodings *)
Definition leaf1 : tree := TShort [1; 16] (TVal value1).
Definition leaf2 : tree := TShort [1; 16] (TVal value2).

Definition leaf_encoding (v : list Z) : list Z := [0xEA; 0x31; 0xA8] ++ v.

Lemma leaf1_encoding : encoding leaf1 = leaf_encoding value1.
Proof. vm_compute. reflexivity. Qed.

Definition sample_encodings : list (list Z) := map encoding [TNil; leaf1; leaf2; two_tree].
Definition sample : list Z -> Prop := fun e => e ∈ sample_encodings.

Lemma sample_hashes : NoDup (zeroHash :: map sponge sample_encodings).
Proof. apply (bool_decide_unpack _). vm_compute. exact I. Qed.

Lemma NoDup_map {A B} (f : A -> B) l a b : NoDup (map f l) -> a ∈ l -> b ∈ l -> f a = f b -> a = b.
Proof.
  intros H [i Ha]%list_elem_of_lookup [j Hb]%list_elem_of_lookup Hf.
  assert (i = j) as ->; [|congruence]. eapply NoDup_lookup; [exact H| |]; rewrite list_lookup_fmap; [by rewrite Ha|]. rewrite Hb. cbn. by f_equal.
Qed.

Lemma sample_free : collision_free sample.
Proof.
  pose proof sample_hashes as H. apply NoDup_cons in H as [Hz Hn]. split.
  - intros a b Ha Hb. by apply (NoDup_map sponge sample_encodings).
  - intros a Ha Hs. apply Hz. rewrite <- Hs. apply list_elem_of_In, in_map. by apply list_elem_of_In.
Qed.

Lemma two_covered : covered sample two_tree.
Proof.
  assert (exists k, two_tree = TFull ([TNil; leaf1; leaf2] ++ replicate k TNil)) as [k E] by (exists 14%nat; vm_compute; reflexivity).
  assert (sample (encoding two_tree)) as H by (do 3 right; by left).
  assert (forall t, t = leaf1 \/ t = leaf2 -> sample (encoding t)) as Hl by (intros t [-> | ->]; [do 1 right|do 2 right]; by left).
  rewrite E in *. split; [exact H|]. apply covered_full. repeat (constructor; [by repeat split; auto|]).
  apply Forall_replicate. done.
Qed.

Lemma two_sample : sample (encoding two_tree).
Proof. do 3 right. left. Qed.

Lemma no_value_sample : sample (encoding TNil).
Proof. by left. Qed.

(** ** The trie *)
Definition empty_db : Database MemDatabase_EthDB := NewDatabase (∅ : MemDatabase.t).
Definition empty_trie : Trie := {| root := nilNode; originalRoot := emptyRoot; cachegen := 0; cachelimit := 0 |}.

Lemma empty_sound U : sound U empty_db.
Proof.
  split; [|split; [|split]]; cbn [empty_db NewDatabase nodes diskdb oldest newest readers]; [| |by left|done].
  - intros h c Hc Hz. by rewrite lookup_singleton_ne in Hc by congruence.
  - intros h e _ H. by apply (lookup_empty_Some (M := gmap (list Z)) h e) in H.
Qed.

Lemma empty_represents db : keeps db empty_trie ∅ TNil.
Proof. split; [constructor|apply holds_empty]. Qed.

(** The trie of both keys, as updates leave it. *)
Definition two_trie : Trie :=
  {| root := fullNode ([nilNode; shortNode [1; 16] (valueNode value1) (newFlag 0); shortNode [1; 16] (valueNode value2) (newFlag 0)] ++ replicate 14 nilNode) (newFlag 0);
     originalRoot := emptyRoot; cachegen := 0; cachelimit := 0 |}.

Lemma two_tree_eq : two_tree = TFull ([TNil; leaf1; leaf2] ++ replicate 14 TNil).
Proof. vm_compute. reflexivity. Qed.

Lemma two_keeps db : keeps db two_trie two two_tree.
Proof.
  split; [|apply two_holds]. rewrite two_tree_eq. apply repr_full; [|done]. apply Forall2_cons; split; [constructor|].
  do 2 (apply Forall2_cons; split; [constructor; [constructor|done]|]). apply Forall2_replicate. constructor.
Qed.

(** ** The hash *)

(** C14: Keccak-256, its 24 rounds unrolled four at a time in place and its state fed
    and squeezed through a buffer, is the sponge of the permutation Keccak-f[1600] as
    FIPS 202 defines it, with the padding of the original submission: however the data is
    split into writes, and for data of every length. *)
Theorem keccak_is_the_sponge :
  (forall a, length a = 25%nat -> keccakF1600 a = Keccak_f a) /\
  (forall data, Keccak256 data = Some (sponge (concat data))) /\
  (forall data, length (sponge data) = 32%nat).
Proof.
  split; [|split].
  - intros a Ha. by apply keccakF1600_ok.
  - apply Keccak256_sponge.
  - apply sponge_length.
Qed.

Section Properties.
Context {ED : EthDB} {MR : MapRange}.
Implicit Types (db : Database ED) (t : Trie) (M : content).

Definition ops_bytes (ops : list op) : Prop := Forall op_bytes ops.

Lemma trie_run_keeps db ops : ops_bytes ops -> forall t M, represents db t M ->
  exists t', trie_run db t ops = Ret ((map_run M ops).1, t') /\ represents db t' (map_run M ops).2.
Proof.
  induction 1 as [|o ops Ho _ IH]; intros t M Ht; [by exists t|]. cbn [trie_run map_run].
  destruct (trie_step_keeps db t M o Ht Ho) as (t1 & -> & Ht1). destruct (map_step M o) as [v M1]. cbn [mbind outcome_bind fst snd] in *.
  destruct (IH t1 M1 Ht1) as (t2 & -> & Ht2). destruct (map_run M1 ops) as [vs M2]. by exists t2.
Qed.

(** C6: A trie is a map from byte strings to non-empty byte strings: whatever sequence
    of lookups, updates and deletions is run on a trie that holds a map - loaded from its
    database or not - none of them fails or panics, every lookup gives what the map gives,
    and the trie left holds the map left. *)
Theorem tries_are_maps db t M ops : represents db t M -> ops_bytes ops ->
  exists t', trie_run db t ops = Ret ((map_run M ops).1, t') /\ represents db t' (map_run M ops).2.
Proof. intros Ht Ho. by apply trie_run_keeps. Qed.

(** A trie that holds a map, of which nodes may be missing from the database. *)
Definition any_flag (r : bool) (f : nodeFlag) (T : tree) : Prop := True.
Definition any_hash (r : bool) (h : list Z) (T : tree) : Prop := True.
Definition partly db : node -> tree -> Prop := repr (Database_node db) true any_flag any_hash true.
Definition incomplete db t M : Prop := exists T, partly db t.(root) T /\ holds M T.

(** The error names a node that is not in the database, and a place on the way to the key. *)
Definition names_missing db t (key : list Z) (e : MissingNodeError) : Prop :=
  Database_node db e.(NodeHash) t.(cachegen) = Some nilNode /\ exists r, key = e.(Path) ++ r.

Definition goes db t {A} (P : A -> Prop) (key : list Z) (m : outcome MissingNodeError A) : Prop :=
  match m with Ret a => P a | Err e => names_missing db t key e | Panic => False end.

Lemma good_goes db t {A} (P : A -> Prop) key m : good (Database_node db) true t.(cachegen) P [] key m -> goes db t P key m.
Proof. destruct m as [a|e|]; cbn; [done| |done]. intros (_ & H & p & r & Hp & ->). split; [done|]. exists r. by rewrite Hp. Qed.

Lemma goes_bind db t {A B} (P : A -> Prop) (Q : B -> Prop) key m k : goes db t P key m -> (forall a, P a -> goes db t Q key (k a)) ->
  goes db t Q key (m ≫= k).
Proof. destruct m; cbn; auto. Qed.

Lemma get_goes db t M T key : partly db t.(root) T -> holds M T -> bytes key ->
  goes db t (fun r => r.1 = M !! key /\ incomplete db r.2 M) (keybytesToHex key) (TryGet db t key).
Proof.
  intros HT HM Hb. pose proof (tryGet_good (Database_node db) true any_flag any_hash t.(cachegen) (fun _ _ _ _ => I)
    (fuel_for (keybytesToHex key)) true t.(root) T (keybytesToHex key) 0 HT) as H. rewrite drop_0 in H.
  eapply goes_bind; [apply good_goes, (H (comes_to_key T key (proj1 HM) Hb) ltac:(lia) (need_key _ key))|].
  intros [[v n] did] (Hv & Hn & _). cbn [fst snd] in *. split; [cbn; by rewrite Hv, <- (holds_get M T key HM Hb)|].
  exists T. split; [|done]. by destruct did.
Qed.

Lemma insert_goes db t M T key value : partly db t.(root) T -> holds M T -> bytes key -> value <> [] ->
  goes db t (fun r => incomplete db (set_root t r.2) (<[key := value]> M)) (keybytesToHex key)
    (insert (Database_node db) t.(cachegen) (fuel_for (keybytesToHex key)) t.(root) [] (keybytesToHex key) (valueNode value)).
Proof.
  intros HT HM Hb Hv. apply good_goes. eapply good_impl; [apply (insert_good (Database_node db) true any_flag any_hash t.(cachegen) (fun _ _ => I)
    _ true t.(root) T [] (keybytesToHex key) value HT (comes_to_key T key (proj1 HM) Hb) Hv (need_key _ key))|].
  intros [d n] [Hn _]. exists (tinsert T (keybytesToHex key) value). split; [exact Hn|by apply holds_insert].
Qed.

Lemma delete_goes db t M T key : partly db t.(root) T -> holds M T -> bytes key ->
  goes db t (fun r => incomplete db (set_root t r.2) (base.delete key M)) (keybytesToHex key)
    (delete (Database_node db) t.(cachegen) (fuel_for (keybytesToHex key)) t.(root) [] (keybytesToHex key)).
Proof.
  intros HT HM Hb. apply good_goes. eapply good_impl; [apply (delete_good (Database_node db) true any_flag any_hash t.(cachegen) (fun _ _ => I)
    _ true t.(root) T [] (keybytesToHex key) HT (comes_to_key T key (proj1 HM) Hb) (need_key _ key))|].
  intros [d n] [Hn _]. exists (tdelete T (keybytesToHex key)). split; [exact Hn|by apply holds_delete].
Qed.

Lemma written_goes db t M key (m : outcome MissingNodeError (bool * node)) :
  goes db t (fun r => incomplete db (set_root t r.2) M) key m ->
  goes db t (fun r : option (list Z) * Trie => r.1 = None /\ incomplete db r.2 M) key
    (t' ← ('(_, n) ← m; Ret (set_root t n)); Ret (None, t')).
Proof. by destruct m as [[d n]|e|]. Qed.

Definition op_key (o : op) : list Z := match o with OGet k | OUpdate k _ | ODelete k => k end.

(** C15: When nodes are missing from the database, an operation does what it does on the
    map or returns a MissingNodeError; it never panics.  The error's hash is one the
    database lacks and its path is a prefix of the key. *)
Theorem missing_nodes_are_named db t M o : incomplete db t M -> op_bytes o ->
  match trie_step db t o with
  | Ret (v, t') => v = (map_step M o).1 /\ incomplete db t' (map_step M o).2
  | Err e => names_missing db t (keybytesToHex (op_key o)) e
  | Panic => False
  end.
Proof.
  intros (T & HT & HM) Hb. set (P := fun r : option (list Z) * Trie => r.1 = (map_step M o).1 /\ incomplete db r.2 (map_step M o).2).
  assert (goes db t P (keybytesToHex (op_key o)) (trie_step db t o)) as H; [|by destruct (trie_step db t o) as [[v t']|e|]].
  destruct o as [k|k [|x v]|k]; cbn [trie_step op_bytes op_key map_step fst snd] in *.
  - by eapply get_goes.
  - by eapply written_goes, delete_goes.
  - by eapply written_goes, insert_goes.
  - by eapply written_goes, delete_goes.
Qed.
(** C16: The state's tries keep keys under their hashes: as long as the keys in use do not
    collide, they too are maps, and the key of an update is found again by its hash. *)
Theorem secure_tries_are_maps U db (st : Secure.SecureTrie) M ops : collision_free U -> secures U db st M -> Forall (op_in U) ops ->
  exists st', secure_run db st ops = Some ((map_run M ops).1, st') /\ secures U db st' (map_run M ops).2 /\
    forall k v st2, Secure.TryUpdate db st' k v = Ret st2 -> (Secure.GetKey db st2 (sponge k)).1 = Some k.
Proof.
  intros HU Ht Ho. destruct (secure_run_ok U HU db ops Ho st M Ht) as (st' & Hr & Ht'). exists st'. split; [exact Hr|]. split; [exact Ht'|].
  intros k v st2 H. unfold Secure.TryUpdate in H. rewrite hashKey_sponge in H. cbn [or_panic mbind outcome_bind] in H.
  destruct (Trie.TryUpdate _ _ _ _) as [x|e|]; cbn [mbind outcome_bind] in H; [|done|done]. injection H as <-.
  unfold Secure.GetKey. set (own := Secure.getSecKeyCache (Secure.set_trie st' x)).
  assert (Secure.owns own = true) as Ho' by (unfold own, Secure.getSecKeyCache; by destruct (Secure.owns (Secure.set_trie st' x)) eqn:E).
  unfold Secure.getSecKeyCache. cbn [Secure.set_cache Secure.owns]. rewrite Ho'. cbn [Secure.set_cache Secure.secKeyCache].
  by rewrite lookup_insert_eq.
Qed.

(** ** Roots *)

(** C7: The root hash depends on what a trie holds and on nothing else: not on the order
    of the updates, nor on what is loaded, cached or stored.  Hashing leaves a trie that
    holds the same. *)
Theorem equal_contents_have_equal_roots db1 db2 t1 t2 M : represents db1 t1 M -> represents db2 t2 M -> small M ->
  exists h t1' t2', Hash t1 = Some (h, t1') /\ Hash t2 = Some (h, t2') /\ represents db1 t1' M /\ represents db2 t2' M.
Proof.
  intros [T1 H1] [T2 H2] Hs. pose proof (holds_unique M T1 T2 (proj2 H1) (proj2 H2)) as <-.
  pose proof (small_wf M T1 (proj2 H1) Hs) as Hw.
  destruct (Hash_keeps db1 t1 M T1 H1 Hw) as (t1' & -> & H1'), (Hash_keeps db2 t2 M T1 H2 Hw) as (t2' & -> & H2').
  exists (root_hash T1), t1', t2'. split; [done|]. split; [done|]. split; by exists T1.
Qed.

(** All that is stored for a map is in [U], and the hashes of [U] differ. *)
Definition covers (U : list Z -> Prop) M : Prop := collision_free U /\ U (encoding TNil) /\ forall T, holds M T -> covered U T.

(** C8: Without a collision of the hash, tries with the same root hash hold the same. *)
Theorem equal_roots_have_equal_contents U db1 db2 t1 t2 M1 M2 h t1' t2' :
  represents db1 t1 M1 -> represents db2 t2 M2 -> small M1 -> small M2 -> covers U M1 -> covers U M2 ->
  Hash t1 = Some (h, t1') -> Hash t2 = Some (h, t2') -> forall k, bytes k -> M1 !! k = M2 !! k.
Proof.
  intros [T1 H1] [T2 H2] Hs1 Hs2 (Hf & HU & Hc1) (_ & _ & Hc2) Hh1 Hh2 k Hk.
  pose proof (small_wf M1 T1 (proj2 H1) Hs1) as Hw1. pose proof (small_wf M2 T2 (proj2 H2) Hs2) as Hw2.
  destruct (Hash_keeps db1 t1 M1 T1 H1 Hw1) as (x1 & E1 & _), (Hash_keeps db2 t2 M2 T2 H2 Hw2) as (x2 & E2 & _).
  destruct H1 as [_ H1], H2 as [_ H2].
  assert (T1 = T2) as <-; [|by rewrite <- (holds_get M1 T1 k H1 Hk), (holds_get M2 T1 k H2 Hk)].
  apply (same_root U Hf); [apply H1|apply H2|done|done|auto|auto|done|congruence].
Qed.

(** C9: Committing a trie to a sound database gives its root hash and a sound database in
    which everything that stood before still stands, and the trie opened again at that hash
    holds what it held. *)
Theorem committed_tries_reopen U db t M : sound U db -> represents db t M -> small M -> covers U M ->
  exists h db' t' t2, Commit db t None = Some (h, db', t') /\ New h (Some db') = Ret t2 /\
    represents db' t' M /\ represents db' t2 M /\ sound U db' /\
    forall t3 M3, represents db t3 M3 -> represents db' t3 M3.
Proof.
  intros Hs [T HT] Hsm (Hf & HU & Hc). pose proof (proj2 HT) as HM. pose proof (small_wf M T HM Hsm) as Hw.
  destruct (Commit_keeps U db t M T None Hf Hs (leaf_ok_None U) HT Hw (Hc T HM)) as (db' & t' & Hcm & Hs' & He & Ht' & Hst).
  destruct (New_keeps db' M T HM Hst) as (t2 & Hn & Ht2).
  - rewrite root_hash_tree. apply Hf. destruct (proj1 HM) as [->|Hi]; [exact HU|by apply covered_U; [|apply Hc]].
  - intros Hne. rewrite root_hash_tree, nil_hash. intros H. symmetry in H. destruct (proj1 HM) as [->|Hi]; [by apply Hne|].
    apply (proj1 Hf) in H; [|exact HU|by apply covered_U; [|apply Hc]]. by apply nil_encoding in H.
  - exists (root_hash T), db', t', t2. split; [done|]. split; [done|]. split; [by exists T|]. split; [by exists T|]. split; [done|].
    intros t3 M3 (T3 & HT3 & HM3). exists T3. split; [|done]. apply (stands_ext db); [done| |done].
    destruct (proj1 HM3) as [->|Hi]; [left; by left|by right].
Qed.

(** ** Proofs *)
Definition put_map (m : gmap (list Z) (list Z)) (k v : list Z) : gmap (list Z) (list Z) := <[k := v]> m.

Lemma covered_proof U T M key : holds M T -> T <> TNil -> covered U T -> bytes key ->
  Forall (fun s => U (encoding s)) (proof_of T (keybytesToHex key)).
Proof.
  intros [[->|Ht] _] Hne Hc Hk; [done|]. eapply Forall_impl; [apply (proof_of_parts T _ Ht); by apply hexkey_of|].
  intros s (H1 & _ & H2). by apply covered_U; [|apply H2].
Qed.

Lemma nonempty_tree M T : holds M T -> (exists k, bytes k /\ is_Some (M !! k)) -> T <> TNil.
Proof. intros HM (k & Hkb & Hv) ->. rewrite <- (holds_get M TNil k HM Hkb) in Hv. by destruct Hv. Qed.

(** C11: A proof made for a key of a trie that is not empty is accepted with the trie's
    root hash, and gives the value of the key or that there is none. *)
Theorem proofs_verify U db t M key : represents db t M -> (exists k, bytes k /\ is_Some (M !! k)) -> small M -> covers U M -> bytes key ->
  exists proof h t' n, Prove put_map db t key 0 ∅ = Ret proof /\ Hash t = Some (h, t') /\
    VerifyProof h key (fun x => proof !! x) = Some (Done (M !! key) n).
Proof.
  intros [T HT] Hsome Hs (Hf & HU & Hc) Hk. pose proof (proj2 HT) as HTM. pose proof (small_wf M T HTM Hs) as Hw. specialize (Hc T HTM).
  destruct (Hash_keeps db t M T HT Hw) as (t' & Hh & _).
  pose proof (nonempty_tree M T HTM Hsome) as Hne.
  pose proof (Prove_ok put_map db t M T key 0 ∅ HT Hw Hk) as Hp. rewrite drop_0 in Hp.
  set (l := proof_of T (keybytesToHex key)) in *.
  destruct (VerifyProof_ok U Hf (fun x => proof_map l !! x) T M key) as (r & Hr & Hv); [|done..|].
  { intros h e _. apply proof_map_hashed. by eapply covered_proof. }
  exists (proof_map l), (root_hash T), t'. destruct Hv as [(n & ->)|(j & s & _ & Hin & Hmiss)].
  - exists n. split; [done|]. split; [done|]. rewrite Hr. by rewrite (holds_get M T key HTM Hk).
  - exfalso. eapply proof_map_has; [|exact Hmiss]. apply proof_of_in; [|done]. by destruct (proj1 HTM).
Qed.
(** C10: Whatever nodes are offered as a proof, if they are kept under their hashes and
    none collides with a node of the trie, checking them against the root hash ends, and
    ends with what the trie holds for the key or with a node that is missing: nobody can
    prove anything else. *)
Theorem verified_proofs_are_right U db t M key h t' proofDb :
  represents db t M -> (exists k, bytes k /\ is_Some (M !! k)) -> small M -> covers U M -> bytes key ->
  Hash t = Some (h, t') -> hashed U proofDb ->
  exists r, VerifyProof h key proofDb = Some r /\
    ((exists n, r = Done (M !! key) n) \/ (exists n x, r = Failed (errMissing n x) /\ proofDb x = None)).
Proof.
  intros [T HT] Hsome Hs (Hf & HU & Hc) Hk Hh Hdb. pose proof (proj2 HT) as HTM. pose proof (small_wf M T HTM Hs) as Hw. specialize (Hc T HTM).
  destruct (Hash_keeps db t M T HT Hw) as (t2 & E & _). assert (h = root_hash T) as -> by congruence.
  destruct (VerifyProof_ok U Hf proofDb T M key Hdb HTM (nonempty_tree M T HTM Hsome) Hw Hc Hk) as (r & Hr & Hv).
  exists r. split; [done|]. destruct Hv as [(n & ->)|(j & s & -> & _ & Hmiss)]; [left; exists n|right; by exists j, (tree_hash s)].
  by rewrite (holds_get M T key HTM Hk).
Qed.
End Properties.

(** A short node of an empty key with a hash below. *)
Definition self_node (h : list Z) : list Z := [0xE2; 0; 0xA0] ++ h.

Lemma self_node_decodes h : length h = 32%nat ->
  decodeNode (Some h) (self_node h) 0 = Ret (shortNode [] (hashNode h) (decoded 0 (Some h))).
Proof. intros Hl. do 32 (destruct h as [|? h]; [done|]). destruct h; [|done]. vm_compute. reflexivity. Qed.

Lemma self_turn h key i proofDb : length h = 32%nat -> proofDb h = Some (self_node h) -> verify_turn proofDb i h key = More h key.
Proof.
  intros Hl Hp. unfold verify_turn. rewrite Hp, self_node_decodes by done.
  assert (get (shortNode [] (hashNode h) (decoded 0 (Some h))) key = Some (key, hashNode h)) as -> by done. unfold hashLen. rewrite Hl, drop_ge by (by rewrite Hl).
  by rewrite app_nil_r, take_ge by (by rewrite Hl).
Qed.

(** VerifyProof does not compare a node with the hash it is kept under, and a short
    node may have an empty key: a proof of one node that has its own hash below it is
    followed for ever, for every key. *)
Theorem proof_check_can_loop h key : length h = 32%nat ->
  let proofDb x := (<[h := self_node h]> ∅ : gmap (list Z) (list Z)) !! x in
  forall turns i, verify_loop proofDb turns i h (keybytesToHex key) = None.
Proof.
  intros Hl proofDb turns. induction turns as [|n IH]; intros i; [done|]. cbn [verify_loop].
  rewrite self_turn; [apply IH|done|]. unfold proofDb. by rewrite lookup_insert_eq.
Qed.

(** ** Witnesses *)
Definition sample_ops : list op :=
  [OUpdate key1 value1; OUpdate key2 value2; OGet key1; ODelete key1; OGet key1; OGet key2].

Lemma sample_ops_bytes : ops_bytes sample_ops.
Proof. repeat constructor; lia. Qed.

Lemma tries_are_maps_witness : exists t,
  trie_run empty_db empty_trie sample_ops = Ret ([None; None; Some value1; None; None; Some value2], t) /\
  represents empty_db t (map_run ∅ sample_ops).2.
Proof.
  assert ((map_run ∅ sample_ops).1 = [None; None; Some value1; None; None; Some value2]) as <- by (vm_compute; reflexivity).
  apply (tries_are_maps empty_db empty_trie ∅ sample_ops); [exists TNil; apply empty_represents|apply sample_ops_bytes].
Defined.

(** The leaf of the second key is not in the database. *)
Definition torn_trie : Trie :=
  {| root := fullNode ([nilNode; shortNode [1; 16] (valueNode value1) (newFlag 0); hashNode (repeat 1 32)] ++ replicate 14 nilNode) (newFlag 0);
     originalRoot := emptyRoot; cachegen := 0; cachelimit := 0 |}.

Lemma torn_incomplete : incomplete empty_db torn_trie two.
Proof.
  exists (TFull ([TNil; leaf1; leaf2] ++ replicate 14 TNil)). split.
  - apply repr_full; [|done]. apply Forall2_cons; split; [constructor|]. apply Forall2_cons; split; [constructor; [constructor|done]|].
    apply Forall2_cons; split; [|apply Forall2_replicate; constructor]. apply repr_missing; [done|done|intros g; vm_compute; reflexivity|].
    apply (inner_leaf [1] value2); [by repeat constructor|done].
  - rewrite <- two_tree_eq. apply two_holds.
Qed.

Lemma missing_nodes_are_named_witness :
  trie_step empty_db torn_trie (OGet key2) = Err {| NodeHash := repeat 1 32; Path := [2] |} /\
  names_missing empty_db torn_trie (keybytesToHex key2) {| NodeHash := repeat 1 32; Path := [2] |}.
Proof.
  assert (trie_step empty_db torn_trie (OGet key2) = Err {| NodeHash := repeat 1 32; Path := [2] |}) as E by (vm_compute; reflexivity).
  split; [exact E|]. pose proof (missing_nodes_are_named empty_db torn_trie two (OGet key2) torn_incomplete key2_bytes) as H.
  rewrite E in H. exact H.
Defined.

(** The second trie has had another key and lost it again. *)
Definition detour : list op := [OUpdate key2 value2; OUpdate [0x10] value1; OUpdate key1 value1; ODelete [0x10]].

Lemma detour_ends : exists t, trie_run empty_db empty_trie detour = Ret ([None; None; None; None], t) /\ represents empty_db t two.
Proof.
  destruct (trie_run_keeps empty_db detour ltac:(by repeat constructor; lia) empty_trie ∅) as (t & Hr & Ht).
  { exists TNil. apply empty_represents. }
  exists t. split; [exact Hr|]. assert ((map_run ∅ detour).2 = two) as <-; [|exact Ht].
  apply map_eq. intros k. change ((map_run ∅ detour).2) with (base.delete [0x10] (<[key1 := value1]> (<[[0x10] := value1]> (<[key2 := value2]> (∅ : content))))).
  unfold two.
  destruct (decide (k = [0x10])) as [->|H1]; [rewrite lookup_delete_eq; symmetry; by vm_compute|]. rewrite lookup_delete_ne by congruence.
  destruct (decide (k = key1)) as [->|H2]; [by rewrite lookup_insert_eq|]. rewrite lookup_insert_ne, lookup_insert_ne by congruence.
  destruct (decide (k = key2)) as [->|H3]; [by rewrite !lookup_insert_eq|]. by rewrite !lookup_insert_ne by congruence.
Qed.

Lemma two_represents db : represents db two_trie two.
Proof. exists two_tree. apply two_keeps. Qed.

Lemma two_covers : covers sample two.
Proof.
  split; [apply sample_free|]. split; [apply no_value_sample|]. intros T HT.
  rewrite (holds_unique two T two_tree HT two_holds). apply two_covered.
Qed.

Lemma equal_contents_have_equal_roots_witness : exists t,
  trie_run empty_db empty_trie detour = Ret ([None; None; None; None], t) /\
  exists h t1' t2', Hash two_trie = Some (h, t1') /\ Hash t = Some (h, t2') /\
    represents empty_db t1' two /\ represents empty_db t2' two.
Proof.
  destruct detour_ends as (t & Hr & Ht). exists t. split; [exact Hr|].
  apply (equal_contents_have_equal_roots empty_db empty_db two_trie t two (two_represents empty_db) Ht two_small).
Defined.

Lemma equal_roots_have_equal_contents_witness : exists t h t1' t2',
  trie_run empty_db empty_trie detour = Ret ([None; None; None; None], t) /\
  Hash two_trie = Some (h, t1') /\ Hash t = Some (h, t2') /\ forall k, bytes k -> two !! k = two !! k.
Proof.
  destruct detour_ends as (t & Hr & T & HT).
  destruct (Hash_keeps empty_db two_trie two two_tree (two_keeps empty_db) (small_wf two two_tree two_holds two_small)) as (t1' & H1 & _).
  destruct (Hash_keeps empty_db t two T HT (small_wf two T (proj2 HT) two_small)) as (t2' & H2 & _).
  rewrite (holds_unique two T two_tree (proj2 HT) two_holds) in H2.
  exists t, (root_hash two_tree), t1', t2'. split; [exact Hr|]. split; [exact H1|]. split; [exact H2|].
  exact (equal_roots_have_equal_contents sample empty_db empty_db two_trie t two two (root_hash two_tree) t1' t2'
    (two_represents empty_db) (ex_intro _ T HT) two_small two_small two_covers two_covers H1 H2).
Defined.

Lemma committed_tries_reopen_witness : exists h db' t' t2,
  Commit empty_db two_trie None = Some (h, db', t') /\ New h (Some db') = Ret t2 /\
  represents db' t' two /\ represents db' t2 two /\ sound sample db' /\
  forall t3 M3, represents empty_db t3 M3 -> represents db' t3 M3.
Proof.
  exact (committed_tries_reopen sample empty_db two_trie two (empty_sound sample) (two_represents empty_db) two_small two_covers).
Defined.

Lemma two_some : exists k, bytes k /\ is_Some (two !! k).
Proof. exists key2. split; [apply key2_bytes|]. exists value2. apply lookup_insert_eq. Qed.

Lemma proofs_verify_witness : exists proof h t' n,
  Prove put_map empty_db two_trie key1 0 ∅ = Ret proof /\ Hash two_trie = Some (h, t') /\
  VerifyProof h key1 (fun x => proof !! x) = Some (Done (two !! key1) n).
Proof.
  exact (proofs_verify sample empty_db two_trie two key1 (two_represents empty_db) two_some two_small two_covers key1_bytes).
Defined.

(** Only the root is offered. *)
Definition root_only : list Z -> option (list Z) := fun x => proof_map [two_tree] !! x.

Lemma root_only_hashed : hashed sample root_only.
Proof. intros h e _. unfold root_only. apply (proof_map_hashed sample [two_tree]). constructor; [apply two_sample|constructor]. Qed.

Lemma verified_proofs_are_right_witness : exists h t' r,
  Hash two_trie = Some (h, t') /\ VerifyProof h key1 root_only = Some r /\
  ((exists n, r = Done (two !! key1) n) \/ (exists n x, r = Failed (errMissing n x) /\ root_only x = None)).
Proof.
  destruct (Hash_keeps empty_db two_trie two two_tree (two_keeps empty_db) (small_wf two two_tree two_holds two_small)) as (t' & H & _).
  destruct (verified_proofs_are_right sample empty_db two_trie two key1 (root_hash two_tree) t' root_only
    (two_represents empty_db) two_some two_small two_covers key1_bytes H root_only_hashed) as (r & Hr & Hv).
  exists (root_hash two_tree), t', r. split; [exact H|]. split; [exact Hr|exact Hv].
Defined.

Lemma proof_check_can_loop_witness : length (repeat 1 32) = 32%nat /\
  let proofDb x := (<[repeat 1 32 := self_node (repeat 1 32)]> ∅ : gmap (list Z) (list Z)) !! x in
  forall turns i, verify_loop proofDb turns i (repeat 1 32) (keybytesToHex key1) = None.
Proof.
  assert (length (repeat 1 32) = 32%nat) as H by reflexivity. split; [exact H|].
  exact (proof_check_can_loop (repeat 1 32) key1 H).
Defined.

Definition empty_secure : Secure.SecureTrie := {| Secure.trie := empty_trie; Secure.secKeyCache := ∅; Secure.owns := false |}.

Lemma empty_secures U : secures U empty_db empty_secure ∅.
Proof.
  split; [|intros h k H; by apply (lookup_empty_Some (M := gmap (list Z)) h k) in H].
  exists ∅. split; [exists TNil; apply empty_represents|done].
Qed.

Lemma secure_tries_are_maps_witness : exists t,
  secure_run empty_db empty_secure [OUpdate [128] value1; OGet [128]] = Some ([None; Some value1], t) /\
  secures sample empty_db t (<[[128] := value1]> ∅) /\
  forall k v t2, Secure.TryUpdate empty_db t k v = Ret t2 -> (Secure.GetKey empty_db t2 (sponge k)).1 = Some k.
Proof.
  assert (Forall (op_in sample) [OUpdate [128] value1; OGet [128]]) as H by (repeat constructor; apply no_value_sample).
  assert ((map_run ∅ [OUpdate [128] value1; OGet [128]]).1 = [None; Some value1]) as <- by (vm_compute; reflexivity).
  exact (secure_tries_are_maps sample empty_db empty_secure ∅ _ sample_free (empty_secures sample) H).
Defined.
