(* ===== verification/Receipts.v ===== *)
(** * Receipts of the virtual machine

    dvm/ethereum/types: bloom9.go, log.go, receipt.go and receiptforstorage.go.  A log
    is [TxLog], with what the node fills in; its mark [Removed] is never set nor stored.
    A bloom is the list of its 256 bytes.  Debug output and JSON are left out. *)
From Stdlib Require Import ZArith Lia.
From S2P Require Import Prelude Keccak KeccakSpec.
Close Scope lanes_scope.
From S2P Require Import Word Machine StateData Rlp RlpStream RlpSpec RlpDecode RlpProperties.
Import Big.
Open Scope Z_scope.

(** ** The bloom filter *)
Module Bloom.

Definition BloomByteLength : nat := 256.

(** Three bits for a byte string, from the first six bytes of its hash *)
Definition bloom9 (b : list Z) : option Z :=
  h ← Keccak.Keccak256 [b];
  foldr (fun i r => r ← r; lo ← h !! S i; hi ← h !! i;
                    Some (Z.lor r (Z.shiftl 1 (Z.land (lo + Z.shiftl hi 8) 2047)))) (Some 0) [0; 2; 4]%nat.

(** [SetBytes] of bytes that are longer than a bloom panics. *)
Definition SetBytes (b d : list Z) : option (list Z) :=
  if (length b <? length d)%nat then None else Some (take (BloomByteLength - length d) b ++ d).

Definition BytesToBloom (b : list Z) : option (list Z) := SetBytes (replicate BloomByteLength 0) b.

Definition Add (b : list Z) (d : Z) : option (list Z) :=
  x ← bloom9 (Bytes d); SetBytes b (Bytes (Z.lor (be_int b) x)).

Definition or_all (l : list (list Z)) : option Z :=
  foldl (fun bin b => bin ← bin; x ← bloom9 b; Some (Z.lor bin x)) (Some 0) l.

(** What of a log the filter finds: its address and its topics *)
Definition entries (l : Log) : list (list Z) :=
  be_bytes AddressLength l.(LogAddress) :: map (be_bytes HashLength) l.(Topics).

Definition LogsBloom (logs : list TxLog) : option Z := or_all (concat (map (fun l => entries l.(log)) logs)).

Definition BloomLookup (bin : list Z) (topic : list Z) : option bool :=
  cmp ← bloom9 topic; Some (Z.land (be_int bin) cmp =? cmp).

End Bloom.

(** ** Receipts *)
Module EthReceipt.

Definition ReceiptStatusFailed : Z := 0.
Definition ReceiptStatusSuccessful : Z := 1.
Definition receiptStatusFailedRLP : list Z := [].
Definition receiptStatusSuccessfulRLP : list Z := [1].

Record t := {
  PostState : list Z; Status : Z; CumulativeGasUsed : Z; Bloom : list Z; Logs : list TxLog;
  TxHash : HashBytes; ContractAddress : AddressBytes; GasUsed : Z
}.

Definition zero : t :=
  {| PostState := []; Status := 0; CumulativeGasUsed := 0; Bloom := replicate 256 0; Logs := [];
     TxHash := 0; ContractAddress := 0; GasUsed := 0 |}.

Definition NewReceipt (root : list Z) (failed : bool) (cumulativeGasUsed : Z) : t :=
  {| PostState := root; Status := if failed then ReceiptStatusFailed else ReceiptStatusSuccessful;
     CumulativeGasUsed := cumulativeGasUsed; Bloom := replicate 256 0; Logs := [];
     TxHash := 0; ContractAddress := 0; GasUsed := 0 |}.

Definition statusEncoding (r : t) : list Z :=
  if (length r.(PostState) =? 0)%nat
  then if r.(Status) =? ReceiptStatusFailed then receiptStatusFailedRLP else receiptStatusSuccessfulRLP
  else r.(PostState).

(** [setStatus]: the post state and the status; [None] is an error. *)
Definition setStatus (r : t) (postStateOrStatus : list Z) : option (list Z * Z) :=
  if bool_decide (postStateOrStatus = receiptStatusSuccessfulRLP) then Some (r.(PostState), ReceiptStatusSuccessful)
  else if bool_decide (postStateOrStatus = receiptStatusFailedRLP) then Some (r.(PostState), ReceiptStatusFailed)
  else if (length postStateOrStatus =? HashLength)%nat then Some (postStateOrStatus, r.(Status))
  else None.

Definition CreateBloom (receipts : list t) : option (list Z) :=
  bin ← foldl (fun bin r => bin ← bin; x ← Bloom.LogsBloom r.(Logs); Some (Z.lor bin x)) (Some 0) receipts;
  Bloom.BytesToBloom (Bytes bin).

(** *** Storage *)
Definition untagged (l : list rtype) : rtype := TStruct (map (fun t => (t, no_tags)) l).

Definition rlpStorageLog : rtype :=
  untagged [TByteArray 20; TSlice (TByteArray 32); TBytes; TUint 64; TByteArray 32; TUint 64; TByteArray 32; TUint 64].
Definition receiptStorageRLP : rtype :=
  untagged [TBytes; TUint 64; TByteArray 256; TSlice (TPtr rlpStorageLog); TByteArray 32; TByteArray 20; TUint 64].

Definition log_val (l : TxLog) : val :=
  VList [VBytes (be_bytes AddressLength l.(log).(LogAddress));
         VList (map (fun h => VBytes (be_bytes HashLength h)) l.(log).(Topics)); VBytes l.(log).(LogData);
         VUint l.(log).(LogBlockNumber); VBytes (be_bytes HashLength l.(StateData.TxHash)); VUint l.(TxIndex);
         VBytes (be_bytes HashLength l.(BlockHash)); VUint l.(Index)].

Definition receipt_val (r : t) : val :=
  VList [VBytes (statusEncoding r); VUint r.(CumulativeGasUsed); VBytes r.(Bloom);
         VList (map (fun l => VPtr (log_val l)) r.(Logs)); VBytes (be_bytes HashLength r.(TxHash));
         VBytes (be_bytes AddressLength r.(ContractAddress)); VUint r.(GasUsed)].

(** [rlp.EncodeToBytes] of a [ReceiptForStorage] *)
Definition EncodeRLP (r : t) : outcome rlp_error (list Z) := EncodeToBytes receiptStorageRLP (receipt_val r).

Definition hash_of (v : val) : option Z := match v with VBytes b => Some (be_int b) | _ => None end.

Definition log_of (v : val) : option TxLog :=
  match v with
  | VPtr (VList [VBytes a; VList ts; VBytes d; VUint bn; VBytes th; VUint ti; VBytes bh; VUint i]) =>
      ts ← mapM hash_of ts;
      Some {| log := {| LogAddress := be_int a; Topics := ts; LogData := d; LogBlockNumber := bn |};
              StateData.TxHash := be_int th; TxIndex := ti; BlockHash := be_int bh; Index := i |}
  | _ => None
  end.

(** [DecodeRLP] into a receipt: the fields of what was decoded *)
Definition from_storage (r : t) (v : val) : option t :=
  match v with
  | VList [VBytes st; VUint cum; VBytes bloom; VList ls; VBytes th; VBytes ca; VUint gas] =>
      '(post, status) ← setStatus r st;
      ls ← mapM log_of ls;
      Some {| PostState := post; Status := status; CumulativeGasUsed := cum; Bloom := bloom; Logs := ls;
              TxHash := be_int th; ContractAddress := be_int ca; GasUsed := gas |}
  | _ => None
  end.

(** [rlp.DecodeBytes] into a new receipt; [None] is an error.  A status that is refused is one. *)
Definition DecodeRLP (data : list Z) : option t :=
  match DecodeBytes data receiptStorageRLP with
  | Some (inl v) => from_storage zero v
  | _ => None
  end.

End EthReceipt.

(** ** Blooms find what is in them, and receipts load back

    The filter of a block of receipts finds every address and topic of their logs; a
    stored receipt is read back but for the status of a receipt with a post state. *)

(** ** Blooms *)
Section Blooms.
Import Bloom.

Lemma lor_bound n a b : 0 <= n -> 0 <= a < 2 ^ n -> 0 <= b < 2 ^ n -> 0 <= Z.lor a b < 2 ^ n.
Proof.
  intros Hn Ha Hb. assert (H : Z.shiftr (Z.lor a b) n = 0).
  { by rewrite Z.shiftr_lor, !Z.shiftr_div_pow2, !Z.div_small by lia. }
  rewrite Z.shiftr_div_pow2 in H by lia. apply Z.div_small_iff in H; [|lia].
  pose proof (proj2 (Z.lor_nonneg a b)). lia.
Qed.

Lemma bloom9_total b : exists x, bloom9 b = Some x /\ 0 <= x < 2 ^ 2048.
Proof.
  unfold bloom9. rewrite Keccak256_sponge. cbn [mbind option_bind].
  pose proof (sponge_length (concat [b])) as Hl. set (h := sponge _) in *.
  assert (Hh : forall i, (i < 32)%nat -> exists v, h !! i = Some v) by (intros; apply lookup_lt_is_Some_2; lia).
  destruct (Hh 0%nat) as [h0 E0]; [lia|]. destruct (Hh 1%nat) as [h1 E1]; [lia|]. destruct (Hh 2%nat) as [h2 E2]; [lia|].
  destruct (Hh 3%nat) as [h3 E3]; [lia|]. destruct (Hh 4%nat) as [h4 E4]; [lia|]. destruct (Hh 5%nat) as [h5 E5]; [lia|].
  clear Hh. cbn [foldr]. rewrite E0, E1, E2, E3, E4, E5. cbn [mbind option_bind]. eexists. split; [reflexivity|].
  assert (Hbit : forall lo hi, 0 <= Z.shiftl 1 (Z.land (lo + Z.shiftl hi 8) 2047) < 2 ^ 2048).
  { intros lo hi. change 2047 with (Z.ones 11). rewrite Z.land_ones by lia. pose proof (Z.mod_pos_bound (lo + Z.shiftl hi 8) (2 ^ 11)).
    rewrite Z.shiftl_1_l. split; [lia|]. apply Z.pow_lt_mono_r; lia. }
  repeat (apply lor_bound; [lia| |apply Hbit]). lia.
Qed.

(** [bin] has the bits of [x]. *)
Definition covers (bin x : Z) : Prop := Z.land bin x = x.

Lemma covers_lor_r bin x : covers (Z.lor bin x) x.
Proof. unfold covers. apply Z.bits_inj'. intros n _. rewrite Z.land_spec, Z.lor_spec. by destruct (Z.testbit bin n), (Z.testbit x n). Qed.

Lemma covers_lor_l bin x y : covers bin y -> covers (Z.lor bin x) y.
Proof.
  unfold covers. intros H. apply Z.bits_inj'. intros n Hn. rewrite Z.land_spec, Z.lor_spec.
  apply (f_equal (fun z => Z.testbit z n)) in H. rewrite Z.land_spec in H.
  by destruct (Z.testbit bin n), (Z.testbit x n), (Z.testbit y n).
Qed.

(** One step of the folds that or filters together *)
Lemma or_fold {A} (f : A -> option Z) (l : list A) bin : 0 <= bin < 2 ^ 2048 ->
  (forall a, a ∈ l -> exists x, f a = Some x /\ 0 <= x < 2 ^ 2048) ->
  exists r, foldl (fun bin a => bin ← bin; x ← f a; Some (Z.lor bin x)) (Some bin) l = Some r /\ 0 <= r < 2 ^ 2048 /\
    (forall y, covers bin y -> covers r y) /\ forall a x, a ∈ l -> f a = Some x -> covers r x.
Proof.
  revert bin. induction l as [|a l IH]; intros bin Hb Hf; cbn [foldl].
  { exists bin. split_and!; try done; try lia. by intros a x ?%not_elem_of_nil. }
  destruct (Hf a) as (x & Hx & Hxb); [left|]. rewrite Hx. cbn [mbind option_bind].
  destruct (IH (Z.lor bin x)) as (r & Hr & Hrb & Hmono & Hall).
  { by apply lor_bound. }
  { intros a' Ha'. apply Hf. by right. }
  exists r. split; [exact Hr|]. split; [done|]. split.
  - intros y Hy. by apply Hmono, covers_lor_l.
  - intros a' x' [->|Ha']%elem_of_cons Hx'; [|by eapply Hall].
    rewrite Hx in Hx'. injection Hx' as <-. apply Hmono, covers_lor_r.
Qed.

Lemma LogsBloom_covers logs : exists x, LogsBloom logs = Some x /\ 0 <= x < 2 ^ 2048 /\
  forall l b y, l ∈ logs -> b ∈ entries l.(log) -> bloom9 b = Some y -> covers x y.
Proof.
  destruct (or_fold bloom9 (concat (map (fun l => entries l.(log)) logs)) 0) as (r & Hr & Hb & _ & Hall).
  { lia. }
  { intros b _. apply bloom9_total. }
  exists r. split; [exact Hr|]. split; [done|]. intros l b y Hl Hin Hy. eapply Hall; [|done].
  apply list_elem_of_In, in_concat. exists (entries (log l)).
  split; [apply in_map_iff; exists l; by rewrite <- list_elem_of_In | by apply list_elem_of_In].
Qed.

Lemma BytesToBloom_int x : 0 <= x < 2 ^ 2048 -> exists b, BytesToBloom (Bytes x) = Some b /\ length b = 256%nat /\ be_int b = x.
Proof.
  intros Hx. unfold BytesToBloom, SetBytes, BloomByteLength.
  assert (Hl : (length (Bytes x) <= 256)%nat).
  { unfold Bytes. rewrite be_bytes_length. pose proof (proj2 (BitLen_le x 2048 ltac:(lia)) ltac:(lia)).
    pose proof (BitLen_nonneg x). apply Nat2Z.inj_le. rewrite Z2Nat.id by (apply Z.div_pos; lia).
    apply Z.lt_succ_r, Z.div_lt_upper_bound; lia. }
  rewrite length_replicate. destruct (Nat.ltb_spec 256 (length (Bytes x))); [lia|]. eexists. split; [done|].
  rewrite take_replicate, Nat.min_l by lia. split; [rewrite length_app, length_replicate; lia|].
  rewrite be_int_app, Bytes_int, <- be_bytes_0, be_int_be_bytes. rewrite Z.mod_0_l by lia. lia.
Qed.

(** C40: a receipt's bloom filter has no false negatives: for whatever receipts, [CreateBloom] gives 256 bytes in
    which [BloomLookup] finds the address and every topic of every log of every receipt. *)
Theorem blooms_find_every_log (receipts : list EthReceipt.t) : exists bloom,
  EthReceipt.CreateBloom receipts = Some bloom /\ length bloom = 256%nat /\
  forall r l b, r ∈ receipts -> l ∈ r.(EthReceipt.Logs) ->
    b = be_bytes AddressLength l.(log).(LogAddress) \/ b ∈ map (be_bytes HashLength) l.(log).(Topics) -> BloomLookup bloom b = Some true.
Proof.
  destruct (or_fold (fun r => LogsBloom r.(EthReceipt.Logs)) receipts 0) as (bin & Hbin & Hb & _ & Hall).
  { lia. }
  { intros r _. destruct (LogsBloom_covers r.(EthReceipt.Logs)) as (x & Hx & Hxb & _). eauto. }
  destruct (BytesToBloom_int bin Hb) as (bloom & Hbloom & Hlen & Hint).
  exists bloom. unfold EthReceipt.CreateBloom. rewrite Hbin. split; [exact Hbloom|]. split; [done|].
  intros r l b Hr Hl Hin%elem_of_cons. destruct (LogsBloom_covers r.(EthReceipt.Logs)) as (x & Hx & _ & Hcov).
  destruct (bloom9_total b) as (y & Hy & _). unfold BloomLookup. rewrite Hy, Hint. cbn [mbind option_bind].
  f_equal. apply Z.eqb_eq. pose proof (Hall r x Hr Hx) as H1. pose proof (Hcov l b y Hl Hin Hy) as H2.
  unfold covers in *. rewrite <- H2 at 1. rewrite Z.land_assoc, H1. exact H2.
Qed.
End Blooms.

(** ** Stored receipts *)
Section Storage.
Import EthReceipt.

Definition address_ok (a : Z) : Prop := 0 <= a < 2 ^ 160.
Definition hash_ok (h : Z) : Prop := 0 <= h < 2 ^ 256.

Record log_ok (l : TxLog) : Prop := {
  log_address : address_ok l.(log).(LogAddress);
  log_topics : Forall hash_ok l.(log).(Topics);
  log_data : bytes_ok l.(log).(LogData);
  log_block : is_u64 l.(log).(LogBlockNumber);
  log_txhash : hash_ok l.(StateData.TxHash);
  log_txindex : is_u64 l.(TxIndex);
  log_blockhash : hash_ok l.(BlockHash);
  log_index : is_u64 l.(Index)
}.

Record receipt_ok (r : t) : Prop := {
  receipt_post : r.(PostState) = [] \/ length r.(PostState) = 32%nat /\ bytes_ok r.(PostState);
  receipt_status : r.(Status) = ReceiptStatusFailed \/ r.(Status) = ReceiptStatusSuccessful;
  receipt_cumulative : is_u64 r.(CumulativeGasUsed);
  receipt_bloom : length r.(Bloom) = 256%nat /\ bytes_ok r.(Bloom);
  receipt_logs : Forall log_ok r.(Logs);
  receipt_txhash : hash_ok r.(TxHash);
  receipt_address : address_ok r.(ContractAddress);
  receipt_gas : is_u64 r.(GasUsed)
}.

Lemma be_int_20 a : address_ok a -> be_int (be_bytes AddressLength a) = a.
Proof. intros H. rewrite be_int_be_bytes. by apply Z.mod_small. Qed.
Lemma be_int_32 h : hash_ok h -> be_int (be_bytes HashLength h) = h.
Proof. intros H. rewrite be_int_be_bytes. by apply Z.mod_small. Qed.

Lemma not_one_byte (b : list Z) n : length b = n -> n <> 1%nat -> b <> [0].
Proof. intros Hb Hn ->. by subst. Qed.

Lemma fixed_decodable n m z : n = m -> n <> 1%nat -> decodable (VBytes (be_bytes n z)) (TByteArray m) no_tags.
Proof.
  intros <- Hn. cbn [decodable]. split; [apply be_bytes_range|]. rewrite be_bytes_length. split; [done|].
  by apply (not_one_byte _ n); [apply be_bytes_length|].
Qed.

Lemma uint_decodable n : is_u64 n -> decodable (VUint n) (TUint 64) no_tags.
Proof. intros H. cbn [decodable]. unfold is_u64 in H. split; [done|]. by split. Qed.

Lemma slice_decodable l et : Forall (fun v => decodable v et no_tags) l -> decodable (VList l) (TSlice et) no_tags.
Proof. cbn [decodable]. by rewrite foldr_Forall. Qed.

Lemma struct_decodable l ts : Forall2 (fun v t => decodable v t no_tags) l ts -> decodable (VList l) (untagged ts) no_tags.
Proof.
  unfold untagged. induction 1 as [|v t l ts Hv _ IH]; [done|]. cbn [map decodable fst snd] in *.
  split; [done|]. split; [|done]. intros _. apply is_tail_no_tags.
Qed.

Lemma log_decodable l : log_ok l -> decodable (VPtr (log_val l)) (TPtr rlpStorageLog) no_tags.
Proof.
  intros []. split; [|done]. apply struct_decodable.
  repeat (apply Forall2_cons; split); try (by apply fixed_decodable); try (by apply uint_decodable); try done.
  apply slice_decodable, Forall_map. apply Forall_true. intros h. by apply fixed_decodable.
Qed.

Lemma statusEncoding_bytes r : receipt_ok r -> bytes_ok (statusEncoding r).
Proof.
  intros [Hp _ _ _ _ _ _ _]. unfold statusEncoding, receiptStatusFailedRLP, receiptStatusSuccessfulRLP, bytes_ok.
  repeat case_match; try (by destruct Hp as [->|[_ ?]]); repeat constructor; lia.
Qed.

Lemma receipt_decodable r : receipt_ok r -> decodable (receipt_val r) receiptStorageRLP no_tags.
Proof.
  intros Hr. pose proof (statusEncoding_bytes r Hr). destruct Hr as [_ _ ? [Hbl Hbb] ? ? ? ?]. apply struct_decodable.
  repeat (apply Forall2_cons; split); try (by apply fixed_decodable); try (by apply uint_decodable); try done.
  - split; [done|]. split; [done|]. by apply (not_one_byte _ 256).
  - apply slice_decodable, Forall_map. eapply Forall_impl; [done|]. apply log_decodable.
Qed.

Lemma hashes_back l : Forall hash_ok l -> mapM hash_of (map (fun h => VBytes (be_bytes HashLength h)) l) = Some l.
Proof.
  intros Hl. apply (mapM_fmap_Forall_Some hash_of (fun h => VBytes (be_bytes HashLength h)) l).
  eapply Forall_impl; [done|]. intros h Hh. unfold hash_of. by rewrite be_int_32.
Qed.

Lemma log_back l : log_ok l -> log_of (VPtr (log_val l)) = Some l.
Proof.
  intros []. unfold log_of, log_val. rewrite hashes_back by done. cbn [mbind option_bind].
  rewrite be_int_20, !be_int_32 by done. by destruct l as [[]].
Qed.

Lemma logs_back ls : Forall log_ok ls -> mapM log_of (map (fun l => VPtr (log_val l)) ls) = Some ls.
Proof.
  intros Hl. apply (mapM_fmap_Forall_Some log_of (fun l => VPtr (log_val l)) ls).
  eapply Forall_impl; [done|]. apply log_back.
Qed.

(** What reading back leaves of the status *)
Definition stored (r : t) : t :=
  {| PostState := r.(PostState); Status := if (length r.(PostState) =? 0)%nat then r.(Status) else ReceiptStatusFailed;
     CumulativeGasUsed := r.(CumulativeGasUsed); Bloom := r.(Bloom); Logs := r.(Logs);
     TxHash := r.(TxHash); ContractAddress := r.(ContractAddress); GasUsed := r.(GasUsed) |}.

Lemma setStatus_statusEncoding r : receipt_ok r ->
  setStatus zero (statusEncoding r) = Some ((stored r).(PostState), (stored r).(Status)).
Proof.
  intros [Hp Hs _ _ _ _ _ _]. unfold statusEncoding, setStatus, stored, receiptStatusFailedRLP, receiptStatusSuccessfulRLP. cbn [PostState Status].
  destruct Hp as [Hp|[Hl _]].
  - rewrite Hp. simpl. by destruct Hs as [-> | ->].
  - rewrite Hl. cbn [Nat.eqb]. rewrite !bool_decide_eq_false_2 by (intros E; by rewrite E in Hl). by rewrite Hl.
Qed.

Lemma receipt_back r : receipt_ok r -> from_storage zero (receipt_val r) = Some (stored r).
Proof.
  intros Hr. unfold from_storage, receipt_val. rewrite setStatus_statusEncoding by done. destruct Hr as [_ _ _ _ Hl Ht Ha _].
  cbn [mbind option_bind]. rewrite logs_back by done. cbn [mbind option_bind]. by rewrite be_int_20, be_int_32 by done.
Qed.

(** A stored receipt is read back with all its fields, logs included, but for the status: a receipt with a
    post state, which every receipt of this program has, is stored without it, and read back as failed. *)
Theorem stored_receipts_load_back (r : t) (Hr : receipt_ok r) : exists l, items (receipt_val r) receiptStorageRLP no_tags = Some l /\
  (Z.of_nat (length (encs l)) < 2 ^ 63 -> exists data, EncodeRLP r = Ret data /\ DecodeRLP data = Some (stored r)) /\
  (forall root gas, length root = 32%nat ->
     (NewReceipt root false gas).(Status) = ReceiptStatusSuccessful /\ (stored (NewReceipt root false gas)).(Status) = ReceiptStatusFailed).
Proof.
  destruct (encode_then_decode receiptStorageRLP (receipt_val r) (receipt_decodable r Hr)) as (l & Hl & Hrt).
  exists l. split; [exact Hl|]. split.
  - intros Hlen. destruct (Hrt Hlen) as [He Hd]. exists (encs l). split; [exact He|].
    unfold DecodeRLP. rewrite Hd. by apply receipt_back.
  - intros root gas Hroot. split; [done|]. unfold stored. simpl. by rewrite Hroot.
Qed.
End Storage.

Section Witnesses.

Definition sample_log : TxLog :=
  {| log := {| LogAddress := 99; Topics := [5; 2 ^ 255]; LogData := [1; 2; 3]; LogBlockNumber := 4370000 |};
     StateData.TxHash := 77; TxIndex := 0; BlockHash := 77; Index := 0 |}.

Definition sample_receipt : EthReceipt.t :=
  {| EthReceipt.PostState := be_bytes 32 1234; EthReceipt.Status := EthReceipt.ReceiptStatusSuccessful;
     EthReceipt.CumulativeGasUsed := 60000; EthReceipt.Bloom := replicate 256 0; EthReceipt.Logs := [sample_log];
     EthReceipt.TxHash := 77; EthReceipt.ContractAddress := 99; EthReceipt.GasUsed := 60000 |}.

Lemma blooms_find_every_log_witness : exists bloom, EthReceipt.CreateBloom [sample_receipt] = Some bloom /\
  Bloom.BloomLookup bloom (be_bytes AddressLength 99) = Some true.
Proof.
  destruct (blooms_find_every_log [sample_receipt]) as (bloom & H & _ & Hall). exists bloom. split; [exact H|].
  exact (Hall sample_receipt sample_log (be_bytes AddressLength 99) (list_elem_of_here _ _) (list_elem_of_here _ _) (or_introl eq_refl)).
Defined.

Lemma sample_receipt_ok : receipt_ok sample_receipt.
Proof.
  split; try (unfold hash_ok, address_ok, is_u64; simpl; lia).
  - right. split; [by rewrite <- (be_bytes_length 32 1234)|apply be_bytes_range].
  - split; [apply length_replicate|]. apply Forall_replicate. lia.
  - constructor; [|constructor]. split; unfold hash_ok, address_ok, is_u64, bytes_ok; simpl; try lia;
      repeat constructor; lia.
Qed.

Lemma stored_receipts_load_back_witness : exists l, items (EthReceipt.receipt_val sample_receipt) EthReceipt.receiptStorageRLP no_tags = Some l /\
  (Z.of_nat (length (encs l)) < 2 ^ 63 ->
   exists data, EthReceipt.EncodeRLP sample_receipt = Ret data /\ EthReceipt.DecodeRLP data = Some (stored sample_receipt)) /\
  (forall root gas, length root = 32%nat ->
     (EthReceipt.NewReceipt root false gas).(EthReceipt.Status) = EthReceipt.ReceiptStatusSuccessful /\
     (stored (EthReceipt.NewReceipt root false gas)).(EthReceipt.Status) = EthReceipt.ReceiptStatusFailed).
Proof. exact (stored_receipts_load_back sample_receipt sample_receipt_ok). Defined.
End Witnesses.
