(* ===== verification/Json.v ===== *)
(** * Strings and JSON

    Go strings as Rocq strings, their bytes, and [encoding/hex] on them; and the
    JSON documents the ledger is stored and sent as.  A document is the tree its
    text denotes.  A string that is a date of RFC 3339 is [JTime], the instant in
    nanoseconds; numbers are the integers the ledger writes.  Decoding into an
    [interface{}] makes every number a [float64]. *)
From Stdlib Require Import ZArith Lia.
From stdpp Require Import pretty.
From S2P Require Import Prelude Word Hex.
Import Big.
Open Scope Z_scope.

(** ** Strings *)
Fixpoint bytes_of (s : string) : list Z :=
  match s with
  | EmptyString => []
  | String a s => Z.of_N (Ascii.N_of_ascii a) :: bytes_of s
  end.

Definition string_of (b : list Z) : string :=
  foldr (fun x s => String (Ascii.ascii_of_N (Z.to_N x)) s) EmptyString b.

Lemma bytes_of_range s : Forall (fun x => 0 <= x < 256) (bytes_of s).
Proof.
  induction s as [|a s IH]; [constructor|]. cbn [bytes_of]. constructor; [|done].
  pose proof (Ascii.N_ascii_bounded a). lia.
Qed.

Lemma string_of_bytes_of s : string_of (bytes_of s) = s.
Proof.
  induction s as [|a s IH]; [done|]. cbn [bytes_of]. unfold string_of in *. cbn [foldr].
  by rewrite IH, N2Z.id, Ascii.ascii_N_embedding.
Qed.

Lemma bytes_of_string_of b : Forall (fun x => 0 <= x < 256) b -> bytes_of (string_of b) = b.
Proof.
  induction 1 as [|x b Hx _ IH]; [done|]. unfold string_of in *. cbn [foldr bytes_of].
  rewrite IH, Ascii.N_ascii_embedding by lia. by rewrite Z2N.id by lia.
Qed.

Lemma bytes_of_length s : length (bytes_of s) = String.length s.
Proof. induction s as [|a s IH]; [done|]. cbn [bytes_of length String.length]. by rewrite IH. Qed.

#[export] Instance bytes_of_inj : Inj (=) (=) bytes_of.
Proof. intros s t Hst. by rewrite <- (string_of_bytes_of s), Hst, string_of_bytes_of. Qed.

Definition hex_EncodeToString (b : list Z) : string := string_of (hex_Encode b).
Definition hex_Decode (s : string) : option (list Z) :=
  let '(b, err) := hex_DecodeString (bytes_of s) in if err then None else Some b.

Lemma hex_Decode_Encode b : Forall (fun x => 0 <= x < 256) b -> hex_Decode (hex_EncodeToString b) = Some b.
Proof.
  intros Hb. unfold hex_Decode, hex_EncodeToString. rewrite bytes_of_string_of by by apply hex_Encode_range.
  by rewrite hex_round_trip.
Qed.

Lemma hex_Encode_text_length b : Forall (fun x => 0 <= x < 256) b -> String.length (hex_EncodeToString b) = (2 * length b)%nat.
Proof.
  intros Hb. rewrite <- bytes_of_length. unfold hex_EncodeToString.
  rewrite bytes_of_string_of by by apply hex_Encode_range. apply hex_Encode_length.
Qed.

(** [int64] in little-endian order, as [binary.Write] gives it. *)
Definition le_int64 (z : Z) : list Z := rev (be_bytes 8 (u64 z)).

(** ** Documents *)
Inductive json :=
  | JNull
  | JBool (b : bool)
  | JNum (z : Z)
  | JStr (s : string)
  | JTime (t : Z)
  | JArr (l : list json)
  | JObj (l : list (string * json)).

(** The [float64] nearest to an integer, ties to even. *)
Definition float64 (z : Z) : Z :=
  let a := Z.abs z in
  let e := Z.log2 a - 52 in
  if e <=? 0 then z
  else
    let m := 2 ^ e in
    let q := a / m in
    let r := a mod m in
    let q := if (2 * r <? m) || ((2 * r =? m) && Z.even q) then q else q + 1 in
    Z.sgn z * (q * m).

(** [int64(f)] gives the smallest integer for what does not fit. *)
Definition int64_of_float (z : Z) : Z :=
  if (- 2 ^ 63 <=? z) && (z <? 2 ^ 63) then z else - 2 ^ 63.
Definition byte_of_float (z : Z) : Z := u8 (int64_of_float z).
Definition uint64_of_float (z : Z) : Z :=
  if (0 <=? z) && (z <? 2 ^ 64) then z else if z <? 0 then u64 (int64_of_float z) else 2 ^ 63.

(** [json.Unmarshal] into an [interface{}]. *)
Fixpoint interface (j : json) : json :=
  match j with
  | JNum z => JNum (float64 z)
  | JArr l => JArr (map interface l)
  | JObj l => JObj (map (fun kv => (kv.1, interface kv.2)) l)
  | _ => j
  end.

(** [json.Unmarshal] into a [map[string]interface{}]; [null] leaves the map nil. *)
Definition jsonMap (j : json) : option (list (string * json)) :=
  match interface j with
  | JObj l => Some l
  | JNull => Some []
  | _ => None
  end.

(** [m[k]]: the last of the bindings; a missing key gives [nil]. *)
Definition at_key (m : list (string * json)) (k : string) : json :=
  foldl (fun v kv => if String.eqb kv.1 k then kv.2 else v) JNull m.

(** A field with [omitempty]. *)
Definition omitempty (k : string) (empty : bool) (v : json) : list (string * json) :=
  if empty then [] else [(k, v)].

Lemma float64_small z : Z.abs z < 2 ^ 53 -> float64 z = z.
Proof.
  intros Hz. unfold float64. destruct (Z.eq_dec z 0) as [->|Hnz]; [done|].
  rewrite (proj2 (Z.leb_le _ _)); [done|]. assert (Z.log2 (Z.abs z) < 53); [|lia].
  apply Z.log2_lt_pow2; lia.
Qed.

Lemma int64_of_float_small z : Z.abs z < 2 ^ 63 -> int64_of_float z = z.
Proof.
  intros Hz. unfold int64_of_float.
  by rewrite (proj2 (Z.leb_le _ _)), (proj2 (Z.ltb_lt _ _)) by lia.
Qed.
