(* ===== verification/Abi.v ===== *)
(** * Contract types and the values they pack

    dvm/ethereum/abi: type.go, reflect.go, error.go, numbers.go and pack.go.  What the
    code sees of Go values through reflect is data: the type of a value ([gtype]), its
    kind, and the value ([gval]).  A call of reflect that panics is [None] or [Panic].

    Debug output is left out but for its evaluating the type of a value, which panics
    for none. *)
From Stdlib Require Import ZArith Lia.
From S2P Require Import Prelude Word Json.
Import Big.
Open Scope Z_scope.

(** ** Go types and values *)
Inductive ikind := Int | Int8 | Int16 | Int32 | Int64 | Uint | Uint8 | Uint16 | Uint32 | Uint64.

Inductive kind := KInvalid | KInt (k : ikind) | KBool | KString | KSlice | KArray | KPtr | KInterface | KFloat64 | KMap.

Inductive gtype :=
  | GTInt (k : ikind) | GTBool | GTString | GTBig | GTSlice (t : gtype) | GTArray (n : Z) (t : gtype)
  | GTPtr (t : gtype) | GTInterface | GTFloat64 | GTMap.

(** [GBig] is a pointer to a big integer; [GIface] what an element of interface type reflects as;
    [GNil] a nil interface. *)
Inductive gval :=
  | GInt (k : ikind) (z : Z) | GBool (b : bool) | GString (s : list Z) | GBig (z : Z)
  | GSlice (t : gtype) (l : list gval) | GArray (t : gtype) (l : list gval)
  | GPtr (v : gval) | GNilPtr (t : gtype) | GIface (v : gval) | GFloat (z : Z) | GMap | GNil.

#[export] Instance ikind_eq_dec : EqDecision ikind.
Proof. solve_decision. Defined.
#[export] Instance kind_eq_dec : EqDecision kind.
Proof. solve_decision. Defined.
#[export] Instance gtype_eq_dec : EqDecision gtype.
Proof. solve_decision. Defined.

Definition kind_of_type (t : gtype) : kind :=
  match t with
  | GTInt k => KInt k | GTBool => KBool | GTString => KString | GTBig | GTPtr _ => KPtr
  | GTSlice _ => KSlice | GTArray _ _ => KArray | GTInterface => KInterface | GTFloat64 => KFloat64 | GTMap => KMap
  end.

Definition Kind (v : gval) : kind :=
  match v with
  | GInt k _ => KInt k | GBool _ => KBool | GString _ => KString | GBig _ | GPtr _ | GNilPtr _ => KPtr
  | GSlice _ _ => KSlice | GArray _ _ => KArray | GIface _ => KInterface | GFloat _ => KFloat64 | GMap => KMap
  | GNil => KInvalid
  end.

(** [v.Type()] *)
Fixpoint type_of (v : gval) : option gtype :=
  match v with
  | GInt k _ => Some (GTInt k) | GBool _ => Some GTBool | GString _ => Some GTString | GBig _ => Some GTBig
  | GSlice t _ => Some (GTSlice t) | GArray t l => Some (GTArray (Z.of_nat (length l)) t)
  | GPtr v => t ← type_of v; Some (GTPtr t) | GNilPtr t => Some (GTPtr t)
  | GIface _ => Some GTInterface | GFloat _ => Some GTFloat64 | GMap => Some GTMap | GNil => None
  end.

(** [v.Len()] of a slice, an array or a string *)
Definition Len (v : gval) : option nat :=
  match v with GSlice _ l | GArray _ l => Some (length l) | GString s => Some (length s) | _ => None end.

(** The elements, of the type of elements: a value in an interface reflects as the interface. *)
Definition elements (v : gval) : list gval := match v with GSlice _ l | GArray _ l => l | _ => [] end.

(** [v.Type().Elem().Kind()] *)
Definition elemKind (v : gval) : option kind :=
  match v with GSlice t _ | GArray t _ => Some (kind_of_type t) | _ => None end.

(** The bytes of a slice or an array; an element of another type panics. *)
Definition as_bytes (v : gval) : option (list Z) :=
  match v with
  | GSlice t l | GArray t l =>
      if decide (t = GTInt Uint8) then Some (map (fun x => match x with GInt _ z => z | _ => 0 end) l) else None
  | _ => None
  end.

(** A pointer to what is no big integer is followed; a nil one panics. *)
Fixpoint indirect (v : gval) : option gval :=
  match v with GPtr v => indirect v | GNilPtr _ => None | _ => Some v end.

(** ** Contract types *)
Inductive ty := IntTy | UintTy | BoolTy | StringTy | SliceTy | ArrayTy | AddressTy | FixedBytesTy | BytesTy | HashTy | FixedPointTy | FunctionTy.
#[export] Instance ty_eq_dec : EqDecision ty.
Proof. solve_decision. Defined.

(** [Elem] is there for slices and arrays only. *)
Inductive Type_ :=
  | Basic (t : ty) (k : kind) (g : gtype) (size : Z) (stringKind : string)
  | SliceOf (elem : Type_) (stringKind : string)
  | ArrayOf (elem : Type_) (size : Z) (stringKind : string).

Definition T (t : Type_) : ty := match t with Basic t _ _ _ _ => t | SliceOf _ _ => SliceTy | ArrayOf _ _ _ => ArrayTy end.
Definition TKind (t : Type_) : kind := match t with Basic _ k _ _ _ => k | SliceOf _ _ => KSlice | ArrayOf _ _ _ => KArray end.
Fixpoint TType (t : Type_) : gtype :=
  match t with Basic _ _ g _ _ => g | SliceOf e _ => GTSlice (TType e) | ArrayOf e n _ => GTArray n (TType e) end.
Definition TSize (t : Type_) : Z := match t with Basic _ _ _ n _ => n | SliceOf _ _ => 0 | ArrayOf _ n _ => n end.
Definition TString (t : Type_) : string := match t with Basic _ _ _ _ s | SliceOf _ s | ArrayOf _ _ s => s end.

Definition requiresLengthPrefix (t : Type_) : bool :=
  bool_decide (T t = StringTy) || bool_decide (T t = BytesTy) || bool_decide (T t = SliceTy).

(** *** Parsing *)
Definition chars := list Ascii.ascii.
Definition code (c : Ascii.ascii) : Z := Z.of_N (Ascii.N_of_ascii c).
Definition is_letter (c : Ascii.ascii) : bool := (97 <=? code c) && (code c <=? 122) || (65 <=? code c) && (code c <=? 90).
Definition is_digit (c : Ascii.ascii) : bool := (48 <=? code c) && (code c <=? 57).

(** The longest start of such characters, and the rest. *)
Fixpoint span (p : Ascii.ascii -> bool) (s : chars) : chars * chars :=
  match s with
  | c :: r => if p c then let '(a, b) := span p r in (c :: a, b) else ([], s)
  | [] => ([], [])
  end.

Definition text (s : chars) : string := String.string_of_list_ascii s.

(** [strconv.Atoi] of digits; anything else, and what does not fit, is an error. *)
Definition Atoi (s : chars) : option Z :=
  if negb (forallb is_digit s) || (length s =? 0)%nat then None
  else let z := foldl (fun a c => a * 10 + (code c - 48)) 0 s in
    if z <? 2 ^ 63 then Some z else None.

(** [re.FindAllString] of digits: the runs of them. *)
Fixpoint digit_runs (fuel : nat) (s : chars) : list chars :=
  match fuel with
  | O => []
  | S fuel =>
      match s with
      | [] => []
      | c :: r => match span is_digit s with
                  | ([], _) => digit_runs fuel r
                  | (d, rest) => d :: digit_runs fuel rest
                  end
      end
  end.

(** The first match of [typeRegex]: all of it, its letters, what follows them, and the digits
    of that.  Without a letter there is none, and its use panics. *)
Record typeMatch := { m0 : chars; m1 : chars; m2 : chars; m3 : chars }.

Fixpoint typeRegex (s : chars) : option typeMatch :=
  match s with
  | [] => None
  | c :: r =>
      if is_letter c then
        let '(letters, rest) := span is_letter s in
        let '(digits, rest) := span is_digit rest in
        let sub := match digits, rest with
                   | [], _ => []
                   | _, x :: rest => if code x =? 120 then
                                       match (span is_digit rest).1 with [] => digits | d => digits ++ x :: d end
                                     else digits
                   | _, [] => digits
                   end in
        Some {| m0 := letters ++ sub; m1 := letters; m2 := sub; m3 := digits |}
      else typeRegex r
  end.

Definition count (c : Z) (s : chars) : nat := length (filter (fun x => code x = c) s).

(** [strings.LastIndex]: what is before the last such character, and from it on. *)
Fixpoint split_last (c : Z) (s : chars) : option (chars * chars) :=
  match s with
  | [] => None
  | x :: r => match split_last c r with
              | Some (a, b) => Some (x :: a, b)
              | None => if code x =? c then Some ([], s) else None
              end
  end.

Inductive abi_error :=
  | errInvalidArg | errVariableSize | errArrayFormat | errUnsupported (t : string)
  | errTypeCheck | errCount (got want : nat) | errNegative (size : Z) | errOffset (len : nat) (want : Z)
  | errInsufficient (len : nat) (want : Z) | errBadBool | errFunction (word : list Z) | errUnknown
  | errMethod (name : string) | errJSON | errEmpty | errFormat | errNoName | errNoId (sig : list Z).

Definition reflectIntKindAndType (unsigned : bool) (size : Z) : kind * gtype :=
  let k (u s : ikind) := if unsigned then (KInt u, GTInt u) else (KInt s, GTInt s) in
  if size =? 8 then k Uint8 Int8
  else if size =? 16 then k Uint16 Int16
  else if size =? 32 then k Uint32 Int32
  else if size =? 64 then k Uint64 Int64
  else (KPtr, GTBig).

(** The size of a value in memory; an array that is larger than memory panics. *)
Fixpoint sizeof (t : gtype) : Z :=
  match t with
  | GTInt (Int8 | Uint8) | GTBool => 1
  | GTInt (Int16 | Uint16) => 2
  | GTInt (Int32 | Uint32) => 4
  | GTInt _ | GTBig | GTPtr _ | GTFloat64 | GTMap => 8
  | GTString | GTInterface => 16
  | GTSlice _ => 24
  | GTArray n t => n * sizeof t
  end.

Definition reflect_ArrayOf (n : Z) (t : gtype) : option gtype :=
  if (0 <? sizeof t) && ((2 ^ 64 - 1) / sizeof t <? n) then None else Some (GTArray n t).

Definition parse_basic (t : chars) : outcome abi_error Type_ :=
  parsed ← or_panic (typeRegex t);
  varSize ← (if (0 <? length parsed.(m3))%nat
             then match Atoi parsed.(m2) with Some n => Ret n | None => Err errVariableSize end
             else if bool_decide (text parsed.(m0) = "uint"%string) || bool_decide (text parsed.(m0) = "int"%string)
             then Err (errUnsupported (text t)) else Ret 0);
  let varType := text parsed.(m1) in
  let basic ty k g n := Ret (Basic ty k g n (text t)) in
  if bool_decide (varType = "int"%string) then let '(k, g) := reflectIntKindAndType false varSize in basic IntTy k g varSize
  else if bool_decide (varType = "uint"%string) then let '(k, g) := reflectIntKindAndType true varSize in basic UintTy k g varSize
  else if bool_decide (varType = "bool"%string) then basic BoolTy KBool GTBool 0
  else if bool_decide (varType = "address"%string) then basic AddressTy KArray (GTArray 20 (GTInt Uint8)) 20
  else if bool_decide (varType = "string"%string) then basic StringTy KString GTString 0
  else if bool_decide (varType = "bytes"%string) then
    if varSize =? 0 then basic BytesTy KSlice (GTSlice (GTInt Uint8)) 0
    else g ← or_panic (reflect_ArrayOf varSize (GTInt Uint8)); basic FixedBytesTy KArray g varSize
  else if bool_decide (varType = "function"%string) then basic FunctionTy KArray (GTArray 24 (GTInt Uint8)) 24
  else Err (errUnsupported (text t)).

(** What is before the last bracket is shorter. *)
Fixpoint NewType_fuel (fuel : nat) (t : chars) : outcome abi_error Type_ :=
  match fuel with
  | O => Panic
  | S fuel =>
      if negb (count 91 t =? count 93 t)%nat then Err errInvalidArg
      else match split_last 91 t with
           | None => parse_basic t
           | Some (before, sliced) =>
               embeddedType ← NewType_fuel fuel before;
               match digit_runs (length sliced) sliced with
               | [] => Ret (SliceOf embeddedType (text t))
               | [n] => match Atoi n with
                        | Some n => _ ← or_panic (reflect_ArrayOf n (TType embeddedType)); Ret (ArrayOf embeddedType n (text t))
                        | None => Err errVariableSize
                        end
               | _ => Err errArrayFormat
               end
           end
  end.

Definition NewType (t : string) : outcome abi_error Type_ :=
  let t := String.list_ascii_of_string t in NewType_fuel (S (length t)) t.

Example NewType_array : NewType "uint8[3][]"%string =
  Ret (SliceOf (ArrayOf (Basic UintTy (KInt Uint8) (GTInt Uint8) 8 "uint8") 3 "uint8[3]") "uint8[3][]").
Proof. reflexivity. Qed.

Example NewType_no_letter : NewType "256"%string = Panic.
Proof. reflexivity. Qed.

(** ** Packing *)

(** numbers.go: the 32 bytes of a number in two's complement. *)
Definition U256_bytes (n : Z) : list Z := PaddedBigBytes (U256 n) 32.

Definition packNum (v : gval) : option (list Z) :=
  match v with
  | GInt _ z | GBig z => Some (U256_bytes z)
  | _ => None
  end.

Definition packBytesSlice (bytes : list Z) (l : nat) : list Z :=
  U256_bytes (Z.of_nat l) ++ RightPadBytes bytes (Z.of_nat ((l + 31) / 32 * 32)).

(** A failed type assertion, a conversion of other elements to bytes or a kind without a case panics. *)
Definition packElement (t : Type_) (v : gval) : option (list Z) :=
  match T t with
  | IntTy | UintTy => packNum v
  | StringTy => match v with GString s => Some (packBytesSlice s (length s)) | _ => None end
  | AddressTy => b ← as_bytes v; Some (LeftPadBytes b 32)
  | BoolTy => match v with GBool b => Some (PaddedBigBytes (if b then 1 else 0) 32) | _ => None end
  | BytesTy => b ← as_bytes v; Some (packBytesSlice b (length b))
  | FixedBytesTy | FunctionTy => b ← as_bytes v; Some (RightPadBytes b 32)
  | _ => None
  end.

(** error.go *)
Fixpoint sliceTypeCheck (t : Type_) (val : gval) : outcome abi_error unit :=
  match t with
  | Basic _ _ _ _ _ => Panic
  | SliceOf elem _ | ArrayOf elem _ _ =>
      _ ← or_panic (type_of val);
      match Len val, elemKind val with
      | Some len, Some ek =>
          if match t with ArrayOf _ n _ => negb (Z.of_nat len =? n) | _ => false end then Err errTypeCheck
          else
            let check := if decide (ek = TKind elem) then Ret tt else Err errTypeCheck in
            match elem with
            | SliceOf _ _ => match elements val with
                             | x :: _ => sliceTypeCheck elem x
                             | [] => check
                             end
            | ArrayOf _ _ _ => match elements val with
                               | x :: _ => sliceTypeCheck elem x
                               | [] => Panic
                               end
            | Basic _ _ _ _ _ => check
            end
      | _, _ => Err errTypeCheck
      end
  end.

Definition typeCheck (t : Type_) (value : gval) : outcome abi_error unit :=
  _ ← or_panic (type_of value);
  match t with
  | SliceOf _ _ | ArrayOf _ _ _ => sliceTypeCheck t value
  | Basic ty k _ size _ =>
      if decide (k = Kind value) then
        if bool_decide (ty = FixedBytesTy) && match Len value with Some n => negb (Z.of_nat n =? size) | None => true end
        then Err errTypeCheck else Ret tt
      else Err errTypeCheck
  end.

Definition pack_elems (pack : gval -> outcome abi_error (list Z)) : list gval -> outcome abi_error (list Z) :=
  fix go l := match l with
              | [] => Ret []
              | v :: l => b ← pack v; r ← go l; Ret (b ++ r)
              end.

Fixpoint pack (t : Type_) (v : gval) : outcome abi_error (list Z) :=
  v ← or_panic (indirect v);
  _ ← typeCheck t v;
  match t with
  | SliceOf elem _ =>
      packed ← pack_elems (pack elem) (elements v); Ret (packBytesSlice packed (length (elements v)))
  | ArrayOf elem _ _ => pack_elems (pack elem) (elements v)
  | Basic _ _ _ _ _ => or_panic (packElement t v)
  end.

(** ** Arguments *)
Record Argument := { Name : string; Type__ : Type_; Indexed : bool }.
Definition Arguments_ := list Argument.

Definition LengthNonIndexed (arguments : Arguments_) : nat := length (filter (fun a => a.(Indexed) = false) arguments).
Definition NonIndexed (arguments : Arguments_) : Arguments_ := filter (fun a => a.(Indexed) = false) arguments.
Definition isTuple (arguments : Arguments_) : bool := (1 <? length arguments)%nat.

(** The offset of what comes after the heads: of an array, the words of its outermost size are counted. *)
Definition inputOffset (abiArgs : Arguments_) : Z :=
  foldl (fun n a => i64 (n + match a.(Type__) with ArrayOf _ size _ => i64 (32 * size) | _ => 32 end)) 0 abiArgs.

(** The heads, and behind them what has a length. *)
Fixpoint Pack_loop (offset : Z) (abiArgs : Arguments_) (args : list gval) (ret variableInput : list Z) : outcome abi_error (list Z) :=
  match abiArgs, args with
  | input :: abiArgs, a :: args =>
      packed ← pack input.(Type__) a;
      if requiresLengthPrefix input.(Type__) then
        Pack_loop offset abiArgs args (ret ++ U256_bytes (i64 (offset + Z.of_nat (length variableInput)))) (variableInput ++ packed)
      else Pack_loop offset abiArgs args (ret ++ packed) variableInput
  | _, _ => Ret (ret ++ variableInput)
  end.

Definition Pack (arguments : Arguments_) (args : list gval) : outcome abi_error (list Z) :=
  if negb (length args =? length arguments)%nat then Err (errCount (length args) (length arguments))
  else Pack_loop (inputOffset arguments) arguments args [] [].

Definition PackValues := Pack.

(** ** Unpacking *)
Definition maxUint256 : Z := 2 ^ 256 - 1.
Definition maxInt256 : Z := 2 ^ 255 - 1.

(** The last [n] bytes as a number, and as a signed one. *)
Definition last_bytes (n : nat) (b : list Z) : Z := be_int (drop (length b - n) b).
Definition signed (bits z : Z) : Z := if z <? 2 ^ (bits - 1) then z else z - 2 ^ bits.

Definition readInteger (typ : ty) (k : kind) (b : list Z) : gval :=
  match k with
  | KInt Uint8 => GInt Uint8 (last_bytes 1 b)
  | KInt Uint16 => GInt Uint16 (last_bytes 2 b)
  | KInt Uint32 => GInt Uint32 (last_bytes 4 b)
  | KInt Uint64 => GInt Uint64 (last_bytes 8 b)
  | KInt Int8 => GInt Int8 (signed 8 (last_bytes 1 b))
  | KInt Int16 => GInt Int16 (signed 16 (last_bytes 2 b))
  | KInt Int32 => GInt Int32 (signed 32 (last_bytes 4 b))
  | KInt Int64 => GInt Int64 (signed 64 (last_bytes 8 b))
  | _ =>
      let ret := SetBytes b in
      if bool_decide (typ = UintTy) then GBig ret
      else if maxInt256 <? ret then GBig (- (maxUint256 - ret + 1)) else GBig ret
  end.

Definition readBool (word : list Z) : outcome abi_error bool :=
  if forallb (fun b => b =? 0) (take 31 word) then
    match word !! 31%nat with
    | Some 0 => Ret false
    | Some 1 => Ret true
    | Some _ => Err errBadBool
    | None => Panic
    end
  else Err errBadBool.

Definition byte_array (b : list Z) : gval := GArray (GTInt Uint8) (map (GInt Uint8) b).

Definition readFunctionType (t : Type_) (word : list Z) : outcome abi_error gval :=
  if negb (bool_decide (T t = FunctionTy)) then Err errUnknown
  else if be_int (take 8 (drop 24 word)) =? 0 then Ret (byte_array (take 24 word)) else Err (errFunction word).

(** Slicing a word goes on into what is behind it, as far as there is memory. *)
Definition readFixedBytes (t : Type_) (behind : list Z) : outcome abi_error gval :=
  if negb (bool_decide (T t = FixedBytesTy)) then Err errUnknown
  else b ← or_panic (slice behind 0 (TSize t)); Ret (byte_array b).

Fixpoint getFullElemSize (elem : Type_) : Z :=
  match elem with ArrayOf e n _ => i64 (getFullElemSize e * n) | _ => 32 end.

Section Unpack.
(** [output], and the memory behind it that belongs to the same array. *)
Context (output spare : list Z).

Definition word_at (index : Z) : outcome abi_error (list Z) := or_panic (slice output index (i64 (index + 32))).

Definition lengthPrefixPointsTo (index : Z) : outcome abi_error (Z * Z) :=
  word ← word_at index;
  let bigOffsetEnd := SetBytes word + 32 in
  let outputLength := Z.of_nat (length output) in
  if outputLength <? bigOffsetEnd then Err (errOffset (length output) bigOffsetEnd)
  else if 63 <? BitLen bigOffsetEnd then Err (errOffset (length output) bigOffsetEnd)
  else
    lengthWord ← or_panic (slice output (bigOffsetEnd - 32) bigOffsetEnd);
    let lengthBig := SetBytes lengthWord in
    let totalSize := bigOffsetEnd + lengthBig in
    if 63 <? BitLen totalSize then Err (errInsufficient (length output) totalSize)
    else if outputLength <? totalSize then Err (errInsufficient (length output) totalSize)
    else Ret (bigOffsetEnd, lengthBig).

(** Elements one after the other, [elemSize] bytes apart. *)
Fixpoint unpack_elems (read : Z -> outcome abi_error gval) (size : nat) (i elemSize : Z) : outcome abi_error (list gval) :=
  match size with
  | O => Ret []
  | S size => v ← read i; l ← unpack_elems read size (i64 (i + elemSize)) elemSize; Ret (v :: l)
  end.

(** [forEachUnpack], with what is common to slices and arrays. *)
Definition forEachUnpack (read : Z -> outcome abi_error gval) (start size elemSize : Z) : outcome abi_error (list gval) :=
  if size <? 0 then Err (errNegative size)
  else if Z.of_nat (length output) <? i64 (start + i64 (32 * size)) then Err (errOffset (length output) (i64 (start + i64 (32 * size))))
  else unpack_elems read (Z.to_nat size) start elemSize.

Definition readBasic (index : Z) (t : Type_) (word : list Z) : outcome abi_error gval :=
  match T t with
  | IntTy | UintTy => Ret (readInteger (T t) (TKind t) word)
  | BoolTy => b ← readBool word; Ret (GBool b)
  | AddressTy => Ret (byte_array (be_bytes AddressLength (BytesToAddress word)))
  | HashTy => Ret (byte_array (be_bytes HashLength (BytesToHash word)))
  | FixedBytesTy => readFixedBytes t (drop (Z.to_nat index) (output ++ spare))
  | FunctionTy => readFunctionType t word
  | _ => Err errUnknown
  end.

Fixpoint toGoType (index : Z) (t : Type_) : outcome abi_error gval :=
  if Z.of_nat (length output) <? i64 (index + 32) then Err (errInsufficient (length output) (i64 (index + 32)))
  else
    match t with
    | SliceOf elem _ =>
        '(begin, len) ← lengthPrefixPointsTo index;
        l ← forEachUnpack (fun i => toGoType i elem) begin len 32; Ret (GSlice (TType elem) l)
    | ArrayOf elem n _ =>
        _ ← word_at index;
        l ← forEachUnpack (fun i => toGoType i elem) index n (getFullElemSize elem); Ret (GArray (TType elem) l)
    | Basic ty _ _ _ _ =>
        if requiresLengthPrefix t then
          '(begin, len) ← lengthPrefixPointsTo index;
          b ← or_panic (slice output begin (begin + len));
          Ret (if bool_decide (ty = StringTy) then GString b else GSlice (GTInt Uint8) (map (GInt Uint8) b))
        else word ← word_at index; readBasic index t word
    end.

(** The words of an array. *)
Definition getArraySize (elem : Type_) (size : Z) : Z :=
  (fix go (t : Type_) (size : Z) := match t with ArrayOf e n _ => go e (i64 (size * n)) | _ => size end) elem size.

Fixpoint UnpackValues_loop (args : Arguments_) (index virtualArgs : Z) : outcome abi_error (list gval) :=
  match args with
  | [] => Ret []
  | arg :: args =>
      v ← toGoType (i64 ((index + virtualArgs) * 32)) arg.(Type__);
      let virtualArgs := match arg.(Type__) with
                         | ArrayOf e n _ => i64 (virtualArgs + (getArraySize e n - 1))
                         | _ => virtualArgs
                         end in
      l ← UnpackValues_loop args (index + 1) virtualArgs; Ret (v :: l)
  end.

Definition UnpackValues (arguments : Arguments_) : outcome abi_error (list gval) := UnpackValues_loop (NonIndexed arguments) 0 0.
End Unpack.
