(* ===== verification/AbiTypes.v ===== *)
(** * Contract types are well formed, and unpacking gives values of their Go types

    What [NewType] returns, what a value of a Go type is, and that the values
    [toGoType] reads have the Go type of the contract type they are read for, so that
    storing them in the slices and arrays of that type, which reflect checks, never
    fails. *)
From Stdlib Require Import ZArith Lia.
From S2P Require Import Prelude Word Json.
Import Big.
From S2P Require Import Abi.
Open Scope Z_scope.

(** ** Well-formed contract types *)
Abbreviation uint8 := (GTInt Uint8).

(** What [NewType] makes of a name without brackets. *)
Definition wf_basic (t : ty) (k : kind) (g : gtype) (size : Z) : Prop :=
  match t with
  | IntTy => (k, g) = reflectIntKindAndType false size
  | UintTy => (k, g) = reflectIntKindAndType true size
  | BoolTy => k = KBool /\ g = GTBool
  | StringTy => k = KString /\ g = GTString
  | BytesTy => k = KSlice /\ g = GTSlice uint8
  | AddressTy => k = KArray /\ g = GTArray 20 uint8
  | FixedBytesTy => k = KArray /\ g = GTArray size uint8 /\ 0 < size
  | FunctionTy => k = KArray /\ g = GTArray 24 uint8
  | SliceTy | ArrayTy | HashTy | FixedPointTy => False
  end.

Fixpoint wf (t : Type_) : Prop :=
  match t with
  | Basic t k g size _ => wf_basic t k g size
  | SliceOf e _ => wf e
  | ArrayOf e n _ => 0 <= n /\ wf e
  end.

Lemma Atoi_nonneg s n : Atoi s = Some n -> 0 <= n.
Proof.
  unfold Atoi. case_match eqn:E; [done|]. cbv zeta. case_match; [|done]. intros [= <-].
  apply orb_false_iff in E as [E%negb_false_iff%Is_true_true_2%forallb_True _].
  clear H. cut (forall a, 0 <= a -> 0 <= foldl (fun a c => a * 10 + (code c - 48)) a s); [intros Hz; by apply Hz|].
  induction E as [|c s Hc _ IH]; intros a Ha; simpl; [done|]. apply IH.
  apply Is_true_true, andb_prop in Hc as [Hc%Z.leb_le _]. lia.
Qed.

Lemma parse_basic_wf s t : parse_basic s = Ret t -> wf t.
Proof.
  unfold parse_basic. intros H. inv_bind. cbv zeta in *.
  match goal with H : (if _ then _ else _) = Ret ?n |- _ =>
    assert (Hn : 0 <= n); [repeat case_match; simplify_eq; eauto using Atoi_nonneg; lia|] end.
  repeat match goal with
  | H : (let '(_, _) := ?p in _) = Ret _ |- _ => destruct p eqn:?
  | H : (if ?b then _ else _) = Ret _ |- _ => destruct b eqn:?
  end; simplify_eq/=; try done; inv_bind; simpl; auto.
  match goal with H : reflect_ArrayOf _ _ = Some _ |- _ => unfold reflect_ArrayOf in H; case_match; simplify_eq end.
  rewrite Z.eqb_neq in *. split_and!; (done || lia).
Qed.

Lemma NewType_fuel_wf n s t : NewType_fuel n s = Ret t -> wf t.
Proof.
  revert s t. induction n as [|n IH]; simpl; [done|]. intros s t H.
  case_match; [done|]. destruct (split_last 91 s) as [[before sliced]|].
  - inv_bind. repeat case_match; simplify_eq; inv_bind; simpl; eauto using Atoi_nonneg.
  - by eapply parse_basic_wf.
Qed.

Lemma NewType_wf s t : NewType s = Ret t -> wf t.
Proof. apply NewType_fuel_wf. Qed.

(** The brackets before the last one are fewer: the fuel is enough. *)
Lemma split_last_length c s a b : split_last c s = Some (a, b) -> (length a < length s)%nat.
Proof.
  revert a b. induction s as [|x s IH]; simpl; [done|]. intros a b H.
  destruct (split_last c s) as [[a' b']|] eqn:E.
  - simplify_eq/=. specialize (IH _ _ eq_refl). lia.
  - case_match; simplify_eq/=. lia.
Qed.

Lemma NewType_fuel_mono n m s : (length s < n)%nat -> (length s < m)%nat -> NewType_fuel n s = NewType_fuel m s.
Proof.
  revert m s. induction n as [|n IH]; [lia|]. intros [|m] s Hn Hm; [lia|]. simpl.
  case_match; [done|]. destruct (split_last 91 s) as [[a b]|] eqn:E; [|done].
  apply split_last_length in E. rewrite (IH m a) by lia. done.
Qed.

(** ** Values of Go types *)
Definition is_byte (b : Z) : Prop := 0 <= b < 256.

Lemma check_bytes l : forallb (fun b => (0 <=? b) && (b <? 256)) l = true -> Forall is_byte l.
Proof.
  induction l as [|b l IH]; simpl; [constructor|]. intros [[H1%Z.leb_le H2%Z.ltb_lt]%andb_prop H]%andb_prop.
  constructor; [done|auto].
Qed.

Definition int_range (k : ikind) (z : Z) : Prop :=
  match k with
  | Int8 => - 2 ^ 7 <= z < 2 ^ 7 | Int16 => - 2 ^ 15 <= z < 2 ^ 15 | Int32 => - 2 ^ 31 <= z < 2 ^ 31
  | Int | Int64 => - 2 ^ 63 <= z < 2 ^ 63
  | Uint8 => 0 <= z < 2 ^ 8 | Uint16 => 0 <= z < 2 ^ 16 | Uint32 => 0 <= z < 2 ^ 32
  | Uint | Uint64 => 0 <= z < 2 ^ 64
  end.

(** Of the types that occur in contracts *)
Fixpoint typed (g : gtype) (v : gval) : Prop :=
  match g, v with
  | GTInt k, GInt k' z => k' = k /\ int_range k z
  | GTBool, GBool _ => True
  | GTString, GString s => Forall is_byte s
  | GTBig, GBig _ => True
  | GTSlice g, GSlice g' l => g' = g /\ Forall (typed g) l
  | GTArray n g, GArray g' l => g' = g /\ Z.of_nat (length l) = n /\ Forall (typed g) l
  | _, _ => False
  end.

Lemma typed_type_of g v : typed g v -> type_of v = Some g.
Proof.
  destruct g, v; simpl; try done; [by intros [-> _] | by intros [-> _] | by intros (-> & <- & _)].
Qed.

Lemma typed_indirect g v : typed g v -> indirect v = Some v.
Proof. by destruct g, v. Qed.

Lemma typed_Kind g v : typed g v -> Kind v = kind_of_type g.
Proof. destruct g, v; simpl; try done. by intros [-> _]. Qed.

Lemma wf_kind t : wf t -> kind_of_type (TType t) = TKind t.
Proof.
  destruct t as [t k g n s| |]; [|done|done].
  destruct t; simpl; try done; intros H;
    try (by destruct H as [-> ->]); try (by destruct H as (-> & -> & _));
    unfold reflectIntKindAndType in H; repeat case_match; by simplify_eq.
Qed.

Lemma typed_bytes bs : Forall is_byte bs -> Forall (typed uint8) (map (GInt Uint8) bs).
Proof. induction 1; simpl; constructor; [done|done]. Qed.

Lemma typed_byte_array n bs : Forall is_byte bs -> Z.of_nat (length bs) = n -> typed (GTArray n uint8) (byte_array bs).
Proof. intros Hb Hn. simpl. split_and!; [done | by rewrite length_map | by apply typed_bytes]. Qed.

Lemma bytes_typed l : Forall (typed uint8) l -> exists bs, l = map (GInt Uint8) bs /\ Forall is_byte bs.
Proof.
  induction 1 as [|v l Hv _ (bs & -> & Hb)]; [by exists []|].
  destruct v as [k z| | | | | | | | | | |]; try done. destruct Hv as [-> Hz].
  exists (z :: bs). by split; [|constructor].
Qed.

Lemma byte_array_typed n v : typed (GTArray n uint8) v ->
  exists bs, v = byte_array bs /\ Z.of_nat (length bs) = n /\ Forall is_byte bs.
Proof.
  destruct v as [| | | | |g l| | | | | |]; try done. intros (-> & <- & Hl).
  apply bytes_typed in Hl as (bs & -> & Hb). exists bs. by rewrite length_map.
Qed.

(** ** What unpacking reads *)
Ltac destruct_pairs := repeat match goal with p : (_ * _)%type |- _ => destruct p end.

Lemma slice_is {A} (l : list A) i j w : slice l i j = Some w ->
  0 <= i <= j /\ j <= Z.of_nat (length l) /\ w = take (Z.to_nat (j - i)) (drop (Z.to_nat i) l).
Proof.
  unfold slice. case_match eqn:E; [|done]. intros [= <-].
  apply andb_prop in E as [[E1%Z.leb_le E2%Z.leb_le]%andb_prop E3%Z.leb_le]. split_and!; (done || lia).
Qed.

Lemma slice_length {A} (l : list A) i j w : slice l i j = Some w -> Z.of_nat (length w) = j - i.
Proof. intros (? & ? & ->)%slice_is. rewrite length_take, length_drop. lia. Qed.

Lemma slice_Forall {A} (P : A -> Prop) (l : list A) i j w : Forall P l -> slice l i j = Some w -> Forall P w.
Proof. intros Hl (_ & _ & ->)%slice_is. by apply Forall_take, Forall_drop. Qed.

Lemma last_bytes_range n b : Forall is_byte b -> 0 <= last_bytes n b < 256 ^ Z.of_nat n.
Proof. intros H. unfold last_bytes. rewrite be_int_drop by done. apply Z.mod_pos_bound. lia. Qed.

Lemma signed_bounds w z : 0 < w -> 0 <= z < 2 ^ w -> - 2 ^ (w - 1) <= signed w z < 2 ^ (w - 1).
Proof.
  intros Hw Hz. unfold signed. assert (2 ^ w = 2 * 2 ^ (w - 1)) by (rewrite <- Z.pow_succ_r by lia; f_equal; lia).
  case_match eqn:E; [apply Z.ltb_lt in E | apply Z.ltb_ge in E]; lia.
Qed.

Lemma readInteger_typed t k g size b : t = IntTy \/ t = UintTy -> wf_basic t k g size -> Forall is_byte b ->
  typed g (readInteger t k b).
Proof.
  intros Ht Hk Hb.
  assert (Hg : exists u, (k, g) = reflectIntKindAndType u size) by (destruct Ht as [-> | ->]; simpl in Hk; eauto).
  destruct Hg as [u Hg]. unfold reflectIntKindAndType in Hg.
  repeat match type of Hg with _ = (if _ then _ else _) => case_match end; destruct u; injection Hg as -> ->; simpl;
    try (split; [done|]);
    try exact (last_bytes_range _ _ Hb);
    try (match goal with |- context [signed ?w ?z] => exact (signed_bounds w z eq_refl (last_bytes_range _ _ Hb)) end).
  all: repeat case_match; done.
Qed.

(** A word that can be sliced is one of 32 bytes. *)
Lemma word_length {A} (l : list A) i w : slice l i (i64 (i + 32)) = Some w -> i64 (i + 32) = i + 32 /\ length w = 32%nat.
Proof.
  intros H. pose proof (slice_length _ _ _ _ H). apply slice_is in H as (H1 & _ & _).
  assert (i + 32 < 2 ^ 63).
  { pose proof (i64_range (i + 32)) as Hr. unfold is_i64 in Hr. destruct (decide (i + 32 < 2 ^ 63)); [done|].
    destruct (decide (i < 2 ^ 63)); [|lia].
    unfold i64 in H1. rewrite <- (Z.mod_unique_pos (i + 32 + 2 ^ 63) (2 ^ 64) 1 (i + 32 - 2 ^ 63)) in H1; lia. }
  rewrite i64_id in * by (unfold is_i64; lia). split; [done|lia].
Qed.

Section Unpacked.
Context (output spare : list Z) (Houtput : Forall is_byte output) (Hspare : Forall is_byte spare).

Lemma lengthPrefix_nonneg i b n : lengthPrefixPointsTo output i = Ret (b, n) -> 0 <= n.
Proof.
  unfold lengthPrefixPointsTo. intros H. inv_bind. repeat case_match; inv_bind; try done.
  repeat case_match; try done. simplify_eq. unfold SetBytes.
  match goal with H : slice _ _ _ = Some _ |- _ =>
    pose proof (be_int_bound _ (slice_Forall _ _ _ _ _ Houtput H)) end. lia.
Qed.

Lemma Ret_inj {E A} (a b : A) : Ret (E:=E) a = Ret b -> a = b.
Proof. congruence. Qed.

Lemma readBasic_typed i t k g size s w v : wf_basic t k g size ->
  slice output i (i64 (i + 32)) = Some w -> readBasic output spare i (Basic t k g size s) w = Ret v -> typed g v.
Proof.
  intros Hwf Hw. pose proof (slice_Forall _ _ _ _ _ Houtput Hw) as Hb.
  unfold readBasic; cbn [T TKind]. destruct t; simpl in Hwf; try done; intros H.
  - apply Ret_inj in H as <-. eapply readInteger_typed; eauto.
  - apply Ret_inj in H as <-. eapply readInteger_typed; eauto.
  - inv_bind. by destruct Hwf as [_ ->].
  - apply Ret_inj in H as <-. destruct Hwf as [_ ->]. apply typed_byte_array; [apply be_bytes_range | by rewrite be_bytes_length].
  - unfold readFixedBytes in H. simpl in H. inv_bind. destruct Hwf as (_ & -> & Hs).
    pose proof (slice_length _ _ _ _ H) as Hl. apply typed_byte_array; [|lia].
    eapply slice_Forall; [|done]. apply Forall_drop, Forall_app. done.
  - unfold readFunctionType in H. simpl in H. case_match; [|done]. injection H as <-.
    destruct Hwf as [_ ->]. apply word_length in Hw as [_ Hw].
    apply typed_byte_array; [by apply Forall_take | by rewrite length_take, Hw].
Qed.

Lemma unpack_elems_typed read g n i step l : (forall i v, read i = Ret v -> typed g v) ->
  unpack_elems read n i step = Ret l -> length l = n /\ Forall (typed g) l.
Proof.
  intros Hread. revert i l. induction n as [|n IH]; simpl; intros i l H; inv_bind; [done|].
  edestruct IH as [<- Hl]; [done|]. split; [done|]. constructor; eauto.
Qed.

Lemma forEachUnpack_typed read g start n step l : (forall i v, read i = Ret v -> typed g v) ->
  forEachUnpack output read start n step = Ret l -> 0 <= n /\ Z.of_nat (length l) = n /\ Forall (typed g) l.
Proof.
  intros Hread. unfold forEachUnpack. case_match eqn:E; [done|]. apply Z.ltb_ge in E. case_match; [done|].
  intros Hl. eapply unpack_elems_typed in Hl as [Hn Hl]; [|done]. split_and!; (done || lia).
Qed.

Lemma toGoType_typed t i v : wf t -> toGoType output spare i t = Ret v -> typed (TType t) v.
Proof.
  revert i v. induction t as [t k g size s|e IH s|e IH n s]; intros i v Hwf H; cbn [toGoType] in H;
    (case_match; [done|]).
  - case_match eqn:Hp.
    + inv_bind. destruct_pairs. inv_bind.
      match goal with H : slice _ _ _ = Some _ |- _ => pose proof (slice_Forall _ _ _ _ _ Houtput H) end.
      unfold requiresLengthPrefix in Hp. simpl in Hp. destruct t; try done; destruct Hwf as [_ ->]; simpl; [done|].
      split; [done|]. by apply typed_bytes.
    + unfold word_at in *. inv_bind. by eapply readBasic_typed.
  - inv_bind. destruct_pairs. inv_bind.
    match goal with H : forEachUnpack _ _ _ _ _ = _ |- _ =>
      eapply (forEachUnpack_typed _ (TType e)) in H as (_ & _ & Hl); [by simpl | eauto] end.
  - destruct Hwf as [_ Hwf]. inv_bind.
    match goal with H : forEachUnpack _ _ _ _ _ = _ |- _ =>
      eapply (forEachUnpack_typed _ (TType e)) in H as (_ & Hn & Hl); [by simpl | eauto] end.
Qed.
End Unpacked.

(** What [UnpackValues] returns is a value of its type for each argument that is not indexed. *)
Lemma UnpackValues_loop_typed output spare args index virt vs :
  Forall is_byte output -> Forall is_byte spare -> Forall (fun a => wf a.(Type__)) args ->
  UnpackValues_loop output spare args index virt = Ret vs -> Forall2 (fun a => typed (TType a.(Type__))) args vs.
Proof.
  intros Ho Hs Hwf. revert index virt vs. induction Hwf as [|a args Ha _ IH]; simpl; intros index virt vs H; inv_bind; [done|].
  apply Forall2_cons; split; [by eapply toGoType_typed; [exact Ho|exact Hs|exact Ha|] | by eapply IH].
Qed.

(** C25: contract types: what [NewType] returns for the arguments' types is well formed, and every value
    [UnpackValues] then returns is one of the Go type it computed, whose type, and the types of whose
    elements, are the ones asked for and whose integers are in their type's range. *)
Theorem unpacked_values_have_their_types (args : Arguments_) (output spare : list Z) (vs : list gval)
    (Htypes : Forall (fun a => exists s, NewType s = Ret a.(Type__)) args)
    (Hbytes : Forall is_byte (output ++ spare))
    (Hvalues : UnpackValues output spare args = Ret vs) :
  Forall (fun a => wf a.(Type__)) args /\
  Forall2 (fun a v => type_of v = Some (TType a.(Type__)) /\ typed (TType a.(Type__)) v) (NonIndexed args) vs.
Proof.
  apply Forall_app in Hbytes as [Ho Hs].
  assert (Hwf : Forall (fun a => wf a.(Type__)) args).
  { eapply Forall_impl; [exact Htypes|]. intros a [s Ha]. by eapply NewType_wf. }
  split; [done|]. eapply Forall2_impl.
  - eapply UnpackValues_loop_typed; [exact Ho|exact Hs| |exact Hvalues]. apply Forall_forall. intros a [_ Ha]%list_elem_of_filter. exact (proj1 (Forall_forall _ _) Hwf a Ha).
  - intros a v Hv. split; [by apply typed_type_of|done].
Qed.

Definition int16_2 : Type_ := ArrayOf (Basic IntTy (KInt Int16) (GTInt Int16) 16 "int16") 2 "int16[2]".
Definition bytes_ : Type_ := Basic BytesTy KSlice (GTSlice uint8) 0 "bytes".
Definition sample_arguments : Arguments_ :=
  [ {| Name := "limits"; Type__ := int16_2; Indexed := false |};
    {| Name := "payload"; Type__ := bytes_; Indexed := false |} ].
Definition sample_values : list gval :=
  [GArray (GTInt Int16) [GInt Int16 (-1); GInt Int16 300]; GSlice uint8 [GInt Uint8 1; GInt Uint8 2]].
Definition sample_data : list Z :=
  be_bytes 32 (2 ^ 256 - 1) ++ be_bytes 32 300 ++ be_bytes 32 96 ++ be_bytes 32 2 ++ [1; 2] ++ replicate 30 0.

Lemma unpacked_values_have_their_types_witness :
  UnpackValues sample_data [] sample_arguments = Ret sample_values /\
  Forall (fun a => wf a.(Type__)) sample_arguments /\
  Forall2 (fun a v => type_of v = Some (TType a.(Type__)) /\ typed (TType a.(Type__)) v) (NonIndexed sample_arguments) sample_values.
Proof.
  assert (H : UnpackValues sample_data [] sample_arguments = Ret sample_values) by (vm_compute; reflexivity).
  split; [exact H|]. apply (unpacked_values_have_their_types sample_arguments sample_data [] sample_values); [| |exact H].
  - repeat constructor; [exists "int16[2]"%string; vm_compute; reflexivity | exists "bytes"%string; vm_compute; reflexivity].
  - rewrite app_nil_r. apply check_bytes. vm_compute. reflexivity.
Defined.
