(* ===== verification/AbiRoundTrip.v ===== *)
(** * What is packed is unpacked again

    For the types whose layout [Pack] and [UnpackValues] agree on ([supported]):
    elementary types, arrays of them of any depth, strings, byte strings and slices
    of elementary types. *)
From Stdlib Require Import ZArith Lia.
From S2P Require Import Prelude Word Json.
Import Big.
From S2P Require Import Abi AbiTypes.
Open Scope Z_scope.

(** ** Types and values *)
Fixpoint static (t : Type_) : bool :=
  match t with Basic _ _ _ _ _ => negb (requiresLengthPrefix t) | SliceOf _ _ => false | ArrayOf e _ _ => static e end.

Definition basic (t : Type_) : bool := match t with Basic _ _ _ _ _ => true | _ => false end.

Definition supported (t : Type_) : bool :=
  static t || match t with Basic _ _ _ _ _ => true | SliceOf e _ => basic e && static e | ArrayOf _ _ _ => false end.

(** No array inside an array *)
Definition flat (t : Type_) : bool := match t with ArrayOf e _ _ => basic e | _ => true end.

(** Arrays have elements, and byte arrays fit in a word. *)
Fixpoint sized (t : Type_) : Prop :=
  match t with
  | Basic t _ _ n _ => t = FixedBytesTy -> n <= 32
  | SliceOf e _ => sized e
  | ArrayOf e n _ => 0 < n /\ sized e
  end.

(** The words a value takes in the head *)
Fixpoint words_of (t : Type_) : Z := match t with ArrayOf e n _ => words_of e * n | _ => 1 end.

(** A big integer fits in a word, the signed ones in two's complement. *)
Definition big_range (t : ty) (v : gval) : Prop :=
  match v with
  | GBig z => if decide (t = UintTy) then 0 <= z < 2 ^ 256 else - 2 ^ 255 <= z < 2 ^ 255
  | _ => True
  end.

Fixpoint fits (t : Type_) (v : gval) : Prop :=
  match t with
  | Basic ty _ g _ _ => typed g v /\ big_range ty v
  | SliceOf e _ => match v with GSlice g l => g = TType e /\ Forall (fits e) l | _ => False end
  | ArrayOf e n _ => match v with GArray g l => g = TType e /\ Z.of_nat (length l) = n /\ Forall (fits e) l | _ => False end
  end.

Lemma fits_typed t v : fits t v -> typed (TType t) v.
Proof.
  revert v. induction t as [t k g size s|e IH s|e IH n s]; simpl; intros v; [by intros [H _]| |];
    destruct v; try done.
  - intros [-> Hl]. split; [done|]. eapply Forall_impl; eauto.
  - intros (-> & Hn & Hl). split_and!; [done|done|]. eapply Forall_impl; eauto.
Qed.

Lemma words_of_pos t : sized t -> 0 < words_of t.
Proof. induction t; simpl; intros; [lia|lia|]. destruct H. apply IHt in H0. lia. Qed.

Lemma getFullElemSize_words t : sized t -> 32 * words_of t < 2 ^ 62 -> getFullElemSize t = 32 * words_of t.
Proof.
  induction t as [| |e IH n s]; simpl; try done. intros [Hn He] Hw.
  pose proof (words_of_pos _ He). rewrite IH; [|done|nia]. rewrite i64_id by (unfold is_i64; nia). lia.
Qed.

Lemma getArraySize_words e n : sized e -> 0 < n -> words_of e * n < 2 ^ 62 -> getArraySize e n = words_of e * n.
Proof.
  unfold getArraySize. revert n. induction e as [| |e IH m s]; simpl; intros n He Hn Hw; try lia.
  destruct He as [Hm He]. pose proof (words_of_pos _ He). rewrite i64_id by (unfold is_i64; nia).
  rewrite IH; [lia|done|lia|lia].
Qed.

(** ** Slicing *)
Lemma slice_middle {A} (pre b post : list A) i j : i = Z.of_nat (length pre) -> j = i + Z.of_nat (length b) ->
  slice (pre ++ b ++ post) i j = Some b.
Proof.
  intros -> ->. unfold slice. rewrite !length_app.
  rewrite (proj2 (Z.leb_le _ _)), (proj2 (Z.leb_le _ _)), (proj2 (Z.leb_le _ _)) by lia. simpl.
  rewrite Nat2Z.id, drop_app_length.
  replace (Z.to_nat _) with (length b) by lia. by rewrite take_app_length.
Qed.

Lemma slice_start {A} (b post : list A) j : j = Z.of_nat (length b) -> slice (b ++ post) 0 j = Some b.
Proof. intros. by apply (slice_middle [] b post 0 j). Qed.

Lemma word_at_middle pre b post i : i = Z.of_nat (length pre) -> length b = 32%nat ->
  Z.of_nat (length (pre ++ b ++ post)) < 2 ^ 62 -> word_at (pre ++ b ++ post) i = Ret b.
Proof.
  intros -> Hb Hl. rewrite !length_app in Hl. unfold word_at. rewrite i64_id by (unfold is_i64; lia).
  rewrite slice_middle; [done|done|lia].
Qed.

(** ** Words *)
Lemma U256_bytes_spec z : U256_bytes z = be_bytes 32 (z mod 2 ^ 256).
Proof.
  unfold U256_bytes, PaddedBigBytes. pose proof (U256_range z) as Hr. rewrite <- U256_mod.
  case_match eqn:E.
  - apply Z.leb_le in E. unfold Bytes. rewrite Z.abs_eq by lia. f_equal.
    pose proof (proj2 (BitLen_le (U256 z) 256 ltac:(lia)) ltac:(lia)).
    assert (BitLen (U256 z) = 256) as ->; [|done]. pose proof (Z.div_mod (BitLen (U256 z)) 8).
    pose proof (Z.mod_pos_bound (BitLen (U256 z)) 8). lia.
  - by rewrite ReadBits_zero, Z.abs_eq by lia.
Qed.

Lemma U256_bytes_length z : length (U256_bytes z) = 32%nat.
Proof. by rewrite U256_bytes_spec, be_bytes_length. Qed.

Lemma U256_bytes_range z : Forall is_byte (U256_bytes z).
Proof. rewrite U256_bytes_spec. apply be_bytes_range. Qed.

Lemma U256_bytes_int z : be_int (U256_bytes z) = z mod 2 ^ 256.
Proof. rewrite U256_bytes_spec, be_int_be_bytes. change (256 ^ Z.of_nat 32) with (2 ^ 256). apply Z.mod_mod. lia. Qed.

Lemma last_bytes_U256 n z : (n <= 32)%nat -> last_bytes n (U256_bytes z) = z mod 256 ^ Z.of_nat n.
Proof.
  intros Hn. unfold last_bytes. rewrite be_int_drop by apply U256_bytes_range. rewrite U256_bytes_int.
  change (2 ^ 256) with (256 ^ Z.of_nat 32). apply Z.mod_mod_divide.
  exists (256 ^ (Z.of_nat 32 - Z.of_nat n)). rewrite <- Z.pow_add_r by lia. f_equal. lia.
Qed.

Lemma signed_mod w z : 0 < w -> - 2 ^ (w - 1) <= z < 2 ^ (w - 1) -> signed w (z mod 2 ^ w) = z.
Proof.
  intros Hw Hz. unfold signed. assert (2 ^ w = 2 * 2 ^ (w - 1)) by (rewrite <- Z.pow_succ_r by lia; f_equal; lia).
  destruct (decide (0 <= z)).
  - rewrite Z.mod_small by lia. case_match eqn:E; [done|apply Z.ltb_ge in E; lia].
  - rewrite <- (Z.mod_unique_pos z (2 ^ w) (-1) (z + 2 ^ w)) by lia.
    case_match eqn:E; [apply Z.ltb_lt in E; lia|lia].
Qed.

Lemma as_bytes_array bs : as_bytes (byte_array bs) = Some bs.
Proof. simpl. rewrite map_map. f_equal. apply map_id. Qed.

Lemma as_bytes_slice bs : as_bytes (GSlice uint8 (map (GInt Uint8) bs)) = Some bs.
Proof. simpl. rewrite map_map. f_equal. apply map_id. Qed.

Lemma RightPad_word bs : (length bs <= 32)%nat -> RightPadBytes bs 32 = bs ++ replicate (32 - length bs) 0.
Proof.
  intros. unfold RightPadBytes. case_match eqn:E; [|done]. apply Z.leb_le in E.
  replace (32 - length bs)%nat with 0%nat by lia. by rewrite app_nil_r.
Qed.

Lemma zero_bytes n : Forall is_byte (replicate n 0).
Proof. apply Forall_replicate. unfold is_byte. lia. Qed.

(** ** Elementary types *)
Lemma number_round_trip t k g size v : t = IntTy \/ t = UintTy -> wf_basic t k g size -> typed g v -> big_range t v ->
  exists z, packNum v = Some (U256_bytes z) /\ readInteger t k (U256_bytes z) = v.
Proof.
  intros Ht Hk Hv Hb.
  assert (Hg : exists u, (k, g) = reflectIntKindAndType u size) by (destruct Ht as [-> | ->]; simpl in Hk; eauto).
  destruct Hg as [u Hg]. unfold reflectIntKindAndType in Hg.
  repeat match type of Hg with _ = (if _ then _ else _) => case_match end; destruct u; injection Hg as -> ->;
    destruct v as [k' z| | |z| | | | | | | |]; try done; try (destruct Hv as [-> Hz]);
    exists z; (split; [done|]); cbn [readInteger]; rewrite ?last_bytes_U256 by lia.
  all: try (simpl in Hz; rewrite Z.mod_small by lia; done).
  all: try (match goal with |- GInt _ (signed ?w _) = _ => f_equal; apply (signed_mod w); simpl in Hz; lia end).
  all: unfold SetBytes; rewrite U256_bytes_int; simpl in Hb.
  all: destruct Ht as [-> | ->]; rewrite ?bool_decide_eq_true_2, ?bool_decide_eq_false_2 by done; simpl in Hb.
  all: try (rewrite Z.mod_small by lia; done).
  all: unfold maxInt256, maxUint256; destruct (decide (0 <= z));
    [rewrite Z.mod_small by lia; case_match eqn:E; [apply Z.ltb_lt in E; lia|done]|].
  all: rewrite <- (Z.mod_unique_pos z (2 ^ 256) (-1) (z + 2 ^ 256)) by lia;
    case_match eqn:E; [f_equal; lia | apply Z.ltb_ge in E; lia].
Qed.

Lemma pack_basic t k g size s v : wf_basic t k g size -> typed g v ->
  pack (Basic t k g size s) v = or_panic (packElement (Basic t k g size s) v).
Proof.
  intros Hwf Hv. simpl. rewrite (typed_indirect g v Hv). simpl. unfold typeCheck.
  rewrite (typed_type_of g v Hv). simpl.
  assert (Hk : k = Kind v) by (rewrite (typed_Kind g v Hv); symmetry; exact (wf_kind (Basic t k g size s) Hwf)).
  rewrite decide_True by done. destruct (decide (t = FixedBytesTy)) as [->|Ht].
  - destruct Hwf as (_ & -> & _). destruct v; try done. destruct Hv as (_ & Hn & _).
    simpl. rewrite (proj2 (Z.eqb_eq _ _) Hn). done.
  - rewrite bool_decide_eq_false_2 by done. done.
Qed.

Lemma toGoType_word pre b post spare t k g size s : static (Basic t k g size s) = true -> length b = 32%nat ->
  Z.of_nat (length (pre ++ b ++ post)) < 2 ^ 62 ->
  toGoType (pre ++ b ++ post) spare (Z.of_nat (length pre)) (Basic t k g size s) =
  readBasic (pre ++ b ++ post) spare (Z.of_nat (length pre)) (Basic t k g size s) b.
Proof.
  intros Hs Hb Hl. cbn [toGoType]. pose proof Hl as Hl'. rewrite !length_app in Hl'.
  rewrite i64_id by (unfold is_i64; lia). rewrite !length_app.
  rewrite (proj2 (Z.ltb_ge _ _)) by lia. cbn [static] in Hs. apply negb_true_iff in Hs. rewrite Hs.
  by rewrite word_at_middle.
Qed.

Lemma readBool_bit (b : bool) : exists w, PaddedBigBytes (if b then 1 else 0) 32 = w /\ length w = 32%nat /\ Forall is_byte w /\ readBool w = Ret b.
Proof. eexists. split; [done|]. destruct b; (split_and!; [done | by apply check_bytes | by vm_compute]). Qed.

(** Zeros that do not unfold *)
Lemma zeros n : exists zs, zs = replicate n 0 /\ length zs = n /\ Forall is_byte zs.
Proof. eexists. split; [done|]. split; [apply length_replicate | apply zero_bytes]. Qed.

Lemma address_of_word zs bs : length zs = 12%nat -> length bs = 20%nat -> Forall is_byte bs ->
  be_bytes AddressLength (BytesToAddress (zs ++ bs)) = bs.
Proof.
  intros Hz Hb Hbs. unfold BytesToAddress, array_of. rewrite drop_app_length'; [|rewrite length_app; unfold AddressLength; lia].
  transitivity (be_bytes (length bs) (be_int bs)); [by rewrite Hb | by apply be_bytes_be_int].
Qed.

Lemma basic_round_trip t k g size s v : let ty := Basic t k g size s in
  wf ty -> static ty = true -> sized ty -> fits ty v ->
  exists b, pack ty v = Ret b /\ length b = 32%nat /\ Forall is_byte b /\
    forall pre post spare, Z.of_nat (length (pre ++ b ++ post)) < 2 ^ 62 ->
      toGoType (pre ++ b ++ post) spare (Z.of_nat (length pre)) ty = Ret v.
Proof.
  intros ty Hwf Hst Hsz [Hv Hr]. unfold ty. rewrite (pack_basic _ _ _ _ _ _ Hwf Hv).
  cut (exists b, packElement ty v = Some b /\ length b = 32%nat /\ Forall is_byte b /\
    forall pre post spare, readBasic (pre ++ b ++ post) spare (Z.of_nat (length pre)) ty b = Ret v).
  { intros (b & Hp & Hb & Hbs & Hread). exists b. unfold ty in Hp. rewrite Hp. split_and!; [done|done|done|]. intros. by rewrite toGoType_word. }
  unfold readBasic, ty in *. cbn [T TKind packElement wf sized TSize] in *. destruct t; simpl in Hwf; try done.
  - destruct (number_round_trip IntTy k g size v) as (z & Hp & Hd); [by left|done..|].
    exists (U256_bytes z). split_and!; [done | apply U256_bytes_length | apply U256_bytes_range | by rewrite Hd].
  - destruct (number_round_trip UintTy k g size v) as (z & Hp & Hd); [by right|done..|].
    exists (U256_bytes z). split_and!; [done | apply U256_bytes_length | apply U256_bytes_range | by rewrite Hd].
  - destruct Hwf as [_ ->]. destruct v as [|b| | | | | | | | | |]; try done.
    destruct (readBool_bit b) as (w & Hw & Hlen & Hbs & Hread). exists w. unfold packElement. simpl. rewrite Hw.
    split_and!; [done|done|done|]. intros. by rewrite Hread.
  - destruct Hwf as [_ ->]. apply byte_array_typed in Hv as (bs & -> & Hlen & Hbs).
    destruct (zeros 12) as (zs & Hzs & Hzl & Hzb). exists (zs ++ bs). unfold packElement. cbn [T]. rewrite as_bytes_array. cbn [mbind option_bind]. split_and!.
    + unfold LeftPadBytes. rewrite (proj2 (Z.leb_gt _ _)) by lia. replace (Z.to_nat 32 - length bs)%nat with 12%nat by lia. by rewrite Hzs.
    + rewrite length_app. lia.
    + apply Forall_app. by split.
    + intros. rewrite (address_of_word zs bs) by (done || lia). done.
  - destruct Hwf as (_ & -> & Hsize). apply byte_array_typed in Hv as (bs & -> & Hlen & Hbs).
    specialize (Hsz eq_refl). exists (bs ++ replicate (32 - length bs) 0). unfold packElement. cbn [T].
    rewrite as_bytes_array. simpl. rewrite RightPad_word by lia. split_and!; [done| | |].
    + rewrite length_app, length_replicate. lia.
    + apply Forall_app. split; [done|apply zero_bytes].
    + intros. unfold readFixedBytes. cbn [T TSize].
      rewrite bool_decide_eq_true_2 by done. rewrite Nat2Z.id. simpl.
      rewrite <- app_assoc, drop_app_length, <- !app_assoc.
      by rewrite slice_start by lia.
  - destruct Hwf as [_ ->]. apply byte_array_typed in Hv as (bs & -> & Hlen & Hbs).
    destruct (zeros 8) as (zs & Hzs & Hzl & Hzb). exists (bs ++ zs). unfold packElement. cbn [T]. rewrite as_bytes_array. simpl.
    rewrite RightPad_word by lia. replace (32 - length bs)%nat with 8%nat by lia. split_and!; [by rewrite Hzs| | |].
    + rewrite length_app. lia.
    + apply Forall_app. by split.
    + intros. unfold readFunctionType. cbn [T]. rewrite bool_decide_eq_true_2 by done.
      rewrite drop_app_length', take_app_length' by lia. by rewrite Hzs.
Qed.

(** ** Arrays *)
Definition round_trips (t : Type_) (v : gval) : Prop :=
  exists b, pack t v = Ret b /\ Z.of_nat (length b) = 32 * words_of t /\ Forall is_byte b /\
    forall pre post spare, Z.of_nat (length (pre ++ b ++ post)) < 2 ^ 62 ->
      toGoType (pre ++ b ++ post) spare (Z.of_nat (length pre)) t = Ret v.

Lemma elems_round_trip e l : Forall (round_trips e) l ->
  exists b, pack_elems (pack e) l = Ret b /\ Z.of_nat (length b) = 32 * words_of e * Z.of_nat (length l) /\ Forall is_byte b /\
    forall pre post spare, Z.of_nat (length (pre ++ b ++ post)) < 2 ^ 62 ->
      unpack_elems (fun i => toGoType (pre ++ b ++ post) spare i e) (length l) (Z.of_nat (length pre)) (32 * words_of e) = Ret l.
Proof.
  induction 1 as [|v l (b & Hp & Hlen & Hb & Hread) _ (bs & Hps & Hlens & Hbs & Hreads)].
  { exists []. split_and!; [done|simpl; lia|constructor|done]. }
  exists (b ++ bs). simpl. rewrite Hp. simpl. rewrite Hps. split_and!; [done| | |].
  - rewrite length_app. lia.
  - by apply Forall_app.
  - intros pre post spare Hl. rewrite <- app_assoc in *. rewrite Hread by done. simpl.
    assert (Hi : i64 (Z.of_nat (length pre) + 32 * words_of e) = Z.of_nat (length (pre ++ b))).
    { rewrite !length_app in *. rewrite i64_id by (unfold is_i64; lia). lia. }
    rewrite Hi, app_assoc. rewrite app_assoc in Hl. by rewrite Hreads.
Qed.

(** The check of an array looks at its first element only. *)
Lemma static_check e n s v : wf (ArrayOf e n s) -> static e = true -> sized (ArrayOf e n s) -> typed (TType (ArrayOf e n s)) v ->
  sliceTypeCheck (ArrayOf e n s) v = Ret tt.
Proof.
  revert n s v. induction e as [t k g size s'|e IH s'|e IH m s']; intros n s v [Hn Hwf] Hst [Hpos Hsz] Hv; [|done|];
    destruct v as [| | | | |g' l| | | | | |]; try done; destruct Hv as (-> & Hlen & Hl); cbn [sliceTypeCheck type_of or_panic mbind outcome_bind Len elemKind elements].
  all: rewrite Hlen, Z.eqb_refl; cbn [negb].
  - rewrite decide_True; [done|]. exact (wf_kind (Basic t k g size s') Hwf).
  - destruct l as [|x l]; [simpl in Hlen; lia|]. inversion Hl; subst. by apply (IH m s').
Qed.

Lemma forEachUnpack_elems (output : list Z) read start n step l :
  0 <= n -> 0 <= start -> start + 32 * n <= Z.of_nat (length output) < 2 ^ 62 ->
  unpack_elems read (Z.to_nat n) start step = Ret l -> forEachUnpack output read start n step = Ret l.
Proof.
  intros Hn Hs Hl H. unfold forEachUnpack. rewrite (proj2 (Z.ltb_ge n 0)) by lia.
  rewrite !i64_id by (unfold is_i64; rewrite ?i64_id by (unfold is_i64; lia); lia).
  by rewrite (proj2 (Z.ltb_ge _ _)) by lia.
Qed.

Lemma static_round_trip t v : wf t -> static t = true -> sized t -> fits t v -> round_trips t v.
Proof.
  revert v. induction t as [t k g size s|e IH s|e IH n s]; intros v Hwf Hst Hsz Hv; [|done|].
  - destruct (basic_round_trip t k g size s v Hwf Hst Hsz Hv) as (b & Hp & Hl & Hb & Hr).
    exists b. split_and!; [done|simpl; lia|done|done].
  - pose proof (fits_typed _ _ Hv) as Hty. pose proof Hwf as [Hn Hwfe]. pose proof Hsz as [Hpos Hsze].
    destruct v as [| | | | |g l| | | | | |]; try done. destruct Hv as (Hg & Hlen & Hl).
    destruct (elems_round_trip e l) as (b & Hp & Hlb & Hb & Hread).
    { eapply Forall_impl; [exact Hl|]. intros x Hx. by apply IH. }
    pose proof (words_of_pos _ Hsze) as Hw.
    exists b. split_and!; [| |done|].
    + cbn [pack]. rewrite (typed_indirect _ _ Hty). cbn [or_panic mbind outcome_bind]. unfold typeCheck.
      rewrite (typed_type_of _ _ Hty). cbn [or_panic mbind outcome_bind].
      rewrite static_check by done. exact Hp.
    + rewrite Hlb, Hlen. simpl. lia.
    + intros pre post spare Hlt. pose proof Hlt as Hlt'. rewrite !length_app in Hlt'.
      cbn [toGoType]. rewrite i64_id by (unfold is_i64; lia). rewrite (proj2 (Z.ltb_ge _ _)) by (rewrite !length_app; nia).
      assert (Hword : is_Some (slice (pre ++ b ++ post) (Z.of_nat (length pre)) (i64 (Z.of_nat (length pre) + 32)))).
      { unfold slice. rewrite i64_id by (unfold is_i64; lia). rewrite !length_app.
        rewrite !(proj2 (Z.leb_le _ _)) by nia. eauto. }
      destruct Hword as [w Hword]. unfold word_at. rewrite Hword. cbn [or_panic mbind outcome_bind].
      rewrite (forEachUnpack_elems _ _ _ _ _ l); [by rewrite Hg|lia|lia|rewrite !length_app; nia|].
      rewrite getFullElemSize_words by (done || nia). rewrite <- Hlen, Nat2Z.id. by apply Hread.
Qed.

(** ** What has a length *)
Lemma RightPadBytes_app bs n : exists pad, RightPadBytes bs n = bs ++ pad /\ Forall is_byte pad.
Proof.
  unfold RightPadBytes. case_match; [exists []; by rewrite app_nil_r | eexists; split; [done|apply zero_bytes]].
Qed.

Lemma BitLen_small z : 0 <= z < 2 ^ 62 -> (63 <? BitLen z) = false.
Proof. intros. apply Z.ltb_ge. apply BitLen_le; [lia|]. rewrite Z.abs_eq by lia. lia. Qed.

Lemma lengthPrefix_read pre n rest i : let output := pre ++ U256_bytes n ++ rest in
  word_at output i = Ret (U256_bytes (Z.of_nat (length pre))) -> 0 <= n <= Z.of_nat (length rest) ->
  Z.of_nat (length output) < 2 ^ 62 -> lengthPrefixPointsTo output i = Ret (Z.of_nat (length pre) + 32, n).
Proof.
  intros output Hw Hn Hl. unfold lengthPrefixPointsTo. rewrite Hw. cbn [mbind outcome_bind]. unfold SetBytes.
  pose proof Hl as Hl'. unfold output in Hl'. rewrite !length_app, U256_bytes_length in Hl'.
  rewrite U256_bytes_int, Z.mod_small by lia.
  assert (Ho : Z.of_nat (length output) = Z.of_nat (length pre) + 32 + Z.of_nat (length rest))
    by (unfold output; rewrite !length_app, U256_bytes_length; lia).
  rewrite (proj2 (Z.ltb_ge _ _)), BitLen_small by lia.
  assert (Hs : slice output (Z.of_nat (length pre) + 32 - 32) (Z.of_nat (length pre) + 32) = Some (U256_bytes n))
    by (apply slice_middle; rewrite ?U256_bytes_length; lia).
  rewrite Hs. cbn [or_panic mbind outcome_bind].
  rewrite U256_bytes_int, Z.mod_small by lia. rewrite BitLen_small, (proj2 (Z.ltb_ge _ _)) by lia. done.
Qed.

Lemma word_at_inside output i w : word_at output i = Ret w -> (Z.of_nat (length output) <? i64 (i + 32)) = false.
Proof.
  unfold word_at. intros H%or_panic_Ret. pose proof (word_length _ _ _ H) as [_ _].
  apply slice_is in H as (_ & H & _). by apply Z.ltb_ge.
Qed.

(** Packed behind the heads, and pointed to *)
Definition round_trips_behind (t : Type_) (v : gval) : Prop :=
  exists b, pack t v = Ret b /\ Forall is_byte b /\
    forall pre post spare i, Z.of_nat (length (pre ++ b ++ post)) < 2 ^ 62 ->
      word_at (pre ++ b ++ post) i = Ret (U256_bytes (Z.of_nat (length pre))) ->
      toGoType (pre ++ b ++ post) spare i t = Ret v.

Lemma bytes_round_trip t k g size s v bs : let ty := Basic t k g size s in
  wf ty -> t = StringTy \/ t = BytesTy -> typed g v ->
  v = (if bool_decide (t = StringTy) then GString bs else GSlice uint8 (map (GInt Uint8) bs)) -> Forall is_byte bs ->
  round_trips_behind ty v.
Proof.
  intros ty Hwf Ht Hv Hvb Hbs.
  destruct (RightPadBytes_app bs (Z.of_nat ((length bs + 31) / 32 * 32))) as (pad & Hpad & Hpb).
  exists (packBytesSlice bs (length bs)). unfold ty. rewrite (pack_basic _ _ _ _ _ _ Hwf Hv). split_and!.
  - rewrite Hvb. unfold packElement. destruct Ht as [-> | ->]; cbn [T]; [done|].
    rewrite bool_decide_eq_false_2 by done. by rewrite as_bytes_slice.
  - unfold packBytesSlice. rewrite Hpad. repeat (apply Forall_app; split); [apply U256_bytes_range|done..].
  - intros pre post spare i Hl Hw. cbn [toGoType]. rewrite (word_at_inside _ _ _ Hw).
    assert (Hr : requiresLengthPrefix (Basic t k g size s) = true) by (by destruct Ht as [-> | ->]). rewrite Hr.
    unfold packBytesSlice in *. rewrite Hpad, <- !app_assoc in *.
    rewrite (lengthPrefix_read _ _ _ _ Hw) by (done || rewrite !length_app; lia). cbn [mbind outcome_bind].
    rewrite (app_assoc pre). rewrite slice_middle; [|rewrite length_app, U256_bytes_length; lia|lia].
    cbn [or_panic mbind outcome_bind]. by rewrite Hvb.
Qed.

Lemma slice_round_trip e s v : basic e = true -> wf e -> static e = true -> sized e -> fits (SliceOf e s) v ->
  round_trips_behind (SliceOf e s) v.
Proof.
  intros He Hwf Hst Hsz Hv. pose proof (fits_typed _ _ Hv) as Hty.
  destruct v as [| | | |g l| | | | | | |]; try done. destruct Hv as [-> Hl].
  destruct (elems_round_trip e l) as (b & Hp & Hlb & Hb & Hread).
  { eapply Forall_impl; [exact Hl|]. intros x Hx. by apply static_round_trip. }
  destruct (RightPadBytes_app b (Z.of_nat ((length l + 31) / 32 * 32))) as (pad & Hpad & Hpb).
  assert (Hw : words_of e = 1) by by destruct e.
  exists (packBytesSlice b (length l)). split_and!.
  - cbn [pack]. rewrite (typed_indirect _ _ Hty). cbn [or_panic mbind outcome_bind]. unfold typeCheck.
    rewrite (typed_type_of _ _ Hty). cbn [or_panic mbind outcome_bind sliceTypeCheck].
    rewrite (typed_type_of _ _ Hty). cbn [or_panic mbind outcome_bind Len elemKind elements].
    destruct e as [t k g size s'| |]; [|done..]. rewrite decide_True by exact (wf_kind _ Hwf).
    cbn [mbind outcome_bind]. by rewrite Hp.
  - unfold packBytesSlice. rewrite Hpad. repeat (apply Forall_app; split); [apply U256_bytes_range|done..].
  - intros pre post spare i Hlt Hwd. cbn [toGoType]. rewrite (word_at_inside _ _ _ Hwd).
    unfold packBytesSlice in *. rewrite Hpad, <- !app_assoc in *.
    rewrite (lengthPrefix_read _ _ _ _ Hwd) by (done || rewrite !length_app; lia). cbn [mbind outcome_bind].
    pose proof Hlt as Hlt'. rewrite !length_app, U256_bytes_length in Hlt'.
    rewrite (forEachUnpack_elems _ _ _ _ _ l); [done|lia|lia|rewrite !length_app, U256_bytes_length; lia|].
    rewrite Nat2Z.id. specialize (Hread (pre ++ U256_bytes (Z.of_nat (length l))) (pad ++ post) spare).
    rewrite <- !app_assoc, Hw in Hread. specialize (Hread Hlt).
    rewrite length_app, U256_bytes_length, Nat2Z.inj_add in Hread. exact Hread.
Qed.

Lemma behind_round_trip t v : wf t -> supported t = true -> static t = false -> sized t -> fits t v ->
  round_trips_behind t v.
Proof.
  intros Hwf Hsup Hst Hsz Hv. unfold supported in Hsup. rewrite Hst in Hsup. simpl in Hsup.
  destruct t as [t k g size s|e s|]; [| |done].
  - destruct Hv as [Hv _]. cbn [static] in Hst. apply negb_false_iff in Hst.
    destruct t; try done; pose proof Hwf as [_ Hg]; rewrite Hg in Hv; destruct v as [| |bs| |g' l| | | | | | |]; try done.
    + apply (bytes_round_trip _ _ _ _ _ _ bs Hwf); [by left|by rewrite Hg|done|done].
    + destruct Hv as [-> Hl]. destruct (bytes_typed _ Hl) as (bs & -> & Hb).
      apply (bytes_round_trip _ _ _ _ _ _ bs Hwf); [by right| |done|done]. rewrite Hg. by split.
  - apply andb_prop in Hsup as [He Hse]. by apply slice_round_trip.
Qed.

(** ** Arguments *)
Definition head_words (args : Arguments_) : Z := foldr (fun a n => words_of a.(Type__) + n) 0 args.

Definition packable (a : Argument) : Prop :=
  wf a.(Type__) /\ supported a.(Type__) = true /\ sized a.(Type__) /\ a.(Indexed) = false.

Definition all_types (p : Type_ -> bool) (args : Arguments_) : bool := forallb (fun a => p a.(Type__)) args.

Lemma head_words_nonneg args : Forall packable args -> 0 <= head_words args.
Proof. induction 1 as [|a args (_ & _ & Hs & _) _ IH]; simpl; [done|]. pose proof (words_of_pos _ Hs). lia. Qed.

(** Without arrays in arrays [Pack] counts the words of the heads. *)
Lemma inputOffset_words args : Forall packable args -> all_types flat args = true -> 32 * head_words args < 2 ^ 62 ->
  inputOffset args = 32 * head_words args.
Proof.
  unfold inputOffset. intros Hp Hf Hw.
  cut (forall n, 0 <= n -> n + 32 * head_words args < 2 ^ 62 ->
    foldl (fun n a => i64 (n + match a.(Type__) with ArrayOf _ size _ => i64 (32 * size) | _ => 32 end)) n args
    = n + 32 * head_words args); [intros H; apply (H 0); lia|].
  clear Hw. induction Hp as [|a args (_ & _ & Hs & _) Hps IH]; simpl; intros n Hn Hw; [lia|].
  simpl in Hf. apply andb_prop in Hf as [Hfa Hf]. pose proof (head_words_nonneg _ Hps).
  assert (Ha : match a.(Type__) with ArrayOf _ size _ => i64 (32 * size) | _ => 32 end = 32 * words_of a.(Type__) /\ 0 < words_of a.(Type__)).
  { pose proof (words_of_pos _ Hs). split; [|done].
    destruct a.(Type__) as [| |[| |] m s]; try done. simpl in *. rewrite i64_id by (unfold is_i64; lia). lia. }
  destruct Ha as [-> Hpos]. rewrite i64_id by (unfold is_i64; lia). rewrite IH by (done || lia). lia.
Qed.

Lemma loop_round_trip args vs offset ret var : Forall packable args -> Forall2 (fun a v => fits a.(Type__) v) args vs ->
  exists heads tails, Pack_loop offset args vs ret var = Ret (ret ++ heads ++ var ++ tails) /\
    Z.of_nat (length heads) = 32 * head_words args /\ Forall is_byte heads /\ Forall is_byte tails /\
    forall index virt spare, all_types static args = true \/ offset = Z.of_nat (length (ret ++ heads)) ->
      Z.of_nat (length (ret ++ heads ++ var ++ tails)) < 2 ^ 62 ->
      0 <= index -> 0 <= virt -> (index + virt) * 32 = Z.of_nat (length ret) ->
      UnpackValues_loop (ret ++ heads ++ var ++ tails) spare args index virt = Ret vs.
Proof.
  intros Hp Hv. revert ret var Hp. induction Hv as [|a v args vs Hv Hvs IH]; intros ret var Hp.
  { exists [], []. simpl. rewrite app_nil_r. split_and!; (done || constructor). }
  inversion Hp as [|? ? (Hwf & Hsup & Hsz & _) Hps]; subst. cbn [Pack_loop head_words foldr].
  destruct (static a.(Type__)) eqn:Hst.
  - destruct (static_round_trip _ _ Hwf Hst Hsz Hv) as (b & Hb & Hlb & Hbb & Hread). rewrite Hb. cbn [mbind outcome_bind].
    assert (Hr : requiresLengthPrefix a.(Type__) = false) by (destruct a.(Type__); [by apply negb_true_iff in Hst|done..]). rewrite Hr.
    destruct (IH (ret ++ b) var Hps) as (heads & tails & Hk & Hlh & Hhb & Htb & Hun).
    exists (b ++ heads), tails. rewrite Hk, <- !app_assoc in *. split_and!; [done| |by apply Forall_app|done|].
    { rewrite length_app. unfold head_words in Hlh. lia. }
    intros index virt spare Hoff Hl Hi Hvt Hidx. cbn [UnpackValues_loop].
    pose proof (words_of_pos _ Hsz) as Hw. pose proof Hl as Hl'. rewrite !length_app in Hl'.
    rewrite i64_id by (unfold is_i64; lia). rewrite Hidx, (Hread ret) by done. cbn [mbind outcome_bind].
    rewrite (Hun (index + 1)); [done| |done|lia| |].
    + destruct Hoff as [Hoff| ->]; [left|right; by rewrite app_assoc]. simpl in Hoff. by apply andb_prop in Hoff as [_ ?].
    + destruct (a.(Type__)) as [| |e n s]; [done|done|]. destruct Hsz as [Hn Hse]. simpl in Hw, Hlb.
      rewrite getArraySize_words by (done || lia). rewrite i64_id by (unfold is_i64; lia). lia.
    + rewrite length_app. destruct (a.(Type__)) as [| |e n s]; [simpl in *; lia|done|]. destruct Hsz as [Hn Hse]. simpl in Hw, Hlb.
      rewrite getArraySize_words by (done || lia). rewrite i64_id by (unfold is_i64; lia). lia.
  - destruct (behind_round_trip _ _ Hwf Hsup Hst Hsz Hv) as (b & Hb & Hbb & Hread). rewrite Hb. cbn [mbind outcome_bind].
    assert (Hr : requiresLengthPrefix a.(Type__) = true)
      by (unfold supported in Hsup; rewrite Hst in Hsup; destruct a.(Type__); [by apply negb_false_iff in Hst|done..]). rewrite Hr.
    set (w := U256_bytes _). assert (Hw : length w = 32%nat) by apply U256_bytes_length.
    assert (Hone : words_of a.(Type__) = 1 /\ forall e n s, a.(Type__) <> ArrayOf e n s)
      by (unfold supported in Hsup; rewrite Hst in Hsup; by destruct a.(Type__)).
    destruct Hone as [Hone Hna].
    destruct (IH (ret ++ w) (var ++ b) Hps) as (heads & tails & Hk & Hlh & Hhb & Htb & Hun).
    exists (w ++ heads), (b ++ tails). rewrite Hk, <- !app_assoc in *.
    split_and!; [done| | |by apply Forall_app|].
    { rewrite length_app. unfold head_words in Hlh. lia. }
    { apply Forall_app. split; [apply U256_bytes_range|done]. }
    intros index virt spare Hoff Hl Hi Hvt Hidx. cbn [UnpackValues_loop].
    pose proof Hl as Hl'. rewrite !length_app in Hl'.
    destruct Hoff as [Hoff|Hoff]; [simpl in Hoff; by rewrite Hst in Hoff|].
    rewrite i64_id by (unfold is_i64; lia). rewrite Hidx.
    specialize (Hread (ret ++ w ++ heads ++ var) tails spare (Z.of_nat (length ret))). rewrite <- !app_assoc in Hread.
    rewrite Hread; [|done|]. 
    + cbn [mbind outcome_bind]. rewrite (Hun (index + 1)); [done|by right|done|lia| |].
      * by destruct a.(Type__).
      * rewrite length_app. destruct a.(Type__); [lia|lia|by edestruct Hna].
    + rewrite word_at_middle by done. do 2 f_equal. rewrite Hoff, !length_app in *. rewrite i64_id by (unfold is_i64; lia). lia.
Qed.

Lemma NonIndexed_packable args : Forall packable args -> NonIndexed args = args.
Proof.
  induction 1 as [|a args (_ & _ & _ & Ha) _ IH]; [done|]. unfold NonIndexed in *.
  unfold Arguments_ in *. by rewrite filter_cons_True, IH.
Qed.

Lemma pack_unpack (args : Arguments_) (vs : list gval) (Hargs : Forall packable args)
    (Hlayout : all_types flat args || all_types static args = true)
    (Hvalues : Forall2 (fun a v => fits a.(Type__) v) args vs) :
  exists data, Pack args vs = Ret data /\ Forall is_byte data /\ 32 * head_words args <= Z.of_nat (length data) /\
    (Z.of_nat (length data) < 2 ^ 62 -> forall spare, UnpackValues data spare args = Ret vs).
Proof.
  destruct (loop_round_trip args vs (inputOffset args) [] [] Hargs Hvalues) as (heads & tails & Hp & Hl & Hh & Ht & Hu).
  exists (heads ++ tails). unfold Pack. rewrite (Forall2_length _ _ _ Hvalues), Nat.eqb_refl. cbn [negb]. rewrite Hp.
  split_and!; [done|by apply Forall_app|rewrite length_app; lia|]. intros Hlen spare.
  unfold UnpackValues. rewrite NonIndexed_packable by done. simpl in Hu. apply Hu; [|done..].
  apply orb_prop in Hlayout as [Hf|Hs]; [right|by left]. rewrite length_app in Hlen.
  rewrite inputOffset_words by (done || lia). lia.
Qed.


(** A number of more than 256 bits does not fit, but it is packed, and another one is unpacked. *)
Example packing_reduces :
  let args := [ {| Name := "n"; Type__ := Basic UintTy KPtr GTBig 256 "uint256"; Indexed := false |} ] in
  (data ← Pack args [GBig (2 ^ 256 + 5)]; UnpackValues data [] args) = Ret [GBig 5].
Proof. vm_compute. reflexivity. Qed.

Definition address_ : Type_ := Basic AddressTy KArray (GTArray 20 uint8) 20 "address".
Definition uint256s : Type_ := SliceOf (Basic UintTy KPtr GTBig 256 "uint256") "uint256[]".

Definition call_arguments : Arguments_ := sample_arguments ++
  [ {| Name := "to"; Type__ := address_; Indexed := false |}; {| Name := "amounts"; Type__ := uint256s; Indexed := false |} ].
Definition call_values : list gval := sample_values ++ [byte_array (be_bytes 20 77); GSlice GTBig [GBig 5; GBig (2 ^ 255)]].

