(* ===== verification/AbiSafety.v ===== *)
(** * Unpacking stays within its input

    Whatever bytes a contract returns, [UnpackValues] ends with values or an error,
    without a panic, and does not look at the memory behind the data, for types that
    are [bounded]; types that are not make it panic, or lose what was packed. *)
From Stdlib Require Import ZArith Lia.
From S2P Require Import Prelude Word Json.
Import Big.
From S2P Require Import Abi AbiTypes AbiRoundTrip.
Open Scope Z_scope.

(** Byte arrays fit in a word, and no array is empty or larger than 2^61 bytes. *)
Fixpoint bounded (t : Type_) : Prop :=
  match t with
  | Basic t _ _ n _ => t = FixedBytesTy -> n <= 32
  | SliceOf e _ => bounded e
  | ArrayOf e n _ => 0 < n /\ words_of e * n < 2 ^ 56 /\ bounded e
  end.

Lemma bounded_sized t : bounded t -> sized t.
Proof. induction t; simpl; intuition. Qed.

Section Output.
Context (output spare : list Z) (Hbytes : Forall is_byte output) (Hlen : Z.of_nat (length output) < 2 ^ 62).

(** Two readers that do the same at an index, do not panic there, and succeed only where there is a word. *)
Definition reads_alike (r r' : Z -> outcome abi_error gval) : Prop :=
  forall i, 0 <= i < 2 ^ 63 - 32 ->
    r i = r' i /\ r i <> Panic /\ (forall v, r i = Ret v -> i + 32 <= Z.of_nat (length output)).

Lemma slice_is_Some {A} (l : list A) i j : 0 <= i <= j -> j <= Z.of_nat (length l) -> exists w, slice l i j = Some w.
Proof. intros. unfold slice. rewrite !(proj2 (Z.leb_le _ _)) by lia. eauto. Qed.

Lemma slice_bound {i j w} : slice output i j = Some w -> 0 <= be_int w < 256 ^ (j - i).
Proof.
  intros H. pose proof (slice_length _ _ _ _ H) as Hl. pose proof (be_int_bound w (slice_Forall _ _ _ _ _ Hbytes H)) as Hb.
  by rewrite Hl in Hb.
Qed.

Lemma lengthPrefix_safe i : 0 <= i -> i + 32 <= Z.of_nat (length output) ->
  (exists b n, lengthPrefixPointsTo output i = Ret (b, n) /\ 0 <= b /\ 0 <= n /\ b + n <= Z.of_nat (length output)) \/
  (exists e, lengthPrefixPointsTo output i = Err e).
Proof.
  intros Hi Hl. unfold lengthPrefixPointsTo, word_at. rewrite i64_id by (unfold is_i64; lia).
  destruct (slice_is_Some output i (i + 32)) as [w Hw]; [lia|lia|]. rewrite Hw. cbn [or_panic mbind outcome_bind].
  pose proof (slice_bound Hw) as Hb. unfold SetBytes.
  case_match eqn:E1; [right; eauto|]. apply Z.ltb_ge in E1. case_match; [right; eauto|].
  destruct (slice_is_Some output (be_int w + 32 - 32) (be_int w + 32)) as [w' Hw']; [lia|lia|]. rewrite Hw'.
  cbn [or_panic mbind outcome_bind]. pose proof (slice_bound Hw') as Hb'.
  case_match; [right; eauto|]. case_match eqn:E2; [right; eauto|]. apply Z.ltb_ge in E2.
  left. do 2 eexists. split; [done|]. lia.
Qed.

Lemma unpack_elems_alike r r' n i step : reads_alike r r' -> 0 <= i < 2 ^ 63 - 32 -> 0 <= step < 2 ^ 61 ->
  unpack_elems r n i step = unpack_elems r' n i step /\ unpack_elems r n i step <> Panic.
Proof.
  intros Hr. revert i. induction n as [|n IH]; simpl; intros i Hi Hs; [done|].
  destruct (Hr i Hi) as (<- & Hp & Hv). destruct (r i) as [v|e|] eqn:E; [|done|done]. simpl. specialize (Hv v eq_refl).
  rewrite i64_id by (unfold is_i64; lia). destruct (IH (i + step)) as [<- Hn]; [lia|lia|].
  split; [done|]. by destruct (unpack_elems r n (i + step) step).
Qed.

Lemma forEachUnpack_alike r r' start n step : reads_alike r r' -> 0 <= start < 2 ^ 63 - 32 -> 0 <= step < 2 ^ 61 ->
  forEachUnpack output r start n step = forEachUnpack output r' start n step /\ forEachUnpack output r start n step <> Panic.
Proof.
  intros. unfold forEachUnpack. case_match; [done|]. case_match; [done|]. by apply unpack_elems_alike.
Qed.

Lemma readBool_safe w : length w = 32%nat -> readBool w <> Panic.
Proof.
  intros Hw. unfold readBool. case_match; [|done]. destruct (lookup_lt_is_Some_2 w 31) as [x ->]; [lia|].
  by repeat case_match.
Qed.

Lemma readFixedBytes_alike i t : 0 <= i -> i + 32 <= Z.of_nat (length output) -> 0 <= TSize t <= 32 ->
  readFixedBytes t (drop (Z.to_nat i) (output ++ spare)) = readFixedBytes t (drop (Z.to_nat i) output) /\
  readFixedBytes t (drop (Z.to_nat i) output) <> Panic.
Proof.
  intros Hi Hl Ht. unfold readFixedBytes. case_match; [done|].
  assert (Hd : Z.of_nat (length (drop (Z.to_nat i) output)) = Z.of_nat (length output) - i) by (rewrite length_drop; lia).
  destruct (slice_is_Some (drop (Z.to_nat i) output) 0 (TSize t)) as [w Hw]; [lia|lia|].
  assert (Hs : slice (drop (Z.to_nat i) (output ++ spare)) 0 (TSize t) = Some w).
  { rewrite <- Hw, drop_app_le by lia. unfold slice. rewrite length_app.
    rewrite !(proj2 (Z.leb_le _ _)) by lia. rewrite !drop_0, take_app_le by lia. done. }
  by rewrite Hs, Hw.
Qed.

Lemma readBasic_alike i t k g n s w : wf (Basic t k g n s) -> bounded (Basic t k g n s) -> 0 <= i ->
  i + 32 <= Z.of_nat (length output) -> length w = 32%nat ->
  readBasic output spare i (Basic t k g n s) w = readBasic output [] i (Basic t k g n s) w /\
  readBasic output spare i (Basic t k g n s) w <> Panic.
Proof.
  intros Hwf Hb Hi Hl Hw. unfold readBasic. cbn [T TKind]. pose proof (readBool_safe w Hw).
  destruct t; try done.
  - split; [done|]. by destruct (readBool w).
  - destruct Hwf as (_ & _ & Hn). specialize (Hb eq_refl). rewrite app_nil_r.
    destruct (readFixedBytes_alike i (Basic FixedBytesTy k g n s)) as [-> ?]; [done|done|simpl; lia|done].
  - split; [done|]. unfold readFunctionType. by repeat case_match.
Qed.

Lemma toGoType_alike t : wf t -> bounded t ->
  reads_alike (fun i => toGoType output spare i t) (fun i => toGoType output [] i t).
Proof.
  induction t as [t k g n s|e IH s|e IH n s]; intros Hwf Hb i Hi; cbn [toGoType];
    rewrite i64_id by (unfold is_i64; lia); (case_match eqn:E; [done|]); apply Z.ltb_ge in E;
    (destruct (slice_is_Some output i (i + 32)) as [w Hw]; [lia|lia|]);
    assert (Hwd : word_at output i = Ret w) by (unfold word_at; rewrite i64_id by (unfold is_i64; lia); by rewrite Hw).
  - destruct (requiresLengthPrefix _).
    + destruct (lengthPrefix_safe i) as [(b & m & -> & ? & ? & ?)|[err ->]]; [lia|lia| |done]. cbn [mbind outcome_bind].
      destruct (slice_is_Some output b (b + m)) as [x ->]; [lia|lia|done].
    + rewrite Hwd. cbn [mbind outcome_bind]. pose proof (slice_length _ _ _ _ Hw).
      destruct (readBasic_alike i t k g n s w) as [<- ?]; try done; lia.
  - destruct (lengthPrefix_safe i) as [(b & m & -> & ? & ? & ?)|[err ->]]; [lia|lia| |done]. cbn [mbind outcome_bind].
    destruct (forEachUnpack_alike _ _ b m 32 (IH Hwf Hb)) as [<- Hn]; [lia|lia|].
    by destruct (forEachUnpack _ _ _ _ _).
  - rewrite Hwd. cbn [mbind outcome_bind]. destruct Hwf as [_ Hwf], Hb as (Hn0 & Hnw & Hb).
    pose proof (words_of_pos _ (bounded_sized _ Hb)).
    destruct (forEachUnpack_alike _ _ i n (getFullElemSize e) (IH Hwf Hb)) as [<- Hn]; [lia| |by destruct (forEachUnpack _ _ _ _ _)].
    rewrite getFullElemSize_words by (first [by apply bounded_sized | nia]). nia.
Qed.

Lemma UnpackValues_loop_alike args index virt : Forall (fun a => wf a.(Type__) /\ bounded a.(Type__)) args ->
  0 <= index -> 0 <= virt -> (index + virt) * 32 < 2 ^ 63 - 32 ->
  UnpackValues_loop output spare args index virt = UnpackValues_loop output [] args index virt /\
  UnpackValues_loop output spare args index virt <> Panic.
Proof.
  intros Hargs. revert index virt. induction Hargs as [|a args [Hwf Hb] _ IH]; intros index virt Hi Hv Hl; [done|].
  cbn [UnpackValues_loop]. rewrite i64_id by (unfold is_i64; lia).
  destruct (toGoType_alike _ Hwf Hb ((index + virt) * 32)) as (<- & Hp & Hr); [lia|].
  destruct (toGoType output spare _ _) as [v|e|]; [|done|done]. specialize (Hr v eq_refl). cbn [mbind outcome_bind].
  match goal with |- context [UnpackValues_loop _ _ _ _ ?x] => destruct (IH (index + 1) x) as [<- Hn] end;
    [lia| | |by destruct (UnpackValues_loop _ _ _ _ _)].
  all: destruct a.(Type__) as [| |e n s]; [lia|lia|]; destruct Hb as (Hn & Hw & Hb);
    pose proof (words_of_pos _ (bounded_sized _ Hb));
    rewrite getArraySize_words by (first [by apply bounded_sized | lia]); rewrite i64_id by (unfold is_i64; nia); nia.
Qed.
End Output.

(** C24: data returned by contracts: for arguments of parsed types that are [bounded] and data shorter than 2^62
    bytes, [UnpackValues] returns values or an error and never panics, whatever the data, and what it returns
    does not depend on the memory behind the data. *)
Theorem unpacking_stays_in_bounds (args : Arguments_) (output spare : list Z)
    (Htypes : Forall (fun a => exists s, NewType s = Ret a.(Type__)) args)
    (Hbounded : Forall (fun a => bounded a.(Type__)) args)
    (Hbytes : Forall is_byte output) (Hlen : Z.of_nat (length output) < 2 ^ 62) :
  UnpackValues output spare args <> Panic /\ UnpackValues output spare args = UnpackValues output [] args.
Proof.
  destruct (UnpackValues_loop_alike output spare Hbytes Hlen (NonIndexed args) 0 0) as [H1 H2]; [|lia..|by split].
  apply Forall_forall. intros a [_ Ha]%list_elem_of_filter.
  destruct (proj1 (Forall_forall _ _) Htypes a Ha) as [s Hs]. split; [by eapply NewType_wf|].
  exact (proj1 (Forall_forall _ _) Hbounded a Ha).
Qed.

Lemma unpacking_stays_in_bounds_witness :
  let output := be_bytes 32 (2 ^ 255) ++ be_bytes 32 7 in
  UnpackValues output [1; 2; 3] call_arguments <> Panic /\
  UnpackValues output [1; 2; 3] call_arguments = UnpackValues output [] call_arguments.
Proof.
  intros output. apply (unpacking_stays_in_bounds call_arguments output [1; 2; 3]).
  - repeat constructor; [exists "int16[2]"%string | exists "bytes"%string | exists "address"%string | exists "uint256[]"%string];
      vm_compute; reflexivity.
  - repeat constructor; simpl; try lia; done.
  - apply check_bytes. vm_compute. reflexivity.
  - vm_compute. reflexivity.
Defined.

(** ** Where packing and unpacking do not fit together *)
Definition uint8_ : Type_ := Basic UintTy (KInt Uint8) uint8 8 "uint8".
Definition matrix : Type_ := ArrayOf (ArrayOf uint8_ 2 "uint8[2]") 2 "uint8[2][2]".
Definition named (n : string) (t : Type_) : Argument := {| Name := n; Type__ := t; Indexed := false |}.
Definition pair_ (a b : Z) : gval := GArray uint8 [GInt Uint8 a; GInt Uint8 b].

(** An array of arrays counts for its outer size only, so the bytes behind it are pointed to two words early. *)
Example nested_arrays_displace :
  (data ← Pack [named "m" matrix; named "b" bytes_] [GArray (GTArray 2 uint8) [pair_ 1 2; pair_ 3 4]; GSlice uint8 [GInt Uint8 9]];
   UnpackValues data [] [named "m" matrix; named "b" bytes_]) =
  Ret [GArray (GTArray 2 uint8) [pair_ 1 2; pair_ 3 4]; GSlice uint8 (replicate 4 (GInt Uint8 0))].
Proof. vm_compute. reflexivity. Qed.

(** The arrays of a slice are packed one after the other, and read a word apart. *)
Definition pairs : Type_ := SliceOf (ArrayOf uint8_ 2 "uint8[2]") "uint8[2][]".
Example slices_of_arrays_overlap :
  (data ← Pack [named "p" pairs] [GSlice (GTArray 2 uint8) [pair_ 1 2; pair_ 3 4]]; UnpackValues data [] [named "p" pairs]) =
  Ret [GSlice (GTArray 2 uint8) [pair_ 1 2; pair_ 2 3]].
Proof. vm_compute. reflexivity. Qed.

(** An empty slice of arrays, and no value at all, panic. *)
Example empty_slice_of_arrays : pack pairs (GSlice (GTArray 2 uint8) []) = Panic.
Proof. reflexivity. Qed.
Example no_value : pack bytes_ GNil = Panic.
Proof. reflexivity. Qed.

(** Byte arrays longer than a word are packed whole, and read from whatever follows. *)
Example long_byte_arrays :
  NewType "bytes33" = Ret (Basic FixedBytesTy KArray (GTArray 33 uint8) 33 "bytes33") /\
  UnpackValues (be_bytes 32 1) [7] [named "x" (Basic FixedBytesTy KArray (GTArray 33 uint8) 33 "bytes33")] =
    Ret [byte_array (be_bytes 32 1 ++ [7])].
Proof. split; vm_compute; reflexivity. Qed.
