(* ===== verification/AbiMethods.v ===== *)
(** * Contract interfaces

    dvm/ethereum/abi: method.go, event.go and abi.go.  The text of an interface is the
    JSON document it denotes; field names are compared without case, in ASCII, and no
    string of an interface is a date.  The maps are unordered: the function that looks
    for an identifier takes the order Go happens to range in. *)
From Stdlib Require Import ZArith Lia.
From S2P Require Import Prelude Keccak.
Close Scope lanes_scope.
From S2P Require Import Word Json.
Import Big.
From S2P Require Import Abi.
Open Scope Z_scope.

(** ** method.go and event.go *)
Record Method := { Method_Name : string; Const : bool; Inputs : Arguments_; Outputs : Arguments_ }.

Definition join (sep : string) (l : list string) : string := String.concat sep l.

Definition Sig (m : Method) : string :=
  (m.(Method_Name) ++ "(" ++ join "," (map (fun a => TString a.(Type__)) m.(Inputs)) ++ ")")%string.

Definition Method_String (m : Method) : string :=
  let inputs := map (fun a => a.(Name) ++ " " ++ TString a.(Type__))%string m.(Inputs) in
  let outputs := map (fun a => (if (0 <? String.length a.(Name))%nat then a.(Name) ++ " " else "") ++ TString a.(Type__))%string m.(Outputs) in
  ("function " ++ m.(Method_Name) ++ "(" ++ join ", " inputs ++ ") " ++ (if m.(Const) then "constant " else "") ++
   "returns(" ++ join ", " outputs ++ ")")%string.

(** The first four bytes of the hash of the signature *)
Definition Id (m : Method) : option (list Z) := h ← Keccak256 [bytes_of (Sig m)]; slice h 0 4.

Record Event := { Event_Name : string; Anonymous : bool; Event_Inputs : Arguments_ }.

Definition Event_String (e : Event) : string :=
  let inputs := map (fun a => if a.(Indexed) then a.(Name) ++ " indexed " ++ TString a.(Type__) else a.(Name) ++ " " ++ TString a.(Type__))%string
                    e.(Event_Inputs) in
  ("e " ++ e.(Event_Name) ++ "(" ++ join ", " inputs ++ ")")%string.

(** ** abi.go *)
Record ABI := { Constructor_ : Method; Methods : gmap string Method; Events : gmap string Event }.

Definition no_method : Method := {| Method_Name := ""; Const := false; Inputs := []; Outputs := [] |}.
Definition empty_ABI : ABI := {| Constructor_ := no_method; Methods := ∅; Events := ∅ |}.

(** [Pack] of [ABI]: the constructor has the empty name and no identifier. *)
Definition ABI_Pack (abi : ABI) (name : string) (args : list gval) : outcome abi_error (list Z) :=
  if bool_decide (name = ""%string) then Pack abi.(Constructor_).(Inputs) args
  else match abi.(Methods) !! name with
       | None => Err (errMethod name)
       | Some method =>
           arguments ← Pack method.(Inputs) args;
           id ← or_panic (Id method); Ret (id ++ arguments)
       end.

(** What [Unpack] of [ABI] unpacks, and with which arguments *)
Definition ABI_Unpack_values (abi : ABI) (name : string) (output spare : list Z) : outcome abi_error (list gval) :=
  if (length output =? 0)%nat then Err errEmpty
  else match abi.(Methods) !! name with
       | Some method =>
           if negb (length output mod 32 =? 0)%nat then Err errFormat else UnpackValues output spare method.(Outputs)
       | None => match abi.(Events) !! name with
                 | Some event => UnpackValues output spare event.(Event_Inputs)
                 | None => Err errNoName
                 end
       end.

(** The methods in the order they are ranged over *)
Fixpoint MethodById_loop (methods : list Method) (sigdata : list Z) : outcome abi_error Method :=
  match methods with
  | [] => sig ← or_panic (slice sigdata 0 4); Err (errNoId sig)
  | method :: methods =>
      id ← or_panic (Id method);
      sig ← or_panic (slice sigdata 0 4);
      if bool_decide (id = sig) then Ret method else MethodById_loop methods sigdata
  end.

(** ** From JSON *)

(** Go matches the name of a field to the letters, or else without case. *)
Definition lower_char (c : Ascii.ascii) : Ascii.ascii :=
  if (65 <=? code c) && (code c <=? 90) then Ascii.ascii_of_N (Z.to_N (code c + 32)) else c.
Definition is_field (name key : string) : bool :=
  bool_decide (text (map lower_char (String.list_ascii_of_string key)) = name).

(** Decoding a struct goes on after a value of the wrong type: it leaves the field and is reported in the end. *)
Definition str_field (old : string) (j : json) : string * bool :=
  match j with JStr s => (s, true) | JNull => (old, true) | _ => (old, false) end.
Definition bool_field (old : bool) (j : json) : bool * bool :=
  match j with JBool b => (b, true) | JNull => (old, true) | _ => (old, false) end.

Definition extarg_field (acc : string * string * bool * bool) (kv : string * json) : string * string * bool * bool :=
  let '(name, type, indexed, ok) := acc in
  if is_field "name" kv.1 then let '(name, k) := str_field name kv.2 in (name, type, indexed, ok && k)
  else if is_field "type" kv.1 then let '(type, k) := str_field type kv.2 in (name, type, indexed, ok && k)
  else if is_field "indexed" kv.1 then let '(indexed, k) := bool_field indexed kv.2 in (name, type, indexed, ok && k)
  else acc.

(** [UnmarshalJSON] of an argument; [null] leaves the fields empty. *)
Definition Argument_UnmarshalJSON (j : json) : outcome abi_error Argument :=
  match j with
  | JObj _ | JNull =>
      let '(name, type, indexed, ok) := foldl extarg_field (""%string, ""%string, false, true) (match j with JObj l => l | _ => [] end) in
      if ok then t ← NewType type; Ret {| Name := name; Type__ := t; Indexed := indexed |} else Err errJSON
  | _ => Err errJSON
  end.

Fixpoint decode_arguments (l : list json) : outcome abi_error Arguments_ :=
  match l with
  | [] => Ret []
  | j :: l => a ← Argument_UnmarshalJSON j; r ← decode_arguments l; Ret (a :: r)
  end.

(** One entry of an interface *)
Record field := {
  f_Type : string; f_Name : string; f_Constant : bool; f_Anonymous : bool; f_Inputs : Arguments_; f_Outputs : Arguments_
}.
Definition no_field : field :=
  {| f_Type := ""; f_Name := ""; f_Constant := false; f_Anonymous := false; f_Inputs := []; f_Outputs := [] |}.

(** An argument that is refused ends the decoding at once. *)
Definition arguments_field (old : Arguments_) (j : json) : outcome abi_error (Arguments_ * bool) :=
  match j with
  | JArr l => args ← decode_arguments l; Ret (args, true)
  | JNull => Ret ([], true)
  | _ => Ret (old, false)
  end.

Definition decode_key (f : field) (k : string) (j : json) : outcome abi_error (field * bool) :=
  let mk ty nm c a i o := {| f_Type := ty; f_Name := nm; f_Constant := c; f_Anonymous := a; f_Inputs := i; f_Outputs := o |} in
  if is_field "type" k then
    let '(v, ok) := str_field f.(f_Type) j in Ret (mk v f.(f_Name) f.(f_Constant) f.(f_Anonymous) f.(f_Inputs) f.(f_Outputs), ok)
  else if is_field "name" k then
    let '(v, ok) := str_field f.(f_Name) j in Ret (mk f.(f_Type) v f.(f_Constant) f.(f_Anonymous) f.(f_Inputs) f.(f_Outputs), ok)
  else if is_field "constant" k then
    let '(v, ok) := bool_field f.(f_Constant) j in Ret (mk f.(f_Type) f.(f_Name) v f.(f_Anonymous) f.(f_Inputs) f.(f_Outputs), ok)
  else if is_field "anonymous" k then
    let '(v, ok) := bool_field f.(f_Anonymous) j in Ret (mk f.(f_Type) f.(f_Name) f.(f_Constant) v f.(f_Inputs) f.(f_Outputs), ok)
  else if is_field "inputs" k then
    '(v, ok) ← arguments_field f.(f_Inputs) j; Ret (mk f.(f_Type) f.(f_Name) f.(f_Constant) f.(f_Anonymous) v f.(f_Outputs), ok)
  else if is_field "outputs" k then
    '(v, ok) ← arguments_field f.(f_Outputs) j; Ret (mk f.(f_Type) f.(f_Name) f.(f_Constant) f.(f_Anonymous) f.(f_Inputs) v, ok)
  else Ret (f, true).

Fixpoint decode_field (f : field) (ok : bool) (kvs : list (string * json)) : outcome abi_error (field * bool) :=
  match kvs with
  | [] => Ret (f, ok)
  | (k, j) :: kvs => '(f, ok') ← decode_key f k j; decode_field f (ok && ok') kvs
  end.

Fixpoint decode_fields (l : list json) : outcome abi_error (list field * bool) :=
  match l with
  | [] => Ret ([], true)
  | j :: l =>
      '(f, ok) ← match j with
                 | JObj kvs => decode_field no_field true kvs
                 | JNull => Ret (no_field, true)
                 | _ => Ret (no_field, false)
                 end;
      '(r, ok') ← decode_fields l; Ret (f :: r, ok && ok')
  end.

Definition add_field (abi : ABI) (f : field) : ABI :=
  if bool_decide (f.(f_Type) = "constructor"%string) then
    {| Constructor_ := {| Method_Name := ""; Const := false; Inputs := f.(f_Inputs); Outputs := [] |};
       Methods := abi.(Methods); Events := abi.(Events) |}
  else if bool_decide (f.(f_Type) = "function"%string) || bool_decide (f.(f_Type) = ""%string) then
    {| Constructor_ := abi.(Constructor_);
       Methods := <[f.(f_Name) := {| Method_Name := f.(f_Name); Const := f.(f_Constant); Inputs := f.(f_Inputs); Outputs := f.(f_Outputs) |}]> abi.(Methods);
       Events := abi.(Events) |}
  else if bool_decide (f.(f_Type) = "event"%string) then
    {| Constructor_ := abi.(Constructor_); Methods := abi.(Methods);
       Events := <[f.(f_Name) := {| Event_Name := f.(f_Name); Anonymous := f.(f_Anonymous); Event_Inputs := f.(f_Inputs) |}]> abi.(Events) |}
  else abi.

(** [None]: what was given is no JSON. *)
Definition UnmarshalJSON (doc : option json) : outcome abi_error ABI :=
  match doc with
  | Some (JArr l) =>
      '(fields, ok) ← decode_fields l;
      if (ok : bool) then Ret (foldl add_field empty_ABI fields) else Err errJSON
  | Some JNull => Ret empty_ABI
  | _ => Err errJSON
  end.

Example transfer_id :
  Id {| Method_Name := "transfer"; Const := false; Outputs := [];
        Inputs := [ {| Name := "to"; Type__ := Basic AddressTy KArray (GTArray 20 (GTInt Uint8)) 20 "address"; Indexed := false |};
                    {| Name := "n"; Type__ := Basic UintTy KPtr GTBig 256 "uint256"; Indexed := false |} ] |}
  = Some [0xa9; 0x05; 0x9c; 0xbb].
Proof. vm_compute. reflexivity. Qed.
