(* ===== verification/Ledger.v ===== *)
(** * The ledger's records

    commons/types: transaction.go, rumor.go, receipt.go, account.go, gossip.go and
    authentication.go without their storage, with commons/crypto/crypto.go.  Each
    Go type is a Module.  Go strings are strings, instants are nanoseconds. *)
From Stdlib Require Import ZArith Lia.
From stdpp Require Import pretty.
From S2P Require Import Prelude Word Hex Json.
Import Big.
Open Scope Z_scope.

(** ** Errors and constants (constants.go) *)
Inductive ledger_error :=
  | Msg (s : string)
  | ErrNotFound | ErrInvalidRequest | ErrInvalidRequestPage | ErrInvalidRequestPageSize
  | ErrInvalidRequestStartingHash | ErrInvalidRequestHash
  | ErrKeyNotFound | ErrConflict
  | errDb (n : nat) | errJson | errHex | errCrypto | errDvm (n : nat).

#[export] Instance ledger_error_eq_dec : EqDecision ledger_error.
Proof. solve_decision. Defined.

Abbreviation result := (outcome ledger_error).

Definition TxReceiveTimeout : Z := 3000.
Definition GossipTimeout : Z := 1000.
Definition TxFutureLimit : Z := 3 * 60 * 1000000000.
Definition TypeTransferTokens : Z := 0.
Definition TypeDeploySmartContract : Z := 1.
Definition TypeExecuteSmartContract : Z := 2.

Definition StatusPending : string := "Pending".
Definition StatusOk : string := "Ok".
Definition StatusReceiptNotFound : string := "StatusReceiptNotFound".
Definition StatusTransactionTimeOut : string := "StatusTransactionTimeOut".
Definition StatusInvalidTransaction : string := "InvalidTransaction".
Definition StatusInsufficientTokens : string := "InsufficientTokens".
Definition StatusDuplicateTransaction : string := "DuplicateTransaction".
Definition StatusAlreadyProcessingTransaction : string := "StatusAlreadyProcessingTransaction".
Definition StatusGossipingTimedOut : string := "StatusGossipingTimedOut".
Definition StatusInternalError : string := "InternalError".
Definition StatusCouldNotReachConsensus : string := "CouldNotReachConsensus".
Definition StatusNodeUnavailable : string := "NodeUnavailable".
Definition StatusNotFound : string := "NotFound".
Definition StatusNotDelegate : string := "StatusNotDelegate".

(** [utils.ToMilliSeconds]; Go's division rounds to zero. *)
Definition ToMilliSeconds (t : Z) : Z := Z.quot (i64 t) 1000000.

(** The zero [time.Time], in nanoseconds of the Unix epoch. *)
Definition zero_time : Z := -62135596800 * 1000000000.

(** ** crypto.go

    The hash and the curve are libraries; what Go checks before it calls them is
    part of the program. *)
Class Signatures := {
  Keccak256_sum : list Z -> list Z;
  secp256k1_recover : list Z -> list Z -> option (list Z);
  secp256k1_verify : list Z -> list Z -> list Z -> bool;
  secp256k1_sign : list Z -> list Z -> option (list Z)
}.

Definition AddressLen : nat := 20.
Definition HashLen : nat := 32.
Definition SignatureLen : nat := 65.

Section Crypto.
Context {CR : Signatures}.

Definition NewHash (bytes : list Z) : list Z := Keccak256_sum bytes.

Definition checkSignature (sig : list Z) : bool :=
  (length sig =? 65)%nat && match sig !! 64%nat with Some v => v <? 4 | None => false end.

Definition ToPublicKey (hash signature : list Z) : option (list Z) :=
  if negb (length hash =? 32)%nat then None
  else if negb (checkSignature signature) then None
  else secp256k1_recover hash signature.

(** A key without a byte makes the slice expression panic. *)
Definition ToAddress (publicKey : list Z) : option (list Z) :=
  match publicKey with [] => None | _ :: key => Some (drop 12 (NewHash key)) end.

Definition secp_VerifySignature (pubkey msg signature : list Z) : bool :=
  if negb (length msg =? 32)%nat || negb (length signature =? 64)%nat || (length pubkey =? 0)%nat then false
  else secp256k1_verify pubkey msg signature.

(** [signature[:len(signature)-1]] *)
Definition VerifySignature (publicKey hash signature : list Z) : option bool :=
  match signature with
  | [] => None
  | _ => Some (secp_VerifySignature publicKey hash (take (length signature - 1) signature))
  end.

Definition Sign (msg seckey : list Z) : option (list Z) :=
  if negb (length msg =? 32)%nat || negb (length seckey =? 32)%nat then None else secp256k1_sign msg seckey.

Definition hex_or_err (s : string) (e : ledger_error) : result (list Z) :=
  match hex_Decode s with Some b => Ret b | None => Err e end.

(** The hash and the signature of a record, checked against an address: the steps
    [Transaction.Verify] and [Rumor.Verify] share. *)
Definition signed_by (address hash signature : string) : result unit :=
  hashBytes ← hex_or_err hash (Msg "unable to decode hash");
  signatureBytes ← hex_or_err signature (Msg "unable to decode signature");
  match ToPublicKey hashBytes signatureBytes with
  | None => Err (Msg "unable to generate public key from hash and signature")
  | Some publicKeyBytes =>
      a ← or_panic (ToAddress publicKeyBytes);
      if negb (String.eqb (hex_EncodeToString a) address)
      then Err (Msg "from address does not match the computed address from hash and signature")
      else
        ok ← or_panic (VerifySignature publicKeyBytes hashBytes signatureBytes);
        if negb ok then Err (Msg "invalid signature") else Ret tt
  end.

(** [NewSignature] of a record's hash. *)
Definition NewSignature (hash privateKey : string) : result string :=
  hashBytes ← hex_or_err hash errHex;
  privateKeyBytes ← hex_or_err privateKey errHex;
  match Sign hashBytes privateKeyBytes with
  | None => Err errCrypto
  | Some sig => Ret (hex_EncodeToString sig)
  end.

End Crypto.

(** A string field, or the error the type assertion gives. *)
Definition string_field {E} (m : list (string * json)) (k : string) (old : string)
    (bad : outcome E string) : outcome E string :=
  match at_key m k with
  | JNull => Ret old
  | JStr s => Ret s
  | _ => bad
  end.

(** A number field. *)
Definition number_field {E} (m : list (string * json)) (k : string) (old : Z) (conv : Z -> Z)
    (bad : outcome E Z) : outcome E Z :=
  match at_key m k with
  | JNull => Ret old
  | JNum z => Ret (conv z)
  | _ => bad
  end.

(** A date: a string that is none is an error, anything else a panic. *)
Definition time_field (m : list (string * json)) (k : string) (old : Z) : result Z :=
  match at_key m k with
  | JNull => Ret old
  | JTime t => Ret t
  | JStr _ => Err errJson
  | _ => Panic
  end.

(** ** rumor.go *)
Module Rumor.
Record t := { Hash : string; Address : string; TransactionHash : string; Time : Z; Signature : string }.

Definition empty : t := {| Hash := ""; Address := ""; TransactionHash := ""; Time := 0; Signature := "" |}.

(** The type assertions of the code panic. *)
Definition UnmarshalJSON (this : t) (j : json) : result t :=
  match jsonMap j with
  | None => Err errJson
  | Some m =>
      hash ← string_field m "hash" this.(Hash) Panic;
      address ← string_field m "address" this.(Address) Panic;
      transactionHash ← string_field m "transactionHash" this.(TransactionHash) Panic;
      time ← number_field m "time" this.(Time) int64_of_float Panic;
      signature ← string_field m "signature" this.(Signature) Panic;
      Ret {| Hash := hash; Address := address; TransactionHash := transactionHash;
             Time := time; Signature := signature |}
  end.

Definition MarshalJSON (this : t) : json :=
  JObj [("hash", JStr this.(Hash)); ("address", JStr this.(Address));
        ("transactionHash", JStr this.(TransactionHash)); ("time", JNum this.(Time));
        ("signature", JStr this.(Signature))].

Section Ops.
Context {CR : Signatures}.

Definition NewHash (this : t) : string :=
  match hex_Decode this.(Address), hex_Decode this.(TransactionHash) with
  | Some a, Some h => hex_EncodeToString (Ledger.NewHash (a ++ h ++ le_int64 this.(Time)))
  | _, _ => ""
  end.

Definition Verify (this : t) : option bool :=
  if negb (String.length this.(Hash) =? HashLen * 2)%nat then Some false
  else if negb (String.length this.(Address) =? AddressLen * 2)%nat then Some false
  else if negb (String.length this.(TransactionHash) =? HashLen * 2)%nat then Some false
  else if negb (String.length this.(Signature) =? SignatureLen * 2)%nat then Some false
  else if negb (String.eqb this.(Hash) (NewHash this)) then Some false
  else match signed_by this.(Address) this.(Hash) this.(Signature) with
       | Ret _ => Some true
       | Err _ => Some false
       | Panic => None
       end.

(** A key that cannot sign gives a nil rumor. *)
Definition NewRumor (now : Z) (privateKey address transactionHash : string) : option t :=
  let rumor := {| Hash := ""; Address := address; TransactionHash := transactionHash;
                  Time := ToMilliSeconds now; Signature := "" |} in
  let hash := NewHash rumor in
  match NewSignature hash privateKey with
  | Ret s => Some {| Hash := hash; Address := address; TransactionHash := transactionHash;
                     Time := ToMilliSeconds now; Signature := s |}
  | _ => None
  end.
End Ops.

Section Delta.
Context {GS : GoSort}.

(** [sort.Sort] by time.  It sorts in place, so the rumors stay sorted. *)
Definition sort (rumors : list t) : list t := sort_by (fun a b => Z.ltb a.(Time) b.(Time)) rumors.

(** The gaps between neighbours. *)
Fixpoint gaps_ok (rumors : list t) : bool :=
  match rumors with
  | a :: (b :: _) as l => negb (GossipTimeout <? i64 (b.(Time) - a.(Time))) && gaps_ok l
  | _ => true
  end.

(** The rumors sorted, and the answer; no rumor at all is an index out of range. *)
Definition ValidateTimeDelta (now : Z) (rumors : list t) : option (list t * bool) :=
  let sorted := sort rumors in
  newest ← last sorted;
  Some (sorted, negb (GossipTimeout <? i64 (ToMilliSeconds now - newest.(Time))) && gaps_ok sorted).
End Delta.
End Rumor.

(** ** receipt.go *)
Module Receipt.
Record t := { TransactionHash : string; Status : string; HumanReadableStatus : string;
              ContractAddress : string; ContractResult : list json; Created : Z }.

Definition empty : t := {| TransactionHash := ""; Status := ""; HumanReadableStatus := "";
  ContractAddress := ""; ContractResult := []; Created := zero_time |}.

Definition Key_of (hash : string) : string := "table-receipt-" +:+ hash.
Definition Key (this : t) : string := Key_of this.(TransactionHash).

(** The receipt as far as it was read, and an error if the date is none. *)
Definition UnmarshalJSON (this : t) (j : json) : result (t * option ledger_error) :=
  match jsonMap j with
  | None => Ret (this, Some errJson)
  | Some m =>
      transactionHash ← string_field m "transactionHash" this.(TransactionHash) Panic;
      status ← string_field m "status" this.(Status) Panic;
      humanReadableStatus ← string_field m "humanReadableStatus" this.(HumanReadableStatus) Panic;
      contractAddress ← match at_key m "contractAddress" with
                        | JStr "" => Ret this.(ContractAddress)
                        | _ => string_field m "contractAddress" this.(ContractAddress) Panic
                        end;
      contractResult ← match at_key m "contractResult" with
                       | JNull => Ret this.(ContractResult)
                       | JArr l => Ret l
                       | _ => Panic
                       end;
      let read created := {| TransactionHash := transactionHash; Status := status;
        HumanReadableStatus := humanReadableStatus; ContractAddress := contractAddress;
        ContractResult := contractResult; Created := created |} in
      match time_field m "created" this.(Created) with
      | Ret created => Ret (read created, None)
      | Err e => Ret (read this.(Created), Some e)
      | Panic => Panic
      end
  end.

Definition MarshalJSON (this : t) : json :=
  JObj ([("transactionHash", JStr this.(TransactionHash)); ("status", JStr this.(Status))] ++
        omitempty "humanReadableStatus" (String.eqb this.(HumanReadableStatus) "") (JStr this.(HumanReadableStatus)) ++
        omitempty "contractAddress" (String.eqb this.(ContractAddress) "") (JStr this.(ContractAddress)) ++
        omitempty "contractResult" (length this.(ContractResult) =? 0)%nat (JArr this.(ContractResult)) ++
        [("created", JTime this.(Created))]).

Definition ToReceiptFromJson (j : json) : result t :=
  '(receipt, err) ← UnmarshalJSON empty j;
  match err with Some e => Err e | None => Ret receipt end.

Definition NewReceipt (now : Z) (transactionHash : string) : t :=
  {| TransactionHash := transactionHash; Status := StatusPending; HumanReadableStatus := "";
     ContractAddress := ""; ContractResult := []; Created := now |}.

Definition set_Status (this : t) (s : string) : t :=
  {| TransactionHash := this.(TransactionHash); Status := s; HumanReadableStatus := this.(HumanReadableStatus);
     ContractAddress := this.(ContractAddress); ContractResult := this.(ContractResult); Created := this.(Created) |}.

Definition set_HumanReadableStatus (this : t) (s : string) : t :=
  {| TransactionHash := this.(TransactionHash); Status := this.(Status); HumanReadableStatus := s;
     ContractAddress := this.(ContractAddress); ContractResult := this.(ContractResult); Created := this.(Created) |}.

Definition set_Contract (this : t) (address : string) (res : list json) : t :=
  {| TransactionHash := this.(TransactionHash); Status := this.(Status);
     HumanReadableStatus := this.(HumanReadableStatus); ContractAddress := address;
     ContractResult := res; Created := this.(Created) |}.

Definition set_Created (this : t) (now : Z) : t :=
  {| TransactionHash := this.(TransactionHash); Status := this.(Status);
     HumanReadableStatus := this.(HumanReadableStatus); ContractAddress := this.(ContractAddress);
     ContractResult := this.(ContractResult); Created := now |}.
End Receipt.

(** ** transaction.go *)
Module Transaction.
Record t := {
  Hash : string; Type_ : Z; From : string; To : string; Value : Z; Code : string; Abi : string;
  Method : string; Params : list json; Time : Z; Signature : string; Hertz : Z;
  Receipt_ : Receipt.t; Gossip : list Rumor.t; FromName : string; ToName : string
}.

Definition empty : t := {| Hash := ""; Type_ := 0; From := ""; To := ""; Value := 0; Code := ""; Abi := "";
  Method := ""; Params := []; Time := 0; Signature := ""; Hertz := 0; Receipt_ := Receipt.empty;
  Gossip := []; FromName := ""; ToName := "" |}.

Definition Key_of (hash : string) : string := "table-transaction-" +:+ hash.
Definition Key (this : t) : string := Key_of this.(Hash).
Definition TypeKey (this : t) : string :=
  "key-transaction-type-" +:+ pretty this.(Type_) +:+ "-" +:+ pretty this.(Time) +:+ "-" +:+ this.(Hash).
Definition TimeKey (this : t) : string :=
  "key-transaction-time-" +:+ pretty this.(Time) +:+ "-" +:+ this.(Hash).
Definition FromKey (this : t) : string :=
  "key-transaction-from-" +:+ this.(From) +:+ "-" +:+ pretty this.(Time).
Definition ToKey (this : t) : string :=
  "key-transaction-to-" +:+ this.(To) +:+ "-" +:+ pretty this.(Time).

Definition checkTime (now txTime : Z) : result Z :=
  if ToMilliSeconds (now + TxFutureLimit) <? txTime
  then Err (Msg "transaction time cannot be this far in the future")
  else if txTime <? 0 then Err (Msg "transaction time cannot be negative")
  else Ret txTime.

(** The hertz are read from the type once there are any. *)
Definition UnmarshalJSON (now : Z) (this : t) (j : json) : result t :=
  match jsonMap j with
  | None => Err errJson
  | Some m =>
      let str k old := string_field m k old (Err (Msg ("value for field '" +:+ k +:+ "' must be a string"))) in
      let must k := Err (Msg ("value for field '" +:+ k +:+ "' must be a number")) in
      hash ← str "hash" this.(Hash);
      tipe ← number_field m "type" this.(Type_) byte_of_float (must "type");
      from ← str "from" this.(From);
      to ← str "to" this.(To);
      value ← number_field m "value" this.(Value) int64_of_float (must "value");
      code ← str "code" this.(Code);
      abi ← str "abi" this.(Abi);
      let text k := match at_key m k with JStr s => s | _ => "" end in
      (match at_key m "abi" with
       | JNull => Ret tt
       | _ => if negb (String.eqb (text "to") "") && negb (String.eqb (text "method") "") && String.eqb abi ""
              then Err (Msg "value for field 'abi' is invalid") else Ret tt
       end);;
      method ← str "method" this.(Method);
      params ← match at_key m "params" with
               | JNull => Ret this.(Params)
               | JArr l => Ret l
               | _ => Err (Msg "value for field 'params' must be an array")
               end;
      time ← match at_key m "time" with
             | JNull => Ret this.(Time)
             | JNum z => checkTime now (int64_of_float z)
             | _ => must "time"
             end;
      signature ← str "signature" this.(Signature);
      hertz ← match at_key m "hertz", at_key m "type" with
              | JNull, _ => Ret this.(Hertz)
              | _, JNum z => Ret (int64_of_float z)
              | _, _ => must "hertz"
              end;
      receipt ← match at_key m "receipt" with
                | JNull => Ret this.(Receipt_)
                | r => '(receipt, _) ← Receipt.UnmarshalJSON Receipt.empty r; Ret receipt
                end;
      Ret {| Hash := hash; Type_ := tipe; From := from; To := to; Value := value; Code := code; Abi := abi;
             Method := method; Params := params; Time := time; Signature := signature; Hertz := hertz;
             Receipt_ := receipt; Gossip := this.(Gossip); FromName := this.(FromName); ToName := this.(ToName) |}
  end.

Definition MarshalJSON (this : t) : json :=
  let str k s := omitempty k (String.eqb s "") (JStr s) in
  JObj ([("hash", JStr this.(Hash)); ("type", JNum this.(Type_)); ("from", JStr this.(From))] ++
        str "to" this.(To) ++ omitempty "value" (this.(Value) =? 0) (JNum this.(Value)) ++
        str "code" this.(Code) ++ str "abi" this.(Abi) ++ str "method" this.(Method) ++
        omitempty "params" (length this.(Params) =? 0)%nat (JArr this.(Params)) ++
        [("time", JNum this.(Time)); ("signature", JStr this.(Signature)); ("hertz", JNum this.(Hertz));
         ("receipt", Receipt.MarshalJSON this.(Receipt_))] ++
        omitempty "gossip" (length this.(Gossip) =? 0)%nat (JArr (map Rumor.MarshalJSON this.(Gossip))) ++
        str "fromName" this.(FromName) ++ str "toName" this.(ToName)).

Definition ToTransactionFromJson (now : Z) (j : json) : result t := UnmarshalJSON now empty j.

Section Ops.
Context {CR : Signatures}.

(** Neither the ABI nor the parameters nor the hertz are hashed, and nothing
    separates one field from the next. *)
Definition hashed (this : t) : result (list Z) :=
  fromBytes ← hex_or_err this.(From) errHex;
  toBytes ← hex_or_err this.(To) errHex;
  codeBytes ← hex_or_err this.(Code) errHex;
  Ret (this.(Type_) :: fromBytes ++ toBytes ++ le_int64 this.(Value) ++ codeBytes ++
       bytes_of this.(Method) ++ le_int64 this.(Time)).

Definition NewHash (this : t) : result string :=
  b ← hashed this; Ret (hex_EncodeToString (Ledger.NewHash b)).

Definition Verify (this : t) : result unit :=
  if negb (String.length this.(Hash) =? HashLen * 2)%nat then Err (Msg "invalid hash")
  else if negb (String.length this.(From) =? AddressLen * 2)%nat then Err (Msg "invalid from address")
  else if negb (String.length this.(Signature) =? SignatureLen * 2)%nat then Err (Msg "invalid signature")
  else if String.eqb this.(From) this.(To) then Err (Msg "from address cannot equal to address")
  else
    (if this.(Type_) =? TypeTransferTokens then
       if negb (String.length this.(To) =? AddressLen * 2)%nat then Err (Msg "invalid to address")
       else if this.(Value) <=? 0 then Err (Msg "value cannot be less than or equal to zero")
       else Ret tt
     else if this.(Type_) =? TypeDeploySmartContract then
       if negb (String.length this.(To) =? 0)%nat
       then Err (Msg "to address must be blank for a deployment of a smart contract")
       else if (String.length this.(Code) =? 0)%nat then Err (Msg "invalid code")
       else if (String.length this.(Abi) =? 0)%nat then Err (Msg "invalid abi")
       else Ret tt
     else if this.(Type_) =? TypeExecuteSmartContract then
       if negb (String.length this.(To) =? AddressLen * 2)%nat then Err (Msg "invalid to address") else Ret tt
     else Ret tt);;
    match NewHash this with
    | Ret hash =>
        if negb (String.eqb this.(Hash) hash) then Err (Msg "invalid hash")
        else signed_by this.(From) this.(Hash) this.(Signature)
    | Err _ => Err (Msg "unable to compute hash")
    | Panic => Panic
    end.

Definition set_Hash (this : t) (h : string) : t :=
  {| Hash := h; Type_ := this.(Type_); From := this.(From); To := this.(To); Value := this.(Value);
     Code := this.(Code); Abi := this.(Abi); Method := this.(Method); Params := this.(Params);
     Time := this.(Time); Signature := this.(Signature); Hertz := this.(Hertz); Receipt_ := this.(Receipt_);
     Gossip := this.(Gossip); FromName := this.(FromName); ToName := this.(ToName) |}.
Definition set_Signature (this : t) (s : string) : t :=
  {| Hash := this.(Hash); Type_ := this.(Type_); From := this.(From); To := this.(To); Value := this.(Value);
     Code := this.(Code); Abi := this.(Abi); Method := this.(Method); Params := this.(Params);
     Time := this.(Time); Signature := s; Hertz := this.(Hertz); Receipt_ := this.(Receipt_);
     Gossip := this.(Gossip); FromName := this.(FromName); ToName := this.(ToName) |}.
Definition set_Receipt (this : t) (r : Receipt.t) : t :=
  {| Hash := this.(Hash); Type_ := this.(Type_); From := this.(From); To := this.(To); Value := this.(Value);
     Code := this.(Code); Abi := this.(Abi); Method := this.(Method); Params := this.(Params);
     Time := this.(Time); Signature := this.(Signature); Hertz := this.(Hertz); Receipt_ := r;
     Gossip := this.(Gossip); FromName := this.(FromName); ToName := this.(ToName) |}.
(** The ABI and the parameters an execution fills in. *)
Definition set_Call (this : t) (abi : string) (params : list json) : t :=
  {| Hash := this.(Hash); Type_ := this.(Type_); From := this.(From); To := this.(To); Value := this.(Value);
     Code := this.(Code); Abi := abi; Method := this.(Method); Params := params;
     Time := this.(Time); Signature := this.(Signature); Hertz := this.(Hertz); Receipt_ := this.(Receipt_);
     Gossip := this.(Gossip); FromName := this.(FromName); ToName := this.(ToName) |}.

(** Time, hash and signature of a transaction being made. *)
Definition sign_with (now : Z) (privateKey : string) (time : Z) (tx : Z -> t) : result t :=
  time ← checkTime now time;
  let tx := tx time in
  hash ← NewHash tx;
  let tx := set_Hash tx hash in
  signature ← NewSignature hash privateKey;
  Ret (set_Signature tx signature).

Definition unsigned (tipe : Z) (from to : string) (value : Z) (code abi method : string) (params : list json)
    (time : Z) : t :=
  {| Hash := ""; Type_ := tipe; From := from; To := to; Value := value; Code := code; Abi := abi;
     Method := method; Params := params; Time := time; Signature := ""; Hertz := 0;
     Receipt_ := Receipt.empty; Gossip := []; FromName := ""; ToName := "" |}.

(** The hertz given are not used. *)
Definition NewTransferTokensTransaction (now : Z) (privateKey from to : string) (value hertz time : Z) : result t :=
  sign_with now privateKey time (unsigned TypeTransferTokens from to value "" "" "" []).

Definition NewDeployContractTransaction (now : Z) (privateKey from code abi : string) (time : Z) : result t :=
  if String.eqb abi "" then Err (Msg "cannot have empty abi")
  else if String.eqb code "" then Err (Msg "cannot have empty code")
  else sign_with now privateKey time (unsigned TypeDeploySmartContract from "" 0 code abi "" []).

Definition NewExecuteContractTransaction (now : Z) (privateKey from to method : string) (params : list json)
    (time : Z) : result t :=
  if String.eqb method "" then Err (Msg "cannot have empty method")
  else sign_with now privateKey time (unsigned TypeExecuteSmartContract from to 0 "" "" method params).

(** [binary.BigEndian]; a field that is no hexadecimal text panics. *)
Definition CalculateHash (this : t) : option (list Z) :=
  from ← hex_Decode this.(From); to ← hex_Decode this.(To); signature ← hex_Decode this.(Signature);
  Some (Ledger.NewHash (this.(Type_) :: from ++ to ++ be_bytes 8 (u64 this.(Value)) ++
                        be_bytes 8 (u64 this.(Time)) ++ signature)).
End Ops.

Definition Equals (this : t) (other : string) : bool := String.eqb this.(Hash) other.
End Transaction.

(** ** account.go: what the ledger stores of an account *)
Module Account.
(** A missing balance is nil. *)
Record t := { Address : string; PrivateKey : string; Name : string; Balance : option Z; TransactionHash : string;
              Updated : Z; Created : Z; Nonce : Z }.

Definition empty : t := {| Address := ""; PrivateKey := ""; Name := ""; Balance := None; TransactionHash := "";
  Updated := zero_time; Created := zero_time; Nonce := 0 |}.

(** [strings.ToLower] of ASCII letters. *)
Definition lower (c : Ascii.ascii) : Ascii.ascii :=
  let n := Ascii.N_of_ascii c in
  if ((65 <=? n) && (n <=? 90))%N then Ascii.ascii_of_N (n + 32) else c.
Fixpoint ToLower (s : string) : string :=
  match s with EmptyString => EmptyString | String c s => String (lower c) (ToLower s) end.

Definition Key_of (address : string) : string := "table-account-" +:+ address.
Definition Key (this : t) : string := Key_of this.(Address).
Definition NameKey (this : t) : string := "key-account-name-" +:+ ToLower this.(Name).

(** The type assertions of the code panic. *)
Definition UnmarshalJSON (this : t) (j : json) : result t :=
  match jsonMap j with
  | None => Err errJson
  | Some m =>
      address ← string_field m "address" this.(Address) Panic;
      privateKey ← string_field m "privateKey" this.(PrivateKey) Panic;
      name ← string_field m "name" this.(Name) Panic;
      balance ← match at_key m "balance" with
                | JNull => Ret this.(Balance)
                | JNum z => Ret (Some (int64_of_float z))
                | _ => Panic
                end;
      transactionHash ← string_field m "transactionHash" this.(TransactionHash) Panic;
      updated ← time_field m "updated" this.(Updated);
      created ← time_field m "created" this.(Created);
      nonce ← number_field m "nonce" this.(Nonce) uint64_of_float Panic;
      Ret {| Address := address; PrivateKey := privateKey; Name := name; Balance := balance;
             TransactionHash := transactionHash; Updated := updated; Created := created; Nonce := nonce |}
  end.

(** [Int64] of a balance that does not fit is its low 64 bits; of nil, a panic. *)
Definition MarshalJSON (this : t) : option json :=
  balance ← this.(Balance);
  let str k s := omitempty k (String.eqb s "") (JStr s) in
  Some (JObj ([("address", JStr this.(Address))] ++ str "privateKey" this.(PrivateKey) ++
        [("name", JStr this.(Name)); ("balance", JNum (i64 balance))] ++
        str "transactionHash" this.(TransactionHash) ++
        [("updated", JTime this.(Updated)); ("created", JTime this.(Created)); ("nonce", JNum this.(Nonce))])).

Definition ToAccountFromJson (j : json) : result t := UnmarshalJSON empty j.

Definition set_Balance (this : t) (b : option Z) : t :=
  {| Address := this.(Address); PrivateKey := this.(PrivateKey); Name := this.(Name); Balance := b;
     TransactionHash := this.(TransactionHash); Updated := this.(Updated); Created := this.(Created);
     Nonce := this.(Nonce) |}.
Definition set_TransactionHash (this : t) (h : string) : t :=
  {| Address := this.(Address); PrivateKey := this.(PrivateKey); Name := this.(Name); Balance := this.(Balance);
     TransactionHash := h; Updated := this.(Updated); Created := this.(Created); Nonce := this.(Nonce) |}.
Definition set_Updated (this : t) (now : Z) : t :=
  {| Address := this.(Address); PrivateKey := this.(PrivateKey); Name := this.(Name); Balance := this.(Balance);
     TransactionHash := this.(TransactionHash); Updated := now; Created := this.(Created);
     Nonce := this.(Nonce) |}.
End Account.

(** ** gossip.go *)
Module Gossip.
Record t := { Transaction : Transaction.t; Rumors : list Rumor.t }.

Definition Key_of (hash : string) : string := "table-gossip-" +:+ hash.
Definition Key (this : t) : string := Key_of this.(Transaction).(Transaction.Hash).

Definition set_Rumors (this : t) (l : list Rumor.t) : t := {| Transaction := this.(Transaction); Rumors := l |}.
Definition set_Transaction (this : t) (tx : Transaction.t) : t :=
  {| Transaction := tx; Rumors := this.(Rumors) |}.

Definition ContainsRumor (this : t) (address : string) : bool :=
  existsb (fun r => String.eqb r.(Rumor.Address) address) this.(Rumors).

Definition NewGossip (tx : Transaction.t) : t := {| Transaction := tx; Rumors := [] |}.

(** A struct without methods of its own: the fields by their names, in any case,
    one after the other. *)
Definition MarshalJSON (this : t) : json :=
  JObj [("Transaction", Transaction.MarshalJSON this.(Transaction));
        ("Rumors", JArr (map Rumor.MarshalJSON this.(Rumors)))].

Fixpoint rumors_of (l : list json) : result (list Rumor.t) :=
  match l with
  | [] => Ret []
  | j :: l => r ← Rumor.UnmarshalJSON Rumor.empty j; rs ← rumors_of l; Ret (r :: rs)
  end.

Definition named (k name : string) : bool := String.eqb (Account.ToLower k) (Account.ToLower name).

Fixpoint fields (now : Z) (this : t) (l : list (string * json)) : result t :=
  match l with
  | [] => Ret this
  | (k, v) :: l =>
      this ← (if named k "Transaction" then
                tx ← Transaction.UnmarshalJSON now this.(Transaction) v; Ret (set_Transaction this tx)
              else if named k "Rumors" then
                match v with
                | JNull => Ret (set_Rumors this [])
                | JArr rs => rs ← rumors_of rs; Ret (set_Rumors this rs)
                | _ => Err errJson
                end
              else Ret this);
      fields now this l
  end.

Definition ToGossipFromJson (now : Z) (j : json) : result t :=
  match j with
  | JObj l => fields now (NewGossip Transaction.empty) l
  | JNull => Ret (NewGossip Transaction.empty)
  | _ => Err errJson
  end.

Section Ops.
Context {CR : Signatures}.
Fixpoint ValidRumors_of (l : list Rumor.t) : option nat :=
  match l with
  | [] => Some 0%nat
  | r :: l => ok ← Rumor.Verify r; n ← ValidRumors_of l; Some (if (ok : bool) then S n else n)
  end.
Definition ValidRumors (this : t) : option nat := ValidRumors_of this.(Rumors).
End Ops.
End Gossip.

(** ** node.go *)
Module Node.
Record Endpoint := { Host : string; Port : Z }.
Record t := { Address : string; GrpcEndpoint : option Endpoint; HttpEndpoint : option Endpoint;
              Type_ : string; Status : string; StatusTime : Z }.

(** The timeout of five seconds is in nanoseconds, the time gone by in seconds. *)
Definition UnavailableNodeTimeout : Z := 5 * 1000000000.

Definition IsAvailable (now : Z) (this : t) : bool :=
  if String.eqb this.(Status) StatusNodeUnavailable
  then negb (now - this.(StatusTime) <? UnavailableNodeTimeout * 1000000000) else true.

Definition Key (this : t) : string := "table-node-" +:+ this.(Address).
Definition TypeKey (this : t) : string := "key-node-type-" +:+ this.(Type_) +:+ "-" +:+ this.(Address).

Definition set_Status (this : t) (s : string) (now : Z) : t :=
  {| Address := this.(Address); GrpcEndpoint := this.(GrpcEndpoint); HttpEndpoint := this.(HttpEndpoint);
     Type_ := this.(Type_); Status := s; StatusTime := now |}.
End Node.
