(* ===== verification/AbiHelper.v ===== *)
(** * The parameters of a contract call

    commons/helper/abi_helper.go: the JSON values a client sends become the Go values
    the packer takes.  A number of a document is the [float64] nearest to it, here an
    integer; converting one that is out of range gives what it gives on amd64.  The
    start of the interface is only logged, but cutting it off can panic. *)
From Stdlib Require Import ZArith Lia.
From S2P Require Import Ledger Prelude Keccak KeccakSpec.
Close Scope lanes_scope.
From S2P Require Import Word Hex Json.
Import Big.
From S2P Require Import Abi AbiTypes AbiRoundTrip AbiMethods.
Open Scope Z_scope.

(** ** [encoding/base64]: the standard alphabet, with padding *)
Definition base64_digit (c : Z) : option Z :=
  if (65 <=? c) && (c <=? 90) then Some (c - 65)
  else if (97 <=? c) && (c <=? 122) then Some (c - 71)
  else if (48 <=? c) && (c <=? 57) then Some (c + 4)
  else if c =? 43 then Some 62
  else if c =? 47 then Some 63
  else None.

Definition is_newline (c : Z) : bool := (c =? 10) || (c =? 13).

Fixpoint skip_newlines (s : list Z) : list Z :=
  match s with c :: r => if is_newline c then skip_newlines r else s | [] => [] end.

(** The bytes of two, three or four digits *)
Definition quantum (digits : list Z) : list Z :=
  let n := foldl (fun a d => a * 64 + d) 0 (digits ++ replicate (4 - length digits) 0) in
  take (length digits - 1) (be_bytes 3 n).

(** What was decoded before an error, and whether there was one *)
Fixpoint base64_Decode (s digits out : list Z) : list Z * bool :=
  match s with
  | [] => (out, negb (length digits =? 0)%nat)
  | c :: s =>
      if is_newline c then base64_Decode s digits out
      else match base64_digit c with
           | Some d => if (length digits =? 3)%nat then base64_Decode s [] (out ++ quantum (digits ++ [d]))
                       else base64_Decode s (digits ++ [d]) out
           | None =>
               if negb (c =? 61) then (out, true)
               else match length digits with
                    | 2%nat => match skip_newlines s with
                               | 61 :: r => (out ++ quantum digits, negb (length (skip_newlines r) =? 0)%nat)
                               | _ => (out, true)
                               end
                    | 3%nat => (out ++ quantum digits, negb (length (skip_newlines s) =? 0)%nat)
                    | _ => (out, true)
                    end
           end
  end.

Definition base64_DecodeString (s : list Z) : list Z * bool := base64_Decode s [] [].

Example base64_sample : base64_DecodeString (bytes_of "AQID/w==") = ([1; 2; 3; 255], false).
Proof. reflexivity. Qed.

(** ** Numbers *)
Definition int32_of_float (z : Z) : Z := if (- 2 ^ 31 <=? z) && (z <? 2 ^ 31) then z else - 2 ^ 31.

(** The conversion of a [float64] to an integer type *)
Definition int_of_float (k : ikind) (z : Z) : Z :=
  match k with
  | Int8 => signed 8 (int32_of_float z mod 2 ^ 8)
  | Int16 => signed 16 (int32_of_float z mod 2 ^ 16)
  | Int32 => int32_of_float z
  | Int | Int64 => int64_of_float z
  | Uint8 => int32_of_float z mod 2 ^ 8
  | Uint16 => int32_of_float z mod 2 ^ 16
  | Uint32 => int64_of_float z mod 2 ^ 32
  | Uint | Uint64 => uint64_of_float z
  end.

(** ** [[]rune]: the characters of a text *)

(** The bytes of the first character; one that is no UTF-8 is a character of its own. *)
Definition rune_width (s : list Z) : nat :=
  let within lo hi c := (lo <=? c) && (c <=? hi) in
  let tail := within 0x80 0xbf in
  match s with
  | b0 :: b1 :: r =>
      if within 0xc2 0xdf b0 then if tail b1 then 2%nat else 1%nat
      else if within 0xe0 0xef b0 then
        match r with
        | b2 :: _ => if within (if b0 =? 0xe0 then 0xa0 else 0x80) (if b0 =? 0xed then 0x9f else 0xbf) b1 && tail b2 then 3%nat else 1%nat
        | [] => 1%nat
        end
      else if within 0xf0 0xf4 b0 then
        match r with
        | b2 :: b3 :: _ => if within (if b0 =? 0xf0 then 0x90 else 0x80) (if b0 =? 0xf4 then 0x8f else 0xbf) b1 && tail b2 && tail b3 then 4%nat else 1%nat
        | _ => 1%nat
        end
      else 1%nat
  | _ => 1%nat
  end.

(** Their number; as many turns as there are bytes are enough. *)
Fixpoint count_runes (fuel : nat) (s : list Z) : nat :=
  match fuel, s with
  | S fuel, _ :: _ => S (count_runes fuel (drop (rune_width s) s))
  | _, _ => 0%nat
  end.
Definition rune_count (s : list Z) : nat := count_runes (length s) s.

Example runes_sample : map rune_count [bytes_of "616269"; [0xe2; 0x82; 0xac; 0x31]; [0xed; 0xa0; 0x80]; [0xf0; 0x9f; 0x98; 0x80]] = [6; 2; 3; 1]%nat.
Proof. reflexivity. Qed.

Lemma rune_width_pos s : (1 <= rune_width s)%nat.
Proof. unfold rune_width. repeat case_match; lia. Qed.

Lemma count_runes_stable n m s : (length s <= n)%nat -> (n <= m)%nat -> count_runes m s = count_runes n s.
Proof.
  revert m s. induction n as [|n IH]; intros m s Hs Hm; [destruct s; [by destruct m|simpl in Hs; lia]|].
  destruct m as [|m]; [lia|]. cbn [count_runes]. destruct s as [|c s]; [done|]. f_equal. apply IH; [|lia].
  pose proof (rune_width_pos (c :: s)). rewrite length_drop. cbn [length] in *. lia.
Qed.

(** The characters of a text of seven bits are its bytes. *)
Lemma ascii_runes s : Forall (fun c => c < 128) s -> rune_count s = length s.
Proof.
  unfold rune_count. induction s as [|c s IH]; intros Hs; [done|]. apply Forall_cons in Hs as [Hc Hs].
  cbn [length count_runes]. f_equal. refine (eq_trans _ (IH Hs)). f_equal.
  assert (rune_width (c :: s) = 1%nat) as ->; [|done]. unfold rune_width. destruct s as [|b s]; [done|].
  rewrite !(proj2 (Z.leb_gt _ c)) by lia. done.
Qed.

Inductive convert_error := errBadABI | errNoMethod | errParamCount | errBadValue.

Section Helper.
(** The text of a date, the document a text denotes, and the room that a slice of so many runes gets, which Go
    leaves to its implementation *)
Context (date : Z -> string) (parse : list Z -> option json) (room : nat -> nat).

(** What an [interface{}] of a document holds *)
Fixpoint iface (j : json) : gval :=
  match j with
  | JNull => GNil
  | JBool b => GBool b
  | JNum z => GFloat z
  | JStr s => GString (bytes_of s)
  | JTime t => GString (bytes_of (date t))
  | JArr l => GSlice GTInterface (map (fun j => GIface (iface j)) l)
  | JObj _ => GMap
  end.

Definition getValue (arg : Argument) (value : json) : outcome convert_error gval :=
  let number (conv : Z -> gval) := match value with JNum z => Ret (conv z) | _ => Err errBadValue end in
  if bool_decide (TString arg.(Type__) = "int256"%string) || bool_decide (TString arg.(Type__) = "uint256"%string)
  then number (fun z => GBig (int64_of_float z))
  else match TKind arg.(Type__) with
       | KInt Int | KInt Uint => number (fun z => GBig (int64_of_float z))
       | KInt k => number (fun z => GInt k (int_of_float k z))
       | KBool => match value with JBool b => Ret (GBool b) | _ => Err errBadValue end
       | _ => Ret (iface value)
       end.

Definition starts_with (p s : string) : bool := String.prefix p s.

(** The name without its last two characters; a shorter one panics. *)
Definition element_type (s : string) : option string :=
  if (String.length s <? 2)%nat then None else Some (String.substring 0 (String.length s - 2) s).

Definition is_number (j : json) : bool := match j with JNum _ => true | _ => false end.

(** [value.(float64)] *)
Definition as_float (j : json) : option Z := match j with JNum z => Some z | _ => None end.

Definition int_named (s : string) : option ikind :=
  if bool_decide (s = "int8"%string) then Some Int8
  else if bool_decide (s = "int16"%string) then Some Int16
  else if bool_decide (s = "int32"%string) then Some Int32
  else if bool_decide (s = "int64"%string) then Some Int64
  else if bool_decide (s = "uint8"%string) then Some Uint8
  else if bool_decide (s = "uint16"%string) then Some Uint16
  else if bool_decide (s = "uint32"%string) then Some Uint32
  else if bool_decide (s = "uint64"%string) then Some Uint64
  else None.

Definition getValues (arg : Argument) (values : list json) : outcome convert_error gval :=
  dataTypeString ← or_panic (element_type (TString arg.(Type__)));
  if (starts_with "int" dataTypeString || starts_with "uint" dataTypeString) && negb (forallb is_number values)
  then Err errBadValue
  else if bool_decide (dataTypeString ∈ ["int256"; "uint256"; "int"; "uint"]%string) then
    zs ← or_panic (mapM as_float values); Ret (GSlice GTBig (map (fun z => GBig (int64_of_float z)) zs))
  else match int_named dataTypeString with
       | Some k => zs ← or_panic (mapM as_float values); Ret (GSlice (GTInt k) (map (fun z => GInt k (int_of_float k z)) zs))
       | None => Ret (GSlice GTInterface (map (fun j => GIface (iface j)) values))
       end.

(** One parameter.  The error of the base64 decoder is not looked at. *)
Definition convert (arg : Argument) (param : json) : outcome convert_error gval :=
  match T arg.(Type__) with
  | SliceTy | ArrayTy => match param with JArr l => getValues arg l | _ => Panic end
  | AddressTy =>
      v ← getValue arg param;
      match v with
      | GString s => a ← or_panic (GetAddressBytes s); Ret (byte_array (be_bytes AddressLength a))
      | _ => Panic
      end
  | BytesTy =>
      match iface param with
      | GString s => Ret (GSlice (GTInt Uint8) (map (GInt Uint8) (base64_DecodeString s).1))
      | _ => Panic
      end
  | _ => getValue arg param
  end.

Fixpoint convert_all (args : Arguments_) (params : list json) : outcome convert_error (list gval) :=
  match args, params with
  | arg :: args, param :: params => v ← convert arg param; l ← convert_all args params; Ret (v :: l)
  | _, _ => Ret []
  end.

(** The first ten characters are cut off for the log, which panics if the slice of them has less room.  What does
    not decode as hexadecimal is cut off. *)
Definition GetABI (data : string) : outcome convert_error ABI :=
  if (room (rune_count (bytes_of data)) <? 10)%nat then Panic
  else match UnmarshalJSON (parse (hex_DecodeString (bytes_of data)).1) with
  | Ret abi => Ret abi
  | Err _ => Err errBadABI
  | Panic => Panic
  end.

Definition GetConvertedParams (tx : Transaction.t) : outcome convert_error (list gval) :=
  theABI ← GetABI tx.(Transaction.Abi);
  match theABI.(Methods) !! tx.(Transaction.Method) with
  | None => Err errNoMethod
  | Some v =>
      if (length tx.(Transaction.Params) =? 0)%nat then Ret []
      else if negb (length v.(Inputs) =? length tx.(Transaction.Params))%nat then Err errParamCount
      else convert_all v.(Inputs) tx.(Transaction.Params)
  end.
End Helper.

(** ** What a client sends is what the contract gets

    The parameters of a call, from JSON through the packer and back, for the types a
    client can send exactly. *)

(** ** Types a client can send *)
Definition int_type (k : ikind) : Type_ :=
  match k with
  | Int8 => Basic IntTy (KInt Int8) (GTInt Int8) 8 "int8" | Int16 => Basic IntTy (KInt Int16) (GTInt Int16) 16 "int16"
  | Int32 => Basic IntTy (KInt Int32) (GTInt Int32) 32 "int32" | Int64 => Basic IntTy (KInt Int64) (GTInt Int64) 64 "int64"
  | Uint8 => Basic UintTy (KInt Uint8) (GTInt Uint8) 8 "uint8" | Uint16 => Basic UintTy (KInt Uint16) (GTInt Uint16) 16 "uint16"
  | Uint32 => Basic UintTy (KInt Uint32) (GTInt Uint32) 32 "uint32" | Uint64 => Basic UintTy (KInt Uint64) (GTInt Uint64) 64 "uint64"
  | Int => Basic IntTy KPtr GTBig 256 "int256" | Uint => Basic UintTy KPtr GTBig 256 "uint256"
  end.

(** The number of such a type, in the range of integers a [float64] has exactly; [Int] and [Uint] stand for
    the types of 256 bits. *)
Definition sends (k : ikind) (z : Z) : Prop := int_range k z /\ - 2 ^ 53 < z < 2 ^ 53.
Definition number (k : ikind) (z : Z) : gval := match k with Int | Uint => GBig z | _ => GInt k z end.

Definition bool_ : Type_ := Basic BoolTy KBool GTBool 0 "bool".
Definition string_ : Type_ := Basic StringTy KString GTString 0 "string".
Definition address_type : Type_ := Basic AddressTy KArray (GTArray 20 uint8) 20 "address".
Definition bytes_type : Type_ := Basic BytesTy KSlice (GTSlice uint8) 0 "bytes".

Example these_are_the_types : Forall (fun t => NewType (TString t) = Ret t)
  ([bool_; string_; address_type; bytes_type] ++ map int_type [Int8; Int16; Int32; Int64; Uint8; Uint16; Uint32; Uint64; Int; Uint] ++
   map (fun k => SliceOf (int_type k) (TString (int_type k) ++ "[]")) [Int8; Int16; Int32; Int64; Uint8; Uint16; Uint32; Uint64; Int; Uint]).
Proof. repeat constructor. Qed.

(** A JSON value, the type of a parameter, and the value meant *)
Inductive denotes : Type_ -> json -> gval -> Prop :=
  | den_number k z : sends k z -> denotes (int_type k) (JNum z) (number k z)
  | den_numbers k zs : Forall (sends k) zs ->
      denotes (SliceOf (int_type k) (TString (int_type k) ++ "[]")) (JArr (map JNum zs)) (GSlice (TType (int_type k)) (map (number k) zs))
  | den_bool b : denotes bool_ (JBool b) (GBool b)
  | den_string s : denotes string_ (JStr s) (GString (bytes_of s))
  | den_address bs : Forall is_byte bs -> length bs = 20%nat -> denotes address_type (JStr (hex_EncodeToString bs)) (byte_array bs)
  | den_bytes s bs : base64_DecodeString (bytes_of s) = (bs, false) -> denotes bytes_type (JStr s) (GSlice uint8 (map (GInt Uint8) bs)).

(** ** Converting *)
Lemma int_of_float_exact k z : sends k z -> match k with Int | Uint => True | _ => int_of_float k z = z end.
Proof.
  intros [Hr Hz]. unfold int_of_float, int32_of_float, int64_of_float, uint64_of_float.
  destruct k; simpl in Hr; try done;
    rewrite ?(proj2 (Z.leb_le _ _)), ?(proj2 (Z.ltb_lt _ _)) by lia; cbn [andb]; try done;
    try (apply signed_mod; lia); try (apply Z.mod_small; lia).
Qed.

Lemma int64_exact k z : sends k z -> int64_of_float z = z.
Proof. intros [_ Hz]. apply int64_of_float_small. lia. Qed.

Lemma quantum_bytes d : Forall is_byte (quantum d).
Proof. unfold quantum. apply Forall_take, be_bytes_range. Qed.

Lemma base64_bytes s : forall d out, Forall is_byte out -> Forall is_byte (base64_Decode s d out).1.
Proof.
  induction s as [|c s IH]; intros d out Ho; cbn [base64_Decode]; [done|].
  destruct (is_newline c); [by apply IH|]. destruct (base64_digit c).
  - case_match; apply IH; [|done]. apply Forall_app. by split; [|apply quantum_bytes].
  - assert (Hq : Forall is_byte (out ++ quantum d)) by (apply Forall_app; by split; [|apply quantum_bytes]).
    repeat case_match; done.
Qed.

Lemma Id_total m : exists id, Id m = Some id /\ length id = 4%nat.
Proof.
  unfold Id. rewrite Keccak256_sponge. cbn [mbind option_bind].
  pose proof (sponge_length (concat [bytes_of (Sig m)])) as Hl.
  eexists. unfold slice. rewrite Hl. split; [reflexivity|]. by rewrite length_take, length_drop, Hl.
Qed.

Section Calls.
Context (date : Z -> string) (parse : list Z -> option json) (room : nat -> nat).

Lemma convert_number k z a : a.(Type__) = int_type k -> sends k z -> convert date a (JNum z) = Ret (number k z).
Proof.
  intros Ha Hz. pose proof (int_of_float_exact k z Hz) as He. pose proof (int64_exact k z Hz) as H64.
  unfold convert, getValue. rewrite Ha. by destruct k; cbn -[int_of_float int64_of_float]; rewrite ?He, ?H64.
Qed.

Lemma numbers_back zs : mapM as_float (map JNum zs) = Some zs.
Proof. induction zs as [|z zs IH]; [done|]. simpl. by rewrite IH. Qed.

Lemma all_numbers zs : forallb is_number (map JNum zs) = true.
Proof. by induction zs. Qed.

Lemma map_exact {A B} (P : A -> Prop) (f g : A -> B) l : Forall P l -> (forall x, P x -> f x = g x) -> map f l = map g l.
Proof. intros Hl Hfg. induction Hl as [|x l Hx _ IH]; [done|]. simpl. by rewrite Hfg, IH. Qed.

Lemma convert_numbers k zs a : a.(Type__) = SliceOf (int_type k) (TString (int_type k) ++ "[]") -> Forall (sends k) zs ->
  convert date a (JArr (map JNum zs)) = Ret (GSlice (TType (int_type k)) (map (number k) zs)).
Proof.
  intros Ha Hzs. unfold convert, getValues. rewrite Ha. cbn [T TString].
  assert (He : element_type (TString (int_type k) ++ "[]") = Some (TString (int_type k))) by by destruct k.
  rewrite He. cbn [or_panic mbind outcome_bind]. rewrite all_numbers, andb_false_r, numbers_back. cbn [or_panic mbind outcome_bind].
  assert (Hb : bool_decide (TString (int_type k) ∈ ["int256"; "uint256"; "int"; "uint"]%string) = match k with Int | Uint => true | _ => false end)
    by by destruct k.
  assert (Hn : int_named (TString (int_type k)) = match k with Int | Uint => None | _ => Some k end) by by destruct k.
  rewrite Hb, Hn. destruct k; cbn [TType int_type]; do 2 f_equal;
    apply (map_exact _ _ _ _ Hzs); intros z Hz; pose proof (int_of_float_exact _ z Hz) as Hi; pose proof (int64_exact _ z Hz) as H64;
    cbn [number]; by rewrite ?Hi, ?H64.
Qed.

Lemma number_fits k z : sends k z -> fits (int_type k) (number k z).
Proof. intros [Hr Hz]. destruct k; simpl in *; repeat split; try done; simpl; lia. Qed.

Lemma int_type_ok k : wf (int_type k) /\ static (int_type k) = true /\ basic (int_type k) = true /\ sized (int_type k).
Proof. by destruct k. Qed.

Lemma hex_Encode_bytes b : Forall is_byte b -> Forall is_byte (hex_Encode b).
Proof. apply hex_Encode_range. Qed.

Lemma address_bytes bs : Forall is_byte bs -> length bs = 20%nat -> be_bytes AddressLength (be_int bs) = bs.
Proof. intros Hb Hl. transitivity (be_bytes (length bs) (be_int bs)); [by rewrite Hl|by apply be_bytes_be_int]. Qed.

Lemma address_read bs : Forall is_byte bs -> length bs = 20%nat -> GetAddressBytes (hex_Encode bs) = Some (be_int bs).
Proof.
  intros Hb Hl. pose proof (address_bytes bs Hb Hl) as Ha. unfold AddressLength in Ha. rewrite <- Ha at 1.
  rewrite GetAddressBytes_hex. f_equal. apply Z.mod_small. pose proof (be_int_bound bs Hb) as H. by rewrite Hl in H.
Qed.

Lemma fits_address bs : Forall is_byte bs -> length bs = 20%nat -> fits address_type (byte_array bs).
Proof. intros Hb Hl. split; [|done]. apply typed_byte_array; [done|lia]. Qed.

Lemma convert_address a bs : a.(Type__) = address_type -> Forall is_byte bs -> length bs = 20%nat ->
  convert date a (JStr (hex_EncodeToString bs)) = Ret (byte_array bs).
Proof.
  intros Ha Hb Hl. unfold convert, getValue. rewrite Ha. cbn [T TString TKind address_type].
  rewrite !bool_decide_eq_false_2 by done. cbn [orb iface mbind outcome_bind]. unfold hex_EncodeToString.
  rewrite bytes_of_string_of by by apply hex_Encode_bytes. rewrite (address_read bs) by done.
  cbn [or_panic mbind outcome_bind]. by rewrite address_bytes.
Qed.

Lemma denotes_ok a j v : denotes a.(Type__) j v ->
  convert date a j = Ret v /\ fits a.(Type__) v /\
  wf a.(Type__) /\ supported a.(Type__) = true /\ sized a.(Type__) /\ flat a.(Type__) = true.
Proof.
  intros H. remember a.(Type__) as t eqn:Ht. symmetry in Ht.
  destruct H as [k z Hz|k zs Hzs|b|s|bs Hbs Hlen|s bs Hbs].
  - destruct (int_type_ok k) as (Hw & Hs & Hb & Hsz). split; [by apply convert_number|]. split; [by apply number_fits|].
    unfold supported. rewrite Hs. split_and!; try done. by destruct k.
  - destruct (int_type_ok k) as (Hw & Hs & Hb & Hsz). split; [by apply convert_numbers|]. split.
    { simpl. split; [done|]. apply Forall_map. eapply Forall_impl; [exact Hzs|]. apply number_fits. }
    unfold supported. rewrite Hs, Hb. split_and!; done.
  - unfold convert, getValue. rewrite Ht. split_and!; done.
  - unfold convert, getValue. rewrite Ht. split_and!; try done. split; [|done]. apply bytes_of_range.
  - split; [by apply convert_address|]. split; [by apply fits_address|]. split_and!; done.
  - unfold convert. rewrite Ht. cbn -[base64_DecodeString]. rewrite Hbs. split_and!; try done.
    apply typed_bytes. pose proof (base64_bytes (bytes_of s) [] [] ltac:(constructor)) as H.
    unfold base64_DecodeString in Hbs. by rewrite Hbs in H.
Qed.

(** Texts of ten characters and more are read; shorter ones only if there is more room than they need. *)
Lemma long_texts_are_read data : (forall n, n <= room n)%nat -> (10 <= rune_count (bytes_of data))%nat -> GetABI parse room data <> Panic \/
  UnmarshalJSON (parse (hex_DecodeString (bytes_of data)).1) = Panic.
Proof.
  intros Hr Hd. unfold GetABI. specialize (Hr (rune_count (bytes_of data))). destruct (Nat.ltb_spec (room (rune_count (bytes_of data))) 10); [lia|].
  destruct (UnmarshalJSON _); [by left|by left|by right].
Qed.

Lemma short_texts_panic data : room (rune_count (bytes_of data)) = rune_count (bytes_of data) ->
  (rune_count (bytes_of data) < 10)%nat -> GetABI parse room data = Panic.
Proof. intros Hr Hd. unfold GetABI. by rewrite Hr, (proj2 (Nat.ltb_lt _ _) Hd). Qed.

End Calls.

Section Witness.

(** The interface of a contract with one method *)
Definition sample_document : json :=
  let arg n t := JObj [("name", JStr n); ("type", JStr t)]%string in
  JArr [JObj [("constant", JBool false); ("inputs", JArr [arg "to" "address"; arg "amount" "uint256"; arg "limits" "int16[]"]);
              ("name", JStr "send"); ("outputs", JArr []); ("Type", JStr "function")]]%string.
Definition sample_parse (b : list Z) : option json := if bool_decide (b = bytes_of "interface") then Some sample_document else None.

(** No more room than there are runes *)
Definition exact_room (n : nat) : nat := n.

Definition sample_address : list Z := replicate 19 0 ++ [77].
Definition sample_call : Transaction.t :=
  {| Transaction.Hash := ""; Transaction.Type_ := 2; Transaction.From := ""; Transaction.To := ""; Transaction.Value := 0;
     Transaction.Code := ""; Transaction.Abi := "696e74657266616365"; Transaction.Method := "send";
     Transaction.Params := [JStr (hex_EncodeToString sample_address); JNum 1000000; JArr [JNum (-3); JNum 300]];
     Transaction.Time := 0; Transaction.Signature := ""; Transaction.Hertz := 0; Transaction.Receipt_ := Receipt.empty;
     Transaction.Gossip := []; Transaction.FromName := ""; Transaction.ToName := "" |}.

Definition sample_inputs : Arguments_ :=
  [ {| Name := "to"; Type__ := address_type; Indexed := false |}; {| Name := "amount"; Type__ := int_type Uint; Indexed := false |};
    {| Name := "limits"; Type__ := SliceOf (int_type Int16) "int16[]"; Indexed := false |} ].
Definition sample_method : Method := {| Method_Name := "send"; Const := false; Inputs := sample_inputs; Outputs := [] |}.
Definition sample_ABI : ABI := {| Constructor_ := no_method; Methods := {[ "send"%string := sample_method ]}; Events := ∅ |}.
Definition sample_sent : list gval := [byte_array sample_address; GBig 1000000; GSlice (GTInt Int16) [GInt Int16 (-3); GInt Int16 300]].

End Witness.
