(* ===== verification/LedgerFacts.v ===== *)
(** * Facts about the ledger's records

    What is written as JSON is read back, and what the hash of a transaction
    covers. *)
From Stdlib Require Import ZArith Lia.
From stdpp Require Import pretty.
From S2P Require Import Prelude Word Hex Json Ledger.
Import Big.
Open Scope Z_scope.

(** ** Round trips *)

(** A number a [float64] holds exactly. *)
Definition exact (z : Z) : Prop := Z.abs z < 2 ^ 53.

Lemma exact_int64 z : exact z -> int64_of_float (float64 z) = z.
Proof. unfold exact. intros Hz. rewrite float64_small by lia. apply int64_of_float_small. lia. Qed.

Lemma exact_uint64 z : exact z -> 0 <= z -> uint64_of_float (float64 z) = z.
Proof.
  unfold exact. intros Hz Hp. rewrite float64_small by lia. unfold uint64_of_float.
  by rewrite (proj2 (Z.leb_le _ _)), (proj2 (Z.ltb_lt _ _)) by lia.
Qed.

Lemma exact_byte z : 0 <= z < 256 -> byte_of_float (float64 z) = z.
Proof.
  intros Hz. rewrite float64_small by lia. unfold byte_of_float. rewrite int64_of_float_small by lia.
  unfold u8. by apply Z.mod_small.
Qed.

Lemma string_read {E} k m s old (bad : outcome E string) :
  at_key m k = (if String.eqb s "" then JNull else JStr s) -> (s = "" -> old = "") ->
  string_field m k old bad = Ret s.
Proof.
  unfold string_field. intros -> Ho. destruct (String.eqb_spec s ""); [|done]. subst. by rewrite Ho.
Qed.

(** The last binding counts, so a part that does not have the key can be skipped. *)
Lemma at_key_app_absent l m k : Forall (fun kv => String.eqb kv.1 k = false) m ->
  at_key (l ++ m) k = at_key l k.
Proof.
  unfold at_key. rewrite foldl_app. generalize (foldl (fun v kv => if String.eqb kv.1 k then kv.2 else v) JNull l).
  induction 1 as [|kv m Hkv _ IH]; [done|]. cbn [foldl]. by rewrite Hkv.
Qed.

Definition account_ok (a : Account.t) : Prop :=
  (exists b, a.(Account.Balance) = Some b /\ exact b) /\ 0 <= a.(Account.Nonce) /\ exact a.(Account.Nonce).

Lemma exact_i64 z : exact z -> i64 z = z.
Proof. unfold exact. intros Hz. apply i64_id. unfold is_i64. lia. Qed.

Lemma account_round_trip a : account_ok a ->
  exists j, Account.MarshalJSON a = Some j /\ Account.ToAccountFromJson j = Ret a.
Proof.
  destruct a as [addr pk nm bal th upd cre nc]. intros [(b & Hb & Hbx) [Hn Hnx]]. simpl in Hb. subst bal.
  simpl in Hn, Hnx. eexists. split; [reflexivity|].
  unfold Account.ToAccountFromJson, Account.UnmarshalJSON, jsonMap, omitempty.
  cbn [Account.Address Account.PrivateKey Account.Name Account.Balance Account.TransactionHash Account.Updated
       Account.Created Account.Nonce].
  rewrite exact_i64 by done.
  destruct (String.eqb_spec pk "") as [->|]; destruct (String.eqb_spec th "") as [->|]; cbn -[float64 int64_of_float uint64_of_float];
    by rewrite exact_int64, exact_uint64.
Qed.

(** Looking a key up in a document written field by field. *)
Definition at_from (v : json) (m : list (string * json)) (k : string) : json :=
  foldl (fun v kv => if String.eqb kv.1 k then kv.2 else v) v m.

Lemma at_nil v k : at_from v [] k = v.
Proof. done. Qed.
Lemma at_cons v k' w m k : at_from v ((k', w) :: m) k = at_from (if String.eqb k' k then w else v) m k.
Proof. done. Qed.
Lemma at_omit v k' e w m k :
  at_from v (omitempty k' e w ++ m) k = at_from (if String.eqb k' k && negb e then w else v) m k.
Proof. by destruct e; cbn; rewrite ?andb_false_r, ?andb_true_r. Qed.
Lemma at_omit_last v k' e w k : at_from v (omitempty k' e w) k = if String.eqb k' k && negb e then w else v.
Proof. by destruct e; cbn; rewrite ?andb_false_r, ?andb_true_r. Qed.

Definition on_value (f : json -> json) (kv : string * json) : string * json := (kv.1, f kv.2).
Lemma map_omitempty f k e v : map (on_value f) (omitempty k e v) = omitempty k e (f v).
Proof. by destruct e. Qed.

Lemma jsonMap_JObj l : jsonMap (JObj l) = Some (map (on_value interface) l).
Proof. done. Qed.

Definition stable (j : json) : Prop := interface j = j.

Lemma stable_map l : Forall stable l -> map interface l = l.
Proof. induction 1 as [|j l Hj _ IH]; [done|]. cbn [map]. by rewrite Hj, IH. Qed.

(** The fields of a document, looked up one by one. *)
Ltac look_up m :=
  unfold m; rewrite ?map_app; cbn [map app]; rewrite ?map_omitempty; unfold on_value; cbn [fst snd interface];
  match goal with |- at_key ?l ?k = _ => change (at_key l k) with (at_from JNull l k) end;
  rewrite ?at_cons; repeat (rewrite ?at_omit, ?at_cons); rewrite ?at_omit_last, ?at_nil;
  cbn [String.eqb Ascii.eqb Bool.eqb andb negb]; reflexivity.
Ltac document :=
  match goal with |- context [at_key (map (on_value interface) ?l) _] =>
    let m := fresh "m" in set (m := map (on_value interface) l);
    repeat match goal with |- context [at_key m ?k] =>
      let H := fresh in eassert (at_key m k = _) as H by (look_up m); rewrite !H; clear H end;
    clear m
  end.

Lemma string_back {E} (s : string) (bad : outcome E string) :
  match (if negb (String.eqb s "") then JStr s else JNull) with
  | JNull => Ret ""
  | JStr s => Ret s
  | _ => bad
  end = Ret s.
Proof. by destruct (String.eqb_spec s "") as [->|]. Qed.

Lemma text_back (s : string) :
  match (if negb (String.eqb s "") then JStr s else JNull) with JStr s => s | _ => "" end = s.
Proof. by destruct (String.eqb_spec s "") as [->|]. Qed.

Definition receipt_ok (r : Receipt.t) : Prop := Forall stable r.(Receipt.ContractResult).

Lemma receipt_read r : receipt_ok r ->
  Receipt.UnmarshalJSON Receipt.empty (Receipt.MarshalJSON r) = Ret (r, None).
Proof.
  destruct r as [th st hs ca cr cre]. unfold receipt_ok. cbn [Receipt.ContractResult]. intros Hs.
  unfold Receipt.UnmarshalJSON, Receipt.MarshalJSON. rewrite jsonMap_JObj.
  cbn [Receipt.TransactionHash Receipt.Status Receipt.HumanReadableStatus Receipt.ContractAddress
       Receipt.ContractResult Receipt.Created]. cbv beta iota zeta. unfold string_field, time_field.
  document. rewrite (stable_map cr Hs).
  destruct (String.eqb_spec hs "") as [->|]; destruct ca; destruct cr; done.
Qed.

Lemma receipt_interface r : receipt_ok r -> interface (Receipt.MarshalJSON r) = Receipt.MarshalJSON r.
Proof.
  destruct r as [th st hs ca cr cre]. unfold receipt_ok, Receipt.MarshalJSON. cbn [Receipt.ContractResult]. intros Hs.
  cbn [interface]. change (fun kv : string * json => (kv.1, interface kv.2)) with (on_value interface).
  rewrite !map_app, !map_omitempty. cbn [map on_value fst snd interface]. by rewrite (stable_map cr Hs).
Qed.

(** What the node stores of a transaction. *)
Record transaction_ok (now : Z) (tx : Transaction.t) : Prop := {
  type_ok : 0 <= tx.(Transaction.Type_) < 256;
  value_ok : exact tx.(Transaction.Value);
  time_ok : 0 <= tx.(Transaction.Time) <= ToMilliSeconds (now + TxFutureLimit);
  time_exact : exact tx.(Transaction.Time);
  params_ok : Forall stable tx.(Transaction.Params);
  receipt_of_ok : receipt_ok tx.(Transaction.Receipt_)
}.

(** What comes back of it: its type for the hertz, and nothing of what is not its
    own. *)
Definition reloaded (tx : Transaction.t) : Transaction.t :=
  {| Transaction.Hash := tx.(Transaction.Hash); Transaction.Type_ := tx.(Transaction.Type_);
     Transaction.From := tx.(Transaction.From); Transaction.To := tx.(Transaction.To);
     Transaction.Value := tx.(Transaction.Value); Transaction.Code := tx.(Transaction.Code);
     Transaction.Abi := tx.(Transaction.Abi); Transaction.Method := tx.(Transaction.Method);
     Transaction.Params := tx.(Transaction.Params); Transaction.Time := tx.(Transaction.Time);
     Transaction.Signature := tx.(Transaction.Signature); Transaction.Hertz := tx.(Transaction.Type_);
     Transaction.Receipt_ := tx.(Transaction.Receipt_); Transaction.Gossip := [];
     Transaction.FromName := ""; Transaction.ToName := "" |}.

Lemma transaction_round_trip now tx : transaction_ok now tx ->
  Transaction.ToTransactionFromJson now (Transaction.MarshalJSON tx) = Ret (reloaded tx).
Proof.
  destruct tx as [h ty fr to v c ab me ps ti sg hz rc go fn tn]. intros [Hty Hv Hti Htx Hps Hrc].
  cbn [Transaction.Type_ Transaction.Value Transaction.Time Transaction.Params Transaction.Receipt_] in *.
  unfold Transaction.ToTransactionFromJson, Transaction.UnmarshalJSON, Transaction.MarshalJSON.
  rewrite jsonMap_JObj. cbv beta iota zeta. unfold string_field, number_field.
  cbn [Transaction.Hash Transaction.Type_ Transaction.From Transaction.To Transaction.Value Transaction.Code
       Transaction.Abi Transaction.Method Transaction.Params Transaction.Time Transaction.Signature
       Transaction.Hertz Transaction.Receipt_ Transaction.Gossip Transaction.FromName Transaction.ToName].
  document. assert (exact ty) by (unfold exact; lia).
  rewrite (stable_map ps Hps), (receipt_interface rc Hrc), !exact_int64, exact_byte by done.
  pose proof (receipt_read rc Hrc) as Hread.
  assert (exists l, Receipt.MarshalJSON rc = JObj l) as [l Hl] by by eexists. rewrite Hl in *. clear Hl.
  cbn [Transaction.empty Transaction.Hash Transaction.Type_ Transaction.From Transaction.To Transaction.Value
       Transaction.Code Transaction.Abi Transaction.Method Transaction.Params Transaction.Time
       Transaction.Signature Transaction.Hertz Transaction.Receipt_ Transaction.Gossip Transaction.FromName
       Transaction.ToName].
  cbn [mbind outcome_bind]. rewrite ?string_back, ?text_back. cbn [mbind outcome_bind].
  rewrite Hread. cbn [mbind outcome_bind].
  assert (match (if negb (v =? 0) then JNum (float64 v) else JNull) with
          | JNull => Ret 0 | JNum z => Ret (int64_of_float z)
          | _ => Err (Msg ("value for field '" +:+ "value" +:+ "' must be a number")) end = Ret v) as ->.
  { destruct (Z.eqb_spec v 0) as [->|]; [done|]. cbn [negb]. by rewrite exact_int64. }
  assert (Transaction.checkTime now ti = Ret ti) as ->.
  { unfold Transaction.checkTime. by rewrite (proj2 (Z.ltb_ge _ _)), (proj2 (Z.ltb_ge ti 0)) by lia. }
  cbn [mbind outcome_bind].
  destruct (String.eqb_spec ab "") as [->|]; [|rewrite andb_false_r]; by destruct ps.
Qed.

(** ** What is signed *)
Section Signed.
Context {CR : Signatures}.

(** The same but for the ABI, the parameters, the hertz and what is not stored. *)
Record same_but_call (a b : Transaction.t) : Prop := {
  same_hash : a.(Transaction.Hash) = b.(Transaction.Hash);
  same_type : a.(Transaction.Type_) = b.(Transaction.Type_);
  same_from : a.(Transaction.From) = b.(Transaction.From);
  same_to : a.(Transaction.To) = b.(Transaction.To);
  same_value : a.(Transaction.Value) = b.(Transaction.Value);
  same_time : a.(Transaction.Time) = b.(Transaction.Time);
  same_signature : a.(Transaction.Signature) = b.(Transaction.Signature);
  (** code and method together: where the one ends and the other starts is free *)
  same_bytes : exists ca cb, hex_Decode a.(Transaction.Code) = Some ca /\ hex_Decode b.(Transaction.Code) = Some cb /\
    ca ++ bytes_of a.(Transaction.Method) = cb ++ bytes_of b.(Transaction.Method)
}.

Lemma hashed_same a b : same_but_call a b -> Transaction.hashed a = Transaction.hashed b.
Proof.
  intros [_ H1 H2 H3 H4 H5 _ (ca & cb & Hca & Hcb & Heq)]. unfold Transaction.hashed, hex_or_err.
  rewrite H1, H2, H3, H4, H5, Hca, Hcb.
  destruct (hex_Decode (Transaction.From b)); [|done]. destruct (hex_Decode (Transaction.To b)); [|done].
  cbn [mbind outcome_bind]. do 2 f_equal. rewrite !app_assoc, <- !(app_assoc _ ca), <- !(app_assoc _ cb).
  by rewrite Heq.
Qed.

Lemma Verify_same a b : same_but_call a b -> a.(Transaction.Type_) = TypeExecuteSmartContract ->
  Transaction.Verify a = Transaction.Verify b.
Proof.
  intros Hs Ht. pose proof (hashed_same a b Hs) as Hh. destruct Hs as [H1 H2 H3 H4 H5 H6 H7 _].
  unfold Transaction.Verify, Transaction.NewHash. rewrite Hh, H1, H3, H4, H7.
  rewrite <- H2, Ht. reflexivity.
Qed.
End Signed.
