(* ===== verification/Store.v ===== *)
(** * Storage

    The badger database and the cache as the node uses them, and the part of
    commons/types that stores records and finds them again. *)
From Stdlib Require Import ZArith Lia.
From stdpp Require Import pretty.
From S2P Require Import Prelude Word Json Ledger.
Import Big.
Open Scope Z_scope.

(** ** The database

    A value is a document or the text of a key.  A transaction of badger reads a
    snapshot and its own writes; committing it fails with a conflict if something
    it read has been written since. *)
Inductive stored := Doc (j : json) | Text (s : string).

Class Badger := {
  DB : Type;
  Txn : Type;
  NewTransaction : DB -> Txn;
  txn_Get : Txn -> string -> Txn * (stored + ledger_error);
  txn_Set : Txn -> string -> stored -> Txn + ledger_error;
  txn_Delete : Txn -> string -> Txn + ledger_error;
  txn_Commit : DB -> Txn -> DB * option ledger_error;
  (** the pairs in the order of their keys *)
  txn_Items : Txn -> list (string * stored)
}.

(** What the node relies on, of what a database, a transaction and its writes and
    reads are seen to be. *)
Class BadgerLaws (B : Badger) := {
  db_view : DB -> string -> option stored;
  txn_base : Txn -> DB;
  txn_writes : Txn -> gmap string (option stored);
  txn_reads : Txn -> gset string;
  begin_law db : let t := NewTransaction db in
    txn_base t = db /\ txn_writes t = ∅ /\ txn_reads t = ∅;
  get_law t k t' r : txn_Get t k = (t', r) ->
    txn_base t' = txn_base t /\ txn_writes t' = txn_writes t /\ txn_reads t ⊆ txn_reads t' /\
    (is_Some (txn_writes t !! k) \/ k ∈ txn_reads t') /\
    match r with
    | inl v => default (db_view (txn_base t) k) (txn_writes t !! k) = Some v
    | inr ErrKeyNotFound => default (db_view (txn_base t) k) (txn_writes t !! k) = None
    | inr _ => True
    end;
  set_law t k v t' : txn_Set t k v = inl t' ->
    txn_base t' = txn_base t /\ txn_writes t' = <[k := Some v]> (txn_writes t) /\ txn_reads t' = txn_reads t;
  delete_law t k t' : txn_Delete t k = inl t' ->
    txn_base t' = txn_base t /\ txn_writes t' = <[k := None]> (txn_writes t) /\ txn_reads t' = txn_reads t;
  commit_law db t db' r : txn_Commit db t = (db', r) ->
    match r with
    | None => (forall k, k ∈ txn_reads t -> db_view db k = db_view (txn_base t) k) /\
              (forall k, db_view db' k = default (db_view db k) (txn_writes t !! k))
    | Some _ => db' = db
    end
}.

(** ** The cache (patrickmn/go-cache)

    An entry lives for a time to live, or for good.  What is cached is a pointer,
    a [loc], to a record, or a value. *)
Abbreviation loc := nat (only parsing).

Inductive entry :=
  (** the transaction of a gossip *)
  | CTransaction (l : loc)
  | CReceipt (l : loc)
  | CGossip (l : loc)
  | CStrings (l : list string)
  | CNode (n : Node.t)
  | CKey (k : string)
  | CAuthentication (hash : string).

Class GoCache := {
  Cache : Type;
  cache_Get : Cache -> Z -> string -> option entry;
  cache_Set : Cache -> Z -> string -> entry -> Z -> Cache;
  cache_Delete : Cache -> string -> Cache;
  (** what has not expired, in any order; no expiration is a time to live of 0 *)
  cache_Items : Cache -> Z -> list (string * entry)
}.

Class GoCacheLaws (C : GoCache) := {
  get_set c now k e ttl : 0 <= ttl -> cache_Get (cache_Set c now k e ttl) now k = Some e;
  get_set_ne c now now' k k' e ttl : k <> k' -> cache_Get (cache_Set c now k e ttl) now' k' = cache_Get c now' k';
  get_delete c now k : cache_Get (cache_Delete c k) now k = None;
  get_delete_ne c now k k' : k <> k' -> cache_Get (cache_Delete c k) now k' = cache_Get c now k'
}.

Definition minute : Z := 60 * 1000000000.
Definition TransactionCacheTTL : Z := 48 * 60 * minute.
Definition ReceiptCacheTTL : Z := 48 * 60 * minute.
Definition GossipCacheTTL : Z := 5 * minute.
Definition AuthenticationCacheTTL : Z := minute.

(** ** Records in the database

    A step of a transaction, which a panic ends. *)
Section Records.
Context {B : Badger}.

Definition TM (A : Type) : Type := Txn -> outcome ledger_error (Txn * A).

#[export] Instance TM_ret : MRet TM := fun A a t => Ret (t, a).
#[export] Instance TM_bind : MBind TM := fun A A' k m t => '(t, a) ← m t; k a t.

(** The error as a value, with the transaction as it was left. *)
Definition Get (k : string) : TM (stored + ledger_error) := fun t =>
  let '(t, r) := txn_Get t k in Ret (t, r).

Definition lift {A} (m : result A) : TM A := fun t => a ← m; Ret (t, a).

(** [txn.Get] and [item.Value]. *)
Definition get_doc (k : string) : TM (json + ledger_error) :=
  r ← Get k;
  mret match r with
       | inl (Doc j) => inl j
       | inl (Text _) => inr errJson
       | inr e => inr e
       end.

Definition caught {A} (m : result A) : TM (A + ledger_error) := fun t =>
  match m with Ret a => Ret (t, inl a) | Err e => Ret (t, inr e) | Panic => Panic end.

(** A record read by its key. *)
Definition load {A} (k : string) (of_json : json -> result A) : TM (A + ledger_error) :=
  r ← get_doc k;
  match r with
  | inl j => caught (of_json j)
  | inr e => mret (inr e)
  end.

Definition ToAccountByAddress (address : string) : TM (Account.t + ledger_error) :=
  load (Account.Key_of address) Account.ToAccountFromJson.

Definition ToReceiptFromKey (k : string) : TM (Receipt.t + ledger_error) :=
  load k Receipt.ToReceiptFromJson.

Definition ToGossipByTransactionHash (now : Z) (hash : string) : TM (Gossip.t + ledger_error) :=
  load (Gossip.Key_of hash) (Gossip.ToGossipFromJson now).

(** The transaction that deployed the contract of an account. *)
Definition ToTransactionByAddress (now : Z) (address : string) : TM (Transaction.t + ledger_error) :=
  r ← ToAccountByAddress address;
  match r with
  | inr e => mret (inr e)
  | inl account =>
      if String.eqb account.(Account.TransactionHash) "" then mret (inr ErrNotFound)
      else load (Transaction.Key_of account.(Account.TransactionHash)) (Transaction.ToTransactionFromJson now)
  end.

(** What is shown of a transaction but not stored with it. *)
Definition setTransients (now : Z) (this : Transaction.t) : TM Transaction.t :=
  from ← ToAccountByAddress this.(Transaction.From);
  to ← ToAccountByAddress this.(Transaction.To);
  receipt ← ToReceiptFromKey (Receipt.Key_of this.(Transaction.Hash));
  gossip ← ToGossipByTransactionHash now this.(Transaction.Hash);
  let name r old := match r with inl a => a.(Account.Name) | inr _ => old end in
  mret {| Transaction.Hash := this.(Transaction.Hash); Transaction.Type_ := this.(Transaction.Type_);
    Transaction.From := this.(Transaction.From); Transaction.To := this.(Transaction.To);
    Transaction.Value := this.(Transaction.Value); Transaction.Code := this.(Transaction.Code);
    Transaction.Abi := match hex_Decode this.(Transaction.Abi) with
                       | Some b => string_of b | None => this.(Transaction.Abi) end;
    Transaction.Method := this.(Transaction.Method); Transaction.Params := this.(Transaction.Params);
    Transaction.Time := this.(Transaction.Time); Transaction.Signature := this.(Transaction.Signature);
    Transaction.Hertz := this.(Transaction.Hertz);
    Transaction.Receipt_ := match receipt with inl r => r | inr _ => this.(Transaction.Receipt_) end;
    Transaction.Gossip := match gossip with inl g => g.(Gossip.Rumors) | inr _ => this.(Transaction.Gossip) end;
    Transaction.FromName := name from this.(Transaction.FromName);
    Transaction.ToName := name to this.(Transaction.ToName) |}.

Definition ToTransactionByKey (now : Z) (k : string) : TM (Transaction.t + ledger_error) :=
  r ← load k (Transaction.ToTransactionFromJson now);
  match r with
  | inl tx => tx ← setTransients now tx; mret (inl tx)
  | inr e => mret (inr e)
  end.

Definition ToTransactionByHash (now : Z) (hash : string) : TM (Transaction.t + ledger_error) :=
  ToTransactionByKey now (Transaction.Key_of hash).

(** *** Writing: the first error ends it *)
Fixpoint set_all (l : list (string * stored)) : TM (option ledger_error) := fun t =>
  match l with
  | [] => Ret (t, None)
  | (k, v) :: l =>
      match txn_Set t k v with
      | inl t => set_all l t
      | inr e => Ret (t, Some e)
      end
  end.

Definition transaction_records (this : Transaction.t) : list (string * stored) :=
  let key := Transaction.Key this in
  [(key, Doc (Transaction.MarshalJSON this)); (Transaction.TypeKey this, Text key);
   (Transaction.TimeKey this, Text key); (Transaction.FromKey this, Text key);
   (Transaction.ToKey this, Text key)].

Definition Transaction_Persist (this : Transaction.t) : TM (option ledger_error) :=
  set_all (transaction_records this).

Definition Account_Persist (this : Account.t) : TM (option ledger_error) := fun t =>
  j ← or_panic (Account.MarshalJSON this);
  set_all [(Account.Key this, Doc j); (Account.NameKey this, Text (Account.Key this))] t.

Definition Receipt_Persist (this : Receipt.t) : TM (option ledger_error) :=
  set_all [(Receipt.Key this, Doc (Receipt.MarshalJSON this))].

Definition Gossip_Persist (this : Gossip.t) : TM (option ledger_error) :=
  set_all [(Gossip.Key this, Doc (Gossip.MarshalJSON this))].

End Records.
