(* ===== verification/Dapos.v ===== *)
(** * Consensus and execution of transactions

    dapos/dapos_handshake.go and the parts of dapos_api.go and
    dapos_transport_grpc.go that change the node.  A handler is a step of the
    monad [NM] over the [node]: the database, the cache, the records its pointers
    point to, the channels and the queue.  [None] is a panic. *)
From Stdlib Require Import ZArith Lia.
From S2P Require Import Prelude Queue Word Hex Json Ledger Store.
Import Big.
Open Scope Z_scope.

(** ** What the node works with *)

(** What a call to a peer gives. *)
Inductive peer_result := NoConnection | CallFailed | Reply (j : json).

(** The account and the configuration of the node, and what it reads from outside:
    the clock, the random numbers and the peers, each time anew. *)
Class NodeEnv := {
  MyAddress : string;
  MyPrivateKey : string;
  ThisNodeAddress : string;
  IsBookkeeper : bool;
  Now : nat -> Z;
  Intn : nat -> nat -> nat;
  Intn_lt t n : (0 < n)%nat -> (Intn t n < n)%nat;
  Peer : nat -> Node.t -> json -> peer_result
}.

(** dvm_result.go: what [executeTransaction] reads of a result. *)
Record DVMResult := {
  ContractAddress : AddressBytes;
  StateObjects : list Account.t;
  ABI : string;
  ContractMethod : string;
  ContractMethodExecResult : list Z;
  ContractMethodExecError : option ledger_error
}.

(** The machine as dapos calls it: it works on the database too. *)
Class DVMService (B : Badger) := {
  DeploySmartContract : DB -> Transaction.t -> DB * (DVMResult + ledger_error);
  ExecuteSmartContract : DB -> Transaction.t -> DB * (DVMResult * option ledger_error);
  (** the ABI of a contract: parameters in, results out; the text of an ABI may be
      no ABI, and may not have the method *)
  GetConvertedParams : Transaction.t -> list json + ledger_error;
  method_outputs : string -> string -> option (list Z -> list json + ledger_error) + ledger_error
}.

(** A queued gossip: the pointer, and the fields that never change. *)
Record queued := { ptr : loc; qhash : string; qtime : Z }.

(** ** Two thirds of the delegates

    [float32(rumors) >= float32(delegates)*2/3]: up to 2^22 delegates a [float32]
    tells thirds apart, as DaposGossip.v shows. *)
Definition two_thirds (rumors delegates : nat) : bool := (2 * delegates <=? 3 * rumors)%nat.

Section Node.
Context {B : Badger} {C : GoCache} {E : NodeEnv} {V : DVMService B} {CR : Signatures} {GS : GoSort}.

Record node := {
  database : DB;
  cache : Cache;
  receipts : gmap loc Receipt.t;
  gossips : gmap loc Gossip.t;
  next : loc;
  ticks : nat;
  (** the channels, oldest first *)
  gossipChan : list loc;
  timoutChan : nat;
  gossipQueue : HashedQueue queued;
  (** the sleeping timers, in milliseconds *)
  timers : list Z
}.

Definition NM (A : Type) : Type := node -> option (node * A).
#[export] Instance NM_ret : MRet NM := fun A a s => Some (s, a).
#[export] Instance NM_bind : MBind NM := fun A A' k m s => '(s, a) ← m s; k a s.

Definition gets {A} (f : node -> A) : NM A := fun s => Some (s, f s).
Definition panic {A} : NM A := fun _ => None.
Definition of_opt {A} (m : option A) : NM A := fun s => a ← m; Some (s, a).
Definition set_database (d : DB) : NM unit := fun s => Some
  ({| database := d; cache := s.(cache); receipts := s.(receipts); gossips := s.(gossips); next := s.(next);
      ticks := s.(ticks); gossipChan := s.(gossipChan); timoutChan := s.(timoutChan);
      gossipQueue := s.(gossipQueue); timers := s.(timers) |}, tt).
Definition set_cache (c : Cache) : NM unit := fun s => Some
  ({| database := s.(database); cache := c; receipts := s.(receipts); gossips := s.(gossips); next := s.(next);
      ticks := s.(ticks); gossipChan := s.(gossipChan); timoutChan := s.(timoutChan);
      gossipQueue := s.(gossipQueue); timers := s.(timers) |}, tt).
Definition set_heap (r : gmap loc Receipt.t) (g : gmap loc Gossip.t) (n : loc) : NM unit := fun s => Some
  ({| database := s.(database); cache := s.(cache); receipts := r; gossips := g; next := n;
      ticks := s.(ticks); gossipChan := s.(gossipChan); timoutChan := s.(timoutChan);
      gossipQueue := s.(gossipQueue); timers := s.(timers) |}, tt).
Definition set_ticks (n : nat) : NM unit := fun s => Some
  ({| database := s.(database); cache := s.(cache); receipts := s.(receipts); gossips := s.(gossips);
      next := s.(next); ticks := n; gossipChan := s.(gossipChan); timoutChan := s.(timoutChan);
      gossipQueue := s.(gossipQueue); timers := s.(timers) |}, tt).
Definition set_channels (c : list loc) (n : nat) (q : HashedQueue queued) (t : list Z) : NM unit := fun s => Some
  ({| database := s.(database); cache := s.(cache); receipts := s.(receipts); gossips := s.(gossips);
      next := s.(next); ticks := s.(ticks); gossipChan := c; timoutChan := n; gossipQueue := q; timers := t |}, tt).

(** [time.Now()] *)
Definition time_Now : NM Z := n ← gets ticks; set_ticks (S n);; mret (Now n).

Definition new_receipt (r : Receipt.t) : NM loc :=
  s ← gets id; set_heap (<[s.(next) := r]> s.(receipts)) s.(gossips) (S s.(next));; mret s.(next).
Definition new_gossip (g : Gossip.t) : NM loc :=
  s ← gets id; set_heap s.(receipts) (<[s.(next) := g]> s.(gossips)) (S s.(next));; mret s.(next).
Definition receipt_at (l : loc) : NM Receipt.t := s ← gets receipts; of_opt (s !! l).
Definition gossip_at (l : loc) : NM Gossip.t := s ← gets gossips; of_opt (s !! l).
Definition put_receipt (l : loc) (r : Receipt.t) : NM unit :=
  s ← gets id; set_heap (<[l := r]> s.(receipts)) s.(gossips) s.(next).
Definition put_gossip (l : loc) (g : Gossip.t) : NM unit :=
  s ← gets id; set_heap s.(receipts) (<[l := g]> s.(gossips)) s.(next).

Definition cache_get (k : string) : NM (option entry) :=
  now ← time_Now; c ← gets cache; mret (cache_Get c now k).
Definition cache_put (k : string) (e : entry) (ttl : Z) : NM unit :=
  now ← time_Now; c ← gets cache; set_cache (cache_Set c now k e ttl).

Definition send_gossip (l : loc) : NM unit :=
  s ← gets id; set_channels (s.(gossipChan) ++ [l]) s.(timoutChan) s.(gossipQueue) s.(timers).

(** A step of a database transaction. *)
Definition on_txn {A} (m : TM A) (t : Txn) : NM (Txn * A) :=
  match m t with Ret r => mret r | _ => panic end.

(** ** Receipts and gossips in the cache *)
Definition Receipt_Cache (l : loc) : NM unit :=
  r ← receipt_at l; cache_put (Receipt.Key r) (CReceipt l) ReceiptCacheTTL.
Definition Gossip_Cache (l : loc) : NM unit :=
  g ← gossip_at l; cache_put (Gossip.Key g) (CGossip l) GossipCacheTTL.

Definition ToReceiptFromCache (hash : string) : NM (option loc) :=
  e ← cache_get (Receipt.Key_of hash);
  match e with None => mret None | Some (CReceipt l) => mret (Some l) | Some _ => panic end.
Definition ToGossipFromCache (hash : string) : NM (option loc) :=
  e ← cache_get (Gossip.Key_of hash);
  match e with None => mret None | Some (CGossip l) => mret (Some l) | Some _ => panic end.

(** The receipt is put into the cached transaction. *)
Definition ToTransactionFromCache (hash : string) : NM (option loc) :=
  e ← cache_get (Transaction.Key_of hash);
  match e with
  | None => mret None
  | Some (CTransaction l) =>
      g ← gossip_at l;
      r ← ToReceiptFromCache g.(Gossip.Transaction).(Transaction.Hash);
      match r with
      | None => mret (Some l)
      | Some lr =>
          receipt ← receipt_at lr;
          put_gossip l (Gossip.set_Transaction g (Transaction.set_Receipt g.(Gossip.Transaction) receipt));;
          mret (Some l)
      end
  | Some _ => panic
  end.

Definition RumorKey (hash : string) : string := "cache-rumor-" +:+ hash.

Definition HaveSent (hash address : string) : NM bool :=
  e ← cache_get (RumorKey hash);
  match e with
  | None => mret false
  | Some (CStrings l) => mret (existsb (String.eqb address) l)
  | Some _ => panic
  end.

Definition CacheSentDelegate (hash address : string) : NM unit :=
  e ← cache_get (RumorKey hash);
  match e with
  | None =>
      cache_put (RumorKey hash) (CStrings [address]) GossipCacheTTL;;
      cache_put (RumorKey hash) (CStrings [address]) GossipCacheTTL
  | Some (CStrings l) => cache_put (RumorKey hash) (CStrings (l ++ [address])) GossipCacheTTL
  | Some _ => panic
  end.

(** [ToNodesByTypeFromCache]: every item whose key is among the values of the
    items with the prefix, once for each. *)
Definition delegate_prefix : string := "key-node-type-Delegate".
Fixpoint keys_of (l : list (string * entry)) : option (list string) :=
  match l with
  | [] => Some []
  | (k, e) :: l =>
      ks ← keys_of l;
      if String.prefix delegate_prefix k
      then match e with CKey k' => Some (k' :: ks) | _ => None end else Some ks
  end.
Fixpoint nodes_of (keys : list string) (l : list (string * entry)) : option (list Node.t) :=
  match l with
  | [] => Some []
  | (k, e) :: l =>
      ns ← nodes_of keys l;
      match filter (fun k' => k = k') keys with
      | [] => Some ns
      | hits => match e with CNode n => Some (map (fun _ => n) hits ++ ns) | _ => None end
      end
  end.
Definition ToNodesByTypeFromCache : NM (list Node.t) :=
  now ← time_Now; c ← gets cache;
  keys ← of_opt (keys_of (cache_Items c now));
  now ← time_Now;
  of_opt (nodes_of keys (cache_Items c now)).

(** ** Talking to a peer (dapos_transport_grpc.go) *)

(** An unreachable node is cached as unavailable; the database transaction it is
    written in is discarded. *)
Definition peerGossipGrpc (n : Node.t) (l : loc) : NM (option ledger_error) :=
  gossip ← gossip_at l;
  k ← gets ticks; set_ticks (S k);;
  match Peer k n (Gossip.MarshalJSON gossip) with
  | NoConnection => mret (Some (Msg "cannot dial"))
  | CallFailed =>
      now ← time_Now;
      let n := Node.set_Status n StatusNodeUnavailable now in
      cache_put (Node.Key n) (CNode n) 0;;
      cache_put (Node.TypeKey n) (CKey (Node.Key n)) 0;;
      mret (Some (Msg "cannot connect"))
  | Reply j =>
      now ← time_Now;
      match Gossip.ToGossipFromJson now j with
      | Panic => panic
      | Err e => mret (Some e)
      | Ret _ => CacheSentDelegate gossip.(Gossip.Transaction).(Transaction.Hash) n.(Node.Address);; mret None
      end
  end.

(** ** dapos_handshake.go *)

Fixpoint each {A} (l : list A) (f : A -> NM unit) : NM unit :=
  match l with [] => mret tt | x :: l => f x;; each l f end.

Definition cacheOnFirstReceive (l : loc) : NM unit :=
  gossip ← gossip_at l;
  let hash := gossip.(Gossip.Transaction).(Transaction.Hash) in
  now ← time_Now;
  receipt ← new_receipt (Receipt.NewReceipt now hash);
  Receipt_Cache receipt;;
  Gossip_Cache l;;
  cache_put (Transaction.Key_of hash) (CTransaction l) TransactionCacheTTL;;
  delegateNodes ← ToNodesByTypeFromCache;
  each delegateNodes (fun n =>
    haveSent ← HaveSent hash n.(Node.Address);
    if negb haveSent && negb (String.eqb n.(Node.Address) ThisNodeAddress)
    then peerGossipGrpc n l;; mret tt
    else mret tt).

(** The node's own rumor; a key that cannot sign is a nil pointer. *)
Definition my_rumor (hash : string) : NM Rumor.t :=
  now ← time_Now; of_opt (Rumor.NewRumor now MyPrivateKey MyAddress hash).

(** A response: its status and the text for people. *)
Definition response : Type := string * string.

Definition error_text (e : ledger_error) : string :=
  match e with
  | Msg s => s
  | ErrNotFound => "not found"
  | ErrInvalidRequest => "invalid request"
  | ErrInvalidRequestPage => "invalid request Page"
  | ErrInvalidRequestPageSize => "invalid request Page Size"
  | ErrInvalidRequestStartingHash => "invalid request Starting Hash"
  | ErrInvalidRequestHash => "invalid request Hash"
  | ErrKeyNotFound => "Key not found"
  | ErrConflict => "Transaction Conflict. Please retry"
  | _ => "error"
  end.

Definition startGossiping (transaction : Transaction.t) : NM response :=
  db ← gets database;
  let txn := NewTransaction db in
  match Transaction.Verify transaction with
  | Panic => panic
  | Err e => mret (StatusInvalidTransaction, error_text e)
  | Ret _ =>
      now ← time_Now;
      if TxReceiveTimeout <? i64 (ToMilliSeconds now - transaction.(Transaction.Time))
      then mret (StatusTransactionTimeOut, "Transaction was received later than 3 second limit")
      else
        match (txn_Get txn (Transaction.Key transaction)).2 with
        | inl _ => mret (StatusDuplicateTransaction, "Duplicate transaction")
        | inr ErrKeyNotFound =>
            cached ← ToTransactionFromCache transaction.(Transaction.Hash);
            match cached with
            | Some _ => mret (StatusAlreadyProcessingTransaction, "Transaction is already being processed")
            | None =>
                rumor ← my_rumor transaction.(Transaction.Hash);
                l ← new_gossip (Gossip.set_Rumors (Gossip.NewGossip transaction) [rumor]);
                cacheOnFirstReceive l;;
                send_gossip l;;
                mret (StatusPending, "Pending")
            end
        | inr e => mret (StatusInternalError, error_text e)
        end
  end.

(** The rumors of a peer that our gossip does not have and that verify; and
    whether we had the last of them already. *)
Fixpoint take_rumors (rumors : list Rumor.t) (ours : Gossip.t) (hasAll : bool) : option (Gossip.t * bool) :=
  match rumors with
  | [] => Some (ours, hasAll)
  | rumor :: rumors =>
      let hasAll := Gossip.ContainsRumor ours rumor.(Rumor.Address) in
      ours ← (if Gossip.ContainsRumor ours rumor.(Rumor.Address) then Some ours
              else ok ← Rumor.Verify rumor;
                   Some (if (ok : bool) then Gossip.set_Rumors ours (ours.(Gossip.Rumors) ++ [rumor]) else ours));
      take_rumors rumors ours hasAll
  end.

(** The gossip to go on with, an error, and whether it is news. *)
Definition synchronizeGossip (l : loc) : NM (loc * option ledger_error * bool) :=
  gossip ← gossip_at l;
  let hash := gossip.(Gossip.Transaction).(Transaction.Hash) in
  ours ← ToGossipFromCache hash;
  '(ls, hasAll) ← (match ours with
                   | None => mret (l, false)
                   | Some lo =>
                       ourGossip ← gossip_at lo;
                       '(g, hasAll) ← of_opt (take_rumors gossip.(Gossip.Rumors) ourGossip false);
                       put_gossip lo g;;
                       mret (lo, hasAll)
                   end);
  synchronized ← gossip_at ls;
  if Gossip.ContainsRumor synchronized MyAddress then mret (ls, None, negb hasAll)
  else
    match Transaction.Verify gossip.(Gossip.Transaction) with
    | Panic => panic
    | Err e => mret (ls, Some e, true)
    | Ret _ =>
        rumor ← my_rumor hash;
        put_gossip ls (Gossip.set_Rumors synchronized (synchronized.(Gossip.Rumors) ++ [rumor]));;
        cacheOnFirstReceive ls;;
        mret (ls, None, negb hasAll)
    end.

(** What a peer calls; the reply is the synchronized gossip. *)
Definition GossipGrpc (payload : json) : NM (json + ledger_error) :=
  now ← time_Now;
  match Gossip.ToGossipFromJson now payload with
  | Panic => panic
  | Err e => mret (inr e)
  | Ret gossip =>
      l ← new_gossip gossip;
      '(ls, err, addToChan) ← synchronizeGossip l;
      match err with
      | Some e => mret (inr e)
      | None =>
          (if addToChan : bool then send_gossip l else mret tt);;
          g ← gossip_at ls; mret (inl (Gossip.MarshalJSON g))
      end
  end.

Definition updateReceiptStatus (hash status : string) : NM unit :=
  r ← ToReceiptFromCache hash;
  match r with
  | None => mret tt
  | Some l => r ← receipt_at l; put_receipt l (Receipt.set_Status r status);; Receipt_Cache l
  end.

Fixpoint candidates (hash : string) (nodes : list Node.t) : NM (list Node.t) :=
  match nodes with
  | [] => mret []
  | n :: nodes =>
      haveSent ← HaveSent hash n.(Node.Address);
      now ← time_Now;
      let skip := String.eqb n.(Node.Address) ThisNodeAddress || haveSent || negb (Node.IsAvailable now n) in
      rest ← candidates hash nodes;
      mret (if skip then rest else n :: rest)
  end.

Definition getRandomDelegate (hash : string) (delegateNodes : list Node.t) : NM (option Node.t) :=
  delegatesNotRumored ← candidates hash delegateNodes;
  match delegatesNotRumored with
  | [] => mret None
  | _ => k ← gets ticks; set_ticks (S k);;
         mret (delegatesNotRumored !! Intn k (length delegatesNotRumored))
  end.

Definition push_queue (l : loc) (g : Gossip.t) : NM unit :=
  let tx := g.(Gossip.Transaction) in
  let item := {| ptr := l; qhash := tx.(Transaction.Hash); qtime := tx.(Transaction.Time) |} in
  s ← gets id;
  q ← of_opt (GQ.Push qhash qtime s.(gossipQueue) item);
  set_channels s.(gossipChan) s.(timoutChan) q s.(timers).

(** How long the timer of a transaction sleeps; one from the future waits longer. *)
Definition timeout_of (now time : Z) (delegates : nat) : Z :=
  let delta := i64 (time - ToMilliSeconds now) in
  let total := GossipTimeout * Z.of_nat delegates + TxReceiveTimeout in
  if 0 <? delta then delta + total else total.

Definition start_timer (ms : Z) : NM unit :=
  s ← gets id; set_channels s.(gossipChan) s.(timoutChan) s.(gossipQueue) (s.(timers) ++ [ms]).

(** What the worker does with one gossip. *)
Definition gossip_turn (l : loc) : NM unit :=
  delegateNodes ← ToNodesByTypeFromCache;
  gossip ← gossip_at l;
  let hash := gossip.(Gossip.Transaction).(Transaction.Hash) in
  valid ← (if (1 <? length gossip.(Gossip.Rumors))%nat then
             now ← time_Now;
             '(sorted, valid) ← of_opt (Rumor.ValidateTimeDelta now gossip.(Gossip.Rumors));
             put_gossip l (Gossip.set_Rumors gossip sorted);; mret valid
           else mret true);
  if negb (valid : bool) then updateReceiptStatus hash StatusGossipingTimedOut
  else
    gossip ← gossip_at l;
    let rumors := length gossip.(Gossip.Rumors) in
    let delegates := length delegateNodes in
    if two_thirds rumors delegates then
      s ← gets id;
      if GQ.Exists s.(gossipQueue) hash then mret tt
      else
        push_queue l gossip;;
        now ← time_Now;
        start_timer (timeout_of now gossip.(Gossip.Transaction).(Transaction.Time) delegates)
    else if (rumors =? delegates)%nat then mret tt
    else
      n ← getRandomDelegate hash delegateNodes;
      match n with
      | None => Gossip_Cache l;; updateReceiptStatus hash StatusCouldNotReachConsensus
      | Some n =>
          err ← peerGossipGrpc n l;
          match err with Some _ => send_gossip l | None => mret tt end
      end.

(** [gossipWorker] takes the oldest gossip of the channel, if there is one. *)
Definition gossipWorker : NM unit :=
  s ← gets id;
  match s.(gossipChan) with
  | [] => mret tt
  | l :: ls => set_channels ls s.(timoutChan) s.(gossipQueue) s.(timers);; gossip_turn l
  end.

(** ** Execution *)
Definition with_receipt (l : loc) (f : Receipt.t -> Receipt.t) : NM unit :=
  r ← receipt_at l; put_receipt l (f r).

(** [receipt.Status = StatusInternalError; ...; receipt.Cache(...); return] *)
Definition internal_error (receipt : loc) (e : ledger_error) : NM unit :=
  with_receipt receipt (fun r => Receipt.set_HumanReadableStatus (Receipt.set_Status r StatusInternalError) (error_text e));;
  Receipt_Cache receipt.

(** A receipt stored in a transaction of its own; errors are logged. *)
Definition store_receipt (l : loc) : NM unit :=
  r ← receipt_at l; db ← gets database;
  let t := NewTransaction db in
  let t := match txn_Set t (Receipt.Key r) (Doc (Receipt.MarshalJSON r)) with inl t => t | inr _ => t end in
  set_database (txn_Commit db t).1.

Definition SetStatusWithNewTransaction (l : loc) (status : string) : NM unit :=
  with_receipt l (fun r => Receipt.set_Status r status);; store_receipt l.

Definition SetInternalErrorWithNewTransaction (l : loc) (e : ledger_error) : NM unit :=
  with_receipt l (fun r => Receipt.set_HumanReadableStatus (Receipt.set_Status r StatusInternalError) (error_text e));;
  store_receipt l.

(** An account of the ledger, or a new one. *)
Definition find_account (now : Z) (address : string) (t : Txn) : NM (Txn * (Account.t + ledger_error)) :=
  '(t, r) ← on_txn (ToAccountByAddress address) t;
  mret (t, match r with
           | inl a => inl a
           | inr ErrKeyNotFound =>
               inl {| Account.Address := address; Account.PrivateKey := ""; Account.Name := "";
                      Account.Balance := Some 0; Account.TransactionHash := ""; Account.Updated := zero_time;
                      Account.Created := now; Account.Nonce := 0 |}
           | inr e => inr e
           end).

(** [strings.TrimSpace] of the ABI is empty. *)
Definition blank_abi (abi : string) : bool := blank (bytes_of abi).

Definition processDVMResult (receipt : loc) (r : DVMResult) : NM (option ledger_error) :=
  match r.(ContractMethodExecError) with
  | Some e => mret (Some e)
  | None =>
      if blank_abi r.(ABI) then mret None
      else
        match method_outputs (string_of (hex_DecodeString (bytes_of r.(ABI))).1) r.(ContractMethod) with
        | inr e => mret (Some e)
        | inl None => mret None
        | inl (Some unpack) =>
            match r.(ContractMethodExecResult) with
            | [] => mret None
            | out =>
                match unpack out with
                | inl values =>
                    with_receipt receipt (fun r => Receipt.set_Contract r r.(Receipt.ContractAddress) values);;
                    mret None
                | inr e => mret (Some e)
                end
            end
        end
  end.

(** The transaction is a pointer into the gossip. *)
Definition put_transaction (l : loc) (tx : Transaction.t) : NM unit :=
  g ← gossip_at l; put_gossip l (Gossip.set_Transaction g tx).

(** One case of the switch: go on with the accounts, or stop, what there is to
    report being reported. *)
Inductive switched :=
  | Go_on (fromAccount toAccount : Account.t) (t : Txn)
  | Stop.

(** The balances are taken as [int64], whose arithmetic wraps around. *)
Definition transfer_tokens (transaction : Transaction.t) (receipt : loc) (from to : Account.t) (t : Txn) : NM switched :=
  fb ← of_opt from.(Account.Balance);
  let fb := i64 fb in
  if fb <? transaction.(Transaction.Value)
  then SetStatusWithNewTransaction receipt StatusInsufficientTokens;; mret Stop
  else
    tb ← of_opt to.(Account.Balance);
    mret (Go_on (Account.set_Balance from (Some (i64 (fb - transaction.(Transaction.Value)))))
                (Account.set_Balance to (Some (i64 (i64 tb + transaction.(Transaction.Value))))) t).

(** The first state object with the address of the contract is stored, in the
    order the map of objects is gone through; an error is dropped. *)
Fixpoint store_contract (address hash : string) (l : list Account.t) (t : Txn) : NM Txn :=
  match l with
  | [] => mret t
  | a :: l =>
      if String.eqb a.(Account.Address) address then
        '(t, _) ← on_txn (Account_Persist (Account.set_TransactionHash a hash)) t; mret t
      else store_contract address hash l t
  end.

Definition deploy_contract (l : loc) (transaction : Transaction.t) (receipt : loc) (from to : Account.t) (t : Txn) : NM switched :=
  let transaction := Transaction.set_Call transaction
    (hex_EncodeToString (bytes_of transaction.(Transaction.Abi))) transaction.(Transaction.Params) in
  put_transaction l transaction;;
  db ← gets database;
  let '(db, r) := DeploySmartContract db transaction in
  set_database db;;
  match r with
  | inr e => internal_error receipt e;; mret Stop
  | inl dvmResult =>
      err ← processDVMResult receipt dvmResult;
      match err with
      | Some e => internal_error receipt e;; mret Stop
      | None =>
          let address := hex_EncodeToString (be_bytes 20 dvmResult.(ContractAddress)) in
          t ← store_contract address transaction.(Transaction.Hash) dvmResult.(StateObjects) t;
          with_receipt receipt (fun r => Receipt.set_Contract r address r.(Receipt.ContractResult));;
          mret (Go_on from to t)
      end
  end.

(** An error of the machine is in its result as well. *)
Definition execute_contract (l : loc) (transaction : Transaction.t) (receipt : loc) (from to : Account.t) (t : Txn) : NM switched :=
  now ← time_Now;
  '(t, contractTx) ← on_txn (ToTransactionByAddress now transaction.(Transaction.To)) t;
  match contractTx with
  | inr e => internal_error receipt e;; mret Stop
  | inl contractTx =>
      let transaction := Transaction.set_Call transaction contractTx.(Transaction.Abi) transaction.(Transaction.Params) in
      match GetConvertedParams transaction with
      | inr e =>
          put_transaction l (Transaction.set_Call transaction contractTx.(Transaction.Abi) []);;
          internal_error receipt e;; mret Stop
      | inl params =>
          let transaction := Transaction.set_Call transaction contractTx.(Transaction.Abi) params in
          put_transaction l transaction;;
          db ← gets database;
          let '(db, (dvmResult, _)) := ExecuteSmartContract db transaction in
          set_database db;;
          err ← processDVMResult receipt dvmResult;
          match err with
          | Some e => internal_error receipt e;; mret Stop
          | None =>
              with_receipt receipt (fun r => Receipt.set_Contract r transaction.(Transaction.To) r.(Receipt.ContractResult));;
              mret (Go_on from to t)
          end
      end
  end.

(** The writes of an execution: the first that fails makes the receipt say so, and
    nothing is committed. *)
Definition persist_or_fail (receipt : loc) (m : TM (option ledger_error)) (t : Txn) : NM (option Txn) :=
  '(t, err) ← on_txn m t;
  match err with
  | None => mret (Some t)
  | Some e => internal_error receipt e;; mret None
  end.

(** From the records to the commit. A conflict is taken for another execution of
    the same transaction. *)
Definition commit_transaction (l receipt : loc) (now : Z) (from to : Account.t) (t : Txn) : NM unit :=
  g ← gossip_at l;
  t1 ← persist_or_fail receipt (Transaction_Persist g.(Gossip.Transaction)) t;
  match t1 with None => mret tt | Some t =>
  t2 ← persist_or_fail receipt (Account_Persist (Account.set_Updated from now)) t;
  match t2 with None => mret tt | Some t =>
  t3 ← persist_or_fail receipt (Account_Persist (Account.set_Updated to now)) t;
  match t3 with None => mret tt | Some t =>
  with_receipt receipt (fun r => Receipt.set_Status r StatusOk);;
  Receipt_Cache receipt;;
  r ← receipt_at receipt;
  t4 ← persist_or_fail receipt (Receipt_Persist r) t;
  match t4 with None => mret tt | Some t =>
  Gossip_Cache l;;
  g ← gossip_at l;
  t5 ← persist_or_fail receipt (Gossip_Persist g) t;
  match t5 with None => mret tt | Some t =>
  db ← gets database;
  let '(db, err) := txn_Commit db t in
  set_database db;;
  match err with
  | None | Some ErrConflict => mret tt
  | Some e => internal_error receipt e
  end end end end end end.

(** [executeTransaction(&gossip.Transaction, receipt, gossip)], which runs with the
    transaction's hash locked. *)
Definition executeTransaction (l receipt : loc) : NM unit :=
  gossip ← gossip_at l;
  let transaction := gossip.(Gossip.Transaction) in
  db ← gets database;
  let '(t, seen) := txn_Get (NewTransaction db) (Transaction.Key transaction) in
  match seen with
  | inl _ => mret tt
  | inr _ =>
      now ← time_Now;
      '(t, fromAccount) ← find_account now transaction.(Transaction.From) t;
      match fromAccount with
      | inr e => internal_error receipt e
      | inl fromAccount =>
          '(t, toAccount) ← find_account now transaction.(Transaction.To) t;
          match toAccount with
          | inr e => SetInternalErrorWithNewTransaction receipt e
          | inl toAccount =>
              let tipe := transaction.(Transaction.Type_) in
              s ← (if tipe =? TypeTransferTokens then transfer_tokens transaction receipt fromAccount toAccount t
                   else if tipe =? TypeDeploySmartContract then deploy_contract l transaction receipt fromAccount toAccount t
                   else if tipe =? TypeExecuteSmartContract then execute_contract l transaction receipt fromAccount toAccount t
                   else SetStatusWithNewTransaction receipt StatusInvalidTransaction;; mret Stop);
              match s with
              | Stop => mret tt
              | Go_on from to t => commit_transaction l receipt now from to t
              end
          end
      end
  end.

(** [doWork]: the oldest queued transaction, unless its receipt has expired or it
    came too late. *)
Definition doWork : NM unit :=
  s ← gets id;
  available ← of_opt (GQ.HasAvailable s.(gossipQueue));
  if negb (available : bool) then mret tt
  else
    '(item, q) ← of_opt (GQ.Pop qhash s.(gossipQueue));
    set_channels s.(gossipChan) s.(timoutChan) q s.(timers);;
    gossip ← gossip_at item.(ptr);
    let tx := gossip.(Gossip.Transaction) in
    receipt ← ToReceiptFromCache tx.(Transaction.Hash);
    match receipt with
    | None =>
        now ← time_Now;
        l ← new_receipt (Receipt.set_Status (Receipt.NewReceipt now tx.(Transaction.Hash)) StatusReceiptNotFound);
        Receipt_Cache l
    | Some receipt =>
        first ← of_opt (head gossip.(Gossip.Rumors));
        if TxReceiveTimeout <=? i64 (first.(Rumor.Time) - tx.(Transaction.Time)) then
          now ← time_Now;
          l ← new_receipt (Receipt.set_Status (Receipt.NewReceipt now tx.(Transaction.Hash)) StatusTransactionTimeOut);
          Receipt_Cache l
        else
          now ← time_Now;
          with_receipt receipt (fun r => Receipt.set_Created r now);;
          if IsBookkeeper then executeTransaction item.(ptr) receipt else mret tt
    end.

(** [transactionWorker] works whenever a timer has fired. *)
Definition transactionWorker : NM unit :=
  s ← gets id;
  match s.(timoutChan) with
  | O => mret tt
  | S n => set_channels s.(gossipChan) n s.(gossipQueue) s.(timers);; doWork
  end.

(** A timer that has slept its time. *)
Definition timer_fires (i : nat) : NM unit :=
  s ← gets id;
  match s.(timers) !! i with
  | None => mret tt
  | Some _ => set_channels s.(gossipChan) (S s.(timoutChan)) s.(gossipQueue) (delete i s.(timers))
  end.

End Node.
