(* ===== verification/DaposSteps.v ===== *)
(** * Reasoning about the node

    [nwp m s Q]: the handler [m] run in [s] does not panic and gives a node and a
    result that satisfy [Q].  What the smaller steps do, and what an execution
    reads and writes. *)
From Stdlib Require Import ZArith Lia.
From stdpp Require Import pretty.
From S2P Require Import Prelude Queue Word Hex Json Ledger LedgerFacts Store Dapos.
Import Big.
Open Scope Z_scope.

Section Steps.
Context {B : Badger} {C : GoCache} {E : NodeEnv} {V : DVMService B} {CR : Signatures} {GS : GoSort}.

Definition nwp {A} (m : NM A) (s : node) (Q : node -> A -> Prop) : Prop :=
  match m s with Some (s', a) => Q s' a | None => False end.

Lemma nwp_ret {A} (a : A) s (Q : node -> A -> Prop) : Q s a -> nwp (mret a) s Q.
Proof. done. Qed.

Lemma nwp_bind {A A'} (m : NM A) (k : A -> NM A') s Q :
  nwp m s (fun s' a => nwp (k a) s' Q) -> nwp (m ≫= k) s Q.
Proof. unfold nwp. cbv [mbind NM_bind option_bind]. by destruct (m s) as [[s' a]|]. Qed.

Lemma nwp_mono {A} (m : NM A) s (Q Q' : node -> A -> Prop) :
  nwp m s Q -> (forall s' a, Q s' a -> Q' s' a) -> nwp m s Q'.
Proof. unfold nwp. destruct (m s) as [[s' a]|]; auto. Qed.

Lemma nwp_gets {A} (f : node -> A) s (Q : node -> A -> Prop) : Q s (f s) -> nwp (gets f) s Q.
Proof. done. Qed.

Lemma nwp_of_opt {A} (m : option A) s a (Q : node -> A -> Prop) : m = Some a -> Q s a -> nwp (of_opt m) s Q.
Proof. by intros ->. Qed.

(** What changes neither the database nor the gossips, and loses no receipt. *)
Record quiet (s s' : node) : Prop := {
  quiet_database : s'.(database) = s.(database);
  quiet_gossips : s'.(gossips) = s.(gossips);
  quiet_receipts : forall l, is_Some (s.(receipts) !! l) -> is_Some (s'.(receipts) !! l)
}.

#[export] Instance quiet_preorder : PreOrder quiet.
Proof.
  split; [by split|]. intros a b c [A1 A2 A3] [B1 B2 B3]. split; [congruence|congruence|auto].
Qed.

Lemma time_Now_quiet s : nwp time_Now s (fun s' _ => quiet s s' /\ s'.(receipts) = s.(receipts)).
Proof. by repeat split. Qed.

Lemma receipt_at_ok s l r (Q : node -> Receipt.t -> Prop) :
  s.(receipts) !! l = Some r -> Q s r -> nwp (receipt_at l) s Q.
Proof. intros Hl HQ. unfold receipt_at. apply nwp_bind, nwp_gets. by apply (nwp_of_opt _ _ r). Qed.

Lemma gossip_at_ok s l g (Q : node -> Gossip.t -> Prop) :
  s.(gossips) !! l = Some g -> Q s g -> nwp (gossip_at l) s Q.
Proof. intros Hl HQ. unfold gossip_at. apply nwp_bind, nwp_gets. by apply (nwp_of_opt _ _ g). Qed.

Lemma cache_put_quiet k e ttl s : nwp (cache_put k e ttl) s (fun s' _ => quiet s s' /\ s'.(receipts) = s.(receipts)).
Proof. by repeat split. Qed.

Lemma Receipt_Cache_quiet s l : is_Some (s.(receipts) !! l) ->
  nwp (Receipt_Cache l) s (fun s' _ => quiet s s' /\ s'.(receipts) = s.(receipts)).
Proof.
  intros [r Hr]. unfold Receipt_Cache. apply nwp_bind, (receipt_at_ok _ _ r); [done|]. apply cache_put_quiet.
Qed.

Lemma Gossip_Cache_quiet s l : is_Some (s.(gossips) !! l) ->
  nwp (Gossip_Cache l) s (fun s' _ => quiet s s' /\ s'.(receipts) = s.(receipts)).
Proof.
  intros [g Hg]. unfold Gossip_Cache. apply nwp_bind, (gossip_at_ok _ _ g); [done|]. apply cache_put_quiet.
Qed.

Lemma with_receipt_quiet s l r f : s.(receipts) !! l = Some r ->
  nwp (with_receipt l f) s (fun s' _ => quiet s s' /\ s'.(receipts) = <[l := f r]> s.(receipts)).
Proof.
  intros Hr. unfold with_receipt. apply nwp_bind, (receipt_at_ok _ _ r); [done|].
  repeat split. intros l' Hl'. cbn. apply lookup_insert_is_Some'. by right.
Qed.

Lemma internal_error_quiet s l e : is_Some (s.(receipts) !! l) ->
  nwp (internal_error l e) s (fun s' _ => quiet s s').
Proof.
  intros [r Hr]. unfold internal_error. apply nwp_bind.
  eapply nwp_mono; [by apply with_receipt_quiet|]. intros s1 _ [Hq Hrs].
  eapply nwp_mono; [apply Receipt_Cache_quiet; apply Hq; by eexists|]. intros s2 _ [Hq2 _]. by etransitivity.
Qed.

(** ** Database transactions *)
Context {BL : BadgerLaws B}.

(** A database none of whose operations fails, but for a key that is not there. *)
Record reliable : Prop := {
  reliable_get t k t' e : txn_Get t k = (t', inr e) -> e = ErrKeyNotFound;
  reliable_set t k v : exists t', txn_Set t k v = inl t';
  reliable_commit db t : txn_base t = db -> (txn_Commit db t).2 = None
}.

(** [t'] is [t] and the writes [w]. *)
Definition wrote (t t' : Txn) (w : list (string * stored)) : Prop :=
  txn_base t' = txn_base t /\ txn_reads t' = txn_reads t /\
  txn_writes t' = foldl (fun m kv => <[kv.1 := Some kv.2]> m) (txn_writes t) w.

Lemma wrote_app t t1 t2 w1 w2 : wrote t t1 w1 -> wrote t1 t2 w2 -> wrote t t2 (w1 ++ w2).
Proof.
  intros (A1 & A2 & A3) (B1 & B2 & B3). split; [congruence|]. split; [congruence|].
  by rewrite foldl_app, <- A3.
Qed.

Lemma set_all_wrote l t : exists t' r, set_all l t = Ret (t', r) /\ (r = None -> wrote t t' l) /\
  (reliable -> r = None).
Proof.
  revert t. induction l as [|[k v] l IH]; intros t; cbn [set_all].
  - exists t, None. by repeat split.
  - destruct (txn_Set t k v) as [t1|e] eqn:E1.
    2: { exists t, (Some e). split_and!; [done|done|]. intros R. destruct (reliable_set R t k v) as [t1 Ht]. congruence. }
    destruct (IH t1) as (t2 & r & -> & Hr & Hrel). exists t2, r. split_and!; [done| |done]. intros ->.
    apply set_law in E1 as (H1 & H2 & H3). destruct (Hr eq_refl) as (W1 & W2 & W3).
    split; [congruence|]. split; [congruence|]. by rewrite W3, H2.
Qed.

(** The records are written, or the receipt says why not. *)
Lemma persist_ok s receipt m w t (Q : node -> option Txn -> Prop) :
  is_Some (s.(receipts) !! receipt) ->
  (exists t' r, m t = Ret (t', r) /\ (r = None -> wrote t t' w) /\ (reliable -> r = None)) ->
  (forall t', wrote t t' w -> Q s (Some t')) -> (forall s', ~ reliable -> quiet s s' -> Q s' None) ->
  nwp (persist_or_fail receipt m t) s Q.
Proof.
  intros Hr (t' & r & Hm & Hw & Hrel) Hok Hfail. unfold persist_or_fail, on_txn. apply nwp_bind.
  rewrite Hm. apply nwp_ret. destruct r as [e|].
  - apply nwp_bind. eapply nwp_mono; [by apply internal_error_quiet|]. intros s' [] Hq. apply nwp_ret, Hfail; [|done].
    intros R. by apply Hrel in R.
  - apply nwp_ret. auto.
Qed.

Lemma Account_Persist_wrote a t : account_ok a -> exists j,
  Account.MarshalJSON a = Some j /\ exists t' r, Account_Persist a t = Ret (t', r) /\
  (r = None -> wrote t t' [(Account.Key a, Doc j); (Account.NameKey a, Text (Account.Key a))]) /\
  (reliable -> r = None).
Proof.
  intros Ha. destruct (account_round_trip a Ha) as (j & Hj & _). exists j. split; [done|].
  unfold Account_Persist. rewrite Hj. cbn [or_panic mbind outcome_bind].
  apply (set_all_wrote [(Account.Key a, Doc j); (Account.NameKey a, Text (Account.Key a))]).
Qed.

(** ** The ledger's accounts *)

(** Every account is stored under its address, with a balance that is not negative
    and that a [float64] holds. *)
Definition ledger_ok (db : DB) : Prop := forall a v, db_view db (Account.Key_of a) = Some v ->
  exists acc j b, v = Doc j /\ Account.MarshalJSON acc = Some j /\ acc.(Account.Address) = a /\
    account_ok acc /\ acc.(Account.Balance) = Some b /\ 0 <= b.

(** The balance of an address; an account that is not there has none. *)
Definition balance_of (db : DB) (a : string) : option Z :=
  match db_view db (Account.Key_of a) with
  | None => Some 0
  | Some (Doc j) => match Account.ToAccountFromJson j with Ret acc => acc.(Account.Balance) | _ => None end
  | Some (Text _) => None
  end.

Lemma balance_stored db a acc j : db_view db (Account.Key_of a) = Some (Doc j) ->
  Account.MarshalJSON acc = Some j -> account_ok acc -> balance_of db a = acc.(Account.Balance).
Proof.
  intros Hv Hj Ha. destruct (account_round_trip acc Ha) as (j' & Hj' & Hr). simplify_eq.
  unfold balance_of. by rewrite Hv, Hr.
Qed.

Lemma ledger_balance db a : ledger_ok db -> exists b, balance_of db a = Some b /\ 0 <= b /\ exact b.
Proof.
  intros Hok. destruct (db_view db (Account.Key_of a)) as [v|] eqn:Hv.
  - destruct (Hok a v Hv) as (acc & j & b & -> & Hj & _ & Ha & Hb & H0). exists b.
    rewrite (balance_stored db a acc j Hv Hj Ha), Hb. split; [done|]. split; [done|].
    destruct Ha as [(b' & Hb' & Hx) _]. simplify_eq. done.
  - exists 0. unfold balance_of. by rewrite Hv.
Qed.

(** Finding an account of a well-formed ledger, in a transaction that has written
    nothing. *)
Lemma find_account_ok s now a t b : ledger_ok (txn_base t) -> txn_writes t = ∅ ->
  balance_of (txn_base t) a = Some b ->
  nwp (find_account now a t) s (fun s' r => s' = s /\
    txn_base r.1 = txn_base t /\ txn_writes r.1 = ∅ /\
    match r.2 with
    | inl acc => acc.(Account.Address) = a /\ account_ok acc /\ acc.(Account.Balance) = Some b
    | inr _ => ~ reliable
    end).
Proof.
  intros Hok Hw Hb. unfold find_account, on_txn, ToAccountByAddress, load, get_doc, Get.
  apply nwp_bind. cbv [mbind TM_bind]. destruct (txn_Get t (Account.Key_of a)) as [t' r] eqn:Hg.
  pose proof Hg as Hg0. apply get_law in Hg as (G1 & G2 & _ & _ & G5). rewrite Hw, lookup_empty in G5. rewrite Hw in G2. cbn [default] in G5.
  cbv [mret TM_ret mbind outcome_bind]. destruct r as [v|e].
  - destruct (Hok a v G5) as (acc & j & b' & -> & Hj & Haddr & Ha & Hb' & H0).
    destruct (account_round_trip acc Ha) as (j' & Hj' & Hr). simplify_eq.
    unfold caught. rewrite Hr. cbn. split; [done|]. split; [done|]. split; [done|]. split; [done|]. split; [done|].
    rewrite <- Hb. symmetry. by apply (balance_stored _ _ acc j).
  - cbn. destruct e; (split; [done|]); (split; [done|]); (split; [done|]);
      try (intros R; by apply (reliable_get R) in Hg0).
    cbn. split; [done|]. unfold balance_of in Hb. rewrite G5 in Hb. injection Hb as <-.
    split; [|done]. split; [by exists 0|]. by split.
Qed.

(** A record written in a transaction is found in it. *)
Lemma load_written {A} (R : reliable) t k j (of_json : json -> result A) x :
  txn_writes t !! k = Some (Some (Doc j)) -> of_json j = Ret x ->
  exists t', load k of_json t = Ret (t', inl x) /\ txn_writes t' = txn_writes t.
Proof.
  intros Hk Hx. unfold load, get_doc, Get. cbv [mbind TM_bind]. destruct (txn_Get t k) as [t' r] eqn:Hg.
  pose proof Hg as Hg0. apply get_law in Hg as (G1 & G2 & _ & _ & G5). rewrite Hk in G5. cbn [default] in G5.
  exists t'. split; [|done]. cbv [mret TM_ret mbind outcome_bind]. destruct r as [v|e].
  - injection G5 as <-. unfold caught. by rewrite Hx.
  - rewrite (reliable_get R _ _ _ _ Hg0) in G5. done.
Qed.

End Steps.
