(* ===== verification/DaposGossip.v ===== *)
(** * What gossiping accepts

    The rumors a node takes from its peers, and when it takes a transaction to be
    agreed on; two thirds of the delegates as [float32] computes them. *)
From Stdlib Require Floats.SpecFloat.
From Stdlib Require Import ZArith Lia.
From stdpp Require Import pretty.
From S2P Require Import Prelude Queue Word Hex Json Ledger LedgerFacts Store Dapos DaposSteps.
Import Big.
Open Scope Z_scope.

(** ** Verification does not panic *)
Section Verification.
Context {CR : Signatures}.

Definition addresses (l : list Rumor.t) : list string := map Rumor.Address l.

Lemma ContainsRumor_spec g a : Gossip.ContainsRumor g a = bool_decide (a ∈ addresses g.(Gossip.Rumors)).
Proof.
  unfold Gossip.ContainsRumor, addresses. induction g.(Gossip.Rumors) as [|r l IH]; [by rewrite bool_decide_false by set_solver|].
  cbn [existsb map]. rewrite IH. destruct (String.eqb_spec r.(Rumor.Address) a) as [->|Hne].
  - by rewrite (bool_decide_true (a ∈ a :: _)) by set_solver.
  - apply bool_decide_ext. rewrite elem_of_cons. naive_solver.
Qed.

(** A recovered key is not empty. *)
Context (recovers : forall hash sig key, secp256k1_recover hash sig = Some key -> key <> []).

Lemma signed_by_total address hash sig : signed_by address hash sig <> Panic.
Proof.
  unfold signed_by, hex_or_err. destruct (hex_Decode hash) as [h|]; [|done]. cbn [mbind outcome_bind].
  destruct (hex_Decode sig) as [s|]; [|done]. cbn [mbind outcome_bind].
  destruct (ToPublicKey h s) as [k|] eqn:Hk; [|done]. unfold ToPublicKey in Hk.
  destruct (negb (length h =? 32)%nat); [done|]. destruct (negb (checkSignature s)) eqn:Hc; [done|].
  apply recovers in Hk. destruct k as [|x k]; [done|]. cbn [ToAddress or_panic mbind outcome_bind].
  case_match; [done|]. destruct s as [|y s]; [done|]. cbn [VerifySignature or_panic mbind outcome_bind].
  by case_match.
Qed.

Lemma Rumor_Verify_total r : exists b, Rumor.Verify r = Some b.
Proof.
  unfold Rumor.Verify. repeat (case_match; [by eexists|]).
  destruct (signed_by _ _ _) eqn:Hs; [by eexists..|]. by apply signed_by_total in Hs.
Qed.

(** ** Taking a peer's rumors *)
(** What [new] adds to [ours] out of [rumors]. *)
Record taken (rumors ours new : list Rumor.t) : Prop := {
  taken_from : sublist new rumors;
  taken_verified : Forall (fun r => Rumor.Verify r = Some true) new;
  taken_new : NoDup (addresses new) /\ forall r, r ∈ new -> r.(Rumor.Address) ∉ addresses ours;
  taken_all : forall r, r ∈ rumors -> Rumor.Verify r = Some true -> r.(Rumor.Address) ∈ addresses (ours ++ new)
}.

(** Whether the last rumor was there, which decides if the gossip is news. *)
Definition last_known (rumors ours new : list Rumor.t) (hasAll b : bool) : Prop :=
  match last rumors with
  | None => b = hasAll
  | Some r => (r.(Rumor.Address) ∈ addresses ours -> b = true) /\
              (r.(Rumor.Address) ∉ addresses (ours ++ new) -> b = false)
  end.

Lemma last_known_cons r rumors ours x new hasAll b' b :
  (rumors = [] -> b' = bool_decide (r.(Rumor.Address) ∈ addresses ours)) ->
  last_known rumors (ours ++ x) new b' b -> last_known (r :: rumors) ours (x ++ new) hasAll b.
Proof.
  unfold last_known. intros Hb. rewrite last_cons. destruct (last rumors) as [r'|] eqn:Hl.
  - unfold addresses. rewrite !map_app. intros [H1 H2]. split; [set_solver|]. rewrite <- app_assoc in H2. exact H2.
  - apply last_None in Hl. intros ->. rewrite Hb by done. unfold addresses. rewrite !map_app.
    split; [by intros; apply bool_decide_eq_true|]. intros Hn. apply bool_decide_eq_false. set_solver.
Qed.

Lemma take_rumors_ok rumors : forall ours hasAll, exists new b,
  take_rumors rumors ours hasAll = Some (Gossip.set_Rumors ours (ours.(Gossip.Rumors) ++ new), b) /\
  taken rumors ours.(Gossip.Rumors) new /\ last_known rumors ours.(Gossip.Rumors) new hasAll b.
Proof.
  induction rumors as [|r rumors IH]; intros ours hasAll.
  - exists [], hasAll. rewrite app_nil_r. split; [by destruct ours|]. split; [|done].
    split; [done|constructor|split; [constructor|set_solver]|set_solver].
  - cbn [take_rumors]. rewrite ContainsRumor_spec. set (known := bool_decide _).
    destruct known eqn:Hin; unfold known in Hin; cbn [mbind option_bind].
    { destruct (IH ours true) as (new & b & -> & [T1 T2 T3 T4] & Hl). exists new, b. split; [done|]. split.
      - split; [by constructor|done|done|]. intros r' [->|Hr']%elem_of_cons Hv; [|by apply T4].
        apply bool_decide_eq_true in Hin. unfold addresses in *. rewrite map_app. set_solver.
      - apply (last_known_cons r _ _ [] _ _ true); [done|]. by rewrite app_nil_r. }
    destruct (Rumor_Verify_total r) as [ok Hok]. rewrite Hok. cbn [mbind option_bind]. destruct ok.
    + destruct (IH (Gossip.set_Rumors ours (ours.(Gossip.Rumors) ++ [r])) false) as (new & b & -> & [T1 T2 [T3 T3'] T4] & Hl).
      unfold Gossip.set_Rumors in *. cbn [Gossip.Transaction Gossip.Rumors] in *. exists (r :: new), b.
      split; [by rewrite <- app_assoc|]. split; [|by apply (last_known_cons r _ _ [r] _ _ false)].
      apply bool_decide_eq_false in Hin. rewrite <- app_assoc in T4. unfold addresses in *. rewrite map_app in T3'.
      split; [by constructor|by constructor| |].
      * split; [|set_solver]. cbn [map]. apply NoDup_cons. split; [|done].
        intros (r' & Hr' & Hin')%list_elem_of_fmap. apply (T3' r' Hin'). rewrite <- Hr'. set_solver.
      * intros r' [->|Hr']%elem_of_cons Hv; [|by apply T4]. unfold addresses. rewrite map_app. set_solver.
    + destruct (IH ours false) as (new & b & -> & [T1 T2 T3 T4] & Hl). exists new, b. split; [done|]. split.
      * split; [by constructor|done|done|]. intros r' [->|Hr']%elem_of_cons Hv; [congruence|by apply T4].
      * apply (last_known_cons r _ _ [] _ _ false); [done|]. by rewrite app_nil_r.
Qed.

End Verification.

(** ** Synchronizing *)
Section Synchronize.
Context {B : Badger} {C : GoCache} {E : NodeEnv} {V : DVMService B} {CR : Signatures} {GS : GoSort}.

(** A node whose clock has been read. *)
Definition ticked (s : node) : node := {|
  database := s.(database); cache := s.(cache); receipts := s.(receipts); gossips := s.(gossips);
  next := s.(next); ticks := S s.(ticks); gossipChan := s.(gossipChan); timoutChan := s.(timoutChan);
  gossipQueue := s.(gossipQueue); timers := s.(timers) |}.

Lemma nwp_time_Now s (Q : node -> Z -> Prop) : Q (ticked s) (Now s.(ticks)) -> nwp time_Now s Q.
Proof. done. Qed.

Lemma nwp_cache_get s k (Q : node -> option entry -> Prop) :
  Q (ticked s) (cache_Get s.(cache) (Now s.(ticks)) k) -> nwp (cache_get k) s Q.
Proof. done. Qed.

(** What is known of the gossip's hash. *)
Definition cached_gossip (s : node) (hash : string) : option entry :=
  cache_Get s.(cache) (Now s.(ticks)) (Gossip.Key_of hash).

(** The node with a gossip changed. *)
Definition with_gossip (s : node) (l : loc) (g : Gossip.t) : node := {|
  database := s.(database); cache := s.(cache); receipts := s.(receipts); gossips := <[l := g]> s.(gossips);
  next := s.(next); ticks := s.(ticks); gossipChan := s.(gossipChan); timoutChan := s.(timoutChan);
  gossipQueue := s.(gossipQueue); timers := s.(timers) |}.

Lemma nwp_put_gossip s l g (Q : node -> unit -> Prop) : Q (with_gossip s l g) tt -> nwp (put_gossip l g) s Q.
Proof. done. Qed.

Lemma synchronize_known s l lo g ours :
  (forall hash sig key, secp256k1_recover hash sig = Some key -> key <> []) ->
  s.(gossips) !! l = Some g -> s.(gossips) !! lo = Some ours ->
  cached_gossip s g.(Gossip.Transaction).(Transaction.Hash) = Some (CGossip lo) ->
  MyAddress ∈ addresses ours.(Gossip.Rumors) ->
  exists new b, taken g.(Gossip.Rumors) ours.(Gossip.Rumors) new /\
    last_known g.(Gossip.Rumors) ours.(Gossip.Rumors) new false b /\
    nwp (synchronizeGossip l) s (fun s' r => r = (lo, None, negb b) /\
      s' = with_gossip (ticked s) lo (Gossip.set_Rumors ours (ours.(Gossip.Rumors) ++ new))).
Proof.
  intros Hrec Hg Ho Hc Hmine.
  destruct (take_rumors_ok Hrec g.(Gossip.Rumors) ours false) as (new & b & Ht & Hnew & Hlast).
  exists new, b. split; [done|]. split; [done|].
  unfold synchronizeGossip. apply nwp_bind, (gossip_at_ok _ _ _ _ Hg), nwp_bind.
  unfold ToGossipFromCache. apply nwp_bind, nwp_cache_get. fold (cached_gossip s g.(Gossip.Transaction).(Transaction.Hash)).
  rewrite Hc. apply nwp_ret, nwp_bind, nwp_bind, (gossip_at_ok _ _ ours); [done|].
  apply nwp_bind, (nwp_of_opt _ _ _ _ Ht). cbv beta iota. apply nwp_bind, nwp_put_gossip.
  set (ours' := Gossip.set_Rumors ours _).
  apply nwp_ret, nwp_bind, (gossip_at_ok _ _ ours'); [apply lookup_insert_eq|].
  assert (Gossip.ContainsRumor ours' MyAddress = true) as ->.
  { rewrite ContainsRumor_spec. apply bool_decide_eq_true. unfold ours', addresses in *. cbn. rewrite map_app. set_solver. }
  by apply nwp_ret.
Qed.

(** The node with a record more. *)
Definition with_new (s : node) (g : Gossip.t) : node := {|
  database := s.(database); cache := s.(cache); receipts := s.(receipts);
  gossips := <[s.(next) := g]> s.(gossips);
  next := S s.(next); ticks := s.(ticks); gossipChan := s.(gossipChan); timoutChan := s.(timoutChan);
  gossipQueue := s.(gossipQueue); timers := s.(timers) |}.

Lemma nwp_new_gossip s g (Q : node -> loc -> Prop) : Q (with_new s g) s.(next) -> nwp (new_gossip g) s Q.
Proof. done. Qed.

(** The node with its channels changed. *)
Definition with_channels (s : node) (c : list loc) (n : nat) (q : HashedQueue queued) (t : list Z) : node := {|
  database := s.(database); cache := s.(cache); receipts := s.(receipts); gossips := s.(gossips);
  next := s.(next); ticks := s.(ticks); gossipChan := c; timoutChan := n; gossipQueue := q; timers := t |}.

Lemma nwp_set_channels s c n q t (Q : node -> unit -> Prop) :
  Q (with_channels s c n q t) tt -> nwp (set_channels c n q t) s Q.
Proof. done. Qed.

Lemma GossipGrpc_known s payload lo g ours :
  (forall hash sig key, secp256k1_recover hash sig = Some key -> key <> []) ->
  Gossip.ToGossipFromJson (Now s.(ticks)) payload = Ret g ->
  lo <> s.(next) -> s.(gossips) !! lo = Some ours ->
  cached_gossip (ticked s) g.(Gossip.Transaction).(Transaction.Hash) = Some (CGossip lo) ->
  MyAddress ∈ addresses ours.(Gossip.Rumors) ->
  exists new b, taken g.(Gossip.Rumors) ours.(Gossip.Rumors) new /\
    last_known g.(Gossip.Rumors) ours.(Gossip.Rumors) new false b /\
    let ours' := Gossip.set_Rumors ours (ours.(Gossip.Rumors) ++ new) in
    nwp (GossipGrpc payload) s (fun s' r => r = inl (Gossip.MarshalJSON ours') /\
      s' = with_channels (with_gossip (ticked (with_new (ticked s) g)) lo ours')
             (s.(gossipChan) ++ if b then [] else [s.(next)]) s.(timoutChan) s.(gossipQueue) s.(timers)).
Proof.
  intros Hrec Hj Hne Ho Hc Hmine.
  destruct (synchronize_known (with_new (ticked s) g) s.(next) lo g ours) as (new & b & Hn & Hl & Hs); try done.
  { apply lookup_insert_eq. }
  { cbn. by rewrite lookup_insert_ne by done. }
  exists new, b. split; [done|]. split; [done|]. intros ours'.
  unfold GossipGrpc. apply nwp_bind, nwp_time_Now. rewrite Hj. apply nwp_bind, nwp_new_gossip, nwp_bind.
  eapply nwp_mono; [exact Hs|]. intros s' r [-> ->]. apply nwp_bind.
  destruct b; cbn [negb].
  - apply nwp_ret, nwp_bind, (gossip_at_ok _ _ ours'); [apply lookup_insert_eq|].
    apply nwp_ret. split; [done|]. by rewrite app_nil_r.
  - unfold send_gossip. apply nwp_bind, nwp_gets, nwp_set_channels, nwp_bind, (gossip_at_ok _ _ ours'); [apply lookup_insert_eq|].
    by apply nwp_ret.
Qed.

(** ** Two thirds *)

(** The queue as a bag of what is queued (Queue.v). *)
Definition queue_rel (s : node) (b : list queued) : Prop := gq_rel qhash qtime s.(gossipQueue) b.

(** The delegates the cache knows. *)
Definition delegates_are (s : node) (ds : list Node.t) : Prop :=
  nwp ToNodesByTypeFromCache s (fun s' r => s' = ticked (ticked s) /\ r = ds).

Definition delegates_of (s : node) : option (list Node.t) := snd <$> ToNodesByTypeFromCache s.

Lemma delegates_of_are s ds : delegates_of s = Some ds -> delegates_are s ds.
Proof.
  unfold delegates_of, delegates_are, nwp, ToNodesByTypeFromCache, time_Now, gets, set_ticks, of_opt.
  cbv [mbind NM_bind option_bind mret NM_ret].
  destruct (keys_of _) as [ks|]; [|done]. destruct (nodes_of _ _) as [ns|]; [|done]. by intros [= ->].
Qed.

(** The rumors as they are sorted, and whether they are close enough. *)
Definition in_time (now : Z) (g : Gossip.t) (sorted : list Rumor.t) (ok : bool) : Prop :=
  if (1 <? length g.(Gossip.Rumors))%nat then Rumor.ValidateTimeDelta now g.(Gossip.Rumors) = Some (sorted, ok)
  else sorted = g.(Gossip.Rumors) /\ ok = true.

Lemma in_time_exists now g : exists sorted ok, in_time now g sorted ok /\ sorted ≡ₚ g.(Gossip.Rumors).
Proof.
  unfold in_time, Rumor.ValidateTimeDelta, Rumor.sort. destruct (Nat.ltb_spec 1 (length g.(Gossip.Rumors))) as [H|H].
  - set (sorted := sort_by _ _). assert (sorted ≡ₚ g.(Gossip.Rumors)) as Hp by apply sort_by_perm.
    destruct (last sorted) as [r|] eqn:Hl; [by eexists _, _|].
    apply last_None in Hl. apply Permutation_length in Hp. rewrite Hl in Hp. simpl in Hp. lia.
  - by eexists _, _.
Qed.

(** What a turn leaves alone before it decides. *)
Record before (s s' : node) : Prop := {
  before_database : s'.(database) = s.(database);
  before_chan : s'.(gossipChan) = s.(gossipChan);
  before_queue : s'.(gossipQueue) = s.(gossipQueue);
  before_timers : s'.(timers) = s.(timers)
}.

Lemma sorted_turn s l g sorted ok : s.(gossips) !! l = Some g -> in_time (Now s.(ticks)) g sorted ok ->
  nwp (if (1 <? length g.(Gossip.Rumors))%nat then
         now ← time_Now;
         '(sorted, valid) ← of_opt (Rumor.ValidateTimeDelta now g.(Gossip.Rumors));
         put_gossip l (Gossip.set_Rumors g sorted);; mret valid
       else mret true) s
    (fun s' v => v = ok /\ before s s' /\ s'.(cache) = s.(cache) /\ s'.(receipts) = s.(receipts) /\
       s'.(gossips) !! l = Some (Gossip.set_Rumors g sorted)).
Proof.
  unfold in_time. intros Hg Ht. destruct (1 <? length g.(Gossip.Rumors))%nat.
  - apply nwp_bind, nwp_time_Now, nwp_bind, (nwp_of_opt _ _ _ _ Ht). cbv beta iota.
    apply nwp_bind, nwp_put_gossip, nwp_ret. split_and!; try done. apply lookup_insert_eq.
  - destruct Ht as [-> ->]. apply nwp_ret. split_and!; try done. rewrite Hg. by destruct g.
Qed.

Lemma push_queue_ok s l g b (Q : node -> unit -> Prop) :
  let tx := g.(Gossip.Transaction) in
  let item := {| ptr := l; qhash := tx.(Transaction.Hash); qtime := tx.(Transaction.Time) |} in
  queue_rel s b -> tx.(Transaction.Hash) ∉ map qhash b ->
  (forall q, gq_rel qhash qtime q (item :: b) ->
     Q (with_channels s s.(gossipChan) s.(timoutChan) q s.(timers)) tt) ->
  nwp (push_queue l g) s Q.
Proof.
  intros tx item Hb Hn HQ. unfold push_queue. apply nwp_bind, nwp_gets.
  destruct (gq_push_rel qhash qtime s.(gossipQueue) b item Hb Hn) as (q & Hq & Hrel).
  apply nwp_bind, (nwp_of_opt _ _ _ _ Hq), nwp_set_channels. by apply HQ.
Qed.

(** Enough rumors in time: the gossip is queued, unless its hash is, and a timer
    started. *)
Lemma gossip_turn_queues s l g b ds sorted :
  s.(gossips) !! l = Some g -> queue_rel s b -> delegates_are s ds ->
  in_time (Now (S (S s.(ticks)))) g sorted true -> sorted ≡ₚ g.(Gossip.Rumors) ->
  (2 * length ds <= 3 * length g.(Gossip.Rumors))%nat ->
  let hash := g.(Gossip.Transaction).(Transaction.Hash) in
  let item := {| ptr := l; qhash := hash; qtime := g.(Gossip.Transaction).(Transaction.Time) |} in
  nwp (gossip_turn l) s (fun s' _ =>
    s'.(database) = s.(database) /\ s'.(gossipChan) = s.(gossipChan) /\
    s'.(gossips) !! l = Some (Gossip.set_Rumors g sorted) /\
    (if bool_decide (hash ∈ map qhash b) then queue_rel s' b /\ s'.(timers) = s.(timers)
     else queue_rel s' (item :: b) /\
       exists now, s'.(timers) = s.(timers) ++ [timeout_of now g.(Gossip.Transaction).(Transaction.Time) (length ds)])).
Proof.
  intros Hg Hb Hd Ht Hp Hn hash item. unfold gossip_turn. apply nwp_bind. eapply nwp_mono; [exact Hd|].
  intros ? ? [-> ->]. apply nwp_bind, (gossip_at_ok _ _ g); [done|]. fold hash. apply nwp_bind.
  eapply nwp_mono; [by apply (sorted_turn _ l g sorted true)|]. intros s1 v (-> & [B1 B2 B3 B4] & _ & _ & Hg1).
  cbn [negb]. apply nwp_bind, (gossip_at_ok _ _ _ _ Hg1). cbn [Gossip.set_Rumors Gossip.Rumors].
  unfold two_thirds. rewrite (Permutation_length Hp), (proj2 (Nat.leb_le _ _) Hn). apply nwp_bind, nwp_gets.
  assert (queue_rel s1 b) as Hb1 by (unfold queue_rel; by rewrite B3).
  assert (GQ.Exists s1.(gossipQueue) hash = bool_decide (hash ∈ map qhash b)) as Hex.
  { unfold GQ.Exists, EM.Exists. apply bool_decide_ext. apply (gq_exists _ _ _ _ Hb1). }
  cbn [id]. rewrite Hex. case_bool_decide as Hin.
  - apply nwp_ret. split_and!; try done.
  - apply nwp_bind, (push_queue_ok _ _ _ b); [done|done|]. intros q Hq.
    apply nwp_bind, nwp_time_Now. unfold start_timer. apply nwp_bind, nwp_gets, nwp_set_channels.
    split_and!; try done. eexists. cbn [timers with_channels ticked id]. by rewrite B4.
Qed.
(** *** What never queues

    The handlers that keep the database, the queue and the timers as they are,
    whenever they return. *)
Definition fixed (s : node) : DB * HashedQueue queued * list Z := (s.(database), s.(gossipQueue), s.(timers)).
Definition returns {A} (m : NM A) (s : node) (Q : node -> A -> Prop) : Prop :=
  match m s with Some (s', a) => Q s' a | None => True end.
Definition keeps {A} (m : NM A) : Prop := forall s, returns m s (fun s' _ => fixed s' = fixed s).

Lemma returns_bind {A A'} (m : NM A) (k : A -> NM A') s Q :
  returns m s (fun s' a => returns (k a) s' Q) -> returns (m ≫= k) s Q.
Proof. unfold returns. cbv [mbind NM_bind option_bind]. by destruct (m s) as [[s' a]|]. Qed.
Lemma returns_mono {A} (m : NM A) s (Q Q' : node -> A -> Prop) :
  returns m s Q -> (forall s' a, Q s' a -> Q' s' a) -> returns m s Q'.
Proof. unfold returns. destruct (m s) as [[s' a]|]; auto. Qed.
Lemma nwp_returns {A} (m : NM A) s (Q : node -> A -> Prop) : nwp m s Q -> returns m s Q.
Proof. unfold nwp, returns. by destruct (m s) as [[s' a]|]. Qed.

Lemma keeps_bind {A A'} (m : NM A) (k : A -> NM A') : keeps m -> (forall a, keeps (k a)) -> keeps (m ≫= k).
Proof.
  intros Hm Hk s. apply returns_bind. eapply returns_mono; [apply Hm|]. intros s1 a Hf. rewrite <- Hf. apply Hk.
Qed.
Lemma keeps_ret {A} (a : A) : keeps (mret a).
Proof. done. Qed.
Lemma keeps_panic {A} : keeps (panic (A := A)).
Proof. done. Qed.
Lemma keeps_gets {A} (f : node -> A) : keeps (gets f).
Proof. done. Qed.
Lemma keeps_of_opt {A} (m : option A) : keeps (of_opt m).
Proof. by destruct m. Qed.
Lemma keeps_set_ticks n : keeps (set_ticks n).
Proof. done. Qed.
Lemma keeps_set_cache c : keeps (set_cache c).
Proof. done. Qed.
Lemma keeps_set_heap r g n : keeps (set_heap r g n).
Proof. done. Qed.

Lemma keeps_send_gossip l : keeps (send_gossip l).
Proof. done. Qed.

#[local] Hint Resolve keeps_ret keeps_panic keeps_gets keeps_of_opt keeps_set_ticks keeps_set_cache keeps_set_heap
  keeps_send_gossip : keeps.
Ltac keeping := repeat first [progress eauto with keeps | apply keeps_bind; [|intros ?] | case_match].

Lemma keeps_time_Now : keeps time_Now.
Proof. unfold time_Now. keeping. Qed.
#[local] Hint Resolve keeps_time_Now : keeps.

Lemma keeps_cache_get k : keeps (cache_get k).
Proof. unfold cache_get. keeping. Qed.
Lemma keeps_cache_put k e ttl : keeps (cache_put k e ttl).
Proof. unfold cache_put. keeping. Qed.
Lemma keeps_receipt_at l : keeps (receipt_at l).
Proof. unfold receipt_at. keeping. Qed.
Lemma keeps_gossip_at l : keeps (gossip_at l).
Proof. unfold gossip_at. keeping. Qed.
Lemma keeps_put_receipt l r : keeps (put_receipt l r).
Proof. unfold put_receipt. keeping. Qed.
Lemma keeps_put_gossip l g : keeps (put_gossip l g).
Proof. unfold put_gossip. keeping. Qed.
#[local] Hint Resolve keeps_cache_get keeps_cache_put keeps_receipt_at keeps_gossip_at keeps_put_receipt keeps_put_gossip : keeps.

Lemma keeps_HaveSent h a : keeps (HaveSent h a).
Proof. unfold HaveSent. keeping. Qed.
Lemma keeps_ToNodesByTypeFromCache : keeps ToNodesByTypeFromCache.
Proof. unfold ToNodesByTypeFromCache. keeping. Qed.
Lemma keeps_updateReceiptStatus h st : keeps (updateReceiptStatus h st).
Proof. unfold updateReceiptStatus, ToReceiptFromCache, Receipt_Cache. keeping. Qed.
Lemma keeps_peerGossipGrpc n l : keeps (peerGossipGrpc n l).
Proof. unfold peerGossipGrpc, CacheSentDelegate. keeping. Qed.
#[local] Hint Resolve keeps_HaveSent keeps_ToNodesByTypeFromCache keeps_updateReceiptStatus keeps_peerGossipGrpc : keeps.

Lemma keeps_candidates h ds : keeps (candidates h ds).
Proof. induction ds as [|n ds IH]; cbn [candidates]; keeping. Qed.
#[local] Hint Resolve keeps_candidates : keeps.
Lemma keeps_getRandomDelegate h ds : keeps (getRandomDelegate h ds).
Proof. unfold getRandomDelegate. keeping. Qed.
#[local] Hint Resolve keeps_getRandomDelegate : keeps.

Lemma keeps_less_than_two_thirds l hash gossip ds : keeps
  (if (length gossip.(Gossip.Rumors) =? length ds)%nat then mret tt
   else
     n ← getRandomDelegate hash ds;
     match n with
     | None => Gossip_Cache l;; updateReceiptStatus hash StatusCouldNotReachConsensus
     | Some n => err ← peerGossipGrpc n l; match err with Some _ => send_gossip l | None => mret tt end
     end).
Proof. unfold Gossip_Cache. keeping. Qed.

(** Too few rumors, or too far apart: nothing is queued. *)
Lemma gossip_turn_waits s l g ds sorted ok :
  s.(gossips) !! l = Some g -> delegates_are s ds ->
  in_time (Now (S (S s.(ticks)))) g sorted ok -> sorted ≡ₚ g.(Gossip.Rumors) ->
  ok = false \/ (3 * length g.(Gossip.Rumors) < 2 * length ds)%nat ->
  returns (gossip_turn l) s (fun s' _ => fixed s' = fixed s).
Proof.
  intros Hg Hd Ht Hp Hwhy. unfold gossip_turn. apply returns_bind.
  eapply returns_mono; [apply nwp_returns, Hd|]. intros ? ? [-> ->].
  apply returns_bind, nwp_returns, (gossip_at_ok _ _ g); [done|]. apply returns_bind.
  eapply returns_mono; [by apply nwp_returns, (sorted_turn _ l g sorted ok)|].
  intros s1 v (-> & [B1 _ B3 B4] & _ & _ & Hg1).
  assert (fixed s = fixed s1) as -> by (unfold fixed; by rewrite B1, B3, B4).
  destruct ok; [|by apply keeps_updateReceiptStatus].
  destruct Hwhy as [?|Hlt]; [done|]. cbn [negb].
  apply returns_bind, nwp_returns, (gossip_at_ok _ _ _ _ Hg1).
  unfold two_thirds. cbn [Gossip.set_Rumors Gossip.Rumors]. rewrite (Permutation_length Hp), (proj2 (Nat.leb_gt _ _) Hlt).
  rewrite <- (Permutation_length Hp). apply (keeps_less_than_two_thirds l _ (Gossip.set_Rumors g sorted) ds).
Qed.
End Synchronize.

(** ** Two thirds in [float32]

    Numbers below 2^24 and their doubles are exact; the quotient is rounded to 24 bits, to the nearest and to the
    even one of two. *)
Definition nearest_even (p q : Z) : Z :=
  let k := p / q in
  if 2 * (p mod q) <? q then k else if q <? 2 * (p mod q) then k + 1 else if Z.even k then k else k + 1.

(** The greatest power of two that [p / q] is not below *)
Definition exponent (p q : Z) : Z :=
  let z := Z.log2 p - Z.log2 q in if q * 2 ^ Z.max 0 z <=? p * 2 ^ Z.max 0 (- z) then z else z - 1.

(** The quotient is the first number through the second, where it is below 2^24. *)
Definition quotient32 (p q : Z) : Z * Z :=
  let s := 2 ^ (23 - exponent p q) in (nearest_even (p * s) q, s).

Definition two_thirds32 (rumors delegates : Z) : bool :=
  let '(m, s) := quotient32 (2 * delegates) 3 in m <=? rumors * s.

Lemma nearest_even_bounds p q : 0 < q -> 2 * p - q <= 2 * q * nearest_even p q <= 2 * p + q.
Proof.
  intros Hq. unfold nearest_even. pose proof (Z.div_mod p q ltac:(lia)) as Hd. pose proof (Z.mod_pos_bound p q Hq) as Hm.
  repeat case_match; nia.
Qed.

Lemma two_thirds_float32 rumors delegates : Z.of_nat delegates < 2 ^ 22 ->
  two_thirds32 (Z.of_nat rumors) (Z.of_nat delegates) = two_thirds rumors delegates.
Proof.
  intros Hd. unfold two_thirds, two_thirds32, quotient32. set (n := Z.of_nat rumors) in *. set (d := Z.of_nat delegates) in *.
  assert (Hl : Z.log2 (2 * d) <= 22).
  { destruct (Z.eq_dec d 0) as [->|]; [by vm_compute|]. apply Z.lt_succ_r, Z.log2_lt_pow2; lia. }
  assert (He : exponent (2 * d) 3 <= 21) by (unfold exponent; change (Z.log2 3) with 1; case_match; lia).
  set (s := 2 ^ _). assert (Hs : 4 <= s) by (apply (Z.pow_le_mono_r 2 2); lia).
  pose proof (nearest_even_bounds (2 * d * s) 3 ltac:(lia)) as Hm. set (m := nearest_even _ _) in *.
  destruct (Z.leb_spec m (n * s)), (Nat.leb_spec (2 * delegates) (3 * rumors)); try done; exfalso; nia.
Qed.

(** As in the reference implementation of the standard *)
Definition spec_two_thirds (rumors delegates : Z) : bool :=
  let float32 z := SpecFloat.binary_normalize 24 128 z 0 false in
  match SpecFloat.SFcompare (float32 rumors) (SpecFloat.SFdiv 24 128 (SpecFloat.SFmul 24 128 (float32 delegates) (float32 2)) (float32 3)) with
  | Some Lt | None => false
  | _ => true
  end.

Example float32_agrees : forallb (fun d => forallb (fun r => Bool.eqb (spec_two_thirds r d) (two_thirds32 r d)) (seqZ 0 16)) (seqZ 0 16) = true.
Proof. vm_compute. reflexivity. Qed.
