(* ===== verification/DaposExecution.v ===== *)
(** * The execution of a transfer

    [executeTransaction] on a transfer: what it commits, and that it commits all of
    it or nothing. *)
From Stdlib Require Import ZArith Lia.
From stdpp Require Import pretty.
From S2P Require Import Prelude Queue Word Hex Json Ledger LedgerFacts Store Dapos DaposSteps.
Import Big.
Open Scope Z_scope.

Section Execution.
Context {B : Badger} {C : GoCache} {E : NodeEnv} {V : DVMService B} {CR : Signatures} {GS : GoSort}.
Context {BL : BadgerLaws B}.

Definition writes_of (w : list (string * stored)) : gmap string (option stored) :=
  foldl (fun m kv => <[kv.1 := Some kv.2]> m) ∅ w.

Definition account_records (a : Account.t) (j : json) : list (string * stored) :=
  [(Account.Key a, Doc j); (Account.NameKey a, Text (Account.Key a))].

(** The records of an execution: the transaction with its indices, the two
    accounts, the receipt and the gossip. *)
Definition execution_records (g : Gossip.t) (from to : Account.t) (jf jt : json) (r : Receipt.t) :
    list (string * stored) :=
  transaction_records g.(Gossip.Transaction) ++ account_records from jf ++ account_records to jt ++
  [(Receipt.Key r, Doc (Receipt.MarshalJSON r))] ++ [(Gossip.Key g, Doc (Gossip.MarshalJSON g))].

(** All of them are committed, with the receipt saying so. *)
Definition committed (s s' : node) (g : Gossip.t) (from to : Account.t) : Prop :=
  exists jf jt r, Account.MarshalJSON from = Some jf /\ Account.MarshalJSON to = Some jt /\
    r.(Receipt.Status) = StatusOk /\
    forall k, db_view s'.(database) k =
      default (db_view s.(database) k) (writes_of (execution_records g from to jf jt r) !! k).

Lemma account_ok_updated a now : account_ok a -> account_ok (Account.set_Updated a now).
Proof. by destruct a. Qed.

Lemma commit_transaction_ok s l receipt now from to t g r :
  s.(gossips) !! l = Some g -> s.(receipts) !! receipt = Some r ->
  txn_base t = s.(database) -> txn_writes t = ∅ -> account_ok from -> account_ok to ->
  nwp (commit_transaction l receipt now from to t) s (fun s' _ =>
    (~ reliable /\ s'.(database) = s.(database)) \/
    (committed s s' g (Account.set_Updated from now) (Account.set_Updated to now) /\
     s'.(receipts) !! receipt = Some (Receipt.set_Status r StatusOk))).
Proof.
  intros Hg Hr Hb Hw Hf Ht. unfold commit_transaction.
  apply (account_ok_updated _ now) in Hf, Ht.
  assert (forall s', quiet s s' -> s'.(database) = s.(database)) as Hq by by intros s' [].
  destruct (Account_Persist_wrote _ (NewTransaction s.(database)) Hf) as (jf & Hjf & _).
  destruct (Account_Persist_wrote _ (NewTransaction s.(database)) Ht) as (jt & Hjt & _).
  apply nwp_bind, (gossip_at_ok _ _ g); [done|].
  apply nwp_bind, (persist_ok _ _ _ (transaction_records g.(Gossip.Transaction))); [by eexists|apply set_all_wrote| |].
  2: { intros s' HR Hs. apply nwp_ret. left. auto. }
  intros t1 W1. apply nwp_bind.
  destruct (Account_Persist_wrote _ t1 Hf) as (j & Hj & Hp). simplify_eq.
  apply (persist_ok _ _ _ _ _ _ ltac:(by eexists) Hp); [|intros s' HR Hs; apply nwp_ret; left; auto].
  intros t2 W2. apply nwp_bind.
  destruct (Account_Persist_wrote _ t2 Ht) as (j & Hj & Hp2). simplify_eq.
  apply (persist_ok _ _ _ _ _ _ ltac:(by eexists) Hp2); [|intros s' HR Hs; apply nwp_ret; left; auto].
  intros t3 W3. apply nwp_bind. eapply nwp_mono; [by apply with_receipt_quiet|]. intros s1 [] [Q1 R1].
  assert (s1.(receipts) !! receipt = Some (Receipt.set_Status r StatusOk)) as Hr1.
  { rewrite R1. apply lookup_insert_eq. }
  apply nwp_bind. eapply nwp_mono; [apply Receipt_Cache_quiet; by eexists|]. intros s2 [] [Q2 R2].
  rewrite <- R2 in Hr1. assert (quiet s s2) as Q02 by by etransitivity.
  apply nwp_bind, (receipt_at_ok _ _ _ _ Hr1), nwp_bind.
  apply (persist_ok _ _ _ [(Receipt.Key (Receipt.set_Status r StatusOk), Doc (Receipt.MarshalJSON (Receipt.set_Status r StatusOk)))]);
    [by eexists|apply set_all_wrote| |].
  2: { intros s' HR Hs. apply nwp_ret. left. split; [done|]. apply Hq. by etransitivity. }
  intros t4 W4. assert (s2.(gossips) !! l = Some g) as Hg2 by by rewrite (quiet_gossips _ _ Q02).
  apply nwp_bind. eapply nwp_mono; [apply Gossip_Cache_quiet; by eexists|]. intros s3 [] [Q3 R3].
  rewrite <- R3 in Hr1. assert (quiet s s3) as Q03 by by etransitivity.
  assert (s3.(gossips) !! l = Some g) as Hg3 by by rewrite (quiet_gossips _ _ Q03).
  apply nwp_bind, (gossip_at_ok _ _ _ _ Hg3), nwp_bind.
  apply (persist_ok _ _ _ [(Gossip.Key g, Doc (Gossip.MarshalJSON g))]); [by eexists|apply set_all_wrote| |].
  2: { intros s' HR Hs. apply nwp_ret. left. split; [done|]. apply Hq. by etransitivity. }
  intros t5 W5. pose proof (wrote_app _ _ _ _ _ W1 (wrote_app _ _ _ _ _ W2 (wrote_app _ _ _ _ _ W3 (wrote_app _ _ _ _ _ W4 W5)))) as W.
  apply nwp_bind, nwp_gets. destruct (txn_Commit s3.(database) t5) as [db' err] eqn:Hc. apply nwp_bind.
  change (nwp (set_database db') s3 ?Q) with (Q {| database := db'; cache := s3.(cache); receipts := s3.(receipts);
    gossips := s3.(gossips); next := s3.(next); ticks := s3.(ticks); gossipChan := s3.(gossipChan);
    timoutChan := s3.(timoutChan); gossipQueue := s3.(gossipQueue); timers := s3.(timers) |} tt).
  cbn beta. pose proof Hc as Hc0. apply commit_law in Hc.
  assert (txn_base t5 = s3.(database)) as Hb5.
  { destruct W as (-> & _). by rewrite Hb, (quiet_database _ _ Q03). }
  destruct err as [e|].
  - subst db'. assert (forall s' : node, quiet s3 s' -> ~ reliable /\ s'.(database) = s.(database)) as Hq3.
    { intros s' Hs'. split; [|apply Hq; by etransitivity]. intros R.
      pose proof (reliable_commit R s3.(database) t5) as Hrc. rewrite Hc0 in Hrc. by specialize (Hrc Hb5). }
    destruct e; try (by apply nwp_ret; left; apply Hq3);
      (eapply nwp_mono; [apply internal_error_quiet; cbn; by eexists|]; intros s' [] Hs'; left; apply Hq3; by destruct Hs').
  - apply nwp_ret. right. split; [|exact Hr1]. destruct Hc as [_ Hv]. exists jf, jt, (Receipt.set_Status r StatusOk).
    split; [done|]. split; [done|]. split; [done|]. intros k. cbn [database]. rewrite Hv.
    destruct W as (_ & _ & ->). rewrite Hw, (quiet_database _ _ Q03). done.
Qed.

(** ** What the records say of accounts *)
Lemma writes_other w m k : Forall (fun kv => kv.1 <> k) w ->
  foldl (fun (m : gmap string (option stored)) kv => <[kv.1 := Some kv.2]> m) m w !! k = m !! k.
Proof.
  intros Hw. revert m. induction Hw as [|kv w Hkv _ IH]; intros m; [done|]. cbn [foldl].
  by rewrite IH, lookup_insert_ne.
Qed.

Lemma Key_of_inj a b : Account.Key_of a = Account.Key_of b -> a = b.
Proof. intros H. by injection H. Qed.

Lemma records_account g from to jf jt r a :
  from.(Account.Address) <> to.(Account.Address) ->
  writes_of (execution_records g from to jf jt r) !! Account.Key_of a =
    if decide (a = to.(Account.Address)) then Some (Some (Doc jt))
    else if decide (a = from.(Account.Address)) then Some (Some (Doc jf)) else None.
Proof.
  intros Hne. unfold writes_of, execution_records, account_records.
  rewrite !foldl_app. cbn [foldl fst snd].
  rewrite lookup_insert_ne by done. rewrite lookup_insert_ne by done. rewrite lookup_insert_ne by done.
  unfold Account.Key at 2. destruct (decide (a = to.(Account.Address))) as [->|Ht].
  - unfold Account.Key. by rewrite lookup_insert_eq.
  - unfold Account.Key at 1. rewrite lookup_insert_ne by (intros Hk%Key_of_inj; congruence).
    rewrite lookup_insert_ne by done. destruct (decide (a = from.(Account.Address))) as [->|Hf].
    + unfold Account.Key. by rewrite lookup_insert_eq.
    + unfold Account.Key. rewrite lookup_insert_ne by (intros Hk%Key_of_inj; congruence).
      rewrite writes_other; [done|]. by repeat constructor.
Qed.

Lemma records_transaction g from to jf jt r :
  writes_of (execution_records g from to jf jt r) !! Transaction.Key g.(Gossip.Transaction) =
    Some (Some (Doc (Transaction.MarshalJSON g.(Gossip.Transaction)))).
Proof.
  unfold writes_of, execution_records. rewrite foldl_app, writes_other by by repeat constructor.
  unfold transaction_records. cbn [foldl fst snd].
  rewrite !lookup_insert_ne by done. apply lookup_insert_eq.
Qed.

(** ** Transfers *)

(** What the handler may have done with the balances. *)
Definition moved (s s' : node) (from to : string) (v : Z) : Prop :=
  (forall a, a <> from -> a <> to -> balance_of s'.(database) a = balance_of s.(database) a) /\
  exists fb tb, balance_of s.(database) from = Some fb /\ balance_of s.(database) to = Some tb /\
    v <= fb /\ balance_of s'.(database) from = Some (fb - v) /\ balance_of s'.(database) to = Some (tb + v).

Lemma committed_moves s s' g from to fb tb v now :
  committed s s' g (Account.set_Updated (Account.set_Balance from (Some (fb - v))) now)
                   (Account.set_Updated (Account.set_Balance to (Some (tb + v))) now) ->
  from.(Account.Address) <> to.(Account.Address) ->
  ledger_ok s.(database) -> account_ok from -> account_ok to ->
  balance_of s.(database) from.(Account.Address) = Some fb ->
  balance_of s.(database) to.(Account.Address) = Some tb ->
  0 < v <= fb -> 0 <= tb -> exact fb -> exact (tb + v) ->
  moved s s' from.(Account.Address) to.(Account.Address) v /\ ledger_ok s'.(database) /\
  is_Some (db_view s'.(database) (Transaction.Key g.(Gossip.Transaction))).
Proof.
  intros (jf & jt & r & Hjf & Hjt & _ & Hv) Hne Hok Hf Ht Hfb Htb Hvb Htb0 Hxf Hxt.
  set (f' := Account.set_Updated (Account.set_Balance from (Some (fb - v))) now) in *.
  set (t' := Account.set_Updated (Account.set_Balance to (Some (tb + v))) now) in *.
  assert (account_ok f') as Hf'.
  { destruct Hf as [_ Hn]. split; [|exact Hn]. exists (fb - v). split; [done|]. unfold exact in *. lia. }
  assert (account_ok t') as Ht'.
  { destruct Ht as [_ Hn]. split; [|exact Hn]. by exists (tb + v). }
  assert (forall a, db_view s'.(database) (Account.Key_of a) =
    if decide (a = to.(Account.Address)) then Some (Doc jt)
    else if decide (a = from.(Account.Address)) then Some (Doc jf)
    else db_view s.(database) (Account.Key_of a)) as Hview.
  { intros a. rewrite Hv, records_account by done. by repeat case_decide. }
  assert (db_view s'.(database) (Account.Key_of to.(Account.Address)) = Some (Doc jt)) as Hvt.
  { by rewrite Hview, decide_True. }
  assert (db_view s'.(database) (Account.Key_of from.(Account.Address)) = Some (Doc jf)) as Hvf.
  { by rewrite Hview, decide_False, decide_True. }
  split; [split|split].
  - intros a Haf Hat. unfold balance_of. by rewrite Hview, !decide_False.
  - exists fb, tb. split; [done|]. split; [done|]. split; [lia|]. split.
    + by apply (balance_stored _ _ f' jf).
    + by apply (balance_stored _ _ t' jt).
  - intros a w. rewrite Hview. repeat case_decide.
    + intros [= <-]. exists t', jt, (tb + v). subst a. split_and!; try done. lia.
    + intros [= <-]. exists f', jf, (fb - v). subst a. split_and!; try done. lia.
    + apply Hok.
  - rewrite Hv, records_transaction. by eexists.
Qed.

(** What may be stored without touching an account. *)
Definition same_accounts (db db' : DB) : Prop :=
  forall a, db_view db' (Account.Key_of a) = db_view db (Account.Key_of a).

Lemma same_accounts_balance db db' a : same_accounts db db' -> balance_of db' a = balance_of db a.
Proof. intros H. unfold balance_of. by rewrite H. Qed.

Lemma same_accounts_ok db db' : same_accounts db db' -> ledger_ok db -> ledger_ok db'.
Proof. intros H Hok a v. rewrite H. apply Hok. Qed.

Lemma store_receipt_same s l : is_Some (s.(receipts) !! l) ->
  nwp (store_receipt l) s (fun s' _ =>
    s'.(receipts) = s.(receipts) /\ same_accounts s.(database) s'.(database)).
Proof.
  intros [r Hr]. unfold store_receipt.
  apply nwp_bind, (receipt_at_ok _ _ _ _ Hr), nwp_bind, nwp_gets. set (db := s.(database)).
  set (t := match txn_Set _ _ _ with inl t => t | inr _ => _ end).
  destruct (txn_Commit db t) as [db' err] eqn:Hc. split; [done|]. cbn [fst database].
  apply commit_law in Hc. destruct err as [e|]; [by subst|]. destruct Hc as [_ Hv].
  intros a. rewrite Hv. unfold t. destruct (begin_law db) as (_ & Hw & _).
  destruct (txn_Set (NewTransaction db) _ _) as [t1|e] eqn:Hs.
  - apply set_law in Hs as (_ & -> & _). by rewrite Hw, lookup_insert_ne.
  - by rewrite Hw, lookup_empty.
Qed.

(** The status is in the receipt, and in the database if that takes it. *)
Lemma with_receipt_stored s l r f : s.(receipts) !! l = Some r ->
  nwp (with_receipt l f;; store_receipt l) s (fun s' _ =>
    s'.(receipts) = <[l := f r]> s.(receipts) /\ same_accounts s.(database) s'.(database)).
Proof.
  intros Hr. apply nwp_bind. eapply nwp_mono; [by apply with_receipt_quiet|]. intros s1 [] [Q1 R1].
  rewrite <- R1, <- (quiet_database _ _ Q1). apply store_receipt_same.
  rewrite R1, lookup_insert_eq. by eexists.
Qed.

(** The switch on a transfer: too few tokens, or the new balances. *)
Lemma transfer_tokens_ok s tx receipt r from to t fb tb (Q : node -> switched -> Prop) :
  s.(receipts) !! receipt = Some r ->
  from.(Account.Balance) = Some fb -> to.(Account.Balance) = Some tb ->
  exact fb -> exact tb -> 0 <= fb -> 0 <= tb -> 0 < tx.(Transaction.Value) -> exact (tb + tx.(Transaction.Value)) ->
  (fb < tx.(Transaction.Value) -> forall s',
     s'.(receipts) !! receipt = Some (Receipt.set_Status r StatusInsufficientTokens) ->
     same_accounts s.(database) s'.(database) -> Q s' Stop) ->
  (tx.(Transaction.Value) <= fb ->
     Q s (Go_on (Account.set_Balance from (Some (fb - tx.(Transaction.Value))))
                (Account.set_Balance to (Some (tb + tx.(Transaction.Value)))) t)) ->
  nwp (transfer_tokens tx receipt from to t) s Q.
Proof.
  intros Hr Hf Ht Hxf Hxt Hf0 Ht0 Hv Hx Hstop Hgo. unfold transfer_tokens. rewrite Hf, Ht.
  apply nwp_bind, (nwp_of_opt _ _ fb); [done|]. rewrite (exact_i64 fb Hxf).
  destruct (Z.ltb_spec fb tx.(Transaction.Value)) as [Hlt|Hge].
  - apply nwp_bind. eapply nwp_mono; [by apply with_receipt_stored|]. intros s' [] [HR HS].
    apply nwp_ret, Hstop; [done| |done]. rewrite HR. apply lookup_insert_eq.
  - apply nwp_bind, (nwp_of_opt _ _ tb); [done|].
    rewrite (exact_i64 tb Hxt), !exact_i64 by (unfold exact in *; lia). by apply nwp_ret, Hgo.
Qed.

(** The whole handler on a transfer: the accounts stay, or the tokens move. *)
Lemma executeTransaction_spec s l receipt g r fb tb :
  let tx := g.(Gossip.Transaction) in
  let key := Transaction.Key tx in
  s.(gossips) !! l = Some g -> s.(receipts) !! receipt = Some r ->
  tx.(Transaction.Type_) = TypeTransferTokens -> tx.(Transaction.From) <> tx.(Transaction.To) ->
  0 < tx.(Transaction.Value) -> ledger_ok s.(database) ->
  balance_of s.(database) tx.(Transaction.From) = Some fb -> 0 <= fb -> exact fb ->
  balance_of s.(database) tx.(Transaction.To) = Some tb -> 0 <= tb -> exact tb ->
  exact (tb + tx.(Transaction.Value)) ->
  nwp (executeTransaction l receipt) s (fun s' _ =>
    (same_accounts s.(database) s'.(database) /\
     (forall v, (txn_Get (NewTransaction s.(database)) key).2 = inl v -> s' = s) /\
     (reliable -> (exists v, (txn_Get (NewTransaction s.(database)) key).2 = inl v) \/
        fb < tx.(Transaction.Value) /\
        s'.(receipts) !! receipt = Some (Receipt.set_Status r StatusInsufficientTokens))) \/
    (moved s s' tx.(Transaction.From) tx.(Transaction.To) tx.(Transaction.Value) /\
     ledger_ok s'.(database) /\ is_Some (db_view s'.(database) key) /\
     tx.(Transaction.Value) <= fb /\ s'.(receipts) !! receipt = Some (Receipt.set_Status r StatusOk) /\
     forall v, (txn_Get (NewTransaction s.(database)) key).2 <> inl v)).
Proof.
  intros tx key Hg Hr Hty Hne Hv Hok Hfb Hfb0 Hfbx Htb Htb0 Htbx Hxt.
  unfold executeTransaction. apply nwp_bind, (gossip_at_ok _ _ _ _ Hg), nwp_bind, nwp_gets.
  fold tx. fold key. destruct (txn_Get (NewTransaction s.(database)) key) as [t seen] eqn:Hseen.
  destruct seen as [v|e]; [by apply nwp_ret; left; split_and!; [| |eauto]|]. cbn [snd].
  set (few := fun s' : node => fb < tx.(Transaction.Value) /\
    s'.(receipts) !! receipt = Some (Receipt.set_Status r StatusInsufficientTokens)).
  assert (forall s' : node, same_accounts s.(database) s'.(database) -> (reliable -> few s') ->
    same_accounts s.(database) s'.(database) /\ (forall v : stored, @inr stored ledger_error e = inl v -> s' = s) /\
    (reliable -> (exists v : stored, @inr stored ledger_error e = inl v) \/ few s')) as Hstay.
  { intros s' Hs' Hf. split_and!; [done|done|]. intros R. right. by apply Hf. }
  apply get_law in Hseen as (G1 & G2 & _). destruct (begin_law s.(database)) as (B1 & B2 & _).
  rewrite B1 in G1. rewrite B2 in G2. rewrite <- G1 in Hok, Hfb, Htb.
  apply nwp_bind. eapply nwp_mono; [apply time_Now_quiet|]. intros s1 now [Q1 R1].
  assert (forall s' : node, quiet s1 s' -> same_accounts s.(database) s'.(database)) as Hq.
  { intros s' Q a. by rewrite (quiet_database _ _ Q), (quiet_database _ _ Q1). }
  assert (forall db : DB, same_accounts s1.(database) db -> same_accounts s.(database) db) as Hs1.
  { intros db. by rewrite (quiet_database _ _ Q1). }
  assert (s1.(receipts) !! receipt = Some r) as Hr1 by by rewrite R1.
  assert (s1.(gossips) !! l = Some g) as Hg1 by by rewrite (quiet_gossips _ _ Q1).
  apply nwp_bind. eapply nwp_mono; [by apply (find_account_ok _ _ _ t fb)|].
  intros ? [t1 from] (-> & T1 & W1 & Hfrom). destruct from as [from|e1].
  2: { eapply nwp_mono; [apply internal_error_quiet; by eexists|]. intros s' [] Q. left. apply Hstay; [by apply Hq|done]. }
  destruct Hfrom as (Hfa & Hfok & Hfbal). cbn [fst snd] in *.
  apply nwp_bind. eapply nwp_mono; [apply (find_account_ok _ _ _ t1 tb); [by rewrite T1|exact W1|by rewrite T1]|].
  intros ? [t2 to] (-> & T2 & W2 & Hto). destruct to as [to|e2].
  2: { eapply nwp_mono; [by eapply with_receipt_stored|]. intros s' [] [_ Q]. left. apply Hstay; [by apply Hs1|done]. }
  destruct Hto as (Hta & Htok & Htbal). cbn [fst snd] in *.
  apply nwp_bind. rewrite Hty. change (TypeTransferTokens =? TypeTransferTokens) with true. cbv iota.
  eapply transfer_tokens_ok; [exact Hr1|exact Hfbal|exact Htbal|done..| |].
  - intros Hlt s' HR HS. apply nwp_ret. left. apply Hstay; [by apply Hs1|done].
  - intros Hle. rewrite G1 in Hok, Hfb, Htb.
    eapply nwp_mono; [apply (commit_transaction_ok _ _ _ _ _ _ _ g r); try done|].
    + by rewrite T2, T1, (quiet_database _ _ Q1).
    + destruct Hfok as [_ Hn]. split; [|exact Hn]. exists (fb - tx.(Transaction.Value)). split; [done|]. unfold exact in *. lia.
    + destruct Htok as [_ Hn]. split; [|exact Hn]. by exists (tb + tx.(Transaction.Value)).
    + intros s' [] [[HR Heq]|[Hc HR]].
      * left. apply Hstay; [|done]. intros a. by rewrite Heq, (quiet_database _ _ Q1).
      * right. apply (committed_moves _ _ _ _ _ fb tb) in Hc as (Hm & Hok' & Hkey); try done.
        -- rewrite <- Hfa, <- Hta. split_and!; try done. unfold moved in *. by rewrite (quiet_database _ _ Q1) in Hm.
        -- by rewrite Hfa, Hta.
        -- by rewrite (quiet_database _ _ Q1).
        -- by rewrite (quiet_database _ _ Q1), Hfa.
        -- by rewrite (quiet_database _ _ Q1), Hta.
Qed.

End Execution.
