(* ===== verification/DaposProperties.v ===== *)
(** * The properties of the node

    Execution, gossiping and what is stored, with the inputs at which the theorems
    are applied. *)
From Stdlib Require Import ZArith Lia.
From stdpp Require Import pretty.
From S2P Require Import Prelude Queue Word Hex Json Ledger LedgerFacts Store Dapos DaposSteps DaposGossip DaposExecution.
Import Big.
Open Scope Z_scope.

(** ** A node to evaluate

    Concrete instances of what the node works with: a database and a cache that are
    maps, a toy signature scheme, a clock that moves by a millisecond and peers that
    do not answer.  The theorems are applied to them. *)

Fixpoint json_dec (a b : json) {struct a} : {a = b} + {a <> b}.
Proof.
  decide equality; try apply Z.eq_dec; try apply String.string_dec; try apply Bool.bool_dec.
  - exact (List.list_eq_dec json_dec l l0).
  - refine (List.list_eq_dec (fun x y => _) l l0).
    destruct x as [k v], y as [k' v']. destruct (String.string_dec k k') as [->|]; [|right; congruence].
    destruct (json_dec v v') as [->|]; [by left|right; congruence].
Defined.

#[export] Instance stored_eq_dec : EqDecision stored.
Proof. intros a b. unfold Decision. decide equality; [apply json_dec|apply String.string_dec]. Defined.

(** ** A database that is a map *)
Abbreviation map_db := (gmap string stored) (only parsing).
Record map_txn := { base : map_db; writes : gmap string (option stored); reads : gset string }.

Definition map_get (t : map_txn) (k : string) : map_txn * (stored + ledger_error) :=
  ({| base := t.(base); writes := t.(writes); reads := {[k]} ∪ t.(reads) |},
   match default (t.(base) !! k) (t.(writes) !! k) with Some v => inl v | None => inr ErrKeyNotFound end).

Definition map_write (t : map_txn) (k : string) (v : option stored) : map_txn :=
  {| base := t.(base); writes := <[k := v]> t.(writes); reads := t.(reads) |}.

Definition applied (w : gmap string (option stored)) (db : map_db) : map_db :=
  merge (fun w v => match w with Some w => w | None => v end) w db.

Lemma applied_lookup w db k : applied w db !! k = default (db !! k) (w !! k).
Proof. unfold applied. rewrite lookup_merge. by destruct (w !! k), (db !! k). Qed.

Definition map_commit (db : map_db) (t : map_txn) : map_db * option ledger_error :=
  if forallb (fun k => bool_decide (db !! k = t.(base) !! k)) (elements t.(reads))
  then (applied t.(writes) db, None)
  else (db, Some ErrConflict).

#[export] Instance map_Badger : Badger := {|
  DB := map_db;
  Txn := map_txn;
  NewTransaction := fun db => {| base := db; writes := ∅; reads := ∅ |};
  txn_Get := map_get;
  txn_Set := fun t k v => inl (map_write t k (Some v));
  txn_Delete := fun t k => inl (map_write t k None);
  txn_Commit := map_commit;
  txn_Items := fun t => sort_by (fun a b => String.ltb a.1 b.1) (map_to_list (applied t.(writes) t.(base)))
|}.

#[export] Instance map_BadgerLaws : BadgerLaws map_Badger.
Proof.
  refine {| db_view := fun (db : @DB map_Badger) k => (db : map_db) !! k;
            txn_base := fun t : @Txn map_Badger => t.(base);
            txn_writes := fun t : @Txn map_Badger => t.(writes);
            txn_reads := fun t : @Txn map_Badger => t.(reads) |}.
  - by intros db.
  - intros t k t' r H. cbn in H. unfold map_get in H. injection H as <- <-. cbn. split_and!; try done; [set_solver|set_solver|].
    by destruct (default _ _) eqn:E.
  - intros t k v t' [= <-]. done.
  - intros t k t' [= <-]. done.
  - intros db t db' r H. cbn in H. unfold map_commit in H. destruct (forallb _ _) eqn:Hr; injection H as <- <-; [|done].
    split.
    + intros k Hk. apply Is_true_true_2, forallb_True in Hr. rewrite Forall_forall in Hr.
      apply elem_of_elements in Hk. specialize (Hr k Hk). by apply bool_decide_unpack in Hr.
    + intros k. apply applied_lookup.
Defined.

Lemma map_reliable : reliable (B := map_Badger).
Proof.
  split.
  - intros t k t' e H. cbn in H. unfold map_get in H. destruct (default _ _); by simplify_eq.
  - intros t k v. by eexists.
  - intros db t Hb. cbn. unfold map_commit. destruct (forallb _ _) eqn:H; [done|].
    exfalso. apply not_true_iff_false in H. apply H, Is_true_true_1, forallb_True, Forall_forall.
    intros k _. apply bool_decide_pack. cbn in Hb. by subst.
Qed.

(** ** A cache that is a map, with the end of life of its entries *)
Abbreviation map_cache := (gmap string (entry * Z)) (only parsing).
Definition live (now : Z) (e : entry * Z) : option entry :=
  if (e.2 =? 0) || (now <=? e.2) then Some e.1 else None.

#[export] Instance map_GoCache : GoCache := {|
  Cache := map_cache;
  cache_Get := fun c now k => (c : map_cache) !! k ≫= live now;
  cache_Set := fun c now k e ttl => <[k := (e, if ttl =? 0 then 0 else now + ttl)]> (c : map_cache);
  cache_Delete := fun c k => delete k (c : map_cache);
  cache_Items := fun c now => omap (fun kv => e ← live now kv.2; Some (kv.1, e)) (map_to_list (c : map_cache))
|}.

#[export] Instance map_GoCacheLaws : GoCacheLaws map_GoCache.
Proof.
  split; cbn; intros.
  - rewrite lookup_insert_eq. cbn. unfold live. cbn. destruct (Z.eqb_spec ttl 0); [done|].
    rewrite (proj2 (Z.leb_le now (now + ttl))) by lia. by rewrite orb_true_r.
  - by rewrite lookup_insert_ne.
  - by rewrite lookup_delete_eq.
  - by rewrite lookup_delete_ne.
Qed.

(** ** A toy signature scheme: the signature shows the key *)
Definition toy_hash (b : list Z) : list Z := be_bytes 32 (foldl (fun h x => (h * 257 + x + 1) mod 2 ^ 256) 0 b).

#[export] Instance toy_Signatures : Signatures := {|
  Keccak256_sum := toy_hash;
  secp256k1_recover := fun hash sig => Some (4 :: take 32 sig);
  secp256k1_verify := fun pub msg sig => bool_decide (pub = 4 :: take 32 sig /\ msg = drop 32 sig);
  secp256k1_sign := fun msg key => Some (key ++ msg ++ [0])
|}.

Definition toy_key (n : Z) : string := hex_EncodeToString (be_bytes 32 n).
Definition toy_address (n : Z) : string := hex_EncodeToString (drop 12 (toy_hash (be_bytes 32 n))).

#[export] Instance toy_Env : NodeEnv.
Proof.
  refine {| MyAddress := toy_address 1; MyPrivateKey := toy_key 1; ThisNodeAddress := toy_address 1; IsBookkeeper := true;
            Now := fun n => 1000000 * (1600000000000 + Z.of_nat n); Intn := fun _ _ => O;
            Peer := fun _ _ _ => NoConnection |}.
  done.
Defined.

(** A machine that runs nothing. *)
#[export] Instance idle_DVM : DVMService map_Badger := {|
  DeploySmartContract := fun db _ => (db, inr (errDvm 1));
  ExecuteSmartContract := fun db _ =>
    (db, ({| ContractAddress := 0; StateObjects := []; ABI := ""; ContractMethod := "";
             ContractMethodExecResult := []; ContractMethodExecError := Some (errDvm 1) |}, Some (errDvm 1)));
  GetConvertedParams := fun tx => inl tx.(Transaction.Params);
  method_outputs := fun _ _ => inr (errDvm 2)
|}.

(** ** A transfer *)
Definition account (a : string) (b : Z) : Account.t :=
  {| Account.Address := a; Account.PrivateKey := ""; Account.Name := "n"; Account.Balance := Some b;
     Account.TransactionHash := ""; Account.Updated := 0; Account.Created := 0; Account.Nonce := 0 |}.

Definition alice : string := toy_address 2.
Definition bob : string := toy_address 3.

Definition sample_db (b : Z) : map_db :=
  match Account.MarshalJSON (account alice b) with
  | Some j => {[Account.Key_of alice := Doc j]}
  | None => ∅
  end.

Definition transfer (v : Z) : Transaction.t :=
  match Transaction.NewTransferTokensTransaction (Now 0) (toy_key 2) alice bob v 0 1599999999990 with
  | Ret tx => tx
  | _ => Transaction.empty
  end.

Example transfer_verifies : Transaction.Verify (transfer 30) = Ret tt.
Proof. vm_compute. reflexivity. Qed.

Definition rumor_of (n : Z) (now : Z) (tx : Transaction.t) : Rumor.t :=
  match Rumor.NewRumor now (toy_key n) (toy_address n) tx.(Transaction.Hash) with
  | Some r => r
  | None => Rumor.empty
  end.

Definition gossip_of (tx : Transaction.t) : Gossip.t :=
  {| Gossip.Transaction := tx; Gossip.Rumors := [rumor_of 1 (Now 0) tx] |}.

(** Its gossip at 0, its receipt at 1. *)
Definition sample_node (b v : Z) : node := {|
  database := sample_db b : @DB map_Badger;
  cache := (∅ : map_cache) : @Cache map_GoCache;
  receipts := {[1%nat := Receipt.NewReceipt (Now 0) (transfer v).(Transaction.Hash)]};
  gossips := {[0%nat := gossip_of (transfer v)]};
  next := 2; ticks := 0; gossipChan := []; timoutChan := 0; gossipQueue := {| Queue := []; ExistsMap := ∅ |}; timers := []
|}.

Definition balances (s : option (node * unit)) (a b : string) : option (option Z * option Z) :=
  s ← s; Some (balance_of s.1.(database) a, balance_of s.1.(database) b).

Lemma balances_Some r a b x y : balances r a b = Some (x, y) ->
  exists s', r = Some (s', tt) /\ balance_of s'.(database) a = x /\ balance_of s'.(database) b = y.
Proof. unfold balances. destruct r as [[s' []]|]; [|done]. intros [= <- <-]. by exists s'. Qed.

(** Enough tokens, too few, and the same transfer again. *)
Example transfer_runs : balances (executeTransaction 0 1 (sample_node 100 30)) alice bob = Some (Some 70, Some 30).
Proof. vm_compute. reflexivity. Qed.
Example transfer_refused : balances (executeTransaction 0 1 (sample_node 10 30)) alice bob = Some (Some 10, Some 0).
Proof. vm_compute. reflexivity. Qed.
Example transfer_repeated :
  balances ('(s, _) ← executeTransaction 0 1 (sample_node 100 30); executeTransaction 0 1 s) alice bob = Some (Some 70, Some 30).
Proof. vm_compute. reflexivity. Qed.

Lemma sample_ledger_ok b : 0 <= b -> exact b -> ledger_ok (sample_db b : @DB map_Badger).
Proof.
  intros Hb Hx a v. assert (account_ok (account alice b)) as Ha by (split; [by exists b|done]).
  destruct (account_round_trip _ Ha) as (j & Hj & _). unfold sample_db. rewrite Hj. cbn. intros Hv.
  apply lookup_singleton_Some in Hv as [Hk <-]. exists (account alice b), j, b.
  split; [done|]. split; [exact Hj|]. split; [exact (Key_of_inj _ _ Hk)|]. split; [done|]. split; [done|done].
Qed.

(** ** A delegate among three *)
Definition delegate (n : Z) : Node.t :=
  {| Node.Address := toy_address n; Node.GrpcEndpoint := None; Node.HttpEndpoint := None;
     Node.Type_ := "Delegate"; Node.Status := ""; Node.StatusTime := 0 |}.

Definition known_delegates (l : list Z) : map_cache :=
  foldr (fun n c => <[Node.Key (delegate n) := (CNode (delegate n), 0)]>
                    (<[Node.TypeKey (delegate n) := (CKey (Node.Key (delegate n)), 0)]> c)) ∅ l.

Definition delegate_node (b : Z) : node := {|
  database := sample_db b : @DB map_Badger;
  cache := known_delegates [1; 11; 12] : @Cache map_GoCache;
  receipts := ∅; gossips := ∅; next := 0; ticks := 0; gossipChan := []; timoutChan := 0;
  gossipQueue := {| Queue := []; ExistsMap := ∅ |}; timers := []
|}.

(** *** Somebody else's tokens

    Mallory has a key of her own and no tokens.  She gossips a transfer she signed,
    then one from Alice that nobody signed under the hash of the first, with rumors
    that are no rumors. *)
Definition mallory : string := toy_address 4.

Definition bait : Transaction.t :=
  match Transaction.NewTransferTokensTransaction (Now 0) (toy_key 4) mallory bob 1 0 1599999999990 with
  | Ret tx => tx
  | _ => Transaction.empty
  end.

Definition theft : Transaction.t :=
  Transaction.set_Hash (Transaction.unsigned TypeTransferTokens alice mallory 100 "" "" "" [] 1599999999990)
    bait.(Transaction.Hash).

Definition no_rumor (a : string) : Rumor.t :=
  {| Rumor.Hash := ""; Rumor.Address := a; Rumor.TransactionHash := ""; Rumor.Time := 1600000000000;
     Rumor.Signature := "" |}.

(** Two messages, two turns of the gossip worker, a timer, a turn of the transaction
    worker. *)
Definition attack (s : node) : option (node * unit) :=
  (GossipGrpc (Gossip.MarshalJSON {| Gossip.Transaction := bait; Gossip.Rumors := [] |});;
   GossipGrpc (Gossip.MarshalJSON {| Gossip.Transaction := theft; Gossip.Rumors := [no_rumor "x"; no_rumor "y"] |});;
   gossipWorker;; gossipWorker;; timer_fires 0;; transactionWorker) s.

(** The delegate once it has heard of the transfer, from nobody else yet. *)
Definition hearing_node : node :=
  match GossipGrpc (Gossip.MarshalJSON {| Gossip.Transaction := bait; Gossip.Rumors := [] |}) (delegate_node 100) with
  | Some (s, _) => s
  | None => delegate_node 100
  end.

(** A peer's rumor, and one that is none. *)
Definition heard : Gossip.t :=
  {| Gossip.Transaction := bait; Gossip.Rumors := [rumor_of 11 (Now 1) bait; no_rumor "x"] |}.

(** The node's own gossip of it. *)
Definition overheard : Gossip.t := {| Gossip.Transaction := reloaded bait; Gossip.Rumors := [rumor_of 1 (Now 2) bait] |}.

(** What the peer's message is read as. *)
Definition heard_read : Gossip.t := {| Gossip.Transaction := reloaded bait; Gossip.Rumors := heard.(Gossip.Rumors) |}.

Example heard_is_read :
  Gossip.ToGossipFromJson (Now (ticks hearing_node)) (Gossip.MarshalJSON heard) = Ret heard_read.
Proof. vm_compute. reflexivity. Qed.

(** The delegate with two of three rumors in the channel's oldest gossip. *)
Definition agreed : Gossip.t :=
  {| Gossip.Transaction := bait; Gossip.Rumors := [rumor_of 11 (Now 1) bait; rumor_of 1 (Now 0) bait] |}.
Definition agreed_node : node := {|
  database := sample_db 100 : @DB map_Badger;
  cache := known_delegates [1; 11; 12] : @Cache map_GoCache;
  receipts := ∅; gossips := {[0%nat := agreed]}; next := 1; ticks := 0; gossipChan := []; timoutChan := 0;
  gossipQueue := {| Queue := []; ExistsMap := ∅ |}; timers := []
|}.

(** *** A call, and one with the same signature *)
Definition call (method code : string) (n : Z) : Transaction.t :=
  match Transaction.sign_with (Now 0) (toy_key 2) 1599999999990 (Transaction.unsigned TypeExecuteSmartContract alice bob 0
    code "" method [JNum n]) with
  | Ret tx => tx
  | _ => Transaction.empty
  end.

Definition forged_call (method code : string) (n : Z) : Transaction.t :=
  let signed := call "transfer" "" 1 in
  Transaction.set_Signature (Transaction.set_Hash
    (Transaction.unsigned TypeExecuteSmartContract alice bob 0 code "" method [JNum n] 1599999999990)
    signed.(Transaction.Hash)) signed.(Transaction.Signature).

Section Transfers.
Context {B : Badger} {C : GoCache} {E : NodeEnv} {V : DVMService B} {CR : Signatures} {GS : GoSort}.
Context {BL : BadgerLaws B}.

(** C1: a transfer between two accounts of a well-formed ledger never panics, and
    either moves exactly its value from the one balance to the other, together with
    storing the transaction and an Ok receipt, or leaves every balance; the ledger
    stays well-formed and no balance is overdrawn; a transaction found to be stored
    changes nothing; and while the database does not fail, too few tokens are the
    only other reason why it does not move them, and the receipt says so. *)
Theorem transfers_move_tokens s l receipt g r fb :
  let tx := g.(Gossip.Transaction) in
  let key := Transaction.Key tx in
  s.(gossips) !! l = Some g -> s.(receipts) !! receipt = Some r ->
  tx.(Transaction.Type_) = TypeTransferTokens -> tx.(Transaction.From) <> tx.(Transaction.To) ->
  0 < tx.(Transaction.Value) -> ledger_ok s.(database) ->
  balance_of s.(database) tx.(Transaction.From) = Some fb ->
  (forall tb, balance_of s.(database) tx.(Transaction.To) = Some tb -> exact (tb + tx.(Transaction.Value))) ->
  exists s', executeTransaction l receipt s = Some (s', tt) /\ ledger_ok s'.(database) /\
    let same := forall a, balance_of s'.(database) a = balance_of s.(database) a in
    let went := tx.(Transaction.Value) <= fb /\
      moved s s' tx.(Transaction.From) tx.(Transaction.To) tx.(Transaction.Value) /\
      is_Some (db_view s'.(database) key) /\
      s'.(receipts) !! receipt = Some (Receipt.set_Status r StatusOk) in
    (same \/ went) /\
    (forall v, (txn_Get (NewTransaction s.(database)) key).2 = inl v -> s' = s) /\
    (reliable -> (forall v, (txn_Get (NewTransaction s.(database)) key).2 <> inl v) ->
       went \/ same /\ fb < tx.(Transaction.Value) /\
         s'.(receipts) !! receipt = Some (Receipt.set_Status r StatusInsufficientTokens)).
Proof.
  intros tx key Hg Hr Hty Hne Hv Hok Hfb Hx.
  destruct (ledger_balance _ tx.(Transaction.From) Hok) as (fb' & Hfb' & Hfb0 & Hfbx). simplify_eq.
  destruct (ledger_balance _ tx.(Transaction.To) Hok) as (tb & Htb & Htb0 & Htbx).
  pose proof (executeTransaction_spec s l receipt g r fb tb Hg Hr Hty Hne Hv Hok Hfb Hfb0 Hfbx Htb Htb0 Htbx (Hx tb Htb)) as H.
  unfold nwp in H. destruct (executeTransaction l receipt s) as [[s' []]|]; [|done]. exists s'. split; [done|].
  destruct H as [(Hsame & Hseen & Hrel) | (Hmoved & Hok' & Hkey & Hle & Hst & Hseen)].
  - split; [by eapply same_accounts_ok|].
    assert (forall a, balance_of s'.(database) a = balance_of s.(database) a) as Hb by
      (intros a; by apply same_accounts_balance).
    split; [by left|]. split; [exact Hseen|]. intros R Hno. destruct (Hrel R) as [[v Hv']|[Hlt HR]]; [by destruct (Hno v)|].
    by right.
  - split; [done|]. split; [by right|]. split; [intros v Hv'; by destruct (Hseen v)|]. by left.
Qed.
End Transfers.

Lemma transfers_move_tokens_witness : let g := gossip_of (transfer 30) in
  exists s', executeTransaction 0 1 (sample_node 100 30) = Some (s', tt) /\
    balance_of s'.(database) g.(Gossip.Transaction).(Transaction.From) = Some 70 /\
    balance_of s'.(database) g.(Gossip.Transaction).(Transaction.To) = Some 30.
Proof.
  intros g.
  assert (g.(Gossip.Transaction).(Transaction.Value) = 30) as Hv by (vm_compute; reflexivity).
  assert (balance_of (database (sample_node 100 30)) g.(Gossip.Transaction).(Transaction.From) = Some 100) as Hf
    by (vm_compute; reflexivity).
  assert (balance_of (database (sample_node 100 30)) g.(Gossip.Transaction).(Transaction.To) = Some 0) as Ht
    by (vm_compute; reflexivity).
  destruct (transfers_move_tokens (sample_node 100 30) 0 1 g
    (Receipt.NewReceipt (Now 0) (transfer 30).(Transaction.Hash)) 100) as (s' & He & _ & _ & _ & Hrel).
  - reflexivity.
  - reflexivity.
  - vm_compute. reflexivity.
  - apply (bool_decide_eq_false_1 (g.(Gossip.Transaction).(Transaction.From) = g.(Gossip.Transaction).(Transaction.To))).
    vm_compute. reflexivity.
  - rewrite Hv. lia.
  - apply sample_ledger_ok; [lia|]. unfold exact. lia.
  - exact Hf.
  - intros tb. rewrite Ht, Hv. intros [= <-]. unfold exact. lia.
  - exists s'. split; [exact He|]. rewrite Hv in Hrel.
    destruct (Hrel map_reliable) as [(_ & (_ & fb & tb & H1 & H2 & _ & H3 & H4) & _) | (_ & Hlt & _)].
    + intros v. vm_compute. discriminate.
    + rewrite Hf in H1. injection H1 as <-. rewrite Ht in H2. injection H2 as <-. split; [exact H3|exact H4].
    + lia.
Defined.

(** ** Gossiping *)
Section Gossiping.
Context {B : Badger} {C : GoCache} {E : NodeEnv} {V : DVMService B} {CR : Signatures} {GS : GoSort}.

(** C17: a gossip of a peer about a transaction the node has already rumored adds to
    the node's own gossip exactly the peer's rumors that verify and whose address is
    new, and the reply is that gossip.  But what is put in the channel is the peer's
    gossip as it was sent, with a transaction and rumors nobody verified, whenever
    the address of its last rumor was not there before. *)
Theorem known_gossip_takes_verified_rumors s payload lo g ours :
  (forall hash sig key, secp256k1_recover hash sig = Some key -> key <> []) ->
  Gossip.ToGossipFromJson (Now s.(ticks)) payload = Ret g ->
  lo <> s.(next) -> s.(gossips) !! lo = Some ours ->
  cached_gossip (ticked s) g.(Gossip.Transaction).(Transaction.Hash) = Some (CGossip lo) ->
  MyAddress ∈ addresses ours.(Gossip.Rumors) ->
  exists s' new b, let ours' := Gossip.set_Rumors ours (ours.(Gossip.Rumors) ++ new) in
    GossipGrpc payload s = Some (s', inl (Gossip.MarshalJSON ours')) /\
    taken g.(Gossip.Rumors) ours.(Gossip.Rumors) new /\
    s'.(gossips) = <[lo := ours']> (<[s.(next) := g]> s.(gossips)) /\
    s'.(database) = s.(database) /\ s'.(gossipQueue) = s.(gossipQueue) /\
    last_known g.(Gossip.Rumors) ours.(Gossip.Rumors) new false b /\
    s'.(gossipChan) = s.(gossipChan) ++ if b then [] else [s.(next)].
Proof.
  intros Hrec Hj Hne Ho Hc Hmine.
  destruct (GossipGrpc_known s payload lo g ours Hrec Hj Hne Ho Hc Hmine) as (new & b & Hn & Hl & H).
  unfold nwp in H. destruct (GossipGrpc payload s) as [[s' r]|]; [|done]. destruct H as [-> ->].
  by exists (with_channels (with_gossip (ticked (with_new (ticked s) g)) lo (Gossip.set_Rumors ours (ours.(Gossip.Rumors) ++ new)))
    (s.(gossipChan) ++ if b then [] else [s.(next)]) s.(timoutChan) s.(gossipQueue) s.(timers)), new, b.
Qed.

(** C3: a turn of the gossip worker queues the gossip, and starts its timer, if the
    rumors lie close enough to each other and to now, are two thirds of the delegates
    and no transaction of that hash is queued; in every other case the queue, the
    timers and the database stay as they are.  Whose rumors they are plays no part. *)
Theorem transactions_are_queued_at_two_thirds s l g b ds :
  s.(gossips) !! l = Some g -> queue_rel s b -> delegates_are s ds ->
  let hash := g.(Gossip.Transaction).(Transaction.Hash) in
  let time := g.(Gossip.Transaction).(Transaction.Time) in
  exists sorted ok, in_time (Now (S (S s.(ticks)))) g sorted ok /\ sorted ≡ₚ g.(Gossip.Rumors) /\
    if ok && (2 * length ds <=? 3 * length g.(Gossip.Rumors))%nat
    then exists s', gossip_turn l s = Some (s', tt) /\ s'.(database) = s.(database) /\
      s'.(gossips) !! l = Some (Gossip.set_Rumors g sorted) /\
      if bool_decide (hash ∈ map qhash b) then queue_rel s' b /\ s'.(timers) = s.(timers)
      else queue_rel s' ({| ptr := l; qhash := hash; qtime := time |} :: b) /\
        exists now, s'.(timers) = s.(timers) ++ [timeout_of now time (length ds)]
    else forall s', gossip_turn l s = Some (s', tt) -> fixed s' = fixed s.
Proof.
  intros Hg Hb Hd hash time. destruct (in_time_exists (Now (S (S s.(ticks)))) g) as (sorted & ok & Ht & Hp).
  exists sorted, ok. split; [done|]. split; [done|]. destruct (ok && _)%bool eqn:Hok.
  - apply andb_true_iff in Hok as [-> Hn%Nat.leb_le].
    pose proof (gossip_turn_queues s l g b ds sorted Hg Hb Hd Ht Hp Hn) as H. unfold nwp in H.
    destruct (gossip_turn l s) as [[s' []]|]; [|done]. exists s'. by destruct H as (H1 & _ & H3 & H4).
  - intros s' He.
    assert (ok = false \/ (3 * length g.(Gossip.Rumors) < 2 * length ds)%nat) as Hwhy.
    { apply andb_false_iff in Hok as [->|H%Nat.leb_gt]; auto. }
    pose proof (gossip_turn_waits s l g ds sorted ok Hg Hd Ht Hp Hwhy) as H. unfold returns in H. by rewrite He in H.
Qed.

(** A peer can stop the node: a rumor whose hash is a number makes the handler
    panic, whatever the node has done before. *)
Theorem malformed_rumors_crash s n :
  GossipGrpc (JObj [("Rumors", JArr [JObj [("hash", JNum n)]])]) s = None.
Proof. reflexivity. Qed.
End Gossiping.

Lemma known_gossip_takes_verified_rumors_witness :
  exists s' new, GossipGrpc (Gossip.MarshalJSON heard) hearing_node =
      Some (s', inl (Gossip.MarshalJSON (Gossip.set_Rumors overheard (overheard.(Gossip.Rumors) ++ new)))) /\
    taken heard_read.(Gossip.Rumors) overheard.(Gossip.Rumors) new.
Proof.
  destruct (known_gossip_takes_verified_rumors hearing_node (Gossip.MarshalJSON heard) 0 heard_read overheard)
    as (s' & new & b & He & Ht & _).
  - intros hash sig key [= <-]. discriminate.
  - exact heard_is_read.
  - vm_compute. discriminate.
  - vm_compute. reflexivity.
  - vm_compute. reflexivity.
  - apply (bool_decide_unpack (MyAddress ∈ addresses overheard.(Gossip.Rumors))). vm_compute. exact I.
  - exists s', new. split; [exact He|exact Ht].
Defined.

Lemma transactions_are_queued_at_two_thirds_witness :
  exists s', gossip_turn 0 agreed_node = Some (s', tt) /\ length s'.(timers) = 1%nat.
Proof.
  destruct (transactions_are_queued_at_two_thirds agreed_node 0 agreed []
    (default [] (delegates_of agreed_node)))
    as (sorted & ok & Ht & _ & H).
  - reflexivity.
  - destruct (gq_new_rel qhash qtime) as (gq & Hgq & Hrel). vm_compute in Hgq. injection Hgq as <-. exact Hrel.
  - apply delegates_of_are. vm_compute. reflexivity.
  - assert (ok = true) as -> by (vm_compute in Ht; congruence).
    assert ((2 * length (default [] (delegates_of agreed_node)) <=? 3 * length (Gossip.Rumors agreed))%nat = true) as Hn
      by (vm_compute; reflexivity).
    rewrite Hn in H. destruct H as (s' & He & _ & _ & _ & now & Htm). exists s'. split; [exact He|].
    rewrite Htm. reflexivity.
Defined.

(** A transfer that nobody signed is executed: whoever has gossiped a transaction
    of her own gossips another one under its hash, and enough rumors that do not
    verify, and the node moves the tokens of an account she has no key of. *)
Theorem tampered_transfer_executes :
  Transaction.Verify theft <> Ret tt /\ theft.(Transaction.From) = alice /\
  (exists s', attack (delegate_node 100) = Some (s', tt) /\
    balance_of (delegate_node 100).(database) alice = Some 100 /\
    balance_of s'.(database) alice = Some 0 /\ balance_of s'.(database) mallory = Some 100).
Proof.
  split; [vm_compute; discriminate|]. split; [reflexivity|].
  destruct (balances_Some (attack (delegate_node 100)) alice mallory (Some 0) (Some 100)) as (s' & He & Ha & Hm).
  { vm_compute. reflexivity. }
  exists s'. split; [exact He|]. split; [vm_compute; reflexivity|]. split; [exact Ha|exact Hm].
Qed.

(** ** Records *)
Section Records.
Context {B : Badger} {C : GoCache} {E : NodeEnv} {V : DVMService B} {CR : Signatures} {GS : GoSort}.
Context {BL : BadgerLaws B}.

(** C37: an account that is stored is found again as it was, and a transaction with
    its receipt as well, but for what is not stored with it and for the hertz, for
    which its type comes back. *)
Theorem stored_records_load_back now t a tx :
  reliable -> account_ok a -> transaction_ok now tx ->
  (exists t1 t2, Account_Persist a t = Ret (t1, None) /\
     ToAccountByAddress a.(Account.Address) t1 = Ret (t2, inl a)) /\
  (exists t1 t2, Transaction_Persist tx t = Ret (t1, None) /\
     load (Transaction.Key tx) (Transaction.ToTransactionFromJson now) t1 = Ret (t2, inl (reloaded tx))).
Proof.
  intros R Ha Htx. split.
  - destruct (account_round_trip a Ha) as (j & Hj & Hr).
    destruct (Account_Persist_wrote a t Ha) as (j' & Hj' & t1 & r & Hp & Hw & Hn).
    rewrite Hj in Hj'. injection Hj' as <-.
    specialize (Hn R) as ->. destruct (Hw eq_refl) as (_ & _ & W).
    destruct (load_written R t1 (Account.Key a) j Account.ToAccountFromJson a) as (t2 & Hl & _); [|done|by exists t1, t2].
    rewrite W. cbn [foldl fst snd]. rewrite lookup_insert_ne by done. apply lookup_insert_eq.
  - destruct (set_all_wrote (transaction_records tx) t) as (t1 & r & Hp & Hw & Hn).
    specialize (Hn R) as ->. destruct (Hw eq_refl) as (_ & _ & W).
    destruct (load_written R t1 (Transaction.Key tx) (Transaction.MarshalJSON tx) (Transaction.ToTransactionFromJson now)
      (reloaded tx)) as (t2 & Hl & _); [|by apply transaction_round_trip|by exists t1, t2].
    rewrite W. unfold transaction_records. cbn [foldl fst snd]. rewrite !lookup_insert_ne by done. apply lookup_insert_eq.
Qed.

(** A signature on the execution of a contract leaves the call open: a
    transaction that differs in its ABI, its parameters, its hertz, or in where its
    code ends and the name of its method begins, verifies just the same. *)
Theorem signature_does_not_fix_the_call a b :
  same_but_call a b -> a.(Transaction.Type_) = TypeExecuteSmartContract ->
  Transaction.Verify a = Transaction.Verify b.
Proof. apply Verify_same. Qed.
End Records.

Lemma stored_records_load_back_witness :
  exists t1 t2, Account_Persist (account alice 100) (NewTransaction (∅ : @DB map_Badger)) = Ret (t1, None) /\
    ToAccountByAddress alice t1 = Ret (t2, inl (account alice 100)).
Proof.
  destruct (stored_records_load_back (Now 0) (NewTransaction (∅ : @DB map_Badger)) (account alice 100) (transfer 30)
    map_reliable) as [H _].
  - split; [by exists 100|]. split; [simpl; lia|done].
  - split; try (vm_compute; intuition discriminate); try (vm_compute; constructor).
  - exact H.
Defined.

(** The same call with another parameter, and with a byte of its method in its code. *)
Lemma signature_does_not_fix_the_call_witness :
  Transaction.Verify (call "transfer" "" 1) = Ret tt /\ Transaction.Verify (forged_call "ransfer" "74" 1000000) = Ret tt.
Proof.
  assert (Transaction.Verify (call "transfer" "" 1) = Ret tt) as Hv by (vm_compute; reflexivity).
  split; [exact Hv|]. rewrite <- Hv. symmetry.
  apply (signature_does_not_fix_the_call (call "transfer" "" 1) (forged_call "ransfer" "74" 1000000));
    [|vm_compute; reflexivity].
  split; try (vm_compute; reflexivity). exists [], [116]. split; [|split]; vm_compute; reflexivity.
Defined.
