(* ===== verification/Disgover.v ===== *)
(** * Node discovery

    disgover/ and commons/types/authentication.go, and how node.go stores nodes.  A seed
    takes the pings of nodes, keeps those that are delegates, and sends all of them to
    each; a node believes a seed whose authentication it can verify.  A handler is a
    step of the monad [DM] over the [service], which holds the process's [node] (its
    database and its cache) with the files and messages the service writes.  [None] is
    a panic, or that the process ends.  A protobuf message is a record whose pointers
    may be nil.  Log lines are left out but for the fields they dereference. *)
From Stdlib Require Import ZArith Lia.
From stdpp Require Import pretty.
From S2P Require Import Prelude Queue Word Hex Json Ledger Store Dapos.
Import Big.
Open Scope Z_scope.

Definition TypeSeed : string := "Seed".
Definition TypeDelegate : string := "Delegate".
Definition TypeNode : string := "Node".

(** ** authentication.go *)
Module Authentication.
Record t := { Address : string; Hash : string; Time : Z; Signature : string }.

Definition Key_of (hash : string) : string := "table-authentication-" +:+ hash.
Definition Key (this : t) : string := Key_of this.(Hash).

(** The address is written, but not read. *)
Definition UnmarshalJSON (this : t) (j : json) : result t :=
  match jsonMap j with
  | None => Err errJson
  | Some m =>
      hash ← string_field m "hash" this.(Hash) (Err (Msg "value for field 'hash' must be a string"));
      time ← number_field m "time" this.(Time) int64_of_float (Err (Msg "value for field 'time' must be a number"));
      signature ← string_field m "signature" this.(Signature) (Err (Msg "value for field 'signature' must be a string"));
      Ret {| Address := this.(Address); Hash := hash; Time := time; Signature := signature |}
  end.

Definition MarshalJSON (this : t) : json :=
  JObj [("address", JStr this.(Address)); ("hash", JStr this.(Hash)); ("time", JNum this.(Time));
        ("signature", JStr this.(Signature))].

Section Ops.
Context {CR : Signatures}.

(** The hash covers the time and nothing else. *)
Definition NewHash (this : t) : string := hex_EncodeToString (Ledger.NewHash (le_int64 this.(Time))).

Definition NewSignature (this : t) (privateKey : string) : result string := Ledger.NewSignature this.(Hash) privateKey.

Definition GetDerivedAddress (this : t) : result string :=
  hashBytes ← hex_or_err this.(Hash) (Msg "unable to decode hash");
  signatureBytes ← hex_or_err this.(Signature) (Msg "unable to decode signature");
  match ToPublicKey hashBytes signatureBytes with
  | None => Err (Msg "unable to generate public key from hash and signature")
  | Some publicKeyBytes => a ← or_panic (ToAddress publicKeyBytes); Ret (hex_EncodeToString a)
  end.

(** What [Verify] checks of the authentication itself, at a time. *)
Definition check (now : Z) (this : t) (address : string) : result unit :=
  let elapsedMilliSeconds := i64 (ToMilliSeconds now - this.(Time)) in
  if 5000 <? elapsedMilliSeconds then Err (Msg "authentication timed out")
  else if negb (String.eqb this.(Hash) (NewHash this)) then Err (Msg "invalid hash")
  else
    hashBytes ← hex_or_err this.(Hash) (Msg "unable to decode hash");
    signatureBytes ← hex_or_err this.(Signature) (Msg "unable to decode signature");
    match ToPublicKey hashBytes signatureBytes with
    | None => Err (Msg "unable to generate public key from hash and signature")
    | Some publicKeyBytes =>
        a ← or_panic (ToAddress publicKeyBytes);
        if negb (String.eqb (hex_EncodeToString a) address)
        then Err (Msg "node address does not match the computed address from hash and signature")
        else
          ok ← or_panic (VerifySignature publicKeyBytes hashBytes signatureBytes);
          if negb ok then Err (Msg "invalid signature") else Ret tt
    end.

Context {B : Badger} {C : GoCache} {E : NodeEnv} {V : DVMService B}.

(** Looked up under what the caller gives, an address in [Verify]; cached under the hash. *)
Definition ToAuthenticationFromCache (hash : string) : NM bool :=
  e ← cache_get (Key_of hash);
  match e with None => mret false | Some (CAuthentication _) => mret true | Some _ => panic end.

Definition Cache (this : t) : NM unit := cache_put (Key this) (CAuthentication this.(Hash)) AuthenticationCacheTTL.

(** [None] is no error. *)
Definition Verify (this : t) (address : string) : NM (option ledger_error) :=
  found ← ToAuthenticationFromCache address;
  if (found : bool) then mret (Some (Msg "duplicate authentication"))
  else
    now ← time_Now;
    match check now this address with
    | Panic => panic
    | Err e => mret (Some e)
    | Ret _ => Cache this;; mret None
    end.

Definition NewAuthentication : NM (t + ledger_error) :=
  now ← time_Now;
  let authenticate := {| Address := ""; Hash := ""; Time := ToMilliSeconds now; Signature := "" |} in
  let hash := NewHash authenticate in
  let authenticate := {| Address := ""; Hash := hash; Time := ToMilliSeconds now; Signature := "" |} in
  match NewSignature authenticate MyPrivateKey with
  | Panic => panic
  | Err e => mret (inr e)
  | Ret signature =>
      let authenticate := {| Address := ""; Hash := hash; Time := ToMilliSeconds now; Signature := signature |} in
      match GetDerivedAddress authenticate with
      | Panic => panic
      | Err e => mret (inr e)
      | Ret address =>
          if String.eqb address MyAddress then mret (inl authenticate)
          else mret (inr (Msg "node address does not match derived address"))
      end
  end.
End Ops.
End Authentication.

(** ** node.go: how nodes are stored *)
Module Nodes.
Import Node.

Definition no_endpoint : Endpoint := {| Host := ""; Port := 0 |}.

Definition Endpoint_UnmarshalJSON (this : Endpoint) (j : json) : result Endpoint :=
  match jsonMap j with
  | None => Err errJson
  | Some m =>
      host ← string_field m "host" this.(Host) Panic;
      port ← number_field m "port" this.(Port) int64_of_float Panic;
      Ret {| Host := host; Port := port |}
  end.

Definition Endpoint_MarshalJSON (this : Endpoint) : json := JObj [("host", JStr this.(Host)); ("port", JNum this.(Port))].

Definition no_node : Node.t :=
  {| Address := ""; GrpcEndpoint := None; HttpEndpoint := None; Type_ := ""; Status := ""; StatusTime := zero_time |}.

Definition pointer (e : option Endpoint) : json := match e with None => JNull | Some e => Endpoint_MarshalJSON e end.

(** [json.Marshal] of the struct; a date is never left out. *)
Definition MarshalJSON (this : Node.t) : json :=
  JObj ([("address", JStr this.(Address)); ("grpcEndpoint", pointer this.(GrpcEndpoint)); ("httpEndpoint", pointer this.(HttpEndpoint))] ++
        omitempty "type" (String.eqb this.(Type_) "") (JStr this.(Type_)) ++
        omitempty "status" (String.eqb this.(Status) "") (JStr this.(Status)) ++ [("statusTime", JTime this.(StatusTime))]).

(** A string of the struct, and whether the value had that type. *)
Definition text (old : string) (v : json) : string * bool :=
  match v with JStr s => (s, true) | JNull => (old, true) | _ => (old, false) end.

Definition endpoint (old : option Endpoint) (v : json) : result (option Endpoint) :=
  match v with
  | JNull => Ret None
  | _ => e ← Endpoint_UnmarshalJSON (default no_endpoint old) v; Ret (Some e)
  end.

(** The fields one after the other; a value of the wrong type is remembered and makes an error at the end. *)
Fixpoint fields (this : Node.t) (ok : bool) (l : list (string * json)) : result Node.t :=
  match l with
  | [] => if ok then Ret this else Err errJson
  | (k, v) :: l =>
      let '{| Address := a; GrpcEndpoint := g; HttpEndpoint := h; Type_ := ty; Status := st; StatusTime := time |} := this in
      let node a g h ty st time := {| Address := a; GrpcEndpoint := g; HttpEndpoint := h; Type_ := ty; Status := st; StatusTime := time |} in
      if Gossip.named k "address" then let '(a, o) := text a v in fields (node a g h ty st time) (ok && o) l
      else if Gossip.named k "grpcEndpoint" then g ← endpoint g v; fields (node a g h ty st time) ok l
      else if Gossip.named k "httpEndpoint" then h ← endpoint h v; fields (node a g h ty st time) ok l
      else if Gossip.named k "type" then let '(ty, o) := text ty v in fields (node a g h ty st time) (ok && o) l
      else if Gossip.named k "status" then let '(st, o) := text st v in fields (node a g h ty st time) (ok && o) l
      else if Gossip.named k "statusTime" then
        match v with
        | JNull => fields this ok l
        | JTime time => fields (node a g h ty st time) ok l
        | _ => Err errJson
        end
      else fields this ok l
  end.

Definition ToNodeFromJson (j : json) : result Node.t :=
  match j with JObj l => fields no_node true l | JNull => Ret no_node | _ => Err errJson end.

Section Stored.
Context {B : Badger}.

Definition Persist (this : Node.t) : TM (option ledger_error) :=
  set_all [(Key this, Doc (MarshalJSON this)); (TypeKey this, Text (Key this))].

Definition ToNodeByKey (key : string) : TM (Node.t + ledger_error) := load key ToNodeFromJson.
Definition ToNodeByAddress (address : string) : TM (Node.t + ledger_error) := load ("table-node-" +:+ address) ToNodeFromJson.

(** What has the prefix is the key of a node; what cannot be read is skipped.  A document there is no key. *)
Fixpoint by_type (items : list (string * stored)) (prefix : string) : TM (list Node.t) :=
  match items with
  | [] => mret []
  | (k, v) :: items =>
      if String.prefix prefix k then
        match v with
        | Text key =>
            r ← ToNodeByKey key;
            nodes ← by_type items prefix;
            mret match r with inl n => n :: nodes | inr _ => nodes end
        | Doc _ => by_type items prefix
        end
      else by_type items prefix
  end.

Definition ToNodesByType (tipe : string) : TM (list Node.t) := fun t => by_type (txn_Items t) ("key-node-type-" +:+ tipe) t.

Context {C : GoCache} {E : NodeEnv} {V : DVMService B} {CR : Signatures}.

Definition Cache (this : Node.t) : NM unit :=
  cache_put (Key this) (CNode this) 0;; cache_put (TypeKey this) (CKey (Key this)) 0.

(** [Set] *)
Definition Set_ (this : Node.t) (t : Txn) : NM (Txn * option ledger_error) := Cache this;; on_txn (Persist this) t.

Definition ToNodeFromCache (address : string) : NM (option Node.t) :=
  e ← cache_get ("table-node-" +:+ address);
  match e with None => mret None | Some (CNode n) => mret (Some n) | Some _ => panic end.

(** The entry under the type stays. *)
Definition Unset (this : Node.t) (t : Txn) : NM (Txn * option ledger_error) :=
  c ← gets cache; set_cache (cache_Delete c (Key this));;
  mret match txn_Delete t (Key this) with inl t => (t, None) | inr e => (t, Some e) end.
End Stored.
End Nodes.

(** ** Messages (disgover.pb.go) *)
Module Proto.
Record Authentication := { Hash : string; Time : Z; Signature : string }.
Record Node := { Address : string; GrpcEndpoint : option Ledger.Node.Endpoint; HttpEndpoint : option Ledger.Node.Endpoint; Type_ : string }.
Record PingSeed := { ping_Authentication : option Authentication; ping_Node : option Node }.
Record Update := { update_Authentication : option Authentication; Delegates : list (option Node) }.
Record SoftwareUpdate := {
  software_Authentication : option Authentication; software_Hash : string; FileName : string; Software : list Z;
  software_Signature : string; ScheduledReboot : string
}.
End Proto.

Definition convertToDomainNode (n : option Proto.Node) : option Node.t :=
  n ← n; g ← n.(Proto.GrpcEndpoint); h ← n.(Proto.HttpEndpoint);
  Some {| Node.Address := n.(Proto.Address); Node.GrpcEndpoint := Some g; Node.HttpEndpoint := Some h;
          Node.Type_ := n.(Proto.Type_); Node.Status := ""; Node.StatusTime := zero_time |}.

Definition convertToProtoNode (n : Node.t) : option (option Proto.Node) :=
  g ← n.(Node.GrpcEndpoint); h ← n.(Node.HttpEndpoint);
  Some (Some {| Proto.Address := n.(Node.Address); Proto.GrpcEndpoint := Some g; Proto.HttpEndpoint := Some h;
                Proto.Type_ := n.(Node.Type_) |}).

Definition convertToDomainAuthentication (a : option Proto.Authentication) : option Authentication.t :=
  a ← a; Some {| Authentication.Address := ""; Authentication.Hash := a.(Proto.Hash); Authentication.Time := a.(Proto.Time);
                 Authentication.Signature := a.(Proto.Signature) |}.

Definition convertToProtoAuthentication (a : Authentication.t) : option Proto.Authentication :=
  Some {| Proto.Hash := a.(Authentication.Hash); Proto.Time := a.(Authentication.Time); Proto.Signature := a.(Authentication.Signature) |}.

(** ** The service *)

(** What a node sends to another. *)
Inductive message := Ping (p : Proto.PingSeed) | Updated (u : Proto.Update) | Released (u : Proto.SoftwareUpdate).

(** The configuration, and, each time anew, whether a node can be dialed, what it answers
    ([None] for a call that fails; the reply may be a nil pointer) and whether a file
    can be written. *)
Class DisgoverEnv := {
  Seeds : list Node.t;
  DelegateAddresses : list string;
  Dial : nat -> Node.t -> bool;
  Call : nat -> Node.t -> message -> option (option Proto.Update);
  WriteFile : nat -> string -> bool;
  (** the time of day, as "15:04" *)
  Format : Z -> string
}.

Section Service.
Context {B : Badger} {C : GoCache} {E : NodeEnv} {V : DVMService B} {CR : Signatures} {GS : GoSort} {D : DisgoverEnv}.

Record service := {
  common : node;
  ThisNode : Node.t;
  running : bool;
  (** the files written, and the reboots scheduled *)
  files : gmap string (list Z);
  reboots : list string;
  (** goroutines that will update all peers *)
  updates : nat;
  (** what was sent, oldest first *)
  sent : list (Node.t * message)
}.

Definition DM (A : Type) : Type := service -> option (service * A).
#[export] Instance DM_ret : MRet DM := fun A a s => Some (s, a).
#[export] Instance DM_bind : MBind DM := fun A A' k m s => '(s, a) ← m s; k a s.

Definition set_common (s : service) (n : node) : service :=
  {| common := n; ThisNode := s.(ThisNode); running := s.(running); files := s.(files); reboots := s.(reboots);
     updates := s.(updates); sent := s.(sent) |}.
Definition on_node {A} (m : NM A) : DM A := fun s => '(n, a) ← m s.(common); Some (set_common s n, a).
Definition panics {A} : DM A := fun _ => None.
Definition or_panics {A} (m : option A) : DM A := fun s => a ← m; Some (s, a).
Definition of_result {A} (m : result A) : DM (A + ledger_error) := fun s =>
  match m with Ret a => Some (s, inl a) | Err e => Some (s, inr e) | Panic => None end.
Definition look {A} (f : service -> A) : DM A := fun s => Some (s, f s).

Definition set_self (n : Node.t) (r : bool) : DM unit := fun s => Some
  ({| common := s.(common); ThisNode := n; running := r; files := s.(files); reboots := s.(reboots);
      updates := s.(updates); sent := s.(sent) |}, tt).
Definition set_type (n : Node.t) (tipe : string) : Node.t :=
  {| Node.Address := n.(Node.Address); Node.GrpcEndpoint := n.(Node.GrpcEndpoint); Node.HttpEndpoint := n.(Node.HttpEndpoint);
     Node.Type_ := tipe; Node.Status := n.(Node.Status); Node.StatusTime := n.(Node.StatusTime) |}.
Definition set_ThisType (tipe : string) : DM unit :=
  n ← look ThisNode; r ← look running; set_self (set_type n tipe) r.
Definition write_file (name : string) (data : list Z) : DM bool := fun s =>
  let n := s.(common).(ticks) in
  '(c, _) ← set_ticks (S n) s.(common);
  Some ({| common := c; ThisNode := s.(ThisNode); running := s.(running);
           files := if WriteFile n name then <[name := data]> s.(files) else s.(files);
           reboots := s.(reboots); updates := s.(updates); sent := s.(sent) |}, WriteFile n name).
Definition set_reboots (l : list string) : DM unit := fun s => Some
  ({| common := s.(common); ThisNode := s.(ThisNode); running := s.(running); files := s.(files); reboots := l;
      updates := s.(updates); sent := s.(sent) |}, tt).
Definition set_updates (n : nat) : DM unit := fun s => Some
  ({| common := s.(common); ThisNode := s.(ThisNode); running := s.(running); files := s.(files); reboots := s.(reboots);
      updates := n; sent := s.(sent) |}, tt).

(** [grpc.Dial]; the endpoint is dereferenced for its text. *)
Definition dial (n : Node.t) : DM bool := fun s =>
  _ ← n.(Node.GrpcEndpoint);
  let k := s.(common).(ticks) in
  '(c, _) ← set_ticks (S k) s.(common);
  Some (set_common s c, Dial k n).

Definition call (n : Node.t) (m : message) : DM (option (option Proto.Update)) := fun s =>
  let k := s.(common).(ticks) in
  '(c, _) ← set_ticks (S k) s.(common);
  Some ({| common := c; ThisNode := s.(ThisNode); running := s.(running); files := s.(files); reboots := s.(reboots);
           updates := s.(updates); sent := s.(sent) ++ [(n, m)] |}, Call k n m).

Fixpoint each_node {A} (l : list A) (f : A -> DM unit) : DM unit :=
  match l with [] => mret tt | x :: l => f x;; each_node l f end.

(** *** Who is believed *)

Fixpoint verify_as_seed (a : Authentication.t) (authenticationAddress : string) (seeds : list Node.t) : DM (option ledger_error) :=
  match seeds with
  | [] => mret (Some (Msg "you are not an authorized seed node"))
  | seedNode :: seeds =>
      if String.eqb seedNode.(Node.Address) authenticationAddress then
        e ← on_node (Authentication.Verify a seedNode.(Node.Address));
        mret match e with None => None | Some _ => Some (Msg "you are not an authorized seed node [err]") end
      else verify_as_seed a authenticationAddress seeds
  end.

Definition verifySeedNode (protoAuthenticate : option Proto.Authentication) : DM (option ledger_error) :=
  match convertToDomainAuthentication protoAuthenticate with
  | None => mret (Some (Msg "you are not an authorized seed node"))
  | Some authentication =>
      r ← of_result (Authentication.GetDerivedAddress authentication);
      match r with
      | inr err => mret (Some err)
      | inl authenticationAddress => verify_as_seed authentication authenticationAddress Seeds
      end
  end.

Definition verifySoftwareUpdate (u : Proto.SoftwareUpdate) : result unit :=
  let hashBytes := Ledger.NewHash u.(Proto.Software) in
  let hash := hex_EncodeToString hashBytes in
  if negb (String.eqb hash u.(Proto.software_Hash)) then Err (Msg "invalid hash")
  else
    signatureBytes ← hex_or_err u.(Proto.software_Signature) (Msg "unable to decode signature");
    match ToPublicKey hashBytes signatureBytes with
    | None => Err (Msg "unable to generate public key from hash and signature")
    | Some publicKeyBytes =>
        a ← or_panic (ToAddress publicKeyBytes);
        let computedAddress := hex_EncodeToString a in
        if existsb (fun seedNode => String.eqb seedNode.(Node.Address) computedAddress) Seeds then Ret tt
        else Err (Msg "you are not an authorized seed node to update software")
    end.

(** *** A node *)

Fixpoint cache_delegates (l : list (option Proto.Node)) : DM unit :=
  match l with
  | [] => mret tt
  | delegate :: l => n ← or_panics (convertToDomainNode delegate); on_node (Nodes.Cache n);; cache_delegates l
  end.

Definition UpdateGrpc (update : Proto.Update) : DM (option ledger_error) :=
  err ← verifySeedNode update.(Proto.update_Authentication);
  match err with
  | Some e => mret (Some e)
  | None => cache_delegates update.(Proto.Delegates);; mret None
  end.

Definition UpdateSoftwareGrpc (u : Proto.SoftwareUpdate) : DM (option ledger_error) :=
  err ← verifySeedNode u.(Proto.software_Authentication);
  match err with
  | Some e => mret (Some e)
  | None =>
      r ← of_result (verifySoftwareUpdate u);
      match r with
      | inr e => mret (Some e)
      | inl _ =>
          if String.eqb u.(Proto.FileName) "disgo" then
            ok ← write_file "./disgo" u.(Proto.Software);
            if (ok : bool) then
              l ← look reboots; set_reboots (l ++ [u.(Proto.ScheduledReboot)]);; mret None
            else mret (Some (Msg "unable to save file"))
          else
            ok ← write_file "./disgo-update" u.(Proto.Software);
            mret (if (ok : bool) then None else Some (Msg "unable to save file"))
      end
  end.

(** *** A seed *)

(** The type a pinging node gets: what it says of itself, unless it is a delegate. *)
Fixpoint listed_type (a : Authentication.t) (n : Node.t) (addresses : list string) : DM (string + ledger_error) :=
  match addresses with
  | [] => mret (inl n.(Node.Type_))
  | delegateAddress :: addresses =>
      if String.eqb delegateAddress n.(Node.Address) then
        err ← on_node (Authentication.Verify a n.(Node.Address));
        mret match err with None => inl TypeDelegate | Some _ => inr (Msg "unable to authenticate you as a delegate") end
      else listed_type a n addresses
  end.

(** The first of every address *)
Fixpoint unique (keys : list string) (l : list Node.t) : list Node.t :=
  match l with
  | [] => []
  | n :: l => if bool_decide (n.(Node.Address) ∈ keys) then unique keys l else n :: unique (n.(Node.Address) :: keys) l
  end.

(** The node and the delegates in the database and the cache; errors of the database are not looked at. *)
Definition store_and_list (n : Node.t) : DM (list Node.t) :=
  db ← on_node (gets database);
  '(t, _) ← on_node (Nodes.Set_ n (NewTransaction db));
  cDelegates ← on_node ToNodesByTypeFromCache;
  '(t, sDelegates) ← on_node (on_txn (Nodes.ToNodesByType TypeDelegate) t);
  db ← on_node (gets database);
  on_node (set_database (txn_Commit db t).1);;
  mret (unique [] (sDelegates ++ cDelegates)).

Definition PingSeedGrpc (pingSeed : Proto.PingSeed) : DM (Proto.Update + ledger_error) :=
  self ← look ThisNode;
  if negb (String.eqb self.(Node.Type_) TypeSeed) then mret (inr (Msg "you pinged a non-seed node"))
  else
    n ← or_panics (convertToDomainNode pingSeed.(Proto.ping_Node));
    authentication ← or_panics (convertToDomainAuthentication pingSeed.(Proto.ping_Authentication));
    r ← of_result (Authentication.GetDerivedAddress authentication);
    match r with
    | inr _ => mret (inr (Msg "unable to authenticate you [error]"))
    | inl authenticationAddress =>
        if negb (String.eqb authenticationAddress n.(Node.Address)) then mret (inr (Msg "unable to authenticate you"))
        else
          r ← (if (length DelegateAddresses =? 0)%nat then mret (inl TypeDelegate)
               else listed_type authentication n DelegateAddresses);
          match r with
          | inr e => mret (inr e)
          | inl tipe =>
              delegates ← store_and_list (set_type n tipe);
              nodes ← or_panics (mapM convertToProtoNode delegates);
              r ← on_node Authentication.NewAuthentication;
              match r with
              | inr e => mret (inr e)
              | inl authentication =>
                  k ← look updates; set_updates (S k);;
                  mret (inl {| Proto.update_Authentication := convertToProtoAuthentication authentication; Proto.Delegates := nodes |})
              end
          end
    end.

(** What is deleted in the transaction is never committed. *)
Fixpoint update_all (update : Proto.Update) (delegates : list Node.t) (t : Txn) : DM unit :=
  match delegates with
  | [] => mret tt
  | delegate :: delegates =>
      ok ← dial delegate;
      if (ok : bool) then call delegate (Updated update);; update_all update delegates t
      else '(t, _) ← on_node (Nodes.Unset delegate t); update_all update delegates t
  end.

Definition peerUpdateGrpc : DM unit :=
  delegates ← on_node ToNodesByTypeFromCache;
  protoDelegates ← or_panics (mapM convertToProtoNode delegates);
  r ← on_node Authentication.NewAuthentication;
  match r with
  | inr _ => mret tt
  | inl authentication =>
      db ← on_node (gets database);
      update_all {| Proto.update_Authentication := convertToProtoAuthentication authentication; Proto.Delegates := protoDelegates |}
        delegates (NewTransaction db)
  end.

(** A goroutine of [PingSeedGrpc] wakes up. *)
Definition update_due : DM unit :=
  k ← look updates;
  match k with O => mret tt | S k => set_updates k;; peerUpdateGrpc end.

Fixpoint release_all (u : Proto.SoftwareUpdate) (delegates : list Node.t) (t : Txn) : DM unit :=
  match delegates with
  | [] => mret tt
  | delegate :: delegates =>
      ok ← dial delegate;
      if (ok : bool) then call delegate (Released u);; release_all u delegates t
      else '(t, _) ← on_node (Nodes.Unset delegate t); release_all u delegates t
  end.

Definition peerUpdateSoftwareGrpc (fileName : string) (software : list Z) : DM unit :=
  delegates ← on_node ToNodesByTypeFromCache;
  r ← on_node Authentication.NewAuthentication;
  match r with
  | inr _ => mret tt
  | inl authentication =>
      let hashBytes := Ledger.NewHash software in
      match hex_Decode MyPrivateKey with
      | None => mret tt
      | Some privateKeyBytes =>
          match Sign hashBytes privateKeyBytes with
          | None => mret tt
          | Some signatureBytes =>
              db ← on_node (gets database);
              now ← on_node time_Now;
              release_all {| Proto.software_Authentication := convertToProtoAuthentication authentication;
                             Proto.software_Hash := hex_EncodeToString hashBytes; Proto.FileName := fileName;
                             Proto.Software := software; Proto.software_Signature := hex_EncodeToString signatureBytes;
                             Proto.ScheduledReboot := Format (now + 2 * minute) |} delegates (NewTransaction db)
          end
      end
  end.

(** One turn of the worker over the directory of updates; a file that cannot be read has no contents. *)
Definition updateWorker (directory : list (string * option (list Z))) : DM unit :=
  each_node directory (fun file =>
    match file.2 with None => mret tt | Some bytes => peerUpdateSoftwareGrpc file.1 bytes end).

(** *** Starting *)

(** Only the first seed is ever pinged; one that cannot be dialed ends the process. *)
Definition peerPingSeedGrpc : DM (list Node.t + ledger_error) :=
  match Seeds with
  | [] => mret (inr (Msg "unable to ping any seed delegates"))
  | seed :: _ =>
      ok ← dial seed;
      if negb ok then panics
      else
        r ← on_node Authentication.NewAuthentication;
        match r with
        | inr e => mret (inr e)
        | inl authentication =>
            self ← look ThisNode;
            protoNode ← or_panics (convertToProtoNode self);
            response ← call seed (Ping {| Proto.ping_Authentication := convertToProtoAuthentication authentication;
                                          Proto.ping_Node := protoNode |});
            match response with
            | None => mret (inr (Msg "call"))
            | Some None => mret (inr (Msg "unable to ping seed node"))
            | Some (Some response) =>
                err ← verifySeedNode response.(Proto.update_Authentication);
                match err with
                | Some e => mret (inr e)
                | None => delegates ← or_panics (mapM convertToDomainNode response.(Proto.Delegates)); mret (inl delegates)
                end
            end
        end
  end.

(** The delegates are cached; what they say of this node is its type. *)
Fixpoint learn (l : list Node.t) : DM unit :=
  match l with
  | [] => mret tt
  | delegate :: l =>
      on_node (Nodes.Cache delegate);;
      self ← look ThisNode;
      (if String.eqb delegate.(Node.Address) self.(Node.Address) then set_ThisType delegate.(Node.Type_) else mret tt);;
      learn l
  end.

Definition Go : DM unit :=
  self ← look ThisNode;
  set_self self true;;
  (if existsb (fun seed => String.eqb seed.(Node.Address) MyAddress) Seeds then set_ThisType TypeSeed else mret tt);;
  (if (length Seeds =? 0)%nat then set_ThisType TypeSeed else mret tt);;
  self ← look ThisNode;
  if negb (String.eqb self.(Node.Type_) TypeSeed) then
    r ← peerPingSeedGrpc;
    match r with
    | inr _ => panics
    | inl delegates => learn delegates
    end
  else mret tt.

(** [GetDisGoverService]: the service before it runs. *)
Definition new_service (n : node) (grpc http : Node.Endpoint) : service :=
  {| common := n;
     ThisNode := {| Node.Address := MyAddress; Node.GrpcEndpoint := Some grpc; Node.HttpEndpoint := Some http;
                    Node.Type_ := TypeNode; Node.Status := ""; Node.StatusTime := zero_time |};
     running := false; files := ∅; reboots := []; updates := 0; sent := [] |}.

Definition pingPongHandler : DM string :=
  self ← look ThisNode;
  h ← or_panics self.(Node.HttpEndpoint);
  mret ("PONG-From: " +:+ self.(Node.Address) +:+ " @ " +:+ h.(Node.Host) +:+ ":" +:+ pretty h.(Node.Port))%string.
End Service.
