(* ===== verification/DisgoverProperties.v ===== *)
(** * What a node believes

    Which messages change a node of the network, and what pinging a seed does; with
    the inputs at which the theorems are applied. *)
From Stdlib Require Import ZArith Lia.
From stdpp Require Import pretty.
From S2P Require Import Prelude Queue Word Hex Json Ledger LedgerFacts Store Dapos DaposSteps DaposProperties Disgover.
Import Big.
Open Scope Z_scope.

(** ** Who signed *)
Section Authentic.
Context {CR : Signatures}.

(** The key recovered from a signature of a hash is that of an address. *)
Definition recovers (hash signature : list Z) (address : string) (pub : list Z) : Prop :=
  length hash = 32%nat /\ checkSignature signature = true /\ secp256k1_recover hash signature = Some pub /\
  exists a, ToAddress pub = Some a /\ hex_EncodeToString a = address.

(** An authentication that is not too old, whose hash is that of its time and whose signature is by an address. *)
Record authentic (now : Z) (a : Authentication.t) (address : string) : Prop := {
  auth_time : i64 (ToMilliSeconds now - a.(Authentication.Time)) <= 5000;
  auth_hash : a.(Authentication.Hash) = hex_EncodeToString (Keccak256_sum (le_int64 a.(Authentication.Time)));
  auth_signature : exists hash signature pub, hex_Decode a.(Authentication.Hash) = Some hash /\
    hex_Decode a.(Authentication.Signature) = Some signature /\ recovers hash signature address pub /\
    secp256k1_verify pub hash (take 64 signature) = true
}.

Lemma ToPublicKey_recovers hash sig pub : ToPublicKey hash sig = Some pub <->
  length hash = 32%nat /\ checkSignature sig = true /\ secp256k1_recover hash sig = Some pub.
Proof.
  unfold ToPublicKey. destruct (Nat.eqb_spec (length hash) 32) as [E|E]; cbn [negb]; [|by split; [|intros [H _]]].
  destruct (checkSignature sig); cbn [negb]; [|by split; [|intros (_ & H & _)]]. by split; [|intros (_ & _ & H)].
Qed.

Lemma checkSignature_length sig : checkSignature sig = true -> length sig = 65%nat.
Proof. unfold checkSignature. by intros [H%Nat.eqb_eq _]%andb_prop. Qed.

Lemma VerifySignature_65 pub hash sig : length hash = 32%nat -> length sig = 65%nat -> pub <> [] ->
  VerifySignature pub hash sig = Some (secp256k1_verify pub hash (take 64 sig)).
Proof.
  intros Hh Hs Hp. unfold VerifySignature, secp_VerifySignature. rewrite Hs. destruct sig; [done|].
  rewrite Hh, length_take, Hs. destruct pub; [done|]. done.
Qed.

Lemma check_authentic now a address : Authentication.check now a address = Ret tt <-> authentic now a address.
Proof.
  unfold Authentication.check. split.
  - destruct (Z.ltb_spec 5000 (i64 (ToMilliSeconds now - a.(Authentication.Time)))) as [|Ht]; [done|].
    destruct (String.eqb_spec a.(Authentication.Hash) (Authentication.NewHash a)) as [Hh|]; [|done]. cbn [negb].
    unfold hex_or_err. intros H. destruct (hex_Decode a.(Authentication.Hash)) as [hash|] eqn:Eh; [|done].
    destruct (hex_Decode a.(Authentication.Signature)) as [sig|] eqn:Es; [|done]. cbn [mbind outcome_bind] in H.
    destruct (ToPublicKey hash sig) as [pub|] eqn:Ep; [|done]. apply ToPublicKey_recovers in Ep as (H1 & H2 & H3).
    destruct (ToAddress pub) as [ad|] eqn:Ea; [|done]. cbn [or_panic mbind outcome_bind] in H.
    destruct (String.eqb_spec (hex_EncodeToString ad) address) as [Had|]; [|done]. cbn [negb] in H.
    rewrite VerifySignature_65 in H; [|done|by apply checkSignature_length|by intros ->]. cbn [or_panic mbind outcome_bind] in H.
    destruct (secp256k1_verify _ _ _) eqn:Ev; [|done]. split; [done|done|].
    exists hash, sig, pub. unfold recovers. split_and!; try done. by exists ad.
  - intros [Ht Hh (hash & sig & pub & Eh & Es & (H1 & H2 & H3 & ad & Ea & Had) & Ev)].
    destruct (Z.ltb_spec 5000 (i64 (ToMilliSeconds now - a.(Authentication.Time)))) as [|_]; [lia|].
    fold (Ledger.NewHash (le_int64 a.(Authentication.Time))) in Hh. fold (Authentication.NewHash a) in Hh.
    rewrite <- Hh, String.eqb_refl. cbn [negb]. unfold hex_or_err. rewrite Eh, Es. cbn [mbind outcome_bind].
    rewrite (proj2 (ToPublicKey_recovers hash sig pub)) by done. rewrite Ea. cbn [or_panic mbind outcome_bind].
    rewrite Had, String.eqb_refl. cbn [negb].
    rewrite VerifySignature_65; [|done|by apply checkSignature_length|by intros ->]. cbn [or_panic mbind outcome_bind]. by rewrite Ev.
Qed.

Lemma authentic_derived now a address : authentic now a address -> Authentication.GetDerivedAddress a = Ret address.
Proof.
  intros [_ _ (hash & sig & pub & Eh & Es & (H1 & H2 & H3 & ad & Ea & Had) & _)].
  unfold Authentication.GetDerivedAddress, hex_or_err. rewrite Eh, Es. cbn [mbind outcome_bind].
  rewrite (proj2 (ToPublicKey_recovers hash sig pub)) by done. rewrite Ea. cbn [or_panic mbind outcome_bind]. by rewrite Had.
Qed.
End Authentic.

(** ** Steps of the service *)
Section Steps.
Context {B : Badger} {C : GoCache} {CL : GoCacheLaws C} {E : NodeEnv} {V : DVMService B} {CR : Signatures} {GS : GoSort} {D : DisgoverEnv}.

(** A node some ticks later, with another cache *)
Definition later (n : node) (k : nat) (c : Cache) : node :=
  {| database := n.(database); cache := c; receipts := n.(receipts); gossips := n.(gossips); next := n.(next);
     ticks := (k + n.(ticks))%nat; gossipChan := n.(gossipChan); timoutChan := n.(timoutChan);
     gossipQueue := n.(gossipQueue); timers := n.(timers) |}.

Lemma Verify_eq a address n : Authentication.Verify a address n =
  match cache_Get n.(cache) (Now n.(ticks)) (Authentication.Key_of address) with
  | Some (CAuthentication _) => Some (later n 1 n.(cache), Some (Msg "duplicate authentication"))
  | Some _ => None
  | None =>
      match Authentication.check (Now (S n.(ticks))) a address with
      | Panic => None
      | Err e => Some (later n 2 n.(cache), Some e)
      | Ret _ => Some (later n 3 (cache_Set n.(cache) (Now (S (S n.(ticks)))) (Authentication.Key a)
                                    (CAuthentication a.(Authentication.Hash)) AuthenticationCacheTTL), None)
      end
  end.
Proof.
  unfold Authentication.Verify, Authentication.ToAuthenticationFromCache, Authentication.Cache, cache_put, cache_get, time_Now, gets.
  unfold mbind, NM_bind, mret, NM_ret. cbn.
  destruct (cache_Get _ _ _) as [[]|]; cbn; try done.
  destruct (Authentication.check _ _ _) as [[]|e|]; done.
Qed.

Lemma Cache_eq d n : Nodes.Cache d n =
  Some (later n 2 (cache_Set (cache_Set n.(cache) (Now n.(ticks)) (Node.Key d) (CNode d) 0) (Now (S n.(ticks)))
                     (Node.TypeKey d) (CKey (Node.Key d)) 0), tt).
Proof. done. Qed.

(** A node that has verified an authentication *)
Definition noted (n : node) (a : Authentication.t) : node :=
  later n 3 (cache_Set n.(cache) (Now (S (S n.(ticks)))) (Authentication.Key a) (CAuthentication a.(Authentication.Hash))
               AuthenticationCacheTTL).

Lemma set_common_id s : set_common s s.(common) = s.
Proof. by destruct s. Qed.
Lemma later_0 n : later n 0 n.(cache) = n.
Proof. by destruct n. Qed.

(** What verifying a seed does: nothing but the clock if it fails. *)
Definition verified (a : Authentication.t) (s s' : service) (r : option ledger_error) : Prop :=
  match r with
  | Some _ => exists k, s' = set_common s (later s.(common) k s.(common).(cache))
  | None => s' = set_common s (noted s.(common) a) /\
      exists seed, seed ∈ Seeds /\ authentic (Now (S s.(common).(ticks))) a seed.(Node.Address)
  end.

Lemma verify_as_seed_inv a address seeds s s' r : seeds ⊆ Seeds -> verify_as_seed a address seeds s = Some (s', r) ->
  verified a s s' r.
Proof.
  induction seeds as [|seed seeds IH]; intros Hs H; cbn [verify_as_seed] in H.
  - injection H as <- <-. exists O. by rewrite later_0, set_common_id.
  - destruct (String.eqb_spec seed.(Node.Address) address) as [Ha|]; [|apply IH; [set_solver|done]].
    unfold on_node, mbind, DM_bind in H. rewrite Verify_eq in H.
    destruct (cache_Get _ _ _) as [[]|]; cbn in H; try done.
    + injection H as <- <-. by eexists.
    + destruct (Authentication.check _ a _) as [[]|e|] eqn:Ec; cbn in H; [|injection H as <- <-; by eexists|done].
      injection H as <- <-. split; [done|]. exists seed. split; [set_solver|by apply check_authentic].
Qed.

Definition domain (a : Proto.Authentication) : Authentication.t :=
  {| Authentication.Address := ""; Authentication.Hash := a.(Proto.Hash); Authentication.Time := a.(Proto.Time);
     Authentication.Signature := a.(Proto.Signature) |}.

Lemma verifySeedNode_inv p s s' r : verifySeedNode p s = Some (s', r) ->
  match r with
  | Some _ => exists k, s' = set_common s (later s.(common) k s.(common).(cache))
  | None => exists a, p = Some a /\ verified (domain a) s s' None
  end.
Proof.
  assert (exists k, s = set_common s (later s.(common) k s.(common).(cache))) as H0.
  { exists O. by rewrite later_0, set_common_id. }
  destruct p as [a|]; cbn; [|by intros [= <- <-]].
  unfold mbind, DM_bind, of_result. fold (domain a). destruct (Authentication.GetDerivedAddress _) as [ad|e|]; cbn; [|by intros [= <- <-]|done].
  intros H. apply verify_as_seed_inv in H; [|done]. destruct r; [done|]. by exists a.
Qed.

Lemma set_common_common s n n' : set_common (set_common s n) n' = set_common s n'.
Proof. done. Qed.
Lemma later_later n k c k' c' : later (later n k c) k' c' = later n (k' + k) c'.
Proof. unfold later. cbn. by rewrite Nat.add_assoc. Qed.

Definition delegate_keys (d : option Proto.Node) : list string :=
  match convertToDomainNode d with Some n => [Node.Key n; Node.TypeKey n] | None => [] end.

Lemma cache_delegates_inv l s s' : cache_delegates l s = Some (s', tt) ->
  exists k c, s' = set_common s (later s.(common) k c) /\
    forall key now, key ∉ concat (map delegate_keys l) -> cache_Get c now key = cache_Get s.(common).(cache) now key.
Proof.
  revert s. induction l as [|d l IH]; intros s H; cbn [cache_delegates] in H.
  - injection H as <-. exists O, s.(common).(cache). by rewrite later_0, set_common_id.
  - unfold or_panics, on_node, mbind, DM_bind, option_bind in H. destruct (convertToDomainNode d) as [n|] eqn:Ed; [|done].
    change (match Nodes.Cache n s.(common) with Some (n1, _) => cache_delegates l (set_common s n1) | None => None end = Some (s', tt)) in H.
    rewrite Cache_eq in H. apply IH in H as (k & c & -> & Hc). rewrite set_common_common. cbn [common set_common]. rewrite later_later.
    eexists _, c. split; [done|]. intros key now Hkey. cbn [map concat] in Hkey. unfold delegate_keys in Hkey at 1. rewrite Ed in Hkey.
    apply not_elem_of_app in Hkey as [H1 H2]. rewrite Hc by done. cbn. rewrite !get_set_ne; [done|set_solver..].
Qed.

(** The update of software is signed by a seed, of whatever else that may be a signature. *)
Definition released_by (u : Proto.SoftwareUpdate) (author : Node.t) : Prop :=
  u.(Proto.software_Hash) = hex_EncodeToString (Keccak256_sum u.(Proto.Software)) /\
  exists signature pub, hex_Decode u.(Proto.software_Signature) = Some signature /\
    recovers (Keccak256_sum u.(Proto.Software)) signature author.(Node.Address) pub.

Lemma verifySoftwareUpdate_spec u : verifySoftwareUpdate u = Ret tt <-> exists author, author ∈ Seeds /\ released_by u author.
Proof.
  unfold verifySoftwareUpdate, released_by. cbv zeta. split.
  - destruct (String.eqb_spec (hex_EncodeToString (Ledger.NewHash u.(Proto.Software))) u.(Proto.software_Hash)) as [Hh|]; [|done].
    cbn [negb]. unfold hex_or_err. destruct (hex_Decode _) as [sig|] eqn:Es; [|done]. cbn [mbind outcome_bind].
    destruct (ToPublicKey _ sig) as [pub|] eqn:Ep; [|done]. apply ToPublicKey_recovers in Ep as (H1 & H2 & H3).
    destruct (ToAddress pub) as [ad|] eqn:Ea; [|done]. cbn [or_panic mbind outcome_bind].
    destruct (existsb _ Seeds) eqn:Ex; [|done]. intros _. apply existsb_exists in Ex as (author & Hin & Had%String.eqb_eq).
    exists author. split; [by apply list_elem_of_In|]. split; [done|]. exists sig, pub. split; [done|]. unfold recovers. split_and!; [done..|by exists ad].
  - intros (author & Hin & Hh & sig & pub & Es & H1 & H2 & H3 & ad & Ea & Had). unfold Ledger.NewHash.
    rewrite <- Hh, String.eqb_refl. cbn [negb]. unfold hex_or_err. rewrite Es. cbn [mbind outcome_bind].
    rewrite (proj2 (ToPublicKey_recovers _ sig pub)) by done. rewrite Ea. cbn [or_panic mbind outcome_bind].
    replace (existsb _ Seeds) with true; [done|]. symmetry. apply existsb_exists. exists author. split; [by apply list_elem_of_In|].
    rewrite Had. apply String.eqb_refl.
Qed.

(** The file a software update goes to *)
Definition file_of (u : Proto.SoftwareUpdate) : string :=
  if String.eqb u.(Proto.FileName) "disgo" then "./disgo" else "./disgo-update".

(** A node on which the clock was read, and nothing else *)
Definition elapsed (s : service) (k : nat) : service := set_common s (later s.(common) k s.(common).(cache)).

(** One that keeps a note of an authentication besides, and nothing else *)
Definition took (s : service) (a : Authentication.t) (k : nat) : service :=
  set_common s (later s.(common) k (noted s.(common) a).(cache)).

(** One that moreover wrote the software to its file, and scheduled a reboot if it is the program *)
Definition installed (s : service) (a : Authentication.t) (u : Proto.SoftwareUpdate) (k : nat) : service :=
  {| common := (took s a k).(common); ThisNode := s.(ThisNode); running := s.(running);
     files := <[file_of u := u.(Proto.Software)]> s.(files);
     reboots := s.(reboots) ++ if String.eqb u.(Proto.FileName) "disgo" then [u.(Proto.ScheduledReboot)] else [];
     updates := s.(updates); sent := s.(sent) |}.

(** An authentication that a seed made, not too long ago *)
Definition from_seed (s : service) (p : option Proto.Authentication) (a : Proto.Authentication) : Prop :=
  p = Some a /\ exists seed, seed ∈ Seeds /\ authentic (Now (S s.(common).(ticks))) (domain a) seed.(Node.Address).

Lemma took_authentic p s s' : verifySeedNode p s = Some (s', None) ->
  exists a, from_seed s p a /\ s' = took s (domain a) 3.
Proof.
  intros H. apply verifySeedNode_inv in H as (a & Ha & -> & seed & Hs & Hok). exists a. split; [|done].
  split; [done|]. by exists seed.
Qed.

Lemma UpdateGrpc_inv u s s' r : UpdateGrpc u s = Some (s', r) ->
  match r with
  | Some _ => exists k, s' = elapsed s k
  | None => exists a k c, from_seed s u.(Proto.update_Authentication) a /\ s' = set_common s (later s.(common) k c) /\
      forall key now, key ∉ concat (map delegate_keys u.(Proto.Delegates)) ->
        cache_Get c now key = cache_Get (noted s.(common) (domain a)).(cache) now key /\
        (key <> Authentication.Key (domain a) -> cache_Get c now key = cache_Get s.(common).(cache) now key)
  end.
Proof.
  intros H. unfold UpdateGrpc, mbind, DM_bind in H. destruct (verifySeedNode _ s) as [[s1 [e|]]|] eqn:Ev; [| |done]; cbn in H.
  { injection H as <- <-. by apply verifySeedNode_inv in Ev. }
  apply took_authentic in Ev as (a & Ha & ->). destruct (cache_delegates _ _) as [[s2 []]|] eqn:Ec; [|done]. injection H as <- <-.
  apply cache_delegates_inv in Ec as (k & c & -> & Hc). unfold took. rewrite set_common_common. cbn [common set_common].
  rewrite later_later. exists a, (k + 3)%nat, c. split_and!; [done..|]. intros key now Hkey. rewrite Hc by done. split; [done|].
  intros Hne. cbn. by apply get_set_ne.
Qed.

Lemma UpdateSoftwareGrpc_inv u s s' r : UpdateSoftwareGrpc u s = Some (s', r) ->
  match r with
  | Some _ => (exists k, s' = elapsed s k) \/
      exists a k, from_seed s u.(Proto.software_Authentication) a /\ s' = took s (domain a) k
  | None => exists a k author, from_seed s u.(Proto.software_Authentication) a /\ author ∈ Seeds /\ released_by u author /\
      s' = installed s (domain a) u k
  end.
Proof.
  intros H. unfold UpdateSoftwareGrpc, mbind, DM_bind in H. destruct (verifySeedNode _ s) as [[s1 [e|]]|] eqn:Ev; [| |done]; cbn in H.
  { injection H as <- <-. left. by apply verifySeedNode_inv in Ev. }
  apply took_authentic in Ev as (a & Ha & ->). unfold of_result in H.
  destruct (verifySoftwareUpdate u) as [[]|e|] eqn:Eu; cbn in H; [|injection H as <- <-; right; by exists a, 3%nat|done].
  apply verifySoftwareUpdate_spec in Eu as (author & Hin & Hrel). unfold installed, file_of.
  destruct (String.eqb u.(Proto.FileName) "disgo"); destruct (WriteFile _ _) eqn:Ew; cbn in H; injection H as <- <-;
    [exists a, 4%nat, author|right; exists a, 4%nat|exists a, 4%nat, author|right; exists a, 4%nat]; split_and!; try done.
  by rewrite app_nil_r.
Qed.


(** *** What an authentication is good for *)

(** The hash library gives 32 bytes. *)
Definition digests : Prop := forall b, length (Keccak256_sum b) = 32%nat /\ Forall (fun x => 0 <= x < 256) (Keccak256_sum b).

Lemma address_short hash sig address pub : digests -> recovers hash sig address pub -> String.length address = 40%nat.
Proof.
  intros Hd (_ & _ & _ & a & Ha & <-). unfold ToAddress in Ha. destruct pub as [|x key]; [done|]. injection Ha as <-.
  destruct (Hd key) as [Hl Hr]. unfold Ledger.NewHash. rewrite hex_Encode_text_length by by apply Forall_drop.
  rewrite length_drop, Hl. done.
Qed.

Lemma authentic_hash now a address : digests -> authentic now a address ->
  String.length a.(Authentication.Hash) = 64%nat /\ hex_Decode a.(Authentication.Hash) = Some (Keccak256_sum (le_int64 a.(Authentication.Time))).
Proof.
  intros Hd [_ -> _]. destruct (Hd (le_int64 a.(Authentication.Time))) as [Hl Hr].
  by rewrite hex_Encode_text_length, Hl, hex_Decode_Encode.
Qed.

Lemma authentic_address now a address : digests -> authentic now a address -> String.length address = 40%nat.
Proof. intros Hd [_ _ (? & ? & ? & _ & _ & H & _)]. by eapply address_short. Qed.

Lemma seed_keys_apart now a address d : digests -> authentic now a address ->
  Authentication.Key_of address <> Authentication.Key a /\ Authentication.Key_of address ∉ delegate_keys d.
Proof.
  intros Hd Ha. split.
  - unfold Authentication.Key, Authentication.Key_of. intros Heq. pose proof (proj1 (authentic_hash _ _ _ Hd Ha)).
    pose proof (authentic_address _ _ _ Hd Ha). apply (inj _) in Heq. rewrite Heq in *. lia.
  - unfold delegate_keys. destruct (convertToDomainNode d) as [n|]; [|apply not_elem_of_nil].
    rewrite !not_elem_of_cons. split_and!; [done|done|apply not_elem_of_nil].
Qed.

Lemma verify_as_seed_ok a address seeds s : (exists seed, seed ∈ seeds /\ seed.(Node.Address) = address) ->
  authentic (Now (S s.(common).(ticks))) a address ->
  cache_Get s.(common).(cache) (Now s.(common).(ticks)) (Authentication.Key_of address) = None ->
  verify_as_seed a address seeds s = Some (set_common s (noted s.(common) a), None).
Proof.
  intros Hin Ha Hc. induction seeds as [|seed seeds IH]; [by destruct Hin as (? & ?%elem_of_nil & _)|]. cbn [verify_as_seed].
  destruct (String.eqb_spec seed.(Node.Address) address) as [Heq|Heq].
  - unfold on_node, mbind, DM_bind. rewrite Verify_eq, Heq, Hc, (proj2 (check_authentic _ _ _) Ha). done.
  - apply IH. destruct Hin as (x & [->|Hx]%elem_of_cons & Hxa); [done|]. by exists x.
Qed.

Lemma verifySeedNode_ok a seed s : seed ∈ Seeds -> authentic (Now (S s.(common).(ticks))) (domain a) seed.(Node.Address) ->
  cache_Get s.(common).(cache) (Now s.(common).(ticks)) (Authentication.Key_of seed.(Node.Address)) = None ->
  verifySeedNode (Some a) s = Some (set_common s (noted s.(common) (domain a)), None).
Proof.
  intros Hs Ha Hc. unfold verifySeedNode. cbn [convertToDomainAuthentication mbind option_bind]. fold (domain a).
  unfold of_result, mbind, DM_bind. rewrite (authentic_derived _ _ _ Ha). cbn.
  apply verify_as_seed_ok; [by exists seed|done..].
Qed.

Lemma authentic_later now now' a address : i64 (ToMilliSeconds now' - a.(Authentication.Time)) <= 5000 ->
  authentic now a address -> authentic now' a address.
Proof. intros Ht [_ H1 H2]. by constructor. Qed.

(** Software that nobody released: the eight bytes of an authentication's time, under its hash and signature *)
Definition stolen (a : Proto.Authentication) : Proto.SoftwareUpdate :=
  {| Proto.software_Authentication := Some a; Proto.software_Hash := a.(Proto.Hash); Proto.FileName := "disgo";
     Proto.Software := le_int64 a.(Proto.Time); Proto.software_Signature := a.(Proto.Signature); Proto.ScheduledReboot := "00:00" |}.

Lemma stolen_released now a seed : digests -> authentic now (domain a) seed.(Node.Address) -> released_by (stolen a) seed.
Proof.
  intros Hd Ha. pose proof (authentic_hash _ _ _ Hd Ha) as [_ Hh]. destruct Ha as [_ He (hash & sig & pub & Eh & Es & Hr & _)].
  split; [exact He|]. cbn in *. rewrite Hh in Eh. injection Eh as <-. by exists sig, pub.
Qed.

(** An authentication covers its time and nothing else: whoever was sent one by a seed can, within five
    seconds, use it again, although authentications are kept to find duplicates: with any delegates of their own
    the update is taken, and the eight bytes of its time are installed in the place of the program. *)
Theorem authentications_can_be_used_by_others (s s1 : service) (u : Proto.Update) (a : Proto.Authentication) (Hd : digests)
    (Hwrite : forall n name, WriteFile n name = true)
    (Hnew : forall now seed, seed ∈ Seeds -> cache_Get s.(common).(cache) now (Authentication.Key_of seed.(Node.Address)) = None)
    (Ha : u.(Proto.update_Authentication) = Some a) (Hu : UpdateGrpc u s = Some (s1, None))
    (Hsoon : i64 (ToMilliSeconds (Now (S s1.(common).(ticks))) - a.(Proto.Time)) <= 5000) :
  (exists s2, UpdateSoftwareGrpc (stolen a) s1 = Some (s2, None) /\
     s2.(files) = <["./disgo" := le_int64 a.(Proto.Time)]> s1.(files) /\ s2.(reboots) = s1.(reboots) ++ ["00:00"]) /\
  (forall n, convertToDomainNode (Some n) <> None ->
     exists s2, UpdateGrpc {| Proto.update_Authentication := Some a; Proto.Delegates := [Some n] |} s1 = Some (s2, None) /\
       cache_Get s2.(common).(cache) (Now (pred s2.(common).(ticks))) ("key-node-type-" +:+ n.(Proto.Type_) +:+ "-" +:+ n.(Proto.Address)) =
         Some (CKey ("table-node-" +:+ n.(Proto.Address)))).
Proof.
  destruct (UpdateGrpc_inv u s s1 None Hu) as (a' & k & c & (Ha' & seed & Hs & Hok) & -> & Hc). rewrite Ha in Ha'. injection Ha' as <-.
  set (s1 := set_common s _) in *.
  assert (cache_Get s1.(common).(cache) (Now s1.(common).(ticks)) (Authentication.Key_of seed.(Node.Address)) = None) as Hfree.
  { refine (eq_trans (proj2 (Hc _ _ _) _) (Hnew _ _ Hs)); [|by apply (seed_keys_apart _ _ _ None Hd Hok)].
    clear -Hd Hok. induction u.(Proto.Delegates) as [|d l IH]; [apply not_elem_of_nil|]. apply not_elem_of_app. split; [|done].
    by apply (seed_keys_apart _ _ _ d Hd Hok). }
  pose proof (verifySeedNode_ok a seed s1 Hs (authentic_later _ _ (domain a) _ Hsoon Hok) Hfree) as Hv. split.
  - unfold UpdateSoftwareGrpc, mbind, DM_bind. cbn [Proto.software_Authentication stolen]. rewrite Hv. cbn -[stolen].
    unfold of_result. rewrite (proj2 (verifySoftwareUpdate_spec (stolen a))) by (exists seed; split; [done|by eapply stolen_released]).
    cbn. rewrite Hwrite. cbn. by eexists.
  - intros n Hn. unfold UpdateGrpc, mbind, DM_bind. cbn [Proto.update_Authentication Proto.Delegates]. rewrite Hv. cbn -[convertToDomainNode].
    destruct (convertToDomainNode (Some n)) as [d|] eqn:Ed; [|done]. eexists. split; [reflexivity|]. cbn.
    assert (Node.TypeKey d = "key-node-type-" +:+ n.(Proto.Type_) +:+ "-" +:+ n.(Proto.Address) /\ Node.Key d = "table-node-" +:+ n.(Proto.Address)) as [<- <-].
    { cbn in Ed. destruct (Proto.GrpcEndpoint n), (Proto.HttpEndpoint n); cbn in Ed; try done. by injection Ed as <-. }
    apply get_set. done.
Qed.
End Steps.

(** ** Pings *)

(** What listing a cache or a transaction gives, and that a value without a time to live stays. *)
Class ListingLaws (B : Badger) (BL : BadgerLaws B) (C : GoCache) := {
  items_law c now k e : (k, e) ∈ cache_Items c now <-> cache_Get c now k = Some e;
  get_set_is c now now' k e e' ttl : cache_Get (cache_Set c now k e ttl) now' k = Some e' -> e' = e;
  get_set_forever c now now' k e : cache_Get (cache_Set c now k e 0) now' k = Some e;
  txn_items_law t k v : (k, v) ∈ txn_Items t <-> default (db_view (txn_base t) k) (txn_writes t !! k) = Some v
}.

Section Pings.
Context {B : Badger} {BL : BadgerLaws B} {C : GoCache} {CL : GoCacheLaws C} {LL : ListingLaws B BL C}.
Context {E : NodeEnv} {V : DVMService B} {CR : Signatures} {GS : GoSort} {D : DisgoverEnv}.

Definition node_ok (n : Node.t) : Prop := is_Some n.(Node.GrpcEndpoint) /\ is_Some n.(Node.HttpEndpoint).

Lemma dbind {A A'} (m : DM A) (k : A -> DM A') s s1 a : m s = Some (s1, a) -> (m ≫= k) s = k a s1.
Proof. intros H. unfold mbind, DM_bind. by rewrite H. Qed.
Lemma on_node_ok {A} (m : NM A) s n (a : A) : m s.(common) = Some (n, a) -> on_node m s = Some (set_common s n, a).
Proof. intros H. unfold on_node. by rewrite H. Qed.

(** What a transaction reads *)
Definition view (t : Txn) (k : string) : option stored := default (db_view (txn_base t) k) (txn_writes t !! k).

(** Under the keys of nodes, of types and of authentications there is what belongs there. *)
Record cache_ok (c : Cache) : Prop := {
  types_ok now k e : cache_Get c now k = Some e -> String.prefix delegate_prefix k = true -> exists a, e = CKey ("table-node-" +:+ a);
  nodes_ok now a e : cache_Get c now ("table-node-" +:+ a) = Some e -> exists n, e = CNode n /\ node_ok n;
  auths_ok now h e : cache_Get c now (Authentication.Key_of h) = Some e -> exists h', e = CAuthentication h'
}.

Definition view_ok (v : string -> option stored) : Prop := forall k key j, String.prefix delegate_prefix k = true ->
  v k = Some (Text key) -> v key = Some (Doc j) ->
  match Nodes.ToNodeFromJson j with Ret n => node_ok n | Err _ => True | Panic => False end.

Lemma prefix_not_node a : String.prefix delegate_prefix ("table-node-" +:+ a) = false.
Proof. done. Qed.

Lemma cache_ok_set c now k e ttl : cache_ok c ->
  (String.prefix delegate_prefix k = true -> exists a, e = CKey ("table-node-" +:+ a)) ->
  (forall a, k = "table-node-" +:+ a -> exists n, e = CNode n /\ node_ok n) ->
  (forall h, k = Authentication.Key_of h -> exists h', e = CAuthentication h') -> cache_ok (cache_Set c now k e ttl).
Proof.
  intros [H1 H2 H3] K1 K2 K3. split.
  - intros now' k' e' H Hp. destruct (decide (k = k')) as [<-|Hn]; [|rewrite get_set_ne in H by done; by eapply H1].
    apply get_set_is in H as ->. by apply K1.
  - intros now' a e' H. destruct (decide (k = "table-node-" +:+ a)) as [->|Hn]; [|rewrite get_set_ne in H by done; by eapply H2].
    apply get_set_is in H as ->. by eapply K2.
  - intros now' h e' H. destruct (decide (k = Authentication.Key_of h)) as [->|Hn]; [|rewrite get_set_ne in H by done; by eapply H3].
    apply get_set_is in H as ->. by eapply K3.
Qed.

Lemma cache_ok_auth c now a ttl : cache_ok c ->
  cache_ok (cache_Set c now (Authentication.Key a) (CAuthentication a.(Authentication.Hash)) ttl).
Proof. intros Hc. apply cache_ok_set; [done|done|done|]. intros h _. by eexists. Qed.

Lemma cache_ok_node c now now' d : cache_ok c -> node_ok d ->
  cache_ok (cache_Set (cache_Set c now (Node.Key d) (CNode d) 0) now' (Node.TypeKey d) (CKey (Node.Key d)) 0).
Proof.
  intros Hc Hd. apply cache_ok_set; [apply cache_ok_set; [done|done| |done]|..].
  - intros a _. by exists d.
  - intros _. by exists d.(Node.Address).
  - done.
  - done.
Qed.

(** *** The delegates in the cache *)
Lemma keys_of_ok l : (forall k e, (k, e) ∈ l -> String.prefix delegate_prefix k = true -> exists a, e = CKey ("table-node-" +:+ a)) ->
  exists ks, keys_of l = Some ks /\ Forall (fun k => exists a, k = "table-node-" +:+ a) ks /\
    forall k key, (k, CKey key) ∈ l -> String.prefix delegate_prefix k = true -> key ∈ ks.
Proof.
  induction l as [|[k e] l IH]; intros H; cbn [keys_of].
  - exists []. split_and!; [done|constructor|]. by intros ? ? ?%elem_of_nil.
  - destruct IH as (ks & -> & Hks & Hin); [intros; eapply H; [by apply list_elem_of_further|done]|]. cbn [mbind option_bind].
    destruct (String.prefix delegate_prefix k) eqn:Hp.
    + destruct (H k e) as [a ->]; [by apply list_elem_of_here|done|]. eexists. split_and!; [done|constructor; [by eexists|done]|].
      intros k' key [Hk|Hk]%elem_of_cons Hp'; [simplify_eq; by apply list_elem_of_here|]. apply list_elem_of_further. by eapply Hin.
    + exists ks. split_and!; [done..|]. intros k' key [Hk|Hk]%elem_of_cons Hp'; [simplify_eq; congruence|]. by eapply Hin.
Qed.

Lemma nodes_of_ok ks l : Forall (fun k => exists a, k = "table-node-" +:+ a) ks ->
  (forall a e, ("table-node-" +:+ a, e) ∈ l -> exists n, e = CNode n /\ node_ok n) ->
  exists ns, nodes_of ks l = Some ns /\ Forall node_ok ns /\ forall k n, (k, CNode n) ∈ l -> k ∈ ks -> n ∈ ns.
Proof.
  intros Hks. induction l as [|[k e] l IH]; intros H; cbn [nodes_of].
  - exists []. split_and!; [done|constructor|]. by intros ? ? ?%elem_of_nil.
  - destruct IH as (ns & -> & Hns & Hin); [intros; eapply H; by apply list_elem_of_further|]. cbn [mbind option_bind].
    destruct (filter (fun k' => k = k') ks) as [|hit hits] eqn:Hf.
    + exists ns. split_and!; [done..|]. intros k' n [Hk|Hk]%elem_of_cons Hkk; [simplify_eq|by eapply Hin].
      assert (k ∈ filter (fun k' => k = k') ks) as Hk by by apply list_elem_of_filter. rewrite Hf in Hk. by apply elem_of_nil in Hk.
    + assert (hit ∈ filter (fun k' => k = k') ks) as [<- Hhit]%list_elem_of_filter by (rewrite Hf; by apply list_elem_of_here).
      destruct (proj1 (Forall_forall _ _) Hks k Hhit) as [a ->].
      destruct (H a e) as (n & -> & Hn); [by apply list_elem_of_here|]. eexists. split_and!; [done| |].
      * apply Forall_app. split; [|done]. apply Forall_forall. intros x Hx. apply list_elem_of_In, in_map_iff in Hx as (? & <- & _). done.
      * intros k' m [Hk|Hk]%elem_of_cons Hkk; [simplify_eq; by apply list_elem_of_here|]. apply elem_of_app. right. by eapply Hin.
Qed.

Lemma ToNodesByTypeFromCache_ok n : cache_ok n.(cache) -> exists ns,
  ToNodesByTypeFromCache n = Some (later n 2 n.(cache), ns) /\ Forall node_ok ns /\
  forall d, (forall now, cache_Get n.(cache) now (Node.TypeKey d) = Some (CKey (Node.Key d))) ->
    (forall now, cache_Get n.(cache) now (Node.Key d) = Some (CNode d)) -> d.(Node.Type_) = TypeDelegate -> d ∈ ns.
Proof.
  intros [H1 H2 H3].
  destruct (keys_of_ok (cache_Items n.(cache) (Now n.(ticks)))) as (ks & Hks & Hall & Hin).
  { intros k e Hk%items_law. by eapply H1. }
  destruct (nodes_of_ok ks (cache_Items n.(cache) (Now (S n.(ticks)))) Hall) as (ns & Hns & Hok & Hin').
  { intros a e Hk%items_law. by eapply H2. }
  exists ns. split_and!; [|done|].
  - unfold ToNodesByTypeFromCache, time_Now, gets, of_opt. unfold mbind, NM_bind, mret, NM_ret. cbn. rewrite Hks. cbn.
    rewrite Hns. done.
  - intros d Ht Hk Hd. eapply Hin'; [apply items_law, Hk|]. eapply Hin; [apply items_law, Ht|].
    unfold Node.TypeKey. rewrite Hd. reflexivity.
Qed.

(** *** The delegates in the database *)
Lemma node_read n : node_ok n -> match Nodes.ToNodeFromJson (Nodes.MarshalJSON n) with Ret n' => node_ok n' | _ => False end.
Proof.
  intros [[g Hg] [h Hh]]. destruct n as [a og oh ty st time], g as [gh gp], h as [hh hp]. cbn in Hg, Hh. subst.
  unfold Nodes.MarshalJSON, omitempty. cbn [Node.Address Node.GrpcEndpoint Node.HttpEndpoint Node.Type_ Node.Status Node.StatusTime].
  destruct (String.eqb ty ""), (String.eqb st ""); cbn -[float64 int64_of_float]; by split; eexists.
Qed.

Lemma view_set t k v t' : txn_Set t k v = inl t' ->
  txn_base t' = txn_base t /\ forall k', view t' k' = if decide (k' = k) then Some v else view t k'.
Proof.
  intros (H1 & H2 & _)%set_law. split; [done|]. intros k'. unfold view. rewrite H1, H2.
  destruct (decide (k' = k)) as [->|]; [by rewrite lookup_insert_eq|by rewrite lookup_insert_ne].
Qed.

Lemma Persist_ok n t : view_ok (view t) -> node_ok n ->
  exists t' r, Nodes.Persist n t = Ret (t', r) /\ txn_base t' = txn_base t /\ view_ok (view t').
Proof.
  intros Hv Hn. unfold Nodes.Persist. cbn [set_all].
  destruct (txn_Set t (Node.Key n) _) as [t1|e] eqn:E1; [|by eexists _, _].
  apply view_set in E1 as [Hb1 Hv1].
  assert (view_ok (view t1)) as Hok1.
  { intros k key j Hp. rewrite !Hv1. destruct (decide (k = Node.Key n)) as [->|]; [by unfold Node.Key in Hp; rewrite prefix_not_node in Hp|].
    destruct (decide (key = Node.Key n)) as [->|]; [|by apply Hv]. intros _ [= <-]. pose proof (node_read n Hn).
    by destruct (Nodes.ToNodeFromJson _). }
  destruct (txn_Set t1 (Node.TypeKey n) _) as [t2|e] eqn:E2; [|eexists _, _; by rewrite Hb1].
  apply view_set in E2 as [Hb2 Hv2]. eexists t2, None. split_and!; [done|congruence|].
  intros k key j Hp. rewrite !Hv2. destruct (decide (key = Node.TypeKey n)) as [->|]; [done|].
  destruct (decide (k = Node.TypeKey n)) as [->|]; [|by apply Hok1].
  intros [= <-]. rewrite Hv1, decide_True by done. intros [= <-]. pose proof (node_read n Hn). by destruct (Nodes.ToNodeFromJson _).
Qed.

Lemma load_node_ok key t k : view_ok (view t) -> String.prefix delegate_prefix k = true -> view t k = Some (Text key) ->
  exists t' r, Nodes.ToNodeByKey key t = Ret (t', r) /\ txn_base t' = txn_base t /\ txn_writes t' = txn_writes t /\
    match r with inl n => node_ok n | inr _ => True end.
Proof.
  intros Hv Hp Hk. unfold Nodes.ToNodeByKey, load, get_doc, Get. cbv [mbind TM_bind]. destruct (txn_Get t key) as [t' r] eqn:Hg.
  apply get_law in Hg as (G1 & G2 & _ & _ & G5). cbv [mret TM_ret mbind outcome_bind].
  destruct r as [[j|x]|e]; [|by eexists _, _..].
  fold (view t key) in G5. specialize (Hv k key j Hp Hk G5). unfold caught. destruct (Nodes.ToNodeFromJson j); [| |done]; by eexists _, _.
Qed.

Lemma by_type_ok items t : view_ok (view t) -> (forall k v, (k, v) ∈ items -> view t k = Some v) ->
  exists t' ns, Nodes.by_type items delegate_prefix t = Ret (t', ns) /\ txn_base t' = txn_base t /\ txn_writes t' = txn_writes t /\ Forall node_ok ns.
Proof.
  revert t. induction items as [|[k v] items IH]; intros t Hv Hi; cbn [Nodes.by_type].
  - exists t, []. split_and!; [done..|constructor].
  - assert (forall k v, (k, v) ∈ items -> view t k = Some v) as Hi' by (intros; by apply Hi, list_elem_of_further).
    destruct (String.prefix delegate_prefix k) eqn:Hp; [|by apply IH]. destruct v as [j|key]; [by apply IH|].
    destruct (load_node_ok key t k Hv Hp) as (t1 & r & Hl & Hb & Hw & Hr); [by apply Hi, list_elem_of_here|].
    assert (forall k, view t1 k = view t k) as Heq by (intros k'; unfold view; by rewrite Hb, Hw).
    destruct (IH t1) as (t2 & ns & Hl2 & Hb2 & Hw2 & Hns).
    { intros k' key' j. rewrite !Heq. apply Hv. } { intros. rewrite Heq. by apply Hi'. }
    cbv [mbind TM_bind mret TM_ret]. rewrite Hl. cbn [mbind outcome_bind]. rewrite Hl2. cbn [outcome_bind].
    destruct r as [n|e]; eexists _, _; (split; [done|]); (split; [congruence|]); (split; [congruence|]); [by constructor|done].
Qed.

(** *** Storing and listing *)
Definition ping_ok (s : service) : Prop := cache_ok s.(common).(cache) /\ view_ok (db_view s.(common).(database)).

Lemma unique_ok keys l : Forall node_ok l -> Forall node_ok (unique keys l) /\ NoDup (map Node.Address (unique keys l)) /\
  Forall (fun n => n.(Node.Address) ∉ keys) (unique keys l) /\
  forall n, n ∈ l -> n.(Node.Address) ∈ keys \/ exists m, m ∈ unique keys l /\ m.(Node.Address) = n.(Node.Address).
Proof.
  intros H. revert keys. induction H as [|n l Hn _ IH]; intros keys; cbn [unique].
  - split_and!; [constructor..|]. by intros ? ?%elem_of_nil.
  - case_bool_decide as Hin.
    + destruct (IH keys) as (H1 & H2 & H3 & H4). split_and!; [done..|]. intros m [->|Hm]%elem_of_cons; [by left|by apply H4].
    + destruct (IH (n.(Node.Address) :: keys)) as (H1 & H2 & H3 & H4). split_and!.
      * by constructor.
      * cbn [map]. constructor; [|done]. intros Hx. apply list_elem_of_In, in_map_iff in Hx as (m & Hm & Hin'%list_elem_of_In).
        apply (proj1 (Forall_forall _ _) H3) in Hin'. apply Hin'. rewrite Hm. by apply list_elem_of_here.
      * constructor; [done|]. eapply Forall_impl; [exact H3|]. intros m Hm Hk. by apply Hm, list_elem_of_further.
      * intros m [->|Hm]%elem_of_cons; [right; exists n; by split; [apply list_elem_of_here|]|].
        destruct (H4 m Hm) as [[Heq|Hk]%elem_of_cons|(x & Hx & Hxm)]; [right; exists n; split; [apply list_elem_of_here|done]|by left|].
        right. exists x. split; [by apply list_elem_of_further|done].
Qed.

(** A node is in the cache for good. *)
Definition kept (s : service) (d : Node.t) : Prop :=
  forall now, cache_Get s.(common).(cache) now (Node.TypeKey d) = Some (CKey (Node.Key d)) /\
    cache_Get s.(common).(cache) now (Node.Key d) = Some (CNode d).

Lemma store_and_list_ok d s : ping_ok s -> node_ok d -> exists s' ns, store_and_list d s = Some (s', ns) /\
  ping_ok s' /\ kept s' d /\ s'.(files) = s.(files) /\ s'.(ThisNode) = s.(ThisNode) /\
  Forall node_ok ns /\ NoDup (map Node.Address ns) /\
  (d.(Node.Type_) = TypeDelegate -> exists m, m ∈ ns /\ m.(Node.Address) = d.(Node.Address)).
Proof.
  intros [Hc Hv] Hd. pose proof (begin_law s.(common).(database)) as (Hb & Hw & _).
  assert (view_ok (view (NewTransaction s.(common).(database)))) as Hv0.
  { intros k key j. unfold view. rewrite Hb, Hw, !lookup_empty. cbn [default]. apply Hv. }
  destruct (Persist_ok d _ Hv0 Hd) as (t1 & r1 & Hp & Hb1 & Hv1).
  set (c := cache_Set (cache_Set s.(common).(cache) (Now s.(common).(ticks)) (Node.Key d) (CNode d) 0) (Now (S s.(common).(ticks)))
              (Node.TypeKey d) (CKey (Node.Key d)) 0).
  assert (cache_ok c) as Hc1 by by apply cache_ok_node.
  assert (forall now, cache_Get c now (Node.TypeKey d) = Some (CKey (Node.Key d))) as Hk1 by (intros; apply get_set_forever).
  assert (forall now, cache_Get c now (Node.Key d) = Some (CNode d)) as Hk2.
  { intros. unfold c. rewrite get_set_ne by done. apply get_set_forever. }
  destruct (ToNodesByTypeFromCache_ok (later s.(common) 2 c) Hc1) as (cs & Hcs & Hcok & Hcin).
  destruct (by_type_ok (txn_Items t1) t1 Hv1) as (t2 & ss & Hss & Hb2 & Hw2 & Hsok); [by intros k v H%txn_items_law|].
  unfold store_and_list. rewrite (dbind _ _ _ _ _ (on_node_ok (gets database) _ _ _ eq_refl)), set_common_id.
  assert (Nodes.Set_ d (NewTransaction s.(common).(database)) s.(common) = Some (later s.(common) 2 c, (t1, r1))) as Hset.
  { unfold Nodes.Set_, mbind, NM_bind. rewrite Cache_eq. fold c.
    change (on_txn (Nodes.Persist d) (NewTransaction s.(common).(database)) (later s.(common) 2 c) = Some (later s.(common) 2 c, (t1, r1))).
    unfold on_txn. by rewrite Hp. }
  rewrite (dbind _ _ _ _ _ (on_node_ok _ _ _ _ Hset)), (dbind _ _ _ _ _ (on_node_ok _ (set_common s _) _ _ Hcs)), set_common_common.
  assert (on_txn (Nodes.ToNodesByType TypeDelegate) t1 (later (later s.(common) 2 c) 2 c) = Some (later (later s.(common) 2 c) 2 c, (t2, ss))) as Hl.
  { unfold on_txn, Nodes.ToNodesByType. change ("key-node-type-" +:+ TypeDelegate) with delegate_prefix. by rewrite Hss. }
  rewrite (dbind _ _ _ _ _ (on_node_ok _ (set_common s _) _ _ Hl)), set_common_common.
  rewrite (dbind _ _ _ _ _ (on_node_ok (gets database) (set_common s _) _ _ eq_refl)), set_common_common.
  rewrite (dbind _ _ _ _ _ (on_node_ok (set_database _) (set_common s _) _ _ eq_refl)), set_common_common.
  destruct (unique_ok [] (ss ++ cs)) as (U1 & U2 & _ & U4); [by apply Forall_app|].
  eexists _, _. split; [reflexivity|]. cbn. split_and!; try done.
  - split; [done|]. cbn. destruct (txn_Commit _ t2) as [db' r] eqn:Ec. cbn. apply commit_law in Ec. destruct r as [e|]; [by subst|].
    destruct Ec as [_ Hdb]. assert (forall k, db_view db' k = view t1 k) as Heq.
    { intros k. rewrite Hdb. unfold view. rewrite Hw2, Hb1, Hb. done. }
    intros k key j. rewrite !Heq. apply Hv1.
  - intros Hdt. destruct (U4 d) as [?%elem_of_nil|Hm]; [|done|done]. apply elem_of_app. right. by apply Hcin.
Qed.

(** *** Answering *)

(** A recovered key is not empty: 65 bytes. *)
Definition recovers_keys : Prop := forall hash sig pub, secp256k1_recover hash sig = Some pub -> pub <> [].

Lemma ToPublicKey_key hash sig pub : recovers_keys -> ToPublicKey hash sig = Some pub -> exists a, ToAddress pub = Some a.
Proof. intros Hr (_ & _ & H)%ToPublicKey_recovers. apply Hr in H. destruct pub; [congruence|]. by eexists. Qed.

(** The two texts of a signed record, decoded or not *)
Ltac decode_both :=
  repeat match goal with |- context [hex_Decode ?x] => destruct (hex_Decode x) end; cbn [mbind outcome_bind]; try done.

Lemma derived_total a : recovers_keys -> Authentication.GetDerivedAddress a <> Panic.
Proof.
  intros Hr. unfold Authentication.GetDerivedAddress, hex_or_err. decode_both. destruct (ToPublicKey _ _) eqn:Ep; [|done].
  apply ToPublicKey_key in Ep as [ad ->]; done.
Qed.

Lemma check_total now a address : recovers_keys -> Authentication.check now a address <> Panic.
Proof.
  intros Hr. unfold Authentication.check. destruct (5000 <? _); [done|]. destruct (negb _); [done|]. unfold hex_or_err.
  decode_both.
  destruct (ToPublicKey _ _) as [pub|] eqn:Ep; [|done]. pose proof Ep as (H1 & H2 & H3)%ToPublicKey_recovers.
  apply ToPublicKey_key in Ep as [ad Ha]; [|done]. rewrite Ha. cbn [or_panic mbind outcome_bind]. destruct (negb _); [done|].
  rewrite VerifySignature_65; [|done|by apply checkSignature_length|by eapply Hr].
  cbn [or_panic mbind outcome_bind]. by destruct (negb _).
Qed.

(** A node that has asked for its time, and perhaps noted an authentication *)
Definition noted_or_not (s s' : service) : Prop := exists k c, s' = set_common s (later s.(common) k c) /\ cache_ok c.

Lemma ping_ok_noted s s' : ping_ok s -> noted_or_not s s' -> ping_ok s'.
Proof. intros [_ Hv] (k & c & -> & Hc). by split. Qed.

(** The type a pinging node gets: that of a delegate if it is listed and its authentication verifies, what it says otherwise. *)
Lemma listed_type_ok a n l s : recovers_keys -> ping_ok s ->
  exists s' r, listed_type a n l s = Some (s', r) /\ noted_or_not s s' /\
    match r with
    | inr _ => True
    | inl tipe => (tipe = TypeDelegate /\ n.(Node.Address) ∈ l /\ authentic (Now (S s.(common).(ticks))) a n.(Node.Address)) \/
                  (tipe = n.(Node.Type_) /\ n.(Node.Address) ∉ l)
    end.
Proof.
  intros Hr [Hc Hv]. induction l as [|x l IH]; cbn [listed_type].
  - exists s, (inl n.(Node.Type_)). split; [done|]. split; [exists O, s.(common).(cache); by rewrite later_0, set_common_id|].
    right. split; [done|apply not_elem_of_nil].
  - destruct (String.eqb_spec x n.(Node.Address)) as [Heq|Heq].
    + unfold on_node, mbind, DM_bind. rewrite Verify_eq.
      destruct (cache_Get _ _ _) as [e|] eqn:Ee; [apply (auths_ok _ Hc) in Ee as [h' ->]; eexists _, _; split; [reflexivity|]; by split; [eexists _, _|]|].
      pose proof (check_total (Now (S s.(common).(ticks))) a n.(Node.Address) Hr) as Hp.
      destruct (Authentication.check _ a _) as [[]|e|] eqn:Ec; [| |done]; eexists _, _; (split; [reflexivity|]); split; try done.
      * eexists _, _. split; [done|]. by apply cache_ok_auth.
      * left. split; [done|]. split; [rewrite Heq; apply list_elem_of_here|by apply check_authentic].
      * by eexists _, _.
    + destruct IH as (s' & r & -> & Hn & Hres). exists s', r. split_and!; [done..|]. destruct r as [tipe|]; [|done].
      destruct Hres as [(H1 & H2 & H3)|[H1 H2]]; [left|right]; split_and!; try done; [by apply list_elem_of_further|].
      apply not_elem_of_cons. by split.
Qed.

Lemma NewAuthentication_ok n : recovers_keys -> exists r, Authentication.NewAuthentication n = Some (later n 1 n.(cache), r).
Proof.
  intros Hr. unfold Authentication.NewAuthentication. unfold mbind at 1, NM_bind at 1. cbn [time_Now gets set_ticks].
  change (time_Now n) with (Some (later n 1 n.(cache), Now n.(ticks))). cbn [option_bind mbind]. cbv zeta.
  destruct (Authentication.NewSignature _ _) as [sig|e|] eqn:En; [|by eexists|].
  - pose proof (derived_total {| Authentication.Address := "";
      Authentication.Hash := Authentication.NewHash {| Authentication.Address := ""; Authentication.Hash := "";
        Authentication.Time := ToMilliSeconds (Now n.(ticks)); Authentication.Signature := "" |};
      Authentication.Time := ToMilliSeconds (Now n.(ticks)); Authentication.Signature := sig |} Hr) as Hd.
    destruct (Authentication.GetDerivedAddress _) as [ad|e|]; [|by eexists|done].
    destruct (String.eqb ad MyAddress); by eexists.
  - exfalso. revert En. unfold Authentication.NewSignature, Ledger.NewSignature, hex_or_err.
    decode_both.
    by destruct (Sign _ _).
Qed.

Lemma proto_node n : node_ok n -> exists q, convertToProtoNode n = Some (Some q) /\
  q.(Proto.Address) = n.(Node.Address) /\ q.(Proto.Type_) = n.(Node.Type_).
Proof. intros [[g Hg] [h Hh]]. unfold convertToProtoNode. rewrite Hg, Hh. by eexists. Qed.

(** The nodes of a message, and those they stand for *)
Definition stand_for : list (option Proto.Node) -> list Node.t -> Prop :=
  Forall2 (fun p n => exists q, p = Some q /\ q.(Proto.Address) = n.(Node.Address) /\ q.(Proto.Type_) = n.(Node.Type_)).

Lemma proto_nodes ns : Forall node_ok ns -> exists ps, mapM convertToProtoNode ns = Some ps /\ stand_for ps ns.
Proof.
  induction 1 as [|n ns Hn _ (ps & Hps & IH)]; [exists []; split; [done|constructor]|]. destruct (proto_node n Hn) as (q & Hq & Hrest).
  exists (Some q :: ps). cbn. rewrite Hq. cbn. rewrite Hps. cbn. split; [done|]. constructor; [by exists q|done].
Qed.

(** What a pinging node that was not refused is to the seed *)
Definition stored_as (n : Node.t) (a : Authentication.t) (now : Z) (tipe : string) : Prop :=
  (tipe = TypeDelegate /\ (DelegateAddresses = [] \/ n.(Node.Address) ∈ DelegateAddresses /\ authentic now a n.(Node.Address))) \/
  (tipe = n.(Node.Type_) /\ DelegateAddresses <> [] /\ n.(Node.Address) ∉ DelegateAddresses).

Lemma ping_type a n s : recovers_keys -> ping_ok s ->
  exists s' r, (if (length DelegateAddresses =? 0)%nat then mret (inl TypeDelegate) else listed_type a n DelegateAddresses) s = Some (s', r) /\
    noted_or_not s s' /\ match r with inr _ => True | inl tipe => stored_as n a (Now (S s.(common).(ticks))) tipe end.
Proof.
  intros Hr Hs. unfold stored_as. destruct DelegateAddresses as [|x l] eqn:El; cbn [length Nat.eqb].
  - exists s, (inl TypeDelegate). split; [done|]. split; [|left; split; [done|by left]].
    exists O, s.(common).(cache). rewrite later_0, set_common_id. by destruct Hs.
  - destruct (listed_type_ok a n (x :: l) s Hr Hs) as (s' & r & H1 & H2 & H3). exists s', r. split_and!; [done..|].
    destruct r as [tipe|]; [|done]. destruct H3 as [(-> & H4 & H5)|[-> H4]]; [left; split; [done|by right]|by right].
Qed.

Lemma set_type_ok n tipe : node_ok n -> node_ok (set_type n tipe).
Proof. done. Qed.

(** C28: a seed answers every well-formed ping, and its database and cache stay such that it will answer the next:
    a ping whose authentication is not by the address it comes from changes nothing; a node it accepts is kept
    for good, as a delegate if delegates are not listed or if it is listed and its authentication verifies, and
    otherwise as whatever it says it is; the answer has every address once, among them that of a new delegate. *)
Theorem pings_are_answered (ping : Proto.PingSeed) (d : Node.t) (a : Proto.Authentication) (s : service) (Hr : recovers_keys)
    (Hs : ping_ok s) (Hseed : s.(ThisNode).(Node.Type_) = TypeSeed) (Hd : convertToDomainNode ping.(Proto.ping_Node) = Some d)
    (Ha : ping.(Proto.ping_Authentication) = Some a) :
  exists s' r, PingSeedGrpc ping s = Some (s', r) /\ ping_ok s' /\ s'.(ThisNode) = s.(ThisNode) /\ s'.(files) = s.(files) /\
    (Authentication.GetDerivedAddress (domain a) <> Ret d.(Node.Address) -> s' = s /\ exists e, r = inr e) /\
    (forall u, r = inl u -> exists tipe ns, stored_as d (domain a) (Now (S s.(common).(ticks))) tipe /\ kept s' (set_type d tipe) /\
       stand_for u.(Proto.Delegates) ns /\ NoDup (map Node.Address ns) /\
       (tipe = TypeDelegate -> exists m, m ∈ ns /\ m.(Node.Address) = d.(Node.Address))).
Proof.
  assert (node_ok d) as Hdok.
  { destruct (Proto.ping_Node ping) as [n|]; [|done]. cbn in Hd. destruct (Proto.GrpcEndpoint n), (Proto.HttpEndpoint n); cbn in Hd; try done.
    injection Hd as <-. split; by eexists. }
  unfold PingSeedGrpc. rewrite (dbind _ _ s s s.(ThisNode)) by done. rewrite Hseed. cbn [String.eqb negb TypeSeed Ascii.eqb Bool.eqb].
  rewrite (dbind _ _ s s d) by (unfold or_panics; by rewrite Hd).
  rewrite (dbind _ _ s s (domain a)) by (unfold or_panics; by rewrite Ha).
  pose proof (derived_total (domain a) Hr) as Hnp.
  destruct (Authentication.GetDerivedAddress (domain a)) as [ad|e|] eqn:Ed; [| |done].
  2: { rewrite (dbind _ _ s s (inr e)) by done. eexists s, _. split; [done|]. split_and!; try done. intros _. split; [done|by eexists]. }
  rewrite (dbind _ _ s s (inl ad)) by done.
  destruct (String.eqb_spec ad d.(Node.Address)) as [->|Hne]; cbn [negb].
  2: { eexists s, _. split; [done|]. split_and!; try done. intros _. split; [done|by eexists]. }
  destruct (ping_type (domain a) d s Hr Hs) as (s1 & r & Ht & Hn & Hst). rewrite (dbind _ _ _ _ _ Ht).
  pose proof (ping_ok_noted _ _ Hs Hn) as Hs1. assert (s1.(ThisNode) = s.(ThisNode) /\ s1.(files) = s.(files)) as [H1 H2] by by destruct Hn as (? & ? & -> & _).
  destruct r as [tipe|e]; [|eexists s1, _; by split_and!].
  destruct (store_and_list_ok (set_type d tipe) s1 Hs1 (set_type_ok _ _ Hdok)) as (s2 & ns & Hl & Hs2 & Hk & Hf & Hself & Hns & Hnd & Hin).
  rewrite (dbind _ _ _ _ _ Hl). destruct (proto_nodes ns Hns) as (ps & Hps & Hfor).
  rewrite (dbind _ _ s2 s2 ps) by (unfold or_panics; by rewrite Hps).
  destruct (NewAuthentication_ok s2.(common) Hr) as [r Hna]. rewrite (dbind _ _ _ _ _ (on_node_ok _ _ _ _ Hna)).
  destruct r as [au|e]; [|eexists _, _; split; [reflexivity|]; split; [by destruct Hs2; split|]; cbn; by rewrite Hself, Hf].
  eexists _, _. split; [reflexivity|]. split; [by destruct Hs2; split|]. cbn. rewrite Hself, Hf. split; [done|]. split; [done|]. split; [done|].
  intros u [= <-]. exists tipe, ns. split_and!; try done.
Qed.
End Pings.

(** ** A network to evaluate *)
Definition endpoint (port : Z) : Node.Endpoint := {| Node.Host := "10.0.0.1"; Node.Port := port |}.
Definition seed_address : string := toy_address 9.
Definition seed_node : Node.t := {| Node.Address := seed_address; Node.GrpcEndpoint := Some (endpoint 1); Node.HttpEndpoint := Some (endpoint 2);
  Node.Type_ := TypeSeed; Node.Status := ""; Node.StatusTime := zero_time |}.

(** One seed, one listed delegate *)
#[export] Instance toy_Disgover : DisgoverEnv := {|
  Seeds := [seed_node]; DelegateAddresses := [toy_address 3]; Dial := fun _ _ => true; Call := fun _ _ _ => None;
  WriteFile := fun _ _ => true; Format := fun _ => "12:00"
|}.

#[export] Instance toy_ListingLaws : ListingLaws map_Badger map_BadgerLaws map_GoCache.
Proof.
  split; cbn.
  - intros c now k e. rewrite list_elem_of_omap. split.
    + intros ([k' x] & Hin & Hx). apply elem_of_map_to_list in Hin. cbn in Hx. destruct (live now x) as [e'|] eqn:El; [|done].
      cbn in Hx. injection Hx as <- <-. by rewrite Hin.
    + intros H. destruct ((c : map_cache) !! k) as [x|] eqn:Ex; [|done]. exists (k, x). split; [by apply elem_of_map_to_list|].
      cbn in *. by rewrite H.
  - intros c now now' k e e' ttl. rewrite lookup_insert_eq. cbn. unfold live. cbn. by destruct (_ || _); intros [= <-].
  - intros c now now' k e. by rewrite lookup_insert_eq.
  - intros t k v. rewrite insertion_sort_perm, elem_of_map_to_list. by rewrite applied_lookup.
Qed.

(** What somebody signs at a time *)
Definition signed_at (key t : Z) : Proto.Authentication :=
  let hash := hex_EncodeToString (toy_hash (le_int64 t)) in
  {| Proto.Hash := hash; Proto.Time := t;
     Proto.Signature := match Ledger.NewSignature hash (toy_key key) with Ret s => s | _ => "" end |}.

Definition somebody (n : Z) (tipe : string) : Proto.Node :=
  {| Proto.Address := toy_address n; Proto.GrpcEndpoint := Some (endpoint 5); Proto.HttpEndpoint := Some (endpoint 6); Proto.Type_ := tipe |}.

Definition empty_node : node := {|
  database := (∅ : map_db) : @DB map_Badger; cache := (∅ : map_cache) : @Cache map_GoCache; receipts := ∅; gossips := ∅; next := 0; ticks := 0;
  gossipChan := []; timoutChan := 0; gossipQueue := {| Queue := []; ExistsMap := ∅ |}; timers := []
|}.

Definition a_service (tipe : string) : service :=
  let s := new_service empty_node (endpoint 3) (endpoint 4) in
  {| common := s.(common); ThisNode := set_type s.(ThisNode) tipe; running := true; files := ∅; reboots := []; updates := 0; sent := [] |}.

Definition an_update : Proto.Update :=
  {| Proto.update_Authentication := Some (signed_at 9 1600000000000); Proto.Delegates := [Some (somebody 3 TypeDelegate)] |}.

Definition accepted {A} (r : option (service * option A)) : bool := match r with Some (_, None) => true | _ => false end.
Lemma accepted_Some {A} (r : option (service * option A)) : accepted r = true -> exists s', r = Some (s', None).
Proof. destruct r as [[s' [e|]]|]; [done| |done]. by exists s'. Qed.

Lemma update_accepted : accepted (UpdateGrpc an_update (a_service TypeNode)) = true.
Proof. vm_compute. reflexivity. Qed.

(** Without the authentication, with that of a stranger, and with an old one *)
Example strangers_refused : map (fun u => accepted (UpdateGrpc {| Proto.update_Authentication := u; Proto.Delegates := [] |} (a_service TypeNode)))
  [None; Some (signed_at 8 1600000000000); Some (signed_at 9 1599999994999); Some (signed_at 9 1600000999999)] = [false; false; false; true].
Proof. vm_compute. reflexivity. Qed.


Lemma toy_digests : digests.
Proof. intros b. split; [apply be_bytes_length|apply be_bytes_range]. Qed.

Lemma authentications_can_be_used_by_others_witness : exists s1 s2, UpdateGrpc an_update (a_service TypeNode) = Some (s1, None) /\
  UpdateSoftwareGrpc (stolen (signed_at 9 1600000000000)) s1 = Some (s2, None) /\
  s2.(files) = <["./disgo" := le_int64 1600000000000]> s1.(files) /\ s2.(reboots) = s1.(reboots) ++ ["00:00"].
Proof.
  destruct (accepted_Some _ update_accepted) as [s1 Hs1].
  assert (s1.(common).(ticks) = 5%nat) as Ht.
  { change (match Some (s1, @None ledger_error) with Some (s, _) => s.(common).(ticks) | None => O end = 5%nat). rewrite <- Hs1. vm_compute. reflexivity. }
  destruct (authentications_can_be_used_by_others (a_service TypeNode) s1 an_update (signed_at 9 1600000000000) toy_digests) as [(s2 & H1 & H2 & H3) _].
  - done.
  - intros now seed _. reflexivity.
  - reflexivity.
  - exact Hs1.
  - rewrite Ht. vm_compute. discriminate.
  - exists s1, s2. split; [exact Hs1|]. split; [exact H1|]. split; [exact H2|exact H3].
Defined.

(** Somebody who is not listed says to be a delegate. *)
Definition pretender_ping : Proto.PingSeed :=
  {| Proto.ping_Authentication := Some (signed_at 4 1600000000000); Proto.ping_Node := Some (somebody 4 TypeDelegate) |}.

Definition answered (r : option (service * (Proto.Update + ledger_error))) : list (string * string) :=
  match r with
  | Some (_, inl u) => omap (fun p => p ← p; Some (p.(Proto.Address), p.(Proto.Type_))) u.(Proto.Delegates)
  | _ => []
  end.

Example pretender_is_a_delegate : answered (PingSeedGrpc pretender_ping (a_service TypeSeed)) = [(toy_address 4, TypeDelegate)].
Proof. vm_compute. reflexivity. Qed.

Lemma pings_are_answered_witness : exists s' r, PingSeedGrpc pretender_ping (a_service TypeSeed) = Some (s', r) /\ ping_ok s' /\
  s'.(ThisNode) = (a_service TypeSeed).(ThisNode).
Proof.
  destruct (convertToDomainNode (Some (somebody 4 TypeDelegate))) as [d|] eqn:Hd; [|discriminate].
  destruct (pings_are_answered pretender_ping d (signed_at 4 1600000000000) (a_service TypeSeed)) as (s' & r & H1 & H2 & H3 & _).
  - intros hash sig pub [= <-]. discriminate.
  - split; [split; intros now k e H; discriminate H|intros k key j _ H; discriminate H].
  - reflexivity.
  - exact Hd.
  - reflexivity.
  - exists s', r. split; [exact H1|]. split; [exact H2|exact H3].
Defined.
