(* ===== verification/Api.v ===== *)
(** * What a node tells its clients

    dapos/dapos_api.go, and the listings of commons/types (transaction.go, account.go,
    gossip.go, transaction_sorter.go): pages of what the database holds, in the order of
    its keys.  A page number is a 64-bit integer, whose arithmetic wraps.  The time of a
    response is left out, and so are log lines. *)
From Stdlib Require Import ZArith Lia Sorted.
From stdpp Require Import pretty sorting.
From S2P Require Import Prelude Queue Word Hex Json Ledger Store Dapos DaposProperties Disgover DisgoverProperties.
Import Big.
Open Scope Z_scope.

(** ** strconv.Atoi *)
Fixpoint decimal (acc : Z) (l : list Z) : option Z :=
  match l with
  | [] => Some acc
  | c :: l => if (48 <=? c) && (c <=? 57) then decimal (acc * 10 + (c - 48)) l else None
  end.

(** [None]: no number, or none of 64 bits. *)
Definition Atoi (s : string) : option Z :=
  let signed_ sign (l : list Z) :=
    if (length l =? 0)%nat then None
    else z ← decimal 0 l; let z := sign * z in if (- 2 ^ 63 <=? z) && (z <? 2 ^ 63) then Some z else None in
  match bytes_of s with
  | 45 :: l => signed_ (-1) l
  | 43 :: l => signed_ 1 l
  | l => signed_ 1 l
  end.

(** ** Listings *)
Section Listings.
Context {B : Badger} {GS : GoSort}.

(** What an iterator gives from [from] on, as long as the prefix holds *)
Fixpoint valid_for_prefix (prefix : string) (items : list (string * stored)) : list (string * stored) :=
  match items with
  | [] => []
  | (k, v) :: items => if String.prefix prefix k then (k, v) :: valid_for_prefix prefix items else []
  end.

Fixpoint seek (from : string) (items : list (string * stored)) : list (string * stored) :=
  match items with
  | [] => []
  | (k, v) :: items => if String.ltb k from then seek from items else (k, v) :: items
  end.

Definition iterate (from prefix : string) (t : Txn) : list (string * stored) := valid_for_prefix prefix (seek from (txn_Items t)).

Definition items_from (from prefix : string) : TM (list (string * stored)) := fun t => Ret (t, iterate from prefix t).

(** [strings.Split(s, "-")] *)
Fixpoint Split (s : string) : list string :=
  match s with
  | EmptyString => [""]
  | String c s =>
      if Ascii.eqb c (Ascii.ascii_of_nat 45) then "" :: Split s
      else match Split s with w :: l => String c w :: l | [] => [String c ""] end
  end.

(** The hash in a key by time; a key with fewer parts panics. *)
Definition hash_in (key : string) : option string := Split key !! 4%nat.

(** *** transaction_sorter.go *)
Definition SortByTime (txs : list Transaction.t) (ascending : bool) : list Transaction.t :=
  sort_by (fun t1 t2 => if ascending then t1.(Transaction.Time) <? t2.(Transaction.Time)
                        else t2.(Transaction.Time) <? t1.(Transaction.Time)) txs.

Definition SortByTimeHash (txs : list Transaction.t) (ascending : bool) : list Transaction.t :=
  let before t1 t2 := if t1.(Transaction.Time) =? t2.(Transaction.Time) then String.ltb t1.(Transaction.Hash) t2.(Transaction.Hash)
                      else t1.(Transaction.Time) <? t2.(Transaction.Time) in
  sort_by (fun t1 t2 => if ascending then before t1 t2 else before t2 t1) txs.

(** *** All transactions, the newest first *)
Record PagingResult := { Count : Z; PageStart : string }.

(** Where the page with [startingHash] starts; without one it is the first. *)
Fixpoint find_start (startingHash : string) (timestamps : list string) (idx : Z) : outcome ledger_error (option (Z * string)) :=
  match timestamps with
  | [] => Ret None
  | key :: timestamps =>
      hash ← or_panic (hash_in key);
      let startingHash := if String.eqb startingHash "" then hash else startingHash in
      if String.eqb startingHash hash then Ret (Some (idx, startingHash)) else find_start startingHash timestamps (idx + 1)
  end.

(** [timestamps[idx]] *)
Definition key_at (timestamps : list string) (idx : Z) : option string :=
  if idx <? 0 then None else timestamps !! Z.to_nat idx.

Fixpoint page_of (now : Z) (timestamps : list string) (totalCount : Z) (i : nat) (idx : Z) : TM (list (option Transaction.t)) :=
  match i with
  | O => mret []
  | S i =>
      if idx <? totalCount then
        key ← lift (or_panic (key_at timestamps idx));
        if negb (String.eqb key "") then
          hash ← lift (or_panic (hash_in key));
          r ← ToTransactionByKey now (Transaction.Key_of hash);
          txs ← page_of now timestamps totalCount i (idx + 1);
          mret (match r with inl tx => Some tx | inr _ => None end :: txs)
        else mret []
      else page_of now timestamps totalCount i idx
  end.

Definition page_error (page pageSize : Z) : option ledger_error :=
  if (pageSize <=? 0) || (100 <? pageSize) then Some ErrInvalidRequestPageSize
  else if page <=? 0 then Some ErrInvalidRequestPage else None.

(** The keys, the greatest first - as strings, so that the time 9 comes before the time 10. *)
Definition greatest_first (keys : list string) : list string := sort_by (fun a b => String.ltb b a) keys.

Definition time_keys : TM (list string) :=
  items ← items_from "key-transaction-time-" "key-transaction-time-"; mret (map fst items).

Definition TransactionPaging (now : Z) (startingHash : string) (page pageSize : Z)
    : TM (list (option Transaction.t) * PagingResult + ledger_error) :=
  match page_error page pageSize with
  | Some e => mret (inr e)
  | None =>
      timestamps ← time_keys;
      let totalCount := Z.of_nat (length timestamps) in
      if totalCount =? 0 then mret (inl ([], {| Count := totalCount; PageStart := "" |}))
      else
        let timestamps := greatest_first timestamps in
        start ← lift (find_start startingHash timestamps 0);
        match start with
        | None => mret (inr ErrInvalidRequestStartingHash)
        | Some (idx, startingHash) =>
            let totalCount := totalCount - idx in
            let idx := i64 (i64 (idx + i64 (page * pageSize)) - pageSize) in
            txs ← page_of now timestamps totalCount (Z.to_nat pageSize) idx;
            mret (inl (txs, {| Count := totalCount; PageStart := startingHash |}))
        end
  end.

(** *** Pages of an iteration

    The items from the [firstItem]-th on, counted from one.  A page of transactions ends with
    the first error, a page of accounts or gossips leaves out what cannot be read. *)
Definition first_item (page pageSize : Z) : Z := i64 (i64 (page * pageSize) - (pageSize - 1)).

Fixpoint strict_page {A} (read : string * stored -> TM (A + ledger_error)) (count firstItem pageSize : Z)
    (items : list (string * stored)) : TM (list A + ledger_error) :=
  match items with
  | [] => mret (inl [])
  | kv :: items =>
      let count := count + 1 in
      let next := if i64 (firstItem + pageSize) <? count then mret (inl []) else strict_page read count firstItem pageSize items in
      if (firstItem <=? count) && (count <? i64 (firstItem + pageSize)) then
        r ← read kv;
        match r with
        | inr e => mret (inr e)
        | inl a => l ← next; mret match l with inl l => inl (a :: l) | inr e => inr e end
        end
      else next
  end.

Fixpoint lenient_page {A} (read : string * stored -> TM (A + ledger_error)) (count firstItem last : Z)
    (items : list (string * stored)) : TM (list A) :=
  match items with
  | [] => mret []
  | kv :: items =>
      let count := count + 1 in
      let next := if last <? count then mret [] else lenient_page read count firstItem last items in
      if (firstItem <=? count) && (count <=? last) then
        r ← read kv;
        match r with
        | inr _ => lenient_page read count firstItem last items
        | inl a => l ← next; mret (a :: l)
        end
      else next
  end.

(** The value of an index entry is the key of the record; a document is no such key. *)
Definition read_indexed (now : Z) (kv : string * stored) : TM (Transaction.t + ledger_error) :=
  match kv.2 with
  | Doc _ => mret (inr ErrKeyNotFound)
  | Text key =>
      r ← ToTransactionByKey now key;
      match r with inr e => mret (inr e) | inl tx => tx ← setTransients now tx; mret (inl tx) end
  end.

Definition by_address (now : Z) (prefix : string) (key_of : Transaction.t -> string) (startingHash : string) (page pageSize : Z)
    : TM (list Transaction.t + ledger_error) :=
  match page_error page pageSize with
  | Some e => mret (inr e)
  | None =>
      item ← (if String.eqb startingHash "" then mret (inl prefix)
              else r ← ToTransactionByKey now (Transaction.Key_of startingHash);
                   mret match r with inl thing => inl (key_of thing) | inr _ => inr ErrInvalidRequestHash end);
      match item with
      | inr e => mret (inr e)
      | inl item =>
          items ← items_from item prefix;
          r ← strict_page (read_indexed now) 0 (first_item page pageSize) pageSize items;
          mret match r with inl txs => inl (SortByTime txs false) | inr e => inr e end
      end
  end.

Definition ToTransactionsByFromAddress (now : Z) (address startingHash : string) (page pageSize : Z) :=
  by_address now ("key-transaction-from-" +:+ address) Transaction.FromKey startingHash page pageSize.
Definition ToTransactionsByToAddress (now : Z) (address startingHash : string) (page pageSize : Z) :=
  by_address now ("key-transaction-to-" +:+ address) Transaction.ToKey startingHash page pageSize.

Definition read_doc {A} (of_json : json -> result A) (kv : string * stored) : TM (A + ledger_error) :=
  match kv.2 with Doc j => caught (of_json j) | Text _ => mret (inr errJson) end.

Definition AccountPaging (startingHash : string) (page pageSize : Z) : TM (list Account.t + ledger_error) :=
  match page_error page pageSize with
  | Some e => mret (inr e)
  | None =>
      let prefix := "table-account-" in
      item ← (if String.eqb startingHash "" then mret (inl prefix)
              else r ← ToAccountByAddress startingHash;
                   mret match r with inl thing => inl (Account.Key thing) | inr _ => inr ErrInvalidRequestHash end);
      match item with
      | inr e => mret (inr e)
      | inl item =>
          let first := first_item page pageSize in
          items ← items_from item prefix;
          l ← lenient_page (read_doc Account.ToAccountFromJson) 0 first (i64 (first + pageSize) - 1) items;
          mret (inl l)
      end
  end.

Definition GossipPaging (now page : Z) : TM (list Gossip.t + ledger_error) :=
  if page <=? 0 then mret (inr ErrInvalidRequest)
  else
    let first := first_item page 10 in
    items ← items_from "table-gossip-" "table-gossip-";
    l ← lenient_page (read_doc (Gossip.ToGossipFromJson now)) 0 first (i64 (first + 9)) items;
    mret (inl l).
End Listings.

(** ** dapos_api.go *)
Section Api.
Context {B : Badger} {C : GoCache} {E : NodeEnv} {V : DVMService B} {CR : Signatures} {GS : GoSort} {D : DisgoverEnv}.

Inductive data :=
  | DNothing | DNodes (l : list Node.t) | DReceipt (r : Receipt.t) | DAccount (a : Account.t)
  | DTransaction (tx : Transaction.t) | DTransactions (l : list (option Transaction.t)) | DAccounts (l : list Account.t)
  | DGossip (g : Gossip.t) | DGossips (l : list Gossip.t) | DText (s : string).

(** response.go *)
Record Response := { Status : string; HumanReadableStatus : string; Data : data; Paging : option PagingResult }.

Definition NewResponse : Response := {| Status := StatusOk; HumanReadableStatus := "Ok"; Data := DNothing; Paging := None |}.
Definition NewResponseWithError (e : ledger_error) : Response :=
  {| Status := StatusInternalError; HumanReadableStatus := error_text e; Data := DNothing; Paging := None |}.
Definition with_status (s : string) (r : Response) : Response :=
  {| Status := s; HumanReadableStatus := r.(HumanReadableStatus); Data := r.(Data); Paging := r.(Paging) |}.
Definition with_text (s : string) (r : Response) : Response :=
  {| Status := r.(Status); HumanReadableStatus := s; Data := r.(Data); Paging := r.(Paging) |}.
Definition with_data (d : data) (r : Response) : Response :=
  {| Status := r.(Status); HumanReadableStatus := r.(HumanReadableStatus); Data := d; Paging := r.(Paging) |}.
Definition with_paging (p : PagingResult) (r : Response) : Response :=
  {| Status := r.(Status); HumanReadableStatus := r.(HumanReadableStatus); Data := r.(Data); Paging := Some p |}.

Definition StatusNotDelegateAsHumanReadable : string := "This node is not a delegate. Please select a delegate node.".

(** The database transaction of a getter is discarded. *)
Definition reading {A} (m : Z -> TM A) : DM A :=
  now ← on_node time_Now; db ← on_node (gets database); '(_, a) ← on_node (on_txn (m now) (NewTransaction db)); mret a.

Definition if_delegate (m : DM Response) : DM Response :=
  self ← look ThisNode;
  if String.eqb self.(Node.Type_) TypeDelegate then m
  else mret (with_text StatusNotDelegateAsHumanReadable (with_status StatusNotDelegate NewResponse)).

Definition not_found_or_error (e : ledger_error) : Response :=
  with_status (if bool_decide (e = ErrKeyNotFound) then StatusNotFound else StatusInternalError) NewResponse.

Definition GetDelegateNodes : DM Response :=
  cDelegates ← on_node ToNodesByTypeFromCache;
  sDelegates ← reading (fun _ => Nodes.ToNodesByType TypeDelegate);
  mret (with_data (DNodes (unique [] (sDelegates ++ cDelegates))) NewResponse).

Definition GetReceipt (transactionHash : string) : DM Response :=
  if_delegate (
    r ← on_node (ToReceiptFromCache transactionHash);
    match r with
    | Some l => receipt ← on_node (receipt_at l); mret (with_data (DReceipt receipt) NewResponse)
    | None =>
        r ← reading (fun _ => ToReceiptFromKey (Receipt.Key_of transactionHash));
        mret match r with
             | inl receipt => with_data (DReceipt receipt) NewResponse
             | inr e =>
                 let text := if bool_decide (e = ErrKeyNotFound)
                             then "unable to find receipt [hash=" +:+ transactionHash +:+ "]" else error_text e in
                 with_text text (not_found_or_error e)
             end
    end).

Definition GetAccount (address : string) : DM Response :=
  if_delegate (
    r ← reading (fun _ => ToAccountByAddress address);
    mret match r with inl a => with_data (DAccount a) NewResponse | inr e => not_found_or_error e end).

Definition NewTransaction_ (transaction : Transaction.t) : DM Response :=
  if_delegate (
    '(status, text) ← on_node (startGossiping transaction);
    mret (with_text text (with_status status NewResponse))).

(** What is not stored may be on its way. *)
Definition GetTransaction (hash : string) : DM Response :=
  if_delegate (
    r ← reading (fun now => ToTransactionByHash now hash);
    match r with
    | inl tx => mret (with_data (DTransaction tx) NewResponse)
    | inr e =>
        if bool_decide (e = ErrKeyNotFound) then
          r ← on_node (ToTransactionFromCache hash);
          match r with
          | Some l => g ← on_node (gossip_at l); mret (with_data (DTransaction g.(Gossip.Transaction)) NewResponse)
          | None => mret (with_status StatusNotFound NewResponse)
          end
        else mret (with_status StatusInternalError NewResponse)
    end).

(** The page number and the page size; the text of the error is strconv's. *)
Definition with_numbers (page size : string) (m : Z -> Z -> DM Response) : DM Response :=
  match Atoi page, Atoi size with
  | Some page, Some size => m page size
  | _, _ => mret (NewResponseWithError (errDb 0))
  end.

Definition GetTransactions (page size start : string) : DM Response :=
  with_numbers page size (fun page size => if_delegate (
    r ← reading (fun now => TransactionPaging now start page size);
    mret match r with
         | inl (txs, paging) => with_paging paging (with_data (DTransactions txs) NewResponse)
         | inr e => NewResponseWithError e
         end)).

(** A listing of transactions by address *)
Definition transactions_of (listing : Z -> string -> string -> Z -> Z -> TM (list Transaction.t + ledger_error))
    (address page size start : string) : DM Response :=
  with_numbers page size (fun page size => if_delegate (
    r ← reading (fun now => listing now address start page size);
    mret match r with
         | inl txs => with_data (DTransactions (map Some txs)) NewResponse
         | inr e => NewResponseWithError e
         end)).

Definition GetTransactionsByFromAddress := transactions_of ToTransactionsByFromAddress.
Definition GetTransactionsByToAddress := transactions_of ToTransactionsByToAddress.

Definition DumpQueue : DM Response :=
  q ← on_node (gets gossipQueue);
  g ← on_node (gets gossips);
  l ← or_panics (mapM (fun e => g !! e.(ptr)) (GQ.Dump q));
  mret (with_data (DGossips l) NewResponse).

Definition ToBeSupported : DM Response := mret (with_data (DText "UnavailableFeature") NewResponse).

Definition GetAccounts (page size start : string) : DM Response :=
  with_numbers page size (fun page size => if_delegate (
    r ← reading (fun _ => AccountPaging start page size);
    mret match r with inl l => with_data (DAccounts l) NewResponse | inr e => NewResponseWithError e end)).

Definition GetGossips (page : string) : DM Response :=
  match Atoi page with
  | None => mret (NewResponseWithError (errDb 0))
  | Some page => if_delegate (
      r ← reading (fun now => GossipPaging now page);
      mret match r with inl l => with_data (DGossips l) NewResponse | inr e => NewResponseWithError e end)
  end.

Definition GetGossip (hash : string) : DM Response :=
  if_delegate (
    r ← reading (fun now => ToGossipByTransactionHash now hash);
    mret match r with inl g => with_data (DGossip g) NewResponse | inr e => not_found_or_error e end).
End Api.

(** ** What a page is *)
Section Pages.
Context {B : Badger} {GS : GoSort}.

(** The [p]-th page, counted from one *)
Definition page {A} (p size : nat) (l : list A) : list A := take size (drop ((p - 1) * size) l).

(** All pages together are the list. *)
Lemma pages_are_all {A} (size : nat) (l : list A) m : (0 < size)%nat -> (length l <= m * size)%nat ->
  concat (map (fun p => page p size l) (seq 1 m)) = l.
Proof.
  intros Hs. revert l. induction m as [|m IH]; intros l Hl; [destruct l; [done|simpl in Hl; lia]|].
  cbn [seq map concat]. rewrite <- seq_shift, map_map. unfold page at 1. replace ((1 - 1) * size)%nat with 0%nat by lia.
  rewrite drop_0. transitivity (take size l ++ drop size l); [|apply take_drop]. f_equal.
  rewrite <- (IH (drop size l)) by (rewrite length_drop; lia). f_equal. apply map_ext_in. intros p Hp%in_seq. unfold page. rewrite drop_drop. do 2 f_equal. nia.
Qed.

(** Reading what the hashes name; what is not found is left open. *)
Fixpoint read_all (now : Z) (hashes : list string) : TM (list (option Transaction.t)) :=
  match hashes with
  | [] => mret []
  | hash :: hashes =>
      r ← ToTransactionByKey now (Transaction.Key_of hash);
      txs ← read_all now hashes;
      mret (match r with inl tx => Some tx | inr _ => None end :: txs)
  end.

Lemma TM_bind_ext {A A'} (m : TM A) (k k' : A -> TM A') t : (forall a t, k a t = k' a t) -> (m ≫= k) t = (m ≫= k') t.
Proof. intros H. unfold mbind, TM_bind. destruct (m t) as [[t' a]| |]; [apply H|done|done]. Qed.

Lemma TM_step {A A'} (m : TM A) (k : A -> TM A') t t' a : m t = Ret (t', a) -> (m ≫= k) t = k a t'.
Proof. intros H. unfold mbind, TM_bind. by rewrite H. Qed.

Lemma hashes_at keys hs i : mapM hash_in keys = Some hs -> (i < length hs)%nat -> exists key hash,
  keys !! i = Some key /\ hash_in key = Some hash /\ hs !! i = Some hash /\ key <> "".
Proof.
  intros H%mapM_Some Hi. destruct (lookup_lt_is_Some_2 _ _ Hi) as [hash Hh].
  destruct (Forall2_lookup_r _ _ _ _ _ H Hh) as (key & Hk & He). exists key, hash. split_and!; try done. intros ->. discriminate He.
Qed.

Lemma page_of_ok now keys hs total i : forall idx t, mapM hash_in keys = Some hs -> 0 <= idx -> total <= Z.of_nat (length keys) ->
  page_of now keys total i idx t = read_all now (take i (drop (Z.to_nat idx) (take (Z.to_nat total) hs))) t.
Proof.
  induction i as [|i IH]; intros idx t Hhs Hidx Htot; [done|]. cbn [page_of].
  pose proof (Forall2_length _ _ _ (proj1 (mapM_Some _ _ _) Hhs)) as Hlen.
  destruct (Z.ltb_spec idx total).
  - destruct (hashes_at keys hs (Z.to_nat idx) Hhs) as (key & hash & Hk & Hh & Hhash & Hne); [lia|].
    rewrite (drop_S _ hash) by (rewrite lookup_take_lt by lia; exact Hhash). cbn [take read_all].
    unfold key_at. destruct (Z.ltb_spec idx 0); [lia|]. rewrite Hk.
    change (@lift _ _ (or_panic (Some key))) with (@mret TM _ _ key).
    transitivity ((r ← ToTransactionByKey now (Transaction.Key_of hash); txs ← page_of now keys total i (idx + 1);
      mret (match r with inl tx => Some tx | inr _ => None end :: txs)) t).
    { unfold mbind at 1, TM_bind at 1, mret at 1, TM_ret at 1. cbn. destruct (String.eqb_spec key ""); [done|]. cbn. rewrite Hh. done. }
    apply TM_bind_ext. intros r t'. unfold mbind, TM_bind. rewrite IH by (done || lia). by rewrite Z2Nat.inj_add by lia; rewrite Nat.add_1_r.
  - rewrite IH by (done || lia). rewrite !drop_ge by (rewrite length_take; lia). by rewrite !take_nil.
Qed.

(** The first place of a hash *)
Definition first_at (start : string) (hs : list string) (k : nat) : Prop :=
  hs !! k = Some start /\ forall j, (j < k)%nat -> hs !! j <> Some start.

(** No key is smaller, as a string, than one that comes after it. *)
Definition descending (keys : list string) : Prop := StronglySorted (fun a b => String.ltb a b = false) keys.

Lemma ltb_false a b : String.ltb a b = false <-> String.compare a b <> Lt.
Proof. unfold String.ltb. by destruct (String.compare a b). Qed.

Lemma compare_ge_trans a : forall b c, String.compare a b <> Lt -> String.compare b c <> Lt -> String.compare a c <> Lt.
Proof.
  induction a as [|x a IH]; intros [|y b] [|z c]; cbn [String.compare]; try done.
  unfold Ascii.compare. destruct (N.compare_spec (Ascii.N_of_ascii x) (Ascii.N_of_ascii y)) as [E1| |E1],
    (N.compare_spec (Ascii.N_of_ascii y) (Ascii.N_of_ascii z)) as [E2| |E2],
    (N.compare_spec (Ascii.N_of_ascii x) (Ascii.N_of_ascii z)) as [E3|E3|E3]; try done; try lia. apply IH.
Qed.

#[local] Instance descending_antisymm : AntiSymm (=) (fun a b => String.ltb a b = false).
Proof.
  intros a b Ha%ltb_false Hb%ltb_false. rewrite String.compare_antisym in Hb. apply String.compare_eq_iff.
  by destruct (String.compare a b).
Qed.

Lemma greatest_first_descending keys : descending (greatest_first keys).
Proof.
  apply (sort_by_sorted (fun a b => String.ltb b a)).
  - intros a b H. apply ltb_false. unfold String.ltb in H. rewrite String.compare_antisym. by destruct (String.compare b a).
  - intros a b c Hab%ltb_false Hbc%ltb_false. apply ltb_false. by apply (compare_ge_trans _ b).
Qed.

(** There is only one such list. *)
Lemma greatest_first_unique keys l : keys ≡ₚ l -> descending keys -> greatest_first l = keys.
Proof.
  intros Hp Hd. apply (StronglySorted_unique (fun a b => String.ltb a b = false)); [apply greatest_first_descending|done|].
  unfold greatest_first. by rewrite sort_by_perm, Hp.
Qed.

Example nine_before_ten : greatest_first (GS := insertion_GoSort) ["key-transaction-time-10-aa"; "key-transaction-time-9-bb"] =
  ["key-transaction-time-9-bb"; "key-transaction-time-10-aa"].
Proof. reflexivity. Qed.

Lemma find_start_ok start keys : forall hs k idx, mapM hash_in keys = Some hs -> start <> "" -> first_at start hs k ->
  find_start start keys idx = Ret (Some (idx + Z.of_nat k, start)).
Proof.
  induction keys as [|key keys IH]; intros hs k idx Hhs Hne [Hk Hfirst].
  { injection Hhs as <-. done. }
  cbn [mapM] in Hhs. destruct (hash_in key) as [hash|] eqn:Hh; [|done]. cbn [mbind option_bind] in Hhs.
  destruct (mapM hash_in keys) as [hs'|] eqn:Hm; [|done]. injection Hhs as <-.
  cbn [find_start]. rewrite Hh. cbn [or_panic mbind outcome_bind]. rewrite (proj2 (String.eqb_neq start "")) by done.
  destruct k as [|k].
  - injection Hk as ->. rewrite String.eqb_refl. change (Z.of_nat 0) with 0. by rewrite Z.add_0_r.
  - destruct (String.eqb_spec start hash) as [->|Hd]; [by destruct (Hfirst 0%nat ltac:(lia))|].
    replace (idx + Z.of_nat (S k)) with (idx + 1 + Z.of_nat k) by lia. apply (IH hs'); [done|done|]. split; [done|]. intros j Hj. exact (Hfirst (S j) ltac:(lia)).
Qed.

Lemma find_start_first keys : forall hs h idx, mapM hash_in keys = Some (h :: hs) -> find_start "" keys idx = Ret (Some (idx, h)).
Proof.
  intros hs h idx Hhs. destruct keys as [|key keys]; [done|]. cbn [mapM] in Hhs.
  destruct (hash_in key) as [hash|] eqn:Hh; [|done]. cbn [mbind option_bind] in Hhs.
  destruct (mapM hash_in keys); [|done]. injection Hhs as -> ->.
  cbn [find_start]. rewrite Hh. cbn. by rewrite String.eqb_refl.
Qed.

(** C30: a page of the transactions is read where it says: of the hashes in the keys by time, in descending order of the keys
    as strings - the latest first only among times of as many digits -, without
    those from the starting hash's place on - as many as come before it are left out at the end too - it is the transactions
    of its slice, a transaction that is not found being left open; from the greatest key on, no transaction is on no page or on two. *)
Theorem transactions_are_paged (now : Z) (start : string) (p size : nat) (t : Txn) (keys hs : list string) (k : nat)
    (Hkeys : keys ≡ₚ map fst (iterate "key-transaction-time-" "key-transaction-time-" t)) (Hdesc : descending keys)
    (Hhs : mapM hash_in keys = Some hs)
    (Hsize : (0 < size <= 100)%nat) (Hp : (0 < p)%nat) (Hbound : Z.of_nat k + Z.of_nat p * Z.of_nat size < 2 ^ 63)
    (Hstart : (start = "" /\ k = 0%nat /\ hs <> []) \/ (start <> "" /\ first_at start hs k)) :
  TransactionPaging now start (Z.of_nat p) (Z.of_nat size) t =
    (txs ← read_all now (page p size (drop k (take (length hs - k) hs)));
     mret (inl (txs, {| Count := Z.of_nat (length hs) - Z.of_nat k; PageStart := default "" (hs !! k) |}))) t /\
  forall m, (length hs <= m * size)%nat -> concat (map (fun p => page p size (drop 0 (take (length hs - 0) hs))) (seq 1 m)) = hs.
Proof.
  split.
  2:{ intros m Hm. rewrite drop_0, Nat.sub_0_r, firstn_all. apply pages_are_all; [lia|done]. }
  apply (greatest_first_unique _ _ Hkeys) in Hdesc. pose proof (Forall2_length _ _ _ (proj1 (mapM_Some _ _ _) Hhs)) as Hlen.
  assert (Hfind : find_start start keys 0 = Ret (Some (Z.of_nat k, default "" (hs !! k))) /\ (k < length hs)%nat).
  { destruct Hstart as [(-> & -> & Hne)|[Hne Hk]].
    - destruct hs as [|h hs]; [done|]. split; [by apply (find_start_first keys hs h)|simpl; lia].
    - rewrite (find_start_ok start keys hs k 0) by done. destruct Hk as [Hk _]. rewrite Hk. split; [done|]. exact (lookup_lt_Some _ _ _ Hk). }
  destruct Hfind as [Hfind Hklt].
  unfold TransactionPaging, page_error. rewrite (proj2 (Z.leb_gt (Z.of_nat size) 0)), (proj2 (Z.ltb_ge 100 _)), (proj2 (Z.leb_gt (Z.of_nat p) 0)) by lia.
  cbn [orb]. unfold time_keys, items_from.
  assert (Hcount : length (map fst (iterate "key-transaction-time-" "key-transaction-time-" t)) = length hs).
  { rewrite <- Hlen. symmetry. by apply Permutation_length. }
  rewrite (TM_step _ _ t t (map fst (iterate "key-transaction-time-" "key-transaction-time-" t)) eq_refl).
  rewrite Hcount, (proj2 (Z.eqb_neq _ 0)) by lia. rewrite Hdesc.
  rewrite (TM_step (lift _) _ t t (Some (Z.of_nat k, default "" (hs !! k)))) by (unfold lift; by rewrite Hfind).
  assert (Hps : Z.of_nat size <= Z.of_nat p * Z.of_nat size) by nia.
  rewrite (i64_id (Z.of_nat p * Z.of_nat size)), (i64_id (Z.of_nat k + _)), i64_id by (unfold is_i64; lia).
  rewrite Nat2Z.id. unfold page. rewrite drop_drop.
  replace (k + (p - 1) * size)%nat with (Z.to_nat (Z.of_nat k + Z.of_nat p * Z.of_nat size - Z.of_nat size)) by nia.
  replace (length hs - k)%nat with (Z.to_nat (Z.of_nat (length hs) - Z.of_nat k)) by lia.
  unfold mbind, TM_bind. by rewrite (page_of_ok now keys hs) by (done || lia).
Qed.

(** Reading items one after the other, to the first error or leaving out what cannot be read *)
Fixpoint read_strict {A} (read : string * stored -> TM (A + ledger_error)) (items : list (string * stored)) : TM (list A + ledger_error) :=
  match items with
  | [] => mret (inl [])
  | kv :: items =>
      r ← read kv;
      match r with
      | inr e => mret (inr e)
      | inl a => l ← read_strict read items; mret match l with inl l => inl (a :: l) | inr e => inr e end
      end
  end.

Fixpoint read_lenient {A} (read : string * stored -> TM (A + ledger_error)) (items : list (string * stored)) : TM (list A) :=
  match items with
  | [] => mret []
  | kv :: items => r ← read kv; l ← read_lenient read items; mret match r with inl a => a :: l | inr _ => l end
  end.

Lemma strict_page_ok {A} (read : string * stored -> TM (A + ledger_error)) first size items : is_i64 (first + size) -> 0 < size ->
  forall count t, strict_page read count first size items t =
    read_strict read (take (Z.to_nat (first + size - 1 - Z.max count (first - 1))) (drop (Z.to_nat (first - 1 - count)) items)) t.
Proof.
  intros Hi Hs. induction items as [|kv items IH]; intros count t; [by rewrite drop_nil, take_nil|].
  cbn [strict_page]. rewrite !(i64_id (first + size)) by done.
  destruct (Z.leb_spec first (count + 1)), (Z.ltb_spec (count + 1) (first + size)); cbn [andb].
  - replace (Z.to_nat (first - 1 - count)) with 0%nat by lia.
    replace (Z.to_nat (first + size - 1 - Z.max count (first - 1))) with (S (Z.to_nat (first + size - 1 - Z.max (count + 1) (first - 1)))) by lia.
    cbn [drop take read_strict]. apply TM_bind_ext. intros [a|e] t'; [|done].
    rewrite (proj2 (Z.ltb_ge (first + size) (count + 1))) by lia. unfold mbind, TM_bind. rewrite IH.
    by replace (Z.to_nat (first - 1 - (count + 1))) with 0%nat by lia.
  - replace (Z.to_nat (first + size - 1 - Z.max count (first - 1))) with 0%nat by lia.
    destruct (first + size <? count + 1); [done|]. rewrite IH.
    by replace (Z.to_nat (first + size - 1 - Z.max (count + 1) (first - 1))) with 0%nat by lia.
  - rewrite (proj2 (Z.ltb_ge (first + size) (count + 1))) by lia. rewrite IH.
    replace (Z.to_nat (first - 1 - count)) with (S (Z.to_nat (first - 1 - (count + 1)))) by lia.
    by replace (Z.max count (first - 1)) with (Z.max (count + 1) (first - 1)) by lia.
  - lia.
Qed.

Lemma lenient_page_ok {A} (read : string * stored -> TM (A + ledger_error)) first last items : first - 1 <= last -> forall count t,
  lenient_page read count first last items t =
    read_lenient read (take (Z.to_nat (last - Z.max count (first - 1))) (drop (Z.to_nat (first - 1 - count)) items)) t.
Proof.
  intros Hl. induction items as [|kv items IH]; intros count t; [by rewrite drop_nil, take_nil|].
  cbn [lenient_page]. destruct (Z.leb_spec first (count + 1)), (Z.leb_spec (count + 1) last); cbn [andb].
  - replace (Z.to_nat (first - 1 - count)) with 0%nat by lia.
    replace (Z.to_nat (last - Z.max count (first - 1))) with (S (Z.to_nat (last - Z.max (count + 1) (first - 1)))) by lia.
    cbn [drop take read_lenient]. apply TM_bind_ext. intros [a|e] t'; unfold mbind, TM_bind.
    + rewrite (proj2 (Z.ltb_ge last (count + 1))) by lia. rewrite IH. by replace (Z.to_nat (first - 1 - (count + 1))) with 0%nat by lia.
    + rewrite IH. replace (Z.to_nat (first - 1 - (count + 1))) with 0%nat by lia. cbn [drop].
      by destruct (read_lenient _ _ t') as [[]| |].
  - replace (Z.to_nat (last - Z.max count (first - 1))) with 0%nat by lia.
    destruct (last <? count + 1); [done|]. rewrite IH. by replace (Z.to_nat (last - Z.max (count + 1) (first - 1))) with 0%nat by lia.
  - rewrite (proj2 (Z.ltb_ge last (count + 1))) by lia. rewrite IH.
    replace (Z.to_nat (first - 1 - count)) with (S (Z.to_nat (first - 1 - (count + 1)))) by lia.
    by replace (Z.max count (first - 1)) with (Z.max (count + 1) (first - 1)) by lia.
  - lia.
Qed.

(** The numbers of a page that is asked for *)
Record numbers_ok (p size : nat) : Prop := {
  numbers_size : (0 < size <= 100)%nat;
  numbers_page : (0 < p)%nat;
  numbers_bound : Z.of_nat p * Z.of_nat size < 2 ^ 63 - 1
}.

Lemma page_numbers p size : numbers_ok p size -> page_error (Z.of_nat p) (Z.of_nat size) = None /\
  first_item (Z.of_nat p) (Z.of_nat size) = Z.of_nat ((p - 1) * size) + 1 /\
  is_i64 (first_item (Z.of_nat p) (Z.of_nat size) + Z.of_nat size).
Proof.
  intros [Hs Hp Hb]. assert (Hps : Z.of_nat size <= Z.of_nat p * Z.of_nat size) by nia. split.
  - unfold page_error. by rewrite (proj2 (Z.leb_gt (Z.of_nat size) 0)), (proj2 (Z.ltb_ge 100 _)), (proj2 (Z.leb_gt (Z.of_nat p) 0)) by lia.
  - assert (Hf : first_item (Z.of_nat p) (Z.of_nat size) = Z.of_nat ((p - 1) * size) + 1).
    { unfold first_item. rewrite (i64_id (Z.of_nat p * Z.of_nat size)), i64_id by (unfold is_i64; lia). nia. }
    split; [exact Hf|]. rewrite Hf. unfold is_i64. nia.
Qed.

Lemma skipped o : Z.to_nat (Z.of_nat o + 1 - 1 - 0) = o.
Proof. lia. Qed.
Lemma taken o size : Z.to_nat (Z.of_nat o + 1 + Z.of_nat size - 1 - Z.max 0 (Z.of_nat o + 1 - 1)) = size.
Proof. lia. Qed.

(** The listings by address, of accounts and of gossips give page by page what an iteration over their keys finds, from
    the key of the record that is asked for on, if any: transactions to the first that cannot be read, the latest of a page
    first, accounts and gossips without those that cannot. *)
Theorem listings_are_paged (now : Z) (p size : nat) (Hn : numbers_ok p size) (t : Txn) :
  (forall prefix key_of start from t',
     (start = ""%string /\ from = prefix /\ t' = t) \/
     (start <> ""%string /\ exists tx, ToTransactionByKey now (Transaction.Key_of start) t = Ret (t', inl tx) /\ from = key_of tx) ->
     by_address now prefix key_of start (Z.of_nat p) (Z.of_nat size) t =
       (r ← read_strict (read_indexed now) (page p size (iterate from prefix t'));
        mret match r with inl txs => inl (SortByTime txs false) | inr e => inr e end) t') /\
  (forall start from t',
     (start = ""%string /\ from = "table-account-"%string /\ t' = t) \/
     (start <> ""%string /\ exists a, ToAccountByAddress start t = Ret (t', inl a) /\ from = Account.Key a) ->
     AccountPaging start (Z.of_nat p) (Z.of_nat size) t =
       (l ← read_lenient (read_doc Account.ToAccountFromJson) (page p size (iterate from "table-account-" t')); mret (inl l)) t') /\
  (size = 10%nat -> GossipPaging now (Z.of_nat p) t =
     (l ← read_lenient (read_doc (Gossip.ToGossipFromJson now)) (page p size (iterate "table-gossip-" "table-gossip-" t)); mret (inl l)) t).
Proof.
  destruct (page_numbers p size Hn) as (He & Hf & Hi). destruct Hn as [Hs Hp Hb]. split; [|split].
  - intros prefix key_of start from t' Hfrom. unfold by_address. rewrite He.
    rewrite (TM_step _ _ t t' (inl from)).
    2:{ destruct Hfrom as [(-> & -> & ->)|(Hne & tx & Hread & ->)]; [done|].
        rewrite (proj2 (String.eqb_neq start "")) by done. by rewrite (TM_step _ _ _ _ _ Hread). }
    rewrite (TM_step _ _ t' t' (iterate from prefix t') eq_refl). unfold mbind, TM_bind.
    rewrite strict_page_ok by (done || lia). rewrite Hf. unfold page.
    by rewrite skipped, taken.
  - intros start from t' Hfrom. unfold AccountPaging. rewrite He.
    rewrite (TM_step _ _ t t' (inl from)).
    2:{ destruct Hfrom as [(-> & -> & ->)|(Hne & a & Hread & ->)]; [done|].
        rewrite (proj2 (String.eqb_neq start "")) by done. by rewrite (TM_step _ _ _ _ _ Hread). }
    rewrite (TM_step _ _ t' t' (iterate from "table-account-" t') eq_refl). unfold mbind, TM_bind.
    rewrite i64_id by done. rewrite lenient_page_ok by lia. rewrite Hf. unfold page.
    by rewrite skipped, taken.
  - intros ->. unfold GossipPaging. rewrite (proj2 (Z.leb_gt _ 0)) by lia.
    rewrite (TM_step _ _ t t (iterate "table-gossip-" "table-gossip-" t) eq_refl). change (Z.of_nat 10) with 10 in *. unfold mbind, TM_bind.
    rewrite i64_id by (unfold is_i64 in *; lia). rewrite lenient_page_ok by lia. rewrite Hf. unfold page.
    rewrite skipped. pose proof (taken ((p - 1) * 10) 10) as Ht. by replace (Z.of_nat ((p - 1) * 10) + 1 + 9 - _) with
      (Z.of_nat ((p - 1) * 10) + 1 + Z.of_nat 10 - 1 - Z.max 0 (Z.of_nat ((p - 1) * 10) + 1 - 1)) by lia; rewrite Ht.
Qed.
End Pages.

(** ** Asking changes nothing *)
Section Asking.
Context {B : Badger} {C : GoCache} {E : NodeEnv} {V : DVMService B} {CR : Signatures} {GS : GoSort} {D : DisgoverEnv}.

(** A gossip but for the receipt of its transaction *)
Definition without_receipt (g : Gossip.t) : Gossip.t :=
  Gossip.set_Transaction g (Transaction.set_Receipt g.(Gossip.Transaction) Receipt.empty).

(** The clock aside, only a receipt may be put into a transaction that waits. *)
Record kept_node (n n' : node) : Prop := {
  kept_database : n'.(database) = n.(database);
  kept_cache : n'.(cache) = n.(cache);
  kept_receipts : n'.(receipts) = n.(receipts);
  kept_gossips : without_receipt <$> n'.(gossips) = without_receipt <$> n.(gossips);
  kept_next : n'.(next) = n.(next);
  kept_channels : n'.(gossipChan) = n.(gossipChan) /\ n'.(timoutChan) = n.(timoutChan);
  kept_queue : n'.(gossipQueue) = n.(gossipQueue);
  kept_timers : n'.(timers) = n.(timers)
}.

Definition kept (s s' : service) : Prop := kept_node s.(common) s'.(common) /\ s' = set_common s s'.(common).

Definition quiet_node {A} (m : NM A) : Prop := forall n n' a, m n = Some (n', a) -> kept_node n n'.
Definition quiet {A} (m : DM A) : Prop := forall s s' a, m s = Some (s', a) -> kept s s'.

#[local] Instance kept_node_refl : Reflexive kept_node.
Proof. by intros n; split. Qed.
#[local] Instance kept_node_trans : Transitive kept_node.
Proof. intros n1 n2 n3 [] []. split; try congruence. destruct kept_channels0, kept_channels1. split; congruence. Qed.

Lemma quiet_node_bind {A A'} (m : NM A) (k : A -> NM A') : quiet_node m -> (forall a, quiet_node (k a)) -> quiet_node (m ≫= k).
Proof.
  intros Hm Hk n n' a H. unfold mbind, NM_bind in H. destruct (m n) as [[n1 a1]|] eqn:E1; [|done]. cbn in H.
  etrans; [by eapply Hm|by eapply Hk].
Qed.
Lemma quiet_bind {A A'} (m : DM A) (k : A -> DM A') : quiet m -> (forall a, quiet (k a)) -> quiet (m ≫= k).
Proof.
  intros Hm Hk s s' a H. unfold mbind, DM_bind in H. destruct (m s) as [[s1 a1]|] eqn:E1; [|done]. cbn in H.
  destruct (Hm _ _ _ E1) as [H1 E2], (Hk _ _ _ _ H) as [H3 E4]. split; [by etrans|].
  rewrite E4, E2. by destruct s.
Qed.
Lemma quiet_ret {A} (a : A) : quiet (mret a).
Proof. intros s s' a' [= <- <-]. split; [done|by destruct s]. Qed.
Lemma quiet_look {A} (f : service -> A) : quiet (look f).
Proof. intros s s' a' [= <- <-]. split; [done|by destruct s]. Qed.
Lemma quiet_or_panics {A} (m : option A) : quiet (or_panics m).
Proof. intros s s' a. unfold or_panics. destruct m; [|done]. intros [= <- <-]. split; [done|by destruct s]. Qed.
Lemma quiet_on_node {A} (m : NM A) : quiet_node m -> quiet (on_node m).
Proof.
  intros Hm s s' a H. unfold on_node in H. destruct (m (common s)) as [[n a']|] eqn:E1; [|done]. injection H as <- <-.
  split; [by eapply Hm|done].
Qed.

Lemma quiet_node_ret {A} (a : A) : quiet_node (mret a).
Proof. by intros n n' a' [= <- <-]. Qed.
Lemma quiet_gets {A} (f : node -> A) : quiet_node (gets f).
Proof. by intros n n' a' [= <- <-]. Qed.
Lemma quiet_panic {A} : quiet_node (panic (A := A)).
Proof. done. Qed.
Lemma quiet_of_opt {A} (m : option A) : quiet_node (of_opt m).
Proof. intros n n' a. unfold of_opt. destruct m; [|done]. by intros [= <- <-]. Qed.
Lemma quiet_on_txn {A} (m : TM A) t : quiet_node (on_txn m t).
Proof. unfold on_txn. destruct (m t); [apply quiet_node_ret|apply quiet_panic..]. Qed.
Lemma quiet_ticks k : quiet_node (set_ticks k).
Proof. intros n n' a [= <- <-]. by split. Qed.

Create HintDb quiet.
#[local] Hint Resolve quiet_node_ret quiet_gets quiet_panic quiet_of_opt quiet_on_txn quiet_ticks quiet_ret quiet_look quiet_or_panics : quiet.
Ltac quietly := repeat first [apply quiet_bind; [|intros] | apply quiet_on_node | solve [eauto with quiet] | case_match].

Lemma quiet_time : quiet_node time_Now.
Proof. unfold time_Now. apply quiet_node_bind; [auto with quiet|]. intros k. apply quiet_node_bind; auto with quiet. Qed.
#[local] Hint Resolve quiet_time : quiet.

Lemma quiet_cache_get k : quiet_node (cache_get k).
Proof. unfold cache_get. repeat (apply quiet_node_bind; [auto with quiet|intros]). auto with quiet. Qed.
#[local] Hint Resolve quiet_cache_get : quiet.

Lemma quiet_receipt l : quiet_node (receipt_at l).
Proof. unfold receipt_at. apply quiet_node_bind; auto with quiet. Qed.
Lemma quiet_gossip l : quiet_node (gossip_at l).
Proof. unfold gossip_at. apply quiet_node_bind; auto with quiet. Qed.
#[local] Hint Resolve quiet_receipt quiet_gossip : quiet.

Lemma quiet_nodes_cached : quiet_node ToNodesByTypeFromCache.
Proof. unfold ToNodesByTypeFromCache. repeat (apply quiet_node_bind; [auto with quiet|intros]). auto with quiet. Qed.
Lemma quiet_receipt_cached hash : quiet_node (ToReceiptFromCache hash).
Proof. unfold ToReceiptFromCache. apply quiet_node_bind; [auto with quiet|]. intros [[]|]; auto with quiet. Qed.
#[local] Hint Resolve quiet_nodes_cached quiet_receipt_cached : quiet.

Lemma quiet_transaction_cached hash : quiet_node (ToTransactionFromCache hash).
Proof.
  unfold ToTransactionFromCache. apply quiet_node_bind; [auto with quiet|]. intros [[]|]; auto with quiet.
  intros n n' a H. unfold gossip_at, mbind, NM_bind, gets, of_opt in H. cbn in H.
  destruct (gossips n !! l) as [g|] eqn:Hg; [|done]. cbn in H.
  destruct (ToReceiptFromCache _ n) as [[n1 [lr|]]|] eqn:Hr; [| |done]; cbn in H.
  2:{ injection H as <- <-. by apply quiet_receipt_cached in Hr. }
  pose proof (quiet_receipt_cached _ _ _ _ Hr) as Hk. unfold receipt_at, mbind, NM_bind, gets, of_opt in H. cbn in H.
  destruct (receipts n1 !! lr) as [r|]; [|done]. cbn in H. injection H as <- <-. destruct Hk. split; try done. cbn.
  rewrite fmap_insert, <- kept_gossips0. apply map_eq. intros i. destruct (decide (i = l)) as [->|Hi].
  - rewrite lookup_insert_eq, kept_gossips0, lookup_fmap, Hg. cbn. f_equal.
  - by rewrite lookup_insert_ne.
Qed.
#[local] Hint Resolve quiet_transaction_cached : quiet.

Lemma quiet_reading {A} (m : Z -> TM A) : quiet (reading m).
Proof.
  unfold reading. repeat (apply quiet_bind; [apply quiet_on_node; auto with quiet|intros]).
  destruct a1. apply quiet_ret.
Qed.
#[local] Hint Resolve quiet_reading : quiet.

(** What a client can ask, and of delegates only *)
Inductive asks : bool -> DM Response -> Prop :=
  | asks_delegates : asks false GetDelegateNodes
  | asks_queue : asks false DumpQueue
  | asks_unsupported : asks false ToBeSupported
  | asks_receipt hash : asks true (GetReceipt hash)
  | asks_account address : asks true (GetAccount address)
  | asks_transaction hash : asks true (GetTransaction hash)
  | asks_transactions page size start : asks true (GetTransactions page size start)
  | asks_from address page size start : asks true (GetTransactionsByFromAddress address page size start)
  | asks_to address page size start : asks true (GetTransactionsByToAddress address page size start)
  | asks_accounts page size start : asks true (GetAccounts page size start)
  | asks_gossips page : asks true (GetGossips page)
  | asks_gossip hash : asks true (GetGossip hash).

Lemma quiet_if_delegate m : quiet m -> quiet (if_delegate m).
Proof. intros Hm. unfold if_delegate. apply quiet_bind; [auto with quiet|]. intros n. destruct (String.eqb _ _); [done|apply quiet_ret]. Qed.

Lemma quiet_with_numbers page size m : (forall p z, quiet (m p z)) -> quiet (with_numbers page size m).
Proof. intros Hm. unfold with_numbers. destruct (Atoi page), (Atoi size); first [apply Hm|apply quiet_ret]. Qed.

Lemma asking_is_quiet b m : asks b m -> quiet m.
Proof.
  intros Hm. destruct Hm; unfold GetDelegateNodes, DumpQueue, ToBeSupported, GetReceipt, GetAccount, GetTransaction, GetTransactions,
    GetTransactionsByFromAddress, GetTransactionsByToAddress, transactions_of, GetAccounts, GetGossips, GetGossip;
    try (apply quiet_with_numbers; intros); try destruct (Atoi _); try apply quiet_if_delegate; quietly.
Qed.

(** What is not for others *)
Definition no_answer (r : Response) : Prop := r.(Data) = DNothing /\ (r.(Status) = StatusNotDelegate \/ r.(Status) = StatusInternalError).

Lemma if_delegate_refuses m s s' r : (ThisNode s).(Node.Type_) <> TypeDelegate -> if_delegate m s = Some (s', r) -> no_answer r.
Proof.
  intros Ht. unfold if_delegate, mbind, DM_bind, look. cbn. rewrite (proj2 (String.eqb_neq _ _) Ht). intros [= <- <-]. split; [done|by left].
Qed.

Lemma with_numbers_refuses page size m s s' r : (forall p z s' r, m p z s = Some (s', r) -> no_answer r) ->
  with_numbers page size m s = Some (s', r) -> no_answer r.
Proof.
  intros Hm. unfold with_numbers. destruct (Atoi page), (Atoi size); [apply Hm|..]; (intros [= <- <-]; split; [done|by right]).
Qed.

(** C29: no question of a client changes the node, its files or what it is, but for a receipt that is put into a
    transaction that waits, and what is for delegates to answer no other node answers with any data. *)
Theorem asking_changes_nothing (delegates_only : bool) (m : DM Response) (s s' : service) (r : Response)
    (Hm : asks delegates_only m) (Hr : m s = Some (s', r)) :
  kept s s' /\ (delegates_only = true -> (ThisNode s).(Node.Type_) <> TypeDelegate -> no_answer r).
Proof.
  split; [exact (asking_is_quiet _ _ Hm _ _ _ Hr)|]. intros -> Ht.
  inversion Hm; subst m; revert Hr; unfold GetReceipt, GetAccount, GetTransaction, GetTransactions, GetTransactionsByFromAddress,
    GetTransactionsByToAddress, transactions_of, GetAccounts, GetGossips, GetGossip;
    first [ by apply if_delegate_refuses
          | apply with_numbers_refuses; intros; by eapply if_delegate_refuses
          | destruct (Atoi _); [by apply if_delegate_refuses | by intros [= <- <-]; split; [|right]] ].
Qed.
End Asking.

(** ** Three transactions *)
Section Witnesses.

Definition three_keys : map_db := list_to_map (map (fun x => ("key-transaction-time-" +:+ x, Text ("table-transaction-" +:+ x))) ["5-aa"; "6-bb"; "7-cc"]).
Definition three : @Txn map_Badger := NewTransaction (Badger := map_Badger) three_keys.

Example numbers_read : map Atoi ["12"; "-3"; "+4"; ""; "1x"; "9223372036854775807"; "9223372036854775808"] =
  [Some 12; Some (-3); Some 4; None; None; Some (2 ^ 63 - 1); None].
Proof. reflexivity. Qed.

Definition three_sorted : list string := map (fun x => "key-transaction-time-" +:+ x) ["7-cc"; "6-bb"; "5-aa"].

Lemma three_iterated : map fst (iterate (B := map_Badger) "key-transaction-time-" "key-transaction-time-" three) = rev three_sorted.
Proof. vm_compute. reflexivity. Qed.

(** From the second on there are two, but only one of them is on the page. *)
Lemma transactions_are_paged_witness :
  TransactionPaging (B := map_Badger) 0 "bb" 1 2 three =
    (txs ← read_all 0 ["bb"]; mret (inl (txs, {| Count := 2; PageStart := "bb" |}))) three.
Proof.
  refine (proj1 (transactions_are_paged (B := map_Badger) 0 "bb" 1 2 three three_sorted ["cc"; "bb"; "aa"] 1 _ _ eq_refl _ _ _ _)); try lia.
  - rewrite three_iterated. apply Permutation_rev.
  - repeat constructor.
  - right. split; [done|]. split; [done|]. intros [|j] Hj; [done|lia].
Defined.

(** A page number whose product with the size wraps around ends in an index below zero. *)
Example large_pages_panic : TransactionPaging (B := map_Badger) 0 "" (2 ^ 63 - 1) 2 three = Panic.
Proof. vm_compute. reflexivity. Qed.

Lemma listings_are_paged_witness :
  GossipPaging (B := map_Badger) 0 (Z.of_nat 1) three =
    (l ← read_lenient (read_doc (Gossip.ToGossipFromJson 0)) (page 1 10 (iterate "table-gossip-" "table-gossip-" three)); mret (inl l)) three /\
  AccountPaging (B := map_Badger) "" (Z.of_nat 1) (Z.of_nat 10) three =
    (l ← read_lenient (read_doc Account.ToAccountFromJson) (page 1 10 (iterate "table-account-" "table-account-" three)); mret (inl l)) three.
Proof.
  assert (Hn : numbers_ok 1 10) by (split; lia).
  destruct (listings_are_paged (B := map_Badger) 0 1 10 Hn three) as (_ & Ha & Hg). split; [exact (Hg eq_refl)|].
  exact (Ha ""%string "table-account-"%string three (or_introl (conj eq_refl (conj eq_refl eq_refl)))).
Defined.

Definition asked : service * Response :=
  match GetAccount alice (a_service TypeNode) with Some r => r | None => (a_service TypeNode, NewResponse) end.
Lemma account_asked : GetAccount alice (a_service TypeNode) = Some (asked.1, asked.2).
Proof. vm_cast_no_check (eq_refl (Some (asked.1, asked.2))). Qed.

Lemma asking_changes_nothing_witness : kept (a_service TypeNode) asked.1 /\ no_answer asked.2.
Proof.
  destruct (asking_changes_nothing true (GetAccount alice) (a_service TypeNode) asked.1 asked.2 (asks_account alice) account_asked) as [H1 H2].
  split; [exact H1|]. apply H2; [done|]. by vm_compute.
Defined.
End Witnesses.
