(* ===== verification/Dvm.v ===== *)
(** * The service around the machine

    dvm/: dvm_api.go, dvm_helpers.go and dvm_result.go, the whole helper of
    vmstatehelperimplemtations/implementation.go, the batches of badgerwrapper and
    [AsMessage] of ethereum/types/transaction.go: how a transaction becomes a message,
    what is recorded of its run, and what the ledger is told.

    The Go values that the parameters of a call are by then are an argument, [args]; the
    transaction keeps the JSON they are written as.  [text] is the text of a document,
    [parse] the document of a text.  Debug output, the tracer and the demo are left out. *)
From Stdlib Require Import ZArith Lia.
From S2P Require Import Ledger Prelude Keccak.
Close Scope lanes_scope.
From S2P Require Import Word Hex Json Config OpCodes Analysis Machine Gas Calls Instructions.
From S2P Require Import Rlp RlpStream RlpSpec RlpProperties JumpTable Precompiles Interpreter StateTransition.
From S2P Require Import StateData Journal StateInstance StateLawful Receipts Abi AbiMethods.
From S2P Require Import StateSpec Rollback StateRevert StateCommit Invariant Execution Evm PrecompileSafety Sample StateProperties.
Import Big Op.
Open Scope Z_scope.

(** ** implementation.go: the helper with what it records *)
Definition GasLimit : Z := 1000000000000.
Definition DefaultGasLimit : Z := 1000000000000.
Definition DefaultGas : Z := 1000000000000.
Definition DefaultGasPrice : Z := 0.
Definition DefaultValue : Z := 0.
Definition DefaultDivvy : Z := 0.
(** "receipts-" *)
Definition ReceiptsPrefix : list Z := [114; 101; 99; 101; 105; 112; 116; 115; 45].

Section Errors.
Context {DBI : Database}.
Inductive dvm_error :=
  | errState (e : error) | errTrie (e : db_error) | errWrite (e : error) | errText
  | errAbi (e : abi_error) | errTransition (e : tx_error).
End Errors.

Definition tx_hash (tx : Transaction.t) : HashBytes := GetHashBytes (bytes_of tx.(Transaction.Hash)).
Definition hash_bytes (h : HashBytes) : list Z := be_bytes HashLength h.
Definition address_of (s : string) : option AddressBytes := GetAddressBytes (bytes_of s).

Module StateHelper.
Section StateHelper.
Context {DBI : Database} {CD : Codec} {AC : Accounts} {CR : Crypto} {GR : GoRange} {DK : Disk}
  (text : json -> option (list Z)).

(** The [db] of the Go record is the disk, and [base] are the fields the machine reaches. *)
Record t := {
  base : Helper.VMStateHelper; TxIndex : Z; Transactions : list Transaction.t;
  Receipts : list EthReceipt.t; AllLogs : list TxLog; TotalUsedGas : Z; GP : Z
}.

Definition EthStateDB (h : t) : state := Helper.EthStateDB h.(base).
Definition SmartContractAddress (h : t) : AddressBytes := Helper.SmartContractAddress h.(base).
Definition HashOfTrieRootNode (h : t) : HashBytes := Helper.HashOfTrieRootNode h.(base).

Definition with_base (h : t) (b : Helper.VMStateHelper) : t :=
  {| base := b; TxIndex := h.(TxIndex); Transactions := h.(Transactions); Receipts := h.(Receipts);
     AllLogs := h.(AllLogs); TotalUsedGas := h.(TotalUsedGas); GP := h.(GP) |}.
Definition with_state (h : t) (s : state) : t :=
  with_base h {| Helper.EthStateDB := s; Helper.SmartContractAddress := SmartContractAddress h;
                 Helper.HashOfTrieRootNode := HashOfTrieRootNode h |}.
Definition with_contract (h : t) (a : AddressBytes) : t :=
  with_base h {| Helper.EthStateDB := EthStateDB h; Helper.SmartContractAddress := a;
                 Helper.HashOfTrieRootNode := HashOfTrieRootNode h |}.
Definition with_root (h : t) (r : HashBytes) : t :=
  with_base h {| Helper.EthStateDB := EthStateDB h; Helper.SmartContractAddress := SmartContractAddress h;
                 Helper.HashOfTrieRootNode := r |}.
Definition with_gp (h : t) (p : Z) : t :=
  {| base := h.(base); TxIndex := h.(TxIndex); Transactions := h.(Transactions); Receipts := h.(Receipts);
     AllLogs := h.(AllLogs); TotalUsedGas := h.(TotalUsedGas); GP := p |}.

(** A pool that starts empty takes the limit. *)
Definition NewVMStateHelper (d : disk) (a : AddressBytes) : option (t + error) :=
  gp ← GasPool.AddGas 0 GasLimit;
  Some match Helper.NewVMStateHelper d a with
       | inl b => inl {| base := b; TxIndex := 0; Transactions := []; Receipts := []; AllLogs := [];
                         TotalUsedGas := 0; GP := gp |}
       | inr e => inr e
       end.

(** The hash of the last transaction, of none an empty text *)
Definition head_hash (h : t) : HashBytes := tx_hash (default Transaction.empty (last h.(Transactions))).

Definition writeHead (h : t) (d : disk) : disk * option error := Put d Helper.headTxKey (hash_bytes (head_hash h)).

Fixpoint transaction_writes (b : MemBatch.t) (l : list Transaction.t) : option MemBatch.t :=
  match l with
  | [] => Some b
  | tx :: l =>
      match text (Transaction.MarshalJSON tx) with
      | None => None
      | Some data => transaction_writes (MemBatch.Put b (hash_bytes (tx_hash tx)) data) l
      end
  end.

Definition writeTransactions (h : t) (d : disk) : disk * option dvm_error :=
  match transaction_writes MemBatch.empty h.(Transactions) with
  | None => (d, Some errText)
  | Some b => (MemBatch.Write b d, None)
  end.

Definition receipt_key (hash : list Z) : list Z := ReceiptsPrefix ++ hash.

(** A receipt that has no encoding is an error; [None] is a panic. *)
Fixpoint receipt_writes (b : MemBatch.t) (l : list EthReceipt.t) : option (option MemBatch.t) :=
  match l with
  | [] => Some (Some b)
  | r :: l =>
      match EthReceipt.EncodeRLP r with
      | Ret data => receipt_writes (MemBatch.Put b (receipt_key (hash_bytes r.(EthReceipt.TxHash))) data) l
      | Err _ => Some None
      | Panic => None
      end
  end.

Definition writeReceipts (h : t) (d : disk) : option (disk * option dvm_error) :=
  b ← receipt_writes MemBatch.empty h.(Receipts);
  Some match b with None => (d, Some errText) | Some b => (MemBatch.Write b d, None) end.

(** The part of [Commit] after the trie; the error of the write of the root is dropped. *)
Definition write_records (h : t) (d : disk) : option (disk * option dvm_error) :=
  let '(d, _) := Put d (Helper.state_key (SmartContractAddress h)) (hash_bytes (HashOfTrieRootNode h)) in
  match writeHead h d with
  | (d, Some e) => Some (d, Some (errWrite e))
  | (d, None) =>
      match writeTransactions h d with
      | (d, Some e) => Some (d, Some e)
      | (d, None) => writeReceipts h d
      end
  end.

(** [None] is a panic. *)
Definition Commit (h : t) (d : disk) : option (disk * t * (HashBytes + dvm_error)) :=
  '(s, (root, err)) ← SDB.Commit false (EthStateDB h);
  let h := with_root (with_state h s) root in
  match err with
  | Some e => Some (d, h, inr (errTrie e))
  | None =>
      match TrieDBCommit s.(db) root d with
      | (d, Some e) => Some (d, h, inr (errWrite e))
      | (d, None) =>
          '(d, err) ← write_records h d;
          Some (d, h, match err with Some e => inr e | None => inl root end)
      end
  end.
End StateHelper.
End StateHelper.

(** ** ethereum/types/transaction.go *)

(** [None] is a panic: an address that is too short. *)
Definition AsMessage (tx : Transaction.t) (gasLimit : Z) : option Message.t :=
  let message from to :=
    {| Message.From := from; Message.To := to; Message.GasPrice := 0; Message.Gas := gasLimit;
       Message.Value := tx.(Transaction.Value); Message.Nonce := 1; Message.CheckNonce := false;
       Message.Data := FromHex (bytes_of tx.(Transaction.Code)) |} in
  if String.eqb tx.(Transaction.To) ""
  then from ← address_of tx.(Transaction.From); Some (message from None)
  else to ← address_of tx.(Transaction.To); from ← address_of tx.(Transaction.From); Some (message from (Some to)).

(** ** dvm_result.go *)
Section Service.
Context {DBI : Database} {CD : Codec} {AC : Accounts} {CR : Crypto} {GR : GoRange} {DK : Disk} {PL : PrecompileLib}
  (clock : nat -> Z) (abort : nat -> bool) (text : json -> option (list Z)) (parse : list Z -> option json).

Record DVMResult := {
  From : AddressBytes; To : AddressBytes; ABI_ : string; StorageState : option StateHelper.t;
  ContractAddress : AddressBytes; ContractMethod : string; ContractMethodExecError : option dvm_error;
  ContractMethodExecResult : list Z; Divvy : Z; Status : Z; HertzCost : Z; CumulativeHertzUsed : Z;
  Bloom : list Z; Logs : list TxLog
}.

(** ** dvm_helpers.go *)

(** The environment of the machine: the beneficiary is the sender, every block has the
    hash of the transaction, and there is no difficulty. *)
Definition tx_env (tx : Transaction.t) (origin : AddressBytes) (gasPrice : Z) (from : AddressBytes) : Env := {|
  chainConfig := MainnetChainConfig; Machine.Origin := origin; Machine.GasPrice := Some gasPrice; Coinbase := from;
  Machine.GasLimit := GasLimit; BlockNumber := MainnetChainConfig.(ByzantiumBlock); Difficulty := None;
  GetHash := fun _ => tx_hash tx; NoRecursion := false; EnablePreimageRecording := false;
  Machine.Now := clock; AbortAt := abort
|}.

(** A new machine on the state, and the message applied to it *)
Definition apply_message (fuel : nat) (EN : Env) (s : state) (d : disk) (msg : Message.t) (gp : Z)
    : outcome nofuel (StateTransition (db := state) (disk := disk) * result) :=
  ApplyMessage (run fuel (NewEVMInterpreter newConstantinopleInstructionSet)) (NewEVM s (Some d)) msg gp.

Definition disk_of (d : disk) (st : StateTransition (db := state) (disk := disk)) : disk :=
  default d st.(st_evm).(evm_Helper).

(** The pool is the helper's, and the machine works on the helper's state. *)
Definition ran (h : StateHelper.t) (st : StateTransition (db := state) (disk := disk)) : StateHelper.t :=
  StateHelper.with_gp (StateHelper.with_state h st.(st_evm).(evm_StateDB)) st.(gp).

(** What the helper keeps of a message that was applied; [created] is the contract that
    the receipt names, if it names one.  [None] is a panic. *)
Definition record_receipt (h : StateHelper.t) (tx : Transaction.t) (created : option AddressBytes) (gas : Z)
    (failed : bool) : option StateHelper.t :=
  let total := h.(StateHelper.TotalUsedGas) + gas in
  '(s, root) ← SDB.IntermediateRoot true (StateHelper.EthStateDB h);
  let r := EthReceipt.NewReceipt (hash_bytes root) failed (u64 total) in
  '(_, logs) ← SDB.GetLogs (tx_hash tx) s;
  let r bloom :=
    {| EthReceipt.PostState := r.(EthReceipt.PostState); EthReceipt.Status := r.(EthReceipt.Status);
       EthReceipt.CumulativeGasUsed := r.(EthReceipt.CumulativeGasUsed); EthReceipt.Bloom := bloom;
       EthReceipt.Logs := logs; EthReceipt.TxHash := tx_hash tx;
       EthReceipt.ContractAddress := default r.(EthReceipt.ContractAddress) created; EthReceipt.GasUsed := gas |} in
  bloom ← EthReceipt.CreateBloom [r (replicate 256 0)];
  let h := StateHelper.with_contract (StateHelper.with_state h s)
             (default (StateHelper.SmartContractAddress h) created) in
  Some {| StateHelper.base := h.(StateHelper.base); StateHelper.TxIndex := h.(StateHelper.TxIndex) + 1;
          StateHelper.Transactions := h.(StateHelper.Transactions) ++ [tx];
          StateHelper.Receipts := h.(StateHelper.Receipts) ++ [r bloom];
          StateHelper.AllLogs := h.(StateHelper.AllLogs) ++ logs;
          StateHelper.TotalUsedGas := total; StateHelper.GP := h.(StateHelper.GP) |}.

Definition applyTransaction (fuel : nat) (d : disk) (tx : Transaction.t) (h : StateHelper.t)
    : outcome nofuel (disk * StateHelper.t * option tx_error) :=
  from ← or_panic (address_of tx.(Transaction.From));
  '(s, _) ← or_panic (SDB.Prepare (tx_hash tx) (tx_hash tx) 0 (StateHelper.EthStateDB h));
  msg ← or_panic (AsMessage tx DefaultGasLimit);
  '(st, res) ← apply_message fuel (tx_env tx from 0 from) s d msg h.(StateHelper.GP);
  let h := ran h st in
  match res.(err) with
  | Some e => Ret (disk_of d st, h, Some e)
  | None =>
      h ← or_panic (record_receipt h tx (match msg.(Message.To) with None => Some res.(contractAddress) | Some _ => None end)
                                   res.(usedGas) res.(failed));
      Ret (disk_of d st, h, None)
  end.

Definition call (fuel : nat) (d : disk) (tx : Transaction.t) (callMsg : Message.t) (h : StateHelper.t)
    : outcome nofuel (disk * StateHelper.t * (list Z + tx_error)) :=
  from ← or_panic (address_of tx.(Transaction.From));
  '(st, res) ← apply_message fuel (tx_env tx callMsg.(Message.From) callMsg.(Message.GasPrice) from)
                 (StateHelper.EthStateDB h) d callMsg h.(StateHelper.GP);
  let h := ran h st in
  match res.(err) with
  | Some e => Ret (disk_of d st, h, inr e)
  | None =>
      to ← or_panic (address_of tx.(Transaction.To));
      h ← or_panic (record_receipt h tx (Some to) res.(usedGas) res.(failed));
      Ret (disk_of d st, h, inl res.(ret))
  end.

(** [None] is an error, and then there is no receipt. *)
Definition getReceipt (d : disk) (txHash : list Z) : option EthReceipt.t :=
  data ← Get d (StateHelper.receipt_key txHash); EthReceipt.DecodeRLP data.

(** ** dvm_api.go *)

(** The results that report no receipt *)
Definition no_receipt (from to : AddressBytes) (abi : string) (h : option StateHelper.t) (contract : AddressBytes)
    (method : string) (e : option dvm_error) : DVMResult :=
  {| From := from; To := to; ABI_ := abi; StorageState := h; ContractAddress := contract; ContractMethod := method;
     ContractMethodExecError := e; ContractMethodExecResult := []; Divvy := DefaultDivvy;
     Status := EthReceipt.ReceiptStatusFailed; HertzCost := 0; CumulativeHertzUsed := 0;
     Bloom := replicate 256 0; Logs := [] |}.

Definition with_receipt (r : DVMResult) (out : list Z) (contract : AddressBytes) (receipt : EthReceipt.t) : DVMResult :=
  {| From := r.(From); To := r.(To); ABI_ := r.(ABI_); StorageState := r.(StorageState); ContractAddress := contract;
     ContractMethod := r.(ContractMethod); ContractMethodExecError := r.(ContractMethodExecError);
     ContractMethodExecResult := out; Divvy := r.(Divvy); Status := receipt.(EthReceipt.Status);
     HertzCost := receipt.(EthReceipt.GasUsed); CumulativeHertzUsed := receipt.(EthReceipt.CumulativeGasUsed);
     Bloom := receipt.(EthReceipt.Bloom); Logs := receipt.(EthReceipt.Logs) |}.

(** The receipt of a transaction; using one that was not found panics. *)
Definition receipt_of (d : disk) (tx : Transaction.t) : option EthReceipt.t :=
  getReceipt d (hex_DecodeString (bytes_of tx.(Transaction.Hash))).1.

Definition DeploySmartContract (fuel : nat) (d : disk) (tx : Transaction.t)
    : outcome nofuel (disk * DVMResult * option dvm_error) :=
  to ← or_panic (address_of tx.(Transaction.To));
  helper ← or_panic (StateHelper.NewVMStateHelper d to);
  from ← or_panic (address_of tx.(Transaction.From));
  let nothing h := no_receipt from 0 "" h 0 "" None in
  match helper with
  | inr e => Ret (d, nothing None, Some (errState e))
  | inl h =>
      '(s, _) ← or_panic (SDB.SetNonce from (u64 tx.(Transaction.Time)) (StateHelper.EthStateDB h));
      '(d, h, err) ← applyTransaction fuel d tx (StateHelper.with_state h s);
      match err with
      | Some e => Ret (d, nothing (Some h), Some (errTransition e))
      | None =>
          '(d, h, root) ← or_panic (StateHelper.Commit text h d);
          match root with
          | inr e => Ret (d, nothing (Some h), Some e)
          | inl _ =>
              receipt ← or_panic (receipt_of d tx);
              let contract := receipt.(EthReceipt.ContractAddress) in
              Ret (d, with_receipt (no_receipt from contract "" (Some h) contract "" None) [] contract receipt, None)
          end
      end
  end.

(** [abi.JSON] of the hexadecimal text of an interface, of what decodes of it *)
Definition interface_of (abi : string) : outcome abi_error ABI :=
  UnmarshalJSON (parse (hex_DecodeString (bytes_of abi)).1).

(** When the commit fails, the error returned is that of the call, which there is not. *)
Definition ExecuteSmartContract (fuel : nat) (d : disk) (tx : Transaction.t) (args : list gval)
    : outcome nofuel (disk * DVMResult * option dvm_error) :=
  to ← or_panic (address_of tx.(Transaction.To));
  helper ← or_panic (StateHelper.NewVMStateHelper d to);
  from ← or_panic (address_of tx.(Transaction.From));
  let nothing h e := no_receipt from to tx.(Transaction.Abi) h to tx.(Transaction.Method) e in
  let failed d h e := Ret (d, nothing h (Some e), Some e) in
  match helper with
  | inr e => failed d None (errState e)
  | inl h =>
      match interface_of tx.(Transaction.Abi) with
      | Panic => Panic
      | Err e => failed d (Some h) (errAbi e)
      | Ret jsonABI =>
          match ABI_Pack jsonABI tx.(Transaction.Method) args with
          | Panic => Panic
          | Err e => failed d (Some h) (errAbi e)
          | Ret callData =>
              let callMsg := Message.NewMessage from (Some to) 0 DefaultValue DefaultGas DefaultGasPrice callData false in
              '(d, h, execResult) ← call fuel d tx callMsg h;
              match execResult with
              | inr e => failed d (Some h) (errTransition e)
              | inl out =>
                  '(d, h, root) ← or_panic (StateHelper.Commit text h d);
                  match root with
                  | inr e => Ret (d, nothing (Some h) None, None)
                  | inl _ =>
                      receipt ← or_panic (receipt_of d tx);
                      Ret (d, with_receipt (nothing (Some h) None) out to receipt, None)
                  end
              end
          end
      end
  end.
End Service.

(** ** Batches on a disk that takes every write *)
Section Batches.
Context {DBI : Database} {DK : Disk}.
Implicit Types (b : MemBatch.t).

(** The size of a batch is that of its values. *)
Definition size_ok b : Prop := b.(MemBatch.size) = foldr Z.add 0 (map MemBatch.value_size b.(MemBatch.writes)).

Lemma foldr_add_app (l k : list Z) : foldr Z.add 0 (l ++ k) = foldr Z.add 0 l + foldr Z.add 0 k.
Proof. induction l as [|x l IH]; cbn [app foldr]; lia. Qed.

Lemma Put_size b k v : size_ok b -> size_ok (MemBatch.Put b k v).
Proof. unfold size_ok. intros H. cbn. rewrite map_app, foldr_add_app, H. cbn. unfold MemBatch.value_size. cbn. lia. Qed.

Lemma Delete_size b k : size_ok b -> size_ok (MemBatch.Delete b k).
Proof.
  unfold size_ok, MemBatch.Delete. intros H. set (step := fun _ _ => _).
  assert (Hfold : forall l acc, acc.(MemBatch.size) = foldr Z.add 0 (map MemBatch.value_size acc.(MemBatch.writes)) +
      foldr Z.add 0 (map MemBatch.value_size l) ->
    let r := foldl step acc l in r.(MemBatch.size) = foldr Z.add 0 (map MemBatch.value_size r.(MemBatch.writes))).
  { induction l as [|kv l IH]; intros acc Hacc; cbn [foldl map foldr] in *; [lia|]. apply IH. unfold step.
    case_bool_decide; cbn [MemBatch.size MemBatch.writes]; [|lia].
    rewrite map_app, foldr_add_app. cbn [map foldr]. lia. }
  apply Hfold. cbn. lia.
Qed.

Context {DL : DiskLaws}.

Lemma put_other d k v j : j <> k -> Get (Put d k v).1 j = Get d j.
Proof. intros Hj. by destruct (disk_put d k v j) as [?|[? _]]. Qed.

Lemma Write_other b d j : (forall kv, kv ∈ b.(MemBatch.writes) -> kv.1 <> j) -> Get (MemBatch.Write b d) j = Get d j.
Proof.
  unfold MemBatch.Write. revert d. induction (MemBatch.writes b) as [|kv l IH]; intros d Hl; cbn [foldl]; [done|].
  rewrite IH by (intros; apply Hl; by right). apply put_other. intros ->. by apply (Hl kv); [left|].
Qed.

Lemma Write_same b d kv : takes_writes -> NoDup (map fst b.(MemBatch.writes)) -> kv ∈ b.(MemBatch.writes) ->
  Get (MemBatch.Write b d) kv.1 = Some kv.2.
Proof.
  unfold MemBatch.Write. intros Hput. revert d. induction (MemBatch.writes b) as [|kv' l IH]; intros d Hnd Hin; [by apply not_elem_of_nil in Hin|].
  apply NoDup_cons in Hnd as [Hn Hnd]. apply elem_of_cons in Hin as [->|Hin]; cbn [foldl]; [|by apply IH].
  rewrite <- (proj2 (Hput d kv'.1 kv'.2)).
  apply (Write_other {| MemBatch.writes := l; MemBatch.size := 0 |}). intros kv Hkv Heq. apply Hn.
  apply list_elem_of_fmap. exists kv. by split.
Qed.
End Batches.

(** ** What a commit leaves on the disk *)
Section Commit.
Context {DBI : Database} {CD : Codec} {AC : Accounts} {CR : Crypto} {GR : GoRange} {DK : Disk} {DL : DiskLaws}
  (text : json -> option (list Z)).
Implicit Types (h : StateHelper.t).

Lemma writes_of_transactions l : forall b b', StateHelper.transaction_writes text b l = Some b' -> exists ws,
  b'.(MemBatch.writes) = b.(MemBatch.writes) ++ ws /\
  Forall2 (fun tx kv => kv.1 = hash_bytes (tx_hash tx) /\ text (Transaction.MarshalJSON tx) = Some kv.2) l ws.
Proof.
  induction l as [|tx l IH]; intros b b' H; cbn [StateHelper.transaction_writes] in H.
  { injection H as <-. exists []. by rewrite app_nil_r. }
  destruct (text _) as [data|] eqn:Ht; [|done]. apply IH in H as (ws & -> & Hws).
  exists ((hash_bytes (tx_hash tx), data) :: ws). cbn. rewrite <- app_assoc. split; [done|]. by constructor.
Qed.

Lemma writes_of_receipts l : forall b b', StateHelper.receipt_writes b l = Some (Some b') -> exists ws,
  b'.(MemBatch.writes) = b.(MemBatch.writes) ++ ws /\
  Forall2 (fun r kv => kv.1 = StateHelper.receipt_key (hash_bytes r.(EthReceipt.TxHash)) /\ EthReceipt.EncodeRLP r = Ret kv.2) l ws.
Proof.
  induction l as [|r l IH]; intros b b' H; cbn [StateHelper.receipt_writes] in H.
  { injection H as <-. exists []. by rewrite app_nil_r. }
  destruct (EthReceipt.EncodeRLP r) as [data| |] eqn:Hr; [|done|done]. apply IH in H as (ws & -> & Hws).
  eexists (_ :: ws). cbn. rewrite <- app_assoc. split; [done|]. by constructor.
Qed.

(** The keys are told apart by their lengths. *)
Lemma receipt_key_length x : length (StateHelper.receipt_key (hash_bytes x)) = 41%nat.
Proof. unfold StateHelper.receipt_key, hash_bytes. by rewrite length_app, be_bytes_length. Qed.

Lemma length_ne {A} (k j : list A) : length k <> length j -> k <> j.
Proof. intros H ->. by apply H. Qed.

Lemma BytesToHash_mod x : BytesToHash (be_bytes HashLength x) = x mod 2 ^ 256.
Proof. unfold BytesToHash, array_of. by rewrite be_bytes_length, Nat.sub_diag, drop_0, be_int_be_bytes. Qed.

Lemma state_key_inj a b : Rollback.address_ok a -> Rollback.address_ok b -> Helper.state_key a = Helper.state_key b -> a = b.
Proof. intros Ha Hb H%app_inv_head. by apply hex_Encode_inj. Qed.

(** What a loop over records wrote under keys of its own *)
Lemma written_keys {A} (P : A -> list Z * list Z -> Prop) (f : A -> list Z) (l : list A) ws :
  Forall2 P l ws -> (forall a kv, P a kv -> kv.1 = f a) -> map fst ws = map f l.
Proof. intros H Hf. induction H as [|a kv l ws Hp _ IH]; [done|]. cbn. by rewrite (Hf a kv Hp), IH. Qed.

Lemma written (b : MemBatch.t) {A} (P : A -> list Z * list Z -> Prop) (f : A -> list Z) (l : list A) d a :
  takes_writes -> Forall2 P l b.(MemBatch.writes) -> (forall a kv, P a kv -> kv.1 = f a) ->
  NoDup (map f l) -> a ∈ l -> exists v, P a (f a, v) /\ Get (MemBatch.Write b d) (f a) = Some v.
Proof.
  intros Hput Hl Hf Hnd Ha. apply list_elem_of_lookup in Ha as [i Ha].
  destruct (Forall2_lookup_l _ _ _ _ _ Hl Ha) as ([k v] & Hi & Hp). pose proof (Hf a _ Hp) as Hk. cbn [fst] in Hk. subst k.
  exists v. split; [done|]. apply (Write_same b d (f a, v)); [done| |by eapply list_elem_of_lookup_2].
  by rewrite (written_keys P f l _ Hl Hf).
Qed.

Lemma untouched (b : MemBatch.t) {A} (P : A -> list Z * list Z -> Prop) (f : A -> list Z) (l : list A) d k :
  Forall2 P l b.(MemBatch.writes) -> (forall a kv, P a kv -> kv.1 = f a) -> (forall a, a ∈ l -> f a <> k) ->
  Get (MemBatch.Write b d) k = Get d k.
Proof.
  intros Hl Hf Hk. apply Write_other. intros kv Hkv. apply list_elem_of_lookup in Hkv as [i Hi].
  destruct (Forall2_lookup_r _ _ _ _ _ Hl Hi) as (a & Ha & Hp). rewrite (Hf a kv Hp).
  apply Hk. by eapply list_elem_of_lookup_2.
Qed.

Abbreviation tx_key := (fun tx => hash_bytes (tx_hash tx)) (only parsing).
Abbreviation key_of_receipt := (fun r => StateHelper.receipt_key (hash_bytes r.(EthReceipt.TxHash))) (only parsing).

Ltac other_length :=
  first [done | apply length_ne; unfold hash_bytes; rewrite ?state_key_length, ?receipt_key_length, ?be_bytes_length; simpl; lia].

Lemma write_records_ok h d d' : takes_writes -> StateHelper.write_records text h d = Some (d', None) ->
  NoDup (map tx_key h.(StateHelper.Transactions)) -> NoDup (map key_of_receipt h.(StateHelper.Receipts)) ->
  Get d' (Helper.state_key (StateHelper.SmartContractAddress h)) = Some (hash_bytes (StateHelper.HashOfTrieRootNode h)) /\
  Get d' Helper.headTxKey = Some (hash_bytes (StateHelper.head_hash h)) /\
  (forall tx, tx ∈ h.(StateHelper.Transactions) -> exists data, text (Transaction.MarshalJSON tx) = Some data /\ Get d' (tx_key tx) = Some data) /\
  (forall r, r ∈ h.(StateHelper.Receipts) -> exists data, EthReceipt.EncodeRLP r = Ret data /\ Get d' (key_of_receipt r) = Some data) /\
  (forall k, k <> Helper.state_key (StateHelper.SmartContractAddress h) -> k <> Helper.headTxKey ->
     k ∉ map tx_key h.(StateHelper.Transactions) -> k ∉ map key_of_receipt h.(StateHelper.Receipts) -> Get d' k = Get d k).
Proof.
  intros Hput. unfold StateHelper.write_records, StateHelper.writeHead.
  set (sk := Helper.state_key _). set (root := hash_bytes _).
  pose proof (Hput d sk root) as [_ Hroot]. pose proof (put_other d sk root) as Hroot'.
  destruct (Put d sk root) as [d1 e1]. cbn [fst] in *.
  set (head := hash_bytes (StateHelper.head_hash h)).
  pose proof (Hput d1 Helper.headTxKey head) as [He Hhead]. pose proof (put_other d1 Helper.headTxKey head) as Hhead'.
  destruct (Put d1 _ head) as [d2 e2]. cbn [fst snd] in *. subst e2.
  unfold StateHelper.writeTransactions. destruct (StateHelper.transaction_writes _ _ _) as [b|] eqn:Hb; [|done].
  unfold StateHelper.writeReceipts. destruct (StateHelper.receipt_writes _ _) as [[b'|]|] eqn:Hb'; [|done|done].
  cbn [mbind option_bind]. intros [= <-] Ht Hr.
  apply writes_of_transactions in Hb as (ws & Hw & Hws). apply writes_of_receipts in Hb' as (rs & Hw' & Hrs).
  cbn [MemBatch.writes MemBatch.empty app] in Hw, Hw'. rewrite <- Hw in Hws. rewrite <- Hw' in Hrs.
  pose proof (fun d k => untouched b _ tx_key _ d k Hws (fun _ _ H => proj1 H)) as Htx.
  pose proof (fun d k => untouched b' _ key_of_receipt _ d k Hrs (fun _ _ H => proj1 H)) as Hrc.
  split; [|split; [|split; [|split]]].
  - rewrite Hrc, Htx, Hhead' by (intros; other_length). exact Hroot.
  - rewrite Hrc, Htx by (intros; other_length). exact Hhead.
  - intros tx Hin. destruct (written b _ tx_key _ d2 tx Hput Hws (fun _ _ H => proj1 H) Ht Hin) as (v & [_ Hv] & Hget).
    exists v. split; [exact Hv|]. rewrite Hrc by (intros; other_length). exact Hget.
  - intros r Hin. destruct (written b' _ key_of_receipt _ (MemBatch.Write b d2) r Hput Hrs (fun _ _ H => proj1 H) Hr Hin) as (v & [_ Hv] & Hget).
    by exists v.
  - intros k Hk1 Hk2 Hk3 Hk4. rewrite Hrc, Htx, Hhead', Hroot'; [done..| |].
    + intros tx Hin <-. apply Hk3. by apply (list_elem_of_fmap_2 tx_key).
    + intros r Hin <-. apply Hk4. by apply (list_elem_of_fmap_2 key_of_receipt).
Qed.

Lemma commit_ok h d d' h' root : takes_writes -> StateHelper.Commit text h d = Some (d', h', inl root) ->
  NoDup (map tx_key h.(StateHelper.Transactions)) -> NoDup (map key_of_receipt h.(StateHelper.Receipts)) ->
  StateHelper.HashOfTrieRootNode h' = root /\
  Get d' (Helper.state_key (StateHelper.SmartContractAddress h)) = Some (hash_bytes root) /\
  Get d' Helper.headTxKey = Some (hash_bytes (StateHelper.head_hash h)) /\
  (forall tx, tx ∈ h.(StateHelper.Transactions) -> exists data, text (Transaction.MarshalJSON tx) = Some data /\ Get d' (tx_key tx) = Some data) /\
  (forall r, r ∈ h.(StateHelper.Receipts) -> exists data, EthReceipt.EncodeRLP r = Ret data /\ Get d' (key_of_receipt r) = Some data) /\
  (forall k, ~ node_key k -> k <> Helper.state_key (StateHelper.SmartContractAddress h) -> k <> Helper.headTxKey ->
     k ∉ map key_of_receipt h.(StateHelper.Receipts) -> Get d' k = Get d k).
Proof.
  intros Hput Hc Ht Hr. unfold StateHelper.Commit in Hc. destruct (SDB.Commit false _) as [[s [r err]]|]; [|done].
  cbn [mbind option_bind] in Hc. destruct err as [e|]; [done|].
  pose proof (fun j => disk_commit_other (db s) r d j) as Hnodes.
  destruct (TrieDBCommit (db s) r d) as [d1 [e|]]; [done|]. cbn [fst] in Hnodes.
  set (hr := StateHelper.with_root _ r) in Hc.
  destruct (StateHelper.write_records text hr d1) as [[d2 [e|]]|] eqn:Hw; [done| |done].
  cbn [mbind option_bind] in Hc. injection Hc as <- <- <-.
  destruct (write_records_ok hr d1 d2 Hput Hw Ht Hr) as (Hroot & Hhead & Htx & Hrc & Hother).
  split; [done|]. split; [exact Hroot|]. split; [exact Hhead|]. split; [exact Htx|]. split; [exact Hrc|].
  intros k Hk Hk1 Hk2 Hk3. rewrite Hother; [by apply Hnodes|done|done| |done].
  intros (tx & -> & _)%list_elem_of_fmap. apply Hk. left. apply be_bytes_length.
Qed.

(** A helper without transactions and receipts commits as the machine's helper does. *)
Lemma bare_commit h d : h.(StateHelper.Transactions) = [] -> h.(StateHelper.Receipts) = [] ->
  (fun '(d', h', _) => (d', StateHelper.EthStateDB h')) <$> StateHelper.Commit text h d =
    Helper.Commit d h.(StateHelper.base).
Proof.
  intros Ht Hr. unfold StateHelper.Commit, Helper.Commit, StateHelper.EthStateDB.
  destruct (SDB.Commit false _) as [[s [root [e|]]]|]; [done| |done]. cbn [mbind option_bind].
  cbn. destruct (TrieDBCommit (db s) root d) as [d1 [e|]]; [done|].
  unfold StateHelper.write_records, StateHelper.writeHead, Helper.writeHead, StateHelper.head_hash. cbn.
  rewrite Ht. cbn. unfold tx_hash, hash_bytes. cbn.
  destruct (Put d1 _ _) as [d2 e2]. destruct (Put d2 _ _) as [d3 [e3|]]; [done|].
  unfold StateHelper.writeTransactions, StateHelper.writeReceipts. cbn. by rewrite Ht, Hr.
Qed.

(** The next helper of a contract starts from the root that is recorded. *)
Lemma next_root d a root next : Get d (Helper.state_key a) = Some (hash_bytes root) ->
  StateHelper.NewVMStateHelper d a = Some (inl next) -> StateHelper.HashOfTrieRootNode next = root mod 2 ^ 256.
Proof.
  intros Hget. unfold StateHelper.NewVMStateHelper, Helper.NewVMStateHelper, Helper.initOrLoadState.
  destruct (GasPool.AddGas 0 GasLimit); [|done]. cbn [mbind option_bind]. rewrite Hget.
  destruct (SDB.New _ _); [|done]. intros [= <-]. apply BytesToHash_mod.
Qed.

(** C23: on a disk that takes every write, a commit that reports a root has recorded it for its contract, and every
    transaction and receipt under a key of its own: the next helper of the contract starts from that
    root, and no other contract's entry, nor any other entry but those of tries, is touched. *)
Theorem commits_record_everything h d d' h' root (Hput : takes_writes)
    (Hc : StateHelper.Commit text h d = Some (d', h', inl root))
    (Ht : NoDup (map tx_key h.(StateHelper.Transactions))) (Hr : NoDup (map key_of_receipt h.(StateHelper.Receipts))) :
  let a := StateHelper.SmartContractAddress h in
  StateHelper.HashOfTrieRootNode h' = root /\
  (forall next, StateHelper.NewVMStateHelper d' a = Some (inl next) -> StateHelper.HashOfTrieRootNode next = root mod 2 ^ 256) /\
  Get d' Helper.headTxKey = Some (hash_bytes (StateHelper.head_hash h)) /\
  (forall tx, tx ∈ h.(StateHelper.Transactions) -> exists data,
     text (Transaction.MarshalJSON tx) = Some data /\ Get d' (hash_bytes (tx_hash tx)) = Some data) /\
  (forall r, r ∈ h.(StateHelper.Receipts) -> exists data,
     EthReceipt.EncodeRLP r = Ret data /\ Get d' (StateHelper.receipt_key (hash_bytes r.(EthReceipt.TxHash))) = Some data) /\
  (forall b, Rollback.address_ok a -> Rollback.address_ok b -> b <> a -> Get d' (Helper.state_key b) = Get d (Helper.state_key b)).
Proof.
  intros a. destruct (commit_ok h d d' h' root Hput Hc Ht Hr) as (Hh & Hroot & Hhead & Htx & Hrc & Hother).
  split; [exact Hh|]. split; [intros next; by apply next_root|]. split; [exact Hhead|]. split; [exact Htx|]. split; [exact Hrc|].
  intros b Ha Hb Hne. apply Hother; [apply state_key_no_node| |other_length|].
  - intros Heq. apply Hne. by apply state_key_inj.
  - intros (r & Heq & _)%list_elem_of_fmap. revert Heq. other_length.
Qed.
End Commit.

(** ** What a message that was applied leaves in the helper *)
Section Reports.
Context {DBI : Database} {CD : Codec} {AC : Accounts} {CR : Crypto} {GR : GoRange} {DK : Disk} {PL : PrecompileLib}
  {DL : DiskLaws} (clock : nat -> Z) (abort : nat -> bool) (text : json -> option (list Z)) (parse : list Z -> option json).
Implicit Types (tx : Transaction.t).

(** A run that failed is an error: what is recorded succeeded. *)
Lemma applied_succeeded {EN : Env} fuel s d msg gp st res : apply_message fuel EN s d msg gp = Ret (st, res) ->
  res.(err) = None -> res.(failed) = false /\ is_u64 res.(usedGas).
Proof.
  unfold apply_message, ApplyMessage, TransitionDb. intros H He.
  destruct (preCheck _) as [st0 [e|]]; [by injection H as _ <-|].
  destruct (IntrinsicGas _ _ _); [|by injection H as _ <-].
  destruct (useGas _ _); [|by injection H as _ <-]. inv_bind.
  repeat match goal with p : _ * _ |- _ => destruct p end.
  case_bool_decide; [by inv_bind|]. inv_bind. cbn [err failed usedGas] in *.
  match goal with H : VMError <$> ?v = None |- _ => destruct v; [done|] end.
  split; [done|]. apply u64_range.
Qed.

(** The receipt of a message, and the rest of what is recorded *)
Record recorded h tx (created : option AddressBytes) (gas : Z) h' (r : EthReceipt.t) : Prop := {
  rec_receipts : h'.(StateHelper.Receipts) = h.(StateHelper.Receipts) ++ [r];
  rec_transactions : h'.(StateHelper.Transactions) = h.(StateHelper.Transactions) ++ [tx];
  rec_logs : h'.(StateHelper.AllLogs) = h.(StateHelper.AllLogs) ++ r.(EthReceipt.Logs);
  rec_contract : StateHelper.SmartContractAddress h' = default (StateHelper.SmartContractAddress h) created;
  rec_state : exists s root, SDB.IntermediateRoot true (StateHelper.EthStateDB h) = Some (s, root) /\
    StateHelper.EthStateDB h' = s /\ r.(EthReceipt.PostState) = hash_bytes root /\
    r.(EthReceipt.Logs) = default [] (s.(logs) !! tx_hash tx);
  rec_status : r.(EthReceipt.Status) = EthReceipt.ReceiptStatusSuccessful;
  rec_gas : r.(EthReceipt.GasUsed) = gas;
  rec_total : r.(EthReceipt.CumulativeGasUsed) = u64 (h.(StateHelper.TotalUsedGas) + gas);
  rec_hash : r.(EthReceipt.TxHash) = tx_hash tx;
  rec_address : r.(EthReceipt.ContractAddress) = default 0 created;
  rec_bloom : EthReceipt.CreateBloom [r] = Some r.(EthReceipt.Bloom)
}.

Lemma record_receipt_ok h tx created gas h' : record_receipt h tx created gas false = Some h' ->
  exists r, recorded h tx created gas h' r.
Proof.
  unfold record_receipt. intros H. destruct (SDB.IntermediateRoot _ _) as [[s root]|] eqn:Hr; [|done].
  cbn [mbind option_bind] in H. unfold SDB.GetLogs, gets in H. cbn [mbind option_bind] in H.
  destruct (EthReceipt.CreateBloom _) as [bloom|] eqn:Hb; [|done]. cbn [mbind option_bind] in H.
  injection H as <-. eexists. split; try reflexivity; [|exact Hb]. by exists s, root.
Qed.

Lemma CreateBloom_bytes l b : EthReceipt.CreateBloom l = Some b -> length b = 256%nat /\ bytes_ok b.
Proof.
  unfold EthReceipt.CreateBloom, Receipts.Bloom.BytesToBloom, Receipts.Bloom.SetBytes, Receipts.Bloom.BloomByteLength.
  rewrite length_replicate. destruct (foldl _ _ _) as [bin|]; [|done]. cbn [mbind option_bind].
  destruct (Nat.ltb_spec 256 (length (Bytes bin))); [done|]. intros <-%(inj Some). rewrite take_replicate, Nat.min_l by lia.
  split; [rewrite length_app, length_replicate; lia|]. apply Forall_app. split; [apply Forall_replicate; lia|apply be_bytes_range].
Qed.

(** The transaction has the hash of these 32 bytes. *)
Record hashed_as tx (hash : list Z) : Prop := {
  hashed_text : tx.(Transaction.Hash) = hex_EncodeToString hash;
  hashed_bytes : Forall (fun x => 0 <= x < 256) hash;
  hashed_length : length hash = 32%nat
}.

Lemma hash_decodes tx hash : hashed_as tx hash -> (hex_DecodeString (bytes_of tx.(Transaction.Hash))).1 = hash /\
  hash_bytes (tx_hash tx) = hash /\ hash_ok (tx_hash tx).
Proof.
  intros [Ht Hb Hl]. assert (Hd : (hex_DecodeString (bytes_of tx.(Transaction.Hash))).1 = hash).
  { rewrite Ht. unfold hex_EncodeToString. rewrite bytes_of_string_of by by apply hex_Encode_range. by rewrite hex_round_trip. }
  split; [exact Hd|]. unfold tx_hash, GetHashBytes, hash_bytes, HashLength. rewrite Hd, Hl. cbn [Nat.ltb Nat.leb].
  split; [rewrite <- Hl; by apply be_bytes_be_int|]. pose proof (be_int_bound hash Hb) as H. rewrite Hl in H. exact H.
Qed.

(** What the node keeps in memory has a size. *)
Definition fits (r : EthReceipt.t) : Prop := forall l, items (EthReceipt.receipt_val r) EthReceipt.receiptStorageRLP no_tags = Some l ->
  Z.of_nat (length (encs l)) < 2 ^ 63.

Lemma encoded_reads_back r data : receipt_ok r -> fits r -> EthReceipt.EncodeRLP r = Ret data -> EthReceipt.DecodeRLP data = Some (stored r).
Proof.
  intros Hr Hf He. destruct (encode_then_decode _ _ (receipt_decodable r Hr)) as (l & Hl & Hrt).
  destruct (Hrt (Hf l Hl)) as [He' Hd]. unfold EthReceipt.EncodeRLP in He. rewrite He' in He. injection He as <-.
  unfold EthReceipt.DecodeRLP. rewrite Hd. by apply receipt_back.
Qed.

(** The one receipt of a helper that is new, read back after the commit *)
Lemma receipt_found tx hash h created gas h1 r d1 d2 h2 root : takes_writes -> hashed_as tx hash ->
  h.(StateHelper.Receipts) = [] -> h.(StateHelper.Transactions) = [] ->
  recorded h tx created gas h1 r -> StateHelper.Commit text h1 d1 = Some (d2, h2, inl root) ->
  Forall log_ok r.(EthReceipt.Logs) -> Receipts.address_ok r.(EthReceipt.ContractAddress) -> is_u64 gas -> fits r ->
  receipt_of d2 tx = Some (stored r).
Proof.
  intros Hput Hh Hrs Hts Hrec Hc Hlogs Haddr Hgas Hfits. destruct (hash_decodes tx hash Hh) as (Hd & Hb & Hok).
  destruct Hrec as [R1 R2 _ _ (s & rt & _ & _ & Hpost & _) Hst Hg Htot Hth _ Hbloom]. rewrite Hrs in R1. rewrite Hts in R2.
  assert (Hr : receipt_ok r).
  { split; [right|right|rewrite Htot; apply u64_range|by eapply CreateBloom_bytes|done|by rewrite Hth|done|by rewrite Hg]; [|done].
    rewrite Hpost. split; [apply be_bytes_length|apply be_bytes_range]. }
  destruct (commit_ok text h1 d1 d2 h2 root Hput Hc) as (_ & _ & _ & _ & Hrc & _).
  { rewrite R2. apply NoDup_singleton. }
  { rewrite R1. apply NoDup_singleton. }
  destruct (Hrc r) as (data & He & Hget); [rewrite R1; left|].
  unfold receipt_of, getReceipt. rewrite Hd. rewrite Hth, Hb in Hget. rewrite Hget. cbn [mbind option_bind].
  by apply encoded_reads_back.
Qed.

Lemma new_helper d a h : StateHelper.NewVMStateHelper d a = Some (inl h) ->
  h.(StateHelper.Receipts) = [] /\ h.(StateHelper.Transactions) = [] /\ h.(StateHelper.AllLogs) = [] /\
  h.(StateHelper.TotalUsedGas) = 0 /\ h.(StateHelper.GP) = GasLimit /\ StateHelper.SmartContractAddress h = a.
Proof.
  unfold StateHelper.NewVMStateHelper, Helper.NewVMStateHelper, Helper.initOrLoadState.
  change (GasPool.AddGas 0 GasLimit) with (Some GasLimit). cbn [mbind option_bind].
  destruct (SDB.New _ _); [|done]. by intros [= <-].
Qed.

(** A transaction on a new helper: what was applied is what is recorded. *)
Lemma applyTransaction_ok fuel d tx h d1 h1 : applyTransaction clock abort fuel d tx h = Ret (d1, h1, None) ->
  exists from s msg st res r,
    address_of tx.(Transaction.From) = Some from /\ SDB.Prepare (tx_hash tx) (tx_hash tx) 0 (StateHelper.EthStateDB h) = Some (s, tt) /\
    AsMessage tx DefaultGasLimit = Some msg /\
    apply_message fuel (tx_env clock abort tx from 0 from) s d msg h.(StateHelper.GP) = Ret (st, res) /\ d1 = disk_of d st /\
    res.(err) = None /\ res.(failed) = false /\ is_u64 res.(usedGas) /\
    recorded (ran h st) tx (if bool_decide (msg.(Message.To) = None) then Some res.(contractAddress) else None) res.(usedGas) h1 r.
Proof.
  unfold applyTransaction. intros H. destruct (address_of _) as [from|]; [|done].
  destruct (SDB.Prepare _ _ _ _) as [[s []]|] eqn:Hp; [|done]. destruct (AsMessage _ _) as [msg|] eqn:Hm; [|done].
  cbn [or_panic mbind outcome_bind] in H.
  destruct (apply_message _ _ _ _ _ _) as [[st res]| |] eqn:Ha; [|done|done]. cbn [mbind outcome_bind] in H.
  destruct (err res) eqn:He; [done|]. destruct (applied_succeeded _ _ _ _ _ _ _ Ha He) as [Hf Hu]. rewrite Hf in H.
  destruct (record_receipt _ _ _ _ _) as [h2|] eqn:Hr; [|done]. injection H as <- <-.
  apply record_receipt_ok in Hr as [r Hr]. exists from, s, msg, st, res, r. split_and!; try done.
  by destruct (Message.To msg).
Qed.

Lemma call_ok fuel d tx callMsg h d1 h1 out : call clock abort fuel d tx callMsg h = Ret (d1, h1, inl out) ->
  exists from to st res r,
    address_of tx.(Transaction.From) = Some from /\ address_of tx.(Transaction.To) = Some to /\
    apply_message fuel (tx_env clock abort tx callMsg.(Message.From) callMsg.(Message.GasPrice) from) (StateHelper.EthStateDB h) d callMsg
      h.(StateHelper.GP) = Ret (st, res) /\ d1 = disk_of d st /\ out = res.(ret) /\
    res.(err) = None /\ res.(failed) = false /\ is_u64 res.(usedGas) /\
    recorded (ran h st) tx (Some to) res.(usedGas) h1 r.
Proof.
  unfold call. intros H. destruct (address_of tx.(Transaction.From)) as [from|]; [|done].
  cbn [or_panic mbind outcome_bind] in H.
  destruct (apply_message _ _ _ _ _ _) as [[st res]| |] eqn:Ha; [|done|done]. cbn [mbind outcome_bind] in H.
  destruct (err res) eqn:He; [done|]. destruct (applied_succeeded _ _ _ _ _ _ _ Ha He) as [Hf Hu]. rewrite Hf in H.
  destruct (address_of tx.(Transaction.To)) as [to|]; [|done]. cbn [or_panic mbind outcome_bind] in H.
  destruct (record_receipt _ _ _ _ _) as [h2|] eqn:Hr; [|done]. injection H as <- <- <-.
  apply record_receipt_ok in Hr as [r Hr]. by exists from, to, st, res, r.
Qed.

(** The receipt of a message on a new helper, as it is found after the commit *)
Lemma receipt_reported tx hash d0 a h0 s st created gas h1 r d1 d2 h2 root : takes_writes -> hashed_as tx hash ->
  StateHelper.NewVMStateHelper d0 a = Some (inl h0) ->
  recorded (ran (StateHelper.with_state h0 s) st) tx created gas h1 r -> is_u64 gas ->
  StateHelper.Commit text h1 d1 = Some (d2, h2, inl root) ->
  Forall log_ok h1.(StateHelper.AllLogs) -> Receipts.address_ok (default 0 created) -> Forall fits h1.(StateHelper.Receipts) ->
  receipt_of d2 tx = Some (stored r) /\ r.(EthReceipt.Logs) = h1.(StateHelper.AllLogs) /\ r.(EthReceipt.CumulativeGasUsed) = gas /\
  (stored r).(EthReceipt.Status) = EthReceipt.ReceiptStatusFailed /\ Get d2 (Helper.state_key (default a created)) = Some (hash_bytes root).
Proof.
  intros Hput Hhash Hnew Hrec Hu Hcommit Hlogs Haddr Hfits. destruct (new_helper _ _ _ Hnew) as (N1 & N2 & N3 & N4 & N5 & N6).
  pose proof Hrec as [R1 R2 R3 R4 (? & ? & _ & _ & R5 & _) _ _ R8 _ R10 _].
  change (StateHelper.AllLogs (ran _ st)) with (StateHelper.AllLogs h0) in R3. rewrite N3 in R3.
  change (StateHelper.Receipts (ran _ st)) with (StateHelper.Receipts h0) in R1. rewrite N1 in R1.
  change (StateHelper.Transactions (ran _ st)) with (StateHelper.Transactions h0) in R2. rewrite N2 in R2.
  change (StateHelper.TotalUsedGas (ran _ st)) with (StateHelper.TotalUsedGas h0) in R8. rewrite N4, Z.add_0_l, u64_id in R8 by done.
  change (StateHelper.SmartContractAddress (ran _ st)) with (StateHelper.SmartContractAddress h0) in R4. rewrite N6 in R4.
  cbn [app] in R1, R2, R3. split; [|split; [done|split; [done|split]]].
  - eapply (receipt_found tx hash); [done|done| | |exact Hrec|exact Hcommit|by rewrite <- R3|by rewrite R10|done|]; [done|done|].
    rewrite R1 in Hfits. by apply Forall_inv in Hfits.
  - unfold stored. cbn. rewrite R5. unfold hash_bytes. by rewrite be_bytes_length.
  - destruct (commit_ok text h1 d1 d2 h2 root Hput Hcommit) as (_ & Hroot & _); [rewrite R2|rewrite R1|]; [apply NoDup_singleton..|].
    by rewrite <- R4.
Qed.

(** What a report says of a run: all there is to say, but that it failed. *)
Definition reports (r : DVMResult) (res : result) (logs : list TxLog) (contract : AddressBytes) : Prop :=
  r.(HertzCost) = res.(usedGas) /\ r.(CumulativeHertzUsed) = res.(usedGas) /\ r.(Logs) = logs /\
  r.(ContractAddress) = contract /\ r.(ContractMethodExecError) = None /\
  (forall receipt, receipt.(EthReceipt.Logs) = logs -> EthReceipt.CreateBloom [receipt] = Some r.(Bloom)) /\
  res.(failed) = false /\ r.(Status) = EthReceipt.ReceiptStatusFailed.

Lemma reports_stored base out contract rc res logs : base.(ContractMethodExecError) = None ->
  rc.(EthReceipt.GasUsed) = res.(usedGas) -> rc.(EthReceipt.CumulativeGasUsed) = res.(usedGas) -> rc.(EthReceipt.Logs) = logs ->
  EthReceipt.CreateBloom [rc] = Some rc.(EthReceipt.Bloom) -> res.(failed) = false ->
  (stored rc).(EthReceipt.Status) = EthReceipt.ReceiptStatusFailed ->
  reports (with_receipt base out contract (stored rc)) res logs contract.
Proof.
  intros. unfold reports. split_and!; try done. intros r Hr. cbn [Bloom with_receipt stored EthReceipt.Bloom].
  subst logs. match goal with H : EthReceipt.CreateBloom [rc] = _ |- _ => rewrite <- H end.
  unfold EthReceipt.CreateBloom. cbn [foldl]. by rewrite Hr.
Qed.

(** C21: on a disk that takes every write, a deployment that runs without error and is committed - with logs and
    addresses in the ranges of their types, and encodings below 2^63 bytes - returns no error, and reports the gas, the logs, their
    bloom and the address of the contract, but says it failed: every receipt is of a run that succeeded, and every one is
    read back as one of a failure.  The next helper of the contract starts from the root that was committed. *)
Theorem deployments_are_reported fuel d tx hash from h0 s d1 h1 d2 h2 root
    (Hput : takes_writes) (Hhash : hashed_as tx hash) (Hfrom : address_of tx.(Transaction.From) = Some from)
    (Hto : tx.(Transaction.To) = ""%string) (Hnew : StateHelper.NewVMStateHelper d 0 = Some (inl h0))
    (Hnonce : SDB.SetNonce from (u64 tx.(Transaction.Time)) (StateHelper.EthStateDB h0) = Some (s, tt))
    (Hrun : applyTransaction clock abort fuel d tx (StateHelper.with_state h0 s) = Ret (d1, h1, None))
    (Hcommit : StateHelper.Commit text h1 d1 = Some (d2, h2, inl root))
    (Hlogs : Forall log_ok h1.(StateHelper.AllLogs)) (Haddr : Receipts.address_ok (StateHelper.SmartContractAddress h1))
    (Hfits : Forall fits h1.(StateHelper.Receipts)) :
  exists s' msg st res r,
    SDB.Prepare (tx_hash tx) (tx_hash tx) 0 s = Some (s', tt) /\ AsMessage tx DefaultGasLimit = Some msg /\
    apply_message fuel (tx_env clock abort tx from 0 from) s' d msg GasLimit = Ret (st, res) /\ res.(err) = None /\
    DeploySmartContract clock abort text fuel d tx = Ret (d2, r, None) /\
    reports r res h1.(StateHelper.AllLogs) res.(contractAddress) /\
    (forall next, StateHelper.NewVMStateHelper d2 res.(contractAddress) = Some (inl next) ->
       StateHelper.HashOfTrieRootNode next = root mod 2 ^ 256).
Proof.
  destruct (applyTransaction_ok _ _ _ _ _ _ Hrun) as (from' & s' & msg & st & res & rc & Hf' & Hp & Hm & Ha & -> & He & Hfl & Hu & Hrec).
  rewrite Hfrom in Hf'. injection Hf' as <-. destruct (new_helper _ _ _ Hnew) as (N1 & N2 & N3 & N4 & N5 & N6).
  assert (Hmto : Message.To msg = None).
  { unfold AsMessage in Hm. rewrite Hto in Hm. cbn in Hm. destruct (address_of _); [|done]. by injection Hm as <-. }
  rewrite bool_decide_eq_true_2 in Hrec by done.
  change (StateHelper.GP (StateHelper.with_state h0 s)) with (StateHelper.GP h0) in Ha. rewrite N5 in Ha.
  assert (Hca : Receipts.address_ok res.(contractAddress)).
  { pose proof (rec_contract _ _ _ _ _ _ Hrec) as Hc. by rewrite Hc in Haddr. }
  destruct (receipt_reported tx hash d 0 h0 s st _ _ h1 rc _ d2 h2 root Hput Hhash Hnew Hrec Hu Hcommit Hlogs Hca Hfits)
    as (Hfound & Hl & Hcum & Hst & Hroot).
  exists s', msg, st, res. eexists. split; [exact Hp|]. split; [exact Hm|]. split; [exact Ha|]. split; [exact He|]. split.
  { unfold DeploySmartContract. rewrite Hto. change (address_of "") with (Some 0). cbn [or_panic mbind outcome_bind].
    rewrite Hnew. cbn [or_panic mbind outcome_bind]. rewrite Hfrom. cbn [or_panic mbind outcome_bind].
    rewrite Hnonce. cbn [or_panic mbind outcome_bind]. rewrite Hrun. cbn [mbind outcome_bind].
    rewrite Hcommit. cbn [or_panic mbind outcome_bind]. rewrite Hfound. reflexivity. }
  split; [|intros next; by apply next_root].
  pose proof Hrec as [_ _ _ _ _ _ R7 _ _ R10 R11]. change (rc.(EthReceipt.ContractAddress) = res.(contractAddress)) in R10.
  rewrite <- R10. by apply reports_stored.
Qed.

(** C22: on a disk that takes every write, an execution that runs without error and is committed - with logs and
    addresses in the ranges of their types, and encodings below 2^63 bytes - returns no error, and reports the gas, the result, the logs
    that are found under the hash of the transaction, their bloom and the address, but it says it failed. *)
Theorem executions_are_reported fuel d tx args hash from to h0 jsonABI callData d1 h1 out d2 h2 root
    (Hput : takes_writes) (Hhash : hashed_as tx hash) (Hfrom : address_of tx.(Transaction.From) = Some from)
    (Hto : address_of tx.(Transaction.To) = Some to) (Hnew : StateHelper.NewVMStateHelper d to = Some (inl h0))
    (Habi : interface_of parse tx.(Transaction.Abi) = Ret jsonABI) (Hpack : ABI_Pack jsonABI tx.(Transaction.Method) args = Ret callData) :
  let callMsg := Message.NewMessage from (Some to) 0 DefaultValue DefaultGas DefaultGasPrice callData false in
  forall (Hrun : call clock abort fuel d tx callMsg h0 = Ret (d1, h1, inl out))
    (Hcommit : StateHelper.Commit text h1 d1 = Some (d2, h2, inl root))
    (Hlogs : Forall log_ok h1.(StateHelper.AllLogs)) (Haddr : Receipts.address_ok to) (Hfits : Forall fits h1.(StateHelper.Receipts)),
  exists st res r,
    apply_message fuel (tx_env clock abort tx from DefaultGasPrice from) (StateHelper.EthStateDB h0) d callMsg GasLimit = Ret (st, res) /\
    res.(err) = None /\
    ExecuteSmartContract clock abort text parse fuel d tx args = Ret (d2, r, None) /\
    r.(ContractMethodExecResult) = res.(ret) /\ reports r res h1.(StateHelper.AllLogs) to /\
    (forall next, StateHelper.NewVMStateHelper d2 to = Some (inl next) -> StateHelper.HashOfTrieRootNode next = root mod 2 ^ 256).
Proof.
  intros callMsg Hrun Hcommit Hlogs Haddr Hfits.
  destruct (call_ok _ _ _ _ _ _ _ _ Hrun) as (from' & to' & st & res & rc & Hf' & Ht' & Ha & -> & -> & He & Hfl & Hu & Hrec).
  rewrite Hfrom in Hf'. injection Hf' as <-. rewrite Hto in Ht'. injection Ht' as <-.
  destruct (new_helper _ _ _ Hnew) as (_ & _ & _ & _ & N5 & _). rewrite N5 in Ha.
  destruct (receipt_reported tx hash d to h0 (StateHelper.EthStateDB h0) st (Some to) res.(usedGas) h1 rc (disk_of d st) d2 h2 root Hput Hhash Hnew)
    as (Hfound & Hl & Hcum & Hst & Hroot); [destruct Hrec; by split|exact Hu|exact Hcommit|exact Hlogs|exact Haddr|exact Hfits|].
  exists st, res. eexists. split; [exact Ha|]. split; [exact He|]. split.
  { unfold ExecuteSmartContract. rewrite Hto. cbn [or_panic mbind outcome_bind].
    rewrite Hnew. cbn [or_panic mbind outcome_bind]. rewrite Hfrom. cbn [or_panic mbind outcome_bind].
    rewrite Habi, Hpack. fold callMsg. rewrite Hrun. cbn [mbind outcome_bind].
    rewrite Hcommit. cbn [or_panic mbind outcome_bind]. rewrite Hfound. reflexivity. }
  split; [done|]. split; [|intros next; by apply next_root].
  pose proof Hrec as [_ _ _ _ _ _ R7 _ _ _ R11]. by apply reports_stored.
Qed.
End Reports.

(** ** A contract that is deployed and called *)
(** ** The messages of the service *)
Section Messages.
Context {DBI : Database} {CD : Codec} {AC : Accounts} {CR : Crypto} {GR : GoRange} {DK : Disk} {PL : PrecompileLib}
  {BL : BackendLaws} {TL : TrieLaws} {CL : CodecLaws} {DL : DiskLaws} {PLaws : PrecompileLaws} {CU : CodesInUse}
  (clock : nat -> Z) (abort : nat -> bool) (Hk : forall d, is_bytes (Keccak256 d)) (Hput : takes_writes).

(** The environments of the service have a gas price and a block number, and no difficulty. *)
Lemma tx_env_ok tx origin price from : 0 <= price -> @EnvOk (tx_env clock abort tx origin price from).
Proof. intros Hp. split; [by exists price|by eexists]. Qed.

(** C27: A message with less than 2^62 gas that the service applies, in the environment it makes for a transaction and on the journaled state,
    returns with enough fuel and panics nowhere in transition, machine, state or helper, unless it executes DIFFICULTY,
    which has none here, or two codes that share a hash.  The state it leaves is well formed, and every stored state still
    opens; it is refused, abandoned or settled as the error, the gas and the pool say. *)
Theorem messages_of_the_service_end tx origin price from s d msg pool :
  0 <= price -> state_ok s -> disk_opens d -> message_ok msg -> is_u64 pool ->
  (let EN := tx_env clock abort tx origin price from in
   foreseen_run newConstantinopleInstructionSet msg.(Message.Gas) (fun run => ApplyMessage run (NewEVM s (Some d)) msg pool)) ->
  exists st res,
    (forall fuel, enough_fuel msg.(Message.Gas) <= Z.of_nat fuel ->
       apply_message fuel (tx_env clock abort tx origin price from) s d msg pool = Ret (st, res)) /\
    state_ok st.(st_evm).(evm_StateDB) /\ disk_opens (disk_of d st) /\
    (refused msg pool (NewEVM s (Some d)) (st, res) \/ abandoned (EN := tx_env clock abort tx origin price from) msg pool (st, res) \/
     settled (EN := tx_env clock abort tx origin price from) msg pool (st, res)).
Proof.
  set (laws := journaled_StateLaws Hk Hput). set (EN := tx_env _ _ _ _ _ _). intros Hprice Hs Hd Hm Hp Hfs.
  pose proof (tx_env_ok tx origin price from Hprice : @EnvOk EN) as EO.
  assert (He : evm_ok (NewEVM s (Some d))) by (split; [exact Hs|by exists d|apply is_bytes_nil|done|done]).
  destruct (stable_run (EN := EN) newConstantinopleInstructionSet msg.(Message.Gas) (fun run => ApplyMessage run (NewEVM s (Some d)) msg pool)
              (transition_post (EN := EN) msg pool (NewEVM s (Some d)))) as ([st res] & (He' & _ & _ & Hpost) & Hrun).
  - by do 4 right.
  - intros r r'. apply ApplyMessage_le.
  - intros r Hr. by apply (TransitionDb_ok msg.(Message.Gas)).
  - exact Hfs.
  - exists st, res. split; [exact Hrun|]. split; [apply He'|]. split; [|exact Hpost].
    destruct He' as [_ (d' & Hd' & Hok) _ _ _]. unfold disk_of. cbn in Hd'. by rewrite Hd'.
Qed.
End Messages.

Section Witnesses.

Definition runtime_code : list Z := [PUSH1; 0; PUSH1; 0; LOG0; PUSH1; 5; PUSH1; 0; MSTORE; PUSH1; 32; PUSH1; 0; RETURN].
Definition init_code : list Z :=
  [PUSH1; 0; PUSH1; 0; LOG0; PUSH1; 15; PUSH1; 17; PUSH1; 0; CODECOPY; PUSH1; 15; PUSH1; 0; RETURN] ++ runtime_code.

Definition sample_tx (hash type from : Z) (to code method : string) : Transaction.t :=
  {| Transaction.Hash := hex_EncodeToString (be_bytes 32 hash); Transaction.Type_ := type;
     Transaction.From := hex_EncodeToString (be_bytes 20 from); Transaction.To := to; Transaction.Value := 0;
     Transaction.Code := code; Transaction.Abi := ""; Transaction.Method := method; Transaction.Params := [];
     Transaction.Time := 5; Transaction.Signature := ""; Transaction.Hertz := 0; Transaction.Receipt_ := Receipt.empty;
     Transaction.Gossip := []; Transaction.FromName := ""; Transaction.ToName := "" |}.
Definition deploy_tx : Transaction.t := sample_tx 77 TypeDeploySmartContract 7 "" (hex_EncodeToString init_code) "".
Definition execute_tx (from : Z) : Transaction.t := sample_tx 78 TypeExecuteSmartContract from (hex_EncodeToString (be_bytes 20 13)) "" "f".

Definition sample_clock (n : nat) : Z := Z.of_nat n.
Definition never (n : nat) : bool := false.
Definition sample_text (j : json) : option (list Z) := Some [123; 125].
Definition sample_interface : json :=
  JArr [JObj [("type", JStr "function"); ("name", JStr "f"); ("inputs", JArr []); ("outputs", JArr [])]].
Definition sample_parse (b : list Z) : option json := Some sample_interface.

Definition no_helper : StateHelper.t :=
  {| StateHelper.base := {| Helper.EthStateDB := fresh_state; Helper.SmartContractAddress := 0; Helper.HashOfTrieRootNode := 0 |};
     StateHelper.TxIndex := 0; StateHelper.Transactions := []; StateHelper.Receipts := []; StateHelper.AllLogs := [];
     StateHelper.TotalUsedGas := 0; StateHelper.GP := 0 |}.

(** What a run left, and whether it ended well: a bit is evaluated, and what was left is read off. *)
Definition helper_of (r : option (StateHelper.t + unit)) : StateHelper.t :=
  match r with Some (inl h) => h | _ => no_helper end.
Definition is_helper (r : option (StateHelper.t + unit)) : bool := match r with Some (inl _) => true | _ => false end.
Definition state_left (r : option (state * ())) : state := match r with Some (s, _) => s | None => fresh_state end.
Definition value_in {E A} (a : A) (r : outcome E A) : A := match r with Ret a => a | _ => a end.
Definition has_value {E A} (r : outcome E A) : bool := match r with Ret _ => true | _ => false end.
Definition left_by {C} (d : MapDisk) (h : StateHelper.t) (r : outcome nofuel (MapDisk * StateHelper.t * option C)) : MapDisk * StateHelper.t :=
  match r with Ret (d, h, None) => (d, h) | _ => (d, h) end.
Definition ended {C} (r : outcome nofuel (MapDisk * StateHelper.t * option C)) : bool :=
  match r with Ret (_, _, None) => true | _ => false end.
Definition returned_by {C} (d : MapDisk) (h : StateHelper.t) (r : outcome nofuel (MapDisk * StateHelper.t * (list Z + C))) : MapDisk * StateHelper.t * list Z :=
  match r with Ret (d, h, inl out) => (d, h, out) | _ => (d, h, []) end.
Definition returned {C} (r : outcome nofuel (MapDisk * StateHelper.t * (list Z + C))) : bool :=
  match r with Ret (_, _, inl _) => true | _ => false end.
Definition committed_by {C} (d : MapDisk) (h : StateHelper.t) (r : option (MapDisk * StateHelper.t * (Z + C))) : MapDisk * StateHelper.t * Z :=
  match r with Some (d, h, inl root) => (d, h, root) | _ => (d, h, 0) end.
Definition committed {C} (r : option (MapDisk * StateHelper.t * (Z + C))) : bool :=
  match r with Some (_, _, inl _) => true | _ => false end.

Lemma is_helper_ok r : is_helper r = true -> r = Some (inl (helper_of r)).
Proof. by destruct r as [[|]|]. Qed.
Lemma state_left_ok r : bool_decide (is_Some r) = true -> r = Some (state_left r, tt).
Proof. by destruct r as [[? []]|]. Qed.
Lemma has_value_ok {E A} (a : A) (r : outcome E A) : has_value r = true -> r = Ret (value_in a r).
Proof. by destruct r. Qed.
Lemma ended_ok {C} d h (r : outcome _ (_ * _ * option C)) : ended r = true -> r = Ret ((left_by d h r).1, (left_by d h r).2, None).
Proof. by destruct r as [[[? ?] [|]]| |]. Qed.
Lemma returned_ok {C} d h (r : outcome _ (_ * _ * (_ + C))) : returned r = true ->
  r = Ret ((returned_by d h r).1.1, (returned_by d h r).1.2, inl (returned_by d h r).2).
Proof. by destruct r as [[[? ?] [|]]| |]. Qed.
Lemma committed_ok {C} d h (r : option (_ * _ * (_ + C))) : committed r = true ->
  r = Some ((committed_by d h r).1.1, (committed_by d h r).1.2, inl (committed_by d h r).2).
Proof. by destruct r as [[[? ?] [|]]|]. Qed.

Definition new_at (d : MapDisk) (a : Z) : StateHelper.t := helper_of (StateHelper.NewVMStateHelper (DK := map_Disk) d a).

(** The deployment *)
Definition deploy_start : state :=
  state_left (SDB.SetNonce 7 (u64 (Transaction.Time deploy_tx)) (StateHelper.EthStateDB (new_at empty_disk 0))).
Definition deploy_ran : MapDisk * StateHelper.t :=
  left_by empty_disk no_helper
    (applyTransaction (DK := map_Disk) sample_clock never 60 empty_disk deploy_tx (StateHelper.with_state (new_at empty_disk 0) deploy_start)).
Definition committed_from (p : MapDisk * StateHelper.t) : MapDisk * StateHelper.t * Z :=
  committed_by p.1 p.2 (StateHelper.Commit (DK := map_Disk) sample_text p.2 p.1).
Definition deployed : MapDisk * StateHelper.t * Z := committed_from deploy_ran.
Definition deployed_disk : MapDisk := deployed.1.1.

(** The call *)
Definition the_abi : ABI := value_in empty_ABI (interface_of sample_parse "").
Definition the_data : list Z := value_in [] (ABI_Pack the_abi "f" []).
Definition the_msg : Message.t := Message.NewMessage 9 (Some 13) 0 DefaultValue DefaultGas DefaultGasPrice the_data false.
Definition call_on (d : MapDisk) (h : StateHelper.t) : MapDisk * StateHelper.t * list Z :=
  returned_by d h (call (DK := map_Disk) sample_clock never 60 d (execute_tx 9) the_msg h).
Definition call_ran : MapDisk * StateHelper.t * list Z := call_on deployed_disk (new_at deployed_disk 13).
Definition called : MapDisk * StateHelper.t * Z := committed_from call_ran.1.

Lemma sample_hashed hash type from to code method : hashed_as (sample_tx hash type from to code method) (be_bytes 32 hash).
Proof. split; [done|apply be_bytes_range|apply be_bytes_length]. Qed.

Definition deploy_log : TxLog :=
  {| log := {| LogAddress := 13; Topics := []; LogData := []; LogBlockNumber := 4370000 |};
     StateData.TxHash := 77; TxIndex := 0; BlockHash := 77; Index := 0 |}.

Lemma deploy_logs : StateHelper.AllLogs deploy_ran.2 = [deploy_log].
Proof. vm_compute. reflexivity. Qed.

Lemma deploy_log_ok : log_ok deploy_log.
Proof. split; cbn; unfold Receipts.address_ok, hash_ok, is_u64; repeat constructor; lia. Qed.

(** The sizes of the encodings, computed *)
Definition size_fits (r : EthReceipt.t) : bool :=
  match items (EthReceipt.receipt_val r) EthReceipt.receiptStorageRLP no_tags with
  | Some l => Z.of_nat (length (encs l)) <? 2 ^ 63
  | None => true
  end.

Lemma size_fits_ok l : forallb size_fits l = true -> Forall fits l.
Proof.
  intros H. apply Forall_forall. intros r Hr l' Hl. rewrite forallb_forall in H. apply list_elem_of_In in Hr.
  specialize (H r Hr). unfold size_fits in H. rewrite Hl in H. by apply Z.ltb_lt in H.
Qed.

Lemma sizes_fit : forallb size_fits (StateHelper.Receipts deploy_ran.2) = true /\ forallb size_fits (StateHelper.Receipts call_ran.1.2) = true.
Proof. split; vm_compute; reflexivity. Qed.

(** Both sides are evaluated, and not the types. *)
Ltac vm_equal := match goal with |- _ = ?r => vm_cast_no_check (eq_refl r) end.

Lemma deploy_new_well : is_helper (StateHelper.NewVMStateHelper (DK := map_Disk) empty_disk 0) = true.
Proof. vm_equal. Qed.
Lemma deploy_new : StateHelper.NewVMStateHelper (DK := map_Disk) empty_disk 0 = Some (inl (new_at empty_disk 0)).
Proof. exact_no_check (is_helper_ok _ deploy_new_well). Qed.
Lemma deploy_nonce_well : bool_decide (is_Some (SDB.SetNonce 7 (u64 (Transaction.Time deploy_tx)) (StateHelper.EthStateDB (new_at empty_disk 0)))) = true.
Proof. vm_equal. Qed.
Lemma deploy_nonce : SDB.SetNonce 7 (u64 (Transaction.Time deploy_tx)) (StateHelper.EthStateDB (new_at empty_disk 0)) = Some (deploy_start, tt).
Proof. exact_no_check (state_left_ok _ deploy_nonce_well). Qed.
Lemma deploy_runs_well : ended (applyTransaction (DK := map_Disk) sample_clock never 60 empty_disk deploy_tx (StateHelper.with_state (new_at empty_disk 0) deploy_start)) = true.
Proof. vm_equal. Qed.
Lemma deploy_runs : applyTransaction (DK := map_Disk) sample_clock never 60 empty_disk deploy_tx (StateHelper.with_state (new_at empty_disk 0) deploy_start) =
  Ret (deploy_ran.1, deploy_ran.2, None).
Proof. exact_no_check (ended_ok empty_disk no_helper _ deploy_runs_well). Qed.
Lemma deploy_commits_well : committed (StateHelper.Commit (DK := map_Disk) sample_text deploy_ran.2 deploy_ran.1) = true.
Proof. vm_equal. Qed.
Lemma deploy_commits : StateHelper.Commit (DK := map_Disk) sample_text deploy_ran.2 deploy_ran.1 = Some (deployed.1.1, deployed.1.2, inl deployed.2).
Proof. exact_no_check (committed_ok deploy_ran.1 deploy_ran.2 _ deploy_commits_well). Qed.

Lemma call_interface_well : has_value (interface_of sample_parse "") = true.
Proof. vm_equal. Qed.
Lemma call_interface : interface_of sample_parse "" = Ret the_abi.
Proof. exact_no_check (has_value_ok empty_ABI _ call_interface_well). Qed.
Lemma call_packs_well : has_value (ABI_Pack the_abi "f" []) = true.
Proof. vm_equal. Qed.
Lemma call_packs : ABI_Pack the_abi "f" [] = Ret the_data.
Proof. exact_no_check (has_value_ok [] _ call_packs_well). Qed.
Lemma call_new_well : is_helper (StateHelper.NewVMStateHelper (DK := map_Disk) deployed_disk 13) = true.
Proof. vm_equal. Qed.
Lemma call_new : StateHelper.NewVMStateHelper (DK := map_Disk) deployed_disk 13 = Some (inl (new_at deployed_disk 13)).
Proof. exact_no_check (is_helper_ok _ call_new_well). Qed.
Lemma call_runs_well : returned (call (DK := map_Disk) sample_clock never 60 deployed_disk (execute_tx 9) the_msg (new_at deployed_disk 13)) = true.
Proof. vm_equal. Qed.
Lemma call_runs : call (DK := map_Disk) sample_clock never 60 deployed_disk (execute_tx 9) the_msg (new_at deployed_disk 13) =
  Ret (call_ran.1.1, call_ran.1.2, inl call_ran.2).
Proof. exact_no_check (returned_ok deployed_disk (new_at deployed_disk 13) _ call_runs_well). Qed.
Lemma call_commits_well : committed (StateHelper.Commit (DK := map_Disk) sample_text call_ran.1.2 call_ran.1.1) = true.
Proof. vm_equal. Qed.
Lemma call_commits : StateHelper.Commit (DK := map_Disk) sample_text call_ran.1.2 call_ran.1.1 = Some (called.1.1, called.1.2, inl called.2).
Proof. exact_no_check (committed_ok call_ran.1.1 call_ran.1.2 _ call_commits_well). Qed.

(** The call found the code, and its result is what the code returns; its log is kept, but not under the hash of the
    transaction, so that no report has it. *)
Lemma call_returns : call_ran.2 = be_bytes 32 5.
Proof. vm_equal. Qed.
Lemma call_logs : StateHelper.AllLogs call_ran.1.2 = [].
Proof. vm_equal. Qed.
Example logs_of_calls_are_lost :
  length (default [] ((StateHelper.EthStateDB call_ran.1.2).(logs) !! 0)) = 1%nat /\ StateHelper.AllLogs call_ran.1.2 = [].
Proof. split; [vm_equal|exact call_logs]. Qed.

(** Account 7 has its storage elsewhere, so that the commit fails: no error is returned, and no gas. *)
Example failed_commits_return_no_error :
  match ExecuteSmartContract (DK := map_Disk) sample_clock never sample_text sample_parse 60 deployed_disk (execute_tx 7) [] with
  | Ret (_, r, None) => Some (r.(ContractMethodExecResult), r.(HertzCost))
  | _ => None
  end = Some ([], 0).
Proof. vm_equal. Qed.

(** A contract of one byte, the difficulty, ends the node. *)
Example one_byte_ends_the_node :
  DeploySmartContract (DK := map_Disk) sample_clock never sample_text 60 empty_disk
    (sample_tx 79 TypeDeploySmartContract 7 "" (hex_EncodeToString [DIFFICULTY]) "") = Panic.
Proof. vm_equal. Qed.

Lemma commits_record_everything_witness :
  StateHelper.HashOfTrieRootNode deployed.1.2 = deployed.2 /\
  (forall next, StateHelper.NewVMStateHelper (DK := map_Disk) deployed.1.1 (StateHelper.SmartContractAddress deploy_ran.2) = Some (inl next) ->
     StateHelper.HashOfTrieRootNode next = deployed.2 mod 2 ^ 256) /\
  Get (Disk := map_Disk) deployed.1.1 Helper.headTxKey = Some (hash_bytes (StateHelper.head_hash deploy_ran.2)).
Proof.
  pose proof (commits_record_everything (DK := map_Disk) sample_text deploy_ran.2 deploy_ran.1 deployed.1.1 deployed.1.2 deployed.2
    sample_takes_writes deploy_commits ltac:(vm_compute; apply NoDup_singleton) ltac:(vm_compute; apply NoDup_singleton)) as (H1 & H2 & H3 & _).
  exact (conj H1 (conj H2 H3)).
Defined.

Lemma deployments_are_reported_witness : exists s' msg st res r,
  SDB.Prepare (tx_hash deploy_tx) (tx_hash deploy_tx) 0 deploy_start = Some (s', tt) /\ AsMessage deploy_tx DefaultGasLimit = Some msg /\
  apply_message (DK := map_Disk) 60 (tx_env sample_clock never deploy_tx 7 0 7) s' empty_disk msg GasLimit = Ret (st, res) /\ res.(err) = None /\
  DeploySmartContract (DK := map_Disk) sample_clock never sample_text 60 empty_disk deploy_tx = Ret (deployed.1.1, r, None) /\
  reports r res (StateHelper.AllLogs deploy_ran.2) res.(contractAddress) /\
  (forall next, StateHelper.NewVMStateHelper (DK := map_Disk) deployed.1.1 res.(contractAddress) = Some (inl next) ->
     StateHelper.HashOfTrieRootNode next = deployed.2 mod 2 ^ 256).
Proof.
  apply (deployments_are_reported (DK := map_Disk) sample_clock never sample_text 60 empty_disk deploy_tx (be_bytes 32 77) 7 (new_at empty_disk 0)
    deploy_start deploy_ran.1 deploy_ran.2 deployed.1.1 deployed.1.2 deployed.2 sample_takes_writes (sample_hashed _ _ _ _ _ _)).
  - vm_compute. reflexivity.
  - reflexivity.
  - exact deploy_new.
  - exact deploy_nonce.
  - exact deploy_runs.
  - exact deploy_commits.
  - rewrite deploy_logs. exact (Forall_cons_2 _ _ _ deploy_log_ok (Forall_nil_2 _)).
  - vm_compute. split; [discriminate|reflexivity].
  - exact (size_fits_ok _ (proj1 sizes_fit)).
Defined.

(** The message of the deployment, on a state just opened *)
Definition deploy_msg : Message.t := default the_msg (AsMessage deploy_tx DefaultGasLimit).

Lemma deploy_msg_ok : message_ok deploy_msg.
Proof. split; [by vm_compute|done|done|]. apply sample_bytes; [by vm_compute|apply Nat.ltb_lt; by vm_compute]. Qed.

Lemma deploy_msg_foreseen : let EN := tx_env sample_clock never deploy_tx 7 0 7 in
  foreseen_run newConstantinopleInstructionSet deploy_msg.(Message.Gas)
    (fun run => ApplyMessage run (NewEVM (disk := @disk map_Database map_Disk) fresh_state (Some empty_disk)) deploy_msg GasLimit).
Proof.
  intros EN. set (laws := journaled_StateLaws sample_Keccak256 sample_takes_writes).
  pose proof (tx_env_ok sample_clock never deploy_tx 7 0 7 ltac:(done)) as EO.
  apply (foreseen_when (laws := laws) (EN := EN) (EO := EO) _ _ _ 60); [by do 4 right| |by vm_compute|vm_cast_no_check (eq_refl true)].
  intros run run'. apply ApplyMessage_le.
Qed.

Lemma messages_of_the_service_end_witness : exists st res,
  (forall fuel, enough_fuel (10 ^ 12) <= Z.of_nat fuel ->
     apply_message (DK := map_Disk) fuel (tx_env sample_clock never deploy_tx 7 0 7) fresh_state empty_disk deploy_msg GasLimit = Ret (st, res)) /\
  state_ok st.(st_evm).(evm_StateDB) /\ disk_opens (DK := map_Disk) (disk_of empty_disk st) /\
  (refused deploy_msg GasLimit (NewEVM fresh_state (Some empty_disk)) (st, res) \/
   abandoned (EN := tx_env sample_clock never deploy_tx 7 0 7) deploy_msg GasLimit (st, res) \/
   settled (EN := tx_env sample_clock never deploy_tx 7 0 7) deploy_msg GasLimit (st, res)).
Proof.
  apply (messages_of_the_service_end (DK := map_Disk) sample_clock never sample_Keccak256 sample_takes_writes deploy_tx 7 0 7
    fresh_state empty_disk deploy_msg GasLimit).
  - done.
  - exact fresh_state_ok.
  - exact empty_disk_opens.
  - exact deploy_msg_ok.
  - unfold is_u64, GasLimit. lia.
  - exact deploy_msg_foreseen.
Defined.

Lemma executions_are_reported_witness : exists st res r,
  apply_message (DK := map_Disk) 60 (tx_env sample_clock never (execute_tx 9) 9 DefaultGasPrice 9)
    (StateHelper.EthStateDB (new_at deployed_disk 13)) deployed_disk the_msg GasLimit = Ret (st, res) /\ res.(err) = None /\
  ExecuteSmartContract (DK := map_Disk) sample_clock never sample_text sample_parse 60 deployed_disk (execute_tx 9) [] =
    Ret (called.1.1, r, None) /\
  r.(ContractMethodExecResult) = res.(ret) /\ reports r res (StateHelper.AllLogs call_ran.1.2) 13 /\
  (forall next, StateHelper.NewVMStateHelper (DK := map_Disk) called.1.1 13 = Some (inl next) ->
     StateHelper.HashOfTrieRootNode next = called.2 mod 2 ^ 256).
Proof.
  apply (executions_are_reported (DK := map_Disk) sample_clock never sample_text sample_parse 60 deployed_disk (execute_tx 9) [] (be_bytes 32 78) 9 13
    (new_at deployed_disk 13) the_abi the_data call_ran.1.1 call_ran.1.2 call_ran.2 called.1.1 called.1.2 called.2
    sample_takes_writes (sample_hashed _ _ _ _ _ _)).
  - vm_compute. reflexivity.
  - vm_compute. reflexivity.
  - exact call_new.
  - exact call_interface.
  - exact call_packs.
  - exact call_runs.
  - exact call_commits.
  - rewrite call_logs. exact (Forall_nil_2 _).
  - unfold Receipts.address_ok. lia.
  - exact (size_fits_ok _ (proj2 sizes_fit)).
Defined.
End Witnesses.
